(* ===== verification/_CoqProject ===== *)
-Q . S2P
Prelude.v
GoStrings.v
Encoding.v
Json.v
Hash.v
GoUrl.v
GoPath.v
GoNet.v
Effects.v
Iam.v
Authz.v
Os.v
Sanitize.v
DiskEngine.v
Reconcile.v
WriteTimeout.v
UploadLock.v
Migrations.v
Schema.v
Db.v
ObjectRepo.v
BucketRepo.v
MultipartRepo.v
UserRepo.v
GrantRepo.v
ShareLinkRepo.v
ActivityRepo.v
Cache.v
Prog.v
CachedBucketRepo.v
CachedObjectRepo.v
CachedRepo.v
ObjectOps.v
Repositories.v
GoTime.v
GoParse.v
Config.v
Signer.v
S3Http.v
Middleware.v
SigV4.v
SigV4Spec.v
SigV4Exact.v
SigV4Presign.v
S3Xml.v
Checksum.v
S3Access.v
Auth.v
ConfigLoad.v
AuthSpec.v
S3Objects.v
S3Copy.v
S3Multipart.v
S3Complete.v
S3Buckets.v
S3Lists.v
ListingSpec.v
S3Delete.v
S3Public.v
S3Dispatch.v
MgmtHttp.v
MgmtKeys.v
MgmtBuckets.v
MgmtGrants.v
MgmtShareLinks.v
Setup.v
App.v
Integrity.v
IntegrityOps.v
IntegrityDisk.v
IntegrityAdmin.v
IntegrityHandlers.v
IntegrityMgmt.v
IntegrityApp.v
CacheApp.v
ObjectStore.v
MgmtSpec.v
AccessSpec.v
Startup.v
Boot.v
