(* ===== verification/Prelude.v ===== *)
(** * fbs-core, a single-node S3-compatible object store: the verified model

    fbs-core stores objects of buckets as files of a data directory and everything it
    knows about them in an SQLite database; it serves the S3 API, a JSON management API
    and signed public reads. This development translates the code of [cmd/server],
    [internal] and [migrations] into definitions that evaluate, and proves what they
    promise each other and their users. Line numbers of each definition are in the
    project's map; names are those of the Go code where Rocq allows it.

    ** How the program is modelled

    A Go function that changes state and returns an error is a computation of the
    monad [M S A] ([Effects]): it gets the state and returns a [result] and the new
    state; an error keeps the changes that were made before it. The storage engine runs
    on the file system [Os], the repositories run on the database [Db], the handlers on
    both and on the metadata cache, the [World] of [Prog]. A handler is not one step: it
    is a [prog World A] ([Prog]), a tree of calls - each one statement of a repository, one
    operation of the engine, one critical section of the cache, or a mutex taken or
    released - with Go code in between. [server_step]
    interleaves any number of them call by call, while [environment] lets time pass and
    changes what will fail. Every system call, statement, commit and check of a context
    consults an oracle of faults, so the theorems hold whatever fails, and whenever.

    ** The files

    The language and its packages:
    - [Prelude]: results, errors, tactics, lemmas on lists, maps and integers;
    - [GoStrings], [Encoding], [Json], [GoUrl], [GoPath], [GoNet], [GoTime], [GoParse],
      [Hash]: what the code uses of [strings], [strconv], [utf8], hex and base64, JSON,
      [net/url], [path/filepath], [net], [time], [flag] and the digests;
    - [Effects], [Os], [Db], [Prog]: the monad with its logic ([wp]), the file system,
      database access and transactions, the shared state, and programs that interleave
      with their logic ([safe]).

    Storage, [internal/storage]:
    - [Sanitize] (sanitize.go), [DiskEngine] (write.go, read.go, delete.go, engine.go),
      [Reconcile] (reconcile.go).

    Metadata, [internal/metadata] and [migrations]:
    - [Migrations] (migration.go): the schema as the migrations build it;
    - [Schema]: the tables they end with, constraints, triggers and statements;
      [ObjectRepo], [BucketRepo], [MultipartRepo], [UserRepo], [GrantRepo],
      [ShareLinkRepo], [ActivityRepo]: one file per repository, the statistics of
      management.go being in the last; [Repositories]: all of them together;
    - [Cache] (cache.go, cache_publication.go), [CachedBucketRepo], [CachedObjectRepo]: the
      LRU cache and the repositories behind it, which the handlers use; [CachedRepo]: any
      number of readers and writers of them.

    Identity: [Iam] (internal/iam), [Authz] (internal/authz), [SigV4], [SigV4Spec],
    [SigV4Exact], [SigV4Presign] (internal/auth/sigv4.go), [Auth], [AuthSpec] (the rest
    of internal/auth), [Signer] (internal/publicread).

    The S3 API, [internal/s3]: [S3Http] (requests, responses, bodies), [S3Xml], [Checksum],
    [S3Access], [S3Objects], [S3Copy], [UploadLock] (the locks of uploads), [S3Multipart],
    [S3Complete], [S3Buckets], [S3Lists], [S3Delete], [S3Public], [S3Dispatch];
    [ObjectOps] is internal/objectops. What it promises: [ListingSpec], [ObjectStore].

    The management API and the server: [MgmtHttp], [MgmtKeys], [MgmtBuckets],
    [MgmtGrants], [MgmtShareLinks] (internal/management, internal/sharelink), [Setup]
    (internal/setup), [Config], [ConfigLoad] (internal/config), [WriteTimeout],
    [Middleware] (internal/http), [App] (cmd/server: wiring and routes), [Boot] (cmd/server:
    [run] and [serve]; opening the database and the data directory).

    Properties of the components together: [Integrity], [IntegrityOps], [IntegrityDisk],
    [IntegrityAdmin], [IntegrityHandlers], [IntegrityMgmt], [IntegrityApp]; [CacheApp];
    [AccessSpec]; [MgmtSpec]; [Startup]; [Boot].

    ** What is shown

    - Storage integrity ([app_integral]): in every state that any number of requests of
      any routes reach, interleaved call by call with any faults, each row of an object
      or of a part names a file that exists and has the size of the row, no two rows name
      the same file, the constraints of the schema hold, all names have passed
      validation, and the files form a tree. The ghost state records, for each uuid
      drawn, which row or request owns the file of that name; a request that deletes a
      file owns it, or no row can name it again. The starting server cleans up within
      the same invariant ([reconcileStorage_spec], [Reconcile_spec]), so that it holds
      over any number of starts, stops and kills ([restarts_keep_integrity]).
    - The store ([objects_are_a_map]): Put, Copy, Delete and Get, one at a time, are the
      operations of a map from keys to objects with their bytes, as their status says,
      whatever fails; one answer leaves the outcome open to the client, a delete whose 500
      can mean that the object is gone and its file is left. A completed upload is the
      object made of the parts that the request names, and a refused one changes nothing
      ([CompleteMultipartUpload_completes]). Listings page through exactly the objects and
      common prefixes ([ListObjectsV2_complete]).
    - Files ([Write_spec], [AssembleParts_spec], [Write_succeeds]): a write publishes
      exactly what was read, or leaves the disk as it was. Paths
      ([ValidateKey_correct], [resolveStoragePath_contained], ...): no key, bucket or
      stored path leads out of its directory.
    - Metadata: [repositories_keep_schema] over all write operations; the functional
      behaviour of conditional replacement, uploads, grants, bucket deletion, the first
      user; pagination that lists every object once ([ListAllObjects_complete]).
    - Migrations ([Run_resumes], [Run_upgrades]): an upgrade that was interrupted is
      resumed to the same catalog; every earlier release is brought up to date with its
      rows kept.
    - The cache: in the server with all its handlers, whatever interleaves and fails, a
      row in the cache is the row of the database, or the next step of the request that
      has written it is the eviction ([app_cache_coherent]). Each request is shown to be,
      call by call, a thread of the system of readers and writers of [CachedRepo], of which
      this holds ([cache_coherent]) and whose reads end with a current row
      ([cached_read_current]). Alone, the cached repositories refine the wrapped ones
      ([cached_refines]); the byte budget holds ([cache_within_budget]); eviction is least
      recently used ([putLocked_lru]).
    - Authority ([Allow_correct], [Allow_fails_closed], [guarded_routes_need_credentials],
      [open_reads_are_entitled], [SigV4Authenticate_exact],
      [issued_credentials_authenticate], [signed_request_authenticates],
      [presigned_request_authenticates], [Verify_correct]): who is authenticated and what
      they may do, as relations, and that the code decides exactly these. Without
      credentials a signed URL or a share link whose creator may read the object gets
      the bytes of the object in the map, and nothing else does; a URL that was issued
      for an object opens this object until its expiry ([public_urls_open]).
    - The process: what [Load] returns and where each option comes from ([Load_spec]);
      foreign keys are on, whatever path names the database ([sqliteDSN_pragmas]); what
      the access log says of a request that may panic ([requests_are_logged]); a slow
      client gets a prefix of the bytes, and the whole unless it stalls
      ([transfer_delivers]).
    - Encodings and protocols: checksums, byte ranges, listing tokens and names, XML
      documents ([decodeXMLRequest_exact]); the counted locks of uploads are mutexes
      ([upload_locks_refine]).

    ** Bounds and fuel

    [list_pages] and what calls it (emptying a bucket, reconciliation) take the number of
    pages as fuel: [ListAllObjects_complete] shows that one more than the number of
    objects is enough, and the safety theorems hold for any fuel, running out being one
    more error. A cached read tries again when an eviction comes in between, at most
    [Rounds] times: alone it ends in its first round, whatever the bound is
    ([cached_refines]), the theorems about the server hold for any bound, and the step
    relation of [CachedRepo] has none. The other recursions
    with fuel (reading in chunks, sending a body, pruning directories, hashing in blocks,
    evicting) take a measure of their input that suffices, which their lemmas show. The
    cache's revision and sizes are 64-bit: the theorems assume fewer than 2^64 evictions,
    or steps of the server.

    ** What the model takes from outside

    Parameters with laws: the working directory ([Cwd]), uuids ([UuidLaws]: all
    different, and valid path segments), random numbers ([RandomLaws]; they share the
    counter of the uuids), the XML decoder's tokens and elements ([XmlDecoder]),
    [mime.ParseMediaType] ([MediaTypes]), [url.ParseRequestURI] ([RequestUri]), the user
    and host of a URL ([UrlAuthority]). The router has matched the route and its
    parameters. [public_urls_open] is about requests whose parameters are parts of the
    decoded path ([routed_publicly]); what the router takes from a path that it keeps in
    its encoded form is not known here.

    Simplifications, each on the side of the environment:
    - [time.Now] is the database's clock, which only [environment] moves; a failed commit
      rolls back; a fault stands for a crash of the call, a full disk, a busy database or
      a cancelled context alike; in [Migrations] also for a constraint that the rows of
      the table violate;
    - [MkdirAll] is one step, [RemoveAll] can stop half-way; a file that is open is read
      as it was when opened;
    - the JSON column of user metadata is the map it encodes; a nil map and an empty one
      differ by [option]; rows whose sort keys are equal come in the order of their
      primary keys;
    - [EqualFold] and [ToLower] fold ASCII letters; [time.RFC1123] with the local zone's
      name is read as UTC; a URL query has no limit on its number of parameters;
    - the JSON decoder does not model the element values that Go keeps when an object
      names the same array member twice;
    - the catalog of [Migrations] and the tables of [Schema] are two views of the database,
      and [Boot] carries both; the time that CURRENT_TIMESTAMP writes, the direction of an
      index and the text of a trigger are not represented;
    - [http.ServeContent] is the status, headers and bytes of its response; setting a
      deadline and seeking take no time in [WriteTimeout]; the critical sections of the
      table of upload locks are atomic, and in the handlers a lock is a mutex;
    - in the server's step relation an operation of the engine is one step (its own
      theorems go inside); reconciliation runs before the server answers requests;
    - [ListingSpec] takes a prefix and a delimiter that are valid UTF-8, keys that pass
      [ValidateKey], and a store that does not change between the pages; [ObjectStore]
      is about one request at a time, on a cache that agrees with the database, as it
      does whenever no request runs ([app_cache_coherent]).

    ** Not modelled

    Hijacking and pushing through the recorder of the access log, which no handler does;
    the CORS middleware and the router, packages of their own; the HTTP server of
    [net/http], signals, and the debug route of a build tag; what the handlers log.

    ** Plan

    Next: the success of an undisturbed multipart upload, changes of grants that overlap,
    the codes of share links, which texts [parseByteSize] refuses. *)

From stdpp Require Export base tactics list gmap strings sorting.
From Stdlib Require Export ZArith Lia Ascii.

#[export] Set Default Goal Selector "!".

(** Short pretty notations of the development live in this scope. *)
Declare Scope fbs_scope.
Delimit Scope fbs_scope with fbs.
#[global] Open Scope fbs_scope.

(** ** Results

    A Go function returning [(A, error)] is a function to [result A]. The
    constructors of [error] are the sentinel errors of the packages
    ([errors.New] values compared with [errors.Is]); wrapping with [%w] keeps
    the sentinel, so it is not represented. The last constructors stand for
    failures of the environment. *)

Inductive error : Type :=
  (* storage/error.go *)
  | ErrNotFound | ErrInvalidKey | ErrPathTraversal
  (* metadata *)
  | ErrBucketNotFound | ErrObjectNotFound | ErrUserNotFound | ErrUsersAlreadyExist
  | ErrMultipartUploadNotFound | ErrUploadAlreadyClaimed | ErrPreconditionFailed
  | ErrInvalidUploadStatus | ErrBucketHasMultipartUploads
  | ErrGrantNotFound | ErrInvalidGrantAction | ErrDuplicateGrant
  | ErrShareLinkNotFound | ErrShareLinkCodeTaken
  (* iam *)
  | ErrInvalidRole | ErrNotGrantable
  (* s3/multipart_complete.go *)
  | ErrNoCompletedParts | ErrPartOrder | ErrUnknownPart | ErrPartTooSmall
  (* SQLite constraint failures *)
  | ErrForeignKey | ErrUniqueConstraint
  (* the environment: a cancelled context, a failing statement or system call *)
  | ErrContext | ErrDatabase | ErrIO
  (* os.ErrNotExist *)
  | ErrNotExist
  (* any other error value, with its message *)
  | ErrOther (message : string).

#[export] Instance error_eq_dec : EqDecision error.
Proof. solve_decision. Defined.

Inductive result (A : Type) : Type :=
  | Ok (a : A)
  | Err (e : error).
Arguments Ok {A} a.
Arguments Err {A} e.

#[export] Instance result_eq_dec {A} `{EqDecision A} : EqDecision (result A).
Proof. solve_decision. Defined.

Definition is_ok {A} (r : result A) : bool :=
  match r with Ok _ => true | Err _ => false end.

Definition result_bind {A B} (r : result A) (k : A -> result B) : result B :=
  match r with Ok a => k a | Err e => Err e end.

Notation "'let?' x ':=' r 'in' k" :=
  (result_bind r (fun x => k))
  (at level 10, x pattern, r at level 200, k at level 200) : fbs_scope.

(** ** Automation

    [destruct_matches] splits every [match] of the goal or of a hypothesis;
    [fbs_simpl] is the finishing step
    of most case analyses. *)

Create HintDb fbs discriminated.

Ltac destruct_match_goal :=
  match goal with
  | |- context [match ?x with _ => _ end] =>
      lazymatch x with context [match _ with _ => _ end] => fail | _ => destruct x eqn:? end
  end.

Ltac destruct_match_hyp :=
  match goal with
  | H : context [match ?x with _ => _ end] |- _ =>
      lazymatch x with context [match _ with _ => _ end] => fail | _ => destruct x eqn:? end
  end.

Ltac fbs_simpl := repeat (destruct_match_goal || destruct_match_hyp); simplify_eq/=; eauto with fbs.

(** A closed decidable proposition, by evaluation. *)
Ltac by_decide := apply (bool_decide_unpack _); vm_compute; exact I.

(** ** Generic lemmas *)

Section ListLemmas.
Context {A : Type}.
Implicit Types l k : list A.

Lemma app_inj_length l1 l2 k1 k2 :
  length l1 = length k1 -> l1 ++ l2 = k1 ++ k2 -> l1 = k1 /\ l2 = k2.
Proof. intros Hlen Happ. by apply app_inj_1 in Happ. Qed.

Lemma Forall_rev l (P : A -> Prop) : Forall P l -> Forall P (reverse l).
Proof. apply Forall_reverse. Qed.

Lemma list_filter_all (P : A -> Prop) `{forall x, Decision (P x)} l :
  (forall x, x ∈ l -> P x) -> filter P l = l.
Proof.
  induction l as [|x l IH]; intros Hl; [done|]. rewrite filter_cons_True by (apply Hl; by left).
  f_equal. apply IH. intros y Hy. apply Hl. by right.
Qed.

Lemma list_filter_none (P : A -> Prop) `{forall x, Decision (P x)} l :
  (forall x, x ∈ l -> ~ P x) -> filter P l = [].
Proof.
  induction l as [|x l IH]; intros Hl; [done|]. rewrite filter_cons_False by (apply Hl; by left).
  apply IH. intros y Hy. apply Hl. by right.
Qed.
End ListLemmas.
