(* ===== verification/GoStrings.v ===== *)
(** * The parts of Go's [strings], [unicode/utf8], [strconv] and [encoding]
    packages that the program uses

    A Go string is a byte sequence; it is modelled by [string], whose
    characters are bytes. White space and UTF-8 are handled on the byte
    encodings of the runes, so that the functions are executable. *)

From S2P Require Import Prelude.

#[global] Open Scope string_scope.
#[global] Open Scope list_scope.
#[global] Arguments String.append !_ _ / : simpl nomatch.

Definition byte_val (a : ascii) : Z := Z.of_N (N_of_ascii a).
Definition byte_of (z : Z) : ascii := ascii_of_N (Z.to_N (z mod 256)).

(** The double quote. *)
Definition quote_byte : ascii := "034"%char.
Definition quote_str : string := String quote_byte "".

Definition string_len (s : string) : Z := Z.of_nat (String.length s).

(** ** Prefixes, suffixes, searching *)

(** [strings.HasPrefix]. *)
Fixpoint has_prefix (s p : string) {struct p} : bool :=
  match p, s with
  | EmptyString, _ => true
  | String b p', String a s' => Ascii.eqb a b && has_prefix s' p'
  | String _ _, EmptyString => false
  end.

Fixpoint drop_bytes (n : nat) (s : string) : string :=
  match n, s with
  | O, _ => s
  | S n, String _ s => drop_bytes n s
  | S _, EmptyString => EmptyString
  end.

Fixpoint take_bytes (n : nat) (s : string) : string :=
  match n, s with
  | O, _ => EmptyString
  | S n, String a s => String a (take_bytes n s)
  | S _, EmptyString => EmptyString
  end.

(** [strings.TrimPrefix]. *)
Definition trim_prefix (s p : string) : string :=
  if has_prefix s p then drop_bytes (String.length p) s else s.

(** [strings.HasSuffix]. *)
Definition has_suffix (s p : string) : bool :=
  (String.length p <=? String.length s)%nat
  && String.eqb (drop_bytes (String.length s - String.length p) s) p.

(** [strings.TrimSuffix]. *)
Definition trim_suffix (s p : string) : string :=
  if has_suffix s p then take_bytes (String.length s - String.length p) s else s.

(** [strings.Contains]. *)
Fixpoint contains (s sub : string) : bool :=
  has_prefix s sub
  || match s with
     | EmptyString => false
     | String _ s' => contains s' sub
     end.

(** A byte occurs in a string; [strings.ContainsAny] for ASCII characters. *)
Fixpoint contains_byte (s : string) (c : ascii) : bool :=
  match s with
  | EmptyString => false
  | String a s' => Ascii.eqb a c || contains_byte s' c
  end.

(** [strings.ReplaceAll s old new] for one-byte [old] and [new]. *)
Fixpoint replace_byte (s : string) (old new : ascii) : string :=
  match s with
  | EmptyString => EmptyString
  | String a s' => String (if Ascii.eqb a old then new else a) (replace_byte s' old new)
  end.

(** ** Splitting and joining *)

(** [strings.Cut s sep] for a one-byte separator: before, after, found. *)
Fixpoint cut (s : string) (sep : ascii) : string * string * bool :=
  match s with
  | EmptyString => (EmptyString, EmptyString, false)
  | String a s' =>
      if Ascii.eqb a sep then (EmptyString, s', true)
      else let '(b, r, f) := cut s' sep in (String a b, r, f)
  end.

(** [strings.Split s sep] for a one-byte separator. *)
Fixpoint split (s : string) (sep : ascii) : list string :=
  match s with
  | EmptyString => [EmptyString]
  | String a s' =>
      if Ascii.eqb a sep then EmptyString :: split s' sep
      else match split s' sep with
           | [] => [String a EmptyString]
           | w :: ws => String a w :: ws
           end
  end.

(** [strings.Join]. *)
Fixpoint join (l : list string) (sep : string) : string :=
  match l with
  | [] => EmptyString
  | [s] => s
  | s :: l' => s +:+ sep +:+ join l' sep
  end.

(** ** UTF-8

    [utf8.ValidString], with the acceptance ranges of the Unicode standard:
    no overlong encodings, no surrogates, nothing above U+10FFFF. *)

Definition between (lo hi : Z) (a : ascii) : bool :=
  (lo <=? byte_val a)%Z && (byte_val a <=? hi)%Z.

Definition is_cont : ascii -> bool := between 128 191.

(** The range of the second byte, by the first byte of a multi-byte rune:
    [None] when no multi-byte rune starts with it. The number is the count of
    continuation bytes. *)
Definition utf8_lead (a : ascii) : option (nat * (ascii -> bool)) :=
  if between 194 223 a then Some (1%nat, is_cont)
  else if between 224 224 a then Some (2%nat, between 160 191)
  else if between 225 236 a then Some (2%nat, is_cont)
  else if between 237 237 a then Some (2%nat, between 128 159)
  else if between 238 239 a then Some (2%nat, is_cont)
  else if between 240 240 a then Some (3%nat, between 144 191)
  else if between 241 243 a then Some (3%nat, is_cont)
  else if between 244 244 a then Some (3%nat, between 128 143)
  else None.

Fixpoint valid_utf8 (s : string) : bool :=
  match s with
  | EmptyString => true
  | String a s1 =>
      if (byte_val a <? 128)%Z then valid_utf8 s1
      else match utf8_lead a, s1 with
           | Some (1%nat, second), String b s2 => second b && valid_utf8 s2
           | Some (2%nat, second), String b (String c s3) =>
               second b && is_cont c && valid_utf8 s3
           | Some (_, second), String b (String c (String d s4)) =>
               second b && is_cont c && is_cont d && valid_utf8 s4
           | _, _ => false
           end
  end.

(** The length of the rune that a text starts with; [None] for an invalid byte. *)
Definition rune_len (s : string) : option nat :=
  match s with
  | EmptyString => None
  | String a _ =>
      if (byte_val a <? 128)%Z then Some 1%nat
      else match utf8_lead a with
           | Some (n, _) => if Nat.ltb n (String.length s) && valid_utf8 (take_bytes (S n) s) then Some (S n) else None
           | None => None
           end
  end.

(** U+FFFD, which stands for an invalid byte. *)
Definition replacement : string := String (byte_of 239) (String (byte_of 191) (String (byte_of 189) "")).

(** ** White space

    The encodings of the runes of [unicode.IsSpace]: tab to carriage return,
    space, U+0085, U+00A0, U+1680, U+2000 to U+200A, U+2028, U+2029, U+202F,
    U+205F and U+3000. [space_len s] is the length of the white-space rune that
    [s] starts with. *)

Definition is_ascii_space (a : ascii) : bool := between 9 13 a || between 32 32 a.

Definition space_len (s : string) : option nat :=
  match s with
  | EmptyString => None
  | String a r =>
      if is_ascii_space a then Some 1%nat
      else match r with
           | EmptyString => None
           | String b r' =>
               if (byte_val a =? 194)%Z && ((byte_val b =? 133)%Z || (byte_val b =? 160)%Z)
               then Some 2%nat
               else match r' with
                    | EmptyString => None
                    | String c _ =>
                        let x := (byte_val a * 65536 + byte_val b * 256 + byte_val c)%Z in
                        if (x =? 0xE19A80)%Z                                  (* U+1680 *)
                           || ((0xE28080 <=? x)%Z && (x <=? 0xE2808A)%Z)      (* U+2000 - U+200A *)
                           || (x =? 0xE280A8)%Z || (x =? 0xE280A9)%Z          (* U+2028, U+2029 *)
                           || (x =? 0xE280AF)%Z || (x =? 0xE2819F)%Z          (* U+202F, U+205F *)
                           || (x =? 0xE38080)%Z                               (* U+3000 *)
                        then Some 3%nat else None
                    end
           end
  end.

(** Drop the white-space runes at the start; [n] bounds the rounds. *)
Fixpoint trim_left_go (n : nat) (s : string) : string :=
  match n with
  | O => s
  | S n => match space_len s with
           | Some k => trim_left_go n (drop_bytes k s)
           | None => s
           end
  end.

Definition trim_left (s : string) : string := trim_left_go (String.length s) s.

(** The length of the prefix of [s] that ends before its trailing run of white
    space: a rune at the end is a space when some suffix of at most three bytes
    is exactly a white-space encoding. *)
Definition space_suffix_len (s : string) : option nat :=
  let at_ k :=
    let t := drop_bytes (String.length s - k) s in
    if (k <=? String.length s)%nat then
      match space_len t with Some k' => if (k' =? k)%nat then Some k else None | None => None end
    else None in
  match at_ 1%nat with
  | Some k => Some k
  | None => match at_ 2%nat with Some k => Some k | None => at_ 3%nat end
  end.

Fixpoint trim_right_go (n : nat) (s : string) : string :=
  match n with
  | O => s
  | S n => match space_suffix_len s with
           | Some k => trim_right_go n (take_bytes (String.length s - k) s)
           | None => s
           end
  end.

Definition trim_right (s : string) : string := trim_right_go (String.length s) s.

(** [strings.TrimSpace]. *)
Definition trim_space (s : string) : string := trim_right (trim_left s).

(** [strings.Fields]: the maximal runs without white space. [cur] is the
    word being read; [n] bounds the rounds, one per byte. *)
Fixpoint fields_go (n : nat) (cur s : string) : list string :=
  let flush rest := if String.eqb cur "" then rest else cur :: rest in
  match n, s with
  | O, _ | _, EmptyString => flush []
  | S n, String a s' =>
      match space_len s with
      | Some k => flush (fields_go n "" (drop_bytes k s))
      | None => fields_go n (cur +:+ String a "") s'
      end
  end.

Definition fields (s : string) : list string := fields_go (S (String.length s)) "" s.

(** ** Letter case *)

Definition ascii_lower (a : ascii) : ascii :=
  if between 65 90 a then byte_of (byte_val a + 32) else a.

Definition ascii_upper (a : ascii) : ascii :=
  if between 97 122 a then byte_of (byte_val a - 32) else a.

Fixpoint map_bytes (f : ascii -> ascii) (s : string) : string :=
  match s with
  | EmptyString => EmptyString
  | String a s' => String (f a) (map_bytes f s')
  end.

(** [strings.ToLower] and [strings.ToUpper] of ASCII letters. The program
    compares the result with ASCII constants and rejects other bytes, see the
    uses. *)
Definition to_lower (s : string) : string := map_bytes ascii_lower s.
Definition to_upper (s : string) : string := map_bytes ascii_upper s.

(** Simple case folding. Besides A to Z, the runes that fold to an ASCII letter
    are U+017F (to s) and U+212A (to k). *)
Fixpoint fold_case (s : string) : string :=
  match s with
  | EmptyString => EmptyString
  | String a s1 =>
      match s1 with
      | String b s2 =>
          if (byte_val a =? 197)%Z && (byte_val b =? 191)%Z then String "s" (fold_case s2)
          else match s2 with
               | String c s3 =>
                   if (byte_val a =? 226)%Z && (byte_val b =? 132)%Z && (byte_val c =? 170)%Z
                   then String "k" (fold_case s3)
                   else String (ascii_lower a) (fold_case s1)
               | EmptyString => String (ascii_lower a) (fold_case s1)
               end
      | EmptyString => String (ascii_lower a) EmptyString
      end
  end.

(** [strings.EqualFold] when one argument is ASCII: every call of the program
    compares with an ASCII constant or with a stored ETag, which is ASCII. *)
Definition equal_fold (s t : string) : bool := String.eqb (fold_case s) (fold_case t).

(** ** Numbers *)

Definition digit_val (a : ascii) : option Z :=
  if between 48 57 a then Some (byte_val a - 48)%Z else None.

Fixpoint parse_digits (acc : Z) (s : string) : option Z :=
  match s with
  | EmptyString => Some acc
  | String a s' =>
      match digit_val a with
      | Some d => parse_digits (acc * 10 + d)%Z s'
      | None => None
      end
  end.

Definition min_int64 : Z := (- 2 ^ 63)%Z.
Definition max_int64 : Z := (2 ^ 63 - 1)%Z.

(** [strconv.ParseInt s 10 64], and [strconv.Atoi] where [int] has 64 bits: an
    optional sign, at least one digit, and the value in range. *)
Definition parse_int (s : string) : option Z :=
  let '(sign, ds) :=
    match s with
    | String "+" r => (1, r)%Z
    | String "-" r => (-1, r)%Z
    | _ => (1, s)%Z
    end in
  if String.eqb ds "" then None
  else match parse_digits 0 ds with
       | Some v => let x := (sign * v)%Z in
                   if (min_int64 <=? x)%Z && (x <=? max_int64)%Z then Some x else None
       | None => None
       end.

Lemma parse_int_range s x : parse_int s = Some x -> (min_int64 <= x <= max_int64)%Z.
Proof.
  unfold parse_int. intros H. repeat case_match; simplify_eq; lia.
Qed.

(** Decimal digits of a natural number, most significant first; [n] bounds the
    number of digits. *)
Fixpoint format_nat_go (n : nat) (z : Z) (acc : string) : string :=
  match n with
  | O => acc
  | S n => let acc' := String (byte_of (48 + z mod 10)) acc in
           if (z <? 10)%Z then acc' else format_nat_go n (z / 10)%Z acc'
  end.

(** [strconv.FormatInt z 10] for 64-bit values (at most 19 digits). *)
Definition format_int (z : Z) : string :=
  if (z <? 0)%Z then String "-" (format_nat_go 20 (- z)%Z "") else format_nat_go 20 z "".

(** ** Laws *)

Lemma append_nil_r s : s +:+ "" = s.
Proof. induction s as [|a s IH]; simpl; congruence. Qed.

Lemma append_assoc s t u : (s +:+ t) +:+ u = s +:+ (t +:+ u).
Proof. induction s as [|a s IH]; simpl; congruence. Qed.

Lemma append_cons a s t : String a s +:+ t = String a (s +:+ t).
Proof. done. Qed.

Lemma length_append s t : String.length (s +:+ t) = (String.length s + String.length t)%nat.
Proof. induction s as [|a s IH]; simpl; congruence. Qed.

Lemma append_inj_l s t u : s +:+ t = s +:+ u -> t = u.
Proof. induction s as [|a s IH]; simpl; [done|]. intros [= H]; auto. Qed.

Lemma append_eq_empty s t : s +:+ t = "" -> s = "" /\ t = "".
Proof. by destruct s. Qed.

Lemma drop_bytes_append s t : drop_bytes (String.length s) (s +:+ t) = t.
Proof. by induction s. Qed.

Lemma take_bytes_append s t : take_bytes (String.length s) (s +:+ t) = s.
Proof. induction s as [|a s IH]; simpl; [by destruct t|congruence]. Qed.

Lemma take_drop_bytes n s : take_bytes n s +:+ drop_bytes n s = s.
Proof. revert s; induction n as [|n IH]; intros [|a s]; simpl; f_equal; auto. Qed.

Lemma length_take_bytes n s : String.length (take_bytes n s) = Nat.min n (String.length s).
Proof. revert s; induction n as [|n IH]; intros [|a s]; simpl; [done..|]. by rewrite IH. Qed.

Lemma length_drop_bytes n s : String.length (drop_bytes n s) = String.length s - n.
Proof. revert s; induction n as [|n IH]; intros [|a s]; simpl; [done..|]. by rewrite IH. Qed.

Lemma take_bytes_plus s n t : take_bytes (String.length s + n) (s +:+ t) = s +:+ take_bytes n t.
Proof. induction s as [|a s IH]; [done|]. simpl. f_equal. apply IH. Qed.

Lemma take_take_bytes n s : take_bytes (String.length (take_bytes n s)) s = take_bytes n s.
Proof. revert s; induction n as [|n IH]; intros [|a s]; simpl; [done..|]. f_equal. apply IH. Qed.

Lemma drop_drop_bytes n m s : drop_bytes (n + m) s = drop_bytes m (drop_bytes n s).
Proof. revert s; induction n as [|n IH]; intros [|a s]; simpl; [done..|by destruct m|apply IH]. Qed.

Lemma take_drop_limit n l s : take_bytes (l - n) (drop_bytes n s) = drop_bytes n (take_bytes l s).
Proof.
  revert l s; induction n as [|n IH]; intros l s; [by rewrite Nat.sub_0_r|].
  destruct s as [|a s]; [by destruct (l - S n)%nat, l|]. destruct l as [|l]; [done|]. apply IH.
Qed.

Lemma has_prefix_spec s p : has_prefix s p = true <-> exists r, s = p +:+ r.
Proof.
  revert s; induction p as [|b p IH]; intros [|a s]; simpl; try by (split; eauto).
  - split; [done|]. by intros [r [=]].
  - rewrite andb_true_iff, Ascii.eqb_eq, IH. split.
    + intros [-> [r ->]]; eauto.
    + intros [r [= -> ->]]; eauto.
Qed.

Lemma has_prefix_append p r : has_prefix (p +:+ r) p = true.
Proof. apply has_prefix_spec; eauto. Qed.

Lemma has_prefix_empty s : has_prefix s "" = true.
Proof. by destruct s. Qed.

Lemma has_prefix_trans s p q : has_prefix s p = true -> has_prefix p q = true -> has_prefix s q = true.
Proof.
  rewrite !has_prefix_spec. intros [r ->] [r' ->]. exists (r' +:+ r). by rewrite append_assoc.
Qed.

Lemma trim_prefix_append p r : trim_prefix (p +:+ r) p = r.
Proof. unfold trim_prefix. by rewrite has_prefix_append, drop_bytes_append. Qed.

(** *** Splitting and joining *)

Lemma split_not_nil s c : split s c <> [].
Proof. destruct s as [|a s]; simpl; [done|]. destruct (Ascii.eqb a c); [done|]. by destruct (split s c). Qed.

Lemma split_no_sep s c : contains_byte s c = false -> split s c = [s].
Proof.
  induction s as [|a s IH]; simpl; [done|].
  intros [Ha Hs]%orb_false_iff. by rewrite Ha, IH.
Qed.

Lemma split_append_sep s t c :
  contains_byte s c = false -> split (s +:+ String c t) c = s :: split t c.
Proof.
  induction s as [|a s IH]; simpl; intros H.
  - by rewrite Ascii.eqb_refl.
  - apply orb_false_iff in H as [Ha Hs]. by rewrite Ha, IH.
Qed.

Lemma split_join l c :
  l <> [] -> Forall (fun s => contains_byte s c = false) l ->
  split (join l (String c "")) c = l.
Proof.
  intros Hne Hall. induction Hall as [|s l Hs Hall IH]; [done|].
  destruct l as [|t l].
  - by apply split_no_sep.
  - change (join (s :: t :: l) (String c "")) with (s +:+ String c "" +:+ join (t :: l) (String c "")).
    change (String c "" +:+ ?u) with (String c u).
    rewrite split_append_sep by done. f_equal. by apply IH.
Qed.

Lemma join_split s c : join (split s c) (String c "") = s.
Proof.
  induction s as [|a s IH]; simpl; [done|].
  destruct (Ascii.eqb_spec a c) as [->|Hne].
  - destruct (split s c) as [|w ws] eqn:E; [by apply split_not_nil in E|].
    change (join ("" :: w :: ws) (String c "")) with (String c "" +:+ join (w :: ws) (String c "")).
    by rewrite IH.
  - destruct (split s c) as [|w ws] eqn:E; [by apply split_not_nil in E|].
    destruct ws; simpl in *; congruence.
Qed.

Lemma split_elem_no_sep s c w : w ∈ split s c -> contains_byte w c = false.
Proof.
  revert w; induction s as [|a s IH]; simpl; intros w Hw.
  - by apply list_elem_of_singleton in Hw as ->.
  - destruct (Ascii.eqb a c) eqn:Ea.
    + apply elem_of_cons in Hw as [->|Hw]; auto.
    + destruct (split s c) as [|w' ws] eqn:E; [by apply split_not_nil in E|].
      apply elem_of_cons in Hw as [->|Hw]; simpl.
      * rewrite Ea. apply IH. by left.
      * apply IH. by right.
Qed.

Lemma contains_byte_append s t c :
  contains_byte (s +:+ t) c = contains_byte s c || contains_byte t c.
Proof. induction s as [|a s IH]; simpl; [done|]. by rewrite IH, orb_assoc. Qed.

(** The first separator tells where the text before it ends. *)
Lemma append_sep_inj c s1 s2 t1 t2 :
  contains_byte s1 c = false -> contains_byte s2 c = false ->
  s1 +:+ String c t1 = s2 +:+ String c t2 -> s1 = s2 /\ t1 = t2.
Proof.
  revert s2; induction s1 as [|a s1 IH]; intros [|b s2]; cbn [String.append contains_byte]; intros H1 H2 E.
  - by injection E as <-.
  - injection E as <- _. by rewrite Ascii.eqb_refl in H2.
  - injection E as -> _. by rewrite Ascii.eqb_refl in H1.
  - injection E as <- E. apply orb_false_iff in H1 as [_ H1], H2 as [_ H2].
    by destruct (IH s2 H1 H2 E) as [-> ->].
Qed.

Lemma cut_spec s c b r f :
  cut s c = (b, r, f) ->
  contains_byte b c = false /\
  if f then s = b +:+ String c r else s = b /\ r = "" /\ contains_byte s c = false.
Proof.
  revert b r f; induction s as [|a s IH]; simpl; intros b r f H.
  - by simplify_eq.
  - destruct (Ascii.eqb a c) eqn:Ea; [apply Ascii.eqb_eq in Ea as ->; by simplify_eq|].
    destruct (cut s c) as [[b' r'] f'] eqn:E. simplify_eq/=. rewrite Ea.
    destruct (IH _ _ _ eq_refl) as [Hb Hf]. split; [done|].
    destruct f; [by rewrite Hf at 1|]. destruct Hf as (-> & -> & ?). done.
Qed.

(** ** White space and printable bytes *)

Lemma byte_val_bounds a : (0 <= byte_val a < 256)%Z.
Proof. unfold byte_val. pose proof (N_ascii_bounded a). lia. Qed.

(** A byte that no white-space encoding contains. *)
Definition printable (c : ascii) : Prop := (33 <= byte_val c <= 127)%Z.

Lemma byte_neq a b : byte_val a <> byte_val b -> Ascii.eqb a b = false.
Proof. intros H. apply Ascii.eqb_neq. by intros ->. Qed.

Lemma space_len_not_printable s k c :
  printable c -> space_len s = Some k ->
  k <= String.length s /\ 1 <= k /\ contains_byte (take_bytes k s) c = false.
Proof.
  intros Hc. destruct s as [|a s]; [done|]. unfold space_len, printable in *.
  pose proof (byte_val_bounds a). destruct (is_ascii_space a) eqn:Ea.
  { intros [= <-]. split_and!; [simpl; lia..|]. simpl.
    unfold is_ascii_space, between in Ea. rewrite byte_neq; [done|]. lia. }
  destruct s as [|b s]; [done|]. pose proof (byte_val_bounds b).
  destruct (_ && _) eqn:E2.
  { intros [= <-]. split_and!; [simpl; lia..|]. simpl. rewrite !byte_neq; [done|lia..]. }
  destruct s as [|d s]; [done|]. pose proof (byte_val_bounds d). cbv zeta.
  match goal with |- (if ?x then _ else _) = _ -> _ => destruct x eqn:E3; [|done] end.
  intros [= <-]. split_and!; [simpl; lia..|]. simpl.
  rewrite !byte_neq; [done|lia..].
Qed.

Lemma trim_left_go_printable n s c :
  printable c -> contains_byte (trim_left_go n s) c = contains_byte s c.
Proof.
  intros Hc. revert s; induction n as [|n IH]; intros s; [done|]. simpl.
  destruct (space_len s) as [k|] eqn:E; [|done].
  destruct (space_len_not_printable s k c Hc E) as (_ & _ & Hk).
  rewrite IH. rewrite <- (take_drop_bytes k s) at 2. by rewrite contains_byte_append, Hk.
Qed.

Lemma take_bytes_all s : take_bytes (String.length s) s = s.
Proof. rewrite <- (append_nil_r s) at 2. apply take_bytes_append. Qed.

Lemma space_suffix_len_printable s k c :
  printable c -> space_suffix_len s = Some k ->
  contains_byte (drop_bytes (String.length s - k) s) c = false.
Proof.
  intros Hc.
  assert (Hat : forall j, (if (j <=? String.length s)%nat then
      match space_len (drop_bytes (String.length s - j) s) with
      | Some k' => if (k' =? j)%nat then Some j else None | None => None end else None) = Some k ->
      contains_byte (drop_bytes (String.length s - k) s) c = false).
  { intros j. destruct (Nat.leb_spec j (String.length s)) as [Hj|]; [|done].
    destruct (space_len _) as [k'|] eqn:E; [|done].
    destruct (Nat.eqb_spec k' j) as [->|]; [|done]. intros [= ->].
    destruct (space_len_not_printable _ _ c Hc E) as (_ & _ & Ht).
    assert (Hl : String.length (drop_bytes (String.length s - k) s) = k).
    { pose proof (take_drop_bytes (String.length s - k) s) as El%(f_equal String.length).
      rewrite length_append in El.
      assert (String.length (take_bytes (String.length s - k) s) = String.length s - k); [|lia].
      clear. assert (H : String.length s - k <= String.length s) by lia.
      revert H. generalize (String.length s - k). intros m. revert s.
      induction m as [|m IH]; intros [|a s] Hm; simpl in *; [done..|lia|]. rewrite IH; lia. }
    rewrite <- Hl in Ht at 1. by rewrite take_bytes_all in Ht. }
  unfold space_suffix_len. cbv zeta.
  pose proof (Hat 1) as H1. pose proof (Hat 2) as H2. pose proof (Hat 3) as H3.
  destruct (if (1 <=? _)%nat then _ else None) as [k1|]; [intros [= ->]; by apply H1|].
  destruct (if (2 <=? _)%nat then _ else None) as [k2|]; [intros [= ->]; by apply H2|].
  exact H3.
Qed.

Lemma trim_right_go_printable n s c :
  printable c -> contains_byte (trim_right_go n s) c = contains_byte s c.
Proof.
  intros Hc. revert s; induction n as [|n IH]; intros s; [done|]. simpl.
  destruct (space_suffix_len s) as [k|] eqn:E; [|done].
  pose proof (space_suffix_len_printable s k c Hc E) as Hk.
  pose proof (take_drop_bytes (String.length s - k) s) as Es. rewrite IH.
  rewrite <- Es at 3. by rewrite contains_byte_append, Hk, orb_false_r.
Qed.

(** [TrimSpace] removes no printable byte. *)
Lemma trim_space_printable s c :
  printable c -> contains_byte (trim_space s) c = contains_byte s c.
Proof.
  intros Hc. unfold trim_space, trim_right, trim_left.
  by rewrite trim_right_go_printable, trim_left_go_printable.
Qed.

Lemma forallb_append (P : ascii -> bool) s t :
  forallb P (String.list_ascii_of_string (s +:+ t)) =
  forallb P (String.list_ascii_of_string s) && forallb P (String.list_ascii_of_string t).
Proof.
  induction s as [|a s IH]; [done|].
  change (P a && forallb P (String.list_ascii_of_string (s +:+ t)) =
          P a && forallb P (String.list_ascii_of_string s) && forallb P (String.list_ascii_of_string t)).
  by rewrite IH, andb_assoc.
Qed.

(** Text without white space. *)
Definition all_printable (s : string) : bool := forallb (between 33 127) (String.list_ascii_of_string s).

Lemma all_printable_cons a s : all_printable (String a s) = between 33 127 a && all_printable s.
Proof. done. Qed.

Lemma all_printable_append s t : all_printable (s +:+ t) = all_printable s && all_printable t.
Proof. apply forallb_append. Qed.

Lemma printable_between a : between 33 127 a = true -> printable a.
Proof. unfold between, printable. lia. Qed.

Lemma all_printable_bytes s : (forall c, contains_byte s c = true -> between 33 127 c = true) -> all_printable s = true.
Proof.
  induction s as [|a s IH]; intros H; [done|]. rewrite all_printable_cons. apply andb_true_iff. split.
  - apply H. cbn [contains_byte]. by rewrite Ascii.eqb_refl.
  - apply IH. intros c Hc. apply H. cbn [contains_byte]. rewrite Hc. apply orb_true_r.
Qed.

Lemma space_len_all_printable s : all_printable s = true -> space_len s = None.
Proof.
  destruct s as [|a s]; [done|]. rewrite all_printable_cons. intros [Ha _]%andb_true_iff.
  destruct (space_len (String a s)) as [k|] eqn:E; [|done].
  destruct (space_len_not_printable _ _ a (printable_between _ Ha) E) as (_ & Hk & Hc).
  destruct k as [|k]; [lia|]. cbn [take_bytes contains_byte] in Hc. by rewrite Ascii.eqb_refl in Hc.
Qed.

Lemma all_printable_drop n s : all_printable s = true -> all_printable (drop_bytes n s) = true.
Proof.
  revert s; induction n as [|n IH]; intros [|a s]; try done. rewrite all_printable_cons.
  intros [_ Hs]%andb_true_iff. by apply IH.
Qed.

Lemma space_suffix_len_all_printable s : all_printable s = true -> space_suffix_len s = None.
Proof.
  intros Hs. unfold space_suffix_len. cbv zeta.
  rewrite !space_len_all_printable by by apply all_printable_drop. by repeat case_match.
Qed.

Lemma trim_left_go_all_printable n s : all_printable s = true -> trim_left_go n s = s.
Proof. intros Hs. destruct n; [done|]. cbn [trim_left_go]. by rewrite space_len_all_printable. Qed.

Lemma trim_right_go_all_printable n s : all_printable s = true -> trim_right_go n s = s.
Proof. intros Hs. destruct n; [done|]. cbn [trim_right_go]. by rewrite space_suffix_len_all_printable. Qed.

Lemma trim_space_all_printable s : all_printable s = true -> trim_space s = s.
Proof.
  intros Hs. unfold trim_space, trim_left, trim_right.
  by rewrite trim_left_go_all_printable, trim_right_go_all_printable.
Qed.

Lemma trim_space_leading s : all_printable s = true -> trim_space (String " " s) = s.
Proof.
  intros Hs. unfold trim_space, trim_left, trim_right. cbn [String.length trim_left_go space_len].
  change (is_ascii_space " ") with true. cbv iota. cbn [drop_bytes].
  by rewrite trim_left_go_all_printable, trim_right_go_all_printable.
Qed.

(** A byte outside a class of bytes does not occur in a text of the class. *)
Lemma class_no_byte (P : ascii -> bool) s c :
  forallb P (String.list_ascii_of_string s) = true -> P c = false -> contains_byte s c = false.
Proof.
  intros Hs Hc. induction s as [|a s IH]; [done|]. cbn in Hs. apply andb_true_iff in Hs as [Ha Hs].
  cbn [contains_byte]. rewrite IH, orb_false_r by done. apply Ascii.eqb_neq. intros ->. congruence.
Qed.

Lemma class_impl (P Q : ascii -> bool) s :
  (forall a, P a = true -> Q a = true) -> forallb P (String.list_ascii_of_string s) = true ->
  forallb Q (String.list_ascii_of_string s) = true.
Proof. rewrite !forallb_forall. auto. Qed.

Lemma cut_append s r c : contains_byte s c = false -> cut (s +:+ String c r) c = (s, r, true).
Proof.
  induction s as [|a s IH]; intros Hs; cbn in *; [by rewrite Ascii.eqb_refl|].
  apply orb_false_iff in Hs as [Ha Hs]. by rewrite Ha, IH.
Qed.

(** A text without white space is one field, a space ends it. *)
Lemma fields_go_word n w s cur :
  all_printable w = true -> (String.length w < n)%nat ->
  fields_go n cur (w +:+ s) = fields_go (n - String.length w) (cur +:+ w) s.
Proof.
  revert n cur; induction w as [|a w IH]; intros n cur Hw Hn.
  - by rewrite append_nil_r, Nat.sub_0_r.
  - cbn in Hn. destruct n as [|n]; [lia|]. rewrite all_printable_cons in Hw. apply andb_true_iff in Hw as [Ha Hw].
    cbn [fields_go]. change (String a w +:+ s) with (String a (w +:+ s)).
    assert (Es : space_len (String a (w +:+ s)) = None).
    { destruct (space_len _) as [k|] eqn:E; [|done]. exfalso.
      destruct (space_len_not_printable _ _ a (printable_between a Ha) E) as (_ & H1 & Hk).
      destruct k as [|k]; [lia|]. cbn in Hk. by rewrite Ascii.eqb_refl in Hk. }
    rewrite Es. rewrite IH by (done || lia). cbn [String.length Nat.sub]. f_equal. by rewrite append_assoc.
Qed.

Lemma fields_two u v :
  all_printable u = true -> all_printable v = true -> u <> "" -> v <> "" -> fields (u +:+ " " +:+ v) = [u; v].
Proof.
  intros Hu Hv Hune Hvne. unfold fields. rewrite !length_append. cbn [String.length].
  rewrite fields_go_word by (done || lia). apply String.eqb_neq in Hune, Hvne.
  pose proof (fields_go_word (S (String.length v)) v "" "" Hv ltac:(lia)) as E. rewrite append_nil_r in E.
  replace (S (String.length v) - String.length v)%nat with 1%nat in E by lia.
  replace (S (String.length u + (1 + String.length v)) - String.length u)%nat with (S (S (String.length v))) by lia.
  remember (S (String.length v)) as n. change (" " +:+ v) with (String " " v). cbn [fields_go].
  change (space_len (String " " v)) with (Some 1%nat). change ("" +:+ u) with u. rewrite Hune. cbn [drop_bytes].
  rewrite E. cbn [fields_go]. change ("" +:+ v) with v. by rewrite Hvne.
Qed.
