(* ===== verification/Encoding.v ===== *)
(** * Go's [encoding/hex] and [encoding/base64]

    Used for digests, ETags, secrets and continuation tokens. The round trips
    are the facts the clients rely on. *)

From S2P Require Import Prelude GoStrings.

(** ** Bytes and numbers *)

Lemma byte_val_range a : (0 <= byte_val a < 256)%Z.
Proof. unfold byte_val. pose proof (N_ascii_bounded a). lia. Qed.

Lemma byte_of_val a : byte_of (byte_val a) = a.
Proof.
  unfold byte_of, byte_val. pose proof (N_ascii_bounded a).
  rewrite Z.mod_small by lia. rewrite N2Z.id. apply ascii_N_embedding.
Qed.

Lemma byte_val_of z : (0 <= z < 256)%Z -> byte_val (byte_of z) = z.
Proof.
  intros H. unfold byte_of, byte_val. rewrite Z.mod_small by lia.
  rewrite N_ascii_embedding by lia. lia.
Qed.

#[export] Hint Resolve byte_val_range : fbs.

(** ** Hexadecimal *)

Definition hex_digit (z : Z) : ascii := if (z <? 10)%Z then byte_of (48 + z) else byte_of (87 + z).

Definition hex_val (a : ascii) : option Z :=
  if between 48 57 a then Some (byte_val a - 48)%Z
  else if between 97 102 a then Some (byte_val a - 87)%Z
  else if between 65 70 a then Some (byte_val a - 55)%Z
  else None.

(** [hex.EncodeToString]. *)
Fixpoint hex_encode (s : string) : string :=
  match s with
  | EmptyString => EmptyString
  | String a s' =>
      String (hex_digit (byte_val a / 16)) (String (hex_digit (byte_val a mod 16)) (hex_encode s'))
  end.

(** [hex.DecodeString]: an odd length or another character is an error. *)
Fixpoint hex_decode (s : string) : option string :=
  match s with
  | EmptyString => Some EmptyString
  | String a (String b s') =>
      match hex_val a, hex_val b, hex_decode s' with
      | Some x, Some y, Some r => Some (String (byte_of (x * 16 + y)) r)
      | _, _, _ => None
      end
  | String _ EmptyString => None
  end.

Lemma hex_val_digit z : (0 <= z < 16)%Z -> hex_val (hex_digit z) = Some z.
Proof.
  intros H. unfold hex_val, hex_digit, between.
  destruct (Z.ltb_spec z 10); rewrite !byte_val_of by lia; repeat case_match; f_equal; lia.
Qed.

Lemma hex_decode_encode s : hex_decode (hex_encode s) = Some s.
Proof.
  induction s as [|a s IH]; [done|]. simpl. pose proof (byte_val_range a) as H.
  rewrite !hex_val_digit, IH; [|apply Z.mod_pos_bound; lia| split; [apply Z.div_pos|apply Z.div_lt_upper_bound]; lia].
  do 2 f_equal. rewrite <- (byte_of_val a) at 3. f_equal.
  pose proof (Z_div_mod_eq_full (byte_val a) 16). lia.
Qed.

Lemma hex_encode_length s : String.length (hex_encode s) = (2 * String.length s)%nat.
Proof. induction s as [|a s IH]; simpl; lia. Qed.

Lemma hex_encode_inj s t : hex_encode s = hex_encode t -> s = t.
Proof. intros H%(f_equal hex_decode). rewrite !hex_decode_encode in H. congruence. Qed.

(** Hexadecimal text holds only digits and the letters a to f. *)
Definition hex_text (s : string) : bool :=
  forallb (fun a => between 48 57 a || between 97 102 a) (String.list_ascii_of_string s).

Lemma hex_digit_text z : (0 <= z < 16)%Z -> (between 48 57 (hex_digit z) || between 97 102 (hex_digit z)) = true.
Proof.
  intros H. unfold hex_digit, between.
  destruct (Z.ltb_spec z 10); rewrite !byte_val_of by lia; lia.
Qed.

Lemma hex_encode_text s : hex_text (hex_encode s) = true.
Proof.
  induction s as [|a s IH]; [done|]. unfold hex_text in *. simpl.
  pose proof (byte_val_range a).
  rewrite IH, !hex_digit_text; [done| |].
  - apply Z.mod_pos_bound; lia.
  - split; [apply Z.div_pos|apply Z.div_lt_upper_bound]; lia.
Qed.

Lemma hex_encode_printable s : all_printable (hex_encode s) = true.
Proof. eapply class_impl; [|apply hex_encode_text]. intros a. unfold between. lia. Qed.

(** ** Base64 *)

Inductive b64_alphabet := StdAlphabet | URLAlphabet.

Definition b64_char (alphabet : b64_alphabet) (z : Z) : ascii :=
  if (z <? 26)%Z then byte_of (65 + z)
  else if (z <? 52)%Z then byte_of (71 + z)
  else if (z <? 62)%Z then byte_of (z - 4)
  else if (z =? 62)%Z then match alphabet with StdAlphabet => "+"%char | URLAlphabet => "-"%char end
  else match alphabet with StdAlphabet => "/"%char | URLAlphabet => "_"%char end.

Definition b64_val (alphabet : b64_alphabet) (a : ascii) : option Z :=
  if between 65 90 a then Some (byte_val a - 65)%Z
  else if between 97 122 a then Some (byte_val a - 71)%Z
  else if between 48 57 a then Some (byte_val a + 4)%Z
  else match alphabet with
       | StdAlphabet => if Ascii.eqb a "+" then Some 62%Z else if Ascii.eqb a "/" then Some 63%Z else None
       | URLAlphabet => if Ascii.eqb a "-" then Some 62%Z else if Ascii.eqb a "_" then Some 63%Z else None
       end.

Definition pad_text (pad : bool) (s : string) : string := if pad then s else EmptyString.

(** [EncodeToString]; [pad] is true for the padded encodings. *)
Fixpoint b64_encode (al : b64_alphabet) (pad : bool) (s : string) : string :=
  match s with
  | EmptyString => EmptyString
  | String a EmptyString =>
      let x := byte_val a in
      String (b64_char al (x / 4)) (String (b64_char al (x mod 4 * 16)) (pad_text pad "=="))
  | String a (String b EmptyString) =>
      let x := byte_val a in let y := byte_val b in
      String (b64_char al (x / 4)) (String (b64_char al (x mod 4 * 16 + y / 16))
        (String (b64_char al (y mod 16 * 4)) (pad_text pad "=")))
  | String a (String b (String c r)) =>
      let x := byte_val a in let y := byte_val b in let z := byte_val c in
      String (b64_char al (x / 4)) (String (b64_char al (x mod 4 * 16 + y / 16))
        (String (b64_char al (y mod 16 * 4 + z / 64)) (String (b64_char al (z mod 64))
          (b64_encode al pad r))))
  end.

(** The decoder skips carriage returns and line feeds. *)
Fixpoint strip_newlines (s : string) : string :=
  match s with
  | EmptyString => EmptyString
  | String a s' =>
      if (byte_val a =? 10)%Z || (byte_val a =? 13)%Z then strip_newlines s'
      else String a (strip_newlines s')
  end.

(** [DecodeString] of text without line breaks. The unused bits of the last
    character are ignored, as the decoder is not strict. *)
Fixpoint b64_decode_go (al : b64_alphabet) (pad : bool) (s : string) : option string :=
  match s with
  | EmptyString => Some EmptyString
  | String a EmptyString => None
  | String a (String b EmptyString) =>
      if pad then None else
      match b64_val al a, b64_val al b with
      | Some x, Some y => Some (String (byte_of (x * 4 + y / 16)) EmptyString)
      | _, _ => None
      end
  | String a (String b (String c EmptyString)) =>
      if pad then None else
      match b64_val al a, b64_val al b, b64_val al c with
      | Some x, Some y, Some z =>
          Some (String (byte_of (x * 4 + y / 16)) (String (byte_of (y mod 16 * 16 + z / 4)) EmptyString))
      | _, _, _ => None
      end
  | String a (String b (String c (String d r))) =>
      match b64_val al a, b64_val al b, b64_val al c, b64_val al d with
      | Some x, Some y, Some z, Some w =>
          match b64_decode_go al pad r with
          | Some t => Some (String (byte_of (x * 4 + y / 16)) (String (byte_of (y mod 16 * 16 + z / 4))
                              (String (byte_of (z mod 4 * 64 + w)) t)))
          | None => None
          end
      | Some x, Some y, Some z, None =>
          if pad && Ascii.eqb d "=" && String.eqb r "" then
            Some (String (byte_of (x * 4 + y / 16)) (String (byte_of (y mod 16 * 16 + z / 4)) EmptyString))
          else None
      | Some x, Some y, None, None =>
          if pad && Ascii.eqb c "=" && Ascii.eqb d "=" && String.eqb r "" then
            Some (String (byte_of (x * 4 + y / 16)) EmptyString)
          else None
      | _, _, _, _ => None
      end
  end.

Definition b64_decode (al : b64_alphabet) (pad : bool) (s : string) : option string :=
  b64_decode_go al pad (strip_newlines s).

(** *** The round trip *)

Lemma b64_val_char al z : (0 <= z < 64)%Z -> b64_val al (b64_char al z) = Some z.
Proof.
  intros H. unfold b64_char.
  destruct (Z.ltb_spec z 26); [unfold b64_val, between; rewrite !byte_val_of by lia; repeat case_match; f_equal; lia|].
  destruct (Z.ltb_spec z 52); [unfold b64_val, between; rewrite !byte_val_of by lia; repeat case_match; f_equal; lia|].
  destruct (Z.ltb_spec z 62); [unfold b64_val, between; rewrite !byte_val_of by lia; repeat case_match; f_equal; lia|].
  destruct (Z.eqb_spec z 62) as [->|]; [by destruct al|].
  assert (z = 63%Z) as -> by lia. by destruct al.
Qed.

Definition not_newline (a : ascii) : bool := negb ((byte_val a =? 10)%Z || (byte_val a =? 13)%Z).

Lemma b64_char_not_newline al z : (0 <= z < 64)%Z -> not_newline (b64_char al z) = true.
Proof.
  intros H. unfold b64_char, not_newline.
  repeat case_match; try done; rewrite byte_val_of by lia; lia.
Qed.

Lemma strip_newlines_cons a s :
  not_newline a = true -> strip_newlines (String a s) = String a (strip_newlines s).
Proof. unfold not_newline. intros H%negb_true_iff. simpl. by rewrite H. Qed.

(** Induction over a string three bytes at a time. *)
Lemma string_ind3 (P : string -> Prop) :
  P "" -> (forall a, P (String a "")) -> (forall a b, P (String a (String b ""))) ->
  (forall a b c r, P r -> P (String a (String b (String c r)))) ->
  forall s, P s.
Proof.
  intros H0 H1 H2 H3. fix IH 1. intros [|a [|b [|c r]]]; [exact H0|apply H1|apply H2|apply H3, IH].
Qed.

Lemma sextets_range x y z :
  (0 <= x < 256)%Z -> (0 <= y < 256)%Z -> (0 <= z < 256)%Z ->
  (0 <= x / 4 < 64)%Z /\ (0 <= x mod 4 * 16 + y / 16 < 64)%Z /\
  (0 <= y mod 16 * 4 + z / 64 < 64)%Z /\ (0 <= z mod 64 < 64)%Z /\
  (0 <= x mod 4 * 16 < 64)%Z /\ (0 <= y mod 16 * 4 < 64)%Z.
Proof. intros. repeat split; Z.div_mod_to_equations; lia. Qed.

Lemma sextets_join x y z :
  (0 <= x < 256)%Z -> (0 <= y < 256)%Z -> (0 <= z < 256)%Z ->
  (x / 4 * 4 + (x mod 4 * 16 + y / 16) / 16 = x)%Z /\
  ((x mod 4 * 16 + y / 16) mod 16 * 16 + (y mod 16 * 4 + z / 64) / 4 = y)%Z /\
  ((y mod 16 * 4 + z / 64) mod 4 * 64 + z mod 64 = z)%Z /\
  (x / 4 * 4 + (x mod 4 * 16) / 16 = x)%Z /\
  ((x mod 4 * 16 + y / 16) mod 16 * 16 + (y mod 16 * 4) / 4 = y)%Z.
Proof. intros. repeat split; Z.div_mod_to_equations; lia. Qed.

Ltac b64_ranges :=
  repeat match goal with
  | a : ascii |- _ =>
      lazymatch goal with
      | _ : (0 <= byte_val a < 256)%Z |- _ => fail
      | _ => pose proof (byte_val_range a)
      end
  end.

Lemma b64_encode_no_newline al pad s : strip_newlines (b64_encode al pad s) = b64_encode al pad s.
Proof.
  induction s as [|a|a b|a b c r IH] using string_ind3; [done| | |]; b64_ranges.
  - destruct (sextets_range (byte_val a) 0 0) as (?&?&?&?&?&?); [lia..|].
    cbn [b64_encode]. rewrite !strip_newlines_cons by (apply b64_char_not_newline; lia). by destruct pad.
  - destruct (sextets_range (byte_val a) (byte_val b) 0) as (?&?&?&?&?&?); [lia..|].
    cbn [b64_encode]. rewrite !strip_newlines_cons by (apply b64_char_not_newline; lia). by destruct pad.
  - destruct (sextets_range (byte_val a) (byte_val b) (byte_val c)) as (?&?&?&?&?&?); [lia..|].
    cbn [b64_encode]. rewrite !strip_newlines_cons by (apply b64_char_not_newline; lia). by rewrite IH.
Qed.

(** The URL alphabet: no separators of tokens and paths. *)
Definition url_safe (a : ascii) : bool := between 48 57 a || between 65 90 a || between 97 122 a || contains_byte "-_" a.

Lemma b64_char_url_safe z : (0 <= z < 64)%Z -> url_safe (b64_char URLAlphabet z) = true.
Proof.
  intros H. unfold b64_char, url_safe, between.
  repeat case_match; try done; rewrite byte_val_of by lia; lia.
Qed.

Lemma b64_encode_url_safe s : forallb url_safe (String.list_ascii_of_string (b64_encode URLAlphabet false s)) = true.
Proof.
  induction s as [|a|a b|a b c r IH] using string_ind3; [done| | |]; b64_ranges.
  - destruct (sextets_range (byte_val a) 0 0) as (?&?&?&?&?&?); [lia..|]. cbn. by rewrite !b64_char_url_safe by lia.
  - destruct (sextets_range (byte_val a) (byte_val b) 0) as (?&?&?&?&?&?); [lia..|].
    cbn. by rewrite !b64_char_url_safe by lia.
  - destruct (sextets_range (byte_val a) (byte_val b) (byte_val c)) as (?&?&?&?&?&?); [lia..|].
    cbn. by rewrite !b64_char_url_safe, IH by lia.
Qed.

Lemma b64_val_pad al : b64_val al "=" = None.
Proof. by destruct al. Qed.

Lemma b64_decode_encode al pad s : b64_decode al pad (b64_encode al pad s) = Some s.
Proof.
  unfold b64_decode. rewrite b64_encode_no_newline.
  induction s as [|a|a b|a b c r IH] using string_ind3; [done| | |]; b64_ranges.
  - destruct (sextets_range (byte_val a) 0 0) as (?&?&?&?&?&?); [lia..|].
    destruct (sextets_join (byte_val a) 0 0) as (?&?&?&E&?); [lia..|].
    destruct pad; cbn [b64_encode b64_decode_go pad_text]; rewrite !b64_val_char, ?b64_val_pad by lia;
      cbn; by rewrite E, byte_of_val.
  - destruct (sextets_range (byte_val a) (byte_val b) 0) as (?&?&?&?&?&?); [lia..|].
    destruct (sextets_join (byte_val a) (byte_val b) 0) as (E1&?&?&?&E2); [lia..|].
    destruct pad; cbn [b64_encode b64_decode_go pad_text]; rewrite !b64_val_char, ?b64_val_pad by lia;
      cbn; by rewrite E1, E2, !byte_of_val.
  - destruct (sextets_range (byte_val a) (byte_val b) (byte_val c)) as (?&?&?&?&?&?); [lia..|].
    destruct (sextets_join (byte_val a) (byte_val b) (byte_val c)) as (E1&E2&E3&?&?); [lia..|].
    cbn [b64_encode b64_decode_go]. by rewrite !b64_val_char, IH, E1, E2, E3, !byte_of_val by lia.
Qed.

(** The length of unpadded text is four thirds of the input, rounded up. *)
Lemma b64_encode_length_raw al s :
  (3 * String.length (b64_encode al false s) <= 4 * String.length s + 2)%nat.
Proof.
  induction s as [|a|a b|a b c r IH] using string_ind3; cbn [b64_encode String.length pad_text]; lia.
Qed.

(** ** Decimal numbers *)

Lemma byte_val_digit z : (0 <= z)%Z -> byte_val (byte_of (48 + z mod 10)) = (48 + z mod 10)%Z.
Proof. intros Hz. apply byte_val_of. pose proof (Z.mod_pos_bound z 10). lia. Qed.

Lemma parse_format_go n z acc :
  (0 <= z < 10 ^ Z.of_nat n)%Z -> parse_digits 0 (format_nat_go n z acc) = parse_digits z acc.
Proof.
  revert z acc; induction n as [|n IH]; intros z acc Hz.
  { simpl in *. by replace z with 0%Z by lia. }
  assert (Hd : digit_val (byte_of (48 + z mod 10)) = Some (z mod 10)%Z).
  { unfold digit_val, between. rewrite byte_val_digit by lia.
    pose proof (Z.mod_pos_bound z 10). rewrite !(proj2 (Z.leb_le _ _)) by lia. simpl. f_equal. lia. }
  cbn [format_nat_go]. cbv zeta. destruct (Z.ltb_spec z 10) as [Hlt|Hge].
  - cbn [parse_digits]. rewrite Hd. f_equal. rewrite Z.mod_small by lia. lia.
  - rewrite IH.
    + cbn [parse_digits]. rewrite Hd. f_equal. pose proof (Z.div_mod z 10). lia.
    + rewrite Nat2Z.inj_succ, Z.pow_succ_r in Hz by lia. split; [apply Z.div_pos; lia|].
      apply Z.div_lt_upper_bound; lia.
Qed.

Lemma format_go_head n z acc :
  (0 <= z)%Z -> exists d acc', format_nat_go (S n) z acc = String (byte_of (48 + d)) acc' /\ (0 <= d < 10)%Z.
Proof.
  revert z acc; induction n as [|n IH]; intros z acc Hz; cbn [format_nat_go]; cbv zeta;
    destruct (Z.ltb_spec z 10).
  1-3: eexists _, _; split; [done|]; apply Z.mod_pos_bound; lia.
  destruct (IH (z / 10)%Z (String (byte_of (48 + z mod 10)) acc)) as (d & acc' & E & Hd);
    [apply Z.div_pos; lia|]. cbn [format_nat_go] in E. eauto.
Qed.

Lemma parse_int_digits s :
  (exists d r, s = String (byte_of (48 + d)) r /\ (0 <= d < 10)%Z) ->
  parse_int s = match parse_digits 0 s with
                | Some v => if (min_int64 <=? v)%Z && (v <=? max_int64)%Z then Some v else None
                | None => None
                end.
Proof.
  intros (d & r & -> & Hd). unfold parse_int.
  assert (Hc : (d = 0 \/ d = 1 \/ d = 2 \/ d = 3 \/ d = 4 \/ d = 5 \/ d = 6 \/ d = 7 \/ d = 8 \/ d = 9)%Z)
    by lia.
  repeat destruct Hc as [->|Hc]; try subst d;
    match goal with |- context [byte_of ?z] =>
      let x := eval vm_compute in (byte_of z) in change (byte_of z) with x end;
    cbv beta iota zeta;
    match goal with |- context [String.eqb ?x ""] => change (String.eqb x "") with false end;
    cbv iota; destruct (parse_digits _ _) as [v|]; try done;
    by replace (1 * v)%Z with v by lia.
Qed.

(** Parsing gives back a formatted 64-bit number. *)
Lemma parse_format_int z : (min_int64 <= z <= max_int64)%Z -> parse_int (format_int z) = Some z.
Proof.
  intros Hz. assert (Hb : (Z.abs z < 10 ^ Z.of_nat 20)%Z) by (unfold min_int64, max_int64 in Hz; simpl; lia).
  assert (Hr : (min_int64 <=? z)%Z && (z <=? max_int64)%Z = true) by lia.
  unfold format_int. destruct (Z.ltb_spec z 0).
  - unfold parse_int. destruct (format_go_head 19 (- z) "") as (d & r & E & _); [lia|].
    rewrite E. change (String.eqb (String _ _) "") with false. cbv iota. rewrite <- E.
    rewrite parse_format_go by lia. cbn [parse_digits]. replace (-1 * - z)%Z with z by lia.
    by rewrite Hr.
  - rewrite parse_int_digits by (apply format_go_head; lia).
    rewrite parse_format_go by lia. cbn [parse_digits]. by rewrite Hr.
Qed.

Lemma format_go_byte n z acc c :
  (0 <= z)%Z -> ~ (48 <= byte_val c <= 57)%Z ->
  contains_byte (format_nat_go n z acc) c = contains_byte acc c.
Proof.
  intros Hz Hc. revert z acc Hz; induction n as [|n IH]; intros z acc Hz; [done|].
  assert (Hd : contains_byte (String (byte_of (48 + z mod 10)) acc) c = contains_byte acc c).
  { cbn [contains_byte]. rewrite byte_neq; [done|]. rewrite byte_val_digit by done.
    pose proof (Z.mod_pos_bound z 10). lia. }
  cbn [format_nat_go]. cbv zeta. destruct (z <? 10)%Z; [done|].
  rewrite IH; [done|]. apply Z.div_pos; lia.
Qed.

(** A formatted number holds digits and a minus sign only. *)
Lemma format_int_byte z c :
  ~ (48 <= byte_val c <= 57)%Z -> c <> "-"%char -> contains_byte (format_int z) c = false.
Proof.
  intros Hc Hm. unfold format_int. destruct (Z.ltb_spec z 0).
  - cbn [contains_byte]. rewrite format_go_byte by (done || lia).
    cbn [contains_byte]. rewrite orb_false_r. apply Ascii.eqb_neq. congruence.
  - by rewrite format_go_byte by (done || lia).
Qed.

Lemma format_int_no_minus z : (0 <= z)%Z -> contains_byte (format_int z) "-" = false.
Proof.
  intros Hz. unfold format_int. destruct (Z.ltb_spec z 0); [lia|]. rewrite format_go_byte; [done|done|].
  vm_compute. by intros [Hlo _].
Qed.

Lemma format_int_byte_in z c : contains_byte (format_int z) c = true -> (48 <= byte_val c <= 57)%Z \/ c = "-"%char.
Proof.
  intros Hc. destruct (decide (48 <= byte_val c <= 57)%Z); [by left|]. destruct (decide (c = "-"%char)); [by right|].
  by rewrite format_int_byte in Hc.
Qed.

Lemma format_int_printable z : all_printable (format_int z) = true.
Proof. apply all_printable_bytes. intros c [Hc| ->]%format_int_byte_in; [|done]. unfold between. lia. Qed.
