(* ===== verification/Json.v ===== *)
(** * Go's [encoding/json]: values, the decoder, and decoding into fields

    A payload is parsed to a tree; a struct, a raw map and their fields are read from
    the tree. A number keeps its text. What the server encodes is a tree as well. *)

From S2P Require Import Prelude GoStrings Encoding.

#[local] Open Scope Z_scope.

Inductive Json : Type :=
  | JNull
  | JBool (b : bool)
  | JNumber (literal : string)
  | JString (s : string)
  | JArray (elements : list Json)
  | JObject (members : list (string * Json)).

(** An integer that is encoded. *)
Definition JInt (z : Z) : Json := JNumber (format_int z).

(** ** The scanner *)

Definition is_json_space (a : ascii) : bool :=
  between 32 32 a || between 9 10 a || between 13 13 a.

Fixpoint skip_json (s : string) : string :=
  match s with
  | String a r => if is_json_space a then skip_json r else s
  | EmptyString => ""
  end.

(** The longest prefix of a class, and the rest. *)
Fixpoint span (P : ascii -> bool) (s : string) : string * string :=
  match s with
  | String a r => if P a then let '(p, q) := span P r in (String a p, q) else ("", s)
  | EmptyString => ("", "")
  end.

(** A number: an optional sign, an integer without leading zeros, a fraction and an
    exponent; the literal and the rest. *)
Definition is_digit_byte : ascii -> bool := between 48 57.

Definition scan_sign (plus : bool) (s : string) : string * string :=
  match s with
  | String a r => if Ascii.eqb a "-" || (plus && Ascii.eqb a "+") then (String a "", r) else ("", s)
  | EmptyString => ("", s)
  end.

Definition scan_digits (s : string) : option (string * string) :=
  let '(p, r) := span is_digit_byte s in if String.eqb p "" then None else Some (p, r).

Definition scan_integer (s : string) : option (string * string) :=
  match s with
  | String "0" r => Some ("0", r)
  | _ => scan_digits s
  end.

Definition scan_fraction (s : string) : option (string * string) :=
  match s with
  | String "." r => match scan_digits r with Some (p, q) => Some (String "." p, q) | None => None end
  | _ => Some ("", s)
  end.

Definition scan_exponent (s : string) : option (string * string) :=
  match s with
  | String a r =>
      if Ascii.eqb a "e" || Ascii.eqb a "E" then
        let '(sign, r) := scan_sign true r in
        match scan_digits r with Some (p, q) => Some (String a (sign +:+ p), q) | None => None end
      else Some ("", s)
  | EmptyString => Some ("", s)
  end.

Definition scan_number (s : string) : option (string * string) :=
  let '(sign, s) := scan_sign false s in
  '(int, s) ← scan_integer s; '(frac, s) ← scan_fraction s; '(exp, s) ← scan_exponent s;
  Some (sign +:+ int +:+ frac +:+ exp, s).

(** ** Strings *)

(** [utf8.AppendRune] *)
Definition encode_rune (r : Z) : string :=
  if r <? 0x80 then String (byte_of r) ""
  else if r <? 0x800 then String (byte_of (0xC0 + r / 64)) (String (byte_of (0x80 + r mod 64)) "")
  else if r <? 0x10000 then
    String (byte_of (0xE0 + r / 4096)) (String (byte_of (0x80 + r / 64 mod 64)) (String (byte_of (0x80 + r mod 64)) ""))
  else String (byte_of (0xF0 + r / 262144)) (String (byte_of (0x80 + r / 4096 mod 64))
         (String (byte_of (0x80 + r / 64 mod 64)) (String (byte_of (0x80 + r mod 64)) ""))).

(** The four digits after [\u]. *)
Definition hex4 (s : string) : option (Z * string) :=
  match s with
  | String a (String b (String c (String d r))) =>
      x ← hex_val a; y ← hex_val b; z ← hex_val c; w ← hex_val d;
      Some (((x * 16 + y) * 16 + z) * 16 + w, r)
  | _ => None
  end.

(** A rune that is escaped: a pair of surrogates is one rune, a lone one U+FFFD. *)
Definition escaped_rune (s : string) : option (string * string) :=
  '(r, s1) ← hex4 s;
  if (0xD800 <=? r) && (r <? 0xE000) then
    match s1 with
    | String "092" (String "u" s2) =>
        match hex4 s2 with
        | Some (r', s3) =>
            if (r <? 0xDC00) && (0xDC00 <=? r') && (r' <? 0xE000)
            then Some (encode_rune ((r - 0xD800) * 1024 + (r' - 0xDC00) + 0x10000), s3)
            else Some (replacement, s1)
        | None => None
        end
    | _ => Some (replacement, s1)
    end
  else Some (encode_rune r, s1).

(** The byte of a simple escape. *)
Definition simple_escape (a : ascii) : option ascii :=
  if Ascii.eqb a quote_byte || Ascii.eqb a "/" || Ascii.eqb a "092" then Some a
  else if Ascii.eqb a "b" then Some "008"%char
  else if Ascii.eqb a "f" then Some "012"%char
  else if Ascii.eqb a "n" then Some "010"%char
  else if Ascii.eqb a "r" then Some "013"%char
  else if Ascii.eqb a "t" then Some "009"%char
  else None.

(** The rest of a string after its opening quote, up to the closing one; [n] bounds
    the rounds, one per byte. *)
Fixpoint scan_string (n : nat) (s : string) : option (string * string) :=
  match n, s with
  | O, _ | _, EmptyString => None
  | S n, String a r =>
      if Ascii.eqb a quote_byte then Some ("", r)
      else if byte_val a <? 32 then None
      else if Ascii.eqb a "092" then
        match r with
        | String "u" r => '(c, r) ← escaped_rune r; '(t, q) ← scan_string n r; Some (c +:+ t, q)
        | String b r => c ← simple_escape b; '(t, q) ← scan_string n r; Some (String c t, q)
        | EmptyString => None
        end
      else
        match rune_len s with
        | Some k => '(t, q) ← scan_string n (drop_bytes k s); Some (take_bytes k s +:+ t, q)
        | None => '(t, q) ← scan_string n r; Some (replacement +:+ t, q)
        end
  end.

(** ** Values *)

Definition max_nesting : Z := 10000.

Definition scan_literal (s : string) : option (Json * string) :=
  if has_prefix s "null" then Some (JNull, drop_bytes 4 s)
  else if has_prefix s "true" then Some (JBool true, drop_bytes 4 s)
  else if has_prefix s "false" then Some (JBool false, drop_bytes 5 s)
  else '(lit, r) ← scan_number s; Some (JNumber lit, r).

(** A value at the start of [s], its elements and its members; [n] bounds the rounds,
    one per byte, and [depth] is the number of arrays and objects around the value. *)
Fixpoint scan_value (n : nat) (depth : Z) (s : string) : option (Json * string) :=
  match n, s with
  | O, _ | _, EmptyString => None
  | S n, String a r =>
      if Ascii.eqb a quote_byte then '(t, q) ← scan_string (String.length r) r; Some (JString t, q)
      else if Ascii.eqb a "[" then
        if max_nesting <=? depth then None
        else match skip_json r with
             | String "]" q => Some (JArray [], q)
             | r => '(l, q) ← scan_elements n (depth + 1) r; Some (JArray l, q)
             end
      else if Ascii.eqb a "{" then
        if max_nesting <=? depth then None
        else match skip_json r with
             | String "}" q => Some (JObject [], q)
             | r => '(l, q) ← scan_members n (depth + 1) r; Some (JObject l, q)
             end
      else scan_literal s
  end
with scan_elements (n : nat) (depth : Z) (s : string) : option (list Json * string) :=
  match n with
  | O => None
  | S n =>
      '(v, r) ← scan_value n depth s;
      match skip_json r with
      | String "]" q => Some ([v], q)
      | String "," q => '(l, q) ← scan_elements n depth (skip_json q); Some (v :: l, q)
      | _ => None
      end
  end
with scan_members (n : nat) (depth : Z) (s : string) : option (list (string * Json) * string) :=
  match n, s with
  | S n, String a r =>
      if negb (Ascii.eqb a quote_byte) then None
      else
        '(key, r) ← scan_string (String.length r) r;
        match skip_json r with
        | String ":" r =>
            '(v, r) ← scan_value n depth (skip_json r);
            match skip_json r with
            | String "}" q => Some ([(key, v)], q)
            | String "," q => '(l, q) ← scan_members n depth (skip_json q); Some ((key, v) :: l, q)
            | _ => None
            end
        | _ => None
        end
  | _, _ => None
  end.

(** The one value of a payload. *)
Definition json_parse (payload : string) : option Json :=
  '(v, rest) ← scan_value (S (2 * String.length payload)) 0 (skip_json payload);
  if String.eqb (skip_json rest) "" then Some v else None.

(** Nothing but white space: [Decode] answers [io.EOF]. *)
Definition json_empty (payload : string) : bool := String.eqb (skip_json payload) "".

(** ** Fields

    A member goes to the field of its name, or of its name but for case; [null] leaves
    a field as it is, and a later member overrides an earlier one. *)

Definition decode_string (v : Json) (field : string) : option string :=
  match v with JString s => Some s | JNull => Some field | _ => None end.
Definition decode_bool (v : Json) (field : bool) : option bool :=
  match v with JBool b => Some b | JNull => Some field | _ => None end.
(** A pointer to an integer. *)
Definition decode_int_ptr (v : Json) (field : option Z) : option (option Z) :=
  match v with
  | JNumber literal => match parse_int literal with Some z => Some (Some z) | None => None end
  | JNull => Some None
  | _ => None
  end.
(** A slice of strings, whose elements that are [null] keep what was there. *)
Fixpoint decode_elements (l : list Json) (field : list string) : option (list string) :=
  match l with
  | [] => Some []
  | v :: l => s ← decode_string v (hd "" field); rest ← decode_elements l (tl field); Some (s :: rest)
  end.
Definition decode_strings (v : Json) (field : list string) : option (list string) :=
  match v with JArray l => decode_elements l field | JNull => Some [] | _ => None end.

(** A struct: [set key] is the field of that name, [None] when there is none. *)
Section Struct.
Context {A : Type} (reject_unknown : bool) (set : string -> option (Json -> A -> option A)).

Fixpoint decode_members (l : list (string * Json)) (a : A) : option A :=
  match l with
  | [] => Some a
  | (key, v) :: l =>
      match set key with
      | Some f => a ← f v a; decode_members l a
      | None => if reject_unknown then None else decode_members l a
      end
  end.

Definition decode_struct (v : Json) (zero : A) : option A :=
  match v with JObject l => decode_members l zero | JNull => Some zero | _ => None end.
End Struct.

Definition field_named (name key : string) : bool := equal_fold name key.

(** A [map\[string\]json.RawMessage]. *)
Definition decode_raw_map (v : Json) : option (gmap string Json) :=
  match v with
  | JObject l => Some (foldl (fun m kv => <[kv.1 := kv.2]> m) ∅ l)
  | JNull => Some ∅
  | _ => None
  end.

(** ** Examples *)

Definition sample_payload : string :=
  " { `a` : [1, -2.5e3, true], `b\u0041\ud83d\ude00` : { }, `a`: null } ".
Definition backquoted (s : string) : string := replace_byte s "`" quote_byte.

Example parse_sample :
  json_parse (backquoted sample_payload) =
  Some (JObject [("a", JArray [JNumber "1"; JNumber "-2.5e3"; JBool true]);
                 ("bA" +:+ encode_rune 0x1F600, JObject []); ("a", JNull)]).
Proof. vm_compute. reflexivity. Qed.
Example parse_errors :
  json_parse <$> ["01"; "1 2"; "[1,]"; "{}}"; "nul"; "-"; "1."; backquoted "`"; backquoted "{`a` 1}"] = replicate 9 None.
Proof. vm_compute. reflexivity. Qed.
