(* ===== verification/Hash.v ===== *)
(** * The digests of Go's [crypto] and [hash] packages

    MD5, SHA-1, SHA-256, HMAC-SHA-256 and the cyclic redundancy checks that the
    server computes, on byte strings, with the words as integers modulo 2^32. The
    examples are the published test vectors. *)

From S2P Require Import Prelude GoStrings Encoding.

#[local] Open Scope Z_scope.

(** ** Words *)

Definition w32 (z : Z) : Z := Z.land z (Z.ones 32).
Definition add32 (a b : Z) : Z := w32 (a + b).
Definition not32 (a : Z) : Z := Z.lxor a (Z.ones 32).
Definition rotl32 (n a : Z) : Z := Z.lor (w32 (Z.shiftl a n)) (Z.shiftr a (32 - n)).
Definition rotr32 (n a : Z) : Z := rotl32 (32 - n) a.

(** [n] bytes of an integer, most or least significant first. *)
Fixpoint be_bytes (n : nat) (z : Z) : string :=
  match n with O => "" | S n' => be_bytes n' (Z.shiftr z 8) +:+ String (byte_of z) "" end.
Fixpoint le_bytes (n : nat) (z : Z) : string :=
  match n with O => "" | S n' => String (byte_of z) (le_bytes n' (Z.shiftr z 8)) end.

(** The words of four bytes of a string whose length is a multiple of four. *)
Fixpoint words (word : Z -> Z -> Z -> Z -> Z) (s : string) : list Z :=
  match s with
  | String a (String b (String c (String d r))) =>
      word (byte_val a) (byte_val b) (byte_val c) (byte_val d) :: words word r
  | _ => []
  end.
Definition be_word (a b c d : Z) : Z := ((a * 256 + b) * 256 + c) * 256 + d.
Definition le_word (a b c d : Z) : Z := be_word d c b a.

Fixpoint zero_bytes (n : nat) : string :=
  match n with O => "" | S n' => String (byte_of 0) (zero_bytes n') end.

(** The message, one 1 bit, zeros, and the length in bits in the last eight bytes. *)
Definition padded (length_bytes : Z -> string) (s : string) : string :=
  let n := string_len s in
  s +:+ String (byte_of 128) "" +:+ zero_bytes (Z.to_nat ((55 - n) mod 64)) +:+ length_bytes (n * 8).

(** The blocks of sixteen words. *)
Fixpoint blocks (fuel : nat) (l : list Z) : list (list Z) :=
  match fuel with
  | O => []
  | S fuel' => match l with [] => [] | _ => take 16 l :: blocks fuel' (drop 16 l) end
  end.
Definition message_blocks (word : Z -> Z -> Z -> Z -> Z) (s : string) : list (list Z) :=
  let l := words word s in blocks (length l) l.

Definition nth_word (l : list Z) (i : nat) : Z := nth i l 0.

(** ** MD5 *)

Definition md5_table : list Z :=
  [
   0xd76aa478; 0xe8c7b756; 0x242070db; 0xc1bdceee; 0xf57c0faf; 0x4787c62a; 0xa8304613; 0xfd469501;
   0x698098d8; 0x8b44f7af; 0xffff5bb1; 0x895cd7be; 0x6b901122; 0xfd987193; 0xa679438e; 0x49b40821;
   0xf61e2562; 0xc040b340; 0x265e5a51; 0xe9b6c7aa; 0xd62f105d; 0x2441453; 0xd8a1e681; 0xe7d3fbc8;
   0x21e1cde6; 0xc33707d6; 0xf4d50d87; 0x455a14ed; 0xa9e3e905; 0xfcefa3f8; 0x676f02d9; 0x8d2a4c8a;
   0xfffa3942; 0x8771f681; 0x6d9d6122; 0xfde5380c; 0xa4beea44; 0x4bdecfa9; 0xf6bb4b60; 0xbebfbc70;
   0x289b7ec6; 0xeaa127fa; 0xd4ef3085; 0x4881d05; 0xd9d4d039; 0xe6db99e5; 0x1fa27cf8; 0xc4ac5665;
   0xf4292244; 0x432aff97; 0xab9423a7; 0xfc93a039; 0x655b59c3; 0x8f0ccc92; 0xffeff47d; 0x85845dd1;
   0x6fa87e4f; 0xfe2ce6e0; 0xa3014314; 0x4e0811a1; 0xf7537e82; 0xbd3af235; 0x2ad7d2bb; 0xeb86d391].

Definition md5_shifts : list Z :=
  concat (repeat [7; 12; 17; 22] 4) ++ concat (repeat [5; 9; 14; 20] 4)
  ++ concat (repeat [4; 11; 16; 23] 4) ++ concat (repeat [6; 10; 15; 21] 4).

Definition md5_mix (i : nat) (b c d : Z) : Z * nat :=
  match Nat.div i 16 with
  | 0%nat => (Z.lor (Z.land b c) (Z.land (not32 b) d), i)
  | 1%nat => (Z.lor (Z.land d b) (Z.land (not32 d) c), Nat.modulo (5 * i + 1) 16)
  | 2%nat => (Z.lxor b (Z.lxor c d), Nat.modulo (3 * i + 5) 16)
  | _ => (Z.lxor c (Z.lor b (not32 d)), Nat.modulo (7 * i) 16)
  end.

Definition md5_step (block : list Z) (st : Z * Z * Z * Z) (i : nat) : Z * Z * Z * Z :=
  let '(a, b, c, d) := st in
  let '(f, g) := md5_mix i b c d in
  let f := add32 (add32 f a) (add32 (nth_word md5_table i) (nth_word block g)) in
  (d, add32 b (rotl32 (nth_word md5_shifts i) f), b, c).

Definition md5_block (st : Z * Z * Z * Z) (block : list Z) : Z * Z * Z * Z :=
  let '(a, b, c, d) := st in
  let '(a', b', c', d') := fold_left (md5_step block) (seq 0 64) st in
  (add32 a a', add32 b b', add32 c c', add32 d d').

(** [md5.Sum] *)
Definition md5_sum (s : string) : string :=
  let '(a, b, c, d) := fold_left md5_block (message_blocks le_word (padded (le_bytes 8) s))
    (0x67452301, 0xefcdab89, 0x98badcfe, 0x10325476) in
  le_bytes 4 a +:+ le_bytes 4 b +:+ le_bytes 4 c +:+ le_bytes 4 d.

(** ** SHA-1 *)

(** The schedule, newest word first. *)
Fixpoint sha1_schedule (n : nat) (w : list Z) : list Z :=
  match n with
  | O => w
  | S n' => sha1_schedule n' (rotl32 1 (Z.lxor (Z.lxor (nth_word w 2) (nth_word w 7))
                                          (Z.lxor (nth_word w 13) (nth_word w 15))) :: w)
  end.

Definition sha1_mix (i : nat) (b c d : Z) : Z * Z :=
  match Nat.div i 20 with
  | 0%nat => (Z.lor (Z.land b c) (Z.land (not32 b) d), 0x5a827999)
  | 1%nat => (Z.lxor b (Z.lxor c d), 0x6ed9eba1)
  | 2%nat => (Z.lor (Z.land b c) (Z.lor (Z.land b d) (Z.land c d)), 0x8f1bbcdc)
  | _ => (Z.lxor b (Z.lxor c d), 0xca62c1d6)
  end.

Definition sha1_step (st : Z * Z * Z * Z * Z) (iw : nat * Z) : Z * Z * Z * Z * Z :=
  let '(a, b, c, d, e) := st in
  let '(f, k) := sha1_mix iw.1 b c d in
  (add32 (add32 (rotl32 5 a) f) (add32 (add32 e k) iw.2), a, rotl32 30 b, c, d).

Definition sha1_block (st : Z * Z * Z * Z * Z) (block : list Z) : Z * Z * Z * Z * Z :=
  let '(a, b, c, d, e) := st in
  let w := reverse (sha1_schedule 64 (reverse block)) in
  let '(a', b', c', d', e') := fold_left sha1_step (zip (seq 0 80) w) st in
  (add32 a a', add32 b b', add32 c c', add32 d d', add32 e e').

(** [sha1.Sum] *)
Definition sha1_sum (s : string) : string :=
  let '(a, b, c, d, e) := fold_left sha1_block (message_blocks be_word (padded (be_bytes 8) s))
    (0x67452301, 0xefcdab89, 0x98badcfe, 0x10325476, 0xc3d2e1f0) in
  be_bytes 4 a +:+ be_bytes 4 b +:+ be_bytes 4 c +:+ be_bytes 4 d +:+ be_bytes 4 e.

(** ** SHA-256 *)

(** The largest [x] below [2 ^ n] with [x ^ k <= z], bit by bit. *)
Definition root (k : Z) (n : nat) (z : Z) : Z :=
  fold_left (fun x i => let y := x + 2 ^ Z.of_nat i in if y ^ k <=? z then y else x) (reverse (seq 0 n)) 0.

(** The first 32 bits of the fraction of the [k]-th root. *)
Definition root_fraction (k : Z) (p : Z) : Z := w32 (root k 40 (Z.shiftl p (32 * k))).

Definition small_primes : list Z :=
  filter (fun p => Forall (fun d => p <= d \/ p mod d <> 0) [2; 3; 5; 7; 11; 13; 17]) (Z.of_nat <$> seq 2 310).

(** The constants are the fractions of the cube roots and square roots of the primes. *)
Definition sha256_table : list Z := Eval vm_compute in root_fraction 3 <$> small_primes.
Definition sha256_initial : list Z := Eval vm_compute in root_fraction 2 <$> take 8 small_primes.

Fixpoint sha256_schedule (n : nat) (w : list Z) : list Z :=
  match n with
  | O => w
  | S n' =>
      let x := nth_word w 14 in
      let y := nth_word w 1 in
      let s0 := Z.lxor (Z.lxor (rotr32 7 x) (rotr32 18 x)) (Z.shiftr x 3) in
      let s1 := Z.lxor (Z.lxor (rotr32 17 y) (rotr32 19 y)) (Z.shiftr y 10) in
      sha256_schedule n' (add32 (add32 (nth_word w 15) s0) (add32 (nth_word w 6) s1) :: w)
  end.

Definition sha256_step (st : list Z) (kw : Z * Z) : list Z :=
  match st with
  | [a; b; c; d; e; f; g; h] =>
      let s1 := Z.lxor (Z.lxor (rotr32 6 e) (rotr32 11 e)) (rotr32 25 e) in
      let ch := Z.lxor (Z.land e f) (Z.land (not32 e) g) in
      let t1 := add32 (add32 h s1) (add32 ch (add32 kw.1 kw.2)) in
      let s0 := Z.lxor (Z.lxor (rotr32 2 a) (rotr32 13 a)) (rotr32 22 a) in
      let maj := Z.lxor (Z.lxor (Z.land a b) (Z.land a c)) (Z.land b c) in
      [add32 t1 (add32 s0 maj); a; b; c; add32 d t1; e; f; g]
  | _ => st
  end.

Definition sha256_block (st : list Z) (block : list Z) : list Z :=
  let w := reverse (sha256_schedule 48 (reverse block)) in
  zip_with add32 st (fold_left sha256_step (zip sha256_table w) st).

(** [sha256.Sum256] *)
Definition sha256_sum (s : string) : string :=
  foldr (fun w r => be_bytes 4 w +:+ r) ""
    (fold_left sha256_block (message_blocks be_word (padded (be_bytes 8) s)) sha256_initial).

(** ** HMAC *)

(** [hmac.New(sha256.New, key)] over a message. *)
Definition hmac_pad (key : string) (mask : Z) : string :=
  map_bytes (fun a => byte_of (Z.lxor (byte_val a) mask)) key.

Definition hmac_sha256 (key message : string) : string :=
  let key := if (64 <? string_len key) then sha256_sum key else key in
  let key := key +:+ zero_bytes (64 - String.length key) in
  sha256_sum (hmac_pad key 0x5c +:+ sha256_sum (hmac_pad key 0x36 +:+ message)).

(** ** Cyclic redundancy checks *)

(** One bit, and one byte, of the reflected algorithm. *)
Definition crc_bit (poly crc : Z) : Z :=
  if Z.testbit crc 0 then Z.lxor (Z.shiftr crc 1) poly else Z.shiftr crc 1.
Definition crc_byte (poly crc : Z) (a : ascii) : Z :=
  Nat.iter 8 (crc_bit poly) (Z.lxor crc (byte_val a)).
Fixpoint crc_bytes (poly crc : Z) (s : string) : Z :=
  match s with EmptyString => crc | String a r => crc_bytes poly (crc_byte poly crc a) r end.

(** [crc32.Checksum] and [crc64.Checksum], with the polynomial of the table. *)
Definition crc32_checksum (poly : Z) (s : string) : Z :=
  Z.lxor (crc_bytes poly (Z.ones 32) s) (Z.ones 32).
Definition crc64_checksum (poly : Z) (s : string) : Z :=
  Z.lxor (crc_bytes poly (Z.ones 64) s) (Z.ones 64).

Definition crc32_IEEE : Z := 0xedb88320.
Definition crc32_Castagnoli : Z := 0x82f63b78.

#[global] Arguments md5_sum : simpl never.
#[global] Arguments sha1_sum : simpl never.
#[global] Arguments sha256_sum : simpl never.
#[global] Arguments hmac_sha256 : simpl never.
#[global] Arguments crc32_checksum : simpl never.
#[global] Arguments crc64_checksum : simpl never.

(** ** Sizes *)

Lemma length_be_bytes n z : String.length (be_bytes n z) = n.
Proof. revert z; induction n as [|n IH]; intros z; [done|]. simpl. rewrite length_append, IH. simpl. lia. Qed.

Lemma length_le_bytes n z : String.length (le_bytes n z) = n.
Proof. revert z; induction n as [|n IH]; intros z; [done|]. simpl. by rewrite IH. Qed.

Lemma md5_size s : String.length (md5_sum s) = 16%nat.
Proof.
  unfold md5_sum. destruct (fold_left _ _ _) as [[[a b] c] d].
  by rewrite !length_append, !length_le_bytes.
Qed.

Lemma sha1_size s : String.length (sha1_sum s) = 20%nat.
Proof.
  unfold sha1_sum. destruct (fold_left _ _ _) as [[[[a b] c] d] e].
  by rewrite !length_append, !length_be_bytes.
Qed.

Lemma sha256_step_length st kw : length st = 8%nat -> length (sha256_step st kw) = 8%nat.
Proof. intros H. by do 9 (destruct st as [|? st]; [done|]). Qed.

Lemma sha256_block_length st block : length st = 8%nat -> length (sha256_block st block) = 8%nat.
Proof.
  intros H. unfold sha256_block. rewrite length_zip_with, H. apply Nat.min_l.
  generalize (zip sha256_table (reverse (sha256_schedule 48 (reverse block)))). intros l.
  assert (Hf : length (fold_left sha256_step l st) = 8%nat); [|lia].
  revert st H; induction l as [|kw l IH]; intros st H; [done|]. simpl. by apply IH, sha256_step_length.
Qed.

Lemma sha256_size s : String.length (sha256_sum s) = 32%nat.
Proof.
  unfold sha256_sum. generalize (message_blocks be_word (padded (be_bytes 8) s)). intros l.
  assert (Hf : length (fold_left sha256_block l sha256_initial) = 8%nat).
  { assert (H : length sha256_initial = 8%nat) by done. revert H. generalize sha256_initial.
    induction l as [|b l IH]; intros st H; [done|]. simpl. by apply IH, sha256_block_length. }
  destruct (fold_left _ _ _) as [|? st]; [done|]. simpl. revert Hf.
  do 8 (destruct st as [|? st]; [intros; first [done|simpl; by rewrite !length_append, !length_be_bytes]|]).
  intros; simpl in *; lia.
Qed.

Lemma hmac_size key message : String.length (hmac_sha256 key message) = 32%nat.
Proof. unfold hmac_sha256. apply sha256_size. Qed.

(** ** Test vectors *)

Example md5_empty : hex_encode (md5_sum "") = "d41d8cd98f00b204e9800998ecf8427e".
Proof. by vm_compute. Qed.
Example md5_digits :
  hex_encode (md5_sum "12345678901234567890123456789012345678901234567890123456789012345678901234567890")
  = "57edf4a22be3c955ac49da2e2107b67a".
Proof. by vm_compute. Qed.
Example sha1_abc : hex_encode (sha1_sum "abc") = "a9993e364706816aba3e25717850c26c9cd0d89d".
Proof. by vm_compute. Qed.
Example sha256_empty : hex_encode (sha256_sum "")
  = "e3b0c44298fc1c149afbf4c8996fb92427ae41e4649b934ca495991b7852b855".
Proof. by vm_compute. Qed.
Example sha256_abc : hex_encode (sha256_sum "abc")
  = "ba7816bf8f01cfea414140de5dae2223b00361a396177a9cb410ff61f20015ad".
Proof. by vm_compute. Qed.
Example sha256_two_blocks :
  hex_encode (sha256_sum "abcdbcdecdefdefgefghfghighijhijkijkljklmklmnlmnomnopnopq")
  = "248d6a61d20638b8e5c026930c3e6039a33ce45964ff2167f6ecedd419db06c1".
Proof. by vm_compute. Qed.
Example hmac_rfc4231_2 :
  hex_encode (hmac_sha256 "Jefe" "what do ya want for nothing?")
  = "5bdcc146bf60754e6a042426089575c75a003f089d2739839dec58b964ec3843".
Proof. by vm_compute. Qed.
Example crc32_check : crc32_checksum crc32_IEEE "123456789" = 0xcbf43926.
Proof. by vm_compute. Qed.
Example crc32c_check : crc32_checksum crc32_Castagnoli "123456789" = 0xe3069283.
Proof. by vm_compute. Qed.
Example crc64nvme_check : crc64_checksum 0x9a6c9329ac4bc9b5 "123456789" = 0xae8b14860a799888.
Proof. by vm_compute. Qed.
