(* ===== verification/GoUrl.v ===== *)
(** * Go's [net/url]: unescaping and query strings *)

From S2P Require Import Prelude GoStrings Encoding.

(** [unescape]: a percent sign and two hexadecimal digits are a byte; in a query a
    plus sign is a space. *)
Fixpoint unescape (query : bool) (s : string) : option string :=
  match s with
  | EmptyString => Some ""
  | String a r =>
      if Ascii.eqb a "%" then
        match r with
        | String h (String l r') =>
            match hex_val h, hex_val l with
            | Some x, Some y => String (byte_of (x * 16 + y)) <$> unescape query r'
            | _, _ => None
            end
        | _ => None
        end
      else if query && Ascii.eqb a "+" then String " " <$> unescape query r
      else String a <$> unescape query r
  end.

Definition PathUnescape : string -> option string := unescape false.
Definition QueryUnescape : string -> option string := unescape true.

(** ** Escaping *)

Definition is_alnum (a : ascii) : bool := between 48 57 a || between 65 90 a || between 97 122 a.
Definition is_unreserved (a : ascii) : bool := is_alnum a || contains_byte "-_.~" a.

Definition upper_hex (z : Z) : ascii := if (z <? 10)%Z then byte_of (48 + z) else byte_of (55 + z).

Fixpoint escape (keep : ascii -> bool) (plus : bool) (s : string) : string :=
  match s with
  | EmptyString => ""
  | String a r =>
      if plus && Ascii.eqb a " " then String "+" (escape keep plus r)
      else if keep a then String a (escape keep plus r)
      else String "%" (String (upper_hex (byte_val a / 16)) (String (upper_hex (byte_val a mod 16))
             (escape keep plus r)))
  end.

Definition PathEscape : string -> string := escape (fun a => is_unreserved a || contains_byte "$&+:=@" a) false.
Definition QueryEscape : string -> string := escape is_unreserved true.

Lemma hex_val_upper z : (0 <= z < 16)%Z -> hex_val (upper_hex z) = Some z.
Proof.
  intros H. assert (Hz : z ∈ (Z.of_nat <$> seq 0 16)).
  { apply list_elem_of_fmap. exists (Z.to_nat z). split; [lia|]. apply elem_of_seq. lia. }
  revert Hz. generalize z. apply Forall_forall. by repeat constructor.
Qed.

Lemma byte_hex_join a : byte_of (byte_val a / 16 * 16 + byte_val a mod 16) = a.
Proof.
  replace (byte_val a / 16 * 16 + byte_val a mod 16)%Z with (byte_val a); [apply byte_of_val|].
  rewrite (Z.div_mod (byte_val a) 16) at 1 by lia. lia.
Qed.

(** Unescaping inverts escaping, if nothing that the reader interprets is kept. *)
Lemma unescape_escape keep plus query s :
  keep "%"%char = false -> (query = true -> keep "+"%char = false) -> (plus = true -> query = true) ->
  unescape query (escape keep plus s) = Some s.
Proof.
  intros Hp Hq Hpq. induction s as [|a s IH]; [done|]. cbn [escape].
  destruct (plus && Ascii.eqb a " ") eqn:E1.
  { apply andb_true_iff in E1 as [-> ->%Ascii.eqb_eq]. rewrite Hpq in IH |- * by done. cbn. by rewrite IH. }
  destruct (keep a) eqn:Ek.
  - cbn [unescape]. destruct (Ascii.eqb_spec a "%") as [->|_]; [congruence|].
    destruct query; [|cbn; by rewrite IH].
    destruct (Ascii.eqb_spec a "+") as [->|_]; [by rewrite Hq in Ek|]. cbn. by rewrite IH.
  - cbn -[hex_val upper_hex]. pose proof (byte_val_range a). rewrite !hex_val_upper by
      (first [apply Z.mod_pos_bound; lia|split; [apply Z.div_pos; lia|apply Z.div_lt_upper_bound; lia]]).
    rewrite IH. cbn. by rewrite byte_hex_join.
Qed.

Lemma PathUnescape_escape s : PathUnescape (PathEscape s) = Some s.
Proof. by apply unescape_escape. Qed.

Lemma QueryUnescape_escape s : QueryUnescape (QueryEscape s) = Some s.
Proof. by apply unescape_escape. Qed.

Lemma QueryEscape_inj s t : QueryEscape s = QueryEscape t -> s = t.
Proof. intros E%(f_equal QueryUnescape). rewrite !QueryUnescape_escape in E. congruence. Qed.

(** Escaped text has no byte outside the kept ones, the plus, the percent and hex digits. *)
Lemma escape_no_byte keep plus s c :
  keep c = false -> c <> "+"%char -> c <> "%"%char -> is_alnum c = false ->
  contains_byte (escape keep plus s) c = false.
Proof.
  intros Hk H1 H2 H3. assert (Hx : forall z, (0 <= z < 16)%Z -> Ascii.eqb (upper_hex z) c = false).
  { intros z Hz. apply Ascii.eqb_neq. intros <-. revert H3. apply not_false_iff_true.
    assert (Hi : z ∈ (Z.of_nat <$> seq 0 16)).
    { apply list_elem_of_fmap. exists (Z.to_nat z). split; [lia|]. apply elem_of_seq. lia. }
    revert Hi. generalize z. apply Forall_forall. by repeat constructor. }
  apply Ascii.eqb_neq in H1. rewrite Ascii.eqb_sym in H1.
  apply Ascii.eqb_neq in H2. rewrite Ascii.eqb_sym in H2.
  induction s as [|a s IH]; [done|]. cbn [escape].
  destruct (plus && Ascii.eqb a " "); [cbn [contains_byte]; by rewrite H1|].
  destruct (keep a) eqn:Ek; cbn [contains_byte].
  - destruct (Ascii.eqb_spec a c) as [->|_]; [congruence|done].
  - pose proof (byte_val_range a). rewrite H2, !Hx; [done|apply Z.mod_pos_bound; lia|].
    split; [apply Z.div_pos; lia|apply Z.div_lt_upper_bound; lia].
Qed.

(** Unescaping goes from left to right. *)
Lemma unescape_append query s x t : unescape query s = Some x -> unescape query (s +:+ t) = String.append x <$> unescape query t.
Proof.
  assert (Hgo : forall c s x, (forall x, unescape query s = Some x -> unescape query (s +:+ t) = String.append x <$> unescape query t) ->
    String c <$> unescape query s = Some x -> String c <$> unescape query (s +:+ t) = String.append x <$> unescape query t).
  { intros c s' x' IH. destruct (unescape query s') as [y|]; [|done]. intros [= <-]. rewrite (IH y) by done.
    by destruct (unescape query t). }
  assert (Hn : exists n, (String.length s < n)%nat) by eauto. destruct Hn as [n Hn]. revert s x Hn.
  induction n as [|n IH]; [lia|]. intros [|a s] x Hn; cbn [unescape].
  - intros [= <-]. cbn. by destruct (unescape query t).
  - change (String a s +:+ t) with (String a (s +:+ t)). cbn [unescape]. cbn [String.length] in Hn.
    destruct (Ascii.eqb a "%").
    + destruct s as [|h [|l s]]; [done..|]. cbn [String.append]. destruct (hex_val h), (hex_val l); try done.
      cbn [String.length] in Hn. apply Hgo. intros y. apply IH. lia.
    + destruct (query && Ascii.eqb a "+"); apply Hgo; intros y; apply IH; lia.
Qed.

Lemma PathUnescape_segments l :
  PathUnescape (join (PathEscape <$> l) "/") = Some (join l "/").
Proof.
  induction l as [|s [|s' l] IH]; [done|apply PathUnescape_escape|].
  change (PathUnescape (PathEscape s +:+ String "/" (join (PathEscape <$> s' :: l) "/")) = Some (s +:+ String "/" (join (s' :: l) "/"))).
  unfold PathUnescape. rewrite (unescape_append _ _ s) by apply PathUnescape_escape. cbn [unescape]. cbv iota.
  change (unescape false ?x) with (PathUnescape x). by rewrite IH.
Qed.

(** [url.Values] *)
Abbreviation Values := (gmap string (list string)).

(** [Values.Get] and [Values.Has] *)
Definition values_get (v : Values) (key : string) : string :=
  match v !! key with Some (x :: _) => x | _ => "" end.
Definition values_has (v : Values) (key : string) : bool := bool_decide (is_Some (v !! key)).

(** One setting of [ParseQuery]; the error does not stop the loop. *)
Definition parse_setting (st : Values * bool) (setting : string) : Values * bool :=
  let '(m, failed) := st in
  if contains_byte setting ";" then (m, true)
  else if String.eqb setting "" then (m, failed)
  else
    let '(key, value, _) := cut setting "=" in
    match QueryUnescape key, QueryUnescape value with
    | Some key, Some value => (<[key := default [] (m !! key) ++ [value]]> m, failed)
    | _, _ => (m, true)
    end.

Definition ParseQuery (query : string) : result Values :=
  let '(m, failed) := fold_left parse_setting (split query "&") (∅, false) in
  if failed then Err (ErrOther "invalid query") else Ok m.

(** [Values.Encode]: sorted by key. *)
Definition values_encode (v : Values) : string :=
  join (merge_sort String.le (map_to_list v).*1 ≫=
          (fun k => (fun x => QueryEscape k +:+ "=" +:+ QueryEscape x) <$> default [] (v !! k))) "&".

Example path_unescape_slash : PathUnescape "a%2Fb+c" = Some "a/b+c".
Proof. reflexivity. Qed.
Example parse_query_two : (m ← match ParseQuery "versionId=a%20b&x=1" with Ok m => Some m | _ => None end;
  Some (values_get m "versionId")) = Some "a b".
Proof. reflexivity. Qed.
