(* ===== verification/GoPath.v ===== *)
(** * Go's [path/filepath] on Unix

    [Clean], [Join], [IsAbs], [Abs], [Dir] and [Rel], defined on the segments of a
    path, with the laws that the storage engine's containment checks need. *)

From S2P Require Import Prelude GoStrings.

Definition sep : ascii := "/"%char.
Definition sep_str : string := "/".

(** ** Segments *)

(** One round of the loop of [Clean]: [out] holds the output segments, the last
    one first. *)
Definition push_seg (rooted : bool) (out : list string) (seg : string) : list string :=
  if String.eqb seg "" || String.eqb seg "." then out
  else if String.eqb seg ".." then
    match out with
    | [] => if rooted then [] else [".."]
    | top :: rest => if String.eqb top ".." then ".." :: out else rest
    end
  else seg :: out.

Definition clean_segs (rooted : bool) (out segs : list string) : list string :=
  fold_left (push_seg rooted) segs out.

Definition is_abs (path : string) : bool := has_prefix path sep_str.

(** [filepath.Clean]. *)
Definition clean (path : string) : string :=
  if String.eqb path "" then "."
  else
    let rooted := is_abs path in
    let out := reverse (clean_segs rooted [] (split path sep)) in
    if rooted then sep_str +:+ join out sep_str
    else match out with [] => "." | _ => join out sep_str end.

(** [filepath.Join]: the leading empty elements are dropped. *)
Fixpoint path_join (elems : list string) : string :=
  match elems with
  | [] => ""
  | e :: rest => if String.eqb e "" then path_join rest else clean (join elems sep_str)
  end.

(** [filepath.Abs]; [cwd] is the result of [os.Getwd]. *)
Definition path_abs (cwd : result string) (path : string) : result string :=
  if is_abs path then Ok (clean path)
  else let? wd := cwd in Ok (path_join [wd; path]).

(** The segments of a path, without the empty ones. *)
Definition path_segs (path : string) : list string :=
  filter (fun s => s <> "") (split path sep).

(** The absolute path with the given segments. *)
Definition render_abs (segs : list string) : string := sep_str +:+ join segs sep_str.

Fixpoint strip_common (base targ : list string) : list string * list string :=
  match base, targ with
  | b :: base', t :: targ' => if String.eqb b t then strip_common base' targ' else (base, targ)
  | _, _ => (base, targ)
  end.

(** [filepath.Rel] of two absolute paths, which never fails. *)
Definition path_rel (base targ : string) : string :=
  let b := clean base in let t := clean targ in
  if String.eqb t b then "."
  else let '(bs, ts) := strip_common (path_segs b) (path_segs t) in
       join (replicate (length bs) ".." ++ ts) sep_str.

(** [filepath.Dir] of a clean absolute path. *)
Definition path_dir (path : string) : string := render_abs (reverse (tail (reverse (path_segs path)))).

(** ** Laws *)

(** A normal segment names an entry of a directory. *)
Definition normal_seg (s : string) : Prop :=
  s <> "" /\ s <> "." /\ s <> ".." /\ contains_byte s sep = false.

#[export] Instance normal_seg_dec s : Decision (normal_seg s).
Proof. unfold normal_seg. apply _. Defined.

Lemma split_append s t c : split (s +:+ String c t) c = split s c ++ split t c.
Proof.
  induction s as [|a s IH]; simpl; [by rewrite Ascii.eqb_refl|].
  rewrite IH. destruct (Ascii.eqb a c); [done|].
  destruct (split s c) as [|w ws] eqn:E; [by apply split_not_nil in E|]. done.
Qed.

Lemma clean_segs_app r out l k : clean_segs r out (l ++ k) = clean_segs r (clean_segs r out l) k.
Proof. apply fold_left_app. Qed.

Lemma clean_segs_normal r out l :
  Forall normal_seg l -> clean_segs r out l = reverse l ++ out.
Proof.
  intros H. revert out; induction H as [|s l (Hne & Hdot & Hdd & _) Hl IH]; intros out; [done|].
  unfold clean_segs in *. simpl. rewrite IH. unfold push_seg at 1.
  apply String.eqb_neq in Hne as ->. apply String.eqb_neq in Hdot as ->. apply String.eqb_neq in Hdd as ->.
  simpl. rewrite reverse_cons. by rewrite <- app_assoc.
Qed.

(** The rooted output never holds a dot segment. *)
Lemma push_seg_rooted out seg :
  contains_byte seg sep = false -> Forall normal_seg out -> Forall normal_seg (push_seg true out seg).
Proof.
  intros Hsep Hout. unfold push_seg.
  destruct (String.eqb_spec seg "") as [->|Hne]; [done|].
  destruct (String.eqb_spec seg ".") as [->|Hdot]; [done|].
  destruct (String.eqb_spec seg "..") as [->|Hdd]; simpl.
  - destruct Hout as [|top rest Htop Hrest]; [done|].
    destruct Htop as (_&_&H&_). by apply String.eqb_neq in H as ->.
  - by constructor.
Qed.

Lemma clean_segs_rooted out l :
  Forall (fun s => contains_byte s sep = false) l -> Forall normal_seg out ->
  Forall normal_seg (clean_segs true out l).
Proof.
  intros Hl. revert out; induction Hl as [|s l Hs Hl IH]; intros out Hout; [done|].
  apply IH, push_seg_rooted; auto.
Qed.

Lemma split_seps s : Forall (fun w => contains_byte w sep = false) (split s sep).
Proof. apply Forall_forall. intros w Hw. by apply split_elem_no_sep in Hw. Qed.

(** The segments of the clean form of an absolute path. *)
Definition abs_segs (path : string) : list string :=
  reverse (clean_segs true [] (split path sep)).

Lemma abs_segs_normal path : Forall normal_seg (abs_segs path).
Proof. apply Forall_reverse, clean_segs_rooted; [apply split_seps|done]. Qed.

Lemma clean_abs path : is_abs path = true -> clean path = render_abs (abs_segs path).
Proof.
  intros H. unfold clean. rewrite H. destruct (String.eqb_spec path "") as [->|]; [done|].
  done.
Qed.

Lemma path_segs_render segs : Forall normal_seg segs -> path_segs (render_abs segs) = segs.
Proof.
  intros H. unfold path_segs, render_abs.
  change (split (sep_str +:+ ?s) sep) with ("" :: split s sep).
  rewrite filter_cons_False by tauto.
  destruct segs as [|s segs]; [done|].
  change sep_str with (String sep ""). rewrite split_join; [|done|].
  - clear -H. induction H as [|x l Hx Hl IH]; [done|].
    rewrite filter_cons_True; [by rewrite IH|]. apply Hx.
  - eapply Forall_impl; [exact H|]. by intros ? (?&?&?&?).
Qed.

Lemma render_abs_inj s1 s2 :
  Forall normal_seg s1 -> Forall normal_seg s2 -> render_abs s1 = render_abs s2 -> s1 = s2.
Proof. intros H1 H2 H%(f_equal path_segs). by rewrite !path_segs_render in H. Qed.

Lemma is_abs_render segs : is_abs (render_abs segs) = true.
Proof. done. Qed.

Lemma abs_segs_render segs : Forall normal_seg segs -> abs_segs (render_abs segs) = segs.
Proof.
  intros H. unfold abs_segs, render_abs. change (sep_str +:+ ?s) with (String sep s).
  destruct segs as [|s segs]; [done|].
  change (split (String sep ?t) sep) with ("" :: split t sep).
  change sep_str with (String sep ""). rewrite split_join; [|done|eapply Forall_impl; [exact H|]; by intros ? (?&?&?&?)].
  change (clean_segs true [] ("" :: ?l)) with (clean_segs true [] l).
  rewrite clean_segs_normal by done. by rewrite app_nil_r, reverse_involutive.
Qed.

Lemma clean_render segs : Forall normal_seg segs -> clean (render_abs segs) = render_abs segs.
Proof. intros H. rewrite clean_abs by apply is_abs_render. by rewrite abs_segs_render. Qed.

Lemma path_segs_clean path : is_abs path = true -> path_segs (clean path) = abs_segs path.
Proof. intros H. rewrite clean_abs by done. apply path_segs_render, abs_segs_normal. Qed.

Lemma abs_segs_clean path : is_abs path = true -> abs_segs (clean path) = abs_segs path.
Proof. intros H. rewrite clean_abs by done. apply abs_segs_render, abs_segs_normal. Qed.

Lemma clean_idem_abs path : is_abs path = true -> clean (clean path) = clean path.
Proof. intros H. rewrite (clean_abs path) by done. apply clean_render, abs_segs_normal. Qed.

Lemma is_abs_clean path : is_abs path = true -> is_abs (clean path) = true.
Proof. intros H. rewrite clean_abs by done. apply is_abs_render. Qed.

(** Joining to an absolute path continues the run of [Clean] on its segments. *)
Lemma path_join_abs base p :
  is_abs base = true ->
  path_join [base; p] = render_abs (reverse (clean_segs true (reverse (abs_segs base)) (split p sep))).
Proof.
  intros H. unfold path_join. destruct (String.eqb_spec base "") as [->|]; [done|].
  simpl (join _ _). rewrite clean_abs.
  - unfold abs_segs at 1. change (sep_str +:+ p) with (String sep p).
    rewrite split_append, clean_segs_app. unfold abs_segs. by rewrite reverse_involutive.
  - unfold is_abs, sep_str in *. apply has_prefix_spec in H as [r ->]. done.
Qed.

Lemma strip_common_prefix b t b' t' :
  strip_common b t = (b', t') -> exists c, b = c ++ b' /\ t = c ++ t'.
Proof.
  revert t b' t'; induction b as [|x b IH]; intros [|y t] b' t' H; simpl in H;
    try (simplify_eq; exists []; done).
  destruct (String.eqb_spec x y) as [->|]; [|simplify_eq; by exists []].
  destruct (IH _ _ _ H) as (c & -> & ->). by exists (y :: c).
Qed.

Lemma strip_common_app b t : strip_common b (b ++ t) = ([], t).
Proof. induction b as [|x b IH]; simpl; [done|]. by rewrite String.eqb_refl. Qed.
