(* ===== verification/GoNet.v ===== *)
(** * Go's [net]: host and port, IP addresses *)

From S2P Require Import Prelude GoStrings Encoding.

#[local] Open Scope Z_scope.

(** The text before and after the last [c]. *)
Fixpoint cut_last (s : string) (c : ascii) : option (string * string) :=
  match s with
  | EmptyString => None
  | String a r =>
      match cut_last r c with
      | Some (p, q) => Some (String a p, q)
      | None => if Ascii.eqb a c then Some ("", r) else None
      end
  end.

(** [net.SplitHostPort] *)
Definition SplitHostPort (hostport : string) : option (string * string) :=
  match cut_last hostport ":" with
  | None => None
  | Some (before, port) =>
      match hostport with
      | String "[" rest =>
          let '(host, after, found) := cut rest "]" in
          if negb found then None
          else if String.eqb after (":" +:+ port) then
            if contains_byte rest "[" || contains_byte after "]" then None else Some (host, port)
          else None
      | _ =>
          if contains_byte before ":" || contains_byte hostport "[" || contains_byte hostport "]" then None
          else Some (before, port)
      end
  end.

(** [strings.Trim(s, "[]")] *)
Fixpoint trim_left_bytes (set s : string) : string :=
  match s with
  | String a r => if contains_byte set a then trim_left_bytes set r else s
  | EmptyString => ""
  end.
Fixpoint trim_right_bytes (set s : string) : string :=
  match s with
  | String a r => match trim_right_bytes set r with
                  | EmptyString => if contains_byte set a then "" else String a ""
                  | t => String a t
                  end
  | EmptyString => ""
  end.
Definition trim_bytes (set s : string) : string := trim_right_bytes set (trim_left_bytes set s).

(** ** Addresses

    [net.ParseIP]: the bytes of an IPv4 or IPv6 address; a zone is refused. *)

Definition parse_octet (s : string) : option Z :=
  match s with
  | String "0" (String _ _) => None
  | _ => n ← (if String.eqb s "" then None else parse_digits 0 s); if 255 <? n then None else Some n
  end.

Definition parse_ipv4 (s : string) : option (list Z) :=
  match split s "." with
  | [a; b; c; d] => a ← parse_octet a; b ← parse_octet b; c ← parse_octet c; d ← parse_octet d; Some [a; b; c; d]
  | _ => None
  end.

(** The hexadecimal digits of a group. *)
Fixpoint group_digits (acc : Z) (s : string) : Z * string :=
  match s with
  | String a r => match hex_val a with Some d => group_digits (acc * 16 + d) r | None => (acc, s) end
  | EmptyString => (acc, "")
  end.

(** The groups from the one at byte [length ip] on; [ellipsis] is the byte that [::]
    stands at. Eight groups are read at most. *)
Fixpoint ipv6_groups (n : nat) (ip : list Z) (ellipsis : option nat) (s : string)
    : option (list Z * option nat * string) :=
  match n with
  | O => Some (ip, ellipsis, s)
  | S n =>
      let '(acc, r) := group_digits 0 s in
      let off := (String.length s - String.length r)%nat in
      if Nat.eqb off 0 || Nat.ltb 4 off then None
      else match r with
           | String "." _ =>
               if (bool_decide (ellipsis = None) && negb (Nat.eqb (length ip) 12)) || Nat.ltb 12 (length ip) then None
               else v4 ← parse_ipv4 s; Some (ip ++ v4, ellipsis, "")
           | _ =>
               let ip := ip ++ [acc / 256; acc mod 256] in
               match r with
               | EmptyString => Some (ip, ellipsis, "")
               | String ":" EmptyString => None
               | String ":" (String ":" r) =>
                   match ellipsis, r with
                   | Some _, _ => None
                   | None, EmptyString => Some (ip, Some (length ip), "")
                   | None, _ => ipv6_groups n ip (Some (length ip)) r
                   end
               | String ":" r => ipv6_groups n ip ellipsis r
               | _ => None
               end
           end
  end.

Definition parse_ipv6 (s : string) : option (list Z) :=
  let lead := has_prefix s "::" in
  let rest := if lead then drop_bytes 2 s else s in
  if lead && String.eqb rest "" then Some (repeat 0 16)
  else
    '(ip, ellipsis, rest) ← ipv6_groups 8 [] (if lead then Some 0%nat else None) rest;
    if negb (String.eqb rest "") then None
    else match ellipsis with
         | Some k => if Nat.ltb (length ip) 16 then Some (take k ip ++ repeat 0 (16 - length ip) ++ drop k ip) else None
         | None => if Nat.eqb (length ip) 16 then Some ip else None
         end.

(** The first of a dot, a colon and a percent sign tells the kind. *)
Fixpoint address_kind (s : string) : option ascii :=
  match s with
  | String a r => if contains_byte ".:%" a then Some a else address_kind r
  | EmptyString => None
  end.

Definition ParseIP (s : string) : option (list Z) :=
  match address_kind s with
  | Some "."%char => parse_ipv4 s
  | Some ":"%char => if contains_byte s "%" then None else parse_ipv6 s
  | _ => None
  end.

(** [IP.IsLoopback]: 127.0.0.0/8, also as a mapped address, or [::1]. *)
Definition mapped_prefix : list Z := repeat 0 10 ++ [255; 255].
Definition IsLoopback (ip : list Z) : bool :=
  match ip with
  | [a; _; _; _] => a =? 127
  | _ => if bool_decide (take 12 ip = mapped_prefix) then nth 12 ip 0 =? 127
         else bool_decide (ip = repeat 0 15 ++ [1])
  end.

Example split_examples :
  SplitHostPort <$> ["127.0.0.1:9000"; ":9000"; "[::1]:9000"; "localhost"; "::1:9000"; "[::1]"; "[::1]x:1"] =
  [Some ("127.0.0.1", "9000"); Some ("", "9000"); Some ("::1", "9000"); None; None; None; None].
Proof. vm_compute. reflexivity. Qed.
Example loopback_examples :
  (fun s => IsLoopback <$> ParseIP s) <$>
    ["127.0.0.1"; "127.9.9.9"; "::1"; "0:0:0:0:0:0:0:1"; "::ffff:127.0.0.1"; "10.0.0.1"; "::"; "127.0.0.01"; "127.1"; "::1%lo"; "localhost"; "1::2::3"] =
  [Some true; Some true; Some true; Some true; Some true; Some false; Some false; None; None; None; None; None].
Proof. vm_compute. reflexivity. Qed.
