(* ===== verification/Effects.v ===== *)
(** * Effects

    A Go function that changes state and returns an error is a computation of
    [M S A]: it takes the state and gives a result and the new state. An error
    keeps the changes made before it, as in Go. *)

From S2P Require Import Prelude.

Definition M (S A : Type) : Type := S -> result A * S.

Section Monad.
Context {S : Type}.

Definition ret {A} (a : A) : M S A := fun s => (Ok a, s).
Definition fail {A} (e : error) : M S A := fun s => (Err e, s).

(** [x, err := m; if err != nil { return err }; k] *)
Definition bind {A B} (m : M S A) (k : A -> M S B) : M S B :=
  fun s => match m s with
           | (Ok a, s') => k a s'
           | (Err e, s') => (Err e, s')
           end.

(** [x, err := m], leaving the error to the code that follows. *)
Definition attempt {A} (m : M S A) : M S (result A) :=
  fun s => let '(r, s') := m s in (Ok r, s').

Definition lift_result {A} (r : result A) : M S A := fun s => (r, s).

Definition get_state : M S S := fun s => (Ok s, s).
Definition modify (f : S -> S) : M S unit := fun s => (Ok tt, f s).
End Monad.

Notation "x <- m ;; k" := (bind m (fun x => k))
  (at level 100, m at level 99, k at level 200, right associativity) : fbs_scope.
Notation "m ;; k" := (bind m (fun _ => k))
  (at level 100, k at level 200, right associativity) : fbs_scope.
Notation "'let*' x ':=' m 'in' k" := (bind m (fun x => k))
  (at level 10, x pattern, m at level 200, k at level 200) : fbs_scope.
Notation "'let!' r ':=' m 'in' k" := (bind (attempt m) (fun r => k))
  (at level 10, r name, m at level 200, k at level 200) : fbs_scope.

(** [for _, x := range l { if err := f(x); err != nil { return err } }] *)
Fixpoint for_each {S A} (l : list A) (f : A -> M S unit) : M S unit :=
  match l with
  | [] => ret tt
  | x :: l' => f x ;; for_each l' f
  end.

(** ** Reasoning

    [wp m Q s]: running [m] from [s] ends in a result and a state with [Q]. *)

Definition wp {S A} (m : M S A) (Q : result A -> S -> Prop) (s : S) : Prop :=
  Q (m s).1 (m s).2.

Section Wp.
Context {S : Type}.
Implicit Types s : S.

Lemma wp_mono {A} (m : M S A) (Q Q' : result A -> S -> Prop) s :
  wp m Q s -> (forall r s', Q r s' -> Q' r s') -> wp m Q' s.
Proof. unfold wp. auto. Qed.

Lemma wp_and {A} (m : M S A) (Q Q' : result A -> S -> Prop) s :
  wp m Q s -> wp m Q' s -> wp m (fun r s' => Q r s' /\ Q' r s') s.
Proof. by unfold wp. Qed.

Lemma wp_run {A} (m : M S A) (Q : result A -> S -> Prop) s r s' :
  m s = (r, s') -> wp m Q s -> Q r s'.
Proof. unfold wp. by intros ->. Qed.

Lemma wp_intro {A} (m : M S A) (Q : result A -> S -> Prop) s :
  (forall r s', m s = (r, s') -> Q r s') -> wp m Q s.
Proof. unfold wp. intros H. apply H. by destruct (m s). Qed.

Lemma wp_ret {A} (a : A) (Q : result A -> S -> Prop) s : Q (Ok a) s -> wp (ret a) Q s.
Proof. done. Qed.

Lemma wp_fail {A} e (Q : result A -> S -> Prop) s : Q (Err e) s -> wp (fail e) Q s.
Proof. done. Qed.

Lemma wp_lift_result {A} (r : result A) (Q : result A -> S -> Prop) s :
  Q r s -> wp (lift_result r) Q s.
Proof. done. Qed.

Lemma wp_bind {A B} (m : M S A) (k : A -> M S B) (Q : result B -> S -> Prop) s :
  wp m (fun r s' => match r with Ok a => wp (k a) Q s' | Err e => Q (Err e) s' end) s ->
  wp (bind m k) Q s.
Proof. unfold wp, bind. by destruct (m s) as [[a|e] s']. Qed.

Lemma wp_attempt {A} (m : M S A) (Q : result (result A) -> S -> Prop) s :
  wp m (fun r s' => Q (Ok r) s') s -> wp (attempt m) Q s.
Proof. unfold wp, attempt. by destruct (m s). Qed.

Lemma wp_get_state (Q : result S -> S -> Prop) s : Q (Ok s) s -> wp get_state Q s.
Proof. done. Qed.

Lemma wp_modify f (Q : result unit -> S -> Prop) s : Q (Ok tt) (f s) -> wp (modify f) Q s.
Proof. done. Qed.

(** A loop keeps what its body keeps. *)
Lemma wp_for_each {A} (l : list A) (f : A -> M S unit) (I : S -> Prop) s :
  I s -> (forall x s', x ∈ l -> I s' -> wp (f x) (fun _ s'' => I s'') s') ->
  wp (for_each l f) (fun _ s' => I s') s.
Proof.
  revert s. induction l as [|x l IH]; intros s Hs Hf; [done|].
  apply wp_bind. eapply wp_mono; [apply Hf; [by left|done]|].
  intros [[]|e] s' Hs'; [|done]. apply IH; [done|]. intros y s'' Hy. apply Hf. by right.
Qed.
End Wp.

(** What holds after a success. *)
Definition wp_ok {S A} (m : M S A) (Q : A -> S -> Prop) (s : S) : Prop :=
  wp m (fun r s' => match r with Ok a => Q a s' | Err _ => True end) s.

Section WpOk.
Context {S : Type}.
Implicit Types s : S.

Lemma wp_ok_run {A} (m : M S A) (Q : A -> S -> Prop) s a s' :
  m s = (Ok a, s') -> wp_ok m Q s -> Q a s'.
Proof. unfold wp_ok, wp. by intros ->. Qed.

Lemma wp_ok_intro {A} (m : M S A) (Q : A -> S -> Prop) s :
  (forall a s', m s = (Ok a, s') -> Q a s') -> wp_ok m Q s.
Proof. intros H. apply wp_intro. intros [a|e] s' E; [by apply H|done]. Qed.

Lemma wp_ok_mono {A} (m : M S A) (Q Q' : A -> S -> Prop) s :
  wp_ok m Q s -> (forall a s', Q a s' -> Q' a s') -> wp_ok m Q' s.
Proof. unfold wp_ok, wp. intros Hm H. destruct (m s) as [[a|e] s']; [by apply H|done]. Qed.

Lemma wp_ok_bind {A B} (m : M S A) (k : A -> M S B) (Q : B -> S -> Prop) s :
  wp_ok m (fun a s' => wp_ok (k a) Q s') s -> wp_ok (bind m k) Q s.
Proof. unfold wp_ok, wp, bind. by destruct (m s) as [[a|e] s']. Qed.

Lemma wp_ok_fail {A} e (Q : A -> S -> Prop) s : wp_ok (fail e) Q s.
Proof. done. Qed.

Lemma wp_ok_ret {A} (a : A) (Q : A -> S -> Prop) s : Q a s -> wp_ok (ret a) Q s.
Proof. done. Qed.

Lemma wp_ok_lift_result {A} (r : result A) (Q : A -> S -> Prop) s :
  (forall a, r = Ok a -> Q a s) -> wp_ok (lift_result r) Q s.
Proof. destruct r; unfold wp_ok, wp; simpl; auto. Qed.

Lemma wp_ok_attempt {A} (m : M S A) (Q : result A -> S -> Prop) s :
  wp m Q s -> wp_ok (attempt m) Q s.
Proof. unfold wp_ok, wp, attempt. by destruct (m s). Qed.

Lemma wp_ok_get_state (Q : S -> S -> Prop) s : Q s s -> wp_ok get_state Q s.
Proof. done. Qed.

(** The result of [attempt m], when only a success matters later. *)
Lemma wp_of_ok {A} (m : M S A) (Q : result A -> S -> Prop) s :
  (forall e s', Q (Err e) s') -> wp_ok m (fun a s' => Q (Ok a) s') s -> wp m Q s.
Proof. unfold wp_ok, wp. intros He. destruct (m s) as [[a|e] s']; [done|]. intros _. apply He. Qed.

Lemma wp_any {A} (m : M S A) (Q : result A -> S -> Prop) s :
  (forall r s', Q r s') -> wp m Q s.
Proof. intros H. apply H. Qed.
End WpOk.

(** Equations of the monad; an error value passed on runs nothing. *)
Section Equations.
Context {S : Type}.

Lemma bind_ret {A B} (a : A) (k : A -> M S B) : bind (ret a) k = k a.
Proof. reflexivity. Qed.

Lemma bind_lift_ok {A B} (a : A) (k : A -> M S B) : bind (lift_result (Ok a)) k = k a.
Proof. reflexivity. Qed.

Lemma bind_lift_err {A B} e (k : A -> M S B) : bind (lift_result (Err e)) k = fail e.
Proof. reflexivity. Qed.

Lemma bind_fail {A B} e (k : A -> M S B) : bind (fail e) k = fail e.
Proof. reflexivity. Qed.

Lemma attempt_fail {A} e : attempt (fail (S := S) (A := A) e) = ret (Err e).
Proof. reflexivity. Qed.

Lemma lift_result_err {A} e : lift_result (S := S) (A := A) (Err e) = fail e.
Proof. reflexivity. Qed.
End Equations.

Create Rewrite HintDb monad.
#[export] Hint Rewrite @bind_ret @bind_lift_ok @bind_lift_err @bind_fail @attempt_fail
  @lift_result_err : monad.

(** [keeps I m]: running [m] keeps [I], whatever the result. *)
Definition keeps {S A} (I : S -> Prop) (m : M S A) : Prop :=
  forall s, I s -> wp m (fun _ s' => I s') s.

Section Keeps.
Context {S : Type} (I : S -> Prop).

Lemma keeps_ret {A} (a : A) : keeps I (ret a).
Proof. by intros s. Qed.

Lemma keeps_fail {A} e : keeps I (fail (A := A) e).
Proof. by intros s. Qed.

Lemma keeps_lift_result {A} (r : result A) : keeps I (lift_result r).
Proof. by intros s. Qed.

Lemma keeps_get_state : keeps I get_state.
Proof. by intros s. Qed.

Lemma keeps_bind {A B} (m : M S A) (k : A -> M S B) :
  keeps I m -> (forall a, keeps I (k a)) -> keeps I (bind m k).
Proof.
  intros Hm Hk s Hs. apply wp_bind. eapply wp_mono; [by apply Hm|].
  intros [a|e] s' Hs'; [by apply Hk|done].
Qed.

Lemma keeps_attempt {A} (m : M S A) : keeps I m -> keeps I (attempt m).
Proof. intros Hm s Hs. apply wp_attempt. by apply Hm. Qed.

Lemma keeps_for_each {A} (l : list A) (f : A -> M S unit) :
  (forall x, x ∈ l -> keeps I (f x)) -> keeps I (for_each l f).
Proof. intros Hf s Hs. apply wp_for_each; [done|]. intros x s' Hx. by apply Hf. Qed.
End Keeps.

#[export] Hint Resolve keeps_ret keeps_fail keeps_lift_result keeps_get_state
  keeps_attempt keeps_for_each : fbs.

(** Split a computation into its primitive steps and keep [I] through them. *)
Ltac keeps_steps :=
  repeat lazymatch goal with
    | |- keeps _ (bind _ _) => apply keeps_bind; [|intros ?]
    | |- keeps _ (attempt _) => apply keeps_attempt
    | |- keeps _ (ret _) => apply keeps_ret
    | |- keeps _ (fail _) => apply keeps_fail
    | |- keeps _ (lift_result _) => apply keeps_lift_result
    | |- keeps _ get_state => apply keeps_get_state
    | |- keeps _ (for_each _ _) => apply keeps_for_each; intros ? _
    | |- keeps _ (match ?x with _ => _ end) => destruct x eqn:?
    | |- keeps _ (let '_ := ?x in _) => destruct x eqn:?
    | |- keeps _ _ => solve [eauto with fbs]
    end.

(** ** Parts of a state

    A component that works on a part [T] of a larger state [S] runs there through
    a lens. *)

Class Lens (S T : Type) : Type := {
  lens_get : S -> T;
  lens_put : T -> S -> S;
  lens_get_put t s : lens_get (lens_put t s) = t;
  lens_put_put t t' s : lens_put t (lens_put t' s) = lens_put t s;
  lens_put_get s : lens_put (lens_get s) s = s;
}.

#[export] Instance lens_id (S : Type) : Lens S S.
Proof. by refine (Build_Lens S S (fun s => s) (fun t _ => t) _ _ _). Defined.

Definition on {S T A} `{Lens S T} (m : M T A) : M S A :=
  fun s => let '(r, t) := m (lens_get s) in (r, lens_put t s).

Section OnLens.
Context {S T : Type} `{Lens S T}.

Lemma wp_on {A} (m : M T A) (Q : result A -> S -> Prop) s :
  wp m (fun r t => Q r (lens_put t s)) (lens_get s) -> wp (on m) Q s.
Proof. unfold wp, on. by destruct (m (lens_get s)). Qed.

Lemma keeps_on {A} (m : M T A) (I : T -> Prop) (J : S -> Prop) :
  keeps I m -> (forall s, J s -> I (lens_get s)) ->
  (forall s t, J s -> I t -> J (lens_put t s)) -> keeps J (on m).
Proof.
  intros Hm HJI HIJ s Hs. apply wp_on. eapply wp_mono; [by apply Hm, HJI|].
  intros r t Ht. by apply HIJ.
Qed.
End OnLens.
