(* ===== verification/Iam.v ===== *)
(** * Roles and actions: [internal/iam/iam.go]

    A [Role] and an [Action] are Go string types; the constants are the values
    the program knows. *)

From S2P Require Import Prelude GoStrings.

Abbreviation Role := string.
Abbreviation Action := string.

Definition RoleAdmin : Role := "admin".
Definition RoleMember : Role := "member".

Definition ParseRole (value : string) : result Role :=
  if String.eqb value RoleAdmin || String.eqb value RoleMember
  then Ok value else Err ErrInvalidRole.

Definition ActionCreateBucket : Action := "s3:CreateBucket".
Definition ActionDeleteBucket : Action := "s3:DeleteBucket".
Definition ActionListBucket : Action := "s3:ListBucket".
Definition ActionGetObject : Action := "s3:GetObject".
Definition ActionPutObject : Action := "s3:PutObject".
Definition ActionDeleteObject : Action := "s3:DeleteObject".
Definition ActionListMultipartUploadParts : Action := "s3:ListMultipartUploadParts".
Definition ActionAbortMultipartUpload : Action := "s3:AbortMultipartUpload".

Definition grantableActions : list Action :=
  [ActionListBucket; ActionGetObject; ActionPutObject; ActionDeleteObject;
   ActionListMultipartUploadParts; ActionAbortMultipartUpload].

Definition IsGrantable (a : Action) : bool := existsb (String.eqb a) grantableActions.

Definition ParseGrantableAction (value : string) : result Action :=
  if IsGrantable value then Ok value else Err ErrNotGrantable.

Lemma IsGrantable_elem a : IsGrantable a = true <-> a ∈ grantableActions.
Proof.
  unfold IsGrantable. rewrite existsb_exists. split.
  - intros (x & Hx & ->%String.eqb_eq). by apply list_elem_of_In.
  - intros H. exists a. by rewrite String.eqb_refl, <- list_elem_of_In.
Qed.

Lemma grantable_not_bucket_admin a :
  IsGrantable a = true -> a <> ActionCreateBucket /\ a <> ActionDeleteBucket.
Proof. intros H. split; intros ->; by vm_compute in H. Qed.

(** [ParseRole] accepts exactly the two stored roles. *)
Lemma ParseRole_ok value r :
  ParseRole value = Ok r <-> r = value /\ (value = RoleAdmin \/ value = RoleMember).
Proof.
  unfold ParseRole.
  destruct (String.eqb_spec value RoleAdmin), (String.eqb_spec value RoleMember); simpl;
    (split; [intros [=]|intros [? ?]]); subst; tauto.
Qed.
