(* ===== verification/Authz.v ===== *)
(** * Authorization: [internal/authz]

    The evaluator decides whether a principal may perform an S3 action. Its only
    effect is the call of the grant store, an interface that the metadata
    repositories implement. *)

From S2P Require Import Prelude GoStrings Effects Iam.

(** [auth.Principal] *)
Record Principal : Type := MkPrincipal {
  p_user_id : string;
  p_display_name : string;
  p_access_key_id : string;
  p_role : Role;
  p_dev_mode : bool;
  p_signed_headers : string;
  p_signed_payload_hash : string;
}.

(** [authz.Grant] *)
Record AuthzGrant : Type := MkAuthzGrant {
  ag_bucket_name : string;
  ag_grantee_user_id : string;
  ag_action : Action;
  ag_key_prefix : string;
  ag_active : bool;
}.

(** [authz.DecisionRequest] *)
Record DecisionRequest : Type := MkDecisionRequest {
  dr_principal : Principal;
  dr_action : Action;
  dr_bucket : string;
  dr_object_key : string;
  dr_list_prefix : string;
  dr_bucket_owner_id : string;
}.

(** [authz.GrantStore]: the method that loads the grants of a grantee on a
    bucket. *)
Class GrantStore (S : Type) : Type :=
  ListActiveForGranteeBucket : string -> string -> M S (list AuthzGrant).

(** [FuncStore.ListActiveForGranteeBucket]: a nil function lists no grant. *)
Definition FuncStore {S} (f : option (string -> string -> M S (list AuthzGrant))) : GrantStore S :=
  fun grantee bucket =>
    match f with
    | None => ret []
    | Some f => f grantee bucket
    end.

(** [authz.Evaluator]: the store may be nil. *)
Record Evaluator (S : Type) : Type := MkEvaluator { ev_grants : option (GrantStore S) }.
Arguments MkEvaluator {S} _.
Arguments ev_grants {S} _.

Definition grantMatches (grant : AuthzGrant) (req : DecisionRequest) : bool :=
  if String.eqb (dr_action req) ActionListBucket
  then has_prefix (dr_list_prefix req) (ag_key_prefix grant)
  else has_prefix (dr_object_key req) (ag_key_prefix grant).

(** The loop over the loaded grants. *)
Fixpoint any_grant_allows (grants : list AuthzGrant) (req : DecisionRequest) : bool :=
  match grants with
  | [] => false
  | grant :: rest =>
      if negb (ag_active grant) then any_grant_allows rest req
      else if negb (String.eqb (ag_action grant) (dr_action req)) then any_grant_allows rest req
      else if grantMatches grant req then true
      else any_grant_allows rest req
  end.

Definition Allow {S} (e : Evaluator S) (req : DecisionRequest) : M S bool :=
  if String.eqb (trim_space (p_user_id (dr_principal req))) "" then ret false
  else if String.eqb (dr_action req) "" then ret false
  else if String.eqb (p_role (dr_principal req)) RoleAdmin then ret true
  else if String.eqb (dr_action req) ActionCreateBucket then ret true
  else if String.eqb (trim_space (dr_bucket req)) "" then ret false
  else if negb (String.eqb (dr_bucket_owner_id req) "")
          && String.eqb (dr_bucket_owner_id req) (p_user_id (dr_principal req)) then ret true
  else if String.eqb (dr_action req) ActionDeleteBucket then ret false
  else match ev_grants e with
       | None => ret false
       | Some store =>
           grants <- store (p_user_id (dr_principal req)) (dr_bucket req) ;;
           ret (any_grant_allows grants req)
       end.

(** ** The policy

    What the evaluator promises, as a proposition over the grants that exist. *)

Definition grant_permits (g : AuthzGrant) (req : DecisionRequest) : Prop :=
  ag_active g = true /\ ag_action g = dr_action req /\
  if decide (dr_action req = ActionListBucket)
  then has_prefix (dr_list_prefix req) (ag_key_prefix g) = true
  else has_prefix (dr_object_key req) (ag_key_prefix g) = true.

Inductive permitted (grants : list AuthzGrant) (req : DecisionRequest) : Prop :=
  | permitted_admin : p_role (dr_principal req) = RoleAdmin -> permitted grants req
  | permitted_create : dr_action req = ActionCreateBucket -> permitted grants req
  | permitted_owner :
      trim_space (dr_bucket req) <> "" -> dr_bucket_owner_id req <> "" ->
      dr_bucket_owner_id req = p_user_id (dr_principal req) -> permitted grants req
  | permitted_grant g :
      trim_space (dr_bucket req) <> "" -> dr_action req <> ActionDeleteBucket ->
      g ∈ grants -> grant_permits g req -> permitted grants req.

(** A request the evaluator considers at all. *)
Definition well_formed_request (req : DecisionRequest) : Prop :=
  trim_space (p_user_id (dr_principal req)) <> "" /\ dr_action req <> "".

Lemma grantMatches_permits g req :
  ag_active g = true -> ag_action g = dr_action req ->
  grantMatches g req = true <-> grant_permits g req.
Proof.
  intros Ha Hact. unfold grantMatches, grant_permits.
  destruct (String.eqb_spec (dr_action req) ActionListBucket); case_decide; tauto.
Qed.

Lemma any_grant_allows_spec grants req :
  any_grant_allows grants req = true <-> exists g, g ∈ grants /\ grant_permits g req.
Proof.
  induction grants as [|g grants IH]; simpl.
  - split; [done|]. intros (g & Hg & _). by apply not_elem_of_nil in Hg.
  - setoid_rewrite elem_of_cons.
    assert (Hskip : ~ grant_permits g req ->
      any_grant_allows grants req = true <->
      exists g', (g' = g \/ g' ∈ grants) /\ grant_permits g' req).
    { intros Hn. rewrite IH. split.
      - intros (g' & ? & ?). eauto.
      - intros (g' & [-> |?] & ?); [done|eauto]. }
    destruct (ag_active g) eqn:Ea; simpl; [|apply Hskip; by intros [? _]; congruence].
    destruct (String.eqb_spec (ag_action g) (dr_action req)) as [Eact|Hne]; simpl;
      [|apply Hskip; by intros (_ & ? & _)].
    destruct (grantMatches g req) eqn:Em.
    + apply grantMatches_permits in Em; [|done..]. split; eauto.
    + apply Hskip. rewrite <- grantMatches_permits by done. congruence.
Qed.

(** ** The evaluator implements the policy *)

Section Evaluator.
Context {S : Type}.
Implicit Types (s : S) (req : DecisionRequest).

(** The short circuits of [Allow], before the store is asked. *)
Lemma Allow_short_circuit (e : Evaluator S) req s :
  p_role (dr_principal req) = RoleAdmin \/ dr_action req = ActionCreateBucket \/
  (trim_space (dr_bucket req) <> "" /\ dr_bucket_owner_id req <> "" /\
   dr_bucket_owner_id req = p_user_id (dr_principal req)) ->
  well_formed_request req -> Allow e req s = (Ok true, s).
Proof.
  intros H (Hu & Ha). unfold Allow.
  destruct (String.eqb_spec (trim_space (p_user_id (dr_principal req))) ""); [done|].
  destruct (String.eqb_spec (dr_action req) ""); [done|].
  destruct (String.eqb_spec (p_role (dr_principal req)) RoleAdmin); [done|].
  destruct (String.eqb_spec (dr_action req) ActionCreateBucket); [done|].
  destruct H as [?|[?|(Hb & Ho & E)]]; [done..|].
  destruct (String.eqb_spec (trim_space (dr_bucket req)) ""); [done|].
  destruct (String.eqb_spec (dr_bucket_owner_id req) ""); [done|].
  destruct (String.eqb_spec (dr_bucket_owner_id req) (p_user_id (dr_principal req))); done.
Qed.

Lemma Allow_denies_malformed (e : Evaluator S) req s :
  ~ well_formed_request req -> Allow e req s = (Ok false, s).
Proof.
  intros H. unfold Allow, well_formed_request in *.
  destruct (String.eqb_spec (trim_space (p_user_id (dr_principal req))) ""); [done|].
  destruct (String.eqb_spec (dr_action req) ""); [done|]. tauto.
Qed.

(** Otherwise the answer is the store's: no grant can allow [DeleteBucket], and
    an error is passed on. *)
Lemma Allow_asks_store (store : GrantStore S) req s r s' :
  well_formed_request req ->
  p_role (dr_principal req) <> RoleAdmin -> dr_action req <> ActionCreateBucket ->
  trim_space (dr_bucket req) <> "" ->
  (dr_bucket_owner_id req = "" \/ dr_bucket_owner_id req <> p_user_id (dr_principal req)) ->
  dr_action req <> ActionDeleteBucket ->
  store (p_user_id (dr_principal req)) (dr_bucket req) s = (r, s') ->
  Allow (MkEvaluator (Some store)) req s =
  (match r with Ok grants => Ok (any_grant_allows grants req) | Err err => Err err end, s').
Proof.
  intros (Hu & Ha) Hadm Hcr Hb Ho Hdel Hstore. unfold Allow.
  apply String.eqb_neq in Hu as ->. apply String.eqb_neq in Ha as ->.
  apply String.eqb_neq in Hadm as ->. apply String.eqb_neq in Hcr as ->.
  apply String.eqb_neq in Hb as ->. apply String.eqb_neq in Hdel as ->.
  replace (negb _ && _) with false; [|symmetry; apply andb_false_iff;
    destruct Ho as [->|Ho%String.eqb_neq]; [by left|by right]].
  simpl. unfold bind. rewrite Hstore. by destruct r.
Qed.

(** When [Allow] says yes, one of the short circuits applies or the store
    answered with a permitting grant. *)
Lemma Allow_true_inv (e : Evaluator S) req s s' :
  Allow e req s = (Ok true, s') ->
  well_formed_request req /\
  (p_role (dr_principal req) = RoleAdmin \/ dr_action req = ActionCreateBucket \/
   (trim_space (dr_bucket req) <> "" /\ dr_bucket_owner_id req <> "" /\
    dr_bucket_owner_id req = p_user_id (dr_principal req)) \/
   (trim_space (dr_bucket req) <> "" /\ dr_action req <> ActionDeleteBucket /\
    exists store grants g, ev_grants e = Some store /\
      store (p_user_id (dr_principal req)) (dr_bucket req) s = (Ok grants, s') /\
      g ∈ grants /\ grant_permits g req)).
Proof.
  unfold Allow, well_formed_request.
  destruct (String.eqb_spec (trim_space (p_user_id (dr_principal req))) ""); [done|].
  destruct (String.eqb_spec (dr_action req) ""); [done|].
  destruct (String.eqb_spec (p_role (dr_principal req)) RoleAdmin); [tauto|].
  destruct (String.eqb_spec (dr_action req) ActionCreateBucket); [tauto|].
  destruct (String.eqb_spec (trim_space (dr_bucket req)) ""); [done|].
  destruct (negb _ && _) eqn:Eo.
  { apply andb_true_iff in Eo as [Hne%negb_true_iff%String.eqb_neq Heq%String.eqb_eq].
    intros _. split; [done|]. do 2 right. left. done. }
  destruct (String.eqb_spec (dr_action req) ActionDeleteBucket); [done|].
  destruct (ev_grants e) as [store|]; [|done].
  unfold bind. destruct (store _ _ s) as [[grants|err] s1] eqn:Es; [|done].
  intros [= Hany ->]. apply any_grant_allows_spec in Hany as (g & Hg & Hp).
  split; [done|]. do 3 right. split; [done|]. split; [done|]. by exists store, grants, g.
Qed.

(** C12: the evaluator decides exactly the policy. A well-formed request gets
    an answer, which is yes if and only if the principal is an admin, the action
    is CreateBucket, the principal owns the bucket, or the store lists an active
    grant for the action (never DeleteBucket) whose prefix covers the key - for
    ListBucket, the requested list prefix. *)
Theorem Allow_correct (store : GrantStore S) req s grants s' :
  well_formed_request req ->
  store (p_user_id (dr_principal req)) (dr_bucket req) s = (Ok grants, s') ->
  exists b, (Allow (MkEvaluator (Some store)) req s).1 = Ok b /\
            (b = true <-> permitted grants req).
Proof.
  intros (Hu & Ha) Hstore. unfold Allow.
  apply String.eqb_neq in Hu as ->. apply String.eqb_neq in Ha as ->.
  destruct (String.eqb_spec (p_role (dr_principal req)) RoleAdmin) as [|Hadm];
    [exists true; split; [done|]; split; [by constructor|done]|].
  destruct (String.eqb_spec (dr_action req) ActionCreateBucket) as [|Hcr];
    [exists true; split; [done|]; split; [by constructor|done]|].
  destruct (String.eqb_spec (trim_space (dr_bucket req)) "") as [|Hb].
  { exists false. split; [done|]. split; [done|]. by intros []. }
  destruct (negb _ && _) eqn:Eo.
  { apply andb_true_iff in Eo as [Hne%negb_true_iff%String.eqb_neq Heq%String.eqb_eq].
    exists true. split; [done|]. split; [by constructor 3|done]. }
  assert (Ho : dr_bucket_owner_id req <> "" ->
               dr_bucket_owner_id req <> p_user_id (dr_principal req)).
  { intros Hne Heq. rewrite Heq, String.eqb_refl, andb_true_r, <- Heq in Eo.
    apply negb_false_iff, String.eqb_eq in Eo. done. }
  destruct (String.eqb_spec (dr_action req) ActionDeleteBucket) as [|Hdel].
  { exists false. split; [done|]. split; [done|]. intros []; tauto. }
  exists (any_grant_allows grants req). unfold bind. simpl. rewrite Hstore. split; [done|].
  rewrite any_grant_allows_spec. split.
  - intros (g & Hg & Hp). by econstructor 4.
  - intros []; [tauto..|]. eauto.
Qed.

(** The evaluator fails closed. When the grant store fails, the request is
    not allowed unless it needs no grant: an admin, CreateBucket, or the bucket
    owner. With no store at all the same holds, DeleteBucket included. *)
Theorem Allow_fails_closed (e : Evaluator S) req s s' :
  (match ev_grants e with
   | None => True
   | Some store => exists err s1, store (p_user_id (dr_principal req)) (dr_bucket req) s = (Err err, s1)
   end) ->
  Allow e req s = (Ok true, s') ->
  p_role (dr_principal req) = RoleAdmin \/ dr_action req = ActionCreateBucket \/
  (dr_bucket_owner_id req = p_user_id (dr_principal req) /\ dr_bucket_owner_id req <> "").
Proof.
  intros Hstore Hallow. apply Allow_true_inv in Hallow as (_ & [?|[?|[?|(_ & _ & H)]]]); [tauto..|].
  destruct H as (store & grants & g & E & Hs & _). rewrite E in Hstore.
  destruct Hstore as (err & s1 & Hs1). congruence.
Qed.

(** A ListBucket request can narrow into the granted subtree but never
    widen: every key that a listing allowed by a grant can show has the prefix of
    an active ListBucket grant of that principal. *)
Theorem list_grant_confines (store : GrantStore S) req s s' key :
  dr_action req = ActionListBucket ->
  p_role (dr_principal req) <> RoleAdmin ->
  dr_bucket_owner_id req <> p_user_id (dr_principal req) ->
  Allow (MkEvaluator (Some store)) req s = (Ok true, s') ->
  has_prefix key (dr_list_prefix req) = true ->
  exists grants g, store (p_user_id (dr_principal req)) (dr_bucket req) s = (Ok grants, s') /\
    g ∈ grants /\ ag_active g = true /\ ag_action g = ActionListBucket /\
    has_prefix key (ag_key_prefix g) = true.
Proof.
  intros Hact Hadm Hown Hallow Hkey.
  apply Allow_true_inv in Hallow as (_ & [?|[E|[(_&_&?)|(_ & _ & H)]]]); [done| |done|].
  { rewrite Hact in E. by vm_compute in E. }
  destruct H as (store' & grants & g & E & Hs & Hg & Hact' & Hga & Hp). simplify_eq/=.
  exists grants, g. rewrite decide_True in Hp by done.
  split_and!; [done..|congruence|]. by eapply has_prefix_trans.
Qed.
End Evaluator.

(** ** Witnesses *)

Definition sample_principal : Principal :=
  MkPrincipal "u1" "User" "ak" RoleMember false "" "".
Definition sample_grant : AuthzGrant :=
  MkAuthzGrant "photos" "u1" ActionListBucket "2024/" true.
Definition sample_request : DecisionRequest :=
  MkDecisionRequest sample_principal ActionListBucket "photos" "" "2024/05/" "u2".
Definition sample_store : GrantStore unit := fun _ _ => ret [sample_grant].
Definition failing_store : GrantStore unit := fun _ _ => fail ErrDatabase.

Lemma Allow_correct_witness :
  exists b, (Allow (MkEvaluator (Some sample_store)) sample_request tt).1 = Ok b /\
            (b = true <-> permitted [sample_grant] sample_request).
Proof.
  apply (Allow_correct sample_store sample_request tt [sample_grant] tt).
  - split; vm_compute; congruence.
  - reflexivity.
Defined.

Definition owner_request : DecisionRequest :=
  MkDecisionRequest sample_principal ActionDeleteBucket "photos" "" "" "u1".

Lemma Allow_fails_closed_witness :
  p_role (dr_principal owner_request) = RoleAdmin \/ dr_action owner_request = ActionCreateBucket \/
  (dr_bucket_owner_id owner_request = p_user_id (dr_principal owner_request) /\
   dr_bucket_owner_id owner_request <> "").
Proof.
  apply (Allow_fails_closed (MkEvaluator (Some failing_store)) owner_request tt tt).
  - simpl. exists ErrDatabase, tt. reflexivity.
  - vm_compute. reflexivity.
Defined.

Lemma list_grant_confines_witness :
  exists grants g, sample_store "u1" "photos" tt = (Ok grants, tt) /\
    g ∈ grants /\ ag_active g = true /\ ag_action g = ActionListBucket /\
    has_prefix "2024/05/a.jpg" (ag_key_prefix g) = true.
Proof.
  apply (list_grant_confines sample_store sample_request tt tt "2024/05/a.jpg");
    vm_compute; congruence.
Defined.
