(* ===== verification/Os.v ===== *)
(** * The operating system

    The files and directories that the storage engine works on, with the system
    calls it makes. Every system call and every check of a context consults an
    oracle of faults: [Some n] makes the call fail (after [n] bytes or entries where
    the call can do part of its work), [None] lets it run. A theorem about all
    oracles therefore covers failing disks, cancelled requests and a crash, after
    which every further call fails. *)

From S2P Require Import Prelude GoStrings GoPath Effects.

(** The segments of an absolute path. *)
Abbreviation path := (list string).

Record Os : Type := MkOs {
  os_files : gmap path string;
  os_dirs : gset path;
  os_faults : list (option nat);
  os_uuids : nat;
}.

Definition set_files (f : gmap path string) (s : Os) : Os :=
  MkOs f (os_dirs s) (os_faults s) (os_uuids s).
Definition set_dirs (d : gset path) (s : Os) : Os :=
  MkOs (os_files s) d (os_faults s) (os_uuids s).
Definition set_faults (l : list (option nat)) (s : Os) : Os :=
  MkOs (os_files s) (os_dirs s) l (os_uuids s).

(** [uuid.New().String()]: the package is not part of the repository. The n-th
    call of a run gives [uuid_of n]. *)
Class Uuid : Type := uuid_of : nat -> string.

(** What the code relies on: the calls give different file names. *)
Class UuidLaws `{Uuid} : Prop := {
  uuid_inj : Inj (=) (=) uuid_of;
  uuid_normal n : normal_seg (uuid_of n);
}.

(** ** Paths *)

(** [p] is [dir] or lies below it. *)
Definition below (dir p : path) : bool := bool_decide (dir `prefix_of` p).
Definition strictly_below (dir p : path) : bool := below dir p && bool_decide (p <> dir).

Fixpoint path_leb (p q : path) : bool :=
  match p, q with
  | [], _ => true
  | _ :: _, [] => false
  | x :: p', y :: q' => if String.eqb x y then path_leb p' q' else String.leb x y
  end.

(** The directories on the way to [p]: its non-empty prefixes. *)
Definition prefixes (p : path) : list path := (fun n => take n p) <$> seq 1 (length p).

(** ** System calls *)

Definition pop_fault : M Os (option nat) :=
  fun s => match os_faults s with
           | [] => (Ok None, s)
           | f :: fs => (Ok f, set_faults fs s)
           end.

(** A system call that does nothing when it fails. *)
Definition syscall {A} (m : M Os A) : M Os A :=
  f <- pop_fault ;; match f with Some _ => fail ErrIO | None => m end.

(** [select { case <-ctx.Done(): return ctx.Err(); default: }] *)
Definition check_ctx : M Os unit :=
  f <- pop_fault ;; match f with Some _ => fail ErrContext | None => ret tt end.

Definition new_uuid `{Uuid} : M Os string :=
  fun s => (Ok (uuid_of (os_uuids s)),
            MkOs (os_files s) (os_dirs s) (os_faults s) (S (os_uuids s))).

(** [os.Create]: the parent must be a directory; an existing file is truncated. *)
Definition os_create (p : path) : M Os unit := syscall (fun s =>
  if bool_decide (p ∈ os_dirs s) || bool_decide (removelast p ∉ os_dirs s) then (Err ErrIO, s)
  else (Ok tt, set_files (<[p := ""]> (os_files s)) s)).

(** [os.File.Write] on the file created at [p]: the bytes written, and the error. *)
Definition os_write (p : path) (data : string) : M Os (nat * option error) :=
  f <- pop_fault ;; fun s =>
    let '(n, err) := match f with
                     | None => (String.length data, None)
                     | Some n => (Nat.min n (String.length data), Some ErrIO)
                     end in
    (Ok (n, err), set_files (alter (fun c => c +:+ take_bytes n data) p (os_files s)) s).

(** [os.File.Sync] and [Close]. *)
Definition os_sync : M Os unit := syscall (ret tt).
Definition os_close : M Os unit := syscall (ret tt).

(** [os.MkdirAll] *)
Definition os_mkdir_all (p : path) : M Os unit := syscall (fun s =>
  if existsb (fun q => bool_decide (is_Some (os_files s !! q))) (prefixes p) then (Err ErrIO, s)
  else (Ok tt, set_dirs (list_to_set (prefixes p) ∪ os_dirs s) s)).

(** [os.Rename] of a file. *)
Definition os_rename (from to : path) : M Os unit := syscall (fun s =>
  match os_files s !! from with
  | None => (Err ErrNotExist, s)
  | Some c =>
      if bool_decide (to ∈ os_dirs s) || bool_decide (removelast to ∉ os_dirs s) then (Err ErrIO, s)
      else (Ok tt, set_files (<[to := c]> (delete from (os_files s))) s)
  end).

(** The entries below a directory. *)
Definition has_entries (s : Os) (dir : path) : bool :=
  existsb (fun pc => strictly_below dir pc.1) (map_to_list (os_files s))
  || existsb (strictly_below dir) (elements (os_dirs s)).

(** [os.Remove] of a file or an empty directory. *)
Definition os_remove (p : path) : M Os unit := syscall (fun s =>
  if bool_decide (is_Some (os_files s !! p)) then (Ok tt, set_files (delete p (os_files s)) s)
  else if bool_decide (p ∈ os_dirs s) then
    if has_entries s p then (Err ErrIO, s) else (Ok tt, set_dirs (os_dirs s ∖ {[p]}) s)
  else (Err ErrNotExist, s)).

(** [os.RemoveAll]: a failing call may have removed some of the files. *)
Definition os_remove_all (dir : path) : M Os unit :=
  f <- pop_fault ;; fun s =>
    match f with
    | None =>
        (Ok tt, set_dirs (filter (fun d => below dir d = false) (os_dirs s))
                  (set_files (filter (fun pc => below dir pc.1 = false) (os_files s)) s))
    | Some n =>
        let victims := take n (filter (fun p => below dir p = true) (map_to_list (os_files s)).*1) in
        (Err ErrIO, set_files (foldr delete (os_files s) victims) s)
    end.

(** [os.Open] for reading: the content of a file, [None] for a directory. *)
Definition os_open (p : path) : M Os (option string) := syscall (fun s =>
  match os_files s !! p with
  | Some c => (Ok (Some c), s)
  | None => if bool_decide (p ∈ os_dirs s) then (Ok None, s) else (Err ErrNotExist, s)
  end).

(** Listings are in lexical order of the first component. *)
Definition name_le {B} (a b : string * B) : Prop := String.leb a.1 b.1 = true.
#[export] Instance name_le_dec {B} : RelDecision (@name_le B).
Proof. intros a b. unfold name_le. solve_decision. Defined.
Definition entry_le {B} (a b : path * B) : Prop := path_leb a.1 b.1 = true.
#[export] Instance entry_le_dec {B} : RelDecision (@entry_le B).
Proof. intros a b. unfold entry_le. solve_decision. Defined.

(** [os.ReadDir]: the names, in order, with [IsDir]. *)
Definition child_names (dir : path) (ps : list path) : list string :=
  omap (fun p => if bool_decide (removelast p = dir) then last p else None) ps.

Definition os_read_dir (dir : path) : M Os (list (string * bool)) := syscall (fun s =>
  if bool_decide (dir ∈ os_dirs s) then
    let entries := ((fun n => (n, true)) <$> child_names dir (elements (os_dirs s))) ++
                   ((fun n => (n, false)) <$> child_names dir (map_to_list (os_files s)).*1) in
    (Ok (merge_sort name_le entries), s)
  else (Err ErrNotExist, s)).

(** ** [filepath.WalkDir]

    The tree below the root in lexical order, the function called on each entry;
    an entry for which it answers [true] (Go's [SkipDir] on a directory) is not
    descended into. The functions of the storage engine remove at most the entry
    they are called on, so listing the tree at the start is the same as listing
    each directory when it is entered. Listing a directory can fail; the function
    is then called again, with the error, and the engine's functions return it. *)

Definition tree_nodes (s : Os) (root : path) : list (path * bool) :=
  ((fun d => (d, true)) <$> filter (fun d => below root d = true) (elements (os_dirs s))) ++
  ((fun p => (p, false)) <$> filter (fun p => below root p = true) (map_to_list (os_files s)).*1).

Definition tree_entries (s : Os) (root : path) : list (path * bool) :=
  merge_sort entry_le (tree_nodes s root).

Section Walk.
Context {S : Type} `{Lens S Os}.

Fixpoint walk_entries (fn : path -> bool -> M S bool) (skip : list path)
    (entries : list (path * bool)) : M S unit :=
  match entries with
  | [] => ret tt
  | (p, isDir) :: rest =>
      if existsb (fun d => below d p) skip then walk_entries fn skip rest
      else
        skipDir <- fn p isDir ;;
        if isDir && skipDir then walk_entries fn (p :: skip) rest
        else if isDir then on (syscall (ret tt)) ;; walk_entries fn skip rest
        else walk_entries fn skip rest
  end.

Definition walk_dir (root : path) (fn : path -> bool -> M S bool) : M S unit :=
  on (syscall (ret tt)) ;;                                (* os.Lstat *)
  s <- get_state ;;
  match tree_entries (lens_get s) root with
  | [] => fail ErrNotExist
  | entries => walk_entries fn [] entries
  end.
End Walk.

(** ** Rules *)

Section OsRules.
Implicit Types s : Os.

Lemma wp_pop_fault (Q : result (option nat) -> Os -> Prop) s :
  (forall f fs, Q (Ok f) (set_faults fs s)) -> wp pop_fault Q s.
Proof.
  intros H. unfold wp, pop_fault. destruct (os_faults s) as [|f fs] eqn:E; [|apply H].
  specialize (H None (os_faults s)). by destruct s.
Qed.

Lemma wp_syscall {A} (m : M Os A) (Q : result A -> Os -> Prop) s :
  (forall fs, Q (Err ErrIO) (set_faults fs s)) ->
  (forall fs, wp m Q (set_faults fs s)) -> wp (syscall m) Q s.
Proof. intros H1 H2. apply wp_bind, wp_pop_fault. intros [n|] fs; [apply H1|apply H2]. Qed.

Lemma wp_check_ctx (Q : result unit -> Os -> Prop) s :
  (forall fs, Q (Err ErrContext) (set_faults fs s)) ->
  (forall fs, Q (Ok tt) (set_faults fs s)) -> wp check_ctx Q s.
Proof. intros H1 H2. apply wp_bind, wp_pop_fault. intros [n|] fs; [apply H1|apply H2]. Qed.

Lemma wp_new_uuid `{Uuid} (Q : result string -> Os -> Prop) s :
  Q (Ok (uuid_of (os_uuids s)))
    (MkOs (os_files s) (os_dirs s) (os_faults s) (S (os_uuids s))) -> wp new_uuid Q s.
Proof. done. Qed.

Lemma elem_of_prefixes p q : q ∈ prefixes p <-> q `prefix_of` p /\ q <> [].
Proof.
  unfold prefixes. rewrite list_elem_of_fmap. split.
  - intros (n & -> & Hn%elem_of_seq). split; [apply prefix_take|].
    destruct p; [simpl in Hn; lia|]. by destruct n; [lia|].
  - intros ([k ->] & Hne). exists (length q). split; [by rewrite take_app_length|].
    apply elem_of_seq. rewrite length_app. destruct q; [done|simpl; lia].
Qed.
End OsRules.

(** [files_frame P s s']: the files outside [P] are as they were, and no uuid is
    given twice. *)
Definition files_frame (P : path -> Prop) (s s' : Os) : Prop :=
  (forall p, ~ P p -> os_files s' !! p = os_files s !! p) /\ os_uuids s <= os_uuids s'.

Lemma files_frame_refl P s : files_frame P s s.
Proof. done. Qed.

Lemma files_frame_eq P s s' :
  os_files s' = os_files s -> os_uuids s <= os_uuids s' -> files_frame P s s'.
Proof. intros Hf Hu. split; [|done]. intros p _. by rewrite Hf. Qed.

Lemma files_frame_trans P s1 s2 s3 :
  files_frame P s1 s2 -> files_frame P s2 s3 -> files_frame P s1 s3.
Proof.
  intros [H1 L1] [H2 L2]. split; [|lia]. intros p Hp. by rewrite H2, H1.
Qed.

Lemma files_frame_weaken (P Q : path -> Prop) s s' :
  files_frame P s s' -> (forall p, P p -> Q p) -> files_frame Q s s'.
Proof. intros [H1 L] H. split; [|done]. intros p Hp. apply H1. naive_solver. Qed.

(** ** Every call keeps the files it is not about *)

Section OsKeeps.
Context (s0 : Os) (P : path -> Prop).
Let I := files_frame P s0.

Lemma frame_step s files dirs faults uuids :
  I s -> (forall p, ~ P p -> files !! p = os_files s !! p) -> os_uuids s <= uuids ->
  I (MkOs files dirs faults uuids).
Proof. intros [H1 L] H2 L2. split; [|simpl; lia]. intros p Hp. simpl. by rewrite H2, H1. Qed.

Lemma keeps_pop_fault : keeps I pop_fault.
Proof. intros s Hs. apply wp_pop_fault. intros f fs. by apply (frame_step s). Qed.

Lemma keeps_syscall {A} (m : M Os A) : keeps I m -> keeps I (syscall m).
Proof.
  intros Hm s Hs. apply wp_syscall; intros fs; [by apply (frame_step s)|].
  apply Hm. by apply (frame_step s).
Qed.

Lemma keeps_check_ctx : keeps I check_ctx.
Proof. intros s Hs. apply wp_check_ctx; intros fs; by apply (frame_step s). Qed.

Lemma keeps_new_uuid `{Uuid} : keeps I new_uuid.
Proof. intros s Hs. apply wp_new_uuid. apply (frame_step s); [done|done|simpl; lia]. Qed.

Lemma keeps_os_create p : P p -> keeps I (os_create p).
Proof.
  intros Hp. apply keeps_syscall. intros s Hs. unfold wp.
  destruct (_ || _); [done|]. simpl. apply (frame_step s); [done| |done].
  intros q Hq. rewrite lookup_insert_ne; [done|]. by intros ->.
Qed.

Lemma keeps_os_write p data : P p -> keeps I (os_write p data).
Proof.
  intros Hp. apply keeps_bind; [apply keeps_pop_fault|]. intros f s Hs. unfold wp.
  destruct (match f with None => _ | Some _ => _ end) as [n err].
  simpl. apply (frame_step s); [done| |done].
  intros q Hq. rewrite lookup_alter_ne; [done|]. by intros ->.
Qed.

Lemma keeps_os_mkdir_all p : keeps I (os_mkdir_all p).
Proof.
  apply keeps_syscall. intros s Hs. unfold wp. destruct (existsb _ _); [done|].
  by apply (frame_step s).
Qed.

Lemma keeps_os_rename p q : P p -> P q -> keeps I (os_rename p q).
Proof.
  intros Hp Hq. apply keeps_syscall. intros s Hs. unfold wp.
  destruct (os_files s !! p); [|done]. destruct (_ || _); [done|].
  simpl. apply (frame_step s); [done| |done].
  intros x Hx. rewrite lookup_insert_ne, lookup_delete_ne; [done|by intros ->..].
Qed.

Lemma keeps_os_remove p : P p -> keeps I (os_remove p).
Proof.
  intros Hp. apply keeps_syscall. intros s Hs. unfold wp.
  destruct (bool_decide (is_Some _)); simpl.
  - apply (frame_step s); [done| |done]. intros q Hq.
    rewrite lookup_delete_ne; [done|by intros ->].
  - destruct (bool_decide (p ∈ _)); [|done]. destruct (has_entries s p); [done|].
    by apply (frame_step s).
Qed.

(** Removing a directory removes no file. *)
Lemma keeps_os_remove_dir p :
  (forall s, I s -> os_files s !! p = None) -> keeps I (os_remove p).
Proof.
  intros Hp. apply keeps_syscall. intros s Hs. unfold wp. rewrite Hp by done.
  rewrite bool_decide_false by by intros [].
  destruct (bool_decide (p ∈ _)); [|done]. destruct (has_entries s p); [done|].
  by apply (frame_step s).
Qed.

Lemma keeps_os_remove_all dir :
  (forall p, below dir p = true -> P p) -> keeps I (os_remove_all dir).
Proof.
  intros HP. apply keeps_bind; [apply keeps_pop_fault|]. intros [n|] s Hs; unfold wp; simpl.
  - apply (frame_step s); [done| |done]. intros q Hq.
    apply lookup_foldr_delete_not_elem_of.
    intros Hin%elem_of_take. destruct Hin as (i & Hi & _).
    apply list_elem_of_lookup_2, list_elem_of_filter in Hi as [? _]. auto.
  - apply (frame_step s); [done| |done]. intros q Hq. simpl.
    apply option_eq. intros c. rewrite map_lookup_filter_Some. simpl.
    split; [by intros []|]. intros Hc. split; [done|].
    destruct (below dir q) eqn:E; [|done]. by apply HP in E.
Qed.

Lemma keeps_os_open p : keeps I (os_open p).
Proof.
  apply keeps_syscall. intros s Hs. unfold wp. destruct (os_files s !! p); [done|].
  by destruct (bool_decide _).
Qed.

Lemma keeps_os_sync : keeps I os_sync.
Proof. apply keeps_syscall, keeps_ret. Qed.

Lemma keeps_os_close : keeps I os_close.
Proof. apply keeps_syscall, keeps_ret. Qed.

Lemma keeps_os_read_dir p : keeps I (os_read_dir p).
Proof. apply keeps_syscall. intros s Hs. unfold wp. by destruct (bool_decide _). Qed.
End OsKeeps.

#[export] Hint Resolve keeps_pop_fault keeps_syscall keeps_check_ctx keeps_new_uuid
  keeps_os_create keeps_os_write keeps_os_mkdir_all keeps_os_rename keeps_os_remove
  keeps_os_remove_all keeps_os_open keeps_os_read_dir keeps_os_sync keeps_os_close : fbs.

(** Calls that change nothing keep what does not look at the oracle. *)

Section FaultBlind.
Context (I : Os -> Prop) (blind : forall fs s, I s -> I (set_faults fs s)).

Lemma blind_syscall {A} (m : M Os A) : keeps I m -> keeps I (syscall m).
Proof using blind.
  intros Hm s Hs. apply wp_syscall; intros fs; [by apply blind|by apply Hm, blind].
Qed.

Lemma blind_open p : keeps I (os_open p).
Proof using blind.
  apply blind_syscall. intros s Hs. unfold wp. destruct (os_files s !! p); [done|].
  by destruct (bool_decide _).
Qed.

Lemma blind_sync : keeps I os_sync.
Proof using blind. apply blind_syscall, keeps_ret. Qed.

Lemma blind_close : keeps I os_close.
Proof using blind. apply blind_syscall, keeps_ret. Qed.

Lemma blind_pop_fault : keeps I pop_fault.
Proof using blind. intros s Hs. apply wp_pop_fault. intros f fs. by apply blind. Qed.

Lemma blind_check_ctx : keeps I check_ctx.
Proof using blind. intros s Hs. apply wp_check_ctx; intros fs; by apply blind. Qed.

Lemma blind_read_dir p : keeps I (os_read_dir p).
Proof using blind.
  apply blind_syscall. intros s Hs. unfold wp. by destruct (bool_decide _).
Qed.
End FaultBlind.

Create HintDb blind.
#[export] Hint Resolve blind_syscall blind_open blind_sync blind_close blind_pop_fault
  blind_check_ctx blind_read_dir : blind.

(** ** The order of a listing *)

Lemma leb_is_true x y : String.leb x y = true <-> String.le x y.
Proof. unfold String.le. by rewrite Is_true_true. Qed.

#[export] Instance entry_le_total {B} : Total (@entry_le B).
Proof.
  intros [p ?] [q ?]. unfold entry_le. simpl. revert q; induction p as [|x p IH]; intros [|y q];
    simpl; auto.
  rewrite (String.eqb_sym y x). destruct (String.eqb x y); [apply IH|].
  destruct (String.leb_total x y); auto.
Qed.

#[export] Instance entry_le_trans {B} : Transitive (@entry_le B).
Proof.
  intros [p ?] [q ?] [r ?]. unfold entry_le. simpl. revert q r; induction p as [|x p IH];
    intros [|y q] [|z r]; simpl; try done.
  destruct (String.eqb_spec x y) as [->|Hxy], (String.eqb_spec y z) as [->|Hyz]; try done.
  - apply IH.
  - by apply String.eqb_neq in Hxy as ->.
  - intros Hxy' Hyz'. rewrite leb_is_true in Hxy', Hyz'.
    destruct (String.eqb_spec x z) as [->|].
    + by destruct (Hxy (anti_symm String.le _ _ Hxy' Hyz')).
    + apply leb_is_true. by etrans.
Qed.

(** A directory comes before what lies below it. *)
Lemma path_leb_below d p : below d p = true -> p <> d -> path_leb p d = false.
Proof.
  intros [k ->]%bool_decide_eq_true Hne. induction d as [|x d IH]; simpl in *.
  - destruct k; done.
  - rewrite String.eqb_refl. apply IH. intros E. by rewrite E in Hne.
Qed.

Lemma tree_entries_order s root l1 d l2 p b :
  tree_entries s root = l1 ++ (d, true) :: l2 -> (p, b) ∈ l1 -> below d p = true -> p = d.
Proof.
  intros El Hin Hb. destruct (decide (p = d)) as [|Hne]; [done|].
  pose proof (path_leb_below d p Hb Hne) as Hlt.
  pose proof (StronglySorted_merge_sort entry_le (tree_nodes s root)) as Hs. fold (tree_entries s root) in Hs. rewrite El in Hs.
  assert (Hd : (d, true) ∈ (d, true) :: l2) by by left.
  apply StronglySorted_app in Hs as (Hle & _ & _). specialize (Hle _ _ Hin Hd).
  unfold entry_le in Hle. simpl in Hle. congruence.
Qed.

Lemma elem_of_tree_entries s root p (isDir : bool) :
  (p, isDir) ∈ tree_entries s root <->
  below root p = true /\ if isDir then p ∈ os_dirs s else is_Some (os_files s !! p).
Proof.
  unfold tree_entries, tree_nodes. rewrite merge_sort_Permutation, elem_of_app, !list_elem_of_fmap.
  split.
  - intros [(q & [= -> ->] & [? Hq]%list_elem_of_filter)|(q & [= -> ->] & [? Hq]%list_elem_of_filter)].
    + split; [done|]. by apply elem_of_elements.
    + split; [done|]. apply list_elem_of_fmap in Hq as ([? c] & -> & Hq).
      apply elem_of_map_to_list in Hq. by exists c.
  - intros [Hb Hp]. destruct isDir; [left|right]; exists p; (split; [done|]);
      apply list_elem_of_filter; (split; [done|]).
    + by apply elem_of_elements.
    + destruct Hp as [c Hc]. apply list_elem_of_fmap. exists (p, c).
      split; [done|]. by apply elem_of_map_to_list.
Qed.

(** ** Well-formed file trees

    Paths are made of normal segments, no path is both a file and a directory, and
    the parent of everything is a directory. Every call keeps this. *)

Record wf_os (s : Os) : Prop := {
  wfo_root : [] ∈ os_dirs s;
  wfo_normal p : is_Some (os_files s !! p) \/ p ∈ os_dirs s -> Forall normal_seg p;
  wfo_disjoint p : p ∈ os_dirs s -> os_files s !! p = None;
  wfo_parent p : is_Some (os_files s !! p) \/ p ∈ os_dirs s -> p <> [] -> removelast p ∈ os_dirs s;
}.

Lemma wf_os_eq s s' : os_files s' = os_files s -> os_dirs s' = os_dirs s -> wf_os s -> wf_os s'.
Proof. intros Hf Hd [H1 H2 H3 H4]. split; by rewrite ?Hf, ?Hd. Qed.

Lemma wf_os_faults fs s : wf_os s -> wf_os (set_faults fs s).
Proof. intros [H1 H2 H3 H4]. by split. Qed.

Lemma Forall_removelast {A} (P : A -> Prop) l : Forall P l -> Forall P (removelast l).
Proof.
  induction 1 as [|x l Hx Hl IH]; [done|]. destruct l as [|y l]; [done|]. by constructor.
Qed.

Section OsWf.
Lemma wf_syscall {A} (m : M Os A) : keeps wf_os m -> keeps wf_os (syscall m).
Proof. apply blind_syscall. intros. by apply wf_os_faults. Qed.

Lemma wf_new_uuid `{Uuid} : keeps wf_os new_uuid.
Proof. intros s [H1 H2 H3 H4]. apply wp_new_uuid. by split. Qed.

Lemma wf_check_ctx : keeps wf_os check_ctx.
Proof. apply blind_check_ctx. intros. by apply wf_os_faults. Qed.

Lemma wf_pop_fault : keeps wf_os pop_fault.
Proof. apply blind_pop_fault. intros. by apply wf_os_faults. Qed.

(** A new or replaced file in an existing directory. *)
Lemma wf_insert_file s p c :
  wf_os s -> Forall normal_seg p -> p ∉ os_dirs s -> removelast p ∈ os_dirs s ->
  wf_os (set_files (<[p := c]> (os_files s)) s).
Proof.
  intros [H1 H2 H3 H4] Hn Hp Hd. split; simpl; [done|..].
  - intros q. destruct (decide (q = p)) as [->|]; [done|]. rewrite lookup_insert_ne by done. auto.
  - intros q Hq. rewrite lookup_insert_ne by congruence. auto.
  - intros q. destruct (decide (q = p)) as [->|]; [done|]. rewrite lookup_insert_ne by done. auto.
Qed.

(** Files can disappear. *)
Lemma wf_sub_files s files :
  wf_os s -> (forall p, is_Some (files !! p) -> is_Some (os_files s !! p)) ->
  wf_os (set_files files s).
Proof.
  intros [H1 H2 H3 H4] Hf. split; simpl; [done|..].
  - intros q [Hq|Hq]; auto.
  - intros q Hq. apply eq_None_not_Some. intros Hs%Hf. rewrite H3 in Hs by done. by destruct Hs.
  - intros q [Hq|Hq]; auto.
Qed.

Lemma wf_os_create p : Forall normal_seg p -> keeps wf_os (os_create p).
Proof.
  intros Hp. apply wf_syscall. intros s Hs. unfold wp. destruct (_ || _) eqn:E; [done|].
  apply orb_false_iff in E as [E1%bool_decide_eq_false E2%bool_decide_eq_false].
  apply wf_insert_file; [done..|]. by destruct (decide (removelast p ∈ os_dirs s)).
Qed.

Lemma wf_os_write p data : keeps wf_os (os_write p data).
Proof.
  apply keeps_bind; [apply wf_pop_fault|]. intros f s Hs. unfold wp.
  destruct (match f with None => _ | Some _ => _ end) as [n err]. simpl.
  apply wf_sub_files; [done|]. intros q.
  destruct (decide (q = p)) as [->|]; [rewrite lookup_alter_eq|by rewrite lookup_alter_ne].
  by rewrite fmap_is_Some.
Qed.

Lemma wf_os_sync : keeps wf_os os_sync.
Proof. apply wf_syscall, keeps_ret. Qed.

Lemma wf_os_close : keeps wf_os os_close.
Proof. apply wf_syscall, keeps_ret. Qed.

Lemma wf_os_open p : keeps wf_os (os_open p).
Proof. apply blind_open. intros. by apply wf_os_faults. Qed.

Lemma wf_os_read_dir p : keeps wf_os (os_read_dir p).
Proof. apply blind_read_dir. intros. by apply wf_os_faults. Qed.

Lemma removelast_prefix {A} (q : list A) : removelast q `prefix_of` q.
Proof.
  destruct (decide (q = [])) as [->|Hq]; [done|].
  destruct q as [|x q']; [done|].
  exists [List.last (x :: q') x]. by apply app_removelast_last.
Qed.

Lemma wf_os_mkdir_all p : Forall normal_seg p -> keeps wf_os (os_mkdir_all p).
Proof.
  intros Hp. apply wf_syscall. intros s [H1 H2 H3 H4]. unfold wp.
  destruct (existsb _ _) eqn:E; [done|].
  assert (Hfree : forall q, q ∈ prefixes p -> os_files s !! q = None).
  { intros q Hq. destruct (os_files s !! q) eqn:Eq; [|done].
    apply not_true_iff_false in E. destruct E. apply existsb_exists. exists q.
    split; [by apply list_elem_of_In|]. apply bool_decide_eq_true. by rewrite Eq. }
  split; simpl; [set_solver|..].
  - intros q [Hq|[Hq|Hq]%elem_of_union]; [auto| |auto].
    apply elem_of_list_to_set, elem_of_prefixes in Hq as [[k ->] _].
    by apply Forall_app in Hp as [? _].
  - intros q [Hq%elem_of_list_to_set|Hq]%elem_of_union; auto.
  - intros q Hq Hne. apply elem_of_union.
    destruct Hq as [Hq|[Hq|Hq]%elem_of_union]; [right; auto| |right; auto].
    apply elem_of_list_to_set, elem_of_prefixes in Hq as [Hpre _].
    destruct (decide (removelast q = [])) as [->|Hr]; [by right|]. left.
    apply elem_of_list_to_set, elem_of_prefixes. split; [|done].
    etrans; [apply removelast_prefix|done].
Qed.

Lemma wf_os_rename p q : Forall normal_seg q -> keeps wf_os (os_rename p q).
Proof.
  intros Hq. apply wf_syscall. intros s Hs. unfold wp.
  destruct (os_files s !! p) as [c|] eqn:Ep; [|done]. destruct (_ || _) eqn:E; [done|].
  apply orb_false_iff in E as [E1%bool_decide_eq_false E2%bool_decide_eq_false]. simpl.
  refine (wf_insert_file (set_files (delete p (os_files s)) s) q c _ _ _ _); [|done|done|].
  - apply wf_sub_files; [done|]. intros r [? Hr]. apply lookup_delete_Some in Hr as [_ Hr]. by eexists.
  - simpl. by destruct (decide (removelast q ∈ os_dirs s)).
Qed.

Lemma has_entries_false s dir :
  has_entries s dir = false ->
  forall p, is_Some (os_files s !! p) \/ p ∈ os_dirs s -> strictly_below dir p = false.
Proof.
  intros [E1 E2]%orb_false_iff p Hp. destruct (strictly_below dir p) eqn:E; [|done]. exfalso.
  destruct Hp as [[c Hc]|Hp].
  - apply not_true_iff_false in E1. apply E1, existsb_exists. exists (p, c).
    split; [|done]. by apply list_elem_of_In, elem_of_map_to_list.
  - apply not_true_iff_false in E2. apply E2, existsb_exists. exists p.
    split; [|done]. by apply list_elem_of_In, elem_of_elements.
Qed.

Lemma wf_os_remove p : p <> [] -> keeps wf_os (os_remove p).
Proof.
  intros Hne. apply wf_syscall. intros s Hs. unfold wp.
  destruct (bool_decide (is_Some _)); simpl.
  { apply wf_sub_files; [done|]. intros r [? Hr]. apply lookup_delete_Some in Hr as [_ Hr]. by eexists. }
  destruct (bool_decide (p ∈ _)); [|done]. destruct (has_entries s p) eqn:He; [done|].
  pose proof (has_entries_false s p He) as Hb. destruct Hs as [H1 H2 H3 H4].
  split; simpl; [set_solver| | |].
  - intros q [Hq|[Hq _]%elem_of_difference]; auto.
  - intros q [Hq _]%elem_of_difference. auto.
  - intros q Hq Hqne. apply elem_of_difference.
    assert (Hq' : is_Some (os_files s !! q) \/ q ∈ os_dirs s)
      by (destruct Hq as [|[? _]%elem_of_difference]; auto).
    split; [by apply H4|].
    intros Heq%elem_of_singleton.
    assert (Hsb : strictly_below p q = false) by by apply Hb.
    unfold strictly_below, below in Hsb. rewrite bool_decide_true in Hsb.
    + apply bool_decide_eq_false in Hsb. apply Hsb. intros ->.
      destruct p as [|x p]; [done|]. apply (f_equal length) in Heq.
      pose proof (app_removelast_last x Hne) as El%(f_equal length).
      rewrite length_app in El. simpl in *. lia.
    + rewrite <- Heq. apply removelast_prefix.
Qed.

Lemma below_removelast dir q :
  below dir q = false -> below dir (removelast q) = false.
Proof.
  unfold below. intros H%bool_decide_eq_false. apply bool_decide_eq_false. intros Hb.
  apply H. etrans; [done|]. apply removelast_prefix.
Qed.

Lemma foldr_delete_sub {B} (m : gmap path B) l p :
  is_Some (foldr delete m l !! p) -> is_Some (m !! p).
Proof.
  induction l as [|x l IH]; [done|]. simpl. intros [c Hc].
  apply lookup_delete_Some in Hc as [_ Hc]. apply IH. by eexists.
Qed.

Lemma wf_os_remove_all dir : dir <> [] -> keeps wf_os (os_remove_all dir).
Proof.
  intros Hne. apply keeps_bind; [apply wf_pop_fault|]. intros [n|] s Hs; unfold wp; simpl.
  { apply wf_sub_files; [done|]. intros q. apply foldr_delete_sub. }
  destruct Hs as [H1 H2 H3 H4]. split; simpl.
  - apply elem_of_filter. split; [|done]. apply bool_decide_eq_false. intros [k Hk].
    destruct dir; [done|]. done.
  - intros q [[c Hc]|[_ Hq]%elem_of_filter]; [|auto]. apply map_lookup_filter_Some in Hc as [Hc _].
    apply H2. left. by eexists.
  - intros q [_ Hq]%elem_of_filter. apply map_lookup_filter_None. left. auto.
  - intros q Hq Hqne.
    assert (below dir q = false /\ removelast q ∈ os_dirs s) as [Hb Hd].
    { destruct Hq as [[c [Hc Hb]%map_lookup_filter_Some]|[Hb Hq]%elem_of_filter].
      - split; [done|]. apply H4; [left; by eexists|done].
      - split; [done|]. apply H4; [by right|done]. }
    apply elem_of_filter. split; [|done]. by apply below_removelast.
Qed.
End OsWf.

#[export] Hint Resolve wf_syscall wf_new_uuid wf_check_ctx wf_pop_fault wf_os_create wf_os_write
  wf_os_sync wf_os_close wf_os_open wf_os_read_dir wf_os_mkdir_all wf_os_rename wf_os_remove
  wf_os_remove_all abs_segs_normal : fbs.

(** What lies above something in a well-formed tree is a directory. *)
Lemma wf_os_above s d p :
  wf_os s -> is_Some (os_files s !! p) \/ p ∈ os_dirs s -> strictly_below d p = true -> d ∈ os_dirs s.
Proof.
  intros Hs. remember (length p) as n eqn:En. revert p En.
  induction n as [n IH] using lt_wf_ind. intros p -> Hp Hb.
  unfold strictly_below, below in Hb. apply andb_true_iff in Hb as [Hb1 Hb2].
  apply bool_decide_eq_true in Hb1, Hb2.
  assert (Hpne : p <> []). { intros ->. apply prefix_nil_inv in Hb1. by subst. }
  destruct (decide (removelast p = d)) as [<-|Hne]; [by apply (wfo_parent s Hs)|].
  pose proof (app_removelast_last "" Hpne) as El.
  apply (IH (length (removelast p))) with (p := removelast p); [|done| |].
  - rewrite El at 2. rewrite length_app. simpl. lia.
  - right. by apply (wfo_parent s Hs).
  - unfold strictly_below, below. apply andb_true_iff. split; apply bool_decide_eq_true; [|done].
    destruct Hb1 as [k Hk]. destruct k as [|x k _] using rev_ind.
    { destruct Hb2. by rewrite app_nil_r in Hk. }
    rewrite El, app_assoc in Hk. apply app_inj_tail in Hk as [-> _]. by exists k.
Qed.

(** ** Listing a directory *)

Lemma elem_of_child_names dir ps x :
  x ∈ child_names dir ps <-> dir ++ [x] ∈ ps.
Proof.
  unfold child_names. rewrite list_elem_of_omap. split.
  - intros (p & Hp & Hx). case_bool_decide as Hd; [|done].
    apply last_Some in Hx as [l ->]. rewrite removelast_last in Hd. by subst.
  - intros Hp. exists (dir ++ [x]). split; [done|].
    rewrite removelast_last, bool_decide_true by done. apply last_snoc.
Qed.

Lemma os_read_dir_spec dir s :
  wp (os_read_dir dir) (fun r s' => (exists fs, s' = set_faults fs s) /\
    match r with
    | Ok entries => forall x (isDir : bool), (x, isDir) ∈ entries <->
        if isDir then dir ++ [x] ∈ os_dirs s else is_Some (os_files s !! (dir ++ [x]))
    | Err ErrNotExist => dir ∉ os_dirs s
    | Err _ => True
    end) s.
Proof.
  apply wp_syscall; intros fs; [by eauto|]. unfold wp. simpl.
  destruct (bool_decide_reflect (dir ∈ os_dirs s)); simpl; [|by eauto]. split; [by eauto|].
  intros x isDir. rewrite merge_sort_Permutation, elem_of_app, !list_elem_of_fmap.
  split.
  - intros [(y & [= -> ->] & Hy)|(y & [= -> ->] & Hy)]; apply elem_of_child_names in Hy.
    + by apply elem_of_elements.
    + apply list_elem_of_fmap in Hy as ([q c] & Eq & Hy). simpl in Eq. subst q.
      apply elem_of_map_to_list in Hy. by exists c.
  - destruct isDir; intros Hx; [left|right]; exists x; (split; [done|]); apply elem_of_child_names.
    + by apply elem_of_elements.
    + destruct Hx as [c Hc]. apply list_elem_of_fmap. exists (dir ++ [x], c).
      split; [done|]. by apply elem_of_map_to_list.
Qed.
