(* ===== verification/Sanitize.v ===== *)
(** * Keys and paths: [internal/storage/sanitize.go]

    Validation of object keys and upload ids, and the resolution of keys and
    storage paths to absolute paths that stay within the data directory. *)

From S2P Require Import Prelude GoStrings GoPath.

(** The result of [os.Getwd]. *)
Class Cwd : Type := os_getwd : result string.

(** [storage.engine]. *)
Record engine : Type := MkEngine { dataDir : string; tmpDir : string }.

Definition containsTraversalSegment (key : string) : bool :=
  let normalized := replace_byte key "\"%char "/"%char in
  existsb (fun part => String.eqb part "..") (split normalized "/"%char).

Definition ValidateKey (key : string) : result unit :=
  if String.eqb key "" then Err ErrInvalidKey
  else if (1024 <? string_len key)%Z then Err ErrInvalidKey
  else if String.eqb key "." || String.eqb key ".." then Err ErrInvalidKey
  else if has_prefix key "/" then Err ErrInvalidKey
  else if contains_byte key "000"%char then Err ErrInvalidKey
  else if contains_byte key "010"%char || contains_byte key "013"%char then Err ErrInvalidKey
  else if containsTraversalSegment key then Err ErrPathTraversal
  else if negb (valid_utf8 key) then Err ErrInvalidKey
  else let cleaned := clean key in
       if String.eqb cleaned "." || String.eqb cleaned "" then Err ErrInvalidKey
       else Ok tt.

Definition StoragePath (bucketName key : string) : string :=
  path_join [bucketName; clean key].

Definition isWithinBase `{Cwd} (base target : string) : bool :=
  match path_abs os_getwd base with
  | Err _ => false
  | Ok absBase =>
      match path_abs os_getwd target with
      | Err _ => false
      | Ok absTarget =>
          let rel := path_rel absBase absTarget in
          if String.eqb rel ".." then false
          else if has_prefix rel "../" then false
          else true
      end
  end.

Definition resolveKeyPath `{Cwd} (e : engine) (bucketName key : string) : result (string * string) :=
  let bucketName := trim_space bucketName in
  if String.eqb bucketName "" then Err ErrInvalidKey
  else
    let? _ := ValidateKey key in
    let storagePath := StoragePath bucketName key in
    let fullPath := clean (path_join [dataDir e; storagePath]) in
    if negb (isWithinBase (dataDir e) fullPath) then Err ErrPathTraversal
    else Ok (storagePath, fullPath).

Definition resolveStoragePath `{Cwd} (e : engine) (storagePath : string) : result string :=
  if String.eqb (trim_space storagePath) "" then Err ErrInvalidKey
  else if is_abs storagePath then Err ErrInvalidKey
  else
    let cleaned := clean storagePath in
    let fullPath := clean (path_join [dataDir e; cleaned]) in
    if negb (isWithinBase (dataDir e) fullPath) then Err ErrPathTraversal
    else Ok fullPath.

Definition validateUploadID (uploadID : string) : result unit :=
  if String.eqb (trim_space uploadID) "" then Err ErrInvalidKey
  else if contains_byte uploadID "/"%char || contains_byte uploadID "\"%char then Err ErrInvalidKey
  else if contains_byte uploadID "000"%char || contains_byte uploadID "010"%char
          || contains_byte uploadID "013"%char then Err ErrInvalidKey
  else if containsTraversalSegment uploadID then Err ErrPathTraversal
  else if negb (valid_utf8 uploadID) then Err ErrInvalidKey
  else Ok tt.

(** ** Relative paths *)

(** The relative path with the given segments. *)
Definition render_rel (segs : list string) : string := join segs sep_str.

Lemma normal_seps segs :
  Forall normal_seg segs -> Forall (fun s => contains_byte s sep = false) segs.
Proof. intros H. eapply Forall_impl; [exact H|]. by intros ? (?&?&?&?). Qed.

Lemma split_render_rel segs :
  segs <> [] -> Forall normal_seg segs -> split (render_rel segs) sep = segs.
Proof.
  intros Hne H. unfold render_rel. change sep_str with (String sep "").
  apply split_join; [done|]. by apply normal_seps.
Qed.

Lemma render_rel_not_abs segs : Forall normal_seg segs -> is_abs (render_rel segs) = false.
Proof.
  intros H. destruct segs as [|s segs]; [done|].
  destruct (is_abs (render_rel (s :: segs))) eqn:E; [|done].
  apply has_prefix_spec in E as [r E].
  assert (Hs : split (render_rel (s :: segs)) sep = s :: segs) by (apply split_render_rel; done).
  rewrite E in Hs. change (sep_str +:+ r) with (String sep r) in Hs. simpl in Hs.
  apply Forall_cons in H as [(Hn&_) _]. by simplify_eq.
Qed.

Lemma render_rel_not_empty segs :
  segs <> [] -> Forall normal_seg segs -> render_rel segs <> "".
Proof.
  intros Hne H E. pose proof (split_render_rel segs Hne H) as Hs. rewrite E in Hs. simpl in Hs.
  subst. apply Forall_cons in H as [(Hn&_) _]. done.
Qed.

Lemma render_rel_inj s1 s2 :
  s1 <> [] -> s2 <> [] -> Forall normal_seg s1 -> Forall normal_seg s2 ->
  render_rel s1 = render_rel s2 -> s1 = s2.
Proof. intros ???? H%(f_equal (fun p => split p sep)). by rewrite !split_render_rel in H. Qed.

Lemma clean_render_rel segs :
  segs <> [] -> Forall normal_seg segs -> clean (render_rel segs) = render_rel segs.
Proof.
  intros Hne H. unfold clean. rewrite render_rel_not_abs, split_render_rel by done.
  destruct (String.eqb_spec (render_rel segs) "") as [E|_].
  { by apply render_rel_not_empty in E. }
  rewrite clean_segs_normal, app_nil_r, reverse_involutive by done. by destruct segs.
Qed.

Lemma path_join_rel a b :
  a <> [] -> b <> [] -> Forall normal_seg a -> Forall normal_seg b ->
  path_join [render_rel a; render_rel b] = render_rel (a ++ b).
Proof.
  intros Ha Hb HFa HFb. unfold path_join.
  destruct (String.eqb_spec (render_rel a) "") as [E|_]; [by apply render_rel_not_empty in E|].
  replace (join [render_rel a; render_rel b] sep_str) with (render_rel (a ++ b)).
  - apply clean_render_rel; [by destruct a|]. by apply Forall_app.
  - unfold render_rel. clear HFa HFb. induction a as [|x a IH]; [done|].
    destruct a as [|y a].
    + by destruct b.
    + change (join (x :: (y :: a)) sep_str) with (x +:+ sep_str +:+ join (y :: a) sep_str).
      simpl app in *. change (join (x :: y :: a ++ b) sep_str) with
        (x +:+ sep_str +:+ join (y :: a ++ b) sep_str).
      rewrite IH by done. simpl. by rewrite !append_assoc.
Qed.

(** Joining more than two elements at once. *)
Lemma path_join_cons x l : x <> "" -> l <> [] -> path_join (x :: l) = path_join [x; join l sep_str].
Proof.
  intros Hx Hl. unfold path_join. apply String.eqb_neq in Hx as ->. f_equal. by destruct l.
Qed.

Lemma path_join_segs l : l <> [] -> Forall normal_seg l -> path_join l = render_rel l.
Proof.
  intros Hne Hl. destruct l as [|x l]; [done|]. unfold path_join.
  assert (x <> "") as ->%String.eqb_neq by (apply Forall_cons in Hl as [(?&_) _]; done).
  change (join (x :: l) sep_str) with (render_rel (x :: l)). by apply clean_render_rel.
Qed.

Lemma path_join_abs_rel a b :
  b <> [] -> Forall normal_seg a -> Forall normal_seg b ->
  path_join [render_abs a; render_rel b] = render_abs (a ++ b).
Proof.
  intros Hb Ha HFb. rewrite path_join_abs by apply is_abs_render.
  rewrite split_render_rel, abs_segs_render by done.
  rewrite clean_segs_normal by done. by rewrite reverse_app, !reverse_involutive.
Qed.

(** ** Containment *)

Section Containment.
Context `{Cwd}.

(** The prefix of a relative path tells its first segment. *)
Lemma has_prefix_dotdot segs :
  Forall (fun s => contains_byte s sep = false) segs ->
  String.eqb (join segs sep_str) ".." || has_prefix (join segs sep_str) "../" =
  match segs with s :: _ => String.eqb s ".." | [] => false end.
Proof.
  intros HF. destruct segs as [|s segs]; [done|].
  assert (Hs : split (join (s :: segs) sep_str) sep = s :: segs).
  { change sep_str with (String sep ""). by apply split_join. }
  destruct (String.eqb_spec s "..") as [->|Hne].
  - destruct segs as [|s' segs]; [done|].
    change (join (".." :: s' :: segs) sep_str) with ("../" +:+ join (s' :: segs) sep_str).
    by rewrite has_prefix_append, orb_true_r.
  - apply orb_false_iff. split.
    + apply String.eqb_neq. intros E. rewrite E in Hs. by simplify_eq/=.
    + destruct (has_prefix _ "../") eqn:E; [|done].
      apply has_prefix_spec in E as [r E]. rewrite E in Hs.
      change ("../" +:+ r) with (".." +:+ String sep r) in Hs.
      rewrite split_append in Hs. by simplify_eq/=.
Qed.

(** [isWithinBase] of absolute paths is the prefix order on their segments. *)
Lemma isWithinBase_segs base target :
  is_abs base = true -> is_abs target = true ->
  isWithinBase base target = true <-> abs_segs base `prefix_of` abs_segs target.
Proof.
  intros Hb Ht. unfold isWithinBase, path_abs. rewrite Hb, Ht. unfold path_rel.
  rewrite !clean_idem_abs, !path_segs_clean by done.
  destruct (String.eqb_spec (clean target) (clean base)) as [E|Hne].
  { simpl. split; [intros _|done]. rewrite !clean_abs in E by done.
    apply render_abs_inj in E; [|apply abs_segs_normal..]. by rewrite E. }
  destruct (strip_common (abs_segs base) (abs_segs target)) as [bs ts] eqn:Es.
  set (rel := replicate (length bs) ".." ++ ts).
  assert (Hsep : Forall (fun s => contains_byte s sep = false) rel).
  { apply Forall_app. split; [by apply Forall_replicate|].
    apply strip_common_prefix in Es as (c & _ & Et).
    pose proof (abs_segs_normal target) as Hn. rewrite Et in Hn.
    apply Forall_app in Hn as [_ Hn]. by apply normal_seps. }
  replace (if String.eqb (join rel sep_str) ".." then false
           else if has_prefix (join rel sep_str) "../" then false else true)
    with (negb (String.eqb (join rel sep_str) ".." || has_prefix (join rel sep_str) "../"))
    by (by destruct (String.eqb _ _), (has_prefix _ _)).
  rewrite has_prefix_dotdot by done. unfold rel. clear Hsep rel.
  destruct (strip_common_prefix _ _ _ _ Es) as (c & Eb & Et).
  destruct bs as [|b bs]; simpl.
  - rewrite app_nil_r in Eb. split; intros _.
    + rewrite Eb, Et. by exists ts.
    + destruct ts as [|t ts]; [done|].
      pose proof (abs_segs_normal target) as Hn. rewrite Et in Hn.
      apply Forall_app in Hn as [_ [(_&_&Hdd&_) _]%Forall_cons].
      by apply String.eqb_neq in Hdd as ->.
  - split; [done|]. intros [k Hk]. rewrite Hk, strip_common_app in Es. done.
Qed.

(** The path of an engine's file: below the data directory, or nowhere. *)
Definition inside (base full : string) : Prop :=
  exists segs, Forall normal_seg segs /\ full = render_abs (abs_segs base ++ segs).

Lemma isWithinBase_inside base p :
  is_abs base = true -> isWithinBase base (clean (path_join [base; p])) = true ->
  inside base (clean (path_join [base; p])).
Proof.
  intros Hb Hw. rewrite path_join_abs in * by done.
  set (full := reverse _) in *.
  assert (Hfull : Forall normal_seg full).
  { apply Forall_reverse, clean_segs_rooted; [apply split_seps|].
    apply Forall_reverse, abs_segs_normal. }
  rewrite clean_render in * by done.
  apply isWithinBase_segs in Hw; [|done|apply is_abs_render].
  rewrite abs_segs_render in Hw by done. destruct Hw as [k Hk].
  exists k. rewrite Hk in *. apply Forall_app in Hfull as [_ ?]. done.
Qed.

Lemma isWithinBase_below base segs :
  is_abs base = true -> Forall normal_seg segs ->
  isWithinBase base (render_abs (abs_segs base ++ segs)) = true.
Proof.
  intros Hb Hs. apply isWithinBase_segs; [done|apply is_abs_render|].
  rewrite abs_segs_render; [by exists segs|].
  apply Forall_app. split; [apply abs_segs_normal|done].
Qed.
End Containment.

(** ** Validated keys *)

(** A segment that [Clean] keeps. *)
Definition plain_seg (s : string) : Prop := s <> "" /\ s <> ".".
#[export] Instance plain_seg_dec s : Decision (plain_seg s).
Proof. unfold plain_seg. apply _. Defined.

Definition plain_segs (key : string) : list string := filter plain_seg (split key sep).

Lemma clean_segs_plain r out l :
  Forall (fun s => s <> "..") l -> clean_segs r out l = reverse (filter plain_seg l) ++ out.
Proof.
  intros H. revert out; induction H as [|s l Hs Hl IH]; intros out; [done|].
  change (clean_segs r out (s :: l)) with (clean_segs r (push_seg r out s) l).
  rewrite IH. unfold push_seg. apply String.eqb_neq in Hs as ->.
  destruct (String.eqb_spec s "") as [->|Hne]; [by rewrite filter_cons_False by (intros []; done)|].
  destruct (String.eqb_spec s ".") as [->|Hdot]; [by rewrite filter_cons_False by (intros []; done)|].
  simpl. rewrite filter_cons_True by done. by rewrite reverse_cons, <- app_assoc.
Qed.

Lemma replace_byte_append s t old new :
  replace_byte (s +:+ t) old new = replace_byte s old new +:+ replace_byte t old new.
Proof. induction s as [|a s IH]; simpl; [done|]. by rewrite IH. Qed.

Lemma split_replace l old :
  l <> [] ->
  split (replace_byte (join l sep_str) old sep) sep =
  mjoin ((fun w => split (replace_byte w old sep) sep) <$> l).
Proof.
  intros Hl. induction l as [|w l IH]; [done|]. destruct l as [|w' l].
  - simpl. by rewrite app_nil_r.
  - change (join (w :: w' :: l) sep_str) with (w +:+ String sep (join (w' :: l) sep_str)).
    rewrite replace_byte_append.
    change (replace_byte (String sep ?t) old sep) with
      (String (if Ascii.eqb sep old then sep else sep) (replace_byte t old sep)).
    replace (if Ascii.eqb sep old then sep else sep) with sep by (by destruct (Ascii.eqb sep old)).
    rewrite split_append, IH by done. done.
Qed.

Lemma no_traversal_segs key :
  containsTraversalSegment key = false -> Forall (fun s => s <> "..") (split key sep).
Proof.
  unfold containsTraversalSegment. change "/"%char with sep. intros H.
  rewrite <- (join_split key sep) in H. change (String sep "") with sep_str in H.
  rewrite split_replace in H by (done || apply split_not_nil).
  apply Forall_forall. intros w Hw ->. apply not_true_iff_false in H. apply H.
  apply existsb_exists. exists "..". split; [|done].
  apply list_elem_of_In, list_elem_of_join. exists [".."]. split; [by left|].
  apply list_elem_of_fmap. by exists "..".
Qed.

Lemma filter_plain_normal key :
  Forall (fun s => s <> "..") (split key sep) -> Forall normal_seg (plain_segs key).
Proof.
  intros H. apply Forall_forall. intros w [(Hne & Hdot) Hw]%list_elem_of_filter.
  split_and!; [done..| |by apply split_elem_no_sep in Hw].
  rewrite Forall_forall in H. by apply H.
Qed.

Lemma clean_rel_plain key :
  is_abs key = false -> key <> "" -> Forall (fun s => s <> "..") (split key sep) ->
  clean key = match plain_segs key with [] => "." | _ => render_rel (plain_segs key) end.
Proof.
  intros Ha Hne H. unfold clean. apply String.eqb_neq in Hne as ->. rewrite Ha.
  rewrite clean_segs_plain by done. rewrite app_nil_r, reverse_involutive. done.
Qed.

(** What [ValidateKey] promises of a key. *)
Record valid_key (key : string) : Prop := {
  vk_length : (1 <= string_len key <= 1024)%Z;
  vk_relative : has_prefix key "/" = false;
  vk_control : forall c, c ∈ ["000"; "010"; "013"]%char -> contains_byte key c = false;
  vk_traversal : ".." ∉ split (replace_byte key "\" "/") "/";
  vk_utf8 : valid_utf8 key = true;
  vk_named : exists s, s ∈ split key "/" /\ s <> "" /\ s <> "."
}.

Lemma containsTraversalSegment_elem key :
  containsTraversalSegment key = true <-> ".." ∈ split (replace_byte key "\" "/") "/".
Proof.
  unfold containsTraversalSegment. rewrite existsb_exists. split.
  - intros (x & Hx & ->%String.eqb_eq). by apply list_elem_of_In.
  - intros H. exists "..". by rewrite <- list_elem_of_In.
Qed.

Lemma string_len_pos s : s <> "" -> (1 <= string_len s)%Z.
Proof. destruct s; [done|]. unfold string_len. simpl. lia. Qed.

Lemma plain_segs_render_not_dot key :
  plain_segs key <> [] -> Forall normal_seg (plain_segs key) ->
  render_rel (plain_segs key) <> ".".
Proof.
  intros Hne H E. pose proof (split_render_rel _ Hne H) as Hs. rewrite E in Hs.
  change (split "." sep) with ["."] in Hs. rewrite <- Hs in H.
  apply Forall_cons in H as [(_&?&_) _]. done.
Qed.

(** C19: key validation is exact. [ValidateKey] accepts a key if and only if it
    has 1 to 1024 bytes of valid UTF-8, is relative, holds no NUL, CR or LF, has no
    [..] segment even when backslashes count as separators, and names at least one
    segment besides [.]. *)
Theorem ValidateKey_correct key : ValidateKey key = Ok tt <-> valid_key key.
Proof.
  unfold ValidateKey. destruct (String.eqb_spec key "") as [->|Hne].
  { split; [done|]. intros [H _ _ _ _ _]. unfold string_len in H. simpl in H. lia. }
  pose proof (string_len_pos key Hne) as Hpos.
  destruct (Z.ltb_spec 1024 (string_len key)); [split; [done|intros []; lia]|].
  destruct (String.eqb key "." || String.eqb key "..") eqn:Edots.
  { split; [done|]. intros [_ _ _ Ht _ (s & Hs & Hse & Hsd)].
    apply orb_true_iff in Edots as [->%String.eqb_eq| ->%String.eqb_eq].
    - change (s ∈ ["."]) in Hs. apply list_elem_of_singleton in Hs. done.
    - destruct Ht. apply list_elem_of_In. by left. }
  destruct (has_prefix key "/") eqn:Ep; [split; [done|intros []; congruence]|].
  destruct (contains_byte key "000") eqn:E0.
  { split; [done|]. intros [_ _ Hc _ _ _]. rewrite Hc in E0; [done|by left]. }
  destruct (contains_byte key "010" || contains_byte key "013") eqn:E1.
  { split; [done|]. intros [_ _ Hc _ _ _]. rewrite !Hc in E1; [done|set_solver..]. }
  apply orb_false_iff in E1 as [E1 E2].
  destruct (containsTraversalSegment key) eqn:Et.
  { split; [done|]. intros [_ _ _ Ht _ _]. by apply containsTraversalSegment_elem in Et. }
  destruct (valid_utf8 key) eqn:Eu; simpl; [|split; [done|intros []; congruence]].
  pose proof (no_traversal_segs key Et) as Hdd.
  rewrite clean_rel_plain by done.
  destruct (plain_segs key) as [|s l] eqn:Es.
  - split; [done|]. intros [_ _ _ _ _ (s & Hs & Hse & Hsd)].
    assert (Hin : s ∈ plain_segs key) by (apply list_elem_of_filter; done).
    rewrite Es in Hin. by apply not_elem_of_nil in Hin.
  - assert (Hnil : plain_segs key <> []) by (by rewrite Es).
    pose proof (filter_plain_normal key Hdd) as Hn. rewrite <- Es.
    pose proof (plain_segs_render_not_dot key Hnil Hn) as Hd%String.eqb_neq.
    pose proof (render_rel_not_empty _ Hnil Hn) as He%String.eqb_neq.
    rewrite Hd, He. split; [intros _|done].
    assert (Hin : s ∈ plain_segs key) by (rewrite Es; by left).
    apply list_elem_of_filter in Hin as [[? ?] ?].
    split; [lia|done| | |done|by exists s].
    + intros c [->|[->|[->|[]%not_elem_of_nil]%elem_of_cons]%elem_of_cons]%elem_of_cons; done.
    + rewrite <- containsTraversalSegment_elem. congruence.
Qed.

Lemma ValidateKey_plain key :
  ValidateKey key = Ok tt ->
  plain_segs key <> [] /\ Forall normal_seg (plain_segs key) /\
  clean key = render_rel (plain_segs key).
Proof.
  unfold ValidateKey. destruct (String.eqb_spec key "") as [|Hne]; [done|].
  destruct (1024 <? string_len key)%Z; [done|].
  destruct (String.eqb key "." || String.eqb key ".."); [done|].
  destruct (has_prefix key "/") eqn:Ep; [done|].
  destruct (contains_byte key "000"); [done|].
  destruct (contains_byte key "010" || contains_byte key "013"); [done|].
  destruct (containsTraversalSegment key) eqn:Et; [done|].
  destruct (valid_utf8 key); simpl; [|done].
  pose proof (no_traversal_segs key Et) as Hdd. rewrite clean_rel_plain by done.
  destruct (plain_segs key) as [|s l] eqn:Es; [done|]. intros _.
  rewrite <- Es. split; [by rewrite Es|]. split; [by apply filter_plain_normal|done].
Qed.

(** ** The engine's paths *)

(** An engine as [New] makes it: an absolute data directory that holds [.tmp]. *)
Record wf_engine (e : engine) : Prop := {
  wfe_data : exists segs, Forall normal_seg segs /\ dataDir e = render_abs segs;
  wfe_tmp : tmpDir e = path_join [dataDir e; ".tmp"];
}.

(** The segments of the data directory. *)
Definition data_segs (e : engine) : list string := abs_segs (dataDir e).

Lemma tmp_normal : normal_seg ".tmp".
Proof. by_decide. Qed.

Lemma Forall_single {A} (P : A -> Prop) (x : A) : P x -> Forall P [x].
Proof. by repeat constructor. Qed.

Section EnginePaths.
Context `{Cwd} (e : engine) (We : wf_engine e).

Lemma data_dir_abs : is_abs (dataDir e) = true.
Proof using We. destruct We as [(segs & _ & ->) _]. apply is_abs_render. Qed.

Lemma data_segs_normal : Forall normal_seg (data_segs e).
Proof. apply abs_segs_normal. Qed.

Lemma data_dir_render : dataDir e = render_abs (data_segs e).
Proof using We.
  destruct We as [(segs & Hs & E) _]. unfold data_segs. by rewrite E, abs_segs_render.
Qed.

Lemma tmp_dir_render : tmpDir e = render_abs (data_segs e ++ [".tmp"]).
Proof using We.
  destruct We as [_ ->]. rewrite data_dir_render. change ".tmp" with (render_rel [".tmp"]).
  rewrite path_join_abs_rel; [done|done|apply data_segs_normal|].
  apply Forall_single, tmp_normal.
Qed.

(** A path below the data directory is found by its storage path. *)
Lemma join_below segs :
  segs <> [] -> Forall normal_seg segs ->
  path_join [dataDir e; render_rel segs] = render_abs (data_segs e ++ segs).
Proof using We.
  intros Hne Hs. rewrite data_dir_render.
  apply path_join_abs_rel; [done|apply data_segs_normal|done].
Qed.

Lemma below_normal segs : Forall normal_seg segs -> Forall normal_seg (data_segs e ++ segs).
Proof. intros Hs. apply Forall_app. split; [apply data_segs_normal|done]. Qed.

Lemma below_within segs :
  Forall normal_seg segs -> isWithinBase (dataDir e) (render_abs (data_segs e ++ segs)) = true.
Proof using We. intros Hs. apply isWithinBase_below; [apply data_dir_abs|done]. Qed.

(** The storage path of a file below the data directory resolves to it, unless
    it is blank. *)
Lemma resolveStoragePath_below segs :
  segs <> [] -> Forall normal_seg segs -> trim_space (render_rel segs) <> "" ->
  resolveStoragePath e (render_rel segs) = Ok (render_abs (data_segs e ++ segs)).
Proof using We.
  intros Hne Hs Hb. unfold resolveStoragePath. apply String.eqb_neq in Hb as ->.
  rewrite render_rel_not_abs, clean_render_rel, join_below by done.
  rewrite clean_render by by apply below_normal. by rewrite below_within.
Qed.

(** C20: no storage path leads out of the data directory. Whatever the string,
    [resolveStoragePath] either reports an error or returns a clean absolute path
    whose segments extend those of the data directory. *)
Theorem resolveStoragePath_contained storagePath full :
  resolveStoragePath e storagePath = Ok full -> inside (dataDir e) full.
Proof using We.
  unfold resolveStoragePath. destruct (String.eqb _ _); [done|].
  destruct (is_abs storagePath); [done|].
  destruct (isWithinBase _ _) eqn:Ew; simpl; [|done]. intros [= <-].
  apply isWithinBase_inside; [apply data_dir_abs|done].
Qed.

(** A validated key stays inside its bucket. For a bucket name that names a
    directory entry, [resolveKeyPath] of every key that [ValidateKey] accepts
    succeeds and gives the path of a file strictly below [dataDir/bucket], with the
    same segments as the storage path. *)
Theorem resolveKeyPath_in_bucket bucketName key :
  normal_seg (trim_space bucketName) -> ValidateKey key = Ok tt ->
  exists ks, ks <> [] /\ Forall normal_seg ks /\
    resolveKeyPath e bucketName key =
      Ok (render_rel (trim_space bucketName :: ks),
          render_abs (abs_segs (dataDir e) ++ trim_space bucketName :: ks)).
Proof using We.
  intros Hb Hk. unfold resolveKeyPath. rewrite Hk.
  destruct (ValidateKey_plain key Hk) as (Hne & Hn & Hc).
  destruct (String.eqb_spec (trim_space bucketName) "") as [E|_]; [by destruct Hb|].
  exists (plain_segs key). split; [done|]. split; [done|].
  cbn [result_bind]. unfold StoragePath. rewrite Hc.
  change (path_join [trim_space bucketName; render_rel (plain_segs key)])
    with (path_join [render_rel [trim_space bucketName]; render_rel (plain_segs key)]).
  assert (Hall : Forall normal_seg (trim_space bucketName :: plain_segs key)) by by constructor.
  rewrite path_join_rel by (done || by apply Forall_single).
  change ([?x] ++ ?l) with (x :: l).
  rewrite join_below by done. rewrite clean_render by by apply below_normal.
  by rewrite below_within.
Qed.
End EnginePaths.

(** An upload id that passes the validation names a directory entry, or is
    [.], which names the parent. *)
Lemma validateUploadID_normal uploadID :
  validateUploadID uploadID = Ok tt -> normal_seg uploadID \/ uploadID = ".".
Proof.
  unfold validateUploadID. destruct (String.eqb_spec (trim_space uploadID) "") as [|Ht]; [done|].
  destruct (contains_byte uploadID "/" || _) eqn:Es; [done|]. apply orb_false_iff in Es as [Es _].
  destruct (_ || _); [done|].
  destruct (containsTraversalSegment uploadID) eqn:Et; [done|]. intros _.
  apply no_traversal_segs in Et. rewrite split_no_sep in Et by done.
  apply Forall_cons in Et as [Hdd _].
  destruct (decide (uploadID = ".")) as [|Hdot]; [by right|]. left.
  split_and!; [|done..]. by intros ->.
Qed.

(** [validateUploadID] lets [.] through, although it names the directory of all uploads. *)
Lemma validateUploadID_dot : validateUploadID "." = Ok tt.
Proof. reflexivity. Qed.

(** ** Witnesses *)

Definition sample_cwd : Cwd := Ok "/srv".
Definition sample_engine : engine := MkEngine "/srv/data" "/srv/data/.tmp".

Lemma sample_engine_wf : wf_engine sample_engine.
Proof.
  split; [|reflexivity]. exists ["srv"; "data"]. split; [|reflexivity].
  by_decide.
Qed.

Lemma resolveStoragePath_contained_witness :
  @resolveStoragePath sample_cwd sample_engine "../../etc/passwd" = Err ErrPathTraversal /\
  inside "/srv/data" "/srv/data/etc/passwd".
Proof.
  split; [vm_compute; reflexivity|].
  apply (@resolveStoragePath_contained sample_cwd sample_engine sample_engine_wf "x/../etc//passwd").
  vm_compute. reflexivity.
Defined.

Lemma resolveKeyPath_in_bucket_witness :
  exists ks, ks <> [] /\ Forall normal_seg ks /\
    @resolveKeyPath sample_cwd sample_engine " photos " "a/./b" =
      Ok (render_rel (trim_space " photos " :: ks),
          render_abs (abs_segs "/srv/data" ++ trim_space " photos " :: ks)).
Proof.
  apply (@resolveKeyPath_in_bucket sample_cwd sample_engine sample_engine_wf).
  - by_decide.
  - vm_compute. reflexivity.
Defined.
