(* ===== verification/DiskEngine.v ===== *)
(** * The storage engine: [internal/storage]

    [Write], [WritePart] and [AssembleParts] create files under unique names and
    publish them by a rename; [Read], [Open], [Delete] and [DeleteUploadParts] work
    on stored files; [Reconcile] and [ReconcileMultipartTmp] remove files that the
    metadata does not know. *)

From S2P Require Import Prelude GoStrings Encoding GoPath Effects Os Sanitize.

(** ** Readers

    An [io.Reader] as the results of its successive calls of [Read]; after the last
    one it answers [0, io.EOF]. *)

Inductive read_error : Type := EOF | ReadErr (e : error).

Record read_result : Type := MkRead { rd_data : string; rd_err : option read_error }.

Abbreviation reader := (list read_result).

(** The bytes the reader gives before its first error, and that error, if it is
    not the end of the input. *)
Fixpoint reader_content (r : reader) : string :=
  match r with
  | [] => ""
  | MkRead d (Some _) :: _ => d
  | MkRead d None :: r' => d +:+ reader_content r'
  end.

Fixpoint reader_error (r : reader) : option error :=
  match r with
  | [] => None
  | MkRead _ (Some EOF) :: _ => None
  | MkRead _ (Some (ReadErr e)) :: _ => Some e
  | MkRead _ None :: r' => reader_error r'
  end.

(** The buffer of [copyWithContext]. *)
Definition copy_buffer_size : nat := Z.to_nat (32 * 1024).

(** An open file as a reader: reads of at most [n] bytes; a fault makes one of them fail. *)
Fixpoint chunks (fuel n : nat) (s : string) : reader :=
  match fuel with
  | O => []
  | S fuel' => if String.eqb s "" then []
               else MkRead (take_bytes n s) None :: chunks fuel' n (drop_bytes n s)
  end.

Definition file_reader (content : option string) : M Os reader :=
  f <- pop_fault ;;
  match content with
  | None => ret [MkRead "" (Some (ReadErr ErrIO))]           (* a directory *)
  | Some c =>
      let reads := chunks (String.length c) copy_buffer_size c in
      match f with
      | None => ret reads
      | Some n => ret (take n reads ++ [MkRead "" (Some (ReadErr ErrIO))])
      end
  end.

(** ** [write.go] *)

Fixpoint copyWithContext (dst : path) (src : reader) (written : Z) : M Os Z :=
  check_ctx ;;
  match src with
  | [] => ret written
  | MkRead data readErr :: src' =>
      written <-
        (if (0 <? string_len data)%Z then
           let* (nw, writeErr) := os_write dst data in
           match writeErr with
           | Some e => fail e
           | None => if bool_decide (nw <> String.length data) then fail (ErrOther "short write")
                     else ret (written + Z.of_nat nw)%Z
           end
         else ret written) ;;
      match readErr with
      | Some EOF => ret written
      | Some (ReadErr e) => fail e
      | None => copyWithContext dst src' written
      end
  end.

Definition syncDir (dir : path) : M Os unit :=
  os_open dir ;;
  let! syncErr := os_sync in
  let! closeErr := os_close in
  lift_result syncErr ;; lift_result closeErr.

(** The variable [err] of the code is the result of the last [let!]. *)
Definition writeDurably (tempPath finalPath : string) (fill : path -> M Os Z) : M Os Z :=
  let temp := abs_segs tempPath in
  let final := abs_segs finalPath in
  os_create temp ;;
  let! written := fill temp in
  let! synced := (lift_result written ;; os_sync) in
  let! closeErr := os_close in
  let! made := (lift_result synced ;; lift_result closeErr ;; os_mkdir_all (abs_segs (path_dir finalPath))) in
  let! renamed := (lift_result made ;; os_rename temp final) in
  match renamed with
  | Err e => attempt (os_remove temp) ;; fail e
  | Ok _ =>
      let! synced := syncDir (abs_segs (path_dir finalPath)) in
      match synced with
      | Err e => attempt (os_remove final) ;; fail e
      | Ok _ => lift_result written
      end
  end.

Section Engine.
Context `{Cwd} `{Uuid} (e : engine).

Definition Write (bucketName key : string) (r : reader) : M Os (string * Z) :=
  check_ctx ;;
  lift_result (resolveKeyPath e bucketName key) ;;
  id <- new_uuid ;;
  let storagePath := path_join [bucketName; id] in
  let fullPath := clean (path_join [dataDir e; storagePath]) in
  if negb (isWithinBase (dataDir e) fullPath) then fail ErrPathTraversal
  else
    tmp <- new_uuid ;;
    let tempPath := path_join [tmpDir e; tmp +:+ ".tmp"] in
    written <- writeDurably tempPath fullPath (fun w => copyWithContext w r 0) ;;
    ret (storagePath, written).

Definition WritePart (uploadID : string) (partNumber : Z) (r : reader) : M Os (string * Z) :=
  check_ctx ;;
  lift_result (validateUploadID uploadID) ;;
  let partDir := path_join [tmpDir e; "multipart"; uploadID] in
  os_mkdir_all (abs_segs partDir) ;;
  let partName := format_int partNumber in
  id <- new_uuid ;;
  let tempName := partName +:+ ".tmp-" +:+ id in
  let partPath := path_join [partDir; tempName] in
  written <- writeDurably partPath partPath (fun w => copyWithContext w r 0) ;;
  ret (path_join [".tmp"; "multipart"; uploadID; tempName], written).

Fixpoint copyParts (w : path) (partPaths : list string) (total : Z) : M Os Z :=
  match partPaths with
  | [] => ret total
  | partPath :: rest =>
      partFullPath <- lift_result (resolveStoragePath e partPath) ;;
      content <- os_open (abs_segs partFullPath) ;;
      partFile <- file_reader content ;;
      let! written := copyWithContext w partFile 0 in
      attempt os_close ;;
      written <- lift_result written ;;
      copyParts w rest (total + written)%Z
  end.

Definition AssembleParts (bucketName key : string) (partPaths : list string) : M Os (string * Z) :=
  check_ctx ;;
  lift_result (ValidateKey key) ;;
  objName <- new_uuid ;;
  let storagePath := path_join [bucketName; objName] in
  let fullPath := path_join [dataDir e; storagePath] in
  if negb (isWithinBase (dataDir e) fullPath) then fail ErrPathTraversal
  else
    tmp <- new_uuid ;;
    let tempPath := path_join [tmpDir e; tmp +:+ ".tmp"] in
    totalSize <- writeDurably tempPath fullPath (fun w => copyParts w partPaths 0) ;;
    ret (storagePath, totalSize).

(** ** [read.go] *)

Definition Open (storagePath : string) : M Os (option string) :=
  check_ctx ;;
  fullPath <- lift_result (resolveStoragePath e storagePath) ;;
  let! file := os_open (abs_segs fullPath) in
  match file with
  | Err ErrNotExist => fail ErrNotFound
  | _ => lift_result file
  end.

Definition Read (storagePath : string) : M Os (option string) :=
  check_ctx ;;
  fullPath <- lift_result (resolveStoragePath e storagePath) ;;
  let! file := os_open (abs_segs fullPath) in
  match file with
  | Err ErrNotExist => fail ErrNotFound
  | _ => lift_result file
  end.

(** ** [delete.go] *)

Definition firstPathElement (p : string) : string :=
  let cleaned := clean p in
  if String.eqb cleaned "." || String.eqb cleaned "" then ""
  else match split cleaned sep with [] => "" | x :: _ => x end.

(** The loop of [pruneEmptyParents]: the depth of the directory bounds it. *)
Fixpoint prune_loop (fuel : nat) (data bucketRoot currentDir : path) : M Os unit :=
  match fuel with
  | O => ret tt
  | S fuel' =>
      if bool_decide (currentDir = data) || bool_decide (currentDir = bucketRoot) then ret tt
      else
        let! r := os_remove currentDir in
        match r with
        | Err _ => ret tt
        | Ok _ => prune_loop fuel' data bucketRoot (removelast currentDir)
        end
  end.

Definition pruneEmptyParents (fullPath : string) : M Os unit :=
  let rel := path_rel (dataDir e) fullPath in
  let bucketName := firstPathElement rel in
  if String.eqb bucketName "" || String.eqb bucketName "." then ret tt
  else
    let bucketRoot := path_join [dataDir e; bucketName] in
    let currentDir := path_dir fullPath in
    prune_loop (S (length (abs_segs currentDir))) (abs_segs (dataDir e))
      (abs_segs bucketRoot) (abs_segs currentDir).

Definition Delete (storagePath : string) : M Os unit :=
  check_ctx ;;
  fullPath <- lift_result (resolveStoragePath e storagePath) ;;
  let! r := os_remove (abs_segs fullPath) in
  match r with
  | Err ErrNotExist => ret tt
  | Err err => fail err
  | Ok _ => pruneEmptyParents fullPath
  end.

Definition DeleteUploadParts (uploadID : string) : M Os unit :=
  check_ctx ;;
  lift_result (validateUploadID uploadID) ;;
  let partDir := path_join [tmpDir e; "multipart"; uploadID] in
  os_remove_all (abs_segs partDir).
End Engine.

(** ** Copying *)

Lemma chunks_content fuel n s :
  n <> 0 -> String.length s <= fuel -> reader_content (chunks fuel n s) = s.
Proof.
  intros Hn. revert s; induction fuel as [|fuel IH]; intros s Hs; simpl.
  { destruct s; [done|simpl in Hs; lia]. }
  destruct (String.eqb_spec s "") as [->|Hne]; [done|]. simpl.
  rewrite IH; [apply take_drop_bytes|]. destruct s as [|a s]; [done|].
  destruct n; [done|]. simpl in *. pose proof (take_drop_bytes n s) as E%(f_equal String.length).
  rewrite length_append in E. lia.
Qed.

Lemma chunks_error fuel n s : reader_error (chunks fuel n s) = None.
Proof.
  revert s; induction fuel as [|fuel IH]; intros s; [done|]. simpl.
  destruct (String.eqb s ""); [done|]. apply IH.
Qed.

Lemma take_error_reader (n : nat) l e :
  Forall (fun r => rd_err r = None) l ->
  reader_error (take n l ++ [MkRead "" (Some (ReadErr e))]) = Some e.
Proof.
  intros H. revert n; induction H as [|[d er] l Hr Hl IH]; intros [|n]; [done..|].
  simpl in *. by rewrite Hr.
Qed.

Lemma chunks_no_err fuel n s : Forall (fun r => rd_err r = None) (chunks fuel n s).
Proof.
  revert s; induction fuel as [|fuel IH]; intros s; [done|]. simpl.
  destruct (String.eqb s ""); [by constructor|]. constructor; [done|apply IH].
Qed.

(** The file [p] of [s] has the content of [s0] and [data] after it. *)
Definition appended (p : path) (s0 s : Os) (data : string) : Prop :=
  os_files s !! p = (fun c => c +:+ data) <$> os_files s0 !! p /\
  files_frame (fun q => q = p) s0 s /\ os_dirs s = os_dirs s0.

Lemma appended_refl p s0 s :
  os_files s = os_files s0 -> os_dirs s = os_dirs s0 -> os_uuids s = os_uuids s0 ->
  appended p s0 s "".
Proof.
  intros Ef Ed Eu. split_and!; [|split; [by rewrite Ef|lia]|done].
  rewrite Ef. destruct (os_files s0 !! p); simpl; [by rewrite append_nil_r|done].
Qed.

Lemma appended_trans p s1 s2 s3 d1 d2 :
  appended p s1 s2 d1 -> appended p s2 s3 d2 -> appended p s1 s3 (d1 +:+ d2).
Proof.
  intros (E1 & F1 & D1) (E2 & F2 & D2). split_and!; [|by eapply files_frame_trans|congruence].
  rewrite E2, E1. destruct (os_files s1 !! p); simpl; [by rewrite append_assoc|done].
Qed.

Lemma wp_ok_os_write p data s (Q : nat * option error -> Os -> Prop) :
  (forall s', appended p s s' data -> Q (String.length data, None) s') ->
  (forall n s' e, Q (n, Some e) s') ->
  wp_ok (os_write p data) Q s.
Proof.
  intros H1 H2. unfold os_write. apply wp_ok_bind, wp_pop_fault. intros [n|] fs; [apply H2|].
  unfold wp_ok, wp. simpl. apply H1.
  assert (Et : take_bytes (String.length data) data = data).
  { pose proof (take_bytes_append data "") as E. by rewrite append_nil_r in E. }
  rewrite Et. split_and!; simpl; [by rewrite lookup_alter_eq| |done].
  split; [|done]. intros q Hq. simpl. by rewrite lookup_alter_ne by congruence.
Qed.

(** A copy that reports success has appended the whole content, and the reader
    met no error. *)
Lemma copyWithContext_ok dst src w s :
  wp_ok (copyWithContext dst src w) (fun n s' =>
    appended dst s s' (reader_content src) /\ reader_error src = None /\
    n = (w + string_len (reader_content src))%Z) s.
Proof.
  revert w s; induction src as [|[data err] src IH]; intros w s; simpl.
  { apply wp_ok_bind, wp_check_ctx; [done|]. intros fs. apply wp_ok_ret.
    split_and!; [by apply appended_refl|done|unfold string_len; simpl; lia]. }
  apply wp_ok_bind, wp_check_ctx; [done|]. intros fs. apply wp_ok_bind.
  apply (wp_ok_mono _ (fun n s' => appended dst s s' data /\ n = (w + string_len data)%Z)).
  - destruct (Z.ltb_spec 0 (string_len data)) as [Hpos|Hz].
    + apply wp_ok_bind, wp_ok_os_write; [|intros; apply wp_ok_fail].
      intros s' Hs'. cbn beta iota. rewrite bool_decide_false by lia. apply wp_ok_ret.
      split; [exact Hs'|done].
    + apply wp_ok_ret. destruct data; [|unfold string_len in Hz; simpl in Hz; lia].
      split; [by apply appended_refl|unfold string_len; simpl; lia].
  - intros n s' [Ha ->]. destruct err as [[|e]|].
    + apply wp_ok_ret. done.
    + apply wp_ok_fail.
    + eapply wp_ok_mono; [apply IH|]. intros n s'' (Ha' & He & ->).
      split_and!; [by eapply appended_trans|done|].
      unfold string_len. rewrite length_append. lia.
Qed.

Lemma keeps_copyWithContext s0 (P : path -> Prop) dst src w :
  P dst -> keeps (files_frame P s0) (copyWithContext dst src w).
Proof.
  intros HP. revert w; induction src as [|[data err] src IH]; intros w; simpl.
  { keeps_steps. }
  apply keeps_bind; [apply keeps_check_ctx|]. intros _.
  apply keeps_bind; [|intros n; destruct err as [[|e]|]; eauto with fbs].
  destruct (0 <? string_len data)%Z; [|apply keeps_ret].
  apply keeps_bind; [by apply keeps_os_write|]. intros [nw [e|]]; [apply keeps_fail|].
  destruct (bool_decide _); keeps_steps.
Qed.

(** ** Durable writes *)

Lemma keeps_syncDir s0 (P : path -> Prop) dir : keeps (files_frame P s0) (syncDir dir).
Proof. unfold syncDir. keeps_steps. Qed.

Lemma keeps_writeDurably s0 (P : path -> Prop) tempPath finalPath fill :
  P (abs_segs tempPath) -> P (abs_segs finalPath) ->
  keeps (files_frame P s0) (fill (abs_segs tempPath)) ->
  keeps (files_frame P s0) (writeDurably tempPath finalPath fill).
Proof.
  intros Ht Hf Hfill. unfold writeDurably.
  pose proof (keeps_syncDir s0 P). keeps_steps.
Qed.
#[export] Hint Resolve keeps_copyWithContext keeps_syncDir keeps_writeDurably : fbs.

Lemma wp_ok_syscall {A} (m : M Os A) (Q : A -> Os -> Prop) s :
  (forall fs, wp_ok m Q (set_faults fs s)) -> wp_ok (syscall m) Q s.
Proof. intros H. by apply wp_syscall. Qed.

Lemma wp_ok_os_create p (Q : unit -> Os -> Prop) s :
  (forall fs, Q tt (set_files (<[p := ""]> (os_files s)) (set_faults fs s))) ->
  wp_ok (os_create p) Q s.
Proof.
  intros H. apply wp_ok_syscall. intros fs. unfold wp_ok, wp.
  destruct (_ || _); [done|apply H].
Qed.

Lemma wp_os_mkdir_all p (Q : result unit -> Os -> Prop) s :
  (forall fs, Q (Err ErrIO) (set_faults fs s)) ->
  (forall d fs, Q (Ok tt) (set_dirs d (set_faults fs s))) -> wp (os_mkdir_all p) Q s.
Proof.
  intros He H. apply wp_syscall; intros fs; [apply He|]. unfold wp.
  destruct (existsb _ _); [apply He|apply H].
Qed.

Lemma wp_ok_os_mkdir_all p (Q : unit -> Os -> Prop) s :
  (forall d fs, Q tt (set_dirs d (set_faults fs s))) -> wp_ok (os_mkdir_all p) Q s.
Proof.
  intros H. apply wp_ok_syscall. intros fs. unfold wp_ok, wp. destruct (existsb _ _); [done|apply H].
Qed.

Lemma wp_ok_os_rename from to (Q : unit -> Os -> Prop) s :
  (forall c fs, os_files s !! from = Some c ->
    Q tt (set_files (<[to := c]> (delete from (os_files s))) (set_faults fs s))) ->
  wp_ok (os_rename from to) Q s.
Proof.
  intros H. apply wp_ok_syscall. intros fs. unfold wp_ok, wp. simpl.
  destruct (os_files s !! from) eqn:E; [|done]. destruct (_ || _); [done|by apply H].
Qed.

(** [syncDir] and [os_close] change nothing but the oracle. *)
Lemma wp_keeps_faults {A} (m : M Os A) (Q : result A -> Os -> Prop) s :
  keeps (fun s' => exists fs, s' = set_faults fs s) m ->
  (forall r fs, Q r (set_faults fs s)) -> wp m Q s.
Proof.
  intros Hm HQ. eapply wp_mono; [apply Hm; exists (os_faults s); by destruct s|].
  intros r s' [fs ->]. apply HQ.
Qed.

Lemma faults_blind s : forall fs s', (exists fs0, s' = set_faults fs0 s) ->
  exists fs0, set_faults fs s' = set_faults fs0 s.
Proof. intros fs s' [fs0 ->]. by exists fs. Qed.

Lemma blind_syncDir I dir : (forall fs s, I s -> I (set_faults fs s)) -> keeps I (syncDir dir).
Proof.
  intros blind. unfold syncDir. apply keeps_bind; [by apply blind_open|]. intros _.
  apply keeps_bind; [by apply keeps_attempt, blind_sync|]. intros r1.
  apply keeps_bind; [by apply keeps_attempt, blind_close|]. intros r2. keeps_steps.
Qed.

Lemma wp_syncDir dir (Q : result unit -> Os -> Prop) s :
  (forall r fs, Q r (set_faults fs s)) -> wp (syncDir dir) Q s.
Proof. apply wp_keeps_faults, blind_syncDir, faults_blind. Qed.

Lemma wp_os_close (Q : result unit -> Os -> Prop) s :
  (forall r fs, Q r (set_faults fs s)) -> wp os_close Q s.
Proof. apply wp_keeps_faults, blind_close, faults_blind. Qed.

Lemma wp_os_sync (Q : result unit -> Os -> Prop) s :
  (forall r fs, Q r (set_faults fs s)) -> wp os_sync Q s.
Proof. apply wp_keeps_faults, blind_sync, faults_blind. Qed.

(** A durable write that reports success has published the whole content under
    the final path, and left nothing under the temporary one. *)
Lemma writeDurably_ok tempPath finalPath fill content (G : Prop) s :
  let temp := abs_segs tempPath in
  let final := abs_segs finalPath in
  (forall s1, os_files s1 = <[temp := ""]> (os_files s) ->
    wp_ok (fill temp) (fun n s2 => appended temp s1 s2 content /\ n = string_len content /\ G) s1) ->
  wp_ok (writeDurably tempPath finalPath fill) (fun n s' =>
    os_files s' = <[final := content]> (delete temp (os_files s)) /\
    n = string_len content /\ G) s.
Proof.
  intros temp final Hfill. unfold writeDurably. fold temp final.
  apply wp_ok_bind, wp_ok_os_create. intros fs. set (s1 := set_files _ _).
  apply wp_ok_bind, wp_ok_attempt, wp_of_ok.
  { intros e s2. autorewrite with monad.
    apply wp_ok_bind, wp_ok_attempt, wp_os_close. intros r fs'.
    autorewrite with monad. apply wp_ok_bind, wp_ok_attempt, wp_any. intros. apply wp_ok_fail. }
  eapply wp_ok_mono; [by apply Hfill|]. intros n s2 (Ha & -> & HG).
  autorewrite with monad.
  apply wp_ok_bind, wp_ok_attempt, wp_os_sync. intros [[]|e] fs2; autorewrite with monad;
    apply wp_ok_bind, wp_ok_attempt, wp_os_close; intros [[]|e'] fs3; autorewrite with monad.
  all: try (apply wp_ok_bind, wp_ok_attempt, wp_any; intros; apply wp_ok_fail).
  apply wp_ok_bind, wp_ok_attempt, wp_of_ok.
  { intros e s3. autorewrite with monad. apply wp_ok_bind, wp_ok_attempt, wp_any.
    intros. apply wp_ok_fail. }
  apply wp_ok_os_mkdir_all. intros d fs4. autorewrite with monad.
  apply wp_ok_bind, wp_ok_attempt, wp_of_ok.
  { intros e s3. apply wp_ok_bind, wp_ok_attempt, wp_any. intros. apply wp_ok_fail. }
  apply wp_ok_os_rename. intros c fs5 Hc.
  apply wp_ok_bind, wp_ok_attempt, wp_syncDir. intros [[]|e] fs6.
  2: { apply wp_ok_bind, wp_ok_attempt, wp_any. intros. apply wp_ok_fail. }
  apply wp_ok_ret. split; [|done]. simpl in *.
  destruct Ha as (Hc' & [Hf _] & _). rewrite Hc in Hc'. unfold s1 in Hc'. simpl in Hc'.
  rewrite lookup_insert_eq in Hc'. simplify_eq/=. f_equal.
  apply map_eq. intros p. destruct (decide (p = temp)) as [->|Hne].
  - by rewrite !lookup_delete_eq.
  - rewrite !lookup_delete_ne, Hf by congruence. unfold s1. simpl.
    by rewrite lookup_insert_ne by congruence.
Qed.

(** ** The engine's files *)

Lemma normal_seg_long s : contains_byte s sep = false -> 2 < String.length s -> normal_seg s.
Proof. intros Hs Hl. split_and!; [by intros ->; simpl in Hl; lia..|done]. Qed.

Section EngineFiles.
Context `{Cwd} `{UL : UuidLaws} (e : engine) (We : wf_engine e).

(** The n-th uuid as an object of a bucket, as a temporary file, and as a part. *)
Definition object_file (b : string) (n : nat) : path := data_segs e ++ [b; uuid_of n].
Definition temp_file (n : nat) : path := data_segs e ++ [".tmp"; uuid_of n +:+ ".tmp"].
Definition part_name (k : Z) (n : nat) : string := format_int k +:+ ".tmp-" +:+ uuid_of n.
Definition part_file (up : string) (k : Z) (n : nat) : path :=
  data_segs e ++ [".tmp"; "multipart"; up; part_name k n].

(** The storage paths of the metadata. *)
Definition object_path (b : string) (n : nat) : string := render_rel [b; uuid_of n].
Definition part_path (up : string) (k : Z) (n : nat) : string :=
  render_rel [".tmp"; "multipart"; up; part_name k n].

(** A directory of objects: not the one for temporary files. *)
Definition bucket_dir (b : string) : Prop := normal_seg b /\ b <> ".tmp".

Lemma temp_name_normal n : normal_seg (uuid_of n +:+ ".tmp").
Proof.
  destruct (uuid_normal n) as (_ & _ & _ & Hs). apply normal_seg_long.
  - by rewrite contains_byte_append, Hs.
  - rewrite length_append. simpl. lia.
Qed.

Lemma object_segs_normal b n : normal_seg b -> Forall normal_seg [b; uuid_of n].
Proof. intros Hb. constructor; [done|]. apply Forall_single, uuid_normal. Qed.

Lemma temp_segs_normal n : Forall normal_seg [".tmp"; uuid_of n +:+ ".tmp"].
Proof. constructor; [apply tmp_normal|]. apply Forall_single, temp_name_normal. Qed.

Lemma object_file_inj b b' n n' : object_file b n = object_file b' n' -> b = b' /\ n = n'.
Proof. intros E%app_inv_head. simplify_eq. split; [done|]. by apply uuid_inj. Qed.

Lemma object_not_temp b n m : bucket_dir b -> object_file b n <> temp_file m.
Proof. intros [_ Hb] E%app_inv_head. by simplify_eq. Qed.

Lemma object_join b n : normal_seg b -> path_join [b; uuid_of n] = object_path b n.
Proof.
  intros Hb. change [b; uuid_of n] with [render_rel [b]; render_rel [uuid_of n]].
  rewrite path_join_rel; [done|done|done|by apply Forall_single|].
  apply Forall_single, uuid_normal.
Qed.

Lemma object_full b n :
  normal_seg b -> path_join [dataDir e; object_path b n] = render_abs (object_file b n).
Proof using We UL. intros Hb. apply join_below; [done|done|by apply object_segs_normal]. Qed.

Lemma object_full_normal b n : normal_seg b -> Forall normal_seg (object_file b n).
Proof. intros Hb. by apply below_normal, object_segs_normal. Qed.

Lemma temp_full n :
  path_join [tmpDir e; uuid_of n +:+ ".tmp"] = render_abs (temp_file n).
Proof using We UL.
  rewrite tmp_dir_render by done. unfold temp_file.
  change (uuid_of n +:+ ".tmp") with (render_rel [uuid_of n +:+ ".tmp"]) at 1.
  rewrite path_join_abs_rel; [by rewrite <- app_assoc|done| |].
  - apply below_normal, Forall_single, tmp_normal.
  - apply Forall_single, temp_name_normal.
Qed.

Lemma abs_segs_object b n : normal_seg b -> abs_segs (render_abs (object_file b n)) = object_file b n.
Proof. intros Hb. by apply abs_segs_render, object_full_normal. Qed.

Lemma abs_segs_temp n : abs_segs (render_abs (temp_file n)) = temp_file n.
Proof. apply abs_segs_render, below_normal, temp_segs_normal. Qed.

Lemma object_path_not_blank b n : trim_space (object_path b n) <> "".
Proof.
  intros E%(f_equal (fun s => contains_byte s sep)).
  rewrite trim_space_printable in E by (unfold printable; vm_compute; split; congruence).
  unfold object_path, render_rel in E. simpl in E.
  rewrite contains_byte_append in E. simpl in E. rewrite orb_true_r in E. done.
Qed.

Lemma resolve_object b n :
  normal_seg b -> resolveStoragePath e (object_path b n) = Ok (render_abs (object_file b n)).
Proof using We UL.
  intros Hb. apply resolveStoragePath_below; [done|done|by apply object_segs_normal|].
  apply object_path_not_blank.
Qed.

(** The files that the writing of an object may touch. *)
Definition written_files (b : string) (n : nat) (p : path) : Prop :=
  p = object_file b n \/ p = temp_file (S n).

(** What the writers promise: whatever fails, no file but the fresh one and its
    temporary file is touched; a success has stored the whole content. *)
Definition stored (b : string) (s : Os) (content : string) (G : Prop)
    (r : result (string * Z)) (s' : Os) : Prop :=
  files_frame (written_files b (os_uuids s)) s s' /\
  match r with
  | Ok (storagePath, size) =>
      storagePath = object_path b (os_uuids s) /\
      os_uuids s < os_uuids s' /\
      os_files s' =
        <[object_file b (os_uuids s) := content]> (delete (temp_file (S (os_uuids s))) (os_files s)) /\
      size = string_len content /\ G
  | Err _ => True
  end.

(** The part of the writers after the choice of the names. *)
Lemma stored_writeDurably b s0 s fill content (G : Prop) :
  bucket_dir b ->
  os_files s = os_files s0 -> os_uuids s = S (S (os_uuids s0)) ->
  keeps (files_frame (written_files b (os_uuids s0)) s) (fill (temp_file (S (os_uuids s0)))) ->
  (forall s1, os_files s1 = <[temp_file (S (os_uuids s0)) := ""]> (os_files s) ->
    wp_ok (fill (temp_file (S (os_uuids s0)))) (fun n s2 =>
      appended (temp_file (S (os_uuids s0))) s1 s2 content /\ n = string_len content /\ G) s1) ->
  wp (bind (writeDurably (render_abs (temp_file (S (os_uuids s0))))
                         (render_abs (object_file b (os_uuids s0))) fill)
           (fun written => ret (object_path b (os_uuids s0), written)))
     (stored b s0 content G) s.
Proof.
  intros Hb Hf Hu Hkeep Hfill. set (n := os_uuids s0) in *.
  pose proof (keeps_writeDurably s (written_files b n) (render_abs (temp_file (S n)))
    (render_abs (object_file b n)) fill) as Hframe.
  pose proof (writeDurably_ok (render_abs (temp_file (S n))) (render_abs (object_file b n))
    fill content G s) as Hok. cbv zeta in Hok.
  rewrite abs_segs_temp, abs_segs_object in * by apply Hb.
  specialize (Hframe (or_intror eq_refl) (or_introl eq_refl) Hkeep).
  apply wp_bind. eapply wp_mono; [apply wp_and; [by apply Hframe|by apply Hok]|].
  assert (Hs : files_frame (written_files b n) s0 s) by (split; [by rewrite Hf|fold n; lia]).
  intros [w|err] s' [Hfr Hpost]; [|split; [by eapply files_frame_trans|done]].
  apply wp_ret. split; [by eapply files_frame_trans|]. destruct Hpost as (Hp & -> & HG).
  split_and!; [done| |by rewrite <- Hf|done..]. destruct Hfr as [_ Hle]. lia.
Qed.

(** [Write], whatever calls fail. *)
Lemma wp_Write b key r s :
  bucket_dir b ->
  wp (Write e b key r) (stored b s (reader_content r) (reader_error r = None)) s.
Proof using We UL.
  intros Hb. unfold Write.
  apply wp_bind, wp_check_ctx; [by split; [apply files_frame_eq|]|]. intros fs.
  apply wp_bind, wp_lift_result.
  destruct (resolveKeyPath _ _ _); [|by split; [apply files_frame_eq|]].
  apply wp_bind, wp_new_uuid. rewrite object_join, object_full by apply Hb.
  rewrite clean_render by by apply object_full_normal, Hb.
  destruct (negb _); [apply wp_fail; split; [apply files_frame_eq; [done|simpl; lia]|done]|].
  apply wp_bind, wp_new_uuid. simpl os_uuids. rewrite temp_full.
  apply stored_writeDurably; [done..| |].
  - apply keeps_copyWithContext. by right.
  - intros s1 _. eapply wp_ok_mono; [apply copyWithContext_ok|]. simpl.
    intros n s2 (Ha & He & ->). done.
Qed.

(** C9: an object is written whole or not at all. Whatever calls fail,
    [Write] touches no file but the fresh one it names and its temporary file; and
    when it reports success, the fresh file holds every byte of the reader, which
    ended without an error, the size is their number, and the temporary file is
    gone. *)
Theorem Write_spec b key r s :
  bucket_dir b ->
  wp (Write e b key r) (stored b s (reader_content r) (reader_error r = None)) s.
Proof using We UL. apply wp_Write. Qed.

(** ** Parts *)

Lemma part_name_normal k n : normal_seg (part_name k n).
Proof.
  destruct (uuid_normal n) as (_ & _ & _ & Hs). apply normal_seg_long; unfold part_name.
  - rewrite !contains_byte_append, Hs, format_int_byte; [done| |done].
    intros [Hb _]. by vm_compute in Hb.
  - rewrite !length_append. simpl. lia.
Qed.

Lemma part_segs_normal up k n :
  normal_seg up -> Forall normal_seg [".tmp"; "multipart"; up; part_name k n].
Proof.
  intros Hu. constructor; [apply tmp_normal|]. constructor; [by_decide|].
  constructor; [done|]. apply Forall_single, part_name_normal.
Qed.

Lemma part_file_inj up up' k k' n n' :
  part_file up k n = part_file up' k' n' -> up = up' /\ part_name k n = part_name k' n'.
Proof. intros E%app_inv_head. by simplify_eq. Qed.

Lemma part_not_object up k n b m : part_file up k n <> object_file b m.
Proof. by intros E%app_inv_head. Qed.

Lemma part_not_temp up k n m : part_file up k n <> temp_file m.
Proof. by intros E%app_inv_head. Qed.

Lemma part_dir up :
  normal_seg up ->
  path_join [tmpDir e; "multipart"; up] = render_abs (data_segs e ++ [".tmp"; "multipart"; up]).
Proof using We UL.
  intros Hu. rewrite tmp_dir_render by done. rewrite path_join_cons by done.
  change (join ["multipart"; up] sep_str) with (render_rel ["multipart"; up]).
  assert (Hm : normal_seg "multipart") by by_decide.
  rewrite path_join_abs_rel; [by rewrite <- app_assoc|done| |].
  - apply below_normal, Forall_single, tmp_normal.
  - constructor; [done|by apply Forall_single].
Qed.

Lemma part_full up k n :
  normal_seg up ->
  path_join [path_join [tmpDir e; "multipart"; up]; part_name k n] = render_abs (part_file up k n).
Proof using We UL.
  intros Hu. rewrite part_dir by done.
  change (part_name k n) with (render_rel [part_name k n]) at 1.
  assert (Hn : Forall normal_seg ([".tmp"; "multipart"; up] ++ [part_name k n]))
    by by apply part_segs_normal.
  apply Forall_app in Hn as [Hn1 Hn2].
  rewrite path_join_abs_rel; [by rewrite <- app_assoc|done|by apply below_normal|done].
Qed.

Lemma abs_segs_part up k n : normal_seg up -> abs_segs (render_abs (part_file up k n)) = part_file up k n.
Proof. intros Hu. by apply abs_segs_render, below_normal, part_segs_normal. Qed.

Lemma resolve_part up k n :
  normal_seg up -> resolveStoragePath e (part_path up k n) = Ok (render_abs (part_file up k n)).
Proof using We UL.
  intros Hu. apply resolveStoragePath_below; [done|done|by apply part_segs_normal|].
  intros E%(f_equal (fun s => contains_byte s sep)).
  rewrite trim_space_printable in E by (unfold printable; vm_compute; split; congruence).
  done.
Qed.

(** A part is written to a fresh file under its upload's directory. *)
Lemma WritePart_spec up k r s :
  normal_seg up ->
  wp (WritePart e up k r) (fun res s' =>
    files_frame (fun p => p = part_file up k (os_uuids s)) s s' /\
    match res with
    | Ok (storagePath, size) =>
        storagePath = part_path up k (os_uuids s) /\ os_uuids s < os_uuids s' /\
        os_files s' !! part_file up k (os_uuids s) = Some (reader_content r) /\
        size = string_len (reader_content r) /\ reader_error r = None
    | Err _ => True
    end) s.
Proof using We UL.
  intros Hu. unfold WritePart.
  apply wp_bind, wp_check_ctx; [by split; [apply files_frame_eq|]|]. intros fs.
  apply wp_bind, wp_lift_result.
  destruct (validateUploadID up); [|by split; [apply files_frame_eq|]].
  pose proof (part_full up k (os_uuids s) Hu) as Efull. unfold part_name in Efull.
  cbv zeta. apply wp_bind, wp_os_mkdir_all; [intros fs1; by split; [apply files_frame_eq|]|].
  intros d fs1. apply wp_bind, wp_new_uuid. simpl os_uuids. rewrite Efull.
  set (n := os_uuids s) in *. set (s1 := MkOs _ _ _ _).
  set (final := render_abs (part_file up k n)).
  pose proof (keeps_writeDurably s1 (fun p => p = part_file up k n) final final
    (fun w => copyWithContext w r 0)) as Hframe.
  pose proof (writeDurably_ok final final (fun w => copyWithContext w r 0)
    (reader_content r) (reader_error r = None) s1) as Hok. cbv zeta in Hok.
  unfold final in Hframe, Hok. rewrite abs_segs_part in Hframe, Hok by done.
  apply wp_bind. eapply wp_mono; [apply wp_and; [apply Hframe; [done|done| |apply files_frame_refl]|apply Hok]|].
  - by apply keeps_copyWithContext.
  - intros s2 _. eapply wp_ok_mono; [apply copyWithContext_ok|]. by intros w s3 (Ha & He & ->).
  - assert (Hs1 : files_frame (fun p => p = part_file up k n) s s1)
      by (apply files_frame_eq; [done|simpl; lia]).
    intros [w|err] s' [Hfr Hpost]; [|split; [by eapply files_frame_trans|done]].
    apply wp_ret. split; [by eapply files_frame_trans|]. destruct Hpost as (Hp & -> & HG).
    split_and!; [| |by rewrite Hp, lookup_insert_eq|done..].
    + apply path_join_segs; [done|by apply part_segs_normal].
    + destruct Hfr as [_ Hle]. simpl in Hle. fold n. lia.
Qed.

(** The concatenation of the files that part paths name. *)
Fixpoint parts_content (s : Os) (partPaths : list string) : option string :=
  match partPaths with
  | [] => Some ""
  | partPath :: rest =>
      match resolveStoragePath e partPath with
      | Ok full =>
          match os_files s !! abs_segs full, parts_content s rest with
          | Some c, Some cs => Some (c +:+ cs)
          | _, _ => None
          end
      | Err _ => None
      end
  end.

(** No part path names the file [w]. *)
Definition parts_avoid (w : path) (partPaths : list string) : Prop :=
  forall partPath full, partPath ∈ partPaths -> resolveStoragePath e partPath = Ok full ->
    abs_segs full <> w.

Lemma parts_content_frame w s s' partPaths :
  parts_avoid w partPaths -> (forall p, p <> w -> os_files s' !! p = os_files s !! p) ->
  parts_content s' partPaths = parts_content s partPaths.
Proof.
  intros Ha Hf. induction partPaths as [|p ps IH]; [done|]. simpl.
  destruct (resolveStoragePath e p) as [full|] eqn:E; [|done].
  rewrite Hf by (eapply Ha; [by left|done]).
  rewrite IH; [done|]. intros q full' Hq. apply Ha. by right.
Qed.

Lemma wp_ok_file_reader content s (Q : reader -> Os -> Prop) :
  (forall r fs, (reader_error r = None -> content = Some (reader_content r)) -> Q r (set_faults fs s)) ->
  wp_ok (file_reader content) Q s.
Proof.
  intros HQ. unfold file_reader. apply wp_ok_bind, wp_pop_fault. intros f fs.
  destruct content as [c|]; [|by apply wp_ok_ret, HQ].
  destruct f as [n|]; apply wp_ok_ret, HQ.
  - rewrite take_error_reader by apply chunks_no_err. done.
  - intros _. rewrite chunks_content; [done| |lia]. unfold copy_buffer_size. lia.
Qed.

Lemma copyParts_ok w partPaths total s :
  parts_avoid w partPaths ->
  wp_ok (copyParts e w partPaths total) (fun n s' =>
    exists c, parts_content s partPaths = Some c /\ appended w s s' c /\
              n = (total + string_len c)%Z) s.
Proof.
  revert total s; induction partPaths as [|p ps IH]; intros total s Ha; cbn [copyParts].
  { apply wp_ok_ret. exists "". split_and!; [done|by apply appended_refl|].
    unfold string_len. simpl. lia. }
  apply wp_ok_bind, wp_ok_lift_result. intros full Efull.
  apply wp_ok_bind, wp_ok_syscall. intros fs. unfold wp_ok at 1, wp. simpl os_files.
  destruct (os_files s !! abs_segs full) as [c|] eqn:Ec.
  2: { simpl. destruct (bool_decide _); [|done].
       apply (wp_ok_bind _ _ _ _), wp_ok_file_reader. intros r fs1 Hr.
       apply wp_ok_bind, wp_ok_attempt, wp_of_ok.
       { intros err s2. apply wp_ok_bind, wp_ok_attempt, wp_os_close. intros. apply wp_ok_fail. }
       eapply wp_ok_mono; [apply copyWithContext_ok|]. intros n s2 (_ & He & _).
       by specialize (Hr He). }
  apply (wp_ok_bind _ _ _ _), wp_ok_file_reader. intros r fs1 Hr.
  apply wp_ok_bind, wp_ok_attempt, wp_of_ok.
  { intros err s2. apply wp_ok_bind, wp_ok_attempt, wp_os_close. intros. apply wp_ok_fail. }
  eapply wp_ok_mono; [apply copyWithContext_ok|]. intros n s2 (Happ & He & ->).
  specialize (Hr He). simplify_eq.
  apply wp_ok_bind, wp_ok_attempt, wp_os_close. intros _r fs2.
  apply wp_ok_bind, wp_ok_ret. eapply wp_ok_mono; [apply IH|].
  { intros q full' Hq. apply Ha. by right. }
  intros n s3 (c' & Hc' & Happ' & ->).
  assert (Hps : parts_content s ps = Some c').
  { rewrite <- Hc'. symmetry. apply (parts_content_frame w).
    - intros q full' Hq. apply Ha. by right.
    - destruct Happ as (_ & [Hf _] & _). exact Hf. }
  exists (reader_content r +:+ c'). split_and!.
  - cbn [parts_content]. by rewrite Efull, Ec, Hps.
  - eapply appended_trans; [exact Happ|exact Happ'].
  - unfold string_len. rewrite length_append. lia.
Qed.

Lemma keeps_copyParts s0 (P : path -> Prop) w partPaths total :
  P w -> keeps (files_frame P s0) (copyParts e w partPaths total).
Proof.
  intros HP. revert total; induction partPaths as [|p ps IH]; intros total; cbn [copyParts];
    unfold file_reader; keeps_steps.
Qed.

Lemma wp_AssembleParts b key partPaths s :
  bucket_dir b -> parts_avoid (temp_file (S (os_uuids s))) partPaths ->
  wp (AssembleParts e b key partPaths)
     (fun r s' => exists c, stored b s c (parts_content s partPaths = Some c) r s') s.
Proof using We UL.
  intros Hb Ha. set (c := default "" (parts_content s partPaths)).
  apply (wp_mono _ (stored b s c (parts_content s partPaths = Some c))); [|eauto].
  unfold AssembleParts.
  apply wp_bind, wp_check_ctx; [by split; [apply files_frame_eq|]|]. intros fs.
  apply wp_bind, wp_lift_result. destruct (ValidateKey key); [|by split; [apply files_frame_eq|]].
  apply wp_bind, wp_new_uuid. rewrite object_join, object_full by apply Hb.
  destruct (negb _); [apply wp_fail; split; [apply files_frame_eq; [done|simpl; lia]|done]|].
  apply wp_bind, wp_new_uuid. simpl os_uuids. rewrite temp_full.
  apply stored_writeDurably; [done..| |].
  - apply keeps_copyParts. by right.
  - intros s1 Hs1. eapply wp_ok_mono; [by apply copyParts_ok|]. simpl in Hs1.
    intros n s2 (c' & Hc' & Happ & ->).
    rewrite (parts_content_frame (temp_file (S (os_uuids s))) s s1) in Hc'; [|done|].
    + unfold c. rewrite Hc'. simpl. split_and!; [done|lia|done].
    + intros p Hp. rewrite Hs1. by rewrite lookup_insert_ne.
Qed.

(** A completed multipart upload is the concatenation of its parts.
    Whatever calls fail, [AssembleParts] touches no file but the fresh one and its
    temporary file - the parts stay - and when it reports success the fresh file
    is the concatenation, in the order given, of the files that the part paths
    name. *)
Theorem AssembleParts_spec b key partPaths s :
  bucket_dir b -> parts_avoid (temp_file (S (os_uuids s))) partPaths ->
  wp (AssembleParts e b key partPaths)
     (fun r s' => exists c, stored b s c (parts_content s partPaths = Some c) r s') s.
Proof using We UL. apply wp_AssembleParts. Qed.

(** ** Reading and deleting *)

Lemma Open_spec b n s :
  normal_seg b ->
  wp (Open e (object_path b n)) (fun r s' =>
    (exists fs, s' = set_faults fs s) /\
    match r with
    | Ok (Some c) => os_files s !! object_file b n = Some c
    | Ok None => object_file b n ∈ os_dirs s
    | Err ErrNotFound => os_files s !! object_file b n = None
    | Err _ => True
    end) s.
Proof using We UL.
  intros Hb. unfold Open.
  apply wp_bind, wp_check_ctx; [by eauto|]. intros fs. rewrite resolve_object by done.
  apply wp_bind, wp_lift_result, wp_bind, wp_attempt. rewrite abs_segs_object by done.
  apply wp_syscall; intros fs1; [split; [by exists fs1|done]|]. unfold wp. simpl.
  destruct (os_files s !! object_file b n) as [c|] eqn:Ec; simpl; [eauto|].
  destruct (bool_decide_reflect (object_file b n ∈ os_dirs s)); simpl; eauto.
Qed.

Lemma path_rel_below a segs :
  Forall normal_seg a -> Forall normal_seg segs -> segs <> [] ->
  path_rel (render_abs a) (render_abs (a ++ segs)) = render_rel segs.
Proof.
  intros Ha Hs Hne. assert (Has : Forall normal_seg (a ++ segs)) by by apply Forall_app.
  unfold path_rel. rewrite !clean_render, !path_segs_render by done.
  destruct (String.eqb_spec (render_abs (a ++ segs)) (render_abs a)) as [E|_].
  - apply render_abs_inj in E; [|done..]. apply (f_equal length) in E.
    rewrite length_app in E. destruct segs; [done|simpl in E; lia].
  - by rewrite strip_common_app.
Qed.

Lemma path_dir_below a x :
  Forall normal_seg a -> normal_seg x -> path_dir (render_abs (a ++ [x])) = render_abs a.
Proof.
  intros Ha Hx. unfold path_dir. rewrite path_segs_render.
  - rewrite reverse_app. simpl. by rewrite reverse_involutive.
  - apply Forall_app. split; [done|by apply Forall_single].
Qed.

(** Deleting an object's file never prunes its bucket's directory. *)
Lemma pruneEmptyParents_object b n :
  normal_seg b -> pruneEmptyParents e (render_abs (object_file b n)) = ret tt.
Proof using We UL.
  intros Hb. unfold pruneEmptyParents. rewrite (data_dir_render e We).
  unfold object_file. rewrite path_rel_below by (done || apply data_segs_normal || by apply object_segs_normal).
  unfold firstPathElement. rewrite clean_render_rel by (done || by apply object_segs_normal).
  rewrite split_render_rel by (done || by apply object_segs_normal).
  assert (Hdot : render_rel [b; uuid_of n] <> ".").
  { intros E%(f_equal (fun p => split p sep)).
    rewrite split_render_rel in E by (done || by apply object_segs_normal). done. }
  apply String.eqb_neq in Hdot as ->.
  pose proof (render_rel_not_empty [b; uuid_of n]) as He.
  apply String.eqb_neq in He as ->; [|done|by apply object_segs_normal]. simpl orb. cbv zeta iota.
  destruct Hb as (Hb1 & Hb2 & Hb3 & Hb4). apply String.eqb_neq in Hb1 as Eb1.
  apply String.eqb_neq in Hb2 as Eb2. rewrite Eb1, Eb2. simpl orb. cbv iota.
  assert (Hbn : Forall normal_seg (data_segs e ++ [b])).
  { apply Forall_app. split; [apply data_segs_normal|by apply Forall_single]. }
  change (data_segs e ++ [b; uuid_of n]) with (data_segs e ++ [b] ++ [uuid_of n]).
  rewrite app_assoc, path_dir_below by (done || apply uuid_normal).
  change b with (render_rel [b]) at 2.
  rewrite path_join_abs_rel by (done || apply data_segs_normal || by apply Forall_single).
  rewrite !abs_segs_render by (done || apply data_segs_normal).
  simpl prune_loop. rewrite (bool_decide_true (data_segs e ++ [b] = data_segs e ++ [b])) by done.
  by rewrite orb_true_r.
Qed.

(** Deleting an object's file touches nothing else, and a success means that the
    file is gone; a file that was already missing is a success. *)
Lemma Delete_spec b n s :
  normal_seg b ->
  wp (Delete e (object_path b n)) (fun r s' =>
    os_uuids s' = os_uuids s /\
    files_frame (fun p => p = object_file b n) s s' /\
    match r with Ok _ => os_files s' !! object_file b n = None | Err _ => True end) s.
Proof using We UL.
  intros Hb. unfold Delete.
  apply wp_bind, wp_check_ctx; [done|]. intros fs. rewrite resolve_object by done.
  apply wp_bind, wp_lift_result, wp_bind, wp_attempt.
  rewrite pruneEmptyParents_object, abs_segs_object by done.
  apply wp_syscall; intros fs1; [done|]. unfold wp. simpl.
  destruct (bool_decide_reflect (is_Some (os_files s !! object_file b n))) as [Hs|Hn]; simpl.
  - split; [done|]. split; [|apply lookup_delete_eq].
    split; [|done]. intros p Hp. simpl. by rewrite lookup_delete_ne by congruence.
  - apply eq_None_not_Some in Hn.
    destruct (bool_decide _); simpl; [|done].
    destruct (has_entries _ _); simpl; [done|]. done.
Qed.

(** ** The tree stays a tree *)

Lemma wf_copyWithContext dst src w : keeps wf_os (copyWithContext dst src w).
Proof.
  revert w; induction src as [|[data err] src IH]; intros w; simpl; [keeps_steps|].
  apply keeps_bind; [apply wf_check_ctx|]. intros _.
  apply keeps_bind; [|intros n; destruct err as [[|err]|]; eauto with fbs].
  destruct (0 <? string_len data)%Z; [|apply keeps_ret].
  apply keeps_bind; [apply wf_os_write|]. intros [nw [err'|]]; [apply keeps_fail|].
  destruct (bool_decide _); keeps_steps.
Qed.

Lemma wf_copyParts w partPaths total : keeps wf_os (copyParts e w partPaths total).
Proof.
  pose proof wf_copyWithContext.
  revert total; induction partPaths as [|p ps IH]; intros total; cbn [copyParts];
    unfold file_reader; keeps_steps.
Qed.

Lemma wf_writeDurably tempPath finalPath fill :
  abs_segs tempPath <> [] -> abs_segs finalPath <> [] ->
  keeps wf_os (fill (abs_segs tempPath)) -> keeps wf_os (writeDurably tempPath finalPath fill).
Proof.
  intros Ht Hf Hfill. unfold writeDurably, syncDir. keeps_steps.
Qed.

Lemma object_file_nonempty b n : object_file b n <> [].
Proof. unfold object_file. by destruct (data_segs e). Qed.

Lemma temp_file_nonempty n : temp_file n <> [].
Proof. unfold temp_file. by destruct (data_segs e). Qed.

Lemma part_file_nonempty up k n : part_file up k n <> [].
Proof. unfold part_file. by destruct (data_segs e). Qed.

(** The common end of [Write] and [AssembleParts]. *)
Lemma wf_stored b s n m fill (k : Z -> M Os (string * Z)) :
  bucket_dir b -> wf_os s -> keeps wf_os (fill (temp_file m)) -> (forall w, keeps wf_os (k w)) ->
  wp (bind (writeDurably (render_abs (temp_file m)) (render_abs (object_file b n)) fill) k)
     (fun _ s' => wf_os s') s.
Proof.
  intros [Hb _] Hs Hfill Hk. apply (keeps_bind wf_os); [|done..].
  apply wf_writeDurably; rewrite ?abs_segs_temp, ?abs_segs_object by done;
    [apply temp_file_nonempty|apply object_file_nonempty|done].
Qed.

Lemma wf_Write b key r : bucket_dir b -> keeps wf_os (Write e b key r).
Proof using We UL.
  intros Hb s Hs. unfold Write.
  apply wp_bind, wp_check_ctx; [intros; by apply wf_os_faults|]. intros fs.
  apply wp_bind, wp_lift_result. destruct (resolveKeyPath _ _ _); [|by apply wf_os_faults].
  apply wp_bind, wp_new_uuid. rewrite object_join, object_full by apply Hb.
  rewrite clean_render by by apply object_full_normal, Hb.
  destruct (negb _); [by apply wp_fail, (wf_os_eq s)|].
  apply wp_bind, wp_new_uuid. simpl os_uuids. rewrite temp_full.
  apply wf_stored; [done|by apply (wf_os_eq s)|apply wf_copyWithContext|intros w; apply keeps_ret].
Qed.

Lemma wf_AssembleParts b key partPaths : bucket_dir b -> keeps wf_os (AssembleParts e b key partPaths).
Proof using We UL.
  intros Hb s Hs. unfold AssembleParts.
  apply wp_bind, wp_check_ctx; [intros; by apply wf_os_faults|]. intros fs.
  apply wp_bind, wp_lift_result. destruct (ValidateKey key); [|by apply wf_os_faults].
  apply wp_bind, wp_new_uuid. rewrite object_join, object_full by apply Hb.
  destruct (negb _); [by apply wp_fail, (wf_os_eq s)|].
  apply wp_bind, wp_new_uuid. simpl os_uuids. rewrite temp_full.
  apply wf_stored; [done|by apply (wf_os_eq s)|apply wf_copyParts|intros w; apply keeps_ret].
Qed.

Lemma wf_WritePart up k r : normal_seg up -> keeps wf_os (WritePart e up k r).
Proof using We UL.
  intros Hu s Hs. unfold WritePart.
  apply wp_bind, wp_check_ctx; [intros; by apply wf_os_faults|]. intros fs.
  apply wp_bind, wp_lift_result. destruct (validateUploadID up); [|by apply wf_os_faults].
  cbv zeta. apply wp_bind. eapply wp_mono; [apply wf_os_mkdir_all; [apply abs_segs_normal|by apply wf_os_faults]|].
  intros [[]|err] s1 Hs1; [|done].
  pose proof (part_full up k (os_uuids s1) Hu) as Efull. unfold part_name in Efull.
  apply wp_bind, wp_new_uuid. rewrite Efull.
  apply (keeps_bind wf_os); [|intros w; apply keeps_ret|by apply (wf_os_eq s1)].
  apply wf_writeDurably; rewrite ?abs_segs_part by done;
    [apply part_file_nonempty..|apply wf_copyWithContext].
Qed.

(** ** Without faults a write succeeds *)

Lemma wp_syscall_run {A} (m : M Os A) (Q : result A -> Os -> Prop) s :
  os_faults s = [] -> wp m Q s -> wp (syscall m) Q s.
Proof. intros Hf Hm. unfold wp, syscall, bind, pop_fault. by rewrite Hf. Qed.

Lemma wp_check_ctx_run (Q : result unit -> Os -> Prop) s :
  os_faults s = [] -> Q (Ok tt) s -> wp check_ctx Q s.
Proof. intros Hf Hm. unfold wp, check_ctx, bind, pop_fault. by rewrite Hf. Qed.

Lemma copyWithContext_run dst src w s :
  os_faults s = [] -> reader_error src = None -> is_Some (os_files s !! dst) ->
  wp (copyWithContext dst src w) (fun r s' =>
    is_ok r = true /\ os_faults s' = [] /\ os_dirs s' = os_dirs s /\ is_Some (os_files s' !! dst)) s.
Proof.
  revert w s; induction src as [|[data err] src IH]; intros w s Hf He Hd; simpl.
  { by apply wp_bind, wp_check_ctx_run, wp_ret. }
  apply wp_bind, wp_check_ctx_run; [done|]. apply wp_bind.
  apply (wp_mono _ (fun r s' => is_ok r = true /\ os_faults s' = [] /\ os_dirs s' = os_dirs s /\
    is_Some (os_files s' !! dst))).
  - destruct (0 <? string_len data)%Z; [|by apply wp_ret].
    unfold os_write, wp, bind, pop_fault. rewrite Hf. simpl.
    rewrite bool_decide_false by lia. simpl. by rewrite lookup_alter_eq, fmap_is_Some.
  - intros [n|err'] s' (Hok & Hf' & Hd' & Hs'); [|done].
    destruct err as [[|err']|]; [by apply wp_ret|done|].
    eapply wp_mono; [by apply IH|]. intros r s'' (? & ? & -> & ?). done.
Qed.

Lemma wp_os_close_run (Q : result unit -> Os -> Prop) s :
  os_faults s = [] -> Q (Ok tt) s -> wp os_close Q s.
Proof. intros Hf HQ. by apply wp_syscall_run. Qed.

(** [writeDurably] succeeds when nothing fails and the paths are free. *)
Lemma writeDurably_run tempPath finalPath fill s :
  let temp := abs_segs tempPath in
  let final := abs_segs finalPath in
  os_faults s = [] -> (temp ∉ os_dirs s) -> (removelast temp ∈ os_dirs s) -> (final ∉ os_dirs s) ->
  temp ∉ prefixes (removelast final) -> final ∉ prefixes (removelast final) ->
  (forall q, q ∈ prefixes (removelast final) -> os_files s !! q = None) ->
  abs_segs (path_dir finalPath) = removelast final -> removelast final <> [] ->
  (forall s1, os_faults s1 = [] -> is_Some (os_files s1 !! temp) ->
    wp (fill temp) (fun r s2 =>
      is_ok r = true /\ os_faults s2 = [] /\ os_dirs s2 = os_dirs s1 /\
      is_Some (os_files s2 !! temp) /\ files_frame (fun q => q = temp) s1 s2) s1) ->
  wp (writeDurably tempPath finalPath fill) (fun r _ => is_ok r = true) s.
Proof.
  intros temp final Hf Ht Htd Hfd Htp Hfp Hpre Hdir Hne Hfill. unfold writeDurably. fold temp final.
  rewrite Hdir. apply wp_bind, wp_syscall_run; [done|]. unfold wp at 1.
  rewrite bool_decide_false, (bool_decide_false (removelast temp ∉ _)) by (done || by intros []).
  cbn [orb fst snd]. set (s1 := set_files _ s).
  apply wp_bind, wp_attempt.
  eapply wp_mono; [apply Hfill; [done|]|]; [by unfold s1; simpl; rewrite lookup_insert_eq|].
  intros [n|err] s2 (Hok & Hf2 & Hd2 & [c Hc] & [Hfr _]); [|done]. autorewrite with monad.
  apply wp_bind, wp_attempt, wp_syscall_run; [done|]. apply wp_ret.
  apply wp_bind, wp_attempt, wp_os_close_run; [done|]. autorewrite with monad.
  apply wp_bind, wp_attempt, wp_syscall_run; [done|]. unfold wp at 1.
  destruct (existsb _ _) eqn:Ee.
  { exfalso. apply existsb_exists in Ee as (q & Hq%list_elem_of_In & Hs%bool_decide_eq_true).
    assert (Hqt : q <> temp) by congruence.
    rewrite Hfr in Hs by done. unfold s1 in Hs. simpl in Hs.
    rewrite lookup_insert_ne, Hpre in Hs by congruence. by destruct Hs. }
  cbn [fst snd]. autorewrite with monad.
  apply wp_bind, wp_attempt, wp_syscall_run; [done|]. unfold wp at 1. simpl os_files.
  rewrite Hc. simpl os_dirs.
  assert (Hparent : removelast final ∈ prefixes (removelast final))
    by (apply elem_of_prefixes; split; [done|exact Hne]).
  rewrite bool_decide_false, (bool_decide_false (removelast final ∉ _)).
  2: { intros Hn. apply Hn, elem_of_union_l, elem_of_list_to_set. done. }
  2: { intros [Hn%elem_of_list_to_set|Hn]%elem_of_union; [done|].
       rewrite Hd2 in Hn. by apply Hfd. }
  cbn [orb fst snd]. apply wp_bind, wp_attempt. unfold syncDir.
  apply wp_bind, wp_syscall_run; [done|]. unfold wp at 1. simpl os_files.
  rewrite lookup_insert_ne by (intros E; apply Hfp; by rewrite <- E in Hparent at 1).
  destruct (delete temp (os_files s2) !! removelast final) as [c'|] eqn:Ec.
  2: rewrite bool_decide_true by (simpl; apply elem_of_union_l, elem_of_list_to_set; done).
  all: cbn [fst snd]; apply (wp_bind _ _ _ _), wp_attempt, wp_syscall_run; [done|]; apply wp_ret;
    apply wp_bind, wp_attempt, wp_os_close_run; [done|]; by autorewrite with monad.
Qed.

(** The place of a new object is free: [.tmp] is there, and neither the two new
    names nor a file in the way of the bucket's directory exist. *)
Record room_for (b : string) (s : Os) : Prop := {
  rf_tmp : data_segs e ++ [".tmp"] ∈ os_dirs s;
  rf_temp : temp_file (S (os_uuids s)) ∉ os_dirs s;
  rf_object : object_file b (os_uuids s) ∉ os_dirs s;
  rf_way q : q ∈ prefixes (data_segs e ++ [b]) -> os_files s !! q = None;
}.

Lemma prefixes_length p q : q ∈ prefixes p -> length q <= length p.
Proof. intros [[k ->] _]%elem_of_prefixes. rewrite length_app. lia. Qed.

Lemma copy_run_frame dst src w s :
  os_faults s = [] -> reader_error src = None -> is_Some (os_files s !! dst) ->
  wp (copyWithContext dst src w) (fun r s' =>
    is_ok r = true /\ os_faults s' = [] /\ os_dirs s' = os_dirs s /\
    is_Some (os_files s' !! dst) /\ files_frame (fun q => q = dst) s s') s.
Proof.
  intros Hf He Hd. eapply wp_mono; [apply wp_and; [by apply copyWithContext_run|
    apply (keeps_copyWithContext s (fun q => q = dst)); [done|apply files_frame_refl]]|].
  by intros r s' [(? & ? & ? & ?) ?].
Qed.

Lemma removelast_snoc2 {A} (l : list A) x y : removelast (l ++ [x; y]) = l ++ [x].
Proof. change [x; y] with ([x] ++ [y]). by rewrite app_assoc, removelast_last. Qed.

(** C22: when nothing fails, an object is stored. For a valid key and a reader
    that ends without an error, [Write] succeeds in a data directory with room for
    the object. *)
Theorem Write_succeeds b key r s :
  bucket_dir b -> trim_space b = b -> ValidateKey key = Ok tt -> reader_error r = None ->
  os_faults s = [] -> room_for b s ->
  exists size, (Write e b key r s).1 = Ok (object_path b (os_uuids s), size).
Proof using We UL.
  intros [Hb Hbt] Htrim Hk He Hf [Htmp Htemp Hobj Hway].
  cut (wp (Write e b key r) (fun res _ => exists size, res = Ok (object_path b (os_uuids s), size)) s);
    [done|].
  unfold Write. apply wp_bind, wp_check_ctx_run; [done|]. apply wp_bind, wp_lift_result.
  assert (Hres : exists x, resolveKeyPath e b key = Ok x).
  { unfold resolveKeyPath. rewrite Htrim, Hk.
    destruct (String.eqb_spec b "") as [->|_]; [by destruct Hb|]. cbn [result_bind].
    destruct (ValidateKey_plain key Hk) as (Hne & Hn & Hc). unfold StoragePath. rewrite Hc.
    change b with (render_rel [b]). rewrite path_join_rel by (done || by apply Forall_single).
    rewrite join_below by (done || by apply Forall_app; split; [apply Forall_single|]).
    assert (Hall : Forall normal_seg ([b] ++ plain_segs key)) by (apply Forall_app; split; [by apply Forall_single|done]).
    rewrite clean_render by by apply below_normal. rewrite below_within by done. eauto. }
  destruct Hres as [x ->].
  apply wp_bind, wp_new_uuid. rewrite object_join, object_full by done.
  rewrite clean_render by by apply object_full_normal.
  unfold object_file at 1. rewrite below_within by (done || by apply object_segs_normal).
  apply wp_bind, wp_new_uuid. simpl os_uuids. rewrite temp_full. apply wp_bind.
  set (n := os_uuids s) in *. set (s1 := MkOs _ _ _ _).
  pose proof (writeDurably_run (render_abs (temp_file (S n))) (render_abs (object_file b n))
    (fun w => copyWithContext w r 0) s1) as Hrun. cbv zeta in Hrun.
  rewrite abs_segs_temp, abs_segs_object in Hrun by done.
  assert (Hro : removelast (object_file b n) = data_segs e ++ [b]) by apply removelast_snoc2.
  assert (Hrt : removelast (temp_file (S n)) = data_segs e ++ [".tmp"]) by apply removelast_snoc2.
  rewrite Hro, Hrt in Hrun.
  eapply wp_mono; [apply Hrun|]; try done.
  - intros Hin%prefixes_length. unfold temp_file in Hin. rewrite !length_app in Hin. simpl in Hin. lia.
  - intros Hin%prefixes_length. unfold object_file in Hin. rewrite !length_app in Hin. simpl in Hin. lia.
  - unfold object_file. change [b; uuid_of n] with ([b] ++ [uuid_of n]).
    assert (Hdn : Forall normal_seg (data_segs e ++ [b])) by by apply below_normal, Forall_single.
    rewrite app_assoc, path_dir_below by (done || apply uuid_normal). by apply abs_segs_render.
  - by destruct (data_segs e).
  - intros s2 Hf2 Hs2. by apply copy_run_frame.
  - intros [w|err] s2 Hok; [|done]. apply wp_ret. eauto.
Qed.
End EngineFiles.

(** ** Witnesses *)

Fixpoint repeat_byte (n : nat) : string :=
  match n with O => "" | S n => String "a" (repeat_byte n) end.

#[export] Instance sample_uuid : Uuid := fun n => String "u" (repeat_byte n).

#[export] Instance sample_uuid_laws : @UuidLaws sample_uuid.
Proof.
  split.
  - assert (Hl : forall n, String.length (repeat_byte n) = n) by (induction n; simpl; congruence).
    intros n m [= E%(f_equal String.length)]. by rewrite !Hl in E.
  - intros n. split_and!; try (by destruct n). simpl. induction n as [|n IH]; [done|exact IH].
Qed.

#[export] Existing Instance sample_cwd.

(** The data directory after [New]. *)
Definition empty_os : Os := MkOs ∅ {[ [] ]} [] 0.
Definition sample_os : Os := (os_mkdir_all ["srv"; "data"; ".tmp"] empty_os).2.

Lemma empty_os_wf : wf_os empty_os.
Proof.
  split; simpl; [set_solver|..].
  - intros p [[c Hc]|Hp]; [by rewrite lookup_empty in Hc|].
    apply elem_of_singleton in Hp as ->. done.
  - intros p _. apply lookup_empty.
  - intros p [[c Hc]|Hp]; [by rewrite lookup_empty in Hc|].
    by apply elem_of_singleton in Hp as ->.
Qed.

Lemma sample_os_wf : wf_os sample_os.
Proof.
  apply (wf_os_mkdir_all ["srv"; "data"; ".tmp"]); [|apply empty_os_wf]. by_decide.
Qed.

Lemma photos_bucket_dir : bucket_dir "photos".
Proof. split; [by_decide|done]. Qed.

Definition sample_reader : reader := [MkRead "ab" None; MkRead "c" (Some EOF)].

Lemma Write_spec_witness :
  wp (Write sample_engine "photos" "a/b" sample_reader)
     (stored sample_engine "photos" sample_os "abc" (reader_error sample_reader = None)) sample_os.
Proof. apply (Write_spec sample_engine sample_engine_wf "photos" "a/b" sample_reader sample_os photos_bucket_dir). Defined.

Lemma Write_succeeds_witness :
  exists size, (Write sample_engine "photos" "a/b" sample_reader sample_os).1 =
    Ok (object_path "photos" 0, size).
Proof.
  apply (Write_succeeds sample_engine sample_engine_wf "photos" "a/b" sample_reader sample_os).
  - apply photos_bucket_dir.
  - reflexivity.
  - reflexivity.
  - reflexivity.
  - reflexivity.
  - split; [by_decide..|]. intros q Hq. reflexivity.
Defined.

Lemma AssembleParts_spec_witness :
  wp (AssembleParts sample_engine "photos" "a/b" [part_path "up" 1 0; part_path "up" 2 1])
     (fun r s' => exists c, stored sample_engine "photos" sample_os c
        (parts_content sample_engine sample_os [part_path "up" 1 0; part_path "up" 2 1] = Some c) r s')
     sample_os.
Proof.
  apply (AssembleParts_spec sample_engine sample_engine_wf "photos" "a/b"
    [part_path "up" 1 0; part_path "up" 2 1] sample_os photos_bucket_dir).
  intros p full Hp. repeat apply elem_of_cons in Hp as [->|Hp]; [..|by apply not_elem_of_nil in Hp];
    vm_compute; intros [= <-]; vm_compute; congruence.
Defined.
