(* ===== verification/Reconcile.v ===== *)
(** * Reconciliation: [internal/storage/reconcile.go]

    At start-up the server removes the files that the metadata does not know:
    temporary files, object files without a row, and part directories without an
    upload. The callbacks read the metadata, so the code runs on a state [S] of
    which the file system is a part. *)

From S2P Require Import Prelude GoStrings Encoding GoPath Effects Os Sanitize DiskEngine.

Section Reconcile.
Context {S : Type} `{Lens S Os} `{Cwd} (e : engine).

Definition normalizeKnownObjectPath (bucketName storagePath : string) : string :=
  let cleaned := clean storagePath in
  if String.eqb (firstPathElement cleaned) bucketName then cleaned
  else path_join [bucketName; cleaned].

(** [os.Remove], with a missing file counted as removed. *)
Definition remove_ignoring_missing (p : path) : M S unit :=
  let! r := on (os_remove p) in
  match r with
  | Ok _ | Err ErrNotExist => ret tt
  | Err err => fail err
  end.

(** The function that [purgeTmp] walks with; [true] is [filepath.SkipDir]. *)
Definition purge_entry (p : path) (isDir : bool) : M S bool :=
  on check_ctx ;;
  if bool_decide (p = abs_segs (tmpDir e)) then ret false
  else if isDir then
    ret (bool_decide (p = abs_segs (path_join [tmpDir e; "multipart"])))
  else remove_ignoring_missing p ;; ret false.

Definition purgeTmp : M S unit := walk_dir (abs_segs (tmpDir e)) purge_entry.

(** The function that [Reconcile] walks a bucket's directory with. *)
Definition reconcile_entry (knownSet : gset string) (p : path) (isDir : bool) : M S bool :=
  on check_ctx ;;
  if isDir then ret false
  else
    let relPath := clean (path_rel (dataDir e) (render_abs p)) in
    if bool_decide (relPath ∈ knownSet) then ret false
    else remove_ignoring_missing p ;; ret false.

(** The walk that collects the directories; its error is ignored. *)
Fixpoint collect_dirs (entries : list (path * bool)) (dirs : list path) : M S (list path) :=
  match entries with
  | [] => ret dirs
  | (p, true) :: rest =>
      let! r := on (syscall (ret tt)) in
      match r with
      | Ok _ => collect_dirs rest (dirs ++ [p])
      | Err _ => ret (dirs ++ [p])
      end
  | (_, false) :: rest => collect_dirs rest dirs
  end.

Definition pruneEmptyDirs (root : path) : M S unit :=
  let! lstat := on (syscall (ret tt)) in
  match lstat with
  | Err _ => ret tt
  | Ok _ =>
      s <- get_state ;;
      dirs <- collect_dirs (tree_entries (lens_get s) root) [] ;;
      for_each (reverse dirs) (fun dir =>
        if bool_decide (dir = root) then ret tt
        else attempt (on (os_remove dir)) ;; ret tt)
  end.

(** One entry of the data directory. *)
Definition reconcile_bucket (knownObjects : string -> M S (list string))
    (entry : string * bool) : M S unit :=
  let '(name, isDir) := entry in
  on check_ctx ;;
  if negb isDir || String.eqb name ".tmp" then ret tt
  else
    known <- knownObjects name ;;
    let knownSet := list_to_set (normalizeKnownObjectPath name <$> known) in
    let bucketRoot := abs_segs (path_join [dataDir e; name]) in
    walk_dir bucketRoot (reconcile_entry knownSet) ;;
    pruneEmptyDirs bucketRoot.

Definition Reconcile (knownObjects : string -> M S (list string)) : M S unit :=
  on check_ctx ;;
  purgeTmp ;;
  entries <- on (os_read_dir (abs_segs (dataDir e))) ;;
  for_each entries (reconcile_bucket knownObjects).

Definition ReconcileMultipartTmp (knownUploadIDs : M S (list string)) : M S unit :=
  on check_ctx ;;
  known <- knownUploadIDs ;;
  let multipartDir := path_join [tmpDir e; "multipart"] in
  let! entries := on (os_read_dir (abs_segs multipartDir)) in
  match entries with
  | Err ErrNotExist => ret tt
  | Err err => fail err
  | Ok entries =>
      for_each entries (fun '(name, isDir) =>
        on check_ctx ;;
        if negb isDir then ret tt
        else if bool_decide (name ∈ known) then ret tt
        else on (os_remove_all (abs_segs (path_join [multipartDir; name]))))
  end.
End Reconcile.

(** ** What removing promises *)

(** From [s0] to [s] only files in [P] have gone, nothing has been added, and a
    well-formed tree is still one. *)
Record removed (P : path -> Prop) (s0 s : Os) : Prop := {
  rm_frame p : ~ P p -> os_files s !! p = os_files s0 !! p;
  rm_files : os_files s ⊆ os_files s0;
  rm_dirs : os_dirs s ⊆ os_dirs s0;
  rm_wf : wf_os s0 -> wf_os s;
  rm_uuids : os_uuids s = os_uuids s0;
}.

Lemma removed_refl P s : removed P s s.
Proof. done. Qed.

Lemma removed_trans P s1 s2 s3 : removed P s1 s2 -> removed P s2 s3 -> removed P s1 s3.
Proof.
  intros [F1 M1 D1 W1 U1] [F2 M2 D2 W2 U2]. split; [|by etrans|by etrans|auto|by rewrite U2].
  intros p Hp. by rewrite F2, F1.
Qed.

Lemma removed_weaken (P Q : path -> Prop) s s' :
  removed P s s' -> (forall p, P p -> Q p) -> removed Q s s'.
Proof. intros [F Hm D W] HPQ. split; [|done..]. intros p Hp. apply F. naive_solver. Qed.

Lemma removed_files_weaken (P Q : path -> Prop) s s' :
  removed P s s' -> (forall p, is_Some (os_files s !! p) -> P p -> Q p) -> removed Q s s'.
Proof.
  intros [F Hm D W U] HPQ. split; [|done..]. intros p Hp.
  destruct (os_files s !! p) as [c|] eqn:E.
  - rewrite <- E. apply F. intros HP. apply Hp, HPQ; [by exists c|done].
  - destruct (os_files s' !! p) eqn:E'; [|done]. eapply lookup_weaken in E'; [|exact Hm]. congruence.
Qed.

Lemma removed_faults P s fs : removed P s (set_faults fs s).
Proof. split; [by destruct s..|apply wf_os_faults|by destruct s]. Qed.

Lemma removed_None P s s' p : removed P s s' -> os_files s !! p = None -> os_files s' !! p = None.
Proof.
  intros [_ Hf _ _ _] Hp. destruct (os_files s' !! p) eqn:E; [|done].
  eapply lookup_weaken in E; [|exact Hf]. congruence.
Qed.

(** After removing [p], [p] is not a file. *)
Lemma os_remove_removed p s :
  p <> [] ->
  wp (os_remove p) (fun r s' =>
    removed (fun q => q = p) s s' /\
    match r with Ok _ | Err ErrNotExist => os_files s' !! p = None | _ => True end) s.
Proof.
  intros Hne. apply (wp_mono _ (fun r s' => ((forall q, q <> p -> os_files s' !! q = os_files s !! q) /\
    os_files s' ⊆ os_files s /\ os_dirs s' ⊆ os_dirs s /\ os_uuids s' = os_uuids s /\
    match r with Ok _ | Err ErrNotExist => os_files s' !! p = None | _ => True end) /\
    (wf_os s -> wf_os s'))).
  - apply wp_and.
    + apply wp_syscall; intros fs; [done|]. unfold wp. simpl.
      destruct (bool_decide_reflect (is_Some (os_files s !! p))) as [Hs|Hn]; simpl.
      * split_and!; [|apply delete_subseteq|done|done|apply lookup_delete_eq].
        intros q Hq. by rewrite lookup_delete_ne by congruence.
      * apply eq_None_not_Some in Hn. destruct (bool_decide _); simpl; [|done].
        destruct (has_entries _ _); simpl; [done|]. split_and!; [done| | |done..]; [done|].
        intros q Hq. by apply elem_of_difference in Hq as [? _].
    + apply wp_intro. intros r s' E Hs. by eapply (wp_run _ _ _ _ _ E), wf_os_remove.
  - intros r s' [(F & Hm & D & U & Hr) W]. by split.
Qed.

(** Removing what was a directory removes no file. *)
Lemma os_remove_dir_removed p s :
  p <> [] -> os_files s !! p = None ->
  wp (os_remove p) (fun r s' => removed (fun _ => False) s s') s.
Proof.
  intros Hne Hp. eapply wp_mono; [by apply os_remove_removed|]. intros r s' [[F Hf D W U] _].
  split; [|done..]. intros q _. destruct (decide (q = p)) as [->|]; [|by apply F].
  rewrite Hp. destruct (os_files s' !! p) eqn:E; [|done].
  eapply lookup_weaken in E; [|exact Hf]. congruence.
Qed.

Lemma below_nonempty root p : root <> [] -> below root p = true -> p <> [].
Proof. intros Hr [k ->]%bool_decide_eq_true. by destruct root. Qed.

Section Walks.
Context {S : Type} `{Lens S Os}.
Implicit Types s : S.

Abbreviation sremoved P s s' := (removed P (lens_get s) (lens_get s')).

Lemma wp_on_removed {A} (m : M Os A) P (Q : result A -> Os -> Prop) s :
  wp m (fun r o => removed P (lens_get s) o /\ Q r o) (lens_get s) ->
  wp (on m) (fun r s' => sremoved P s s' /\ Q r (lens_get s')) s.
Proof.
  intros Hm. apply wp_on. eapply wp_mono; [exact Hm|]. intros r o Ho. by rewrite lens_get_put.
Qed.

Lemma wp_on_blind {A} (m : M Os A) P s :
  keeps (fun o => exists fs, o = set_faults fs (lens_get s)) m ->
  wp (on m) (fun _ s' => sremoved P s s') s.
Proof.
  intros Hm. apply wp_on. apply wp_keeps_faults; [done|]. intros r fs.
  rewrite lens_get_put. apply removed_faults.
Qed.

Lemma wp_on_syscall P s : wp (on (syscall (ret tt))) (fun _ s' => sremoved P s s') s.
Proof. apply wp_on_blind, blind_syscall; [apply faults_blind|apply keeps_ret]. Qed.

Lemma wp_on_check_ctx P s : wp (on check_ctx) (fun _ s' => sremoved P s s') s.
Proof. apply wp_on_blind, blind_check_ctx, faults_blind. Qed.

Lemma remove_ignoring_missing_removed p s :
  p <> [] ->
  wp (remove_ignoring_missing p) (fun r s' =>
    sremoved (fun q => q = p) s s' /\ (is_ok r = true -> os_files (lens_get s') !! p = None)) s.
Proof.
  intros Hne. unfold remove_ignoring_missing. apply wp_bind, wp_attempt.
  eapply wp_mono; [by apply wp_on_removed, os_remove_removed|].
  intros r s' [Hr Hn]. by destruct r as [|[]].
Qed.

(** What a walk needs of its function on an entry: it removes the entry when it is
    a victim, and it skips the directory [m] only. *)
Definition walk_step (m : path) (V : path -> Prop) (p : path) (isDir : bool) s
    (r : result bool) s' : Prop :=
  sremoved (fun q => q = p /\ isDir = false /\ V p) s s' /\
  match r with
  | Ok skip => (isDir = true -> (skip = true <-> p = m)) /\
               (isDir = false -> V p -> os_files (lens_get s') !! p = None)
  | Err _ => True
  end.

(** Every entry strictly below [m] comes after [m]. *)
Definition ordered (m : path) (skip : list path) (entries : list (path * bool)) : Prop :=
  forall l1 q b l2, entries = l1 ++ (q, b) :: l2 -> strictly_below m q = true ->
    (m, true) ∈ l1 \/ m ∈ skip.

Lemma ordered_tail m skip skip' x entries :
  ordered m skip (x :: entries) -> (x = (m, true) -> m ∈ skip') -> (m ∈ skip -> m ∈ skip') ->
  ordered m skip' entries.
Proof.
  intros Ho Hx Hs l1 q b l2 -> Hb.
  destruct (Ho (x :: l1) q b l2 eq_refl Hb) as [[E|?]%elem_of_cons|?]; auto.
Qed.

Lemma walk_entries_spec m (V : path -> Prop) fn skip entries s :
  (forall d, d ∈ skip -> d = m) -> ordered m skip entries ->
  (forall p isDir s', (p, isDir) ∈ entries -> strictly_below m p = false ->
    wp (fn p isDir) (walk_step m V p isDir s') s') ->
  wp (walk_entries fn skip entries) (fun r s' =>
    sremoved (fun q => (q, false) ∈ entries /\ strictly_below m q = false /\ V q) s s' /\
    (is_ok r = true -> forall q, (q, false) ∈ entries -> V q -> below m q = false ->
      os_files (lens_get s') !! q = None)) s.
Proof.
  revert skip s; induction entries as [|[p isDir] rest IH]; intros skip s Hskip Hord Hfn.
  { split; [apply removed_refl|]. intros _ q Hq. by apply not_elem_of_nil in Hq. }
  cbn [walk_entries].
  assert (Hrest : forall s1 skip', (forall d, d ∈ skip' -> d = m) ->
    (m ∈ skip -> m ∈ skip') -> ((p, isDir) = (m, true) -> m ∈ skip') ->
    sremoved (fun q => (q, false) ∈ (p, isDir) :: rest /\ strictly_below m q = false /\ V q) s s1 ->
    (isDir = false -> V p -> below m p = false -> os_files (lens_get s1) !! p = None) ->
    wp (walk_entries fn skip' rest) (fun r s' =>
      sremoved (fun q => (q, false) ∈ (p, isDir) :: rest /\ strictly_below m q = false /\ V q) s s' /\
      (is_ok r = true -> forall q, (q, false) ∈ (p, isDir) :: rest -> V q -> below m q = false ->
        os_files (lens_get s') !! q = None)) s1).
  { intros s1 skip' Hd Hm Hp H1 Hgone.
    eapply wp_mono; [apply IH; [done|by eapply ordered_tail|]|].
    - intros q b s' Hq. apply Hfn. by right.
    - intros r s' [Hr Hok]. split.
      + eapply removed_trans; [exact H1|]. eapply removed_weaken; [exact Hr|].
        intros q (? & ? & ?). split_and!; [by right|done..].
      + intros Hr' q [[= -> <-]|Hq]%elem_of_cons HV Hb; [|auto].
        eapply removed_None; [exact Hr|]. auto. }
  destruct (existsb (fun d => below d p) skip) eqn:Es.
  { apply existsb_exists in Es as (d & Hd%list_elem_of_In & Hdp).
    pose proof (Hskip d Hd) as ->. apply Hrest; [done|done|done|apply removed_refl|].
    intros _ _ Hb. congruence. }
  assert (Hns : strictly_below m p = false).
  { destruct (strictly_below m p) eqn:Eb; [|done].
    destruct (Hord [] p isDir rest eq_refl Eb) as [Hin|Hin]; [by apply not_elem_of_nil in Hin|].
    apply andb_true_iff in Eb as [Eb _]. apply not_true_iff_false in Es. destruct Es.
    apply existsb_exists. exists m. by rewrite <- list_elem_of_In. }
  apply wp_bind. eapply wp_mono; [apply Hfn; [by left|done]|].
  intros [sk|err] s1 [Hr Hp].
  2: { split; [|done]. eapply removed_weaken; [exact Hr|].
       intros q (-> & -> & HV). split_and!; [by left|done..]. }
  assert (Hr1 : sremoved (fun q => (q, false) ∈ (p, isDir) :: rest /\ strictly_below m q = false /\ V q) s s1).
  { eapply removed_weaken; [exact Hr|]. intros q (-> & -> & HV). split_and!; [by left|done..]. }
  destruct Hp as [Hsk Hgone]. destruct isDir; simpl; [destruct sk|].
  - apply Hrest; [|by right|intros [= ->]; by left|done|done].
    intros d [->|Hd]%elem_of_cons; [by apply Hsk|auto].
  - apply wp_bind. eapply wp_mono; [apply wp_on_syscall|]. intros [[]|err] s2 Hr2.
    + apply Hrest; [done|done| |by eapply removed_trans|done].
      intros [= ->]. destruct (Hsk eq_refl) as [_ Hf]. by specialize (Hf eq_refl).
    + split; [|done]. by eapply removed_trans.
  - apply Hrest; [done|done|done|done|auto].
Qed.
End Walks.

Section WalkDir.
Context {S : Type} `{Lens S Os}.
Implicit Types s : S.

Abbreviation sremoved P s s' := (removed P (lens_get s) (lens_get s')).

(** In the listing of a well-formed tree every directory comes before what it holds. *)
Lemma tree_entries_ordered o root m :
  wf_os o -> below root m = true -> ordered m [] (tree_entries o root).
Proof.
  intros Ho Hrm l1 q b l2 El Hb. left.
  assert (Hq : (q, b) ∈ tree_entries o root) by (rewrite El; set_solver).
  apply elem_of_tree_entries in Hq as [_ Hq].
  assert (Hm : m ∈ os_dirs o).
  { apply (wf_os_above o m q); [done| |done]. by destruct b; [right|left]. }
  assert (Hin : (m, true) ∈ tree_entries o root) by by apply elem_of_tree_entries.
  pose proof Hb as [Hbq Hne%bool_decide_eq_true]%andb_true_iff.
  rewrite El in Hin. apply elem_of_app in Hin as [|[[= -> _]|Hin]%elem_of_cons]; [done..|].
  exfalso. apply list_elem_of_split in Hin as (k1 & k2 & ->).
  apply Hne. eapply (tree_entries_order o root (l1 ++ (q, b) :: k1) m k2 q b); [|set_solver|done].
  by rewrite El, <- app_assoc.
Qed.

(** No entry lies below [m] when the root is not above it. *)
Lemma tree_entries_ordered_outside o root m :
  (forall q, below root q = true -> below m q = false) -> ordered m [] (tree_entries o root).
Proof.
  intros Hout l1 q b l2 El Hb.
  assert (Hq : (q, b) ∈ tree_entries o root) by (rewrite El; set_solver).
  apply elem_of_tree_entries in Hq as [Hq _].
  apply andb_true_iff in Hb as [Hb _]. rewrite Hout in Hb by done. done.
Qed.

(** A walk removes the victims below the root and nothing else. *)
Lemma walk_dir_spec root m (V : path -> Prop) fn s :
  ordered m [] (tree_entries (lens_get s) root) ->
  (forall p isDir s', below root p = true -> strictly_below m p = false ->
    wp (fn p isDir) (walk_step m V p isDir s') s') ->
  wp (walk_dir root fn) (fun r s' =>
    sremoved (fun q => below root q = true /\ strictly_below m q = false /\ V q) s s' /\
    (is_ok r = true -> forall q, below root q = true -> V q -> below m q = false ->
      os_files (lens_get s') !! q = None)) s.
Proof.
  intros Hord Hfn. unfold walk_dir. apply wp_bind, wp_on, wp_syscall; intros fs.
  { rewrite lens_get_put. split; [apply removed_faults|done]. }
  apply wp_ret. set (s1 := lens_put _ s).
  assert (H1 : sremoved (fun _ => False) s s1)
    by (unfold s1; rewrite lens_get_put; apply removed_faults).
  assert (Hord1 : ordered m [] (tree_entries (lens_get s1) root))
    by (unfold s1; by rewrite lens_get_put).
  clearbody s1. apply wp_bind, wp_get_state. clear Hord. rename Hord1 into Hord.
  destruct (tree_entries (lens_get s1) root) as [|x l] eqn:El.
  { apply wp_fail. split; [by eapply removed_weaken|done]. }
  rewrite <- El. rewrite <- El in Hord.
  eapply wp_mono; [apply (walk_entries_spec m V); [|done|]|].
  - intros d Hd. by apply not_elem_of_nil in Hd.
  - intros p isDir s' [Hb _]%elem_of_tree_entries. by apply Hfn.
  - intros r s' [Hr Hok]. split.
    + eapply removed_trans; [by eapply removed_weaken|]. eapply removed_weaken; [exact Hr|].
      by intros q ([Hb _]%elem_of_tree_entries & ? & ?).
    + intros Hr' q Hb HV Hm. destruct (os_files (lens_get s1) !! q) as [c|] eqn:Ec.
      * apply Hok; [done| |done..]. apply elem_of_tree_entries. split; [done|by exists c].
      * by eapply removed_None.
Qed.

Lemma collect_dirs_spec s entries dirs :
  wp (collect_dirs entries dirs) (fun r s' =>
    sremoved (fun _ => False) s s' /\
    match r with Ok l => forall d, d ∈ l -> d ∈ dirs \/ (d, true) ∈ entries | Err _ => True end) s.
Proof.
  revert s dirs; induction entries as [|[p [|]] rest IH]; intros s dirs; cbn [collect_dirs].
  - apply wp_ret. split; [apply removed_refl|auto].
  - apply wp_bind, wp_attempt.
    eapply wp_mono; [apply (wp_on_syscall (fun _ => False))|]. intros [[]|err] s1 H1.
    + eapply wp_mono; [apply IH|]. intros [l|err] s' [H2 Hl]; (split; [by eapply removed_trans|]); [|done].
      intros d [[Hd| ->%list_elem_of_singleton]%elem_of_app|Hd]%Hl; [by left|right; by left|].
      right. by right.
    + apply wp_ret. split; [done|].
      intros d [Hd| ->%list_elem_of_singleton]%elem_of_app; [by left|right; by left].
  - eapply wp_mono; [apply IH|]. intros [l|err] s' [H2 Hl]; (split; [done|]); [|done].
    intros d [Hd|Hd]%Hl; [by left|right; by right].
Qed.

(** Pruning empty directories removes no file of a well-formed tree. *)
Lemma pruneEmptyDirs_spec root o0 s :
  root <> [] -> wf_os o0 -> removed (fun _ => True) o0 (lens_get s) ->
  wp (pruneEmptyDirs root) (fun r s' => sremoved (fun _ => False) s s') s.
Proof.
  intros Hroot Ho0 Hs. unfold pruneEmptyDirs. apply wp_bind, wp_attempt.
  eapply wp_mono; [apply (wp_on_syscall (fun _ => False))|]. intros [[]|err] s1 H1; [|by apply wp_ret].
  apply wp_bind, wp_get_state, wp_bind.
  eapply wp_mono; [apply collect_dirs_spec|]. intros [l|err] s2 [H2 Hl]; [|by eapply removed_trans].
  assert (H02 : removed (fun _ => True) o0 (lens_get s2)).
  { eapply removed_trans; [exact Hs|]. eapply removed_weaken; [by eapply removed_trans|done]. }
  eapply wp_mono; [apply (wp_for_each _ _ (fun s' => sremoved (fun _ => False) s2 s')); [done|]|].
  - intros d s3 Hd H3. destruct (bool_decide (d = root)); [by apply wp_ret|].
    apply wp_bind, wp_attempt. apply wp_on.
    apply elem_of_reverse, Hl in Hd as [Hd|Hd]; [by apply not_elem_of_nil in Hd|].
    apply elem_of_tree_entries in Hd as [Hb Hd].
    eapply wp_mono; [apply os_remove_dir_removed|].
    + by eapply below_nonempty.
    + assert (Hdir : d ∈ os_dirs o0) by (apply (rm_dirs _ _ _ Hs), (rm_dirs _ _ _ H1); done).
      eapply removed_None; [eapply removed_trans; [exact H02|]|by apply (wfo_disjoint o0)].
      by eapply removed_weaken.
    + intros r o Hr. apply wp_ret. rewrite lens_get_put. by eapply removed_trans.
  - intros r s' Hr. eapply removed_trans; [exact H1|]. by eapply removed_trans.
Qed.
End WalkDir.

(** ** What reconciliation promises *)

Section ReconcileSpec.
Context {S : Type} `{Lens S Os} `{Cwd} (e : engine) (We : wf_engine e).
Implicit Types s : S.

Abbreviation sremoved P s s' := (removed P (lens_get s) (lens_get s')).

Definition multipart_dir : path := data_segs e ++ [".tmp"; "multipart"].

(** The temporary files: below [.tmp], except in the directory of the uploads. *)
Definition stale_tmp (p : path) : Prop :=
  below (data_segs e ++ [".tmp"]) p = true /\ strictly_below multipart_dir p = false.

(** The storage paths of a bucket's rows, as the engine compares them. *)
Definition known_paths (known : string -> list string) (b : string) : gset string :=
  list_to_set (normalizeKnownObjectPath b <$> known b).

(** The files of a bucket that no row names. *)
Definition orphan (known : string -> list string) (p : path) : Prop :=
  exists b rest, b <> ".tmp" /\ rest <> [] /\ p = data_segs e ++ b :: rest /\
    render_rel (b :: rest) ∉ known_paths known b.

Lemma abs_segs_tmp : abs_segs (tmpDir e) = data_segs e ++ [".tmp"].
Proof using We.
  rewrite tmp_dir_render by done. apply abs_segs_render, below_normal, Forall_single, tmp_normal.
Qed.

Lemma abs_segs_multipart : abs_segs (path_join [tmpDir e; "multipart"]) = multipart_dir.
Proof using We.
  assert (Hm : Forall normal_seg ["multipart"]) by (apply Forall_single; by_decide).
  assert (Ht : Forall normal_seg (data_segs e ++ [".tmp"]))
    by apply below_normal, Forall_single, tmp_normal.
  assert (Hmd : Forall normal_seg multipart_dir).
  { apply below_normal. constructor; [apply tmp_normal|done]. }
  rewrite tmp_dir_render by done. change "multipart" with (render_rel ["multipart"]).
  rewrite path_join_abs_rel by done. rewrite <- app_assoc. by apply abs_segs_render.
Qed.

Lemma abs_segs_bucket b :
  normal_seg b -> abs_segs (path_join [dataDir e; b]) = data_segs e ++ [b].
Proof using We.
  intros Hb. change b with (render_rel [b]) at 1.
  rewrite join_below by (done || by apply Forall_single).
  by apply abs_segs_render, below_normal, Forall_single.
Qed.

Lemma removed_only_files P s s' :
  sremoved P s s' -> wf_os (lens_get s) ->
  forall p, is_Some (os_files (lens_get s') !! p) -> Forall normal_seg p.
Proof.
  intros Hr Hs p [c Hc]. apply (wfo_normal _ Hs). left. exists c.
  by eapply lookup_weaken; [|apply (rm_files _ _ _ Hr)].
Qed.

Lemma purgeTmp_spec s :
  wf_os (lens_get s) ->
  wp (purgeTmp e) (fun r s' =>
    sremoved stale_tmp s s' /\
    (is_ok r = true -> forall p, below (data_segs e ++ [".tmp"]) p = true ->
      below multipart_dir p = false -> p <> data_segs e ++ [".tmp"] ->
      os_files (lens_get s') !! p = None)) s.
Proof using We.
  intros Hs. unfold purgeTmp. rewrite abs_segs_tmp.
  eapply wp_mono; [apply (walk_dir_spec _ multipart_dir (fun p => p <> data_segs e ++ [".tmp"]))|].
  - apply tree_entries_ordered; [done|].
    apply bool_decide_eq_true. exists ["multipart"]. unfold multipart_dir. by rewrite <- app_assoc.
  - intros p isDir s' Hb _. unfold purge_entry. apply wp_bind.
    eapply wp_mono; [apply (wp_on_check_ctx (fun _ => False))|].
    intros [[]|err] s1 H1; [|split; [by eapply removed_weaken|done]].
    rewrite abs_segs_tmp, abs_segs_multipart.
    case_bool_decide as Et.
    { apply wp_ret. split; [by eapply removed_weaken|]. split; [|done].
      intros _. split; [done|]. intros Em. rewrite Et in Em. unfold multipart_dir in Em.
      by apply app_inv_head in Em. }
    destruct isDir.
    { apply wp_ret. split; [by eapply removed_weaken|]. split; [|done].
      intros _. by rewrite bool_decide_eq_true. }
    apply wp_bind. eapply wp_mono; [apply remove_ignoring_missing_removed; eapply below_nonempty; [|exact Hb]; by destruct (data_segs e)|].
    intros [[]|err] s2 [H2 Hn].
    + apply wp_ret. split; [|by split; [|auto]].
      eapply removed_trans; [by eapply removed_weaken|]. eapply removed_weaken; [exact H2|]. by intros q ->.
    + split; [|done].
      eapply removed_trans; [by eapply removed_weaken|]. eapply removed_weaken; [exact H2|]. by intros q ->.
  - intros r s' [Hr Hok]. split.
    + eapply removed_weaken; [exact Hr|]. intros q (? & ? & ?). done.
    + intros Hr' p Hp Hm Hne. by apply Hok.
Qed.

(** A loop whose body removes and establishes [D] for its element. *)
Lemma wp_for_each_removed {A} (l : list A) (f : A -> M S unit) (P : path -> Prop)
    (D : A -> Os -> Prop) s :
  (forall x o o', D x o -> removed P o o' -> D x o') ->
  (forall x s', x ∈ l -> sremoved P s s' ->
    wp (f x) (fun r s'' => sremoved P s' s'' /\ (is_ok r = true -> D x (lens_get s''))) s') ->
  wp (for_each l f) (fun r s' =>
    sremoved P s s' /\ (is_ok r = true -> forall x, x ∈ l -> D x (lens_get s'))) s.
Proof.
  intros HD. revert s; induction l as [|x l IH]; intros s Hf; cbn [for_each].
  { apply wp_ret. split; [apply removed_refl|]. intros _ y Hy. by apply not_elem_of_nil in Hy. }
  apply wp_bind. eapply wp_mono; [apply Hf; [by left|apply removed_refl]|].
  intros [[]|err] s1 [H1 Hx]; [|done].
  eapply wp_mono; [apply IH|].
  - intros y s' Hy Hr. apply Hf; [by right|by eapply removed_trans].
  - intros r s' [Hr Hok]. split; [by eapply removed_trans|].
    intros Hr' y [->|Hy]%elem_of_cons; [|auto]. eapply HD; [|exact Hr]. auto.
Qed.

Lemma below_app a b p : below (a ++ b) p = true -> below a p = true.
Proof. intros [k ->]%bool_decide_eq_true. apply bool_decide_eq_true. exists (b ++ k). by rewrite app_assoc. Qed.

Lemma below_bucket b p :
  below (data_segs e ++ [b]) p = true <-> exists rest, p = data_segs e ++ b :: rest.
Proof.
  unfold below. rewrite bool_decide_eq_true. split; intros [k ->]; exists k; by rewrite <- app_assoc.
Qed.

(** The relative path that the walk compares. *)
Lemma rel_path_below segs :
  segs <> [] -> Forall normal_seg segs ->
  clean (path_rel (dataDir e) (render_abs (data_segs e ++ segs))) = render_rel segs.
Proof using We.
  intros Hne Hs. rewrite (data_dir_render e We) at 1.
  rewrite path_rel_below by (done || apply data_segs_normal). by apply clean_render_rel.
Qed.

Section Buckets.
Context (known : string -> list string) (knownObjects : string -> M S (list string)).

(** The callback reads the metadata: it leaves the files alone, and a success
    lists the storage paths of the bucket's rows. *)
Context (callback : forall b s, wp (knownObjects b) (fun r s' =>
  lens_get s' = lens_get s /\ (forall l, r = Ok l -> l = known b)) s).

Lemma reconcile_bucket_spec name isDir o0 s :
  wf_os o0 -> removed (fun _ => True) o0 (lens_get s) ->
  (isDir = true -> normal_seg name /\ data_segs e ++ [name] ∈ os_dirs o0) ->
  wp (reconcile_bucket e knownObjects (name, isDir)) (fun r s' =>
    sremoved (orphan known) s s' /\
    (is_ok r = true -> isDir = true -> name <> ".tmp" -> forall p,
      below (data_segs e ++ [name]) p = true -> orphan known p ->
      os_files (lens_get s') !! p = None)) s.
Proof using We callback.
  intros Ho0 Hs Hname. unfold reconcile_bucket. apply wp_bind.
  eapply wp_mono; [apply (wp_on_check_ctx (fun _ => False))|].
  intros [[]|err] s1 H1; [|split; [by eapply removed_weaken|done]].
  destruct isDir; cbn [negb orb]; [|apply wp_ret; split; [by eapply removed_weaken|done]].
  destruct (Hname eq_refl) as [Hn Hdir].
  destruct (String.eqb_spec name ".tmp") as [->|Hnt].
  { apply wp_ret. split; [by eapply removed_weaken|done]. }
  apply wp_bind. eapply wp_mono; [apply callback|]. intros [l|err] s2 [E2 Hl].
  2: { rewrite E2. split; [by eapply removed_weaken|done]. }
  rewrite (Hl l eq_refl). rewrite abs_segs_bucket by done. apply wp_bind.
  assert (H12 : sremoved (fun _ => False) s s2) by by rewrite E2.
  assert (H02 : removed (fun _ => True) o0 (lens_get s2)).
  { eapply removed_trans; [exact Hs|]. by eapply removed_weaken. }
  assert (Horph : forall p, is_Some (os_files o0 !! p) -> below (data_segs e ++ [name]) p = true ->
    (orphan known p <->
     clean (path_rel (dataDir e) (render_abs p)) ∉ known_paths known name)).
  { intros p Hp [rest ->]%below_bucket.
    assert (Hnorm : Forall normal_seg (name :: rest)).
    { pose proof (wfo_normal o0 Ho0 _ (or_introl Hp)) as Hf. by apply Forall_app in Hf as [_ ?]. }
    rewrite rel_path_below by done. split.
    - by intros (b & rest' & _ & _ & [= <- <-]%app_inv_head & Hk).
    - intros Hk. exists name, rest. split_and!; [done| |done|done].
      intros ->. rewrite (wfo_disjoint o0 Ho0) in Hp by done. by destruct Hp. }
  eapply wp_mono; [apply (walk_dir_spec (data_segs e ++ [name]) multipart_dir
    (fun p => clean (path_rel (dataDir e) (render_abs p)) ∉ known_paths known name))|].
  - apply tree_entries_ordered_outside. intros q [rest ->]%below_bucket.
    apply bool_decide_eq_false. unfold multipart_dir. intros Hpre%prefix_app_inv.
    by apply prefix_cons_inv_1 in Hpre.
  - intros p isDir s' Hb _. unfold reconcile_entry. apply wp_bind.
    eapply wp_mono; [apply (wp_on_check_ctx (fun _ => False))|].
    intros [[]|err] s3 H3; [|split; [by eapply removed_weaken|done]].
    destruct isDir.
    { apply wp_ret. split; [by eapply removed_weaken|]. split; [|done]. intros _.
      split; [done|]. intros ->. apply below_bucket in Hb as [rest Hb].
      by apply app_inv_head in Hb as [= ?]. }
    fold (known_paths known name). case_bool_decide as Ek.
    { apply wp_ret. split; [by eapply removed_weaken|]. split; [done|]. intros _ Hk. by destruct Hk. }
    apply wp_bind. eapply wp_mono; [apply remove_ignoring_missing_removed; eapply below_nonempty; [|exact Hb]; by destruct (data_segs e)|].
    assert (Hrm : forall s4, sremoved (fun q => q = p) s3 s4 ->
      sremoved (fun q => q = p /\ false = false /\
        clean (path_rel (dataDir e) (render_abs p)) ∉ known_paths known name) s' s4).
    { intros s4 H4. eapply removed_trans; [by eapply removed_weaken|].
      eapply removed_weaken; [exact H4|]. by intros q ->. }
    intros [[]|err] s4 [H4 Hg].
    + apply wp_ret. split; [by apply Hrm|]. split; [done|auto].
    + split; [by apply Hrm|done].
  - intros r s3 [H3 Hok].
    assert (H23 : sremoved (orphan known) s2 s3).
    { eapply removed_files_weaken; [exact H3|]. intros p Hp (Hb & _ & HV).
      apply Horph; [|done..]. destruct Hp as [c Hc]. exists c.
      eapply lookup_weaken; [exact Hc|]. apply (rm_files _ _ _ H02). }
    assert (H03 : sremoved (orphan known) s s3) by (eapply removed_trans; [by eapply removed_weaken|done]).
    destruct r as [[]|err]; [|done].
    eapply wp_mono; [apply (pruneEmptyDirs_spec _ o0); [by destruct (data_segs e)|done|]|].
    { eapply removed_trans; [exact H02|]. by eapply removed_weaken. }
    intros r s4 H4. split; [eapply removed_trans; [exact H03|eapply removed_weaken; [exact H4|done]]|].
    intros _ _ _ p Hb Ho. eapply removed_None; [exact H4|].
    destruct (os_files o0 !! p) as [c|] eqn:Ec.
    + apply Hok; [done|done| |].
      * apply Horph; [by exists c|done..].
      * apply below_bucket in Hb as [rest ->]. apply bool_decide_eq_false.
        unfold multipart_dir. intros Hpre%prefix_app_inv. by apply prefix_cons_inv_1 in Hpre.
    + eapply removed_None; [|exact Ec]. eapply removed_trans; [exact H02|]. by eapply removed_weaken.
Qed.

(** The loop over the buckets removes the orphans, all of them when it succeeds. *)
Lemma reconcile_buckets_spec entries s2 s3 :
  wf_os (lens_get s2) -> sremoved (fun _ => False) s2 s3 ->
  (forall x (isDir : bool), (x, isDir) ∈ entries <->
    if isDir then data_segs e ++ [x] ∈ os_dirs (lens_get s2)
    else is_Some (os_files (lens_get s2) !! (data_segs e ++ [x]))) ->
  wp (for_each entries (reconcile_bucket e knownObjects)) (fun r s4 =>
    sremoved (orphan known) s2 s4 /\
    (is_ok r = true -> forall p, is_Some (os_files (lens_get s4) !! p) -> ~ orphan known p)) s3.
Proof using We callback.
  intros Hs2 H23 Hent.
  eapply wp_mono; [apply (wp_for_each_removed entries _ (orphan known) (fun x o =>
    x.2 = true -> x.1 <> ".tmp" -> forall p, below (data_segs e ++ [x.1]) p = true ->
    orphan known p -> os_files o !! p = None))|].
  - intros x o o' HD Hr Hd Hn p Hb Ho. eapply removed_None; [exact Hr|auto].
  - intros [name isDir] s' Hin Hr. apply (reconcile_bucket_spec _ _ (lens_get s2)); [done| |].
    + eapply removed_trans; [by eapply removed_weaken|]. by eapply removed_weaken.
    + intros ->. apply Hent in Hin. split; [|done].
      pose proof (wfo_normal _ Hs2 _ (or_intror Hin)) as Hf.
      by apply Forall_app in Hf as [_ [? _]%Forall_cons].
  - intros r s4 [H4 Hok].
    assert (H24 : sremoved (orphan known) s2 s4) by (eapply removed_trans; [by eapply removed_weaken|done]).
    split; [done|]. intros Hr p [c Hc] Ho. pose proof Ho as (b & rest & Hb & Hne & -> & _).
    assert (Hbelow : below (data_segs e ++ [b]) (data_segs e ++ b :: rest) = true)
      by (apply below_bucket; by exists rest).
    assert (Hdir : data_segs e ++ [b] ∈ os_dirs (lens_get s2)).
    { apply (wf_os_above _ _ (data_segs e ++ b :: rest) Hs2).
      - left. exists c. by eapply lookup_weaken; [|apply (rm_files _ _ _ H24)].
      - apply andb_true_iff. split; [done|]. apply bool_decide_eq_true. intros E%app_inv_head. by simplify_eq. }
    assert (Hin : (b, true) ∈ entries) by by apply Hent.
    by rewrite (Hok Hr (b, true) Hin eq_refl Hb _ Hbelow Ho) in Hc.
Qed.

(** What [Reconcile] promises of a run from [s] to [s']. *)
Definition reconciled (s : Os) (r : result unit) (s' : Os) : Prop :=
  removed (fun p => stale_tmp p \/ orphan known p) s s' /\
  (is_ok r = true -> forall p, is_Some (os_files s' !! p) ->
    ~ orphan known p /\
    (below (data_segs e ++ [".tmp"]) p = true ->
     below multipart_dir p = true \/ p = data_segs e ++ [".tmp"])).

Lemma wp_Reconcile s :
  wf_os (lens_get s) -> wp (Reconcile e knownObjects) (fun r s' => reconciled (lens_get s) r (lens_get s')) s.
Proof using We callback.
  intros Hs. set (P := fun p => stale_tmp p \/ orphan known p).
  unfold Reconcile. apply wp_bind, wp_on, wp_check_ctx; intros fs.
  { rewrite lens_get_put. split; [apply removed_faults|done]. }
  set (s1 := lens_put _ s).
  assert (H1 : sremoved P s s1) by (unfold s1; rewrite lens_get_put; apply removed_faults).
  clearbody s1. apply wp_bind.
  eapply wp_mono; [apply purgeTmp_spec; by apply (rm_wf _ _ _ H1)|].
  intros r s2 [H2 Htmp].
  assert (H02 : sremoved P s s2).
  { eapply removed_trans; [exact H1|]. eapply removed_weaken; [exact H2|]. by left. }
  destruct r as [[]|err]; [|done].
  assert (Hs2 : wf_os (lens_get s2)) by by apply (rm_wf _ _ _ H02).
  apply wp_bind, wp_on. eapply wp_mono; [apply os_read_dir_spec|].
  intros r o [[fs2 ->] Hent]. set (s3 := lens_put _ s2).
  assert (H23 : sremoved (fun _ => False) s2 s3) by (unfold s3; rewrite lens_get_put; apply removed_faults).
  clearbody s3.
  assert (H03 : sremoved P s s3) by (eapply removed_trans; [exact H02|by eapply removed_weaken]).
  destruct r as [entries|err]; [|done].
  eapply wp_mono; [by apply (reconcile_buckets_spec entries s2)|]. intros r s4 [H24 Hok].
  split. { eapply removed_trans; [exact H02|]. eapply removed_weaken; [exact H24|]. by right. }
  intros Hr p Hp. split; [by apply Hok|]. intros Hb.
  destruct (below multipart_dir p) eqn:Em; [by left|]. right.
  destruct (decide (p = data_segs e ++ [".tmp"])) as [|Hne]; [done|].
  apply (Htmp eq_refl) in Hb; [|done..]. eapply removed_None in Hb; [|exact H24]. rewrite Hb in Hp. by destruct Hp.
Qed.

(** C17: reconciliation removes exactly the orphans. On a well-formed tree,
    whatever calls fail, [Reconcile] removes no file but temporary ones (below
    [.tmp], outside the directory of the multipart uploads) and object files that
    no row of their bucket names, and it adds none; when it succeeds, every file
    left is neither. *)
Theorem Reconcile_spec s :
  wf_os (lens_get s) ->
  wp (Reconcile e knownObjects) (fun r s' =>
    sremoved (fun p => stale_tmp p \/ orphan known p) s s' /\
    (is_ok r = true -> forall p, is_Some (os_files (lens_get s') !! p) ->
      ~ orphan known p /\
      (below (data_segs e ++ [".tmp"]) p = true ->
       below multipart_dir p = true \/ p = data_segs e ++ [".tmp"]))) s.
Proof using We callback. exact (wp_Reconcile s). Qed.
End Buckets.

(** [ReconcileMultipartTmp] removes the directories of unknown uploads only. *)
Definition unknown_upload (known : list string) (p : path) : Prop :=
  exists up, (up ∉ known) /\ below (multipart_dir ++ [up]) p = true.

Context (uploads : list string) (knownUploadIDs : M S (list string)).
Context (callback : forall s, wp knownUploadIDs (fun r s' =>
  lens_get s' = lens_get s /\ (forall l, r = Ok l -> l = uploads)) s).

Lemma os_remove_all_removed dir (o : Os) :
  dir <> [] ->
  wp (os_remove_all dir) (fun r o' =>
    removed (fun p => below dir p = true) o o' /\
    (is_ok r = true -> forall p, below dir p = true -> os_files o' !! p = None)) o.
Proof.
  intros Hne. apply (wp_mono _ (fun r o' => ((forall p, below dir p <> true -> os_files o' !! p = os_files o !! p) /\
    os_files o' ⊆ os_files o /\ os_dirs o' ⊆ os_dirs o /\ os_uuids o' = os_uuids o /\
    (is_ok r = true -> forall p, below dir p = true -> os_files o' !! p = None)) /\ (wf_os o -> wf_os o'))).
  - apply wp_and; [|apply wp_intro; intros r o' E Ho; by eapply (wp_run _ _ _ _ _ E), wf_os_remove_all].
    unfold os_remove_all. apply wp_bind, wp_pop_fault. intros [n|] fs; unfold wp; simpl.
    + split_and!; [|induction (take n _) as [|q l IH]; [done|]; simpl; etrans; [apply delete_subseteq|done]|done..].
      intros p Hp. apply lookup_foldr_delete_not_elem_of. intros Hin%elem_of_take.
      destruct Hin as (i & Hi & _). by apply list_elem_of_lookup_2, list_elem_of_filter in Hi as [? _].
    + split_and!; [|apply map_filter_subseteq| |done|].
      * intros p Hp. apply option_eq. intros c. rewrite map_lookup_filter_Some. simpl.
        apply not_true_iff_false in Hp. split; [by intros [? _]|by intros ?].
      * intros d [_ Hd]%elem_of_filter. done.
      * intros _ p Hp. apply map_lookup_filter_None. right. intros c _. simpl. congruence.
  - intros r o' [(F & Hm & D & U & Hr) W]. by split.
Qed.

(** One entry of the directory of uploads. *)
Lemma remove_unknown_spec name isDir s :
  normal_seg name -> Forall normal_seg multipart_dir ->
  wp (on check_ctx ;;
      if negb isDir then ret tt
      else if bool_decide (name ∈ uploads) then ret tt
      else on (os_remove_all (abs_segs (path_join [path_join [tmpDir e; "multipart"]; name])))) (fun r s' =>
    sremoved (unknown_upload uploads) s s' /\
    (is_ok r = true -> isDir = true -> name ∉ uploads ->
     forall p, below (multipart_dir ++ [name]) p = true -> os_files (lens_get s') !! p = None)) s.
Proof using We.
  intros Hname Hmd. apply wp_bind. eapply wp_mono; [apply (wp_on_check_ctx (unknown_upload uploads))|].
  intros [[]|err] s1 H1; [|done]. destruct isDir; cbn [negb]; [|by apply wp_ret].
  case_bool_decide as Hk; [by apply wp_ret|].
  assert (Ej : path_join [path_join [tmpDir e; "multipart"]; name] = render_abs (multipart_dir ++ [name])).
  { assert (Em : path_join [tmpDir e; "multipart"] = render_abs multipart_dir).
    { rewrite tmp_dir_render by done. change "multipart" with (render_rel ["multipart"]).
      rewrite path_join_abs_rel; [by rewrite <- app_assoc|done| |].
      - by apply below_normal, Forall_single, tmp_normal.
      - apply Forall_single. by_decide. }
    rewrite Em. change name with (render_rel [name]) at 1.
    rewrite path_join_abs_rel; [done|done|done|by apply Forall_single]. }
  rewrite Ej, abs_segs_render by (apply Forall_app; split; [done|by apply Forall_single]).
  assert (Hne : multipart_dir ++ [name] <> []) by (intros E; by apply app_eq_nil in E as [_ ?]).
  eapply wp_mono; [apply (wp_on_removed _ (unknown_upload uploads) (fun r o => is_ok r = true ->
    forall p, below (multipart_dir ++ [name]) p = true -> os_files o !! p = None));
    eapply wp_mono; [by apply os_remove_all_removed|]|].
  - intros r o [Ho Hr]. split; [|exact Hr]. eapply removed_weaken; [exact Ho|]. intros p Hp. by exists name.
  - intros r s2 [H2 Hr]. split; [by eapply removed_trans|]. intros Hok _ _ p Hp. by apply Hr.
Qed.

(** Whatever fails, only files of unknown uploads go; a success leaves none of them. *)
Lemma ReconcileMultipartTmp_spec s :
  wf_os (lens_get s) ->
  wp (ReconcileMultipartTmp e knownUploadIDs) (fun r s' =>
    sremoved (unknown_upload uploads) s s' /\
    (is_ok r = true -> forall up rest, rest <> [] ->
      is_Some (os_files (lens_get s') !! (multipart_dir ++ up :: rest)) -> up ∈ uploads)) s.
Proof using We callback.
  intros Hs. unfold ReconcileMultipartTmp. apply wp_bind.
  eapply wp_mono; [apply (wp_on_check_ctx (unknown_upload uploads))|]. intros [[]|err] s1 H1; [|done].
  apply wp_bind. eapply wp_mono; [apply callback|].
  intros [l|err] s2 [E2 Hl]; [|by rewrite E2]. rewrite (Hl l eq_refl), abs_segs_multipart. clear l Hl.
  assert (H2 : sremoved (unknown_upload uploads) s s2) by by rewrite E2.
  assert (Hs2 : wf_os (lens_get s2)) by by apply (rm_wf _ _ _ H2).
  apply wp_bind, wp_attempt, wp_on. eapply wp_mono; [apply os_read_dir_spec|].
  intros r o [[fs ->] Hent]. set (s3 := lens_put _ s2).
  assert (H23 : sremoved (unknown_upload uploads) s2 s3) by (unfold s3; rewrite lens_get_put; apply removed_faults).
  assert (Habove : forall s' up rest, sremoved (unknown_upload uploads) s2 s' -> rest <> [] ->
            is_Some (os_files (lens_get s') !! (multipart_dir ++ up :: rest)) ->
            multipart_dir ++ [up] ∈ os_dirs (lens_get s2)).
  { intros s' up rest Hr Hne [c Hc]. apply (wf_os_above _ _ (multipart_dir ++ up :: rest) Hs2).
    - left. exists c. by eapply lookup_weaken; [|apply (rm_files _ _ _ Hr)].
    - apply andb_true_iff. split; apply bool_decide_eq_true; [exists rest; by rewrite <- app_assoc|].
      intros E%app_inv_head. by simplify_eq. }
  clearbody s3. assert (H3 : sremoved (unknown_upload uploads) s s3) by by eapply removed_trans.
  destruct r as [entries|err].
  2: { destruct err; try (apply wp_fail; by split). apply wp_ret. split; [done|]. intros _ up rest Hne Hp.
       destruct Hent. eapply wf_os_above; [exact Hs2|right; by eapply Habove|].
       apply andb_true_iff. split; apply bool_decide_eq_true; [by exists [up]|]. intros E.
       apply (f_equal length) in E. rewrite length_app in E. simpl in E. lia. }
  eapply wp_mono; [apply (wp_for_each_removed entries _ (unknown_upload uploads) (fun x o => x.2 = true ->
    x.1 ∉ uploads -> forall p, below (multipart_dir ++ [x.1]) p = true -> os_files o !! p = None))|].
  - intros x o o' HD Hr Hd Hn p Hb. eapply removed_None; [exact Hr|auto].
  - intros [name isDir] s' Hin Hr. apply Hent in Hin.
    assert (Hn : Forall normal_seg (multipart_dir ++ [name])).
    { apply (wfo_normal _ Hs2). by destruct isDir; [right|left]. }
    apply Forall_app in Hn as [Hmd [Hname _]%Forall_cons]. by apply remove_unknown_spec.
  - intros r s4 [H4 Hok]. split; [by eapply removed_trans|]. intros Hr up rest Hne Hp.
    destruct (decide (up ∈ uploads)) as [|Hup]; [done|]. exfalso.
    assert (Hin : (up, true) ∈ entries) by (apply Hent; eapply Habove; [by eapply removed_trans|done..]).
    rewrite (Hok Hr (up, true) Hin eq_refl Hup) in Hp; [by destruct Hp|].
    apply bool_decide_eq_true. exists rest. by rewrite <- app_assoc.
Qed.
End ReconcileSpec.

(** ** Callbacks that agree

    Reconciliation changes the file system only, so what the callbacks do in states
    with other metadata does not matter. *)

Section Agree.
Context {S : Type} `{Lens S Os} `{Cwd} (e : engine).
Context (J : S -> Prop) (Hon : forall A (m : M Os A), keeps J (on m)).

(** The two computations agree where [J] holds, and keep it. *)
Definition agree {A} (m m' : M S A) : Prop := keeps J m /\ forall s, J s -> m s = m' s.

Lemma agree_keeps {A} (m : M S A) : keeps J m -> agree m m.
Proof. by split. Qed.

Lemma agree_bind {A B} (m m' : M S A) (k k' : A -> M S B) :
  agree m m' -> (forall a, agree (k a) (k' a)) -> agree (bind m k) (bind m' k').
Proof.
  intros [Hm Em] Hk. split; [apply keeps_bind; [done|intros a; apply Hk]|].
  intros s Hs. unfold bind. rewrite <- Em by done. pose proof (Hm s Hs) as Hs'. unfold wp in Hs'.
  destruct (m s) as [[a|err] s']; [|done]. by apply (Hk a).
Qed.

Lemma agree_for_each {A} (l : list A) (f f' : A -> M S unit) :
  (forall x, agree (f x) (f' x)) -> agree (for_each l f) (for_each l f').
Proof.
  intros Hf. induction l as [|x l IH]; cbn [for_each]; [apply agree_keeps, keeps_ret|].
  apply agree_bind; [apply Hf|]. intros _. exact IH.
Qed.

Lemma keeps_walk_entries fn skip entries :
  (forall p isDir, keeps J (fn p isDir)) -> keeps J (walk_entries fn skip entries).
Proof.
  intros Hf. revert skip; induction entries as [|[p isDir] rest IH]; intros skip; cbn [walk_entries]; keeps_steps;
    first [apply Hf | apply IH | apply Hon].
Qed.

Lemma keeps_walk_dir root fn : (forall p isDir, keeps J (fn p isDir)) -> keeps J (walk_dir root fn).
Proof. intros Hf. unfold walk_dir. keeps_steps; first [apply Hon | by apply keeps_walk_entries]. Qed.

Lemma keeps_pruneEmptyDirs root : keeps J (pruneEmptyDirs root).
Proof.
  unfold pruneEmptyDirs. keeps_steps; try apply Hon.
  generalize (@nil path). match goal with |- forall dirs, keeps J (collect_dirs ?l dirs) => induction l as [|[p [|]] rest IH] end;
    intros dirs; cbn [collect_dirs]; keeps_steps; first [apply Hon | apply IH].
Qed.

Lemma keeps_remove_ignoring p : keeps J (remove_ignoring_missing p).
Proof. unfold remove_ignoring_missing. keeps_steps; apply Hon. Qed.

Lemma Reconcile_agree (k k' : string -> M S (list string)) :
  (forall b, agree (k b) (k' b)) -> agree (Reconcile e k) (Reconcile e k').
Proof.
  intros Hk. unfold Reconcile. apply agree_bind; [by apply agree_keeps, Hon|intros _].
  apply agree_bind; [apply agree_keeps|intros _].
  { apply keeps_walk_dir. intros p isDir. unfold purge_entry. keeps_steps; first [apply Hon | apply keeps_remove_ignoring]. }
  apply agree_bind; [by apply agree_keeps, Hon|intros entries]. apply agree_for_each. intros [name isDir].
  unfold reconcile_bucket. apply agree_bind; [by apply agree_keeps, Hon|intros _].
  destruct (_ || _)%bool; [apply agree_keeps, keeps_ret|]. apply agree_bind; [apply Hk|intros known].
  apply agree_keeps. apply keeps_bind; [|intros _; apply keeps_pruneEmptyDirs].
  apply keeps_walk_dir. intros p isDir'. unfold reconcile_entry.
  keeps_steps; first [apply Hon | apply keeps_remove_ignoring].
Qed.

Lemma ReconcileMultipartTmp_agree (k k' : M S (list string)) :
  agree k k' -> agree (ReconcileMultipartTmp e k) (ReconcileMultipartTmp e k').
Proof.
  intros Hk. unfold ReconcileMultipartTmp. apply agree_bind; [by apply agree_keeps, Hon|intros _].
  apply agree_bind; [done|intros known]. apply agree_keeps. cbv zeta. keeps_steps; apply Hon.
Qed.
End Agree.

(** ** Witness *)

Lemma Reconcile_spec_witness :
  wp (Reconcile (S := Os) sample_engine (fun b => ret [object_path b 0])) (fun r s' =>
    removed (fun p => stale_tmp sample_engine p \/ orphan sample_engine (fun b => [object_path b 0]) p)
      sample_os s' /\
    (is_ok r = true -> forall p, is_Some (os_files s' !! p) ->
      ~ orphan sample_engine (fun b => [object_path b 0]) p /\
      (below (data_segs sample_engine ++ [".tmp"]) p = true ->
       below (multipart_dir sample_engine) p = true \/ p = data_segs sample_engine ++ [".tmp"]))) sample_os.
Proof.
  refine (Reconcile_spec (S := Os) sample_engine sample_engine_wf (fun b => [object_path b 0])
    (fun b => ret [object_path b 0]) _ sample_os _).
  - intros b s. split; [reflexivity|]. intros l [= <-]. reflexivity.
  - apply sample_os_wf.
Defined.
