(* ===== verification/WriteTimeout.v ===== *)
(** * The write idle timeout: [internal/http/write_timeout.go]

    The connection of an HTTP response whose deadline is renewed as long as bytes get
    through. What the connection below does - how much of a write it sends, when it
    times out, how far it reads a file ahead - is an oracle of events. *)

From S2P Require Import Prelude GoStrings Effects DiskEngine.

#[local] Open Scope Z_scope.

(** An error whose [Timeout] method answers true. *)
Definition ErrDeadlineExceeded : error := ErrOther "i/o timeout".
Definition ErrShortWrite : error := ErrOther "short write".

(** What a call that sends does: the bytes it sends, the bytes of the file it consumes,
    its error, and the time it takes. A call that sets a deadline or seeks takes no time;
    with an error it fails. *)
Record event : Type := MkEvent { ev_sent : nat; ev_ahead : nat; ev_error : option error; ev_elapsed : Z }.

(** One attempt to send: when it began, the deadline then, the bytes sent, the error. *)
Record attempt_log : Type := MkAttempt {
  at_time : Z;
  at_deadline : option Z;
  at_sent : nat;
  at_error : option error;
}.

(** The file that a response is copied from, with the limit of an [io.LimitedReader]. *)
Record Source : Type := MkSource { src_content : string; src_offset : nat; src_limit : option nat }.

Definition no_source : Source := MkSource "" 0 None.

(** [writeTimeoutConn]: its [idleTimeout], and the connection below with the bytes it has
    sent, its deadline, and the attempts made; what the next calls will do ([None]: all
    that they are asked for). *)
Record Conn : Type := MkConn {
  cn_idle_timeout : Z;
  cn_sent : string;
  cn_deadline : option Z;
  cn_clock : Z;
  cn_log : list attempt_log;
  cn_source : Source;
  cn_events : list (option event);
}.

Definition next_event : M Conn (option event) := fun c =>
  match cn_events c with
  | [] => (Ok None, c)
  | ev :: evs => (Ok ev, MkConn (cn_idle_timeout c) (cn_sent c) (cn_deadline c) (cn_clock c) (cn_log c) (cn_source c) evs)
  end.

Definition time_now : M Conn Z := fun c => (Ok (cn_clock c), c).
Definition load_timeout : M Conn Z := fun c => (Ok (cn_idle_timeout c), c).
Definition store_timeout (timeout : Z) : M Conn unit := modify (fun c =>
  MkConn timeout (cn_sent c) (cn_deadline c) (cn_clock c) (cn_log c) (cn_source c) (cn_events c)).
Definition set_source (src : Source) : M Conn unit := modify (fun c =>
  MkConn (cn_idle_timeout c) (cn_sent c) (cn_deadline c) (cn_clock c) (cn_log c) src (cn_events c)).

(** [c.Conn.SetWriteDeadline] *)
Definition set_write_deadline (deadline : Z) : M Conn unit :=
  ev <- next_event ;;
  match ev ≫= ev_error with
  | Some _ => fail ErrIO
  | None => modify (fun c => MkConn (cn_idle_timeout c) (cn_sent c) (Some deadline) (cn_clock c) (cn_log c)
                               (cn_source c) (cn_events c))
  end.

(** Bytes go out in one attempt, which begins now. *)
Definition send (data : string) (err : option error) (elapsed : Z) : M Conn unit := modify (fun c =>
  MkConn (cn_idle_timeout c) (cn_sent c +:+ data) (cn_deadline c) (cn_clock c + elapsed)
    (cn_log c ++ [MkAttempt (cn_clock c) (cn_deadline c) (String.length data) err]) (cn_source c) (cn_events c)).

(** [c.Conn.Write]; a result with an error is not a failure of the model. *)
Definition conn_write (body : string) : M Conn (nat * option error) :=
  ev <- next_event ;;
  let data := match ev with None => body | Some ev => take_bytes (ev_sent ev) body end in
  let err := ev ≫= ev_error in
  send data err (from_option ev_elapsed 0 ev) ;;
  ret (String.length data, err).

(** What is left of the source: up to its limit, or to its end. *)
Definition remaining (src : Source) : string :=
  let rest := drop_bytes (src_offset src) (src_content src) in
  match src_limit src with None => rest | Some n => take_bytes n rest end.

Definition advance (n : nat) (src : Source) : Source :=
  MkSource (src_content src) (src_offset src + n) ((fun limit => limit - n)%nat <$> src_limit src).

Definition get_source : M Conn Source := fun c => (Ok (cn_source c), c).

(** [readerFrom.ReadFrom]: it sends from the file until its end or an error; with an
    error it may have consumed more of the file than it has sent. *)
Definition conn_read_from : M Conn (nat * option error) :=
  src <- get_source ;;
  ev <- next_event ;;
  let rest := remaining src in
  match ev ≫= ev_error, ev with
  | Some e, Some ev =>
      let data := take_bytes (ev_sent ev) rest in
      set_source (advance (String.length data `max` (ev_ahead ev `min` String.length rest)) src) ;;
      send data (Some e) (ev_elapsed ev) ;;
      ret (String.length data, Some e)
  | _, _ =>
      set_source (advance (String.length rest) src) ;;
      send rest None (from_option ev_elapsed 0 ev) ;;
      ret (String.length rest, None)
  end.

(** [file.Seek] *)
Definition file_seek_current : M Conn nat :=
  ev <- next_event ;;
  match ev ≫= ev_error with
  | Some _ => fail ErrIO
  | None => src <- get_source ;; ret (src_offset src)
  end.
Definition file_seek_start (offset : nat) : M Conn unit :=
  ev <- next_event ;;
  match ev ≫= ev_error with
  | Some _ => fail ErrIO
  | None => src <- get_source ;; set_source (MkSource (src_content src) offset (src_limit src))
  end.

(** ** The connection *)

(** [writeTimeoutListener.Accept]: a new connection has no policy. *)
Definition Accept (accepted : result (list (option event))) : result Conn :=
  match accepted with Err e => Err e | Ok events => Ok (MkConn 0 "" None 0 [] no_source events) end.

(** [EnableWriteIdleTimeout]; [wrapped]: the request's connection is a [writeTimeoutConn]. *)
Definition EnableWriteIdleTimeout (wrapped : bool) (protoMajor : Z) (timeout : Z) : M Conn unit :=
  if negb wrapped || (timeout <=? 0) || negb (protoMajor =? 1) then ret tt
  else
    now <- time_now ;;
    set_write_deadline (now + timeout) ;;
    store_timeout timeout.

Definition SetWriteDeadline (deadline : Z) : M Conn unit :=
  store_timeout 0 ;;
  set_write_deadline deadline.

Definition madeWriteProgress (n : nat) (err : option error) : bool :=
  (0 <? n)%nat && bool_decide (err = Some ErrDeadlineExceeded).

(** The loop of [Write]; every round sends something, so the length of the body is fuel
    enough. *)
Fixpoint write_loop (fuel : nat) (timeout : Z) (total : nat) (body : string) : M Conn (nat * option error) :=
  match fuel with
  | O => ret (total, None)
  | S fuel' =>
      if String.eqb body "" then ret (total, None)
      else
        now <- time_now ;;
        let! deadline := set_write_deadline (now + timeout) in
        match deadline with
        | Err e => ret (total, Some e)
        | Ok _ =>
            let* (n, err) := conn_write body in
            let total := (total + n)%nat in
            let body := drop_bytes n body in
            if bool_decide (is_Some err) && negb (madeWriteProgress n err) then ret (total, err)
            else if (n =? 0)%nat then ret (total, Some ErrShortWrite)
            else write_loop fuel' timeout total body
        end
  end.

Definition Write (body : string) : M Conn (nat * option error) :=
  timeout <- load_timeout ;;
  if timeout <=? 0 then conn_write body
  else write_loop (S (String.length body)) timeout 0 body.

(** [io.Copy] to the connection: [consume n] reads [n] bytes of the source. *)
Fixpoint io_copy (consume : nat -> M Conn unit) (src : reader) (written : nat) : M Conn (nat * option error) :=
  match src with
  | [] => ret (written, None)
  | MkRead data readErr :: src' =>
      consume (String.length data) ;;
      let* (nw, ew) := (if String.eqb data "" then ret (O, None) else Write data) in
      let written := (written + nw)%nat in
      match ew with
      | Some e => ret (written, Some e)
      | None =>
          if negb (nw =? String.length data)%nat then ret (written, Some ErrShortWrite)
          else match readErr with
               | Some EOF => ret (written, None)
               | Some (ReadErr e) => ret (written, Some e)
               | None => io_copy consume src' written
               end
      end
  end.

(** The loop of [ReadFrom] for a file. *)
Fixpoint read_from_loop (fuel : nat) (timeout : Z) (total : nat) : M Conn (nat * option error) :=
  match fuel with
  | O => ret (total, None)
  | S fuel' =>
      let! offset := file_seek_current in
      match offset with
      | Err e => ret (total, Some e)
      | Ok offset =>
          src <- get_source ;;
          let remaining := src_limit src in
          now <- time_now ;;
          let! deadline := set_write_deadline (now + timeout) in
          match deadline with
          | Err e => ret (total, Some e)
          | Ok _ =>
              let* (n, err) := conn_read_from in
              let total := (total + n)%nat in
              if negb (madeWriteProgress n err) then ret (total, err)
              else
                let! sought := file_seek_start (offset + n) in
                match sought with
                | Err e => ret (total, Some e)
                | Ok _ =>
                    src <- get_source ;;
                    set_source (MkSource (src_content src) (src_offset src) ((fun r => r - n)%nat <$> remaining)) ;;
                    read_from_loop fuel' timeout total
                end
          end
      end
  end.

(** What a response is copied from: the file of the state, or any other reader. *)
Inductive ReadSource : Type := FromFile | FromReader (r : reader).

(** [ReadFrom]; [isReaderFrom]: the connection below implements [io.ReaderFrom], as a TCP
    connection does. *)
Definition ReadFrom (isReaderFrom : bool) (source : ReadSource) : M Conn (nat * option error) :=
  match source with
  | FromReader src => io_copy (fun _ => ret tt) src 0
  | FromFile =>
      src <- get_source ;;
      let rest := remaining src in
      if negb isReaderFrom then
        io_copy (fun n => src <- get_source ;; set_source (advance n src))
          (chunks (String.length rest) copy_buffer_size rest) 0
      else
        timeout <- load_timeout ;;
        if timeout <=? 0 then conn_read_from
        else read_from_loop (S (String.length rest)) timeout 0
  end.

(** ** What a transfer promises *)

(** The attempt had the whole timeout before it. *)
Definition timed (timeout : Z) (a : attempt_log) : Prop := at_deadline a = Some (at_time a + timeout).

(** The attempt ended well, or timed out with something sent. *)
Definition progressed (a : attempt_log) : Prop :=
  at_error a = None \/ ((0 < at_sent a)%nat /\ at_error a = Some ErrDeadlineExceeded).

Definition stalled (a : attempt_log) : Prop := at_sent a = O /\ at_error a = Some ErrDeadlineExceeded.

(** The attempts of a transfer that ended with this error, [source_err] being that of the
    source. *)
Definition ended (source_err : option error) (log : list attempt_log) (err : option error) : Prop :=
  match err with
  | None => Forall progressed log
  | Some e => exists front back, log = front ++ back /\ Forall progressed front /\ (length back <= 1)%nat /\
      (e = ErrDeadlineExceeded -> source_err = Some e \/ exists a, back = [a] /\ stalled a)
  end.

(** The transfer of [content] from [c] has sent its first [n] bytes and ended in [c']. *)
Definition delivered (source_err : option error) (c c' : Conn) (content : string) (n : nat) (err : option error) : Prop :=
  cn_sent c' = cn_sent c +:+ take_bytes n content /\ (n <= String.length content)%nat /\
  cn_idle_timeout c' = cn_idle_timeout c /\ (err = None -> n = String.length content /\ source_err = None) /\
  exists log, cn_log c' = cn_log c ++ log /\ Forall (timed (cn_idle_timeout c)) log /\ ended source_err log err.

(** Nothing has been sent. *)
Definition quiet (c c' : Conn) : Prop :=
  cn_sent c' = cn_sent c /\ cn_log c' = cn_log c /\ cn_idle_timeout c' = cn_idle_timeout c /\ cn_source c' = cn_source c /\
  cn_clock c' = cn_clock c.

(** Nothing has been sent, and the policy is the same; the source may differ. *)
Definition silent (c c' : Conn) : Prop :=
  cn_sent c' = cn_sent c /\ cn_log c' = cn_log c /\ cn_idle_timeout c' = cn_idle_timeout c.

Lemma quiet_silent c c' : quiet c c' -> silent c c'.
Proof. by intros (? & ? & ? & _). Qed.

Lemma quiet_trans c c1 c2 : quiet c c1 -> quiet c1 c2 -> quiet c c2.
Proof. unfold quiet. intuition congruence. Qed.

(** One attempt, from [c], has sent [data]. *)
Definition attempted (c c' : Conn) (data : string) (err : option error) : Prop :=
  cn_sent c' = cn_sent c +:+ data /\ cn_idle_timeout c' = cn_idle_timeout c /\
  exists a, cn_log c' = cn_log c ++ [a] /\ timed (cn_idle_timeout c) a /\ at_sent a = String.length data /\ at_error a = err.

Lemma delivered_quiet se c c' content err :
  quiet c c' -> (err = None -> content = "" /\ se = None) -> err <> Some ErrDeadlineExceeded ->
  delivered se c c' content 0 err.
Proof.
  intros (Hs & Hl & Hi & _) He Hd. split; [by rewrite Hs, append_nil_r|]. split; [lia|]. split; [done|].
  split; [by intros [-> ->]%He|]. exists []. rewrite app_nil_r. split; [done|]. split; [constructor|].
  destruct err as [e|]; [|constructor]. exists [], []. split; [done|]. split; [constructor|]. split; [simpl; lia|].
  by intros ->.
Qed.

(** The transfer ends with an attempt. *)
Lemma delivered_attempt se c c' content n err err' :
  attempted c c' (take_bytes n content) err -> (n <= String.length content)%nat ->
  match err' with
  | None => n = String.length content /\ se = None /\ (err = None \/ (0 < n)%nat /\ err = Some ErrDeadlineExceeded)
  | Some e => e = ErrDeadlineExceeded -> n = O /\ err = Some e
  end -> delivered se c c' content n err'.
Proof.
  intros (Hs & Hi & a & Hl & Ht & Ha & He) Hn Herr.
  assert (Hlen : String.length (take_bytes n content) = n) by (rewrite length_take_bytes; lia).
  rewrite Hlen in Ha. split; [done|]. split; [done|]. split; [done|].
  split; [by intros ->; destruct Herr as (? & ? & ?)|].
  exists [a]. split; [done|]. split; [by constructor|]. destruct err' as [e|].
  - exists [], [a]. split; [done|]. split; [constructor|]. split; [done|]. intros Hd. right. exists a. split; [done|].
    destruct (Herr Hd) as [Hn0 Hd']. split; [lia|]. by rewrite He, Hd', Hd.
  - constructor; [|constructor]. unfold progressed. rewrite Ha, He. tauto.
Qed.

(** A transfer goes on after one that has sent all it was given. *)
Lemma delivered_trans se c c1 c' data content n err :
  delivered None c c1 data (String.length data) None -> delivered se c1 c' content n err ->
  delivered se c c' (data +:+ content) (String.length data + n) err.
Proof.
  intros (Hs1 & _ & Hi1 & _ & log1 & Hl1 & Ht1 & He1) (Hs & Hn & Hi & He & log & Hl & Ht & Hend).
  rewrite take_bytes_all in Hs1. rewrite Hi1 in Hi, Ht.
  split; [by rewrite Hs, Hs1, take_bytes_plus, append_assoc|].
  rewrite length_append. split; [lia|]. split; [done|]. split; [by intros [-> ->]%He|].
  exists (log1 ++ log). rewrite Hl, Hl1, app_assoc. split; [done|]. split; [by apply Forall_app|].
  destruct err as [e|]; [|by apply Forall_app].
  destruct Hend as (front & back & -> & Hf & Hb & Hd). exists (log1 ++ front), back.
  rewrite app_assoc. split; [done|]. split; [by apply Forall_app|]. done.
Qed.

Lemma silent_attempted c c0 c' data err : silent c c0 -> attempted c0 c' data err -> attempted c c' data err.
Proof.
  intros (Hs & Hl & Hi) (Hs' & Hi' & a & Hl' & Ht & Ha). rewrite Hs, Hi, Hl in *. split; [done|]. split; [done|].
  by exists a.
Qed.

Lemma wp_set_write_deadline deadline (Q : result unit -> Conn -> Prop) c :
  (forall c', quiet c c' -> Q (Err ErrIO) c') ->
  (forall c', quiet c c' -> cn_deadline c' = Some deadline -> Q (Ok tt) c') ->
  wp (set_write_deadline deadline) Q c.
Proof.
  intros H1 H2. destruct c as [i s d k l src [|[[x y [e|] z]|] evs]]; (apply H1 || apply H2); done.
Qed.

(** Sending [data] is an attempt. *)
Lemma wp_send c c0 data err elapsed (Q : result unit -> Conn -> Prop) :
  silent c c0 -> cn_deadline c0 = Some (cn_clock c0 + cn_idle_timeout c0) ->
  (forall c', attempted c c' data err -> cn_source c' = cn_source c0 -> Q (Ok tt) c') ->
  wp (send data err elapsed) Q c0.
Proof.
  intros Hq Hd HQ. apply HQ; [|done]. eapply silent_attempted; [done|]. split; [done|]. split; [done|].
  eexists. by split.
Qed.

Lemma wp_next_event (Q : result (option event) -> Conn -> Prop) c :
  (forall ev c', quiet c c' -> cn_deadline c' = cn_deadline c -> Q (Ok ev) c') -> wp next_event Q c.
Proof. intros HQ. destruct c as [i s d k l src [|ev evs]]; by apply HQ. Qed.

Lemma wp_conn_write body (Q : result (nat * option error) -> Conn -> Prop) c :
  cn_deadline c = Some (cn_clock c + cn_idle_timeout c) ->
  (forall c' n err, attempted c c' (take_bytes n body) err -> (n <= String.length body)%nat ->
     cn_source c' = cn_source c -> Q (Ok (n, err)) c') ->
  wp (conn_write body) Q c.
Proof.
  intros Hd HQ. apply wp_bind, wp_next_event. intros ev c0 Hq Hd0.
  set (data := match ev with None => body | Some ev => take_bytes (ev_sent ev) body end).
  assert (Hdata : data = take_bytes (String.length data) body /\ (String.length data <= String.length body)%nat).
  { unfold data. destruct ev as [ev|]; [|by rewrite take_bytes_all].
    rewrite take_take_bytes, length_take_bytes. split; [done|lia]. }
  apply wp_bind, (wp_send c c0); [by apply quiet_silent|by destruct Hq as (_ & _ & -> & _ & ->); rewrite Hd0|].
  intros c' Ha Hsrc. rewrite (proj1 Hdata) in Ha. apply HQ; [done|apply Hdata|]. etrans; [exact Hsrc|apply Hq].
Qed.

Lemma madeWriteProgress_true n err : madeWriteProgress n err = true <-> (0 < n)%nat /\ err = Some ErrDeadlineExceeded.
Proof. unfold madeWriteProgress. by rewrite andb_true_iff, Nat.ltb_lt, bool_decide_eq_true. Qed.

Lemma gives_up n err :
  bool_decide (is_Some err) && negb (madeWriteProgress n err) = true ->
  exists e, err = Some e /\ (e = ErrDeadlineExceeded -> n = O).
Proof.
  intros [[e ->]%bool_decide_eq_true Hp%negb_true_iff]%andb_true_iff. exists e. split; [done|]. intros ->.
  destruct n as [|n]; [done|]. apply not_true_iff_false in Hp. destruct Hp. apply madeWriteProgress_true. split; [lia|done].
Qed.

Lemma goes_on n err :
  bool_decide (is_Some err) && negb (madeWriteProgress n err) = false -> err = None \/ madeWriteProgress n err = true.
Proof. destruct (madeWriteProgress n err), err; [tauto..| |tauto]. done. Qed.

(** An attempt that sends part of [content], with no error or as progress. *)
Lemma delivered_part c c' content n err :
  attempted c c' (take_bytes n content) err -> (n <= String.length content)%nat ->
  err = None \/ madeWriteProgress n err = true ->
  delivered None c c' (take_bytes n content) (String.length (take_bytes n content)) None.
Proof.
  intros Ha Hn Herr. assert (Hlen : String.length (take_bytes n content) = n) by (rewrite length_take_bytes; lia).
  apply (delivered_attempt _ _ _ _ _ err); [by rewrite take_bytes_all|done|]. rewrite Hlen.
  rewrite madeWriteProgress_true in Herr. tauto.
Qed.

Lemma write_loop_spec fuel body total c :
  (String.length body < fuel)%nat ->
  wp (write_loop fuel (cn_idle_timeout c) total body) (fun r c' => exists n err,
    r = Ok ((total + n)%nat, err) /\ delivered None c c' body n err /\ cn_source c' = cn_source c) c.
Proof.
  revert body total c. induction fuel as [|fuel IH]; intros body total c Hfuel; [lia|].
  cbn [write_loop]. destruct (String.eqb_spec body "") as [->|Hne].
  { exists 0%nat, None. rewrite Nat.add_0_r. split; [done|]. split; [|done]. by apply delivered_quiet. }
  apply wp_bind, wp_bind, wp_attempt, wp_set_write_deadline; intros c1 Hq.
  { exists 0%nat, (Some ErrIO). rewrite Nat.add_0_r. split; [done|]. split; [by apply delivered_quiet|apply Hq]. }
  intros Hd. apply wp_bind, wp_conn_write; [by destruct Hq as (_ & _ & -> & _ & ->)|].
  intros c2 n err Ha Hn Hsrc. assert (Ha' := silent_attempted _ _ _ _ _ (quiet_silent _ _ Hq) Ha).
  assert (Hsrc' : cn_source c2 = cn_source c) by (rewrite Hsrc; apply Hq).
  destruct (bool_decide (is_Some err) && negb (madeWriteProgress n err)) eqn:Et.
  { apply gives_up in Et as (e & -> & He). exists n, (Some e). split; [done|]. split; [|done].
    apply (delivered_attempt _ _ _ _ _ (Some e)); [done..|]. intros Hd'. by rewrite He, Hd'. }
  apply goes_on in Et. destruct (Nat.eqb_spec n 0) as [->|Hn0].
  { exists 0%nat, (Some ErrShortWrite). split; [done|]. split; [|done]. by apply (delivered_attempt _ _ _ _ _ err). }
  assert (Hidle : cn_idle_timeout c = cn_idle_timeout c2) by (destruct Ha' as (_ & -> & _); done).
  rewrite Hidle. eapply wp_mono; [apply IH; rewrite length_drop_bytes; lia|].
  intros r c' (m & err' & -> & Hm & Hsrc2). exists (n + m)%nat, err'. split; [by rewrite Nat.add_assoc|].
  split; [|by rewrite Hsrc2]. rewrite <- (take_drop_bytes n body) at 1.
  replace (n + m)%nat with (String.length (take_bytes n body) + m)%nat by (rewrite length_take_bytes; lia).
  eapply delivered_trans; [|done]. by apply (delivered_part _ _ _ _ err).
Qed.

Lemma conn_Write_spec body c :
  0 < cn_idle_timeout c ->
  wp (Write body) (fun r c' => exists n err,
    r = Ok (n, err) /\ delivered None c c' body n err /\ cn_source c' = cn_source c) c.
Proof.
  intros Hi. unfold Write. apply wp_bind. unfold load_timeout, wp at 1. cbn [fst snd].
  destruct (Z.leb_spec (cn_idle_timeout c) 0); [lia|]. apply (write_loop_spec _ _ 0). lia.
Qed.

(** *** Copying a reader *)

Lemma silent_delivered se c c1 c' content n err :
  silent c c1 -> delivered se c1 c' content n err -> delivered se c c' content n err.
Proof. unfold silent, delivered. by intros (-> & -> & ->). Qed.

Lemma take_bytes_prefix n s t : (n <= String.length s)%nat -> take_bytes n (s +:+ t) = take_bytes n s.
Proof.
  revert s; induction n as [|n IH]; intros [|a s]; simpl; [done..|lia|]. intros Hn. f_equal. apply IH. lia.
Qed.

Lemma delivered_silent se c c1 c' content n err :
  delivered se c c1 content n err -> silent c1 c' -> delivered se c c' content n err.
Proof. unfold silent, delivered. by intros Hd (-> & -> & ->). Qed.

(** A transfer that failed has failed, whatever was to come. *)
Lemma delivered_failed se c c' data rest n e :
  delivered None c c' data n (Some e) -> delivered se c c' (data +:+ rest) n (Some e).
Proof.
  intros (Hs & Hn & Hi & _ & log & Hl & Ht & front & back & -> & Hf & Hb & Hd).
  split; [by rewrite take_bytes_prefix|]. split; [rewrite length_append; lia|]. split; [done|]. split; [done|].
  exists (front ++ back). split; [done|]. split; [done|]. exists front, back. split; [done|]. split; [done|].
  split; [done|]. intros He. right. by destruct (Hd He).
Qed.

(** The source failed after all it gave was sent. *)
Lemma delivered_source_error c c' data e :
  delivered None c c' data (String.length data) None -> delivered (Some e) c c' data (String.length data) (Some e).
Proof.
  intros (Hs & Hn & Hi & _ & log & Hl & Ht & Hf). split; [done|]. split; [done|]. split; [done|]. split; [done|].
  exists log. split; [done|]. split; [done|]. exists log, []. rewrite app_nil_r. split; [done|]. split; [done|].
  split; [simpl; lia|]. by left.
Qed.

Lemma io_copy_spec consume src written c :
  0 < cn_idle_timeout c -> (forall n c, wp (consume n) (fun r c' => r = Ok tt /\ silent c c') c) ->
  wp (io_copy consume src written) (fun r c' => exists n err,
    r = Ok ((written + n)%nat, err) /\ delivered (reader_error src) c c' (reader_content src) n err) c.
Proof.
  intros Hi Hconsume. revert written c Hi. induction src as [|[data rerr] src IH]; intros written c Hi; cbn [io_copy].
  { exists 0%nat, None. rewrite Nat.add_0_r. split; [done|]. by apply delivered_quiet. }
  apply wp_bind. eapply wp_mono; [apply Hconsume|]. intros r c0 (-> & H0). apply wp_bind.
  apply (wp_mono _ (fun r c1 => exists n err, r = Ok (n, err) /\ delivered None c c1 data n err)).
  { destruct (String.eqb_spec data "") as [->|_].
    - exists 0%nat, None. split; [done|]. eapply silent_delivered; [done|]. by apply delivered_quiet.
    - assert (Hi0 : 0 < cn_idle_timeout c0) by (by destruct H0 as (_ & _ & ->)).
      eapply wp_mono; [by apply conn_Write_spec|]. intros r c1 (n & err & -> & Hd & _). exists n, err. split; [done|].
      by eapply silent_delivered. }
  intros r c1 (n & err & -> & Hd). destruct err as [e|].
  { exists n, (Some e). split; [done|]. destruct rerr as [[|e']|]; cbn [reader_error reader_content];
      [rewrite <- (append_nil_r data)|rewrite <- (append_nil_r data)|]; by apply delivered_failed. }
  assert (Hn : n = String.length data) by (by destruct Hd as (_ & _ & _ & Hd & _); apply Hd). subst n.
  rewrite Nat.eqb_refl. cbn [negb]. destruct rerr as [[|e']|]; cbn [reader_error reader_content].
  - by exists (String.length data), None.
  - exists (String.length data), (Some e'). split; [done|]. by apply delivered_source_error.
  - assert (Hi1 : 0 < cn_idle_timeout c1) by (by destruct Hd as (_ & _ & -> & _)).
    eapply wp_mono; [by apply IH|]. intros r c' (m & err & -> & Hm). exists (String.length data + m)%nat, err.
    split; [by rewrite Nat.add_assoc|]. by eapply delivered_trans.
Qed.

(** *** Copying a file *)

Lemma remaining_advance n src : remaining (advance n src) = drop_bytes n (remaining src).
Proof.
  unfold remaining, advance. cbn. rewrite drop_drop_bytes. destruct (src_limit src) as [l|]; [|done]. cbn.
  apply take_drop_limit.
Qed.

Lemma wp_conn_read_from (Q : result (nat * option error) -> Conn -> Prop) c :
  cn_deadline c = Some (cn_clock c + cn_idle_timeout c) ->
  (forall c' n err, attempted c c' (take_bytes n (remaining (cn_source c))) err ->
     (n <= String.length (remaining (cn_source c)))%nat -> (err = None -> n = String.length (remaining (cn_source c))) ->
     src_content (cn_source c') = src_content (cn_source c) -> Q (Ok (n, err)) c') ->
  wp conn_read_from Q c.
Proof.
  intros Hd HQ. apply wp_bind. unfold get_source, wp at 1. cbn [fst snd]. apply wp_bind, wp_next_event.
  intros ev c0 Hq Hd0. set (rest := remaining (cn_source c)) in *.
  assert (Hsend : forall k data err el, data = take_bytes (String.length data) rest ->
    (String.length data <= String.length rest)%nat -> (err = None -> String.length data = String.length rest) ->
    wp (set_source (advance k (cn_source c)) ;; send data err el ;; ret (String.length data, err)) Q c0).
  { intros k data err el Hdata Hn Hall. apply wp_bind, wp_modify, wp_bind, (wp_send c).
    - destruct Hq as (? & ? & ? & _). by split.
    - cbn. rewrite Hd0, Hd. by destruct Hq as (_ & _ & -> & _ & ->).
    - intros c' Ha Hsrc. rewrite Hdata in Ha. apply HQ; [done..|]. exact (f_equal src_content Hsrc). }
  destruct ev as [[x y [e|] z]|]; cbn [mbind option_bind ev_error ev_sent ev_ahead ev_elapsed from_option];
    apply Hsend; rewrite ?take_take_bytes, ?take_bytes_all, ?length_take_bytes; done || lia.
Qed.

Lemma wp_file_seek_current (Q : result nat -> Conn -> Prop) c :
  (forall c', quiet c c' -> Q (Err ErrIO) c') -> (forall c', quiet c c' -> Q (Ok (src_offset (cn_source c))) c') ->
  wp file_seek_current Q c.
Proof. intros H1 H2. destruct c as [i s d k l src [|[[x y [e|] z]|] evs]]; (by apply H1) || (by apply H2). Qed.

Lemma wp_file_seek_start offset (Q : result unit -> Conn -> Prop) c :
  (forall c', silent c c' -> Q (Err ErrIO) c') ->
  (forall c', silent c c' -> src_content (cn_source c') = src_content (cn_source c) -> src_offset (cn_source c') = offset ->
     Q (Ok tt) c') ->
  wp (file_seek_start offset) Q c.
Proof. intros H1 H2. destruct c as [i s d k l src [|[[x y [e|] z]|] evs]]; (by apply H1) || (by apply H2). Qed.

Lemma read_from_loop_spec fuel total c :
  (String.length (remaining (cn_source c)) < fuel)%nat ->
  wp (read_from_loop fuel (cn_idle_timeout c) total) (fun r c' => exists n err,
    r = Ok ((total + n)%nat, err) /\ delivered None c c' (remaining (cn_source c)) n err) c.
Proof.
  revert total c. induction fuel as [|fuel IH]; intros total c Hfuel; [lia|]. cbn [read_from_loop].
  set (rest := remaining (cn_source c)) in *.
  assert (Hfail : forall c', quiet c c' -> exists n err, Ok (total, Some ErrIO) = Ok ((total + n)%nat, err) /\ delivered None c c' rest n err).
  { intros c' Hq. exists 0%nat, (Some ErrIO). rewrite Nat.add_0_r. split; [done|]. by apply delivered_quiet. }
  apply wp_bind, wp_attempt, wp_file_seek_current; intros c1 H1; [by apply Hfail|].
  apply wp_bind. unfold get_source at 1, wp at 1. cbn [fst snd]. apply wp_bind. unfold time_now, wp at 1. cbn [fst snd].
  apply wp_bind, wp_attempt, wp_set_write_deadline; intros c2 H2.
  { by eapply Hfail, quiet_trans. }
  intros Hd. assert (H02 := quiet_trans _ _ _ H1 H2). assert (Hsrc : cn_source c2 = cn_source c) by apply H02.
  apply wp_bind, wp_conn_read_from.
  { rewrite Hd. destruct H2 as (_ & _ & -> & _ & ->). by destruct H1 as (_ & _ & -> & _). }
  rewrite Hsrc. fold rest. intros c3 n err Ha Hn Hall Hcontent.
  apply (silent_attempted _ _ _ _ _ (quiet_silent _ _ H02)) in Ha.
  destruct (madeWriteProgress n err) eqn:Ep; cbn [negb].
  2: { exists n, err. split; [done|]. apply (delivered_attempt _ _ _ _ _ err); [done..|]. destruct err as [e|].
       - intros ->. split; [|done]. destruct n as [|n]; [done|]. apply not_true_iff_false in Ep. destruct Ep.
         apply madeWriteProgress_true. split; [lia|done].
       - split; [by apply Hall|]. split; [done|]. by left. }
  assert (Hpart := delivered_part _ _ _ _ _ Ha Hn (or_intror Ep)).
  apply wp_bind, wp_attempt, wp_file_seek_start; intros c4 H4.
  { exists n, (Some ErrIO). split; [done|]. eapply delivered_silent; [|done].
    by apply (delivered_attempt _ _ _ _ _ err). }
  intros Hc4 Ho4. apply wp_bind. unfold get_source at 1, wp at 1. cbn [fst snd]. apply wp_bind, wp_modify.
  set (c5 := MkConn _ _ _ _ _ _ _). assert (H5 : silent c3 c5) by (unfold c5; destruct H4 as (? & ? & ?); by split).
  assert (Hrest : remaining (cn_source c5) = drop_bytes n rest).
  { unfold rest. rewrite <- remaining_advance. f_equal. unfold c5, advance. cbn [cn_source].
    rewrite Hc4, Hcontent, Ho4. f_equal. by destruct H1 as (_ & _ & _ & -> & _). }
  assert (Hidle : cn_idle_timeout c = cn_idle_timeout c5).
  { destruct Ha as (_ & Hi & _), H5 as (_ & _ & Hi'). congruence. }
  rewrite Hidle. apply madeWriteProgress_true in Ep as [Hn0 _].
  eapply wp_mono; [apply IH; rewrite Hrest, length_drop_bytes; lia|].
  rewrite Hrest. intros r c' (m & err' & -> & Hm). exists (n + m)%nat, err'. split; [by rewrite Nat.add_assoc|].
  rewrite <- (take_drop_bytes n rest).
  replace (n + m)%nat with (String.length (take_bytes n rest) + m)%nat by (rewrite length_take_bytes; lia).
  eapply delivered_trans; [done|]. by eapply silent_delivered.
Qed.

Definition source_content (source : ReadSource) (c : Conn) : string :=
  match source with FromFile => remaining (cn_source c) | FromReader r => reader_content r end.
Definition source_error (source : ReadSource) : option error :=
  match source with FromFile => None | FromReader r => reader_error r end.

Lemma consume_silent n c :
  wp (src <- get_source ;; set_source (advance n src)) (fun r c' => r = Ok tt /\ silent c c') c.
Proof. by split. Qed.

Lemma ReadFrom_spec isReaderFrom source c :
  0 < cn_idle_timeout c ->
  wp (ReadFrom isReaderFrom source) (fun r c' => exists n err,
    r = Ok (n, err) /\ delivered (source_error source) c c' (source_content source c) n err) c.
Proof.
  intros Hi. destruct source as [|src]; cbn [ReadFrom source_content source_error].
  - apply wp_bind. unfold get_source at 1, wp at 1. cbn [fst snd]. destruct isReaderFrom; cbn [negb].
    + apply wp_bind. unfold load_timeout, wp at 1. cbn [fst snd].
      destruct (Z.leb_spec (cn_idle_timeout c) 0); [lia|]. apply (read_from_loop_spec _ 0). lia.
    + set (rest := remaining (cn_source c)).
      eapply wp_mono; [apply io_copy_spec; [done|apply consume_silent]|]. cbv beta.
      rewrite chunks_content, chunks_error by done. done.
  - apply io_copy_spec; [done|]. by intros.
Qed.

(** C31: a transfer under the idle timeout delivers its bytes, and only a stall stops it.
    While the policy is on, whatever the connection does - partial writes, time-outs,
    reading the file ahead of what it sends - [Write] and [ReadFrom] send the content
    from its first byte, none twice and none left out, and report how many bytes they
    have sent; without an error that is all of them. Every attempt has the whole timeout
    before its deadline, and a transfer ends with a time-out only when an attempt got not
    one byte through, or its source reports one. Setting a deadline, as the server does
    between responses, turns the policy off. *)
Theorem transfer_delivers (c : Conn) :
  0 < cn_idle_timeout c ->
  (forall body, wp (Write body) (fun r c' => exists n err,
     r = Ok (n, err) /\ delivered None c c' body n err) c) /\
  (forall isReaderFrom source, wp (ReadFrom isReaderFrom source) (fun r c' => exists n err,
     r = Ok (n, err) /\ delivered (source_error source) c c' (source_content source c) n err) c) /\
  (forall deadline, wp (SetWriteDeadline deadline) (fun _ c' => cn_idle_timeout c' = 0) c).
Proof.
  intros Hi. split; [|split].
  - intros body. eapply wp_mono; [by apply conn_Write_spec|]. intros r c' (n & err & Hr & Hd & _). by exists n, err.
  - intros isReaderFrom source. by apply ReadFrom_spec.
  - intros deadline. apply wp_bind, wp_modify, wp_set_write_deadline; [by intros c' (_ & _ & -> & _)|].
    by intros c' (_ & _ & -> & _).
Qed.

(** A slow client: the first attempt times out after three bytes, with eight read. *)
Definition slow_conn : Conn :=
  MkConn 30 "" None 5 [] (MkSource "hello world" 0 None)
    [None; None; Some (MkEvent 3 8 (Some ErrDeadlineExceeded) 30); None; None; None; Some (MkEvent 8 0 None 1)].

Lemma transfer_delivers_witness :
  exists c', ReadFrom true FromFile slow_conn = (Ok (11%nat, None), c') /\ cn_sent c' = "hello world" /\
    cn_log c' = [MkAttempt 5 (Some 35) 3 (Some ErrDeadlineExceeded); MkAttempt 35 (Some 65) 8 None] /\
    delivered None slow_conn c' "hello world" 11 None.
Proof.
  destruct (transfer_delivers slow_conn eq_refl) as (_ & Hr & _).
  specialize (Hr true FromFile). unfold wp in Hr.
  destruct (ReadFrom true FromFile slow_conn) as [r c'] eqn:E. cbn [fst snd] in Hr.
  destruct Hr as (n & err & -> & Hd). exists c'.
  assert (Hn : n = 11%nat /\ err = None /\ cn_sent c' = "hello world" /\
    cn_log c' = [MkAttempt 5 (Some 35) 3 (Some ErrDeadlineExceeded); MkAttempt 35 (Some 65) 8 None])
    by (vm_compute in E; injection E as <- <- <-; done).
  destruct Hn as (-> & -> & Hs & Hl). split; [done|]. split; [exact Hs|]. split; [exact Hl|]. exact Hd.
Defined.
