(* ===== verification/UploadLock.v ===== *)
(** * The lock of an upload: [acquireUploadLock] of [internal/s3/object_handlers.go]

    The handlers of one upload exclude each other by a mutex that is made when the first
    of them comes and forgotten when the last has gone. The sections that the mutex of
    the table protects are one step each. *)

From S2P Require Import Prelude.

(** [uploadLock]; [lk_holder] is the state of its mutex: who has locked it. *)
Record uploadLock : Type := MkUploadLock { lk_refs : Z; lk_holder : option nat }.

(** Where a handler is: before the call, waiting for the mutex of the lock that it has
    found or made, between the return of the call and that of the function it returns,
    or after [mu.Unlock] in that function. *)
Inductive lock_pc : Type := Wants | Waits (lock : nat) | Holds (lock : nat) | Leaves (lock : nat).

(** [uploadLocks] maps uploads to locks, by their addresses; the handlers that are about
    some upload. *)
Record Locks : Type := MkLocks {
  ls_uploads : gmap string nat;
  ls_heap : gmap nat uploadLock;
  ls_handlers : gmap nat (string * lock_pc);
}.

Definition no_locks : Locks := MkLocks ∅ ∅ ∅.

Definition move (t : nat) (upload : string) (pc : lock_pc) (s : Locks) : Locks :=
  MkLocks (ls_uploads s) (ls_heap s) (<[t := (upload, pc)]> (ls_handlers s)).
Definition put_lock (l : nat) (lock : uploadLock) (s : Locks) : Locks :=
  MkLocks (ls_uploads s) (<[l := lock]> (ls_heap s)) (ls_handlers s).
Definition put_upload (upload : string) (l : nat) (s : Locks) : Locks :=
  MkLocks (<[upload := l]> (ls_uploads s)) (ls_heap s) (ls_handlers s).

(** The first section: find the lock or make one, and count the handler. *)
Definition enter (t : nat) (upload : string) (s : Locks) : Locks :=
  let '(l, s) :=
    match ls_uploads s !! upload with
    | Some l => (l, s)
    | None => let l := fresh (dom (ls_heap s)) in (l, put_upload upload l (put_lock l (MkUploadLock 0 None) s))
    end in
  let s := match ls_heap s !! l with
           | Some lock => put_lock l (MkUploadLock (lk_refs lock + 1) (lk_holder lock)) s
           | None => s
           end in
  move t upload (Waits l) s.

(** The second section: the last handler forgets the lock. *)
Definition leave (t : nat) (upload : string) (l : nat) (s : Locks) : Locks :=
  match ls_heap s !! l with
  | None => s
  | Some lock =>
      let refs := (lk_refs lock - 1)%Z in
      let s := put_lock l (MkUploadLock refs (lk_holder lock)) s in
      let forget := (refs =? 0)%Z && bool_decide (ls_uploads s !! upload = Some l) in
      MkLocks (if forget then delete upload (ls_uploads s) else ls_uploads s) (ls_heap s) (delete t (ls_handlers s))
  end.

Inductive lock_step (s : Locks) : Locks -> Prop :=
  | lock_arrive t upload :
      ls_handlers s !! t = None -> lock_step s (move t upload Wants s)
  | lock_enter t upload :
      ls_handlers s !! t = Some (upload, Wants) -> lock_step s (enter t upload s)
  | lock_lock t upload l lock :
      ls_handlers s !! t = Some (upload, Waits l) -> ls_heap s !! l = Some lock -> lk_holder lock = None ->
      lock_step s (move t upload (Holds l) (put_lock l (MkUploadLock (lk_refs lock) (Some t)) s))
  | lock_unlock t upload l lock :
      ls_handlers s !! t = Some (upload, Holds l) -> ls_heap s !! l = Some lock ->
      lock_step s (move t upload (Leaves l) (put_lock l (MkUploadLock (lk_refs lock) None) s))
  | lock_leave t upload l :
      ls_handlers s !! t = Some (upload, Leaves l) -> lock_step s (leave t upload l s).

(** ** The invariant *)

Definition uses (pc : lock_pc) (l : nat) : bool :=
  match pc with Wants => false | Waits l' | Holds l' | Leaves l' => bool_decide (l' = l) end.

(** How many handlers use a lock. *)
Definition user_of (l : nat) (x : nat * (string * lock_pc)) : Prop := uses x.2.2 l = true.
#[export] Instance user_of_dec l x : Decision (user_of l x).
Proof. unfold user_of. apply _. Defined.
Definition count (l : nat) (hs : gmap nat (string * lock_pc)) : Z := Z.of_nat (size (filter (user_of l) hs)).

Definition one (b : bool) : Z := if b then 1 else 0.

Lemma count_delete l t hs :
  count l hs = (count l (delete t hs) + match hs !! t with Some (_, pc) => one (uses pc l) | None => 0 end)%Z.
Proof.
  destruct (hs !! t) as [[u pc]|] eqn:E; [|by rewrite delete_id, Z.add_0_r].
  rewrite <- (insert_delete_id hs t (u, pc) E) at 1. unfold count, one. destruct (uses pc l) eqn:Eu.
  - rewrite map_filter_insert_True by exact Eu. rewrite map_size_insert_None; [lia|].
    rewrite map_lookup_filter, lookup_delete_eq. done.
  - rewrite map_filter_insert_False by (unfold user_of; cbn; congruence). rewrite delete_delete_eq. lia.
Qed.

Lemma count_move l t u pc hs :
  count l (<[t := (u, pc)]> hs) =
    (count l hs + one (uses pc l) - match hs !! t with Some (_, pc') => one (uses pc' l) | None => 0 end)%Z.
Proof. rewrite (count_delete l t hs), (count_delete l t (<[t := (u, pc)]> hs)), lookup_insert_eq, delete_insert_eq. lia. Qed.

Lemma count_none l hs : (forall t u pc, hs !! t = Some (u, pc) -> uses pc l = false) -> count l hs = 0%Z.
Proof.
  intros H. unfold count. change 0%Z with (Z.of_nat 0). f_equal. apply map_size_empty_iff, map_empty. intros t.
  apply map_lookup_filter_None. right. intros [u pc] Ht. unfold user_of. cbn. by rewrite (H t u pc).
Qed.

Lemma count_some l hs : (0 < count l hs)%Z -> exists t u pc, hs !! t = Some (u, pc) /\ uses pc l = true.
Proof.
  intros H. unfold count in H. destruct (map_choose (filter (user_of l) hs)) as (t & [u pc] & Ht).
  { intros E. rewrite E in H. done. }
  apply map_lookup_filter_Some in Ht as [Ht Hu]. by exists t, u, pc.
Qed.

Lemma count_nonneg l hs : (0 <= count l hs)%Z.
Proof. unfold count. lia. Qed.

Record lock_inv (s : Locks) : Prop := {
  li_lock upload l : ls_uploads s !! upload = Some l -> is_Some (ls_heap s !! l);
  li_inj u1 u2 l : ls_uploads s !! u1 = Some l -> ls_uploads s !! u2 = Some l -> u1 = u2;
  li_user t upload pc l : ls_handlers s !! t = Some (upload, pc) -> uses pc l = true -> ls_uploads s !! upload = Some l;
  li_refs upload l lock : ls_uploads s !! upload = Some l -> ls_heap s !! l = Some lock ->
    lk_refs lock = count l (ls_handlers s);
  li_holder upload l lock t : ls_uploads s !! upload = Some l -> ls_heap s !! l = Some lock ->
    lk_holder lock = Some t <-> ls_handlers s !! t = Some (upload, Holds l);
}.

(** Every lock of the table is somebody's. *)
Definition all_used (s : Locks) : Prop :=
  forall upload l, ls_uploads s !! upload = Some l -> (0 < count l (ls_handlers s))%Z.

Lemma no_locks_inv : lock_inv no_locks /\ all_used no_locks.
Proof. by split; [split|]. Qed.

Lemma uses_true pc l : uses pc l = true <-> pc = Waits l \/ pc = Holds l \/ pc = Leaves l.
Proof. destruct pc; cbn [uses]; rewrite ?bool_decide_eq_true; intuition congruence. Qed.

(** A lock and the handlers change together. *)
Lemma put_inv upload l lock refs holder hs s :
  lock_inv s -> ls_uploads s !! upload = Some l -> ls_heap s !! l = Some lock ->
  (forall t u pc l', hs !! t = Some (u, pc) -> uses pc l' = true -> ls_uploads s !! u = Some l') ->
  (forall l', l' <> l -> count l' hs = count l' (ls_handlers s)) -> refs = count l hs ->
  (forall t, holder = Some t <-> hs !! t = Some (upload, Holds l)) ->
  (forall t u l', l' <> l -> hs !! t = Some (u, Holds l') <-> ls_handlers s !! t = Some (u, Holds l')) ->
  lock_inv (MkLocks (ls_uploads s) (<[l := MkUploadLock refs holder]> (ls_heap s)) hs).
Proof.
  intros [H1 H2 H3 H4 H5] Hup Hl Husers Hcount Hrefs Hholder Hholds. split; cbn [ls_uploads ls_heap ls_handlers].
  - intros u l' Hu. destruct (decide (l' = l)) as [->|Hne]; [rewrite lookup_insert_eq; by eexists|].
    rewrite lookup_insert_ne by done. by apply (H1 u).
  - exact H2.
  - exact Husers.
  - intros u l' lock' Hu. destruct (decide (l' = l)) as [->|Hne].
    + rewrite lookup_insert_eq. by intros [= <-].
    + rewrite lookup_insert_ne, Hcount by done. by apply (H4 u).
  - intros u l' lock' t Hu. destruct (decide (l' = l)) as [->|Hne].
    + rewrite lookup_insert_eq. intros [= <-]. cbn [lk_holder]. by rewrite (H2 _ _ _ Hu Hup).
    + rewrite lookup_insert_ne, Hholds by done. by apply H5.
Qed.

(** One handler moves. *)
Lemma move_inv t upload pc pc' l lock holder s :
  lock_inv s -> ls_handlers s !! t = Some (upload, pc) -> ls_uploads s !! upload = Some l -> ls_heap s !! l = Some lock ->
  uses pc' l = true -> (forall l', l' <> l -> uses pc l' = false) ->
  (forall t', holder = Some t' <-> <[t := (upload, pc')]> (ls_handlers s) !! t' = Some (upload, Holds l)) ->
  lock_inv (move t upload pc' (put_lock l (MkUploadLock (lk_refs lock + one (uses pc' l) - one (uses pc l)) holder) s)).
Proof.
  intros Hinv Ht Hup Hl Hl' Hpc Hholder.
  assert (Hpc' : forall l', l' <> l -> uses pc' l' = false).
  { intros l' Hne. destruct pc'; cbn in *; try done; apply bool_decide_eq_true in Hl' as ->; by apply bool_decide_eq_false. }
  apply (put_inv upload l lock _ holder (<[t := (upload, pc')]> (ls_handlers s)) s); try done.
  - intros t' u p l'. destruct (decide (t' = t)) as [->|Hne].
    + rewrite lookup_insert_eq. intros [= <- <-] Hu. destruct (decide (l' = l)) as [->|Hll]; [done|].
      by rewrite Hpc' in Hu.
    + rewrite lookup_insert_ne by done. apply (li_user _ Hinv).
  - intros l' Hne. rewrite count_move, Ht, Hpc, Hpc' by done. cbn. lia.
  - rewrite count_move, Ht, (li_refs _ Hinv _ _ _ Hup Hl). done.
  - intros t' u l' Hne. destruct (decide (t' = t)) as [->|Hnt]; [|by rewrite lookup_insert_ne].
    rewrite lookup_insert_eq, Ht. split; intros [= <- ->]; [specialize (Hpc' l' Hne)|specialize (Hpc l' Hne)]; cbn in *;
      by rewrite bool_decide_eq_true_2 in *.
Qed.

(** A lock that somebody uses stays used while nobody leaves. *)
Lemma move_used t upload pc pc' l lock s :
  all_used s -> ls_handlers s !! t = Some (upload, pc) -> (forall l', uses pc l' = true -> uses pc' l' = true) ->
  all_used (move t upload pc' (put_lock l lock s)).
Proof.
  intros Hused Ht Hmono u l' Hu. cbn [move put_lock ls_handlers ls_uploads] in *.
  rewrite count_move, Ht. specialize (Hused u l' Hu). specialize (Hmono l'). unfold one.
  destruct (uses pc l'), (uses pc' l'); try lia; try (discriminate (Hmono eq_refl)).
Qed.

Definition lock_ok (s : Locks) : Prop := lock_inv s /\ all_used s.

Lemma lock_ok_move t upload pc pc' l lock holder s :
  lock_ok s -> ls_handlers s !! t = Some (upload, pc) -> ls_uploads s !! upload = Some l -> ls_heap s !! l = Some lock ->
  uses pc' l = true -> (forall l', l' <> l -> uses pc l' = false) ->
  (forall t', holder = Some t' <-> <[t := (upload, pc')]> (ls_handlers s) !! t' = Some (upload, Holds l)) ->
  lock_ok (move t upload pc' (put_lock l (MkUploadLock (lk_refs lock + one (uses pc' l) - one (uses pc l)) holder) s)).
Proof.
  intros [Hinv Hused] Ht Hup Hl Hl' Hpc Hholder. split; [by apply move_inv|]. eapply move_used; [done..|].
  intros l' Hu. destruct (decide (l' = l)) as [->|Hne]; [done|]. by rewrite Hpc in Hu.
Qed.

(** The lock that a handler uses. *)
Lemma user_lock t upload pc l s :
  lock_inv s -> ls_handlers s !! t = Some (upload, pc) -> uses pc l = true ->
  exists lock, ls_uploads s !! upload = Some l /\ ls_heap s !! l = Some lock.
Proof.
  intros Hinv Ht Hl. assert (Hup := li_user _ Hinv _ _ _ _ Ht Hl). destruct (li_lock _ Hinv _ _ Hup) as [lock E]. eauto.
Qed.

Lemma arrive_ok t upload s : lock_ok s -> ls_handlers s !! t = None -> lock_ok (move t upload Wants s).
Proof.
  intros [Hinv Hused] Ht.
  assert (Hcount : forall l, count l (<[t := (upload, Wants)]> (ls_handlers s)) = count l (ls_handlers s)).
  { intros l. rewrite count_move, Ht. cbn. lia. }
  assert (Hother : forall t' u l, <[t := (upload, Wants)]> (ls_handlers s) !! t' = Some (u, Holds l) <->
                                  ls_handlers s !! t' = Some (u, Holds l)).
  { intros t' u l. destruct (decide (t' = t)) as [->|Hne]; [rewrite lookup_insert_eq, Ht; split; discriminate|].
    by rewrite lookup_insert_ne. }
  split; [|intros u l Hu; cbn [move ls_handlers]; rewrite Hcount; by apply (Hused u)].
  destruct Hinv as [H1 H2 H3 H4 H5]. split; cbn [move ls_uploads ls_heap ls_handlers]; [done|done|..].
  - intros t' u pc l. destruct (decide (t' = t)) as [->|Hne]; [rewrite lookup_insert_eq; by intros [= <- <-]|].
    rewrite lookup_insert_ne by done. apply H3.
  - intros u l lock. rewrite Hcount. apply H4.
  - intros u l lock t' Hu Hl. rewrite Hother. by apply H5.
Qed.

(** A new lock that nobody uses yet. *)
Lemma new_lock_inv upload s :
  let l := fresh (dom (ls_heap s)) in
  lock_inv s -> ls_uploads s !! upload = None -> lock_inv (put_upload upload l (put_lock l (MkUploadLock 0 None) s)).
Proof.
  intros l [H1 H2 H3 H4 H5] Hno.
  assert (Hfresh : forall u, ls_uploads s !! u <> Some l).
  { intros u Hu. apply (is_fresh (dom (ls_heap s))), elem_of_dom. by apply (H1 u). }
  assert (Hunused : forall t u pc, ls_handlers s !! t = Some (u, pc) -> uses pc l = false).
  { intros t u pc Ht. destruct (uses pc l) eqn:E; [|done]. by destruct (Hfresh u (H3 _ _ _ _ Ht E)). }
  split; cbn [put_upload put_lock ls_uploads ls_heap ls_handlers].
  - intros u l'. destruct (decide (l' = l)) as [->|Hne]; [rewrite lookup_insert_eq; by eexists|].
    rewrite lookup_insert_Some, lookup_insert_ne by done. intros [[_ ?]|[_ Hu]]; [done|by apply (H1 u)].
  - intros u1 u2 l'. rewrite !lookup_insert_Some. intros [[<- <-]|[_ E1]] [[<- E]|[_ E2]]; try done.
    + by destruct (Hfresh u2).
    + subst. by destruct (Hfresh u1).
    + by apply (H2 _ _ l').
  - intros t u pc l' Ht Hu. assert (E := H3 _ _ _ _ Ht Hu).
    rewrite lookup_insert_ne; [done|]. intros ->. by rewrite Hno in E.
  - intros u l' lock. rewrite lookup_insert_Some. intros [[<- <-]|[_ Hu]].
    + rewrite lookup_insert_eq. intros [= <-]. by rewrite count_none.
    + rewrite lookup_insert_ne by (intros ->; by destruct (Hfresh u)). by apply (H4 u).
  - intros u l' lock t. rewrite lookup_insert_Some. intros [[<- <-]|[_ Hu]].
    + rewrite lookup_insert_eq. intros [= <-]. split; [done|]. intros Ht. specialize (Hunused _ _ _ Ht). cbn in Hunused.
      by apply bool_decide_eq_false in Hunused.
    + rewrite lookup_insert_ne by (intros ->; by destruct (Hfresh u)). by apply H5.
Qed.

(** A handler counts itself in: the invariant of the locks is enough, everything else
    was used before. *)
Lemma count_in_ok t upload l lock s :
  lock_inv s -> (forall u l', u <> upload -> ls_uploads s !! u = Some l' -> (0 < count l' (ls_handlers s))%Z) ->
  ls_handlers s !! t = Some (upload, Wants) -> ls_uploads s !! upload = Some l -> ls_heap s !! l = Some lock ->
  lock_ok (move t upload (Waits l) (put_lock l (MkUploadLock (lk_refs lock + 1) (lk_holder lock)) s)).
Proof.
  intros Hinv Hused Ht Hup Hl. assert (Hself : uses (Waits l) l = true) by by apply bool_decide_eq_true.
  replace (lk_refs lock + 1)%Z with (lk_refs lock + one (uses (Waits l) l) - one (uses Wants l))%Z by (rewrite Hself; cbn; lia).
  split.
  - apply move_inv; try done. intros t'. rewrite (li_holder _ Hinv _ _ _ t' Hup Hl).
    destruct (decide (t' = t)) as [->|Hne]; [rewrite lookup_insert_eq, Ht; split; discriminate|by rewrite lookup_insert_ne].
  - intros u l' Hu. cbn [move put_lock ls_handlers ls_uploads] in *. rewrite count_move, Ht. cbn [uses]. unfold one.
    destruct (decide (u = upload)) as [->|Hne].
    + assert (l' = l) as -> by congruence. rewrite bool_decide_eq_true_2 by done. assert (H := count_nonneg l (ls_handlers s)). lia.
    + specialize (Hused _ _ Hne Hu). case_bool_decide; lia.
Qed.

Lemma enter_ok t upload s : lock_ok s -> ls_handlers s !! t = Some (upload, Wants) -> lock_ok (enter t upload s).
Proof.
  intros [Hinv Hused] Ht. unfold enter. destruct (ls_uploads s !! upload) as [l|] eqn:El.
  - destruct (li_lock _ Hinv _ _ El) as [lock Elock]. rewrite Elock. apply count_in_ok; try done. intros u l' _. apply Hused.
  - set (l := fresh (dom (ls_heap s))). cbn [put_upload put_lock ls_heap]. rewrite lookup_insert_eq.
    apply (count_in_ok t upload l (MkUploadLock 0 None)); cbn [put_upload put_lock ls_uploads ls_heap ls_handlers].
    + by apply new_lock_inv.
    + intros u l' Hne. rewrite lookup_insert_ne by done. apply Hused.
    + done.
    + by rewrite lookup_insert_eq.
    + by rewrite lookup_insert_eq.
Qed.

(** A lock that nobody uses is forgotten. *)
Lemma forget_ok upload l heap hs uploads :
  lock_inv (MkLocks uploads heap hs) -> uploads !! upload = Some l -> count l hs = 0%Z ->
  (forall u l', u <> upload -> uploads !! u = Some l' -> (0 < count l' hs)%Z) ->
  lock_ok (MkLocks (delete upload uploads) heap hs).
Proof.
  intros [H1 H2 H3 H4 H5] Hup Hz Hothers. cbn [ls_uploads ls_heap ls_handlers] in *. split.
  - split; cbn [ls_uploads ls_heap ls_handlers].
    + intros u l' [_ Hu]%lookup_delete_Some. by apply (H1 u).
    + intros u1 u2 l' [_ E1]%lookup_delete_Some [_ E2]%lookup_delete_Some. by apply (H2 _ _ l').
    + intros t u pc l' Ht Hu. assert (E := H3 _ _ _ _ Ht Hu). rewrite lookup_delete_ne; [done|]. intros <-.
      assert (l' = l) as -> by congruence. rewrite (count_delete l t hs), Ht, Hu in Hz. cbn in Hz.
      assert (H := count_nonneg l (delete t hs)). lia.
    + intros u l' lock [_ Hu]%lookup_delete_Some. by apply (H4 u).
    + intros u l' lock t [_ Hu]%lookup_delete_Some. by apply H5.
  - intros u l' Hu. cbn [ls_uploads ls_handlers] in *. apply lookup_delete_Some in Hu as [Hne Hu]. by apply (Hothers u).
Qed.

Lemma leave_ok t upload l s : lock_ok s -> ls_handlers s !! t = Some (upload, Leaves l) -> lock_ok (leave t upload l s).
Proof.
  intros [Hinv Hused] Ht. assert (Hself : uses (Leaves l) l = true) by by apply bool_decide_eq_true.
  destruct (user_lock _ _ _ _ _ Hinv Ht Hself) as (lock & Hup & Hl).
  assert (Hcount : forall l', count l' (delete t (ls_handlers s)) = (count l' (ls_handlers s) - one (bool_decide (l = l')))%Z).
  { intros l'. rewrite (count_delete l' t (ls_handlers s)), Ht. cbn. lia. }
  set (refs := (lk_refs lock - 1)%Z). set (hs := delete t (ls_handlers s)).
  assert (Hrefs : refs = count l hs).
  { unfold refs, hs. rewrite Hcount, (li_refs _ Hinv _ _ _ Hup Hl), bool_decide_eq_true_2 by done. cbn. lia. }
  assert (Hput : lock_inv (MkLocks (ls_uploads s) (<[l := MkUploadLock refs (lk_holder lock)]> (ls_heap s)) hs)).
  { apply (put_inv upload l lock); try done; unfold hs.
    - intros t' u pc l' [_ Ht']%lookup_delete_Some. by apply (li_user _ Hinv t').
    - intros l' Hne. rewrite Hcount, bool_decide_eq_false_2 by done. cbn. lia.
    - intros t'. rewrite (li_holder _ Hinv _ _ _ t' Hup Hl), lookup_delete_Some. split; [|by intros [_ ?]].
      intros H. split; [|done]. intros <-. by rewrite Ht in H.
    - intros t' u l' Hne. rewrite lookup_delete_Some. split; [by intros [_ ?]|]. intros H. split; [|done]. intros <-. by rewrite Ht in H. }
  assert (Hothers : forall u l', u <> upload -> ls_uploads s !! u = Some l' -> (0 < count l' hs)%Z).
  { intros u l' Hne Hu. unfold hs. rewrite Hcount, bool_decide_eq_false_2; [specialize (Hused _ _ Hu); cbn; lia|].
    intros ->. apply Hne. by apply (li_inj _ Hinv _ _ _ Hu). }
  unfold leave. rewrite Hl. fold refs. cbn [put_lock ls_uploads ls_heap ls_handlers]. fold hs.
  rewrite (bool_decide_eq_true_2 _ Hup), andb_true_r. destruct (Z.eqb_spec refs 0) as [Hz|Hz].
  - apply (forget_ok upload l); [done|done|lia|done].
  - split; [done|]. intros u l' Hu. cbn [ls_uploads ls_handlers] in *. destruct (decide (u = upload)) as [->|Hne]; [|by apply (Hothers u)].
    assert (l' = l) as -> by congruence. assert (H := count_nonneg l hs). lia.
Qed.

Lemma lock_taken_ok t upload l lock s :
  lock_ok s -> ls_handlers s !! t = Some (upload, Waits l) -> ls_heap s !! l = Some lock -> lk_holder lock = None ->
  lock_ok (move t upload (Holds l) (put_lock l (MkUploadLock (lk_refs lock) (Some t)) s)).
Proof.
  intros [Hinv Hused] Ht Hl Hfree. assert (Hw : uses (Waits l) l = true) by by apply bool_decide_eq_true.
  destruct (user_lock _ _ _ _ _ Hinv Ht Hw) as (lock' & Hup & Hl'). assert (lock' = lock) as -> by congruence.
  replace (lk_refs lock) with (lk_refs lock + one (uses (Holds l) l) - one (uses (Waits l) l))%Z by (cbn; lia).
  eapply lock_ok_move; try done; [by intros l' Hne; apply bool_decide_eq_false_2|].
  intros t'. destruct (decide (t' = t)) as [->|Hne]; [by rewrite lookup_insert_eq|]. rewrite lookup_insert_ne by done.
  rewrite <- (li_holder _ Hinv _ _ _ t' Hup Hl), Hfree. split; congruence.
Qed.

Lemma lock_released_ok t upload l lock s :
  lock_ok s -> ls_handlers s !! t = Some (upload, Holds l) -> ls_heap s !! l = Some lock ->
  lock_ok (move t upload (Leaves l) (put_lock l (MkUploadLock (lk_refs lock) None) s)).
Proof.
  intros [Hinv Hused] Ht Hl. assert (Hw : uses (Holds l) l = true) by by apply bool_decide_eq_true.
  destruct (user_lock _ _ _ _ _ Hinv Ht Hw) as (lock' & Hup & Hl'). assert (lock' = lock) as -> by congruence.
  replace (lk_refs lock) with (lk_refs lock + one (uses (Leaves l) l) - one (uses (Holds l) l))%Z by (cbn; lia).
  eapply lock_ok_move; try done; [by intros l' Hne; apply bool_decide_eq_false_2|].
  intros t'. destruct (decide (t' = t)) as [->|Hne]; [rewrite lookup_insert_eq; split; discriminate|].
  rewrite lookup_insert_ne by done. rewrite <- (li_holder _ Hinv _ _ _ t' Hup Hl).
  apply (li_holder _ Hinv _ _ _ t Hup Hl) in Ht. rewrite Ht. split; congruence.
Qed.

Lemma lock_step_ok s s' : lock_ok s -> lock_step s s' -> lock_ok s'.
Proof.
  intros Hok Hstep. destruct Hstep; [by apply arrive_ok|by apply enter_ok|by apply lock_taken_ok|by apply lock_released_ok|by apply leave_ok].
Qed.

Lemma reachable_locks_ok s : rtc lock_step no_locks s -> lock_ok s.
Proof.
  enough (H : forall s0, rtc lock_step s0 s -> lock_ok s0 -> lock_ok s) by (intros Hs; by apply (H no_locks), no_locks_inv).
  intros s0 Hs. induction Hs as [|a b c Hab _ IH]; [done|]. intros Ha. by apply IH, (lock_step_ok a).
Qed.

(** ** The promise *)

Definition holds (x : nat * (string * lock_pc)) : option string :=
  match x.2.2 with Holds _ => Some x.2.1 | _ => None end.

(** The uploads whose locks are held. *)
Definition held (s : Locks) : gset string := list_to_set (omap holds (map_to_list (ls_handlers s))).

Lemma elem_of_held upload s : upload ∈ held s <-> exists t l, ls_handlers s !! t = Some (upload, Holds l).
Proof.
  unfold held. rewrite elem_of_list_to_set, list_elem_of_omap. split.
  - intros ([t [u pc]] & Hx%elem_of_map_to_list & Hh). unfold holds in Hh. cbn in Hh. destruct pc; simplify_eq. eauto.
  - intros (t & l & Ht). exists (t, (upload, Holds l)). split; [by apply elem_of_map_to_list|done].
Qed.

(** What a step of a mutex of the server does to the set of the locked ones. *)
Inductive mutex_step (locked : gset string) : gset string -> Prop :=
  | mutex_same : mutex_step locked locked
  | mutex_lock upload : upload ∉ locked -> mutex_step locked ({[upload]} ∪ locked)
  | mutex_unlock upload : upload ∈ locked -> mutex_step locked (locked ∖ {[upload]}).

Lemma held_exclusive t1 t2 upload l1 l2 s :
  lock_inv s -> ls_handlers s !! t1 = Some (upload, Holds l1) -> ls_handlers s !! t2 = Some (upload, Holds l2) -> t1 = t2.
Proof.
  intros Hinv H1 H2. assert (Hw : forall l, uses (Holds l) l = true) by (intros l; by apply bool_decide_eq_true).
  destruct (user_lock _ _ _ _ _ Hinv H1 (Hw l1)) as (lock & Hup & Hl).
  assert (E := li_user _ Hinv _ _ _ _ H2 (Hw l2)). assert (l2 = l1) as -> by congruence.
  apply (li_holder _ Hinv _ _ _ _ Hup Hl) in H1, H2. congruence.
Qed.

(** Handlers that hold nothing do not matter. *)
Lemma held_same s s' :
  (forall t u l, ls_handlers s' !! t = Some (u, Holds l) <-> ls_handlers s !! t = Some (u, Holds l)) ->
  mutex_step (held s) (held s').
Proof.
  intros H. replace (held s') with (held s); [constructor|]. apply set_eq. intros u. rewrite !elem_of_held. by setoid_rewrite H.
Qed.

Lemma held_insert t upload pc hs u l t' :
  (forall l', pc <> Holds l') -> (forall u' l', hs !! t <> Some (u', Holds l')) ->
  <[t := (upload, pc)]> hs !! t' = Some (u, Holds l) <-> (hs : gmap nat (string * lock_pc)) !! t' = Some (u, Holds l).
Proof.
  intros Hpc Hhs. destruct (decide (t' = t)) as [->|Hne]; [|by rewrite lookup_insert_ne].
  rewrite lookup_insert_eq. split; [intros [= _ E]; by destruct (Hpc l)|intros E; by destruct (Hhs u l)].
Qed.

Lemma enter_handlers t upload s : exists l, ls_handlers (enter t upload s) = <[t := (upload, Waits l)]> (ls_handlers s).
Proof. unfold enter. repeat case_match; simplify_eq; cbn; eexists; reflexivity. Qed.

(** Who takes a lock joins the holders. *)
Lemma held_taken t upload l lock s :
  ls_handlers s !! t = Some (upload, Waits l) ->
  held (move t upload (Holds l) (put_lock l lock s)) = {[upload]} ∪ held s.
Proof.
  intros Ht. apply set_eq. intros u. rewrite elem_of_union, elem_of_singleton, !elem_of_held. cbn [move put_lock ls_handlers]. split.
  - intros (t' & l' & [[_ [= <- _]]|[_ ?]]%lookup_insert_Some); [by left|right; eauto].
  - intros [->|(t' & l' & Ht')]; [exists t, l; by rewrite lookup_insert_eq|].
    exists t', l'. rewrite lookup_insert_ne; [done|]. intros <-. by rewrite Ht in Ht'.
Qed.

Lemma held_released t upload l lock s :
  lock_inv s -> ls_handlers s !! t = Some (upload, Holds l) ->
  held (move t upload (Leaves l) (put_lock l lock s)) = held s ∖ {[upload]}.
Proof.
  intros Hinv Ht. apply set_eq. intros u. rewrite elem_of_difference, elem_of_singleton, !elem_of_held.
  cbn [move put_lock ls_handlers]. split.
  - intros (t' & l' & [[_ ?]|[Hne Ht']]%lookup_insert_Some); [done|]. split; [by eauto|]. intros ->.
    apply Hne. by apply (held_exclusive t t' upload l l' s).
  - intros ((t' & l' & Ht') & Hne). exists t', l'. rewrite lookup_insert_ne; [done|]. intros <-. congruence.
Qed.

Lemma lock_step_mutex s s' : lock_ok s -> lock_step s s' -> mutex_step (held s) (held s').
Proof.
  intros [Hinv Hused] Hstep.
  destruct Hstep as [t upload Ht|t upload Ht|t upload l lock Ht Hl Hfree|t upload l lock Ht Hl|t upload l Ht].
  - apply held_same. intros t' u l. apply held_insert; [done|]. by rewrite Ht.
  - apply held_same. intros t' u l. destruct (enter_handlers t upload s) as [l' ->].
    apply held_insert; [done|]. by rewrite Ht.
  - rewrite (held_taken t upload l) by done. apply mutex_lock. rewrite elem_of_held. intros (t' & l' & Ht').
    assert (Hw : uses (Waits l) l = true /\ uses (Holds l') l' = true) by (split; by apply bool_decide_eq_true).
    assert (E := li_user _ Hinv _ _ _ _ Ht (proj1 Hw)). assert (E' := li_user _ Hinv _ _ _ _ Ht' (proj2 Hw)).
    assert (l' = l) as -> by congruence. apply (li_holder _ Hinv _ _ _ _ E Hl) in Ht'. congruence.
  - rewrite (held_released t upload l) by done. apply mutex_unlock, elem_of_held. eauto.
  - apply held_same. intros t' u l'. unfold leave. destruct (ls_heap s !! l); [|done].
    cbn [ls_handlers put_lock]. rewrite lookup_delete_Some. split; [by intros [_ ?]|]. intros H. split; [|done]. intros <-.
    by rewrite Ht in H.
Qed.

(** A handler that waits for a free upload takes it. *)
Lemma waiting_takes t upload l s :
  lock_inv s -> ls_handlers s !! t = Some (upload, Waits l) -> upload ∉ held s ->
  exists s', lock_step s s' /\ ls_handlers s' !! t = Some (upload, Holds l) /\ held s' = {[upload]} ∪ held s.
Proof.
  intros Hinv Ht Hfree. assert (Hw : uses (Waits l) l = true) by by apply bool_decide_eq_true.
  destruct (user_lock _ _ _ _ _ Hinv Ht Hw) as (lock & Hup & Hl).
  assert (Hnone : lk_holder lock = None).
  { destruct (lk_holder lock) as [t'|] eqn:E; [|done]. apply (li_holder _ Hinv _ _ _ _ Hup Hl) in E.
    destruct Hfree. apply elem_of_held. eauto. }
  exists (move t upload (Holds l) (put_lock l (MkUploadLock (lk_refs lock) (Some t)) s)).
  split; [by apply (lock_lock s t upload l lock)|]. split; [by apply lookup_insert_eq|by apply (held_taken t upload l)].
Qed.

(** C24: the counted locks of the uploads are the mutexes that the model of the server has:
    at most one handler holds the lock of an upload, every step locks or unlocks one upload
    that is free or held, or none; a handler that waits for an upload that nobody holds can
    take it; and the table keeps a lock only as long as some handler uses it. *)
Theorem upload_locks_refine s :
  rtc lock_step no_locks s ->
  (forall t1 t2 upload l1 l2, ls_handlers s !! t1 = Some (upload, Holds l1) ->
     ls_handlers s !! t2 = Some (upload, Holds l2) -> t1 = t2) /\
  (forall s', lock_step s s' -> mutex_step (held s) (held s')) /\
  (forall t upload l, ls_handlers s !! t = Some (upload, Waits l) -> upload ∉ held s ->
     exists s', lock_step s s' /\ ls_handlers s' !! t = Some (upload, Holds l) /\ held s' = {[upload]} ∪ held s) /\
  (forall upload l, ls_uploads s !! upload = Some l ->
     exists t pc, ls_handlers s !! t = Some (upload, pc) /\ pc <> Wants).
Proof.
  intros Hs. destruct (reachable_locks_ok s Hs) as [Hinv Hused]. split_and!.
  - intros *. by apply held_exclusive.
  - intros s'. by apply lock_step_mutex.
  - intros t upload l. by apply waiting_takes.
  - intros upload l Hup. destruct (count_some _ _ (Hused _ _ Hup)) as (t & u & pc & Ht & Hl).
    assert (E := li_user _ Hinv _ _ _ _ Ht Hl). rewrite (li_inj _ Hinv _ _ _ Hup E). exists t, pc. split; [done|]. by intros ->.
Qed.

(** The first handler of an upload holds its lock when the second comes. *)
Definition first_holds : Locks :=
  MkLocks {["u" := 0%nat]} {[0%nat := MkUploadLock 1 (Some 1%nat)]} {[1%nat := ("u", Holds 0%nat)]}.

Example first_holds_reachable : rtc lock_step no_locks first_holds.
Proof.
  apply (rtc_l _ _ (move 1 "u" Wants no_locks)); [by constructor|].
  eapply rtc_l; [by apply (lock_enter _ 1 "u")|].
  eapply rtc_l; [by apply (lock_lock _ 1 "u" 0%nat (MkUploadLock 1 None))|]. apply rtc_refl.
Qed.

Example upload_locks_refine_witness :
  rtc lock_step no_locks first_holds /\ held first_holds = {["u"]} /\
  forall s', lock_step first_holds s' -> mutex_step {["u"]} (held s').
Proof.
  split; [exact first_holds_reachable|]. split; [by vm_compute|].
  exact (proj1 (proj2 (upload_locks_refine first_holds first_holds_reachable))).
Defined.
