(* ===== verification/Migrations.v ===== *)
(** * Migrations: [migrations/migration.go]

    The database as the migrations see it: a catalog of tables with their columns and
    rows, indexes and triggers, and the table of the versions that have been applied.
    Each statement, and the beginning and the commit of a transaction, can fail. The
    second part states what a run promises: it can be resumed, brings every earlier
    release up to date, and keeps the rows. *)

From S2P Require Import Prelude GoStrings Effects.

#[local] Open Scope Z_scope.

(** ** The database *)

(** A cell of a row; the time that [CURRENT_TIMESTAMP] writes is not represented. *)
Inductive Cell : Type := CNull | CText (s : string) | CNow.

#[export] Instance cell_eq_dec : EqDecision Cell.
Proof. solve_decision. Defined.

(** A column: its name and type, its default, and the rest of its definition. *)
Record Column : Type := MkColumn { cl_name : string; cl_type : string; cl_default : option Cell; cl_constraint : string }.

Record Table : Type := MkTable {
  tb_columns : list Column;
  tb_constraints : list string;
  tb_rows : list (gmap string Cell);
}.

(** The direction of an index's columns is not represented. *)
Record Index : Type := MkIndex { ix_table : string; ix_columns : list string; ix_unique : bool; ix_where : string }.

(** [ct_migrations]: the rows of [schema_migrations], when the table exists. *)
Record Catalog : Type := MkCatalog {
  ct_tables : gmap string Table;
  ct_indexes : gmap string Index;
  ct_triggers : gmap string string;
  ct_migrations : option (gmap Z string);
}.

#[export] Instance column_eq_dec : EqDecision Column.
Proof. solve_decision. Defined.
#[export] Instance table_eq_dec : EqDecision Table.
Proof. solve_decision. Defined.
#[export] Instance index_eq_dec : EqDecision Index.
Proof. solve_decision. Defined.
#[export] Instance catalog_eq_dec : EqDecision Catalog.
Proof. solve_decision. Defined.

Definition empty_catalog : Catalog := MkCatalog ∅ ∅ ∅ None.

Record SqlDb : Type := MkSqlDb { sq_catalog : Catalog; sq_faults : list bool }.

(** The next answer of the oracle: [true] is a failure. *)
Definition sql_call {A} (m : Catalog -> result (A * Catalog)) : M SqlDb A := fun s =>
  match sq_faults s with
  | true :: fs => (Err ErrDatabase, MkSqlDb (sq_catalog s) fs)
  | fs =>
      match m (sq_catalog s) with
      | Ok (a, c) => (Ok a, MkSqlDb c (tail fs))
      | Err e => (Err e, MkSqlDb (sq_catalog s) (tail fs))
      end
  end.

(** ** The statements of the migrations *)

Inductive Ddl : Type :=
  | CreateTable (if_not_exists : bool) (name : string) (columns : list Column) (constraints : list string)
  | CreateIndex (if_not_exists : bool) (name : string) (index : Index)
  | CreateTrigger (if_not_exists : bool) (name table : string) (event : string)
  | AddColumn (table : string) (column : Column)
  | SetNullsToNow (table column : string).

Definition ErrSql : error := ErrOther "SQL error".

Definition has_column (t : Table) (name : string) : bool :=
  existsb (fun col => String.eqb (cl_name col) name) (tb_columns t).

Definition default_cell (col : Column) : Cell := default CNull (cl_default col).

Definition with_table (name : string) (t : Table) (c : Catalog) : Catalog :=
  MkCatalog (<[name := t]> (ct_tables c)) (ct_indexes c) (ct_triggers c) (ct_migrations c).

Definition exec_ddl (d : Ddl) (c : Catalog) : result Catalog :=
  match d with
  | CreateTable if_not_exists name columns constraints =>
      match ct_tables c !! name with
      | Some _ => if if_not_exists then Ok c else Err ErrSql
      | None => Ok (with_table name (MkTable columns constraints []) c)
      end
  | CreateIndex if_not_exists name index =>
      match ct_indexes c !! name, ct_tables c !! ix_table index with
      | Some _, _ => if if_not_exists then Ok c else Err ErrSql
      | None, None => Err ErrSql
      | None, Some t =>
          if forallb (has_column t) (ix_columns index)
          then Ok (MkCatalog (ct_tables c) (<[name := index]> (ct_indexes c)) (ct_triggers c) (ct_migrations c))
          else Err ErrSql
      end
  | CreateTrigger if_not_exists name table event =>
      match ct_triggers c !! name, ct_tables c !! table with
      | Some _, _ => if if_not_exists then Ok c else Err ErrSql
      | None, None => Err ErrSql
      | None, Some _ =>
          Ok (MkCatalog (ct_tables c) (ct_indexes c) (<[name := event]> (ct_triggers c)) (ct_migrations c))
      end
  | AddColumn table column =>
      match ct_tables c !! table with
      | None => Err ErrSql
      | Some t =>
          if has_column t (cl_name column) then Err ErrSql
          else Ok (with_table table (MkTable (tb_columns t ++ [column]) (tb_constraints t)
                 ((fun row => <[cl_name column := default_cell column]> row) <$> tb_rows t)) c)
      end
  | SetNullsToNow table column =>
      match ct_tables c !! table with
      | None => Err ErrSql
      | Some t =>
          if has_column t column
          then Ok (with_table table (MkTable (tb_columns t) (tb_constraints t)
                 ((fun row => if bool_decide (row !! column = Some CNull) then <[column := CNow]> row else row)
                    <$> tb_rows t)) c)
          else Err ErrSql
      end
  end.

(** Several statements in one text. *)
Fixpoint exec_all (ds : list Ddl) (c : Catalog) : result Catalog :=
  match ds with
  | [] => Ok c
  | d :: ds => let? c := exec_ddl d c in exec_all ds c
  end.

(** [tx.Exec] *)
Definition tx_exec (ds : list Ddl) : M SqlDb unit := sql_call (fun c => let? c := exec_all ds c in Ok (tt, c)).

(** [validSQLIdentifier] *)
Definition is_ident_start (a : ascii) : bool := (between 65 90 a || between 97 122 a)%bool.
Definition is_ident_byte (a : ascii) : bool := (is_ident_start a || between 48 57 a || Ascii.eqb a "_")%bool.
Definition validSQLIdentifier (s : string) : bool :=
  match s with
  | EmptyString => false
  | String a s => is_ident_start a && forallb is_ident_byte (String.list_ascii_of_string s)
  end.

(** [pragma_table_info] of a table that does not exist has no rows. *)
Definition column_count (table name : string) : M SqlDb nat := sql_call (fun c =>
  Ok (match ct_tables c !! table with
      | None => O
      | Some t => List.length (filter (fun col => cl_name col = name) (tb_columns t))
      end, c)).

(** [def] is an SQL literal; the empty text is no default. *)
Definition column_of (name typ : string) (def : option string) : Column :=
  match def with
  | None => MkColumn name typ None ""
  | Some def => MkColumn name typ (Some (CText def)) "NOT NULL"
  end.

Definition addColumnIfMissing (table name typ : string) (def : option string) : M SqlDb unit :=
  if negb (validSQLIdentifier table) || negb (validSQLIdentifier name) then fail (ErrOther "invalid identifier")
  else
    count <- column_count table name ;;
    if (0 <? count)%nat then ret tt
    else tx_exec [AddColumn table (column_of name typ def)].

(** ** The list of migrations *)

(** [migration]: its text, or the function that runs it. *)
Record migration : Type := MkMigration {
  mg_version : Z;
  mg_name : string;
  mg_sql : list Ddl;
  mg_run : option (M SqlDb unit);
}.

Definition text_column (name constraint : string) : Column := MkColumn name "TEXT" None constraint.
Definition text_default (name default constraint : string) : Column :=
  MkColumn name "TEXT" (Some (CText default)) constraint.
Definition created_column (name : string) : Column := MkColumn name "TIMESTAMP" (Some CNow) "NOT NULL".
Definition active_column : Column := MkColumn "is_active" "INTEGER" (Some (CText "1")) "NOT NULL".

Definition users_columns : list Column :=
  [text_column "id" "PRIMARY KEY"; text_column "display_name" "NOT NULL";
   text_column "access_key_id" "NOT NULL UNIQUE"; text_column "secret_hash" "NOT NULL";
   text_default "role" "member" "NOT NULL CHECK (role IN ('admin', 'member'))"; active_column;
   created_column "created_at"; created_column "updated_at"].
Definition buckets_columns : list Column :=
  [text_column "name" "PRIMARY KEY"; text_column "owner_id" "NOT NULL REFERENCES users(id)";
   created_column "created_at"].
Definition objects_columns : list Column :=
  [text_column "id" "PRIMARY KEY"; text_column "bucket_name" "NOT NULL REFERENCES buckets(name)";
   text_column "key" "NOT NULL"; MkColumn "size" "INTEGER" None "NOT NULL"; text_column "etag" "NOT NULL";
   text_default "content_type" "application/octet-stream" "NOT NULL"; text_column "storage_path" "NOT NULL";
   created_column "created_at"; created_column "updated_at"].
Definition multipart_uploads_columns : list Column :=
  [text_column "id" "PRIMARY KEY"; text_column "bucket_name" "NOT NULL REFERENCES buckets(name)";
   text_column "key" "NOT NULL"; text_default "content_type" "application/octet-stream" "NOT NULL";
   text_default "status" "active" "NOT NULL CHECK (status IN ('active', 'completing', 'aborted'))";
   created_column "created_at"; created_column "status_updated_at"].
Definition multipart_parts_columns : list Column :=
  [text_column "upload_id" "NOT NULL REFERENCES multipart_uploads(id) ON DELETE CASCADE";
   MkColumn "part_number" "INTEGER" None "NOT NULL"; MkColumn "size" "INTEGER" None "NOT NULL";
   text_column "etag" "NOT NULL"; text_column "storage_path" "NOT NULL"; created_column "created_at"].

(** The triggers that versions 1 and 7 create. *)
Definition status_triggers : list Ddl :=
  [CreateTrigger true "validate_multipart_upload_status_insert" "multipart_uploads" "BEFORE INSERT";
   CreateTrigger true "validate_multipart_upload_status_update" "multipart_uploads" "BEFORE UPDATE OF status"].

Definition initial_schema : list Ddl :=
  [CreateTable true "users" users_columns []; CreateTable true "buckets" buckets_columns [];
   CreateTable true "objects" objects_columns ["UNIQUE(bucket_name, key)"];
   CreateIndex true "idx_objects_bucket_prefix" (MkIndex "objects" ["bucket_name"; "key"] false "");
   CreateTable true "multipart_uploads" multipart_uploads_columns [];
   CreateTable true "multipart_parts" multipart_parts_columns ["PRIMARY KEY (upload_id, part_number)"]]
  ++ status_triggers.

Definition sigv4_credentials : list Ddl :=
  [AddColumn "users" (text_column "sigv4_access_key_id" ""); AddColumn "users" (text_column "sigv4_secret_key" "");
   CreateIndex true "idx_users_sigv4_access_key_id" (MkIndex "users" ["sigv4_access_key_id"] true "")].

Definition object_activity : list Ddl :=
  [CreateTable false "object_activity"
     [text_column "id" "PRIMARY KEY"; text_column "action" "NOT NULL"; text_column "bucket_name" "NOT NULL";
      text_column "object_key" ""; MkColumn "size" "INTEGER" None ""; text_column "etag" "";
      text_column "actor_user_id" ""; created_column "created_at"] [];
   CreateIndex false "idx_object_activity_created_at" (MkIndex "object_activity" ["created_at"; "id"] false "");
   CreateIndex false "idx_object_activity_bucket" (MkIndex "object_activity" ["bucket_name"; "created_at"] false "")].

Definition add_status_updated_at : M SqlDb unit :=
  addColumnIfMissing "multipart_uploads" "status_updated_at" "TIMESTAMP" None ;;
  tx_exec [SetNullsToNow "multipart_uploads" "status_updated_at"].

Definition resource_grants : list Ddl :=
  [CreateTable true "grants"
     [text_column "id" "PRIMARY KEY"; text_column "bucket_name" "NOT NULL REFERENCES buckets(name) ON DELETE CASCADE";
      text_column "grantee_user_id" "NOT NULL REFERENCES users(id) ON DELETE CASCADE"; text_column "action" "NOT NULL";
      text_default "key_prefix" "" "NOT NULL"; active_column;
      text_column "created_by" "REFERENCES users(id) ON DELETE SET NULL"; text_column "note" "";
      created_column "created_at"; created_column "updated_at"] [];
   CreateIndex true "idx_grants_unique_active"
     (MkIndex "grants" ["bucket_name"; "grantee_user_id"; "action"; "key_prefix"] true "is_active = 1");
   CreateIndex true "idx_grants_bucket_grantee" (MkIndex "grants" ["bucket_name"; "grantee_user_id"] false "");
   CreateIndex true "idx_grants_grantee" (MkIndex "grants" ["grantee_user_id"] false "");
   CreateIndex true "idx_grants_bucket" (MkIndex "grants" ["bucket_name"] false "")].

Definition checksum_columns : list string :=
  ["checksum_crc32"; "checksum_crc32c"; "checksum_crc64nvme"; "checksum_sha1"; "checksum_sha256"].

Definition part_checksums : M SqlDb unit :=
  for_each checksum_columns (fun col => addColumnIfMissing "multipart_parts" col "TEXT" None).

(** The columns of a table that a migration adds, each with its type and default. *)
Definition add_columns (table : string) (columns : list (string * string * option string)) : M SqlDb unit :=
  for_each columns (fun col => let '(name, typ, def) := col in addColumnIfMissing table name typ def).

Definition object_checksums : M SqlDb unit :=
  add_columns "objects" (("is_multipart", "INTEGER", Some "0") :: ((fun col => (col, "TEXT", None)) <$> checksum_columns)).

Definition checksum_metadata : M SqlDb unit :=
  add_columns "multipart_uploads" [("checksum_algorithm", "TEXT", None); ("user_metadata", "TEXT", None)] ;;
  add_columns "objects" [("parts_count", "INTEGER", Some "0"); ("user_metadata", "TEXT", None)].

Definition share_links : list Ddl :=
  [CreateTable true "share_links"
     [text_column "code" "PRIMARY KEY"; text_column "bucket_name" "NOT NULL REFERENCES buckets(name) ON DELETE CASCADE";
      text_column "object_key" "NOT NULL"; text_default "response_content_disposition" "" "NOT NULL";
      text_column "created_by" "NOT NULL REFERENCES users(id) ON DELETE CASCADE";
      MkColumn "expires_at" "TIMESTAMP" None ""; created_column "created_at"] [];
   CreateIndex true "idx_share_links_bucket" (MkIndex "share_links" ["bucket_name"; "created_at"] false "")].

Definition sql_migration (version : Z) (name : string) (ds : list Ddl) : migration := MkMigration version name ds None.
Definition run_migration (version : Z) (name : string) (run : M SqlDb unit) : migration :=
  MkMigration version name [] (Some run).

Definition migrations : list migration :=
  [sql_migration 1 "initial schema" initial_schema;
   sql_migration 2 "add sigv4 credentials" sigv4_credentials;
   sql_migration 3 "add object activity" object_activity;
   run_migration 4 "add multipart content_type"
     (addColumnIfMissing "multipart_uploads" "content_type" "TEXT" (Some "application/octet-stream"));
   run_migration 5 "add multipart upload status" (addColumnIfMissing "multipart_uploads" "status" "TEXT" (Some "active"));
   run_migration 6 "add multipart status updated timestamp" add_status_updated_at;
   sql_migration 7 "validate multipart upload status" status_triggers;
   sql_migration 8 "add resource grants" resource_grants;
   run_migration 9 "add multipart part checksums" part_checksums;
   run_migration 10 "add object is_multipart and checksums" object_checksums;
   run_migration 11 "add checksum_algorithm, parts_count, user_metadata" checksum_metadata;
   sql_migration 12 "add share links" share_links].

(** ** Running them *)

Definition with_migrations (ms : gmap Z string) (c : Catalog) : Catalog :=
  MkCatalog (ct_tables c) (ct_indexes c) (ct_triggers c) (Some ms).

Definition ensureMigrationsTable : M SqlDb unit := sql_call (fun c =>
  Ok (tt, with_migrations (default ∅ (ct_migrations c)) c)).

(** [COALESCE(MAX(version), 0)] *)
Definition max_version (ms : gmap Z string) : Z :=
  match elements (dom ms) with [] => 0 | v :: vs => foldr Z.max v vs end.

Definition getAppliedVersion : M SqlDb Z := sql_call (fun c =>
  match ct_migrations c with None => Err ErrSql | Some ms => Ok (max_version ms, c) end).

(** The insertion of a row of [schema_migrations]; the version is its primary key. *)
Definition record_migration (m : migration) : M SqlDb unit := sql_call (fun c =>
  match ct_migrations c with
  | None => Err ErrSql
  | Some ms => if bool_decide (is_Some (ms !! mg_version m)) then Err ErrUniqueConstraint
               else Ok (tt, with_migrations (<[mg_version m := mg_name m]> ms) c)
  end).

(** [db.Begin], [tx.Commit]; [defer tx.Rollback()] *)
Definition sql_transaction (body : M SqlDb unit) : M SqlDb unit :=
  sql_call (fun c => Ok (tt, c)) ;; fun s =>
    match (body ;; sql_call (fun c => Ok (tt, c))) s with
    | (Ok a, s') => (Ok a, s')
    | (Err e, s') => (Err e, MkSqlDb (sq_catalog s) (sq_faults s'))
    end.

Definition migration_body (m : migration) : M SqlDb unit :=
  match mg_run m with Some run => run | None => tx_exec (mg_sql m) end.

Definition runMigration (m : migration) : M SqlDb unit :=
  sql_transaction (migration_body m ;; record_migration m).

Definition runMigrations (migs : list migration) : M SqlDb unit :=
  ensureMigrationsTable ;;
  appliedVersion <- getAppliedVersion ;;
  for_each migs (fun m => if mg_version m <=? appliedVersion then ret tt else runMigration m).

Definition Run : M SqlDb unit := runMigrations migrations.

(** * Migrations: what they promise

    The reference definition of an upgrade, one migration after another, and what [Run]
    does against it: it resumes after any failure, brings the database of every earlier
    release up to date, and keeps its rows. *)

(** ** The reference: one migration after another *)

Definition applied (c : Catalog) : Z := max_version (default ∅ (ct_migrations c)).

(** What a migration does when nothing fails. *)
Definition effect (m : migration) (c : Catalog) : option Catalog :=
  match migration_body m (MkSqlDb c []) with
  | (Ok _, s) => Some (sq_catalog s)
  | (Err _, _) => None
  end.

Definition recorded (m : migration) (c : Catalog) : Catalog :=
  with_migrations (<[mg_version m := mg_name m]> (default ∅ (ct_migrations c))) c.

(** The catalog that is left when the migrations that are newer than it have been applied. *)
Fixpoint upgrade (migs : list migration) (c : Catalog) : option Catalog :=
  match migs with
  | [] => Some c
  | m :: rest =>
      if mg_version m <=? applied c then upgrade rest c
      else effect m c ≫= fun c' => upgrade rest (recorded m c')
  end.

Definition ensured (c : Catalog) : Catalog := with_migrations (default ∅ (ct_migrations c)) c.

(** *** What failures can change *)

(** A computation that succeeds does what it does when nothing fails. *)
Definition faithful {A} (m : M SqlDb A) : Prop :=
  forall s a s', m s = (Ok a, s') -> m (MkSqlDb (sq_catalog s) []) = (Ok a, MkSqlDb (sq_catalog s') []).

Section Faithful.
Lemma faithful_ret {A} (a : A) : faithful (ret a).
Proof. by intros s a' s' [= -> ->]. Qed.

Lemma faithful_fail {A} e : faithful (A := A) (fail e).
Proof. by intros s a s'. Qed.

Lemma faithful_bind {A B} (m : M SqlDb A) (k : A -> M SqlDb B) :
  faithful m -> (forall a, faithful (k a)) -> faithful (bind m k).
Proof.
  intros Hm Hk s b s'. unfold bind. destruct (m s) as [[a|e] s1] eqn:E; [|done].
  intros Ek. rewrite (Hm _ _ _ E). by apply (Hk a s1).
Qed.

Lemma faithful_call {A} (f : Catalog -> result (A * Catalog)) : faithful (sql_call f).
Proof.
  intros [c fs] a s'. unfold sql_call. cbn [sq_faults sq_catalog].
  destruct fs as [|[|] fs]; [|done|]; (destruct (f c) as [[a' c']|e]; [|done]); by intros [= -> <-].
Qed.

Lemma faithful_for_each {A} (l : list A) (f : A -> M SqlDb unit) :
  (forall x, faithful (f x)) -> faithful (for_each l f).
Proof. intros Hf. induction l as [|x l IH]; [apply faithful_ret|]. apply faithful_bind; [apply Hf|]. by intros _. Qed.

Lemma faithful_add_column table name typ def : faithful (addColumnIfMissing table name typ def).
Proof.
  unfold addColumnIfMissing. destruct (_ || _); [apply faithful_fail|]. apply faithful_bind; [apply faithful_call|].
  intros n. destruct (0 <? n)%nat; [apply faithful_ret|apply faithful_call].
Qed.
End Faithful.

#[export] Hint Resolve faithful_ret faithful_fail faithful_call faithful_add_column : fbs.

Lemma faithful_add_columns table columns : faithful (add_columns table columns).
Proof. apply faithful_for_each. intros [[name typ] def]. auto with fbs. Qed.

(** *** What the statements keep *)

(** The rows of [t'] are those of [t], each cell as it was but for a NULL that is given a
    value. *)
Definition row_kept (row row' : gmap string Cell) : Prop :=
  forall col v, row !! col = Some v -> v <> CNull -> row' !! col = Some v.
Definition rows_kept (c c' : Catalog) : Prop :=
  forall name t, ct_tables c !! name = Some t ->
    exists t', ct_tables c' !! name = Some t' /\ Forall2 row_kept (tb_rows t) (tb_rows t').

#[export] Instance row_kept_preorder : PreOrder row_kept.
Proof. split; [by intros row col v|]. intros r1 r2 r3 H12 H23 col v Hv Hn. auto. Qed.

#[export] Instance rows_kept_preorder : PreOrder rows_kept.
Proof.
  split; [intros c name t Ht; by exists t|].
  intros c1 c2 c3 H12 H23 name t Ht. destruct (H12 name t Ht) as (t2 & Ht2 & H2).
  destruct (H23 name t2 Ht2) as (t3 & Ht3 & H3). exists t3. split; [done|]. by etrans.
Qed.

(** The rows of a table have cells in its columns only. *)
Definition wf_table (t : Table) : Prop :=
  Forall (fun row : gmap string Cell => forall col, is_Some (row !! col) -> has_column t col = true) (tb_rows t).
Definition wf_catalog (c : Catalog) : Prop := map_Forall (fun _ t => wf_table t) (ct_tables c).

(** What the statements of a migration do to the data. *)
Definition preserves (c c' : Catalog) : Prop :=
  ct_migrations c' = ct_migrations c /\ (wf_catalog c -> wf_catalog c' /\ rows_kept c c').

#[export] Instance preserves_preorder : PreOrder preserves.
Proof.
  split; [intros c; split; [done|]; intros Hw; split; [done|reflexivity]|]. intros c1 c2 c3 [E12 H12] [E23 H23]. split; [congruence|]. intros Hw.
  destruct (H12 Hw) as [Hw2 Hr12]. destruct (H23 Hw2) as [Hw3 Hr23]. split; [done|]. by etrans.
Qed.

Lemma preserves_same c c' : ct_tables c' = ct_tables c -> ct_migrations c' = ct_migrations c -> preserves c c'.
Proof.
  intros Et Em. split; [done|]. unfold wf_catalog, rows_kept. rewrite Et. intros Hw. split; [done|].
  intros name t Ht. by exists t.
Qed.

Lemma with_table_preserves name t t' c :
  ct_tables c !! name = Some t -> (wf_table t -> wf_table t' /\ Forall2 row_kept (tb_rows t) (tb_rows t')) ->
  preserves c (with_table name t' c).
Proof.
  intros Ht H. split; [done|]. intros Hw. destruct (H (Hw name t Ht)) as [Hw' Hk]. split.
  - by apply map_Forall_insert_2.
  - intros name' u Hu. cbn [with_table ct_tables]. destruct (decide (name' = name)) as [->|Hne].
    + rewrite lookup_insert_eq. exists t'. split; [done|]. by replace u with t by congruence.
    + rewrite lookup_insert_ne by done. by exists u.
Qed.

Lemma rows_map_kept (f : gmap string Cell -> gmap string Cell) t :
  (forall row, row ∈ tb_rows t -> row_kept row (f row)) -> Forall2 row_kept (tb_rows t) (f <$> tb_rows t).
Proof.
  intros H. apply Forall2_fmap_r, Forall_Forall2_diag, Forall_forall. done.
Qed.

Lemma exec_ddl_preserves d c c' : exec_ddl d c = Ok c' -> preserves c c'.
Proof.
  destruct d as [ine name columns constraints|ine name index|ine name table ev|table column|table column]; cbn [exec_ddl].
  - destruct (ct_tables c !! name) as [t|] eqn:Et; [destruct ine; intros [= <-]; reflexivity|]. intros [= <-]. split; [done|].
    intros Hw. split; [apply map_Forall_insert_2; [constructor|done]|]. intros name' t Ht. exists t. split; [|done].
    cbn. rewrite lookup_insert_ne; [done|]. congruence.
  - destruct (ct_indexes c !! name); [destruct ine; intros [= <-]; reflexivity|]. destruct (ct_tables c !! _); [|done].
    destruct (forallb _ _); [|done]. intros [= <-]. by apply preserves_same.
  - destruct (ct_triggers c !! name); [destruct ine; intros [= <-]; reflexivity|]. destruct (ct_tables c !! _); [|done].
    intros [= <-]. by apply preserves_same.
  - destruct (ct_tables c !! table) as [t|] eqn:Et; [|done]. destruct (has_column t (cl_name column)) eqn:Ec; [done|].
    intros [= <-]. apply (with_table_preserves _ t); [done|]. intros Hw. split.
    + unfold wf_table. apply Forall_fmap. eapply Forall_impl; [exact Hw|]. intros row Hrow col. cbn.
      unfold has_column. cbn [tb_columns]. rewrite existsb_app. intros [v Hv]. apply lookup_insert_Some in Hv as [[<- _]|[_ Hv]].
      * apply orb_true_intro. right. cbn. by rewrite String.eqb_refl.
      * apply orb_true_intro. left. apply Hrow. by exists v.
    + apply rows_map_kept. intros row Hrow col v Hv Hn. rewrite lookup_insert_ne; [done|]. intros <-.
      assert (Hc := proj1 (Forall_forall _ _) Hw row Hrow (cl_name column) (mk_is_Some _ _ Hv)). congruence.
  - destruct (ct_tables c !! table) as [t|] eqn:Et; [|done]. destruct (has_column t column) eqn:Ec; [|done].
    intros [= <-]. apply (with_table_preserves _ t); [done|]. intros Hw. split.
    + unfold wf_table. apply Forall_fmap. eapply Forall_impl; [exact Hw|]. intros row Hrow col. cbn.
      case_bool_decide; [|apply Hrow]. intros [v Hv]. apply lookup_insert_Some in Hv as [[<- _]|[_ Hv]]; [done|].
      apply Hrow. by exists v.
    + apply rows_map_kept. intros row _ col v Hv Hn. case_bool_decide as Hc; [|done].
      rewrite lookup_insert_ne; [done|]. intros <-. congruence.
Qed.

Lemma exec_all_preserves ds c c' : exec_all ds c = Ok c' -> preserves c c'.
Proof.
  revert c. induction ds as [|d ds IH]; intros c; cbn [exec_all]; [intros [= <-]; reflexivity|].
  destruct (exec_ddl d c) as [c1|e] eqn:E; [|done]. intros H. etrans; [by eapply exec_ddl_preserves|by apply IH].
Qed.

(** [m] changes the catalog along the preorder [R]. *)
Definition changes {A} (R : Catalog -> Catalog -> Prop) (m : M SqlDb A) : Prop :=
  forall s r s', m s = (r, s') -> R (sq_catalog s) (sq_catalog s').

Section Changes.
Context (R : Catalog -> Catalog -> Prop) `{!PreOrder R}.

Lemma changes_ret {A} (a : A) : changes R (ret a).
Proof. intros s r s' [= _ <-]. reflexivity. Qed.

Lemma changes_fail {A} e : changes R (fail (A := A) e).
Proof. intros s r s' [= _ <-]. reflexivity. Qed.

Lemma changes_bind {A B} (m : M SqlDb A) (k : A -> M SqlDb B) :
  changes R m -> (forall a, changes R (k a)) -> changes R (bind m k).
Proof.
  intros Hm Hk s r s'. unfold bind. destruct (m s) as [[a|e] s1] eqn:E; apply Hm in E; [|by intros [= _ <-]].
  intros Ek%Hk. by etrans.
Qed.

Lemma changes_call {A} (f : Catalog -> result (A * Catalog)) :
  (forall c a c', f c = Ok (a, c') -> R c c') -> changes R (sql_call f).
Proof.
  intros Hf [c fs] r s'. unfold sql_call. cbn [sq_faults sq_catalog].
  destruct fs as [|[|] fs]; [|intros [= _ <-]; reflexivity|];
    (destruct (f c) as [[a' c']|e] eqn:E; intros [= _ <-]; [by eapply Hf|reflexivity]).
Qed.

Lemma changes_for_each {A} (l : list A) (f : A -> M SqlDb unit) :
  (forall x, x ∈ l -> changes R (f x)) -> changes R (for_each l f).
Proof.
  induction l as [|x l IH]; intros Hf; [apply changes_ret|]. apply changes_bind; [apply Hf; by left|].
  intros _. apply IH. intros y Hy. apply Hf. by right.
Qed.
End Changes.

Lemma tx_exec_preserves ds : changes preserves (tx_exec ds).
Proof.
  apply changes_call; [apply _|]. intros c a c'. destruct (exec_all ds c) as [c1|e] eqn:E; [|done]. intros [= _ <-].
  by eapply exec_all_preserves.
Qed.

Lemma add_column_preserves table name typ def : changes preserves (addColumnIfMissing table name typ def).
Proof.
  unfold addColumnIfMissing. destruct (_ || _); [apply changes_fail, _|]. apply changes_bind; [apply _| |].
  - apply changes_call; [apply _|]. intros c a c' [= _ <-]. reflexivity.
  - intros n. destruct (0 <? n)%nat; [apply changes_ret, _|apply tx_exec_preserves].
Qed.

(** The catalog without its rows. *)
Definition erase_table (t : Table) : Table := MkTable (tb_columns t) (tb_constraints t) [].
Definition erase (c : Catalog) : Catalog :=
  MkCatalog (erase_table <$> ct_tables c) (ct_indexes c) (ct_triggers c) (ct_migrations c).
Definition erase_db (s : SqlDb) : SqlDb := MkSqlDb (erase (sq_catalog s)) (sq_faults s).

(** What a computation does to the schema does not depend on the rows. *)
Definition blind {A} (m : M SqlDb A) : Prop := forall s, m (erase_db s) = prod_map id erase_db (m s).

Lemma blind_ret {A} (a : A) : blind (ret a).
Proof. done. Qed.

Lemma blind_fail {A} e : blind (fail (A := A) e).
Proof. done. Qed.

Lemma blind_bind {A B} (m : M SqlDb A) (k : A -> M SqlDb B) : blind m -> (forall a, blind (k a)) -> blind (bind m k).
Proof.
  intros Hm Hk s. unfold bind. rewrite Hm. destruct (m s) as [[a|e] s1]; [|done]. apply Hk.
Qed.

Lemma blind_call {A} (f : Catalog -> result (A * Catalog)) :
  (forall c, f (erase c) = match f c with Ok (a, c') => Ok (a, erase c') | Err e => Err e end) -> blind (sql_call f).
Proof.
  intros Hf [c fs]. unfold sql_call, erase_db. cbn [sq_faults sq_catalog]. rewrite Hf.
  destruct fs as [|[|] fs]; [|done|]; by destruct (f c) as [[a c']|e].
Qed.

Lemma blind_for_each {A} (l : list A) (f : A -> M SqlDb unit) : (forall x, blind (f x)) -> blind (for_each l f).
Proof. intros Hf. induction l as [|x l IH]; [done|]. apply blind_bind; [apply Hf|]. by intros _. Qed.

Lemma erase_with_table name t c : erase (with_table name t c) = with_table name (erase_table t) (erase c).
Proof. unfold erase, with_table. cbn. by rewrite fmap_insert. Qed.

Lemma exec_ddl_erase d c :
  exec_ddl d (erase c) = match exec_ddl d c with Ok c' => Ok (erase c') | Err e => Err e end.
Proof.
  destruct d as [ine name columns constraints|ine name index|ine name table ev|table column|table column];
    cbn [exec_ddl erase ct_tables ct_indexes ct_triggers]; rewrite ?lookup_fmap.
  - destruct (ct_tables c !! name); cbn [fmap option_fmap option_map]; [by destruct ine|]. by rewrite erase_with_table.
  - destruct (ct_indexes c !! name); [by destruct ine|]. destruct (ct_tables c !! ix_table index) as [t|]; [|done].
    cbn [fmap option_fmap option_map]. change (has_column (erase_table t)) with (has_column t). by destruct (forallb _ _).
  - destruct (ct_triggers c !! name); [by destruct ine|]. by destruct (ct_tables c !! table).
  - destruct (ct_tables c !! table) as [t|]; [|done]. cbn [fmap option_fmap option_map].
    change (has_column (erase_table t)) with (has_column t). destruct (has_column t _); [done|]. by rewrite erase_with_table.
  - destruct (ct_tables c !! table) as [t|]; [|done]. cbn [fmap option_fmap option_map].
    change (has_column (erase_table t)) with (has_column t). destruct (has_column t _); [|done]. by rewrite erase_with_table.
Qed.

Lemma tx_exec_blind ds : blind (tx_exec ds).
Proof.
  apply blind_call. intros c. revert c. induction ds as [|d ds IH]; intros c; [done|]. cbn [exec_all].
  rewrite exec_ddl_erase. destruct (exec_ddl d c) as [c1|e]; [|done]. apply IH.
Qed.

Lemma add_column_blind table name typ def : blind (addColumnIfMissing table name typ def).
Proof.
  unfold addColumnIfMissing. destruct (_ || _); [done|]. apply blind_bind.
  - apply blind_call. intros c. cbn [erase ct_tables]. rewrite lookup_fmap. by destruct (ct_tables c !! table).
  - intros n. destruct (0 <? n)%nat; [done|apply tx_exec_blind].
Qed.

(** A body of a migration: it succeeds as it does when nothing fails, keeps the data, and
    does not look at it. *)
Definition safe_body (m : M SqlDb unit) : Prop := faithful m /\ changes preserves m /\ blind m.

Lemma safe_migration_bind (m : M SqlDb unit) (k : unit -> M SqlDb unit) :
  safe_body m -> (forall u, safe_body (k u)) -> safe_body (bind m k).
Proof.
  intros (Hf & Hc & Hb) Hk. split_and!; [apply faithful_bind|apply changes_bind|apply blind_bind];
    try apply _; try done; intros u; apply Hk.
Qed.

Lemma safe_for_each {A} (l : list A) (f : A -> M SqlDb unit) : (forall x, safe_body (f x)) -> safe_body (for_each l f).
Proof.
  intros Hf. split_and!; [apply faithful_for_each|apply changes_for_each; [apply _|]|apply blind_for_each];
    intros; apply Hf.
Qed.

Lemma safe_exec ds : safe_body (tx_exec ds).
Proof. split_and!; [apply faithful_call|apply tx_exec_preserves|apply tx_exec_blind]. Qed.

Lemma safe_add_column table name typ def : safe_body (addColumnIfMissing table name typ def).
Proof. split_and!; [apply faithful_add_column|apply add_column_preserves|apply add_column_blind]. Qed.

Lemma safe_add_columns table columns : safe_body (add_columns table columns).
Proof. apply safe_for_each. intros [[name typ] def]. apply safe_add_column. Qed.

#[export] Hint Resolve safe_migration_bind safe_for_each safe_exec safe_add_column safe_add_columns : fbs.

Lemma migrations_safe : Forall (fun m => safe_body (migration_body m)) migrations.
Proof.
  unfold migrations.
  repeat (apply Forall_cons_2; [cbn [migration_body mg_run mg_sql sql_migration run_migration];
    unfold add_status_updated_at, part_checksums, object_checksums, checksum_metadata; eauto 6 with fbs|]).
  constructor.
Qed.

(** *** Versions *)

Lemma foldr_max_spec v vs : foldr Z.max v vs ∈ v :: vs /\ Forall (fun k => k <= foldr Z.max v vs) (v :: vs).
Proof.
  induction vs as [|w vs [Hin Hle]]; [split; [by left|by repeat constructor]|]. cbn [foldr].
  apply Forall_cons in Hle as [Hv Hvs]. split.
  - destruct (Z.max_spec w (foldr Z.max v vs)) as [[_ ->]|[_ ->]]; [|right; by left].
    apply elem_of_cons in Hin as [->|Hin]; [by left|right; by right].
  - apply Forall_cons_2; [lia|]. apply Forall_cons_2; [lia|]. eapply Forall_impl; [exact Hvs|]. intros k Hk. cbv beta in *. lia.
Qed.

Lemma max_version_le (ms : gmap Z string) k : is_Some (ms !! k) -> k <= max_version ms.
Proof.
  intros Hk%elem_of_dom%elem_of_elements. unfold max_version. destruct (elements (dom ms)) as [|v vs]; [by apply elem_of_nil in Hk|].
  exact (proj1 (Forall_forall _ _) (proj2 (foldr_max_spec v vs)) k Hk).
Qed.

Lemma max_version_in (ms : gmap Z string) k : is_Some (ms !! k) -> is_Some (ms !! max_version ms).
Proof.
  intros Hk%elem_of_dom%elem_of_elements. unfold max_version. destruct (elements (dom ms)) as [|v vs] eqn:E; [by apply elem_of_nil in Hk|].
  apply elem_of_dom, elem_of_elements. rewrite E. apply foldr_max_spec.
Qed.

Lemma max_version_insert (ms : gmap Z string) v x : max_version ms < v -> max_version (<[v := x]> ms) = v.
Proof.
  intros Hv. assert (Hin : is_Some (<[v := x]> ms !! v)) by (rewrite lookup_insert_eq; by eexists).
  apply Z.le_antisymm; [|by apply max_version_le].
  destruct (max_version_in _ _ Hin) as [y Hy]. apply lookup_insert_Some in Hy as [[<- _]|[_ Hy]]; [done|].
  assert (Hle := max_version_le ms _ (mk_is_Some _ _ Hy)). lia.
Qed.

(** *** One migration, and all of them *)

(** Nothing is failing. *)
Definition calm (s : SqlDb) : Prop := sq_faults s = [].

Lemma wp_sql_call {A} (f : Catalog -> result (A * Catalog)) (Q : result A -> SqlDb -> Prop) s :
  (forall fs, (calm s -> False) -> Q (Err ErrDatabase) (MkSqlDb (sq_catalog s) fs)) ->
  (forall fs, (calm s -> fs = []) ->
     match f (sq_catalog s) with
     | Ok (a, c) => Q (Ok a) (MkSqlDb c fs)
     | Err e => Q (Err e) (MkSqlDb (sq_catalog s) fs)
     end) -> wp (sql_call f) Q s.
Proof.
  intros H1 H2. destruct s as [c [|[|] fs]]; unfold wp, sql_call; cbn [sq_faults sq_catalog tail] in *.
  - specialize (H2 [] (fun _ => eq_refl)). by destruct (f c) as [[a c']|e].
  - by apply H1.
  - assert (Hfs : calm (MkSqlDb c (false :: fs)) -> fs = []) by done. specialize (H2 fs Hfs).
    by destruct (f c) as [[a c']|e].
Qed.

Lemma wp_body m (Q : result unit -> SqlDb -> Prop) s :
  safe_body (migration_body m) ->
  (forall e s', (calm s -> is_Some (effect m (sq_catalog s)) -> False) -> Q (Err e) s') ->
  (forall s', effect m (sq_catalog s) = Some (sq_catalog s') -> preserves (sq_catalog s) (sq_catalog s') ->
     (calm s -> calm s') -> Q (Ok tt) s') ->
  wp (migration_body m) Q s.
Proof.
  intros (Hf & Hc & _) H1 H2. apply wp_intro. intros [[]|e] s' E.
  - assert (Ef := Hf _ _ _ E). apply H2; [by unfold effect; rewrite Ef|by eapply Hc|].
    intros Hs. destruct s as [c fs]. unfold calm in Hs. cbn in Hs. subst fs. cbn in Ef. rewrite E in Ef. by injection Ef as ->.
  - apply H1. intros Hs. destruct s as [c fs]. unfold calm in Hs. cbn in Hs. subst fs. unfold effect. cbn. rewrite E. by intros [].
Qed.

Lemma runMigration_spec m s ms :
  safe_body (migration_body m) -> ct_migrations (sq_catalog s) = Some ms -> max_version ms < mg_version m ->
  wp (runMigration m) (fun r s' =>
    match r with
    | Ok _ => exists c, effect m (sq_catalog s) = Some c /\ sq_catalog s' = recorded m c /\
                preserves (sq_catalog s) c /\ (calm s -> calm s')
    | Err _ => sq_catalog s' = sq_catalog s /\ (calm s -> is_Some (effect m (sq_catalog s)) -> False)
    end) s.
Proof.
  intros Hsafe Hms Hv. unfold runMigration, sql_transaction. apply wp_bind, wp_sql_call; [by intros fs Hcalm; split|].
  intros fs Hfs. set (s0 := MkSqlDb (sq_catalog s) fs).
  assert (Hbody : wp ((migration_body m ;; record_migration m) ;; sql_call (fun c => Ok (tt, c))) (fun r s' =>
    match r with
    | Ok _ => exists c, effect m (sq_catalog s) = Some c /\ sq_catalog s' = recorded m c /\
                preserves (sq_catalog s) c /\ (calm s -> calm s')
    | Err _ => calm s -> is_Some (effect m (sq_catalog s)) -> False
    end) s0).
  { apply wp_bind, wp_bind, wp_body; [done|intros e s' H Hs; by apply H, Hfs|].
    intros s1 He Hp Hc. cbn [s0 sq_catalog] in He, Hp. apply wp_sql_call; [intros fs1 H Hs _; by apply H, Hc, Hfs|]. intros fs1 Hfs1.
    rewrite (proj1 Hp), Hms. rewrite bool_decide_eq_false_2.
    2: { intros Hin%max_version_le. lia. }
    apply wp_sql_call; [intros fs2 H Hs _; by apply H, Hfs1, Hc, Hfs|]. intros fs2 Hfs2.
    exists (sq_catalog s1). split; [done|]. split; [|split; [done|]].
    - unfold recorded. cbn [sq_catalog]. by rewrite (proj1 Hp), Hms.
    - intros Hs. by apply Hfs2, Hfs1, Hc, Hfs. }
  unfold wp in Hbody |- *.
  destruct (((migration_body m ;; record_migration m) ;; sql_call (fun c => Ok (tt, c))) s0) as [[a|e] s']; cbn [fst snd] in *; [done|]. by split.
Qed.

(** The migrations come in the order of their versions. *)
Definition ascending (migs : list migration) : Prop := StronglySorted (fun m m' => mg_version m < mg_version m') migs.

(** What [runMigrations] promises from [c]: whatever happens, the catalog can be upgraded
    to what [c] can; on success it has been, and without faults it succeeds if it can. *)
Definition resumes (migs : list migration) (c : Catalog) (calm : Prop) (r : result unit) (c' : Catalog) : Prop :=
  upgrade migs c' = upgrade migs c /\
  (r = Ok tt -> upgrade migs c = Some c') /\
  (calm -> is_Some (upgrade migs c) -> r = Ok tt).

Definition keeps_data (c c' : Catalog) : Prop := wf_catalog c -> wf_catalog c' /\ rows_kept c c'.

#[export] Instance keeps_data_preorder : PreOrder keeps_data.
Proof.
  split; [by intros c Hw; split; [|reflexivity]|]. intros c1 c2 c3 H12 H23 Hw. destruct (H12 Hw) as [Hw2 Hr12].
  destruct (H23 Hw2) as [Hw3 Hr23]. split; [done|]. by etrans.
Qed.

Lemma preserves_keeps c c' : preserves c c' -> keeps_data c c'.
Proof. by intros [_ H]. Qed.

Lemma keeps_data_recorded m c : keeps_data c (recorded m c).
Proof. intros Hw. split; [done|]. intros name t Ht. by exists t. Qed.

Lemma applied_recorded m c : applied c < mg_version m -> applied (recorded m c) = mg_version m.
Proof. apply max_version_insert. Qed.

Lemma run_loop_spec migs v s :
  ascending migs -> Forall (fun m => safe_body (migration_body m)) migs ->
  is_Some (ct_migrations (sq_catalog s)) -> v <= applied (sq_catalog s) ->
  Forall (fun m => v < mg_version m -> applied (sq_catalog s) < mg_version m) migs ->
  wp (for_each migs (fun m => if mg_version m <=? v then ret tt else runMigration m)) (fun r s' =>
    resumes migs (sq_catalog s) (calm s) r (sq_catalog s') /\
    applied (sq_catalog s) <= applied (sq_catalog s') /\ is_Some (ct_migrations (sq_catalog s')) /\
    keeps_data (sq_catalog s) (sq_catalog s')) s.
Proof.
  intros Hasc Hsafe. revert s. induction migs as [|m rest IH]; intros s Hms Hv Hnew; cbn [for_each].
  { apply wp_ret. split; [by split; [|split]|]. split; [lia|]. by split. }
  apply StronglySorted_inv in Hasc as [Hasc Hlt]. apply Forall_cons in Hsafe as [Hm Hsafe]. apply Forall_cons in Hnew as [Hnm Hnew].
  apply wp_bind. destruct (Z.leb_spec (mg_version m) v) as [Hle|Hgt].
  - apply wp_ret. eapply wp_mono; [by apply IH|]. intros r s' ((H1 & H2 & H3) & Hge & Hrest).
    split; [|done]. unfold resumes. cbn [upgrade].
    rewrite (proj2 (Z.leb_le _ _)), (proj2 (Z.leb_le _ _)) by lia. done.
  - specialize (Hnm Hgt). destruct Hms as [ms Hms].
    assert (Hmax : max_version ms < mg_version m) by (unfold applied in Hnm; by rewrite Hms in Hnm).
    eapply wp_mono; [by apply (runMigration_spec m s ms)|]. intros [[]|e] s1; cbv beta iota.
    + intros (c & He & Hs1 & Hp & Hcalm).
      assert (Happ : applied (sq_catalog s1) = mg_version m).
      { rewrite Hs1. apply applied_recorded. unfold applied. by rewrite (proj1 Hp). }
      eapply wp_mono; [apply IH; [done..| | |]|].
      * rewrite Hs1. by eexists.
      * lia.
      * rewrite Happ. eapply Forall_impl; [exact Hlt|]. done.
      * intros r s' ((H1 & H2 & H3) & Hge & Hms' & Hk). split; [|split; [lia|]; split; [done|]].
        -- unfold resumes. cbn [upgrade]. rewrite (proj2 (Z.leb_le _ _)) by lia.
           rewrite (proj2 (Z.leb_gt _ _)) by lia. rewrite He. cbn [mbind option_bind]. rewrite <- Hs1.
           split; [done|]. split; [done|]. intros Hc. by apply H3, Hcalm.
        -- etrans; [apply preserves_keeps, Hp|]. etrans; [apply (keeps_data_recorded m)|]. by rewrite <- Hs1.
    + intros [Hs1 Hc]. rewrite Hs1. split; [|split; [lia|]; split; [by eexists|reflexivity]].
      split; [done|]. split; [done|]. intros Hcalm Hup. destruct (Hc Hcalm).
      cbn [upgrade] in Hup. rewrite (proj2 (Z.leb_gt _ _)) in Hup by lia. by destruct (effect m (sq_catalog s)); [eexists|destruct Hup].
Qed.

Lemma migrations_ascending : ascending migrations.
Proof. unfold migrations. repeat (constructor; [|repeat constructor]). constructor. Qed.

Lemma ensured_keeps c : keeps_data c (ensured c).
Proof. intros Hw. split; [done|]. intros name t Ht. by exists t. Qed.

Lemma ensured_again c : is_Some (ct_migrations c) -> ensured c = c.
Proof. unfold ensured. intros [ms E]. destruct c. cbn in *. by rewrite E. Qed.

Lemma Run_from s :
  wp Run (fun r s' => resumes migrations (ensured (sq_catalog s)) (calm s) r (ensured (sq_catalog s')) /\
    keeps_data (sq_catalog s) (sq_catalog s') /\ (r = Ok tt -> ensured (sq_catalog s') = sq_catalog s')) s.
Proof.
  unfold Run, runMigrations. set (c := ensured (sq_catalog s)).
  assert (Hfail : forall c' e (cm : Prop), ensured c' = c -> (cm -> False) -> resumes migrations c cm (Err e) (ensured c')).
  { intros c' e cm -> Hcm. split; [done|]. by split; [|intros ?%Hcm]. }
  assert (Hc : ensured c = c) by (apply ensured_again; by eexists).
  apply wp_bind, wp_sql_call; [intros fs Hf; split; [by apply Hfail|]; by split|]. intros fs Hfs. fold (ensured (sq_catalog s)). fold c.
  apply wp_bind, wp_sql_call.
  { intros fs' Hf. split; [apply Hfail; [done|]; intros Hs; by apply Hf, Hfs|]. split; [|done]. apply ensured_keeps. }
  intros fs' Hfs'. cbn [sq_catalog]. unfold c at 1, ensured at 1. cbn [with_migrations ct_migrations].
  eapply wp_mono; [apply run_loop_spec; [apply migrations_ascending|apply migrations_safe|by eexists| |]|].
  - done.
  - apply Forall_forall. intros m _. by cbn.
  - cbn [sq_catalog]. intros r s' ((H1 & H2 & H3) & _ & Hms & Hk). rewrite (ensured_again _ Hms).
    split; [|split; [etrans; [apply ensured_keeps|done]|done]]. split; [done|]. split; [done|].
    intros Hs. by apply H3, Hfs', Hfs.
Qed.

(** *** Upgrades *)

Lemma upgrade_erase migs c :
  Forall (fun m => safe_body (migration_body m)) migs -> upgrade migs (erase c) = erase <$> upgrade migs c.
Proof.
  intros Hsafe. revert c. induction Hsafe as [|m migs (_ & _ & Hm) _ IH]; intros c; [done|]. cbn [upgrade].
  change (applied (erase c)) with (applied c). destruct (_ <=? _); [done|]. unfold effect.
  change (MkSqlDb (erase c) []) with (erase_db (MkSqlDb c [])). rewrite (Hm (MkSqlDb c [])). destruct (migration_body m (MkSqlDb c [])) as [[[]|e] s']; [|done].
  cbn [prod_map id fst snd mbind option_bind].
  change (recorded m (sq_catalog (erase_db s'))) with (erase (recorded m (sq_catalog s'))). apply IH.
Qed.

Lemma effect_preserves m c c' : safe_body (migration_body m) -> effect m c = Some c' -> preserves c c'.
Proof.
  unfold effect. intros (_ & Hc & _). destruct (migration_body m (MkSqlDb c [])) as [[[]|e] s'] eqn:E; [|done].
  intros [= <-]. by apply Hc in E.
Qed.

(** After a prefix of the migrations the rest is what is left to do. *)
Lemma upgrade_prefix l1 l2 c c1 :
  ascending l1 -> Forall (fun m => safe_body (migration_body m)) l1 -> upgrade l1 c = Some c1 ->
  upgrade (l1 ++ l2) c1 = upgrade (l1 ++ l2) c /\ applied c <= applied c1.
Proof.
  intros Hasc Hsafe Hup.
  assert (H : applied c <= applied c1 /\ Forall (fun m => mg_version m <= applied c1) l1 /\
            upgrade (l1 ++ l2) c = upgrade l2 c1).
  { revert c Hup. induction l1 as [|m l1 IH]; intros c; cbn [upgrade app]; [intros [= ->]; split; [lia|]; by split|].
    apply StronglySorted_inv in Hasc as [Hasc _]. apply Forall_cons in Hsafe as [Hm Hsafe].
    destruct (Z.leb_spec (mg_version m) (applied c)) as [Hle|Hgt].
    - intros Hup. destruct (IH Hasc Hsafe c Hup) as (H1 & H2 & H3). split; [done|]. split; [|done].
      apply Forall_cons_2; [lia|done].
    - destruct (effect m c) as [c'|] eqn:Ee; [|done]. cbn [mbind option_bind]. intros Hup.
      destruct (IH Hasc Hsafe _ Hup) as (H1 & H2 & H3). apply effect_preserves in Ee as [Em _]; [|done].
      rewrite applied_recorded in H1 by (unfold applied in *; by rewrite Em).
      split; [lia|]. split; [|done]. by apply Forall_cons_2. }
  destruct H as (Hle & Hall & ->). split; [|done]. clear -Hall. induction Hall as [|m l1 Hm _ IH]; [done|]. cbn [upgrade app].
  by rewrite (proj2 (Z.leb_le _ _) Hm).
Qed.

(** ** What the migrations promise *)

(** C16: an interrupted upgrade can be resumed. From any database, whatever fails during
    [Run] - a statement, a transaction, the recording of a version - the database it
    leaves is upgraded to the very catalog that the one it started from is upgraded to,
    by the migrations that are newer than its last version, each applied once and in
    order; when [Run] succeeds it has arrived there, and when nothing fails it succeeds
    if that is possible. *)
Theorem Run_resumes s :
  wp Run (fun r s' =>
    upgrade migrations (ensured (sq_catalog s')) = upgrade migrations (ensured (sq_catalog s)) /\
    (r = Ok tt -> upgrade migrations (ensured (sq_catalog s)) = Some (sq_catalog s')) /\
    (calm s -> is_Some (upgrade migrations (ensured (sq_catalog s))) -> r = Ok tt)) s.
Proof.
  eapply wp_mono; [apply Run_from|]. intros r s' ((H1 & H2 & H3) & _ & He). split; [done|]. split; [|done].
  intros Hr. by rewrite (H2 Hr), (He Hr).
Qed.

(** The columns of the tables, whatever their order. *)
Definition columns_of (c : Catalog) : gmap string (gset string) :=
  (fun t => list_to_set (cl_name <$> tb_columns t)) <$> ct_tables c.

(** What the repositories of [internal/metadata] name in their statements. *)
Definition final_columns : gmap string (gset string) := list_to_map
  [("users", list_to_set ["id"; "display_name"; "access_key_id"; "secret_hash"; "sigv4_access_key_id"; "sigv4_secret_key";
      "role"; "is_active"; "created_at"; "updated_at"]);
   ("buckets", list_to_set ["name"; "owner_id"; "created_at"]);
   ("objects", list_to_set ["id"; "bucket_name"; "key"; "size"; "etag"; "content_type"; "storage_path"; "is_multipart";
      "checksum_crc32"; "checksum_crc32c"; "checksum_crc64nvme"; "checksum_sha1"; "checksum_sha256"; "parts_count";
      "user_metadata"; "created_at"; "updated_at"]);
   ("multipart_uploads", list_to_set ["id"; "bucket_name"; "key"; "content_type"; "status"; "checksum_algorithm";
      "user_metadata"; "created_at"; "status_updated_at"]);
   ("multipart_parts", list_to_set ["upload_id"; "part_number"; "size"; "etag"; "storage_path"; "checksum_crc32";
      "checksum_crc32c"; "checksum_crc64nvme"; "checksum_sha1"; "checksum_sha256"; "created_at"]);
   ("object_activity", list_to_set ["id"; "action"; "bucket_name"; "object_key"; "size"; "etag"; "actor_user_id"; "created_at"]);
   ("grants", list_to_set ["id"; "bucket_name"; "grantee_user_id"; "action"; "key_prefix"; "is_active"; "created_by"; "note";
      "created_at"; "updated_at"]);
   ("share_links", list_to_set ["code"; "bucket_name"; "object_key"; "response_content_disposition"; "created_by";
      "expires_at"; "created_at"])].

Definition final_indexes : gset string := list_to_set
  ["idx_objects_bucket_prefix"; "idx_users_sigv4_access_key_id"; "idx_object_activity_created_at";
   "idx_object_activity_bucket"; "idx_grants_unique_active"; "idx_grants_bucket_grantee"; "idx_grants_grantee";
   "idx_grants_bucket"; "idx_share_links_bucket"].
Definition final_triggers : gset string := list_to_set
  ["validate_multipart_upload_status_insert"; "validate_multipart_upload_status_update"].

Definition up_to_date (c : Catalog) : Prop :=
  columns_of c = final_columns /\ dom (ct_indexes c) = final_indexes /\ dom (ct_triggers c) = final_triggers /\ applied c = 12.

(** The columns of uploads that the first releases may not have had: versions 4 to 6 add
    them where they are missing. *)
Definition late_columns : list string := ["content_type"; "status"; "status_updated_at"].

(** A new database, or one whose uploads lack some of these columns. *)
Definition first_release (missing : list string) : Catalog :=
  match missing with
  | [] => ensured empty_catalog
  | _ => ensured (with_table "multipart_uploads"
           (MkTable (filter (fun col => cl_name col ∉ missing) multipart_uploads_columns) [] []) empty_catalog)
  end.

(** The schema that a release with the first [k] migrations has left. *)
Definition release (missing : list string) (k : nat) : option Catalog :=
  upgrade (take k migrations) (first_release missing).

Definition missing_choices : list (list string) :=
  [[]; ["content_type"]; ["status"]; ["status_updated_at"]; ["content_type"; "status"];
   ["content_type"; "status_updated_at"]; ["status"; "status_updated_at"]; late_columns].

Definition up_to_date_b (c : Catalog) : bool :=
  bool_decide (columns_of c = final_columns) && bool_decide (dom (ct_indexes c) = final_indexes) &&
  bool_decide (dom (ct_triggers c) = final_triggers) && (applied c =? 12).

Lemma up_to_date_true c : up_to_date_b c = true -> up_to_date c.
Proof.
  unfold up_to_date_b. rewrite !andb_true_iff, !bool_decide_eq_true, Z.eqb_eq. unfold up_to_date. tauto.
Qed.

Lemma first_releases_upgrade :
  forallb (fun missing => match upgrade migrations (first_release missing) with
                          | Some c => up_to_date_b c
                          | None => false
                          end) missing_choices = true.
Proof. vm_compute. reflexivity. Qed.

Lemma columns_of_erase c : columns_of (erase c) = columns_of c.
Proof. unfold columns_of, erase. cbn. by rewrite <- map_fmap_compose. Qed.

Lemma release_upgrades missing k old :
  missing ∈ missing_choices -> release missing k = Some old ->
  exists c, upgrade migrations old = Some c /\ up_to_date c.
Proof.
  intros Hin Hold. assert (Hall := first_releases_upgrade). rewrite forallb_forall in Hall.
  specialize (Hall missing (proj1 (list_elem_of_In _ _) Hin)).
  destruct (upgrade migrations (first_release missing)) as [c|] eqn:E; [|done]. exists c.
  split; [|by apply up_to_date_true]. rewrite <- E, <- (take_drop k migrations). apply upgrade_prefix; [| |done].
  - assert (Ha := migrations_ascending). unfold ascending in Ha. rewrite <- (take_drop k migrations) in Ha.
    by apply StronglySorted_app_1_l in Ha.
  - apply Forall_take, migrations_safe.
Qed.

(** C15: a start brings the database of every earlier release up to date. Whatever rows it
    holds, a new database, one that the first [k] migrations have left, or one of a first
    release whose uploads lacked columns, has after a successful [Run] exactly the tables
    with the columns that the repositories use, their indexes and triggers; when nothing
    fails, [Run] succeeds. Every row is still there, whatever fails, with the cells it
    had, but for NULLs that are given a value. *)
Theorem Run_upgrades missing k old s :
  missing ∈ missing_choices -> release missing k = Some old ->
  wf_catalog (sq_catalog s) -> erase (ensured (sq_catalog s)) = old ->
  wp Run (fun r s' =>
    (calm s -> r = Ok tt) /\ (r = Ok tt -> up_to_date (sq_catalog s')) /\ rows_kept (sq_catalog s) (sq_catalog s')) s.
Proof.
  intros Hin Hold Hwf Hs. destruct (release_upgrades _ _ _ Hin Hold) as (cf & Hup & Hf).
  rewrite <- Hs, upgrade_erase in Hup by apply migrations_safe.
  destruct (upgrade migrations (ensured (sq_catalog s))) as [c|] eqn:E; [|done]. injection Hup as <-.
  eapply wp_mono; [apply Run_from|]. intros r s' ((_ & H2 & H3) & Hk & He).
  rewrite E in H2, H3. split; [intros Hc; by apply H3|]. split; [|by apply Hk].
  intros Hr. specialize (H2 Hr). rewrite (He Hr) in H2. injection H2 as <-.
  unfold up_to_date in *. by rewrite columns_of_erase in Hf.
Qed.

(** A database of the third release with a user, whose [Run] fails once and is repeated. *)
Definition old_user : gmap string Cell := {["id" := CText "u1"; "display_name" := CText "Kim"; "sigv4_access_key_id" := CNull]}.
Definition with_user (c : Catalog) : Catalog :=
  match ct_tables c !! "users" with
  | Some t => with_table "users" (MkTable (tb_columns t) (tb_constraints t) [old_user]) c
  | None => c
  end.
Definition old_release : Catalog := default empty_catalog (release late_columns 3).
Definition old_db : SqlDb := MkSqlDb (with_user old_release) [].

Lemma erase_wf c : wf_catalog (erase c).
Proof. intros name t. cbn. rewrite lookup_fmap. destruct (ct_tables c !! name); [|done]. intros [= <-]. constructor. Qed.

Lemma old_db_wf : wf_catalog (sq_catalog old_db).
Proof.
  assert (Hr : wf_catalog old_release).
  { replace old_release with (erase old_release) by (apply (bool_decide_unpack (_ = _)); vm_compute; exact I). apply erase_wf. }
  cbn [old_db sq_catalog]. unfold with_user.
  assert (Hcols : match ct_tables old_release !! "users" with
                  | Some t => bool_decide (map_Forall (fun col _ => has_column t col = true) old_user)
                  | None => true
                  end = true) by (vm_compute; reflexivity).
  destruct (ct_tables old_release !! "users") as [t|]; [|done].
  apply map_Forall_insert_2; [|done]. apply Forall_singleton. apply bool_decide_eq_true in Hcols.
  intros col [v Hv]. exact (Hcols col v Hv).
Qed.

Lemma Run_upgrades_witness :
  exists s, Run old_db = (Ok tt, s) /\ up_to_date (sq_catalog s) /\ rows_kept (sq_catalog old_db) (sq_catalog s).
Proof.
  assert (Hrel : release late_columns 3 = Some old_release) by (apply (bool_decide_unpack (_ = _)); vm_compute; exact I).
  assert (Hs : erase (ensured (sq_catalog old_db)) = old_release) by (apply (bool_decide_unpack (_ = _)); vm_compute; exact I).
  assert (Hin : late_columns ∈ missing_choices) by (apply (bool_decide_unpack (_ ∈ _)); vm_compute; exact I).
  destruct (Run old_db) as [r s] eqn:E. exists s.
  destruct (wp_run _ _ _ _ _ E (Run_upgrades late_columns 3 old_release old_db Hin Hrel old_db_wf Hs)) as (H1 & H2 & H3).
  rewrite (H1 eq_refl). split; [done|]. split; [by apply H2, H1|exact H3].
Defined.
