(* ===== verification/Schema.v ===== *)
(** * The database: schema and statements

    The tables that [migrations/migration.go] creates, as maps from primary keys
    to rows, and the SQL statements of [internal/metadata] as functions on them,
    with the constraints of the schema: primary and unique keys, CHECKs and
    triggers, foreign keys with their actions. A nullable column is an [option]; a
    timestamp is a number of nanoseconds since the zero [time.Time]; the JSON text of
    a [user_metadata] column is represented by the map it denotes. *)

From S2P Require Import Prelude GoStrings Effects Iam.

(** [time.Time], and [IsZero]. *)
Abbreviation time := Z.
Definition time_is_zero (t : time) : bool := (t =? 0)%Z.

(** [map[string]string]; [None] is the nil map. *)
Abbreviation StringMap := (option (gmap string string)).

(** ** Rows *)

Record UserRow : Type := MkUserRow {
  ur_display_name : string;
  ur_access_key_id : string;
  ur_secret_hash : string;
  ur_sigv4_access_key_id : option string;
  ur_sigv4_secret_key : option string;
  ur_role : string;
  ur_is_active : bool;
  ur_created_at : time;
  ur_updated_at : time;
}.

Record BucketRow : Type := MkBucketRow { br_owner_id : string; br_created_at : time }.

Record ObjectRow : Type := MkObjectRow {
  or_id : string;
  or_size : Z;
  or_etag : string;
  or_content_type : string;
  or_storage_path : string;
  or_created_at : time;
  or_updated_at : time;
  or_is_multipart : bool;
  or_parts_count : Z;
  or_crc32 : option string;
  or_crc32c : option string;
  or_crc64nvme : option string;
  or_sha1 : option string;
  or_sha256 : option string;
  or_user_metadata : option StringMap;
}.

Record UploadRow : Type := MkUploadRow {
  mr_bucket_name : string;
  mr_key : string;
  mr_content_type : string;
  mr_status : string;
  mr_created_at : time;
  mr_status_updated_at : time;
  mr_checksum_algorithm : option string;
  mr_user_metadata : option StringMap;
}.

Record PartRow : Type := MkPartRow {
  pr_size : Z;
  pr_etag : string;
  pr_storage_path : string;
  pr_created_at : time;
  pr_crc32 : option string;
  pr_crc32c : option string;
  pr_crc64nvme : option string;
  pr_sha1 : option string;
  pr_sha256 : option string;
}.

Record GrantRow : Type := MkGrantRow {
  gr_bucket_name : string;
  gr_grantee_user_id : string;
  gr_action : string;
  gr_key_prefix : string;
  gr_is_active : bool;
  gr_created_by : option string;
  gr_note : option string;
  gr_created_at : time;
  gr_updated_at : time;
}.

Record ShareLinkRow : Type := MkShareLinkRow {
  lr_bucket_name : string;
  lr_object_key : string;
  lr_response_content_disposition : string;
  lr_created_by : string;
  lr_expires_at : option time;
  lr_created_at : time;
}.

Record ActivityRow : Type := MkActivityRow {
  ar_action : string;
  ar_bucket_name : string;
  ar_object_key : option string;
  ar_size : option Z;
  ar_etag : option string;
  ar_actor_user_id : option string;
  ar_created_at : time;
}.

(** ** Tables *)

Record Tables : Type := MkTables {
  t_users : gmap string UserRow;
  t_buckets : gmap string BucketRow;
  t_objects : gmap (string * string) ObjectRow;      (* bucket name, key *)
  t_uploads : gmap string UploadRow;
  t_parts : gmap (string * Z) PartRow;               (* upload id, part number *)
  t_grants : gmap string GrantRow;
  t_links : gmap string ShareLinkRow;
  t_activity : gmap string ActivityRow;
}.

Definition with_users f t := MkTables (f (t_users t)) (t_buckets t) (t_objects t) (t_uploads t)
  (t_parts t) (t_grants t) (t_links t) (t_activity t).
Definition with_buckets f t := MkTables (t_users t) (f (t_buckets t)) (t_objects t) (t_uploads t)
  (t_parts t) (t_grants t) (t_links t) (t_activity t).
Definition with_objects f t := MkTables (t_users t) (t_buckets t) (f (t_objects t)) (t_uploads t)
  (t_parts t) (t_grants t) (t_links t) (t_activity t).
Definition with_uploads f t := MkTables (t_users t) (t_buckets t) (t_objects t) (f (t_uploads t))
  (t_parts t) (t_grants t) (t_links t) (t_activity t).
Definition with_parts f t := MkTables (t_users t) (t_buckets t) (t_objects t) (t_uploads t)
  (f (t_parts t)) (t_grants t) (t_links t) (t_activity t).
Definition with_grants f t := MkTables (t_users t) (t_buckets t) (t_objects t) (t_uploads t)
  (t_parts t) (f (t_grants t)) (t_links t) (t_activity t).
Definition with_links f t := MkTables (t_users t) (t_buckets t) (t_objects t) (t_uploads t)
  (t_parts t) (t_grants t) (f (t_links t)) (t_activity t).
Definition with_activity f t := MkTables (t_users t) (t_buckets t) (t_objects t) (t_uploads t)
  (t_parts t) (t_grants t) (t_links t) (f (t_activity t)).

Definition empty_tables : Tables := MkTables ∅ ∅ ∅ ∅ ∅ ∅ ∅ ∅.

(** [has_row P m]: some row of [m] satisfies [P]. *)
Definition has_row {K A} `{Countable K} (P : K -> A -> bool) (m : gmap K A) : bool :=
  existsb (fun kv => P kv.1 kv.2) (map_to_list m).

Definition ErrCheck : error := ErrOther "CHECK constraint failed".

(** A statement changes the tables, or fails and changes nothing. *)
Abbreviation Stmt A := (Tables -> result (A * Tables)).

(** ** Statements *)

Definition valid_status (s : string) : bool :=
  String.eqb s "active" || String.eqb s "completing" || String.eqb s "aborted".
Definition valid_role (r : string) : bool := String.eqb r "admin" || String.eqb r "member".

(** [INSERT INTO users] *)
Definition insert_user (id : string) (r : UserRow) : Stmt unit := fun t =>
  if negb (valid_role (ur_role r)) then Err ErrCheck
  else if bool_decide (is_Some (t_users t !! id)) then Err ErrUniqueConstraint
  else if has_row (fun _ u => String.eqb (ur_access_key_id u) (ur_access_key_id r)
                   || match ur_sigv4_access_key_id u, ur_sigv4_access_key_id r with
                      | Some a, Some b => String.eqb a b
                      | _, _ => false
                      end) (t_users t)
  then Err ErrUniqueConstraint
  else Ok (tt, with_users (insert id r) t).

(** [UPDATE users SET display_name, access_key_id, secret_hash, role, is_active, updated_at]:
    the number of rows. *)
Definition update_user (id : string) (r : UserRow) : Stmt nat := fun t =>
  match t_users t !! id with
  | None => Ok (0, t)
  | Some u =>
      if negb (valid_role (ur_role r)) then Err ErrCheck
      else if has_row (fun k u' => negb (String.eqb k id)
                       && String.eqb (ur_access_key_id u') (ur_access_key_id r)) (t_users t)
      then Err ErrUniqueConstraint
      else Ok (1, with_users (insert id
             (MkUserRow (ur_display_name r) (ur_access_key_id r) (ur_secret_hash r)
                (ur_sigv4_access_key_id u) (ur_sigv4_secret_key u) (ur_role r) (ur_is_active r)
                (ur_created_at u) (ur_updated_at r))) t)
  end.

(** [DELETE FROM users WHERE id = ?]: buckets restrict it, grants and share links
    of the user go with it, grants created by the user lose that reference. *)
Definition delete_user (id : string) : Stmt nat := fun t =>
  match t_users t !! id with
  | None => Ok (0, t)
  | Some _ =>
      if has_row (fun _ b => String.eqb (br_owner_id b) id) (t_buckets t) then Err ErrForeignKey
      else Ok (1,
        with_users (delete id)
          (with_links (filter (fun kv => lr_created_by kv.2 <> id))
            (with_grants (fun g =>
              (fun r => MkGrantRow (gr_bucket_name r) (gr_grantee_user_id r) (gr_action r)
                 (gr_key_prefix r) (gr_is_active r)
                 (if decide (gr_created_by r = Some id) then None else gr_created_by r)
                 (gr_note r) (gr_created_at r) (gr_updated_at r))
              <$> filter (fun kv => gr_grantee_user_id kv.2 <> id) g) t)))
  end.

(** [INSERT INTO buckets] *)
Definition insert_bucket (name : string) (r : BucketRow) : Stmt unit := fun t =>
  if bool_decide (is_Some (t_buckets t !! name)) then Err ErrUniqueConstraint
  else if negb (bool_decide (is_Some (t_users t !! br_owner_id r))) then Err ErrForeignKey
  else Ok (tt, with_buckets (insert name r) t).

(** [UPDATE buckets SET owner_id = ? WHERE name = ? AND owner_id = ?] *)
Definition update_bucket_owner (name owner expected : string) : Stmt nat := fun t =>
  match t_buckets t !! name with
  | None => Ok (0, t)
  | Some b =>
      if negb (String.eqb (br_owner_id b) expected) then Ok (0, t)
      else if negb (bool_decide (is_Some (t_users t !! owner))) then Err ErrForeignKey
      else Ok (1, with_buckets (insert name (MkBucketRow owner (br_created_at b))) t)
  end.

(** [DELETE FROM buckets WHERE name = ?]: objects and uploads restrict it, grants
    and share links go with it. *)
Definition delete_bucket (name : string) : Stmt nat := fun t =>
  match t_buckets t !! name with
  | None => Ok (0, t)
  | Some _ =>
      if has_row (fun k _ => String.eqb k.1 name) (t_objects t)
         || has_row (fun _ u => String.eqb (mr_bucket_name u) name) (t_uploads t)
      then Err ErrForeignKey
      else Ok (1,
        with_buckets (delete name)
          (with_links (filter (fun kv => lr_bucket_name kv.2 <> name))
            (with_grants (filter (fun kv => gr_bucket_name kv.2 <> name)) t)))
  end.

(** [INSERT INTO objects ... ON CONFLICT(bucket_name, key) DO UPDATE]: every column
    is replaced. The primary key [id] must be free, or belong to the row replaced. *)
Definition upsert_object (bucket key : string) (r : ObjectRow) : Stmt unit := fun t =>
  if has_row (fun k o => negb (bool_decide (k = (bucket, key))) && String.eqb (or_id o) (or_id r))
       (t_objects t) then Err ErrUniqueConstraint
  else if negb (bool_decide (is_Some (t_buckets t !! bucket))) then Err ErrForeignKey
  else Ok (tt, with_objects (insert (bucket, key) r) t).

(** [DELETE FROM objects WHERE bucket_name = ? AND key = ?] *)
Definition delete_object (bucket key : string) : Stmt nat := fun t =>
  match t_objects t !! (bucket, key) with
  | None => Ok (0, t)
  | Some _ => Ok (1, with_objects (delete (bucket, key)) t)
  end.

(** [DELETE FROM objects WHERE bucket_name = ? RETURNING ...] *)
Definition delete_objects_in (bucket : string) : Stmt (list (string * string * ObjectRow)) := fun t =>
  Ok (map_to_list (filter (fun kv => kv.1.1 = bucket) (t_objects t)),
      with_objects (filter (fun kv => kv.1.1 <> bucket)) t).

(** [INSERT INTO multipart_uploads], with its trigger. *)
Definition insert_upload (id : string) (r : UploadRow) : Stmt unit := fun t =>
  if negb (valid_status (mr_status r)) then Err (ErrOther "invalid multipart upload status")
  else if bool_decide (is_Some (t_uploads t !! id)) then Err ErrUniqueConstraint
  else if negb (bool_decide (is_Some (t_buckets t !! mr_bucket_name r))) then Err ErrForeignKey
  else Ok (tt, with_uploads (insert id r) t).

(** [UPDATE multipart_uploads SET status = ?, status_updated_at = ? WHERE id = ?] *)
Definition update_upload_status (id status : string) (now : time) : Stmt nat := fun t =>
  match t_uploads t !! id with
  | None => Ok (0, t)
  | Some u =>
      if negb (valid_status status) then Err (ErrOther "invalid multipart upload status")
      else Ok (1, with_uploads (insert id
             (MkUploadRow (mr_bucket_name u) (mr_key u) (mr_content_type u) status
                (mr_created_at u) now (mr_checksum_algorithm u) (mr_user_metadata u))) t)
  end.

(** [DELETE FROM multipart_uploads WHERE id = ?]: the parts go with it. *)
Definition delete_upload (id : string) : Stmt nat := fun t =>
  match t_uploads t !! id with
  | None => Ok (0, t)
  | Some _ => Ok (1, with_uploads (delete id) (with_parts (filter (fun kv => kv.1.1 <> id)) t))
  end.

(** [INSERT INTO multipart_parts ... ON CONFLICT(upload_id, part_number) DO UPDATE] *)
Definition upsert_part (upload : string) (number : Z) (r : PartRow) : Stmt unit := fun t =>
  if negb (bool_decide (is_Some (t_uploads t !! upload))) then Err ErrForeignKey
  else Ok (tt, with_parts (insert (upload, number) r) t).

(** The columns of [idx_grants_unique_active]. *)
Definition same_grant (g h : GrantRow) : bool :=
  String.eqb (gr_bucket_name g) (gr_bucket_name h) &&
  String.eqb (gr_grantee_user_id g) (gr_grantee_user_id h) &&
  String.eqb (gr_action g) (gr_action h) && String.eqb (gr_key_prefix g) (gr_key_prefix h).

(** An active row other than [id] that the unique index would not allow beside [r]. *)
Definition active_duplicate (id : string) (r : GrantRow) (t : Tables) : bool :=
  gr_is_active r &&
  has_row (fun k g => negb (String.eqb k id) && gr_is_active g && same_grant g r) (t_grants t).

Definition grant_references (r : GrantRow) (t : Tables) : bool :=
  bool_decide (is_Some (t_buckets t !! gr_bucket_name r)) &&
  bool_decide (is_Some (t_users t !! gr_grantee_user_id r)) &&
  match gr_created_by r with
  | None => true
  | Some u => bool_decide (is_Some (t_users t !! u))
  end.

(** [INSERT INTO grants] *)
Definition insert_grant (id : string) (r : GrantRow) : Stmt unit := fun t =>
  if bool_decide (is_Some (t_grants t !! id)) then Err ErrUniqueConstraint
  else if active_duplicate id r t then Err ErrUniqueConstraint
  else if negb (grant_references r t) then Err ErrForeignKey
  else Ok (tt, with_grants (insert id r) t).

(** [INSERT INTO grants ... ON CONFLICT (...) WHERE is_active = 1 DO NOTHING] *)
Definition insert_grant_unless_active_duplicate (id : string) (r : GrantRow) : Stmt nat := fun t =>
  if active_duplicate id r t then Ok (0, t)
  else if bool_decide (is_Some (t_grants t !! id)) then
    (* an active duplicate under the same id is a conflict on the index, too *)
    match t_grants t !! id with
    | Some g => if gr_is_active r && gr_is_active g && same_grant g r then Ok (0, t)
                else Err ErrUniqueConstraint
    | None => Err ErrUniqueConstraint
    end
  else if negb (grant_references r t) then Err ErrForeignKey
  else Ok (1, with_grants (insert id r) t).

(** [UPDATE grants SET key_prefix, is_active, note, updated_at WHERE id = ?] *)
Definition update_grant (id prefix : string) (active : bool) (note : option string) (now : time)
    : Stmt nat := fun t =>
  match t_grants t !! id with
  | None => Ok (0, t)
  | Some g =>
      let g' := MkGrantRow (gr_bucket_name g) (gr_grantee_user_id g) (gr_action g) prefix active
                  (gr_created_by g) note (gr_created_at g) now in
      if active_duplicate id g' t then Err ErrUniqueConstraint
      else Ok (1, with_grants (insert id g') t)
  end.

(** [DELETE FROM grants WHERE id = ?] *)
Definition delete_grant (id : string) : Stmt nat := fun t =>
  match t_grants t !! id with
  | None => Ok (0, t)
  | Some _ => Ok (1, with_grants (delete id) t)
  end.

(** [INSERT INTO share_links] *)
Definition insert_link (code : string) (r : ShareLinkRow) : Stmt unit := fun t =>
  if bool_decide (is_Some (t_links t !! code)) then Err ErrUniqueConstraint
  else if negb (bool_decide (is_Some (t_buckets t !! lr_bucket_name r))
                && bool_decide (is_Some (t_users t !! lr_created_by r))) then Err ErrForeignKey
  else Ok (tt, with_links (insert code r) t).

(** [DELETE FROM share_links WHERE code = ?] *)
Definition delete_link (code : string) : Stmt nat := fun t =>
  match t_links t !! code with
  | None => Ok (0, t)
  | Some _ => Ok (1, with_links (delete code) t)
  end.

(** [INSERT INTO object_activity] *)
Definition insert_activity (id : string) (r : ActivityRow) : Stmt unit := fun t =>
  if bool_decide (is_Some (t_activity t !! id)) then Err ErrUniqueConstraint
  else Ok (tt, with_activity (insert id r) t).

(** ** Constraints *)

Section Constraints.
Context {K A P B : Type} `{Countable K} `{Countable P}.
Implicit Types (m : gmap K A) (p : gmap P B) (f : K -> A -> option P).

(** [m REFERENCES p] through the columns [f]; a NULL refers to nothing. *)
Definition fk f m p : Prop :=
  forall k r x, m !! k = Some r -> f k r = Some x -> is_Some (p !! x).

(** The columns [f] are unique in [m]; NULLs are distinct. *)
Definition uniq f m : Prop :=
  forall k k' r r' x, m !! k = Some r -> m !! k' = Some r' ->
    f k r = Some x -> f k' r' = Some x -> k = k'.

Lemma has_row_true (Q : K -> A -> bool) m :
  has_row Q m = true <-> exists k r, m !! k = Some r /\ Q k r = true.
Proof.
  unfold has_row. rewrite existsb_exists. split.
  - intros ([k r] & Hin%list_elem_of_In%elem_of_map_to_list & HQ). eauto.
  - intros (k & r & Hk & HQ). exists (k, r). split; [|done].
    by apply list_elem_of_In, elem_of_map_to_list.
Qed.

Lemma has_row_false (Q : K -> A -> bool) m :
  has_row Q m = false <-> forall k r, m !! k = Some r -> Q k r = false.
Proof.
  split.
  - intros Hf k r Hk. destruct (Q k r) eqn:E; [|done].
    assert (has_row Q m = true) by (apply has_row_true; eauto). congruence.
  - intros Hq. destruct (has_row Q m) eqn:E; [|done].
    apply has_row_true in E as (k & r & Hk & E). by rewrite Hq in E.
Qed.

Lemma fk_sub f m m' p : fk f m p -> m' ⊆ m -> fk f m' p.
Proof. intros Hf Hs k r x Hk Hx. apply (Hf k r x); [by eapply lookup_weaken|done]. Qed.

Lemma fk_insert f m p k r :
  fk f m p -> (forall x, f k r = Some x -> is_Some (p !! x)) -> fk f (<[k := r]> m) p.
Proof.
  intros Hf Hr k' r' x [[<- <-]|[_ Hk]]%lookup_insert_Some Hx; [by apply Hr|by eapply Hf].
Qed.

Lemma fk_parent_insert f m p x b : fk f m p -> fk f m (<[x := b]> p).
Proof.
  intros Hf k r y Hk Hy. destruct (decide (x = y)) as [->|Hne].
  - by rewrite lookup_insert_eq.
  - rewrite lookup_insert_ne by done. by eapply Hf.
Qed.

Lemma fk_parent_delete f m p x :
  fk f m p -> (forall k r, m !! k = Some r -> f k r <> Some x) -> fk f m (delete x p).
Proof.
  intros Hf Hx k r y Hk Hy. rewrite lookup_delete_ne; [by eapply Hf|].
  intros ->. by eapply Hx.
Qed.

Lemma uniq_sub f m m' : uniq f m -> m' ⊆ m -> uniq f m'.
Proof. intros Hu Hs k k' r r' x Hk Hk'. eapply Hu; by eapply lookup_weaken. Qed.

Lemma uniq_insert f m k r :
  uniq f m ->
  (forall k' r' x, k' <> k -> m !! k' = Some r' -> f k r = Some x -> f k' r' <> Some x) ->
  uniq f (<[k := r]> m).
Proof.
  intros Hu Hr k1 k2 r1 r2 x [[<- <-]|[Hn1 H1]]%lookup_insert_Some
    [[<- <-]|[Hn2 H2]]%lookup_insert_Some E1 E2; [done| | |by eapply Hu].
  - by destruct (Hr k2 r2 x).
  - by destruct (Hr k1 r1 x).
Qed.

Lemma map_Forall_sub (Q : K -> A -> Prop) m m' : map_Forall Q m -> m' ⊆ m -> map_Forall Q m'.
Proof. intros HQ Hs k r Hk. apply HQ. by eapply lookup_weaken. Qed.

Lemma fk_delete f m p j : fk f m p -> fk f (delete j m) p.
Proof. intros Hf. eapply fk_sub; [exact Hf|apply delete_subseteq]. Qed.

Lemma fk_filter f m p (Q : K * A -> Prop) `{forall x, Decision (Q x)} :
  fk f m p -> fk f (filter Q m) p.
Proof. intros Hf. eapply fk_sub; [exact Hf|apply map_filter_subseteq]. Qed.

Lemma uniq_delete f m j : uniq f m -> uniq f (delete j m).
Proof. intros Hf. eapply uniq_sub; [exact Hf|apply delete_subseteq]. Qed.

Lemma uniq_filter f m (Q : K * A -> Prop) `{forall x, Decision (Q x)} :
  uniq f m -> uniq f (filter Q m).
Proof. intros Hf. eapply uniq_sub; [exact Hf|apply map_filter_subseteq]. Qed.

Lemma map_Forall_delete_1 (Q : K -> A -> Prop) m j : map_Forall Q m -> map_Forall Q (delete j m).
Proof. intros Hf. eapply map_Forall_sub; [exact Hf|apply delete_subseteq]. Qed.
End Constraints.

(** The columns of an active grant that must be unique. *)
Definition grant_index (_ : string) (g : GrantRow) : option (string * string * string * string) :=
  if gr_is_active g
  then Some (gr_bucket_name g, gr_grantee_user_id g, gr_action g, gr_key_prefix g) else None.

(** Everything the schema enforces. *)
Record wf_tables (t : Tables) : Prop := {
  wt_role : map_Forall (fun _ u => valid_role (ur_role u) = true) (t_users t);
  wt_access_key : uniq (fun _ u => Some (ur_access_key_id u)) (t_users t);
  wt_sigv4_key : uniq (fun _ u => ur_sigv4_access_key_id u) (t_users t);
  wt_bucket_owner : fk (fun _ b => Some (br_owner_id b)) (t_buckets t) (t_users t);
  wt_object_bucket : fk (fun k _ => Some k.1) (t_objects t) (t_buckets t);
  wt_object_id : uniq (fun _ o => Some (or_id o)) (t_objects t);
  wt_upload_bucket : fk (fun _ u => Some (mr_bucket_name u)) (t_uploads t) (t_buckets t);
  wt_upload_status : map_Forall (fun _ u => valid_status (mr_status u) = true) (t_uploads t);
  wt_part_upload : fk (fun k _ => Some k.1) (t_parts t) (t_uploads t);
  wt_grant_bucket : fk (fun _ g => Some (gr_bucket_name g)) (t_grants t) (t_buckets t);
  wt_grant_grantee : fk (fun _ g => Some (gr_grantee_user_id g)) (t_grants t) (t_users t);
  wt_grant_creator : fk (fun _ g => gr_created_by g) (t_grants t) (t_users t);
  wt_grant_unique : uniq grant_index (t_grants t);
  wt_link_bucket : fk (fun _ l => Some (lr_bucket_name l)) (t_links t) (t_buckets t);
  wt_link_creator : fk (fun _ l => Some (lr_created_by l)) (t_links t) (t_users t);
}.

(** A statement that keeps the constraints. *)
Definition stmt_keeps (I : Tables -> Prop) {A} (s : Stmt A) : Prop :=
  forall t, I t -> match s t with Ok (_, t') => I t' | Err _ => True end.

Create HintDb schema.
#[export] Hint Resolve fk_parent_insert fk_delete fk_filter uniq_delete uniq_filter
  map_Forall_delete_1 : schema.

Lemma empty_tables_wf : wf_tables empty_tables.
Proof.
  split; simpl; unfold fk, uniq; intros; try apply map_Forall_empty;
    match goal with H : ∅ !! _ = Some _ |- _ => by rewrite lookup_empty in H end.
Qed.

Lemma insert_user_wf id r : stmt_keeps wf_tables (insert_user id r).
Proof.
  unfold insert_user. intros t Ht. destruct (valid_role (ur_role r)) eqn:Er; simpl; [|done].
  case_bool_decide as Hid; [done|]. destruct (has_row _ _) eqn:Eh; [done|].
  destruct Ht. split; simpl; eauto with schema.
  - by apply map_Forall_insert_2.
  - apply uniq_insert; [done|]. intros k u x _ Hk [= <-] [= E].
    apply has_row_false with (k := k) (r := u) in Eh; [|done].
    by rewrite E, String.eqb_refl in Eh.
  - apply uniq_insert; [done|]. intros k u x _ Hk Ex E.
    apply has_row_false with (k := k) (r := u) in Eh; [|done].
    rewrite E, Ex, String.eqb_refl, orb_true_r in Eh. done.
Qed.

Lemma update_user_wf id r : stmt_keeps wf_tables (update_user id r).
Proof.
  unfold update_user. intros t Ht. destruct (t_users t !! id) as [u|] eqn:Eu; [|done].
  destruct (valid_role (ur_role r)) eqn:Er; simpl; [|done].
  destruct (has_row _ _) eqn:Eh; [done|]. destruct Ht. split; simpl; eauto with schema.
  - by apply map_Forall_insert_2.
  - apply uniq_insert; [done|]. simpl. intros k v x Hne Hk [= <-] [= E].
    apply has_row_false with (k := k) (r := v) in Eh; [|done].
    apply String.eqb_neq in Hne. by rewrite E, String.eqb_refl, Hne in Eh.
  - apply uniq_insert; [done|]. simpl. intros k v x Hne Hk Ex E. by destruct (wt_sigv4_key0 k id v u x).
Qed.

Lemma fk_fmap {K A P B} `{Countable K, Countable P} (f : K -> A -> option P) (g : A -> A)
    (m : gmap K A) (p : gmap P B) :
  fk f m p -> (forall k r x, f k (g r) = Some x -> f k r = Some x) -> fk f (g <$> m) p.
Proof.
  intros Hf Hg k r x Hk Hx. apply lookup_fmap_Some in Hk as (r' & <- & Hk). by eapply Hf, Hg.
Qed.

Lemma uniq_fmap {K A P} `{Countable K, Countable P} (f : K -> A -> option P) (g : A -> A) (m : gmap K A) :
  uniq f m -> (forall k r, f k (g r) = f k r) -> uniq f (g <$> m).
Proof.
  intros Hu Hg k k' r r' x Hk Hk'. apply lookup_fmap_Some in Hk as (s & <- & Hk).
  apply lookup_fmap_Some in Hk' as (s' & <- & Hk'). rewrite !Hg. by eapply Hu.
Qed.

Lemma delete_user_wf id : stmt_keeps wf_tables (delete_user id).
Proof.
  unfold delete_user. intros t Ht. destruct (t_users t !! id) as [u|] eqn:Eu; [|done].
  destruct (has_row _ _) eqn:Eh; [done|]. destruct Ht. split; simpl; eauto with schema.
  - apply fk_parent_delete; [done|]. intros k b Hk [= E].
    apply has_row_false with (k := k) (r := b) in Eh; [|done]. by rewrite E, String.eqb_refl in Eh.
  - apply fk_fmap; [|done]. by eapply fk_sub, map_filter_subseteq.
  - apply fk_parent_delete.
    + apply fk_fmap; [|done]. by eapply fk_sub, map_filter_subseteq.
    + intros k g Hk. apply lookup_fmap_Some in Hk as (g' & <- & Hk).
      apply map_lookup_filter_Some in Hk as [_ Hne]. simpl in *. congruence.
  - apply fk_parent_delete.
    + apply fk_fmap; [by eapply fk_sub, map_filter_subseteq|]. simpl. intros k g x.
      by case_decide.
    + intros k g Hk. apply lookup_fmap_Some in Hk as (g' & <- & Hk). simpl. by case_decide.
  - apply uniq_fmap; [|done]. by eapply uniq_sub, map_filter_subseteq.
  - apply fk_parent_delete; [by eapply fk_sub, map_filter_subseteq|].
    intros k l Hk. apply map_lookup_filter_Some in Hk as [_ Hne]. simpl in *. congruence.
Qed.

Lemma insert_bucket_wf name r : stmt_keeps wf_tables (insert_bucket name r).
Proof.
  unfold insert_bucket. intros t Ht. case_bool_decide; [done|].
  case_bool_decide as Ho; simpl; [|done]. destruct Ht. split; simpl; eauto with schema.
  apply fk_insert; [done|]. by intros x [= <-].
Qed.

Lemma update_bucket_owner_wf name o e : stmt_keeps wf_tables (update_bucket_owner name o e).
Proof.
  unfold update_bucket_owner. intros t Ht. destruct (t_buckets t !! name) as [b|]; [|done].
  destruct (negb _); [done|]. case_bool_decide as Ho; simpl; [|done].
  destruct Ht. split; simpl; eauto with schema.
  apply fk_insert; [done|]. by intros x [= <-].
Qed.

Lemma delete_bucket_wf name : stmt_keeps wf_tables (delete_bucket name).
Proof.
  unfold delete_bucket. intros t Ht. destruct (t_buckets t !! name) as [b|]; [|done].
  destruct (_ || _) eqn:Eh; [done|]. apply orb_false_iff in Eh as [Eo Eu].
  destruct Ht. split; simpl; eauto with schema.
  - apply fk_parent_delete; [done|]. intros k o Hk [= E].
    apply has_row_false with (k := k) (r := o) in Eo; [|done]. by rewrite E, String.eqb_refl in Eo.
  - apply fk_parent_delete; [done|]. intros k u Hk [= E].
    apply has_row_false with (k := k) (r := u) in Eu; [|done]. by rewrite E, String.eqb_refl in Eu.
  - apply fk_parent_delete; [by eapply fk_sub, map_filter_subseteq|].
    intros k g Hk. apply map_lookup_filter_Some in Hk as [_ Hne]. simpl in *. congruence.
  - apply fk_parent_delete; [by eapply fk_sub, map_filter_subseteq|].
    intros k g Hk. apply map_lookup_filter_Some in Hk as [_ Hne]. simpl in *. congruence.
Qed.

Lemma upsert_object_wf bucket key r : stmt_keeps wf_tables (upsert_object bucket key r).
Proof.
  unfold upsert_object. intros t Ht. destruct (has_row _ _) eqn:Eh; [done|].
  case_bool_decide as Hb; simpl; [|done]. destruct Ht. split; simpl; eauto with schema.
  - apply fk_insert; [done|]. by intros x [= <-].
  - apply uniq_insert; [done|]. intros k o x Hne Hk [= <-] [= E].
    apply has_row_false with (k := k) (r := o) in Eh; [|done].
    by rewrite E, String.eqb_refl, bool_decide_false in Eh.
Qed.

Lemma delete_object_wf bucket key : stmt_keeps wf_tables (delete_object bucket key).
Proof.
  unfold delete_object. intros t Ht. destruct (t_objects t !! _); [|done].
  destruct Ht. split; simpl; eauto with schema.
Qed.

Lemma delete_objects_in_wf bucket : stmt_keeps wf_tables (delete_objects_in bucket).
Proof. intros t Ht. destruct Ht. split; simpl; eauto with schema. Qed.

Lemma insert_upload_wf id r : stmt_keeps wf_tables (insert_upload id r).
Proof.
  unfold insert_upload. intros t Ht. destruct (valid_status _) eqn:Es; simpl; [|done].
  case_bool_decide; [done|]. case_bool_decide as Hb; simpl; [|done].
  destruct Ht. split; simpl; eauto with schema.
  - apply fk_insert; [done|]. by intros x [= <-].
  - by apply map_Forall_insert_2.
Qed.

Lemma update_upload_status_wf id status now : stmt_keeps wf_tables (update_upload_status id status now).
Proof.
  unfold update_upload_status. intros t Ht. destruct (t_uploads t !! id) as [u|] eqn:Eu; [|done].
  destruct (valid_status status) eqn:Es; simpl; [|done].
  destruct Ht. split; simpl; eauto with schema.
  - apply fk_insert; [done|]. intros x [= <-]. by eapply wt_upload_bucket0.
  - by apply map_Forall_insert_2.
Qed.

Lemma delete_upload_wf id : stmt_keeps wf_tables (delete_upload id).
Proof.
  unfold delete_upload. intros t Ht. destruct (t_uploads t !! id) as [u|] eqn:Eu; [|done].
  destruct Ht. split; simpl; eauto with schema.
  apply fk_parent_delete; [by eapply fk_sub, map_filter_subseteq|].
  intros k p Hk. apply map_lookup_filter_Some in Hk as [_ Hne]. simpl in *. congruence.
Qed.

Lemma upsert_part_wf upload number r : stmt_keeps wf_tables (upsert_part upload number r).
Proof.
  unfold upsert_part. intros t Ht. case_bool_decide as Hu; simpl; [|done].
  destruct Ht. split; simpl; eauto with schema.
  apply fk_insert; [done|]. by intros x [= <-].
Qed.

Lemma same_grant_index id id' g r x :
  grant_index id g = Some x -> grant_index id' r = Some x ->
  gr_is_active g = true /\ gr_is_active r = true /\ same_grant g r = true.
Proof.
  unfold grant_index, same_grant. destruct (gr_is_active g), (gr_is_active r); try done.
  intros [= <-] [= -> -> -> ->]. by rewrite !String.eqb_refl.
Qed.

(** No active duplicate: the index stays unique. *)
Lemma grant_unique_insert id r t :
  uniq grant_index (t_grants t) -> active_duplicate id r t = false ->
  uniq grant_index (<[id := r]> (t_grants t)).
Proof.
  intros Hu Hd. apply uniq_insert; [done|]. intros k g x Hne Hk Ex Eg.
  destruct (same_grant_index _ _ _ _ _ Eg Ex) as (Ha & Hr & Hs).
  unfold active_duplicate in Hd. rewrite Hr in Hd. simpl in Hd.
  apply has_row_false with (k := k) (r := g) in Hd; [|done].
  apply String.eqb_neq in Hne. by rewrite Hne, Ha, Hs in Hd.
Qed.

Lemma grant_references_spec r t :
  grant_references r t = true ->
  is_Some (t_buckets t !! gr_bucket_name r) /\ is_Some (t_users t !! gr_grantee_user_id r) /\
  (forall x, gr_created_by r = Some x -> is_Some (t_users t !! x)).
Proof.
  unfold grant_references.
  intros [[H1%bool_decide_eq_true H2%bool_decide_eq_true]%andb_true_iff H3]%andb_true_iff.
  split_and!; [done..|]. intros x Ex. rewrite Ex in H3. by apply bool_decide_eq_true in H3.
Qed.

Lemma insert_grant_row_wf id r t :
  wf_tables t -> active_duplicate id r t = false -> grant_references r t = true ->
  wf_tables (with_grants (insert id r) t).
Proof.
  intros Ht Hd Hr. destruct (grant_references_spec r t Hr) as (Hb & Hg & Hc).
  destruct Ht. split; simpl; eauto with schema.
  - apply fk_insert; [done|]. by intros x [= <-].
  - apply fk_insert; [done|]. by intros x [= <-].
  - by apply fk_insert.
  - by apply grant_unique_insert.
Qed.

Lemma insert_grant_wf id r : stmt_keeps wf_tables (insert_grant id r).
Proof.
  unfold insert_grant. intros t Ht. case_bool_decide; [done|].
  destruct (active_duplicate id r t) eqn:Ed; [done|].
  destruct (grant_references r t) eqn:Er; simpl; [|done]. by apply insert_grant_row_wf.
Qed.

Lemma insert_grant_unless_active_duplicate_wf id r :
  stmt_keeps wf_tables (insert_grant_unless_active_duplicate id r).
Proof.
  unfold insert_grant_unless_active_duplicate. intros t Ht.
  destruct (active_duplicate id r t) eqn:Ed; [done|].
  case_bool_decide; [destruct (t_grants t !! id); [destruct (_ && _)|]; done|].
  destruct (grant_references r t) eqn:Er; simpl; [|done]. by apply insert_grant_row_wf.
Qed.

Lemma update_grant_wf id prefix active note now : stmt_keeps wf_tables (update_grant id prefix active note now).
Proof.
  unfold update_grant. intros t Ht. destruct (t_grants t !! id) as [g|] eqn:Eg; [|done].
  cbv zeta. destruct (active_duplicate _ _ _) eqn:Ed; [done|].
  destruct Ht. split; simpl; eauto with schema.
  - apply fk_insert; [done|]. intros x [= <-]. by eapply wt_grant_bucket0.
  - apply fk_insert; [done|]. intros x [= <-]. by eapply wt_grant_grantee0.
  - apply fk_insert; [done|]. simpl. intros x Hx. by eapply wt_grant_creator0.
  - by apply grant_unique_insert.
Qed.

Lemma delete_grant_wf id : stmt_keeps wf_tables (delete_grant id).
Proof.
  unfold delete_grant. intros t Ht. destruct (t_grants t !! id); [|done].
  destruct Ht. split; simpl; eauto with schema.
Qed.

Lemma insert_link_wf code r : stmt_keeps wf_tables (insert_link code r).
Proof.
  unfold insert_link. intros t Ht. case_bool_decide; [done|].
  destruct (_ && _) eqn:E; simpl; [|done].
  apply andb_true_iff in E as [E1%bool_decide_eq_true E2%bool_decide_eq_true].
  destruct Ht. split; simpl; eauto with schema.
  - apply fk_insert; [done|]. by intros x [= <-].
  - apply fk_insert; [done|]. by intros x [= <-].
Qed.

Lemma delete_link_wf code : stmt_keeps wf_tables (delete_link code).
Proof.
  unfold delete_link. intros t Ht. destruct (t_links t !! code); [|done].
  destruct Ht. split; simpl; eauto with schema.
Qed.

Lemma insert_activity_wf id r : stmt_keeps wf_tables (insert_activity id r).
Proof.
  unfold insert_activity. intros t Ht. case_bool_decide; [done|].
  destruct Ht. split; simpl; eauto with schema.
Qed.

#[export] Hint Resolve insert_user_wf update_user_wf delete_user_wf insert_bucket_wf
  update_bucket_owner_wf delete_bucket_wf upsert_object_wf delete_object_wf delete_objects_in_wf
  insert_upload_wf update_upload_status_wf delete_upload_wf upsert_part_wf insert_grant_wf
  insert_grant_unless_active_duplicate_wf update_grant_wf delete_grant_wf insert_link_wf
  delete_link_wf insert_activity_wf : fbs.
