(* ===== verification/Db.v ===== *)
(** * Database access: [database/sql] and [internal/metadata/transaction.go]

    A connection runs statements one at a time; each can fail (a cancelled context,
    a busy or broken database), which an oracle of faults decides. A transaction
    that does not commit leaves the tables as they were. *)

From S2P Require Import Prelude GoStrings Effects Schema.

Record Db : Type := MkDb { db_tables : Tables; db_clock : time; db_faults : list bool }.

Definition set_tables (t : Tables) (s : Db) : Db := MkDb t (db_clock s) (db_faults s).

(** The next answer of the oracle: [true] is a failure. *)
Definition db_fault : M Db bool := fun s =>
  match db_faults s with
  | [] => (Ok false, s)
  | f :: fs => (Ok f, MkDb (db_tables s) (db_clock s) fs)
  end.

Definition db_call {A} (m : M Db A) : M Db A :=
  f <- db_fault ;; if (f : bool) then fail ErrDatabase else m.

(** [ExecContext] *)
Definition exec {A} (stmt : Stmt A) : M Db A := db_call (fun s =>
  match stmt (db_tables s) with
  | Ok (a, t) => (Ok a, set_tables t s)
  | Err e => (Err e, s)
  end).

(** [QueryContext] and [QueryRowContext] *)
Definition query {A} (q : Tables -> A) : M Db A := db_call (fun s => (Ok (q (db_tables s)), s)).

(** [time.Now().UTC()] *)
Definition time_now : M Db time := fun s => (Ok (db_clock s), s).

(** [ctx.Err()] *)
Definition db_ctx : M Db unit := f <- db_fault ;; if (f : bool) then fail ErrContext else ret tt.

(** ** [transaction.go] *)

(** [BEGIN IMMEDIATE] on a connection of its own; no other writer runs until the end. *)
Definition beginImmediate : M Db unit := db_call (ret tt).

(** [commit] *)
Definition commit : M Db unit := db_ctx ;; db_call (ret tt).

(** [tx, err := beginImmediate(...); defer tx.close(); body]: the body ends with
    [commit]; when it returns an error, [close] rolls back (or drops the connection,
    which does the same). *)
Definition in_transaction {A} (body : M Db A) : M Db A :=
  beginImmediate ;; fun s =>
    let '(r, s') := body s in
    match r with
    | Ok a => (Ok a, s')
    | Err e => (Err e, set_tables (db_tables s) s')
    end.

(** [nullify], [sql.NullString] and back. *)
Definition nullify (s : string) : option string := if String.eqb s "" then None else Some s.
Definition null_string (s : option string) : string := match s with Some s => s | None => "" end.

Lemma null_nullify s : null_string (nullify s) = s.
Proof. unfold nullify. by destruct (String.eqb_spec s "") as [->|]. Qed.

(** [ORDER BY] a number. *)
Definition by_time {A} (f : A -> time) (a b : A) : Prop := (f a <= f b)%Z.
#[export] Instance by_time_dec {A} (f : A -> time) : RelDecision (by_time f).
Proof. unfold by_time. solve_decision. Defined.
#[export] Instance by_time_total {A} (f : A -> time) : Total (by_time f).
Proof. intros a b. unfold by_time. lia. Qed.
#[export] Instance by_time_trans {A} (f : A -> time) : Transitive (by_time f).
Proof. intros a b c. unfold by_time. lia. Qed.

(** [ORDER BY] a text, byte by byte. *)
Definition by_text {A} (f : A -> string) (a b : A) : Prop := String.le (f a) (f b).
#[export] Instance by_text_dec {A} (f : A -> string) : RelDecision (by_text f).
Proof. unfold by_text. solve_decision. Defined.
#[export] Instance by_text_total {A} (f : A -> string) : Total (by_text f).
Proof. intros a b. unfold by_text. apply String.le_total. Qed.
#[export] Instance by_text_trans {A} (f : A -> string) : Transitive (by_text f).
Proof. intros a b c. unfold by_text. apply String.le_po. Qed.

(** ** Rules *)

Section DbRules.
Implicit Types s : Db.

Lemma wp_db_fault (Q : result bool -> Db -> Prop) s :
  (forall f fs, Q (Ok f) (MkDb (db_tables s) (db_clock s) fs)) -> wp db_fault Q s.
Proof.
  intros H. unfold wp, db_fault. destruct (db_faults s) as [|f fs] eqn:E; [|apply H].
  specialize (H false (db_faults s)). by destruct s.
Qed.

Lemma wp_db_call {A} (m : M Db A) (Q : result A -> Db -> Prop) s :
  (forall fs, Q (Err ErrDatabase) (MkDb (db_tables s) (db_clock s) fs)) ->
  (forall fs, wp m Q (MkDb (db_tables s) (db_clock s) fs)) -> wp (db_call m) Q s.
Proof. intros H1 H2. apply wp_bind, wp_db_fault. intros [|] fs; [apply H1|apply H2]. Qed.

Lemma wp_db_ctx (Q : result unit -> Db -> Prop) s :
  (forall fs, Q (Err ErrContext) (MkDb (db_tables s) (db_clock s) fs)) ->
  (forall fs, Q (Ok tt) (MkDb (db_tables s) (db_clock s) fs)) -> wp db_ctx Q s.
Proof. intros H1 H2. apply wp_bind, wp_db_fault. intros [|] fs; [apply H1|apply H2]. Qed.

Lemma wp_query {A} (q : Tables -> A) (Q : result A -> Db -> Prop) s :
  (forall fs, Q (Err ErrDatabase) (MkDb (db_tables s) (db_clock s) fs)) ->
  (forall fs, Q (Ok (q (db_tables s))) (MkDb (db_tables s) (db_clock s) fs)) -> wp (query q) Q s.
Proof. intros H1 H2. by apply wp_db_call. Qed.

Lemma wp_exec {A} (stmt : Stmt A) (Q : result A -> Db -> Prop) s :
  (forall fs, Q (Err ErrDatabase) (MkDb (db_tables s) (db_clock s) fs)) ->
  (forall fs, match stmt (db_tables s) with
              | Ok (a, t) => Q (Ok a) (MkDb t (db_clock s) fs)
              | Err e => Q (Err e) (MkDb (db_tables s) (db_clock s) fs)
              end) -> wp (exec stmt) Q s.
Proof.
  intros H1 H2. apply wp_db_call; [done|]. intros fs. unfold wp. simpl. specialize (H2 fs).
  by destruct (stmt (db_tables s)) as [[a t]|e].
Qed.

Lemma wp_time_now (Q : result time -> Db -> Prop) s : Q (Ok (db_clock s)) s -> wp time_now Q s.
Proof. done. Qed.

Lemma wp_commit (Q : result unit -> Db -> Prop) s :
  (forall e fs, e = ErrContext \/ e = ErrDatabase -> Q (Err e) (MkDb (db_tables s) (db_clock s) fs)) ->
  (forall fs, Q (Ok tt) (MkDb (db_tables s) (db_clock s) fs)) -> wp commit Q s.
Proof.
  intros H1 H2. apply wp_bind, wp_db_ctx; [intros; apply H1; by left|]. intros fs.
  apply wp_db_call; [intros; apply H1; by right|done].
Qed.

(** A transaction that fails leaves the tables alone. *)
Lemma wp_in_transaction {A} (body : M Db A) (Q : result A -> Db -> Prop) s :
  (forall e c fs, Q (Err e) (MkDb (db_tables s) c fs)) ->
  (forall fs, wp_ok body (fun a s' => Q (Ok a) s') (MkDb (db_tables s) (db_clock s) fs)) ->
  wp (in_transaction body) Q s.
Proof.
  intros H1 H2. apply wp_bind, wp_db_call; [intros; apply H1|]. intros fs. apply wp_ret.
  specialize (H2 fs). unfold wp_ok, wp in *.
  destruct (body _) as [[a|e] s'] eqn:E; simpl in *; [done|]. apply H1.
Qed.

Lemma wp_in_transaction_full {A} (body : M Db A) (Q : result A -> Db -> Prop) s :
  (forall fs, Q (Err ErrDatabase) (MkDb (db_tables s) (db_clock s) fs)) ->
  (forall fs, wp body (fun r s' => match r with
                                   | Ok a => Q (Ok a) s'
                                   | Err e => Q (Err e) (set_tables (db_tables s) s')
                                   end) (MkDb (db_tables s) (db_clock s) fs)) ->
  wp (in_transaction body) Q s.
Proof.
  intros H1 H2. apply wp_bind, wp_db_call; [intros; apply H1|]. intros fs. apply wp_ret.
  specialize (H2 fs). unfold wp in *. by destruct (body _) as [[a|e] s'] eqn:E; simpl in *.
Qed.
End DbRules.

(** ** Invariants of the tables *)

Definition db_keeps (I : Tables -> Prop) {A} (m : M Db A) : Prop := keeps (fun s => I (db_tables s)) m.

Section DbKeeps.
Context (I : Tables -> Prop).

Lemma keeps_db_call {A} (m : M Db A) : db_keeps I m -> db_keeps I (db_call m).
Proof. intros Hm s Hs. apply wp_db_call; intros fs; [done|]. by apply Hm. Qed.

Lemma keeps_exec {A} (stmt : Stmt A) : stmt_keeps I stmt -> db_keeps I (exec stmt).
Proof.
  intros Hk s Hs. apply wp_exec; intros fs; [done|]. specialize (Hk _ Hs).
  by destruct (stmt (db_tables s)) as [[a t]|e].
Qed.

Lemma keeps_query {A} (q : Tables -> A) : db_keeps I (query q).
Proof. intros s Hs. by apply wp_query. Qed.

Lemma keeps_time_now : db_keeps I time_now.
Proof. by intros s. Qed.

Lemma keeps_db_ctx : db_keeps I db_ctx.
Proof. intros s Hs. by apply wp_db_ctx. Qed.

Lemma keeps_commit : db_keeps I commit.
Proof. intros s Hs. by apply wp_commit. Qed.

Lemma keeps_in_transaction {A} (body : M Db A) : db_keeps I body -> db_keeps I (in_transaction body).
Proof.
  intros Hb s Hs. apply wp_in_transaction; [done|]. intros fs.
  apply wp_ok_intro. intros a s' E. by apply (wp_run body (fun _ s' => I (db_tables s')) _ _ _ E), Hb.
Qed.
End DbKeeps.

#[export] Hint Resolve keeps_db_call keeps_exec keeps_query keeps_time_now keeps_db_ctx
  keeps_commit keeps_in_transaction : fbs.

(** Every step of a repository keeps an invariant of the tables. *)
Ltac db_keeps_steps :=
  repeat lazymatch goal with
    | |- db_keeps _ (bind _ _) => unfold db_keeps; apply keeps_bind; [|intros ?]
    | |- keeps _ (bind _ _) => apply keeps_bind; [|intros ?]
    | |- keeps (fun s => ?I (db_tables s)) ?m => change (db_keeps I m)
    | |- db_keeps _ (in_transaction _) => apply keeps_in_transaction
    | |- db_keeps _ (attempt _) => apply keeps_attempt
    | |- db_keeps _ (exec _) => solve [eauto with fbs]
    | |- db_keeps _ (query _) => apply keeps_query
    | |- db_keeps _ time_now => apply keeps_time_now
    | |- db_keeps _ commit => apply keeps_commit
    | |- db_keeps _ (ret _) => apply keeps_ret
    | |- db_keeps _ (fail _) => apply keeps_fail
    | |- db_keeps _ (lift_result _) => apply keeps_lift_result
    | |- db_keeps _ (match ?x with _ => _ end) => destruct x eqn:?
    | |- db_keeps _ _ => solve [eauto with fbs]
    end.

Section DbOk.
Implicit Types s : Db.

Lemma wp_ok_query {A} (q : Tables -> A) (Q : A -> Db -> Prop) s :
  (forall fs, Q (q (db_tables s)) (MkDb (db_tables s) (db_clock s) fs)) -> wp_ok (query q) Q s.
Proof. intros H. by apply wp_query. Qed.

Lemma wp_ok_exec {A} (stmt : Stmt A) (Q : A -> Db -> Prop) s :
  (forall a t fs, stmt (db_tables s) = Ok (a, t) -> Q a (MkDb t (db_clock s) fs)) ->
  wp_ok (exec stmt) Q s.
Proof.
  intros H. apply wp_exec; [done|]. intros fs. destruct (stmt (db_tables s)) as [[a t]|] eqn:E; [|done].
  by apply H.
Qed.

Lemma wp_ok_commit (Q : unit -> Db -> Prop) s :
  (forall fs, Q tt (MkDb (db_tables s) (db_clock s) fs)) -> wp_ok commit Q s.
Proof. intros H. by apply wp_commit. Qed.

Lemma wp_ok_time_now (Q : time -> Db -> Prop) s : Q (db_clock s) s -> wp_ok time_now Q s.
Proof. done. Qed.
End DbOk.

(** Without faults the calls run. *)
Section DbRun.
Implicit Types s : Db.

Lemma now_bind {A} (k : time -> M Db A) s : (now <- time_now ;; k now) s = k (db_clock s) s.
Proof. reflexivity. Qed.

Lemma query_run {A} (q : Tables -> A) s : db_faults s = [] -> query q s = (Ok (q (db_tables s)), s).
Proof. intros Hf. unfold query, db_call, bind, db_fault. by rewrite Hf. Qed.

Lemma exec_run {A} (stmt : Stmt A) s :
  db_faults s = [] ->
  exec stmt s = match stmt (db_tables s) with
                | Ok (a, t) => (Ok a, set_tables t s)
                | Err e => (Err e, s)
                end.
Proof. intros Hf. unfold exec, db_call, bind, db_fault. by rewrite Hf. Qed.

Lemma commit_run s : db_faults s = [] -> commit s = (Ok tt, s).
Proof. intros Hf. unfold commit, db_ctx, db_call, bind, db_fault. by rewrite Hf; simpl; rewrite Hf. Qed.

Lemma in_transaction_run {A} (body : M Db A) s :
  db_faults s = [] ->
  in_transaction body s =
    (let '(r, s') := body s in
     match r with Ok a => (Ok a, s') | Err e => (Err e, set_tables (db_tables s) s') end).
Proof. intros Hf. unfold in_transaction, beginImmediate, db_call, bind, db_fault. by rewrite Hf. Qed.
End DbRun.
