(* ===== verification/ObjectRepo.v ===== *)
(** * Objects: [internal/metadata/objects.go], [object_replace.go]

    The SQLite repository of objects: upserts, conditional replacement, and the
    two listings with their pagination. *)

From S2P Require Import Prelude GoStrings Effects Schema Db.

(** [metadata.Object] *)
Record Object : Type := MkObject {
  o_id : string;
  o_bucket_name : string;
  o_key : string;
  o_size : Z;
  o_etag : string;
  o_content_type : string;
  o_storage_path : string;
  o_created_at : time;
  o_updated_at : time;
  o_is_multipart : bool;
  o_parts_count : Z;
  o_crc32 : string;
  o_crc32c : string;
  o_crc64nvme : string;
  o_sha1 : string;
  o_sha256 : string;
  o_user_metadata : StringMap;
}.

#[export] Instance object_eq_dec : EqDecision Object.
Proof. solve_decision. Defined.

(** [metadata.DelimitedListEntry] *)
Record DelimitedListEntry : Type := MkEntry {
  e_virtual_key : string;
  e_cursor_key : string;
  e_is_prefix : bool;
  e_object : option Object;
}.

(** ** Text functions of SQLite

    [length], [substr] and [instr] count characters: a byte of 0xC0 and above
    starts one and takes the continuation bytes that follow. *)

Definition is_lead (a : ascii) : bool := (0xC0 <=? byte_val a)%Z.

(** The text of [s] that continues the character before it, and the characters that follow. *)
Fixpoint split_chars (inside : bool) (s : string) : string * list string :=
  match s with
  | EmptyString => ("", [])
  | String a r =>
      if inside && is_cont a
      then let '(c, l) := split_chars true r in (String a c, l)
      else let '(c, l) := split_chars (is_lead a) r in ("", String a c :: l)
  end.

Definition sql_chars (s : string) : list string := (split_chars false s).2.

Definition concat_chars (l : list string) : string := foldr String.append "" l.

(** [length(X)] *)
Definition sql_length (s : string) : nat := length (sql_chars s).

(** [substr(X, 1, n)] and [substr(X, n + 1)] *)
Definition sql_left (n : nat) (s : string) : string := concat_chars (take n (sql_chars s)).
Definition sql_from (n : nat) (s : string) : string := concat_chars (drop n (sql_chars s)).

(** [instr(X, Y)]: the position, from 1, of the first occurrence; 0 for none. *)
Fixpoint instr_chars (pos : nat) (l : list string) (y : string) : nat :=
  if has_prefix (concat_chars l) y then pos
  else match l with [] => 0 | _ :: l' => instr_chars (S pos) l' y end.
Definition sql_instr (x y : string) : nat := instr_chars 1 (sql_chars x) y.

(** [substr(key, 1, length(p)) = p] *)
Definition sql_prefix (key p : string) : bool := String.eqb (sql_left (sql_length p) key) p.

(** [utf8.RuneCountInString]: a byte that starts no valid sequence counts as one rune. *)
Fixpoint rune_count (s : string) : nat :=
  match s with
  | EmptyString => 0
  | String a s1 =>
      S (match utf8_lead a, s1 with
         | Some (1, second), String b s2 =>
             if second b then rune_count s2 else rune_count s1
         | Some (2, second), String b (String c s3) =>
             if second b && is_cont c then rune_count s3 else rune_count s1
         | Some (3, second), String b (String c (String d s4)) =>
             if second b && is_cont c && is_cont d then rune_count s4 else rune_count s1
         | _, _ => rune_count s1
         end)
  end.

Module ObjectRepository.

(** ** Rows *)

(** [applyScannedExtras] *)
Definition applyScannedExtras (o : Object) (r : ObjectRow) : Object :=
  MkObject (o_id o) (o_bucket_name o) (o_key o) (o_size o) (o_etag o) (o_content_type o)
    (o_storage_path o) (or_created_at r) (or_updated_at r) (o_is_multipart o) (o_parts_count o)
    (null_string (or_crc32 r)) (null_string (or_crc32c r)) (null_string (or_crc64nvme r))
    (null_string (or_sha1 r)) (null_string (or_sha256 r))
    (match or_user_metadata r with Some m => m | None => None end).

(** [scanObject] *)
Definition scanObject (bucket key : string) (r : ObjectRow) : Object :=
  applyScannedExtras
    (MkObject (or_id r) bucket key (or_size r) (or_etag r) (or_content_type r) (or_storage_path r)
       0 0 (or_is_multipart r) (or_parts_count r) "" "" "" "" "" None) r.

(** The arguments of the upsert. *)
Definition object_row (o : Object) : ObjectRow :=
  let metaStr := match o_user_metadata o with
                 | Some m => if bool_decide (m = ∅) then None else Some (Some m)
                 | None => None
                 end in
  MkObjectRow (o_id o) (o_size o) (o_etag o) (o_content_type o) (o_storage_path o)
    (o_created_at o) (o_updated_at o) (o_is_multipart o) (o_parts_count o)
    (nullify (o_crc32 o)) (nullify (o_crc32c o)) (nullify (o_crc64nvme o))
    (nullify (o_sha1 o)) (nullify (o_sha256 o)) metaStr.

Definition set_times (o : Object) (created updated : time) : Object :=
  MkObject (o_id o) (o_bucket_name o) (o_key o) (o_size o) (o_etag o) (o_content_type o)
    (o_storage_path o) created updated (o_is_multipart o) (o_parts_count o)
    (o_crc32 o) (o_crc32c o) (o_crc64nvme o) (o_sha1 o) (o_sha256 o) (o_user_metadata o).

(** ** Writing *)

(** [upsertObject]; the result is [*obj], whose times it may have set. *)
Definition upsertObject (obj : Object) : M Db Object :=
  now <- time_now ;;
  let created := if time_is_zero (o_created_at obj) then now else o_created_at obj in
  let updated := if time_is_zero (o_updated_at obj) then created else o_updated_at obj in
  let obj := set_times obj created updated in
  exec (upsert_object (o_bucket_name obj) (o_key obj) (object_row obj)) ;;
  ret obj.

Definition Create (obj : Object) : M Db Object := upsertObject obj.

Definition GetByKey (bucketName key : string) : M Db Object :=
  row <- query (fun t => t_objects t !! (bucketName, key)) ;;
  match row with
  | None => fail ErrObjectNotFound
  | Some r => ret (scanObject bucketName key r)
  end.

(** [unquoteETag] and [etagsEqual] of multipart.go. *)
Definition unquoteETag (etag : string) : string :=
  if (2 <=? string_len etag)%Z && has_prefix etag quote_str && has_suffix etag quote_str
  then take_bytes (String.length etag - 2) (drop_bytes 1 etag) else etag.

Definition etagsEqual (a b : string) : bool := equal_fold (unquoteETag a) (unquoteETag b).

(** [objectVersion]: the storage path and etag of the stored row, if there is one. *)
Record objectVersion : Type := MkVersion { v_exists : bool; v_storage_path : string; v_etag : string }.

Definition loadObjectVersion (bucketName key : string) : M Db objectVersion :=
  row <- query (fun t => t_objects t !! (bucketName, key)) ;;
  match row with
  | None => ret (MkVersion false "" "")
  | Some r => ret (MkVersion true (or_storage_path r) (or_etag r))
  end.

Definition checkWritePreconditions (existing : objectVersion) (ifMatch ifNoneMatch : string)
    : result unit :=
  if negb (v_exists existing) then
    if negb (String.eqb ifMatch "") then Err ErrObjectNotFound else Ok tt
  else if negb (String.eqb ifMatch "") && negb (String.eqb ifMatch "*")
          && negb (etagsEqual ifMatch (v_etag existing)) then Err ErrPreconditionFailed
  else if String.eqb ifNoneMatch "*"
          || (negb (String.eqb ifNoneMatch "") && etagsEqual ifNoneMatch (v_etag existing))
       then Err ErrPreconditionFailed
  else Ok tt.

(** [Replace]: the storage path of the version replaced. *)
Definition Replace (object : Object) (ifMatch ifNoneMatch : string) : M Db string :=
  in_transaction (
    existing <- loadObjectVersion (o_bucket_name object) (o_key object) ;;
    lift_result (checkWritePreconditions existing ifMatch ifNoneMatch) ;;
    upsertObject object ;;
    commit ;;
    ret (v_storage_path existing)).

Definition Delete (bucketName key : string) : M Db unit :=
  rows <- exec (delete_object bucketName key) ;;
  if Nat.eqb rows 0 then fail ErrObjectNotFound else ret tt.

Definition DeleteAllInBucket (bucketName : string) : M Db unit :=
  exec (delete_objects_in bucketName) ;; ret tt.

(** ** Listing *)

(** The objects of a bucket that a condition on the key selects, [ORDER BY key ASC]. *)
Definition select_objects (bucketName : string) (P : string -> bool) (t : Tables) : list Object :=
  merge_sort (by_text o_key)
    ((fun kv => scanObject kv.1.1 kv.1.2 kv.2) <$>
     filter (fun kv => kv.1.1 = bucketName /\ P kv.1.2 = true) (map_to_list (t_objects t))).

(** [key > ?] *)
Definition text_after (key startAfter : string) : bool := String.ltb startAfter key.

Definition list_condition (prefix startAfter key : string) : bool :=
  text_after key startAfter && (String.eqb prefix "" || sql_prefix key prefix).

Definition List (bucketName prefix startAfter : string) (maxKeys : Z) : M Db (list Object * bool) :=
  if (maxKeys <=? 0)%Z then ret ([], false)
  else
    let limit := Z.to_nat (maxKeys + 1) in
    objects <- query (fun t => take limit (select_objects bucketName (list_condition prefix startAfter) t)) ;;
    if (maxKeys <? Z.of_nat (length objects))%Z
    then ret (take (Z.to_nat maxKeys) objects, true)
    else ret (objects, false).

(** The common table expressions of [ListDelimited]: the virtual key of a key, and
    whether it is a common prefix. *)
Definition virtual_key (prefixLen : nat) (delimiter key : string) : string * bool :=
  let remainder := sql_from prefixLen key in
  let pos := sql_instr remainder delimiter in
  if negb (String.eqb delimiter "") && (0 <? pos)%nat
  then (sql_left (prefixLen + pos + sql_length delimiter - 1)%nat key, true)
  else (key, false).

Definition max_text (a b : string) : string := if String.leb a b then b else a.

(** [GROUP BY virtual_key]: [max(key)], [max(is_cp)]. *)
Definition add_to_group (prefixLen : nat) (delimiter : string)
    (m : gmap string (string * bool)) (key : string) : gmap string (string * bool) :=
  let '(vk, cp) := virtual_key prefixLen delimiter key in
  <[vk := match m !! vk with
          | None => (key, cp)
          | Some (cursor, cp') => (max_text cursor key, cp' || cp)
          end]> m.

Definition group_keys (prefixLen : nat) (delimiter : string) (keys : list string)
    : gmap string (string * bool) :=
  fold_left (add_to_group prefixLen delimiter) keys ∅.

Definition raw_condition (prefix : string) (prefixLen : nat) (startAfter key : string) : bool :=
  text_after key startAfter && (String.eqb prefix "" || String.eqb (sql_left prefixLen key) prefix).

Definition select_groups (bucketName prefix startAfter delimiter : string) (t : Tables)
    : list DelimitedListEntry :=
  let prefixLen := rune_count prefix in
  let raw := o_key <$> select_objects bucketName (raw_condition prefix prefixLen startAfter) t in
  let grouped := group_keys prefixLen delimiter raw in
  merge_sort (by_text e_virtual_key)
    ((fun g => MkEntry g.1 g.2.1 g.2.2
        (if g.2.2 then None
         else Some (match t_objects t !! (bucketName, g.1) with
                    | Some r =>
                        MkObject (or_id r) bucketName g.1 (or_size r) (or_etag r)
                          (or_content_type r) (or_storage_path r) (or_created_at r) (or_updated_at r)
                          false 0 "" "" "" "" "" None
                    | None => MkObject "" "" "" 0 "" "" "" 0 0 false 0 "" "" "" "" "" None
                    end)))
     <$> filter (fun g => text_after g.1 startAfter = true) (map_to_list grouped)).

Definition ListDelimited (bucketName prefix startAfter delimiter : string) (maxKeys : Z)
    : M Db (list DelimitedListEntry) :=
  if (maxKeys <=? 0)%Z then ret []
  else query (fun t => take (Z.to_nat (maxKeys + 1))
                         (select_groups bucketName prefix startAfter delimiter t)).

End ObjectRepository.

(** ** Characters *)

Lemma concat_chars_app l k : concat_chars (l ++ k) = concat_chars l +:+ concat_chars k.
Proof. induction l as [|c l IH]; simpl; [done|]. by rewrite IH, append_assoc. Qed.

Lemma split_chars_concat b s : let '(c, l) := split_chars b s in s = c +:+ concat_chars l.
Proof.
  revert b; induction s as [|a s IH]; intros b; simpl; [done|]. destruct (b && is_cont a).
  - specialize (IH true). destruct (split_chars true s) as [c l]. simpl. by rewrite IH at 1.
  - specialize (IH (is_lead a)). destruct (split_chars (is_lead a) s) as [c l]. simpl. by rewrite IH at 1.
Qed.

Lemma split_chars_out s : (split_chars false s).1 = "".
Proof. destruct s; simpl; [done|]. by destruct (split_chars _ _). Qed.

Lemma concat_sql_chars s : concat_chars (sql_chars s) = s.
Proof.
  unfold sql_chars. pose proof (split_chars_concat false s) as H.
  pose proof (split_chars_out s) as Hc. destruct (split_chars false s) as [c l]. simpl in *.
  by rewrite Hc in H.
Qed.

Lemma sql_left_from n s : sql_left n s +:+ sql_from n s = s.
Proof.
  unfold sql_left, sql_from. rewrite <- concat_chars_app, take_drop. apply concat_sql_chars.
Qed.

Lemma sql_left_prefix n s : has_prefix s (sql_left n s) = true.
Proof. apply has_prefix_spec. exists (sql_from n s). by rewrite sql_left_from. Qed.

(** A text that starts a new character. *)
Definition starts_char (s : string) : bool :=
  match s with EmptyString => true | String a _ => negb (is_cont a) end.

Lemma split_chars_start b s : starts_char s = true -> split_chars b s = split_chars false s.
Proof.
  destruct s as [|a s]; [done|]. simpl. intros Ha%negb_true_iff. by rewrite Ha, andb_false_r.
Qed.

Lemma split_chars_append b s t :
  starts_char t = true ->
  split_chars b (s +:+ t) =
  ((split_chars b s).1, (split_chars b s).2 ++ sql_chars t).
Proof.
  intros Ht. revert b; induction s as [|a s IH]; intros b; simpl.
  - rewrite split_chars_start by done. unfold sql_chars.
    pose proof (split_chars_out t). by destruct (split_chars false t); simpl in *; subst.
  - destruct (b && is_cont a); rewrite IH.
    + by destruct (split_chars true s).
    + by destruct (split_chars (is_lead a) s).
Qed.

Lemma sql_chars_append s t : starts_char t = true -> sql_chars (s +:+ t) = sql_chars s ++ sql_chars t.
Proof. intros Ht. unfold sql_chars at 1. by rewrite split_chars_append. Qed.

(** SQLite's prefix test is a test of bytes, except that it does not cut a
    character in two. *)
Lemma sql_prefix_spec key p :
  sql_prefix key p = true -> has_prefix key p = true.
Proof. intros <-%String.eqb_eq. apply sql_left_prefix. Qed.

Lemma sql_prefix_char p r : starts_char r = true -> sql_prefix (p +:+ r) p = true.
Proof.
  intros Hr. unfold sql_prefix, sql_left, sql_length. rewrite sql_chars_append by done.
  rewrite take_app_length, concat_sql_chars. apply String.eqb_refl.
Qed.

(** ** Sorted listings *)

Lemma ltb_lt x y : String.ltb x y = true <-> String.le x y /\ x <> y.
Proof.
  unfold String.le, String.ltb, String.leb. split.
  - destruct (String.compare x y) eqn:E; try done. intros _. split; [done|]. intros ->.
    pose proof (String.compare_antisym y y) as Ha. by rewrite E in Ha.
  - intros [Hle Hne]. destruct (String.compare x y) eqn:E; try done.
    by apply String.compare_eq_iff in E.
Qed.

Module ObjectListing.
Import ObjectRepository.

Lemma text_after_spec key after : text_after key after = true <-> String.le after key /\ after <> key.
Proof. apply ltb_lt. Qed.

Lemma text_after_trans a b c : text_after a b = true -> text_after b c = true -> text_after a c = true.
Proof.
  rewrite !text_after_spec. intros [H1 N1] [H2 N2]. split; [by etrans|].
  intros ->. apply N2. by apply (anti_symm String.le).
Qed.

Lemma text_after_irrefl a : text_after a a = false.
Proof. apply not_true_iff_false. rewrite text_after_spec. by intros [_ ?]. Qed.

(** Two sorted lists with the same elements are equal when keys tell them apart. *)
Lemma sorted_by_unique {A} (f : A -> string) (l k : list A) :
  (forall x y, x ∈ l -> y ∈ l -> f x = f y -> x = y) ->
  StronglySorted (by_text f) l -> StronglySorted (by_text f) k -> l ≡ₚ k -> l = k.
Proof.
  intros Hf Hl Hk Hp. apply (StronglySorted_unique_strong (by_text f)); [|done..].
  intros x y Hx Hy Hxy Hyx. apply Hf; [done|by rewrite Hp|].
  by apply (anti_symm String.le).
Qed.

Lemma StronglySorted_filter {A} (R : A -> A -> Prop) (P : A -> Prop) `{forall x, Decision (P x)} l :
  StronglySorted R l -> StronglySorted R (filter P l).
Proof.
  induction 1 as [|x l Hl IH Hx]; [constructor|]. rewrite filter_cons. case_decide; [|done].
  constructor; [done|]. apply Forall_forall. intros y [_ Hy]%list_elem_of_filter.
  rewrite Forall_forall in Hx. auto.
Qed.

Lemma NoDup_snd_filter_keys (t : Tables) (P : (string * string) * ObjectRow -> Prop)
    `{forall x, Decision (P x)} :
  NoDup (fst <$> filter P (map_to_list (t_objects t))).
Proof.
  apply (sublist_NoDup _ (fst <$> map_to_list (t_objects t)));
    [apply NoDup_fst_map_to_list|]. apply fmap_sublist, sublist_filter.
Qed.

Lemma scanObject_key b k r : o_key (scanObject b k r) = k /\ o_bucket_name (scanObject b k r) = b.
Proof. done. Qed.

Lemma elem_of_select_objects b P t o :
  o ∈ select_objects b P t <->
  exists r, t_objects t !! (b, o_key o) = Some r /\ P (o_key o) = true /\ o = scanObject b (o_key o) r.
Proof.
  unfold select_objects. rewrite merge_sort_Permutation, list_elem_of_fmap. split.
  - intros ([[b' k] r] & -> & [[Hb HP] Hin]%list_elem_of_filter). simpl in *. subst b'.
    apply elem_of_map_to_list in Hin. by exists r.
  - intros (r & Hr & HP & Ho). exists ((b, o_key o), r). split; [done|].
    apply list_elem_of_filter. split; [done|]. by apply elem_of_map_to_list.
Qed.

Lemma select_objects_sorted b P t : StronglySorted (by_text o_key) (select_objects b P t).
Proof. apply StronglySorted_merge_sort; apply _. Qed.

Lemma select_objects_keys_inj b P t x y :
  x ∈ select_objects b P t -> y ∈ select_objects b P t -> o_key x = o_key y -> x = y.
Proof.
  rewrite !elem_of_select_objects. intros (r & Hr & _ & ->) (r' & Hr' & _ & ->) E. simpl in *.
  rewrite E in *. by simplify_eq.
Qed.

Lemma select_objects_NoDup_keys b P t : NoDup (o_key <$> select_objects b P t).
Proof.
  unfold select_objects.
  rewrite (fmap_Permutation o_key _ _ (merge_sort_Permutation (by_text o_key) _)).
  rewrite <- list_fmap_compose.
  pose proof (NoDup_snd_filter_keys t (fun kv => kv.1.1 = b /\ P kv.1.2 = true)) as Hnd.
  revert Hnd. generalize (map_to_list (t_objects t)). intros l.
  assert (Hb : Forall (fun kv => kv.1.1 = b) (filter (fun kv => kv.1.1 = b /\ P kv.1.2 = true) l)).
  { apply Forall_forall. by intros kv [[? _] _]%list_elem_of_filter. }
  revert Hb. generalize (filter (fun kv => kv.1.1 = b /\ P kv.1.2 = true) l). clear l. intros l Hb.
  induction Hb as [|[[b' k] r] l Hx Hl IH]; [constructor|]. simpl in *. subst b'.
  intros [Hn Hnd]%NoDup_cons. constructor; [|by apply IH].
  intros Hin. apply Hn. apply list_elem_of_fmap in Hin as ([[b' k'] r'] & -> & Hin). simpl.
  rewrite Forall_forall in Hl. specialize (Hl _ Hin). simpl in Hl. subst b'.
  apply list_elem_of_fmap. by exists ((b, k'), r').
Qed.

Lemma select_objects_NoDup b P t : NoDup (select_objects b P t).
Proof. eapply NoDup_fmap_1, select_objects_NoDup_keys. Qed.

(** A narrower condition selects a sublist, in the same order. *)
Lemma select_objects_filter b P Q t :
  (forall k, Q k = true -> P k = true) ->
  select_objects b Q t = filter (fun o => Q (o_key o) = true) (select_objects b P t).
Proof.
  intros HPQ. apply (sorted_by_unique o_key).
  - intros x y. apply select_objects_keys_inj.
  - apply select_objects_sorted.
  - apply StronglySorted_filter, select_objects_sorted.
  - apply NoDup_Permutation; [apply select_objects_NoDup|apply NoDup_filter, select_objects_NoDup|].
    intros o. rewrite list_elem_of_filter, !elem_of_select_objects. split.
    + intros (r & Hr & HQ & Ho). split; [done|]. exists r. split_and!; [done|by apply HPQ|done].
    + intros (HQ & r & Hr & _ & Ho). by exists r.
Qed.

(** The listing after the last key of a page is the rest of the listing. *)
Lemma select_after b P t l1 x l2 :
  select_objects b P t = l1 ++ x :: l2 ->
  select_objects b (fun k => P k && text_after k (o_key x)) t = l2.
Proof.
  intros E. rewrite (select_objects_filter b P) by (intros k; by intros [? _]%andb_true_iff).
  pose proof (select_objects_sorted b P t) as Hs. pose proof (select_objects_NoDup_keys b P t) as Hn.
  assert (HP : forall o, o ∈ select_objects b P t -> P (o_key o) = true).
  { intros o (r & _ & HP & _)%elem_of_select_objects. done. }
  rewrite E in *. rewrite filter_app, filter_cons.
  apply StronglySorted_app in Hs as (H12 & H1 & H2). apply StronglySorted_cons in H2 as [Hx H2].
  rewrite fmap_app, fmap_cons in Hn. apply NoDup_app in Hn as (Hn1 & Hn12 & [Hnx Hn2]%NoDup_cons).
  rewrite decide_False by (rewrite text_after_irrefl, andb_false_r; done).
  replace (filter _ l1) with (@nil Object).
  - simpl. apply list_filter_all. intros o Ho.
    apply andb_true_iff. split; [apply HP; set_solver|]. apply text_after_spec. split.
    + rewrite Forall_forall in Hx. by apply Hx.
    + intros Ek. apply Hnx. rewrite Ek. by apply list_elem_of_fmap_2.
  - symmetry. apply list_filter_none. intros o Ho.
    rewrite andb_true_iff, text_after_spec. intros [_ [Hle Hne]]. apply Hne.
    apply (anti_symm String.le); [done|]. by apply H12; [|left].
Qed.

End ObjectListing.

(** ** Conditional replacement *)

Module ObjectSpec.
Import ObjectRepository.

(** What If-Match and If-None-Match ask of the stored row. *)
Definition preconditions_hold (current : option ObjectRow) (ifMatch ifNoneMatch : string) : Prop :=
  match current with
  | None => ifMatch = ""
  | Some r =>
      (ifMatch = "" \/ ifMatch = "*" \/ etagsEqual ifMatch (or_etag r) = true) /\
      ifNoneMatch <> "*" /\ (ifNoneMatch = "" \/ etagsEqual ifNoneMatch (or_etag r) = false)
  end.

Definition version_of (current : option ObjectRow) : objectVersion :=
  match current with
  | None => MkVersion false "" ""
  | Some r => MkVersion true (or_storage_path r) (or_etag r)
  end.

Lemma checkWritePreconditions_spec current ifMatch ifNoneMatch :
  checkWritePreconditions (version_of current) ifMatch ifNoneMatch = Ok tt <->
  preconditions_hold current ifMatch ifNoneMatch.
Proof.
  destruct current as [r|]; unfold checkWritePreconditions; simpl.
  - destruct (String.eqb_spec ifMatch ""), (String.eqb_spec ifMatch "*"),
      (etagsEqual ifMatch (or_etag r)), (String.eqb_spec ifNoneMatch "*"),
      (String.eqb_spec ifNoneMatch ""), (etagsEqual ifNoneMatch (or_etag r));
      simpl; split; try done; intuition congruence.
  - destruct (String.eqb_spec ifMatch ""); simpl; split; done.
Qed.

Lemma wp_ok_loadObjectVersion bucket key (Q : objectVersion -> Db -> Prop) s :
  (forall fs, Q (version_of (t_objects (db_tables s) !! (bucket, key))) (MkDb (db_tables s) (db_clock s) fs)) ->
  wp_ok (loadObjectVersion bucket key) Q s.
Proof.
  intros H. unfold loadObjectVersion. apply wp_ok_bind, wp_ok_query. intros fs. specialize (H fs).
  by destruct (t_objects (db_tables s) !! (bucket, key)).
Qed.

(** The row of [obj] with the times that an upsert at [now] gives it. *)
Definition stored_object (obj : Object) (now : time) : Object :=
  let created := if time_is_zero (o_created_at obj) then now else o_created_at obj in
  set_times obj created (if time_is_zero (o_updated_at obj) then created else o_updated_at obj).

Definition put_object (obj : Object) (now : time) (t : Tables) : Tables :=
  with_objects (insert (o_bucket_name obj, o_key obj) (object_row (stored_object obj now))) t.

Lemma upsert_object_ok bucket key r t x :
  upsert_object bucket key r t = Ok x -> x = (tt, with_objects (insert (bucket, key) r) t) /\
  is_Some (t_buckets t !! bucket) /\
  (forall k o, t_objects t !! k = Some o -> or_id o = or_id r -> k = (bucket, key)).
Proof.
  unfold upsert_object. destruct (has_row _ _) eqn:Eh; [done|].
  case_bool_decide as Hb; simpl; [|done]. intros [= <-]. split_and!; [done|done|].
  intros k o Hk E. apply has_row_false with (k := k) (r := o) in Eh; [|done].
  rewrite E, String.eqb_refl, andb_true_r in Eh. by apply negb_false_iff, bool_decide_eq_true in Eh.
Qed.

Lemma wp_ok_upsertObject obj (Q : Object -> Db -> Prop) s :
  (forall fs, Q (stored_object obj (db_clock s))
                (MkDb (put_object obj (db_clock s) (db_tables s)) (db_clock s) fs)) ->
  wp_ok (upsertObject obj) Q s.
Proof.
  intros H. unfold upsertObject. apply wp_ok_bind, wp_ok_time_now. cbv zeta.
  apply wp_ok_bind, wp_ok_exec. intros a t fs E. apply upsert_object_ok in E as [[= -> ->] _].
  apply wp_ok_ret. apply H.
Qed.

(** What [Replace] does. *)
Definition replace_result (obj : Object) (ifMatch ifNoneMatch : string) (s : Db) (r : result string) (s' : Db)
    : Prop :=
  let current := t_objects (db_tables s) !! (o_bucket_name obj, o_key obj) in
  match r with
  | Ok old =>
      preconditions_hold current ifMatch ifNoneMatch /\
      old = match current with Some row => or_storage_path row | None => "" end /\
      db_tables s' = put_object obj (db_clock s) (db_tables s)
  | Err _ => db_tables s' = db_tables s
  end.

Lemma wp_Replace obj ifMatch ifNoneMatch s :
  wp (Replace obj ifMatch ifNoneMatch) (replace_result obj ifMatch ifNoneMatch s) s.
Proof.
  unfold Replace. apply wp_in_transaction; [done|]. intros fs.
  apply wp_ok_bind, wp_ok_loadObjectVersion. intros fs1. simpl.
  set (current := t_objects (db_tables s) !! _).
  apply wp_ok_bind, wp_ok_lift_result. intros [] Hpre%checkWritePreconditions_spec.
  apply wp_ok_bind, wp_ok_upsertObject. intros fs2.
  apply wp_ok_bind, wp_ok_commit. intros fs3. apply wp_ok_ret.
  split_and!; [done| |done]. by destruct current.
Qed.

(** C11: a conditional write is one atomic step. When [Replace] succeeds, the
    preconditions held of the row that was stored at that moment, the returned
    storage path is that row's (so only its file may be removed), and the tables differ
    from before in exactly this object; when it fails, whatever failed, the tables are
    as they were. *)
Theorem Replace_spec obj ifMatch ifNoneMatch s :
  wp (Replace obj ifMatch ifNoneMatch) (fun r s' =>
    let current := t_objects (db_tables s) !! (o_bucket_name obj, o_key obj) in
    match r with
    | Ok old =>
        preconditions_hold current ifMatch ifNoneMatch /\
        old = match current with Some row => or_storage_path row | None => "" end /\
        db_tables s' = put_object obj (db_clock s) (db_tables s)
    | Err _ => db_tables s' = db_tables s
    end) s.
Proof. apply wp_Replace. Qed.

(** What is read back is what was stored. *)
Lemma scan_object_row b k o :
  o_bucket_name o = b -> o_key o = k ->
  scanObject b k (object_row o) =
  MkObject (o_id o) b k (o_size o) (o_etag o) (o_content_type o) (o_storage_path o)
    (o_created_at o) (o_updated_at o) (o_is_multipart o) (o_parts_count o)
    (o_crc32 o) (o_crc32c o) (o_crc64nvme o) (o_sha1 o) (o_sha256 o)
    (if decide (o_user_metadata o = Some ∅) then None else o_user_metadata o).
Proof.
  intros <- <-. unfold scanObject, applyScannedExtras, object_row. simpl. rewrite !null_nullify.
  f_equal. destruct (o_user_metadata o) as [m|]; simpl.
  - destruct (decide (m = ∅)) as [->|Hne]; [by rewrite bool_decide_true, decide_True|].
    rewrite bool_decide_false, decide_False by congruence. done.
  - reflexivity.
Qed.

(** An object that is written can be read back. Without faults, for a bucket
    that exists and an object id that no other object has, [Create] succeeds and
    [GetByKey] then returns the object with the times it was given (an empty metadata
    map comes back as a nil one), while every other key reads as before. *)
Theorem Create_then_GetByKey obj s :
  db_faults s = [] ->
  is_Some (t_buckets (db_tables s) !! o_bucket_name obj) ->
  (forall k o, t_objects (db_tables s) !! k = Some o -> or_id o = o_id obj ->
    k = (o_bucket_name obj, o_key obj)) ->
  exists stored s',
    Create obj s = (Ok stored, s') /\
    o_id stored = o_id obj /\ o_size stored = o_size obj /\ o_storage_path stored = o_storage_path obj /\
    (exists read, GetByKey (o_bucket_name obj) (o_key obj) s' = (Ok read, s') /\
       read = MkObject (o_id stored) (o_bucket_name stored) (o_key stored) (o_size stored)
                (o_etag stored) (o_content_type stored) (o_storage_path stored)
                (o_created_at stored) (o_updated_at stored) (o_is_multipart stored)
                (o_parts_count stored) (o_crc32 stored) (o_crc32c stored) (o_crc64nvme stored)
                (o_sha1 stored) (o_sha256 stored)
                (if decide (o_user_metadata stored = Some ∅) then None else o_user_metadata stored)) /\
    (forall b k, (b, k) <> (o_bucket_name obj, o_key obj) ->
       (GetByKey b k s').1 = (GetByKey b k s).1).
Proof.
  intros Hf Hb Hid. set (stored := stored_object obj (db_clock s)).
  exists stored, (set_tables (put_object obj (db_clock s) (db_tables s)) s).
  assert (Hst : upsert_object (o_bucket_name obj) (o_key obj) (object_row stored) (db_tables s) =
                Ok (tt, put_object obj (db_clock s) (db_tables s))).
  { unfold upsert_object. rewrite (bool_decide_true _ Hb).
    assert (has_row (fun k o => negb (bool_decide (k = (o_bucket_name obj, o_key obj)))
      && String.eqb (or_id o) (or_id (object_row stored))) (t_objects (db_tables s)) = false) as ->; [|done].
    apply has_row_false. intros k o Hk. apply andb_false_iff.
    destruct (String.eqb_spec (or_id o) (or_id (object_row stored))) as [E|]; [|by right]. left.
    by rewrite bool_decide_true by by eapply Hid. }
  split_and!; [|done|done|done| |].
  - unfold Create, upsertObject, bind, time_now. cbv zeta.
    change (set_times obj _ _) with stored. simpl o_bucket_name. simpl o_key.
    rewrite exec_run by done. by rewrite Hst.
  - eexists. split; [|reflexivity]. unfold GetByKey, bind. rewrite query_run by done.
    unfold put_object. simpl. rewrite lookup_insert_eq. fold stored. unfold ret. do 2 f_equal.
    by apply scan_object_row.
  - intros b k Hne. unfold GetByKey, bind. rewrite !query_run by done.
    unfold put_object. simpl. rewrite lookup_insert_ne by congruence.
    by destruct (t_objects (db_tables s) !! (b, k)).
Qed.

End ObjectSpec.
