(* ===== verification/BucketRepo.v ===== *)
(** * Buckets: [internal/metadata/bucket.go], [bucket_cleanup.go]

    The SQLite repository of buckets, and the deletion of a bucket with its
    objects. *)

From S2P Require Import Prelude GoStrings Effects Schema Db ObjectRepo.

(** [metadata.Bucket] *)
Record Bucket : Type := MkBucket { b_name : string; b_owner_id : string; b_created_at : time }.

#[export] Instance bucket_eq_dec : EqDecision Bucket.
Proof. solve_decision. Defined.

Module BucketRepository.

(** [scanBucket] *)
Definition scanBucket (name : string) (r : BucketRow) : Bucket :=
  MkBucket name (br_owner_id r) (br_created_at r).

(** The rows of a query, [ORDER BY created_at ASC]. *)
Definition select_buckets (P : string -> BucketRow -> bool) (t : Tables) : list Bucket :=
  merge_sort (by_time b_created_at)
    ((fun kv => scanBucket kv.1 kv.2) <$> filter (fun kv => P kv.1 kv.2 = true) (map_to_list (t_buckets t))).

Definition Create (bucket : Bucket) : M Db unit :=
  exec (insert_bucket (b_name bucket) (MkBucketRow (b_owner_id bucket) (b_created_at bucket))).

Definition GetByName (name : string) : M Db Bucket :=
  row <- query (fun t => t_buckets t !! name) ;;
  match row with
  | None => fail ErrBucketNotFound
  | Some r => ret (scanBucket name r)
  end.

Definition List : M Db (list Bucket) := query (select_buckets (fun _ _ => true)).

Definition ListByOwner (ownerID : string) : M Db (list Bucket) :=
  query (select_buckets (fun _ r => String.eqb (br_owner_id r) ownerID)).

Definition ListByNames (names : list string) : M Db (list Bucket) :=
  match names with
  | [] => ret []
  | _ => query (select_buckets (fun name _ => existsb (String.eqb name) names))
  end.

Definition UpdateOwner (name ownerID expectedOwnerID : string) : M Db unit :=
  rows <- exec (update_bucket_owner name ownerID expectedOwnerID) ;;
  if Nat.eqb rows 0 then fail ErrBucketNotFound else ret tt.

Definition Delete (name : string) : M Db unit :=
  rows <- exec (delete_bucket name) ;;
  if Nat.eqb rows 0 then fail ErrBucketNotFound else ret tt.

(** [deleteBucketObjects] *)
Definition deleteBucketObjects (name : string) : M Db (list Object) :=
  rows <- exec (delete_objects_in name) ;;
  ret ((fun kv => ObjectRepository.scanObject kv.1.1 kv.1.2 kv.2) <$> rows).

Definition DeleteWithObjects (name : string) : M Db (list Object) :=
  in_transaction (
    hasUploads <- query (fun t => has_row (fun _ u => String.eqb (mr_bucket_name u) name) (t_uploads t)) ;;
    if (hasUploads : bool) then fail ErrBucketHasMultipartUploads
    else
      objects <- deleteBucketObjects name ;;
      count <- exec (delete_bucket name) ;;
      if Nat.eqb count 0 then fail ErrBucketNotFound
      else commit ;; ret objects).

End BucketRepository.

(** ** Deleting a bucket with its objects *)

Module BucketSpec.
Import BucketRepository.

(** The tables without a bucket and what hangs on it: its objects, grants and links. *)
Definition without_bucket (name : string) (t : Tables) : Tables :=
  with_buckets (delete name)
    (with_objects (filter (fun kv => kv.1.1 <> name))
      (with_grants (filter (fun kv => gr_bucket_name kv.2 <> name))
        (with_links (filter (fun kv => lr_bucket_name kv.2 <> name)) t))).

Lemma delete_bucket_ok name t n t' :
  delete_bucket name t = Ok (n, t') -> n <> 0 ->
  is_Some (t_buckets t !! name) /\
  t' = with_buckets (delete name)
         (with_links (filter (fun kv => lr_bucket_name kv.2 <> name))
           (with_grants (filter (fun kv => gr_bucket_name kv.2 <> name)) t)).
Proof.
  unfold delete_bucket. destruct (t_buckets t !! name); [|by intros [= <-]].
  destruct (_ || _); [done|]. intros [= <- <-]. done.
Qed.

Lemma delete_bucket_result name t n t' :
  delete_bucket name t = Ok (n, t') ->
  (n <> 0 /\ t' = with_buckets (delete name)
         (with_links (filter (fun kv => lr_bucket_name kv.2 <> name))
           (with_grants (filter (fun kv => gr_bucket_name kv.2 <> name)) t))) \/ t' = t.
Proof.
  intros E. destruct (Nat.eq_dec n 0) as [->|Hn].
  - right. unfold delete_bucket in E. repeat case_match; by simplify_eq/=.
  - left. split; [done|]. by apply delete_bucket_ok in E as [_ ->].
Qed.

(** The objects that a list of rows of one bucket stands for. *)
Definition objects_of_rows (name : string) (t : Tables) : list Object :=
  (fun kv => ObjectRepository.scanObject kv.1.1 kv.1.2 kv.2) <$>
    map_to_list (filter (fun kv => kv.1.1 = name) (t_objects t)).

Lemma elem_of_objects_of_rows name t o :
  o ∈ objects_of_rows name t <-> exists row, t_objects t !! (name, o_key o) = Some row /\
    o = ObjectRepository.scanObject name (o_key o) row.
Proof.
  unfold objects_of_rows. rewrite list_elem_of_fmap. split.
  - intros ([[b k] row] & -> & Hin). apply elem_of_map_to_list, map_lookup_filter_Some in Hin as [Hin E].
    cbn in E. subst b. by exists row.
  - intros (row & Hr & E). exists (name, o_key o, row). split; [done|].
    apply elem_of_map_to_list, map_lookup_filter_Some. done.
Qed.

Lemma objects_of_rows_NoDup name t : NoDup (objects_of_rows name t).
Proof.
  apply (NoDup_fmap_1 (fun o => (o_bucket_name o, o_key o))).
  unfold objects_of_rows. rewrite <- list_fmap_compose.
  erewrite list_fmap_ext; [apply NoDup_fst_map_to_list|]. intros i [[b k] r] _. done.
Qed.

(** What the deletion of a bucket with its objects promises. *)
Definition deleted_with_objects (name : string) (s : Db) (r : result (list Object)) (s' : Db) : Prop :=
  let t := db_tables s in
  match r with
  | Ok objects =>
      is_Some (t_buckets t !! name) /\
      (forall id u, t_uploads t !! id = Some u -> mr_bucket_name u <> name) /\
      (forall o, o ∈ objects <-> exists row, t_objects t !! (name, o_key o) = Some row /\
                   o = ObjectRepository.scanObject name (o_key o) row) /\
      NoDup objects /\
      db_tables s' = without_bucket name t
  | Err _ => db_tables s' = t
  end.

Lemma wp_DeleteWithObjects name s : wp (DeleteWithObjects name) (deleted_with_objects name s) s.
Proof.
  apply wp_in_transaction; [done|]. intros fs. apply wp_ok_bind, wp_ok_query. intros fs1.
  cbn [db_tables db_clock]. destruct (has_row _ _) eqn:Eu; [apply wp_ok_fail|].
  apply wp_ok_bind, wp_ok_bind, wp_ok_exec. cbn [db_tables db_clock]. intros rows t fs2 Eobj. apply wp_ok_ret.
  apply wp_ok_bind, wp_ok_exec. cbn [db_tables db_clock]. intros n t' fs3 Edel.
  destruct (Nat.eqb_spec n 0) as [|Hn]; [apply wp_ok_fail|].
  apply wp_ok_bind, wp_ok_commit. intros fs4. apply wp_ok_ret. cbn [db_tables].
  unfold delete_objects_in in Eobj. injection Eobj as <- <-.
  apply delete_bucket_ok in Edel as [Hb Et]; [|done]. split; [done|].
  split. { intros id u Hu. apply (proj1 (has_row_false _ _) Eu id), String.eqb_neq in Hu. done. }
  split; [|split; [apply objects_of_rows_NoDup|by rewrite Et]].
  intros o. apply (elem_of_objects_of_rows name (db_tables s) o).
Qed.
(** C27: a bucket is deleted with its objects, or not at all. When
    [DeleteWithObjects] succeeds, the bucket existed and had no multipart upload, the
    objects returned are exactly those that were stored in it - so their files can be
    removed - and the tables are as before without the bucket, its objects, its grants
    and its share links; when it fails, the tables are as they were. *)
Theorem DeleteWithObjects_spec name s :
  wp (DeleteWithObjects name) (fun r s' =>
    let t := db_tables s in
    match r with
    | Ok objects =>
        is_Some (t_buckets t !! name) /\
        (forall id u, t_uploads t !! id = Some u -> mr_bucket_name u <> name) /\
        (forall o, o ∈ objects <-> exists row, t_objects t !! (name, o_key o) = Some row /\
                     o = ObjectRepository.scanObject name (o_key o) row) /\
        NoDup objects /\
        db_tables s' = without_bucket name t
    | Err _ => db_tables s' = t
    end) s.
Proof. exact (wp_DeleteWithObjects name s). Qed.
End BucketSpec.
