(* ===== verification/MultipartRepo.v ===== *)
(** * Multipart uploads: [internal/metadata/multipart.go]

    The SQLite repository of uploads and their parts, and the life cycle of an
    upload: active, then claimed for completion or abortion. *)

From S2P Require Import Prelude GoStrings Effects Schema Db ObjectRepo.

Abbreviation MultipartUploadStatus := string.
Definition MultipartUploadStatusActive : MultipartUploadStatus := "active".
Definition MultipartUploadStatusCompleting : MultipartUploadStatus := "completing".
Definition MultipartUploadStatusAborted : MultipartUploadStatus := "aborted".

(** [metadata.MultipartUpload] *)
Record MultipartUpload : Type := MkUpload {
  u_id : string;
  u_bucket_name : string;
  u_key : string;
  u_content_type : string;
  u_checksum_algorithm : string;
  u_status : MultipartUploadStatus;
  u_created_at : time;
  u_status_updated_at : time;
  u_user_metadata : StringMap;
}.

(** [metadata.MultipartPart] *)
Record MultipartPart : Type := MkPart {
  p_upload_id : string;
  p_part_number : Z;
  p_size : Z;
  p_etag : string;
  p_storage_path : string;
  p_created_at : time;
  p_crc32 : string;
  p_crc32c : string;
  p_crc64nvme : string;
  p_sha1 : string;
  p_sha256 : string;
}.

Module MultipartRepository.
Import ObjectRepository.

(** [validMultipartUploadStatus] *)
Definition validMultipartUploadStatus (status : MultipartUploadStatus) : bool :=
  String.eqb status MultipartUploadStatusActive || String.eqb status MultipartUploadStatusCompleting
  || String.eqb status MultipartUploadStatusAborted.

(** [scanMultipartUpload] *)
Definition scanMultipartUpload (id : string) (r : UploadRow) : MultipartUpload :=
  MkUpload id (mr_bucket_name r) (mr_key r) (mr_content_type r) (null_string (mr_checksum_algorithm r))
    (mr_status r) (mr_created_at r) (mr_status_updated_at r)
    (match mr_user_metadata r with Some m => m | None => None end).

(** [scanMultipartPartRow] *)
Definition scanMultipartPartRow (upload : string) (number : Z) (r : PartRow) : MultipartPart :=
  MkPart upload number (pr_size r) (pr_etag r) (pr_storage_path r) (pr_created_at r)
    (null_string (pr_crc32 r)) (null_string (pr_crc32c r)) (null_string (pr_crc64nvme r))
    (null_string (pr_sha1 r)) (null_string (pr_sha256 r)).

Definition invalid_status (status : string) : error :=
  ErrOther ("invalid multipart upload status: " +:+ status).

(** The defaults that [Create] fills in. *)
Definition default_upload (upload : MultipartUpload) (now : time) : MultipartUpload :=
  let contentType := if String.eqb (u_content_type upload) "" then "application/octet-stream"
                     else u_content_type upload in
  let status := if String.eqb (u_status upload) "" then MultipartUploadStatusActive
                else u_status upload in
  let created := if time_is_zero (u_created_at upload) then now else u_created_at upload in
  let updated := if time_is_zero (u_status_updated_at upload) then created
                 else u_status_updated_at upload in
  MkUpload (u_id upload) (u_bucket_name upload) (u_key upload) contentType
    (u_checksum_algorithm upload) status created updated (u_user_metadata upload).

Definition upload_row (u : MultipartUpload) : UploadRow :=
  MkUploadRow (u_bucket_name u) (u_key u) (u_content_type u) (u_status u) (u_created_at u)
    (u_status_updated_at u) (Some (u_checksum_algorithm u)) (Some (u_user_metadata u)).

(** [Create]; the result is [*upload] with its defaults. *)
Definition Create (upload : MultipartUpload) : M Db MultipartUpload :=
  now <- time_now ;;
  let upload := default_upload upload now in
  if negb (validMultipartUploadStatus (u_status upload)) then fail (invalid_status (u_status upload))
  else
    exec (insert_upload (u_id upload) (upload_row upload)) ;;
    ret upload.

Definition GetByID (id : string) : M Db MultipartUpload :=
  row <- query (fun t => t_uploads t !! id) ;;
  match row with
  | None => fail ErrMultipartUploadNotFound
  | Some r => ret (scanMultipartUpload id r)
  end.

Definition Delete (id : string) : M Db unit :=
  rows <- exec (delete_upload id) ;;
  if Nat.eqb rows 0 then fail ErrMultipartUploadNotFound else ret tt.

Definition all_uploads (t : Tables) : list MultipartUpload :=
  (fun kv => scanMultipartUpload kv.1 kv.2) <$> map_to_list (t_uploads t).

Definition stale (cutoff : time) (u : MultipartUpload) : bool :=
  (String.eqb (u_status u) MultipartUploadStatusActive && (u_created_at u <? cutoff)%Z)
  || (negb (String.eqb (u_status u) MultipartUploadStatusActive) && (u_status_updated_at u <? cutoff)%Z).

Definition ListStale (olderThan : time) : M Db (list MultipartUpload) :=
  query (fun t => merge_sort (by_time u_created_at)
                    (filter (fun u => stale olderThan u = true) (all_uploads t))).

Definition ListAllUploadIDs : M Db (list string) := query (fun t => (map_to_list (t_uploads t)).*1).

(** ** Claims *)

Definition ClaimUpload (uploadID : string) (status : MultipartUploadStatus) : M Db unit :=
  if negb (validMultipartUploadStatus status) || String.eqb status MultipartUploadStatusActive
  then fail (ErrOther ("invalid multipart upload claim status: " +:+ status))
  else in_transaction (
    currentStatus <- query (fun t => mr_status <$> t_uploads t !! uploadID) ;;
    match currentStatus with
    | None => fail ErrMultipartUploadNotFound
    | Some currentStatus =>
        if negb (String.eqb currentStatus MultipartUploadStatusActive) then fail ErrUploadAlreadyClaimed
        else
          now <- time_now ;;
          exec (update_upload_status uploadID status now) ;;
          commit
    end).

Definition SetUploadStatus (uploadID : string) (status : MultipartUploadStatus) : M Db unit :=
  if negb (validMultipartUploadStatus status) then fail (invalid_status status)
  else
    now <- time_now ;;
    rows <- exec (update_upload_status uploadID status now) ;;
    if Nat.eqb rows 0 then fail ErrMultipartUploadNotFound else ret tt.

(** ** Parts *)

Definition part_row (p : MultipartPart) (created : time) : PartRow :=
  MkPartRow (p_size p) (p_etag p) (p_storage_path p) created
    (nullify (p_crc32 p)) (nullify (p_crc32c p)) (nullify (p_crc64nvme p))
    (nullify (p_sha1 p)) (nullify (p_sha256 p)).

(** [AddPart]: the storage path that the part had before. *)
Definition AddPart (part : MultipartPart) : M Db string :=
  in_transaction (
    status <- query (fun t => mr_status <$> t_uploads t !! p_upload_id part) ;;
    match status with
    | None => fail ErrMultipartUploadNotFound
    | Some status =>
        if negb (String.eqb status MultipartUploadStatusActive) then fail ErrUploadAlreadyClaimed
        else
          old <- query (fun t => t_parts t !! (p_upload_id part, p_part_number part)) ;;
          let oldStoragePath := match old with Some r => pr_storage_path r | None => "" end in
          now <- time_now ;;
          let created := if time_is_zero (p_created_at part) then now else p_created_at part in
          exec (upsert_part (p_upload_id part) (p_part_number part) (part_row part created)) ;;
          commit ;;
          ret oldStoragePath
    end).

Definition by_number (a b : MultipartPart) : Prop := (p_part_number a <= p_part_number b)%Z.
#[export] Instance by_number_dec : RelDecision by_number.
Proof. unfold by_number. solve_decision. Defined.

Definition select_parts (uploadID : string) (t : Tables) : list MultipartPart :=
  merge_sort by_number
    ((fun kv => scanMultipartPartRow kv.1.1 kv.1.2 kv.2) <$>
     filter (fun kv => kv.1.1 = uploadID) (map_to_list (t_parts t))).

Definition ListParts (uploadID : string) : M Db (list MultipartPart) := query (select_parts uploadID).

(** ** Completion *)

Definition requireCompletingUpload (uploadID : string) : M Db unit :=
  status <- query (fun t => mr_status <$> t_uploads t !! uploadID) ;;
  match status with
  | None => fail ErrMultipartUploadNotFound
  | Some status =>
      if negb (String.eqb status MultipartUploadStatusCompleting) then fail ErrUploadAlreadyClaimed
      else ret tt
  end.

(** [CompleteUpload]: the storage path of the object replaced. *)
Definition CompleteUpload (obj : Object) (uploadID ifMatch ifNoneMatch : string) : M Db string :=
  in_transaction (
    requireCompletingUpload uploadID ;;
    existing <- loadObjectVersion (o_bucket_name obj) (o_key obj) ;;
    lift_result (checkWritePreconditions existing ifMatch ifNoneMatch) ;;
    upsertObject obj ;;
    exec (delete_upload uploadID) ;;
    commit ;;
    ret (v_storage_path existing)).

(** ** Listing *)

Definition listed (bucketName prefix keyMarker uploadIDMarker : string) (u : MultipartUpload) : bool :=
  String.eqb (u_bucket_name u) bucketName
  && String.eqb (u_status u) "active"
  && (String.eqb prefix "" || sql_prefix (u_key u) prefix)
  && (String.eqb keyMarker "" || text_after (u_key u) keyMarker
      || (String.eqb (u_key u) keyMarker && negb (String.eqb uploadIDMarker "")
          && text_after (u_id u) uploadIDMarker)).

(** [ORDER BY key, id] *)
Definition by_key_id (a b : MultipartUpload) : Prop :=
  if decide (u_key a = u_key b) then String.le (u_id a) (u_id b) else String.le (u_key a) (u_key b).
#[export] Instance by_key_id_dec : RelDecision by_key_id.
Proof. intros a b. unfold by_key_id. case_decide; apply _. Defined.

Definition select_listed (bucketName prefix keyMarker uploadIDMarker : string) (t : Tables)
    : list MultipartUpload :=
  merge_sort by_key_id
    (filter (fun u => listed bucketName prefix keyMarker uploadIDMarker u = true) (all_uploads t)).

(** The uploads, whether there are more, and the markers of the next page. *)
Definition ListByBucket (bucketName prefix keyMarker uploadIDMarker : string) (maxUploads : Z)
    : M Db (list MultipartUpload * bool * string * string) :=
  let maxUploads := if (maxUploads <=? 0)%Z || (1000 <? maxUploads)%Z then 1000%Z else maxUploads in
  let limit := Z.to_nat (maxUploads + 1) in
  uploads <- query (fun t => take limit (select_listed bucketName prefix keyMarker uploadIDMarker t)) ;;
  if (maxUploads <? Z.of_nat (length uploads))%Z then
    let uploads := take (Z.to_nat maxUploads) uploads in
    match last uploads with
    | Some u => ret (uploads, true, u_key u, u_id u)
    | None => ret (uploads, true, "", "")
    end
  else ret (uploads, false, "", "").

End MultipartRepository.
