(* ===== verification/UserRepo.v ===== *)
(** * Users: [internal/metadata/user.go]

    The SQLite repository of users; ordinary reads never expose the SigV4 secret. *)

From S2P Require Import Prelude GoStrings Effects Schema Db Iam.

(** [metadata.User] *)
Record User : Type := MkUser {
  us_id : string;
  us_display_name : string;
  us_access_key_id : string;
  us_secret_hash : string;
  us_sigv4_access_key_id : string;
  us_sigv4_secret_key : string;
  us_role : Role;
  us_is_active : bool;
  us_created_at : time;
  us_updated_at : time;
}.

Module UserRepository.

(** [scanUser] *)
Definition scanUser (id : string) (r : UserRow) : User :=
  MkUser id (ur_display_name r) (ur_access_key_id r) (ur_secret_hash r)
    (null_string (ur_sigv4_access_key_id r)) (null_string (ur_sigv4_secret_key r))
    (ur_role r) (ur_is_active r) (ur_created_at r) (ur_updated_at r).

(** [u.SigV4SecretKey = ""] *)
Definition hide_secret (u : User) : User :=
  MkUser (us_id u) (us_display_name u) (us_access_key_id u) (us_secret_hash u)
    (us_sigv4_access_key_id u) "" (us_role u) (us_is_active u) (us_created_at u) (us_updated_at u).

(** The columns that [insertUser] and [Update] bind. *)
Definition user_row (u : User) : UserRow :=
  MkUserRow (us_display_name u) (us_access_key_id u) (us_secret_hash u)
    (nullify (us_sigv4_access_key_id u)) (nullify (us_sigv4_secret_key u))
    (us_role u) (us_is_active u) (us_created_at u) (us_updated_at u).

Definition insertUser (user : User) : M Db unit := exec (insert_user (us_id user) (user_row user)).

Definition Create (user : User) : M Db unit := insertUser user.

Definition UserCount : M Db Z := query (fun t => Z.of_nat (size (t_users t))).

Definition CreateFirstUser (user : User) : M Db unit :=
  in_transaction (
    count <- query (fun t => Z.of_nat (size (t_users t))) ;;
    if (0 <? count)%Z then fail ErrUsersAlreadyExist
    else
      insertUser user ;;
      commit).

Definition GetByID (id : string) : M Db User :=
  row <- query (fun t => t_users t !! id) ;;
  match row with
  | None => fail ErrUserNotFound
  | Some r => ret (hide_secret (scanUser id r))
  end.

(** The first row that satisfies a condition. *)
Definition find_user (P : UserRow -> bool) (t : Tables) : option (string * UserRow) :=
  head (filter (fun kv => P kv.2 = true) (map_to_list (t_users t))).

Definition GetByAccessKeyID (accessKeyID : string) : M Db User :=
  row <- query (find_user (fun r => String.eqb (ur_access_key_id r) accessKeyID)) ;;
  match row with
  | None => fail ErrUserNotFound
  | Some (id, r) => ret (hide_secret (scanUser id r))
  end.

Definition GetBySigV4AccessKeyID (accessKeyID : string) : M Db User :=
  row <- query (find_user (fun r =>
           match ur_sigv4_access_key_id r with Some k => String.eqb k accessKeyID | None => false end)) ;;
  match row with
  | None => fail ErrUserNotFound
  | Some (id, r) => ret (scanUser id r)
  end.

Definition List : M Db (list User) :=
  query (fun t => merge_sort (by_time us_created_at)
    ((fun kv => hide_secret (scanUser kv.1 kv.2)) <$> map_to_list (t_users t))).

Definition Update (user : User) : M Db unit :=
  now <- time_now ;;
  rows <- exec (update_user (us_id user)
    (MkUserRow (us_display_name user) (us_access_key_id user) (us_secret_hash user) None None
       (us_role user) (us_is_active user) 0 now)) ;;
  if Nat.eqb rows 0 then fail ErrUserNotFound else ret tt.

Definition Delete (id : string) : M Db unit :=
  rows <- exec (delete_user id) ;;
  if Nat.eqb rows 0 then fail ErrUserNotFound else ret tt.

End UserRepository.

(** ** Looking users up *)

Lemma find_user_some P t id row : UserRepository.find_user P t = Some (id, row) ->
  t_users t !! id = Some row /\ P row = true.
Proof.
  unfold UserRepository.find_user. intros H%head_Some_elem_of.
  apply list_elem_of_filter in H as [HP H]. split; [by apply elem_of_map_to_list|done].
Qed.

(** When only one row satisfies the condition, it is found. *)
Lemma find_user_unique P t id row :
  t_users t !! id = Some row -> P row = true ->
  (forall id' row', t_users t !! id' = Some row' -> P row' = true -> id' = id) ->
  UserRepository.find_user P t = Some (id, row).
Proof.
  intros Hrow HP Huniq. unfold UserRepository.find_user.
  destruct (head _) as [[id' row']|] eqn:E.
  - assert (Hf : UserRepository.find_user P t = Some (id', row')) by done.
    apply find_user_some in Hf as [Hrow' HP']. pose proof (Huniq _ _ Hrow' HP') as ->. congruence.
  - apply head_None in E. assert (Hin : (id, row) ∈ filter (fun kv => P kv.2 = true) (map_to_list (t_users t))).
    { apply list_elem_of_filter. split; [done|by apply elem_of_map_to_list]. }
    rewrite E in Hin. by apply not_elem_of_nil in Hin.
Qed.

(** ** The first user *)

Module UserSpec.
Import UserRepository.

(** Only one user is the first. [CreateFirstUser] succeeds only on an empty
    user table, in which it leaves exactly that user; on any other it fails with
    [ErrUsersAlreadyExist] unless the database fails; and a failure leaves the tables as
    they were. So however often and in whatever order setup requests run, at most one
    of them creates an administrator. *)
Theorem CreateFirstUser_spec user s :
  wp (CreateFirstUser user) (fun r s' =>
    match r with
    | Ok _ =>
        t_users (db_tables s) = ∅ /\
        db_tables s' = with_users (insert (us_id user) (user_row user)) (db_tables s)
    | Err e => db_tables s' = db_tables s /\
        (t_users (db_tables s) <> ∅ -> e = ErrUsersAlreadyExist \/ e = ErrDatabase)
    end) s.
Proof.
  apply wp_in_transaction_full; [by split; [|right]|]. intros fs.
  apply wp_bind, wp_query; [by split; [|right]|]. intros fs1. cbn [db_tables db_clock].
  destruct (Z.ltb_spec 0 (Z.of_nat (size (t_users (db_tables s))))) as [|Hz].
  { apply wp_fail. by split; [|left]. }
  assert (Hempty : t_users (db_tables s) = ∅) by (apply map_size_empty_iff; lia).
  apply wp_bind, wp_exec; [done|]. intros fs2. cbn [db_tables db_clock].
  destruct (insert_user _ _ _) as [[[] t]|e] eqn:Ei; [|done].
  apply wp_commit; [done|]. intros fs3. split; [done|]. cbn [db_tables].
  unfold insert_user in Ei. repeat case_match; by simplify_eq/=.
Qed.
End UserSpec.
