(* ===== verification/GrantRepo.v ===== *)
(** * Grants: [internal/metadata/grant.go], [internal/authz/store_adapter.go]

    The SQLite repository of resource grants, with the idempotent batch that the
    dashboard uses, and the grant store that the evaluator reads. *)

From S2P Require Import Prelude GoStrings Effects Schema Db Iam Authz.

(** [metadata.Grant] *)
Record Grant : Type := MkGrant {
  g_id : string;
  g_bucket_name : string;
  g_grantee_user_id : string;
  g_action : Action;
  g_key_prefix : string;
  g_is_active : bool;
  g_created_by : string;
  g_note : string;
  g_created_at : time;
  g_updated_at : time;
}.

(** [metadata.GrantCreateResult] *)
Record GrantCreateResult : Type := MkGrantResult { gc_grant : Grant; gc_existed : bool }.

Module GrantRepository.

(** [scanGrant] *)
Definition scanGrant (id : string) (r : GrantRow) : Grant :=
  MkGrant id (gr_bucket_name r) (gr_grantee_user_id r) (gr_action r) (gr_key_prefix r)
    (gr_is_active r) (null_string (gr_created_by r)) (null_string (gr_note r))
    (gr_created_at r) (gr_updated_at r).

(** [grantInsertArgs] *)
Definition grantInsertArgs (g : Grant) : GrantRow :=
  MkGrantRow (g_bucket_name g) (g_grantee_user_id g) (g_action g) (g_key_prefix g) (g_is_active g)
    (nullify (g_created_by g)) (nullify (g_note g)) (g_created_at g) (g_updated_at g).

Definition validateGrantWrite (g : Grant) : result unit :=
  if negb (IsGrantable (g_action g)) then Err ErrInvalidGrantAction else Ok tt.

Definition isUniqueConstraintError (e : error) : bool := bool_decide (e = ErrUniqueConstraint).

Definition Create (g : Grant) : M Db unit :=
  lift_result (validateGrantWrite g) ;;
  exec (insert_grant (g_id g) (grantInsertArgs g)).

(** Grants that a condition selects, in an order that the query does not fix. *)
Definition select_grants (P : GrantRow -> bool) (t : Tables) : list Grant :=
  (fun kv => scanGrant kv.1 kv.2) <$> filter (fun kv => P kv.2 = true) (map_to_list (t_grants t)).

(** [findActiveDuplicate]; [None] is a nil grant. *)
Definition findActiveDuplicate (bucketName granteeUserID action keyPrefix : string) : M Db (option Grant) :=
  query (fun t => head (select_grants (fun r =>
    String.eqb (gr_bucket_name r) bucketName && String.eqb (gr_grantee_user_id r) granteeUserID
    && String.eqb (gr_action r) action && String.eqb (gr_key_prefix r) keyPrefix
    && gr_is_active r) t)).

(** The loop of [CreateIdempotentBatch]. *)
Fixpoint create_batch (grants : list Grant) (results : list GrantCreateResult)
    : M Db (list GrantCreateResult) :=
  match grants with
  | [] => ret results
  | g :: rest =>
      inserted <- exec (insert_grant_unless_active_duplicate (g_id g) (grantInsertArgs g)) ;;
      if Nat.eqb inserted 1 then create_batch rest (results ++ [MkGrantResult g false])
      else
        existing <- findActiveDuplicate (g_bucket_name g) (g_grantee_user_id g) (g_action g) (g_key_prefix g) ;;
        match existing with
        | None => fail (ErrOther "create grant: insert skipped but no active duplicate found")
        | Some existing => create_batch rest (results ++ [MkGrantResult existing true])
        end
  end.

Fixpoint validate_all (grants : list Grant) : result unit :=
  match grants with
  | [] => Ok tt
  | g :: rest => let? _ := validateGrantWrite g in validate_all rest
  end.

Definition CreateIdempotentBatch (grants : list Grant) : M Db (list GrantCreateResult) :=
  lift_result (validate_all grants) ;;
  in_transaction (
    results <- create_batch grants [] ;;
    commit ;;
    ret results).

Definition GetByID (id : string) : M Db Grant :=
  row <- query (fun t => t_grants t !! id) ;;
  match row with
  | None => fail ErrGrantNotFound
  | Some r => ret (scanGrant id r)
  end.

Definition Update (g : Grant) : M Db unit :=
  if String.eqb (trim_space (g_id g)) "" then fail ErrGrantNotFound
  else if g_is_active g && negb (IsGrantable (g_action g)) then fail ErrInvalidGrantAction
  else
    now <- time_now ;;
    let! r := exec (update_grant (g_id g) (g_key_prefix g) (g_is_active g) (nullify (g_note g)) now) in
    match r with
    | Err e => if isUniqueConstraintError e then fail ErrDuplicateGrant else fail e
    | Ok rows => if Nat.eqb rows 0 then fail ErrGrantNotFound else ret tt
    end.

Definition Delete (id : string) : M Db unit :=
  rows <- exec (delete_grant id) ;;
  if Nat.eqb rows 0 then fail ErrGrantNotFound else ret tt.

(** [ORDER BY created_at ASC, id ASC] *)
Definition by_created_id (a b : Grant) : Prop :=
  if decide (g_created_at a = g_created_at b) then String.le (g_id a) (g_id b)
  else (g_created_at a <= g_created_at b)%Z.
#[export] Instance by_created_id_dec : RelDecision by_created_id.
Proof. intros a b. unfold by_created_id. case_decide; apply _. Defined.

Definition ListByBucket (bucketName : string) : M Db (list Grant) :=
  query (fun t => merge_sort by_created_id
    (select_grants (fun r => String.eqb (gr_bucket_name r) bucketName) t)).

Definition ListByGrantee (granteeUserID : string) : M Db (list Grant) :=
  query (fun t => merge_sort by_created_id
    (select_grants (fun r => String.eqb (gr_grantee_user_id r) granteeUserID) t)).

Definition ListActiveForGranteeBucket (granteeUserID bucketName : string) : M Db (list Grant) :=
  query (select_grants (fun r =>
    String.eqb (gr_grantee_user_id r) granteeUserID && String.eqb (gr_bucket_name r) bucketName
    && gr_is_active r)).

(** [SELECT DISTINCT bucket_name ... ORDER BY bucket_name ASC] *)
Definition ListBucketNamesWithActiveGrants (granteeUserID : string) : M Db (list string) :=
  query (fun t => merge_sort String.le (remove_dups (g_bucket_name <$> select_grants (fun r =>
    String.eqb (gr_grantee_user_id r) granteeUserID && gr_is_active r) t))).

End GrantRepository.

(** ** The idempotent batch *)

Module GrantSpec.
Import GrantRepository.

(** The result of one grant of a batch: the row that it reports is in the tables,
    with the bucket, grantee, action and prefix that were asked for; an existing one is
    active, a new one is the grant itself. *)
Definition covered (t : Tables) (g : Grant) (res : GrantCreateResult) : Prop :=
  exists r, t_grants t !! g_id (gc_grant res) = Some r /\ same_grant r (grantInsertArgs g) = true /\
    if gc_existed res then gr_is_active r = true
    else gc_grant res = g /\ r = grantInsertArgs g.

(** Only grants were added, those that the results report as new. *)
Definition grown (t t' : Tables) (new : list GrantCreateResult) : Prop :=
  t' = with_grants (fun _ => t_grants t') t /\ t_grants t ⊆ t_grants t' /\
  forall id, t_grants t !! id = None -> is_Some (t_grants t' !! id) ->
    exists res, res ∈ new /\ gc_existed res = false /\ g_id (gc_grant res) = id.

Lemma same_grant_refl r : same_grant r r = true.
Proof. unfold same_grant. by rewrite !String.eqb_refl. Qed.

Lemma covered_mono t t' g res : t_grants t ⊆ t_grants t' -> covered t g res -> covered t' g res.
Proof. intros Hs (r & Hr & H). exists r. split; [by eapply lookup_weaken|done]. Qed.

Lemma grown_refl t : grown t t [].
Proof. split; [by destruct t|]. split; [done|]. intros id E [? ?]. congruence. Qed.

Lemma grown_cons t g t' new :
  t_grants t !! g_id g = None ->
  grown (with_grants (insert (g_id g) (grantInsertArgs g)) t) t' new ->
  grown t t' (MkGrantResult g false :: new).
Proof.
  intros Hg (E & Hs & Hnew). split; [by destruct t|]. simpl in Hs. split.
  - etrans; [|exact Hs]. by apply insert_subseteq.
  - intros id Hid Hin. destruct (decide (id = g_id g)) as [->|Hne].
    + exists (MkGrantResult g false). split; [by left|done].
    + destruct (Hnew id) as (res & Hres & H); [simpl; by rewrite lookup_insert_ne|done|].
      exists res. split; [by right|done].
Qed.

(** The grants that [findActiveDuplicate] selects. *)
Lemma elem_of_select_grants P t g :
  g ∈ select_grants P t <-> exists r, t_grants t !! g_id g = Some r /\ P r = true /\ g = scanGrant (g_id g) r.
Proof.
  unfold select_grants. rewrite list_elem_of_fmap. split.
  - intros ([id r] & -> & [HP Hin]%list_elem_of_filter). apply elem_of_map_to_list in Hin. by exists r.
  - intros (r & Hr & HP & E). exists (g_id g, r). split; [done|].
    apply list_elem_of_filter. split; [done|]. by apply elem_of_map_to_list.
Qed.

Lemma same_grant_columns r g :
  String.eqb (gr_bucket_name r) (g_bucket_name g) && String.eqb (gr_grantee_user_id r) (g_grantee_user_id g)
  && String.eqb (gr_action r) (g_action g) && String.eqb (gr_key_prefix r) (g_key_prefix g)
  = same_grant r (grantInsertArgs g).
Proof. done. Qed.

Lemma insert_unless_ok id r t n t' :
  insert_grant_unless_active_duplicate id r t = Ok (n, t') ->
  n = 0 /\ t' = t \/ n = 1 /\ t_grants t !! id = None /\ t' = with_grants (insert id r) t.
Proof.
  unfold insert_grant_unless_active_duplicate. destruct (active_duplicate _ _ _); [intros [= <- <-]; by left|].
  case_bool_decide as Hid.
  - destruct (t_grants t !! id); [|done]. destruct (_ && _); [|done]. intros [= <- <-]. by left.
  - destruct (negb _); [done|]. intros [= <- <-]. right. by apply eq_None_not_Some in Hid.
Qed.

Lemma create_batch_ok grants results s :
  wp_ok (create_batch grants results) (fun out s' => exists new, out = results ++ new /\
    Forall2 (covered (db_tables s')) grants new /\ grown (db_tables s) (db_tables s') new) s.
Proof.
  revert results s; induction grants as [|g grants IH]; intros results s; cbn [create_batch].
  { apply wp_ok_ret. exists []. rewrite app_nil_r. auto using grown_refl. }
  apply wp_ok_bind, wp_ok_exec. intros n t fs E.
  apply insert_unless_ok in E as [[-> ->]|(-> & Hg & ->)]; cbn [Nat.eqb].
  - apply wp_ok_bind, wp_ok_query. intros fs1. cbn [db_tables db_clock].
    destruct (head _) as [old|] eqn:E; [|apply wp_ok_fail].
    assert (Hold : old ∈ select_grants (fun r => same_grant r (grantInsertArgs g) && gr_is_active r)
              (db_tables s)) by exact (head_Some_elem_of _ _ E).
    apply elem_of_select_grants in Hold as (r & Hr & HP & _). apply andb_true_iff in HP as [Hsame Hact].
    eapply wp_ok_mono; [apply IH|]. cbn [db_tables].
    intros out s' (new & -> & Hall & Hgrown). exists (MkGrantResult old true :: new).
    rewrite <- app_assoc. split; [done|]. destruct Hgrown as (Et & Hsub & Hnew). split.
    + constructor; [|done]. apply (covered_mono (db_tables s)); [done|]. by exists r.
    + split; [done|]. split; [done|]. intros id Hid Hin.
      destruct (Hnew id Hid Hin) as (res & Hres & H). exists res. split; [by right|done].
  - eapply wp_ok_mono; [apply IH|]. cbn [db_tables].
    intros out s' (new & -> & Hall & Hgrown). exists (MkGrantResult g false :: new).
    rewrite <- app_assoc. split; [done|]. split; [|by apply grown_cons].
    constructor; [|done].
    apply (covered_mono (with_grants (insert (g_id g) (grantInsertArgs g)) (db_tables s))); [apply Hgrown|].
    exists (grantInsertArgs g). simpl. by rewrite lookup_insert_eq, same_grant_refl.
Qed.

Lemma validate_all_ok grants :
  validate_all grants = Ok tt <-> Forall (fun g => IsGrantable (g_action g) = true) grants.
Proof.
  induction grants as [|g grants IH]; cbn [validate_all]; [done|].
  rewrite Forall_cons, <- IH. unfold validateGrantWrite.
  destruct (IsGrantable (g_action g)); cbn [negb result_bind]; (split; [|by intros [? ?]]);
    [done|by intros [=]].
Qed.

(** What a batch does. *)
Definition batch_result (grants : list Grant) (t : Tables) (r : result (list GrantCreateResult))
    (s' : Db) : Prop :=
  match r with
  | Ok out => Forall (fun g => IsGrantable (g_action g) = true) grants /\
              Forall2 (covered (db_tables s')) grants out /\ grown t (db_tables s') out
  | Err _ => db_tables s' = t
  end.

Lemma wp_CreateIdempotentBatch grants s :
  wp (CreateIdempotentBatch grants) (batch_result grants (db_tables s)) s.
Proof.
  apply wp_bind, wp_lift_result. destruct (validate_all grants) as [[]|] eqn:Ev; [|done].
  apply validate_all_ok in Ev. apply wp_in_transaction; [done|]. intros fs.
  apply wp_ok_bind. eapply wp_ok_mono; [apply create_batch_ok|]. cbn [db_tables].
  intros out s' (new & -> & H). apply wp_ok_bind, wp_ok_commit. intros fs1. by apply wp_ok_ret.
Qed.

(** C28: a batch of grants is created whole or not at all. When
    [CreateIdempotentBatch] succeeds, every action was grantable, result [i] reports
    a row that is stored with the bucket, grantee, action and prefix of grant [i] - a
    new row that is the grant, or an active one - and nothing else changed; when it
    fails, at any grant and for any reason, the tables are as they were. *)
Theorem CreateIdempotentBatch_spec grants s :
  wp (CreateIdempotentBatch grants) (fun r s' =>
    match r with
    | Ok out => Forall (fun g => IsGrantable (g_action g) = true) grants /\
                Forall2 (covered (db_tables s')) grants out /\ grown (db_tables s) (db_tables s') out
    | Err _ => db_tables s' = db_tables s
    end) s.
Proof. apply wp_CreateIdempotentBatch. Qed.

(** Grants that all have an active duplicate are all reported as existing. *)
Lemma create_batch_dup grants results s :
  db_faults s = [] ->
  Forall (fun g => g_is_active g = true /\ exists id r, t_grants (db_tables s) !! id = Some r /\
    gr_is_active r = true /\ same_grant r (grantInsertArgs g) = true) grants ->
  exists out, create_batch grants results s = (Ok (results ++ out), s) /\
    Forall (fun res => gc_existed res = true) out.
Proof.
  intros Hf Hall. revert results; induction Hall as [|g grants (Ha & id & r & Hr & Hra & Hsame) _ IH];
    intros results; cbn [create_batch].
  { exists []. by rewrite app_nil_r. }
  set (P := fun r => same_grant r (grantInsertArgs g) && gr_is_active r).
  assert (Hins : insert_grant_unless_active_duplicate (g_id g) (grantInsertArgs g) (db_tables s) =
            Ok (0, db_tables s)).
  { unfold insert_grant_unless_active_duplicate, active_duplicate. simpl gr_is_active. rewrite Ha.
    destruct (decide (id = g_id g)) as [->|Hne].
    - rewrite Hr, bool_decide_true by done. rewrite Hra, Hsame. by destruct (has_row _ _).
    - assert (has_row (fun k g0 => negb (String.eqb k (g_id g)) && gr_is_active g0
                && same_grant g0 (grantInsertArgs g)) (t_grants (db_tables s)) = true) as ->; [|done].
      apply has_row_true. exists id, r. split; [done|]. rewrite Hra, Hsame.
      by apply String.eqb_neq in Hne as ->. }
  assert (set_tables (db_tables s) s = s) as Es by by destruct s.
  unfold bind at 1. rewrite exec_run by done. rewrite Hins, Es. cbn [Nat.eqb].
  unfold bind, findActiveDuplicate. rewrite query_run by done.
  destruct (head _) as [old|] eqn:E.
  - destruct (IH (results ++ [MkGrantResult old true])) as (out & Hrun & Hex).
    exists (MkGrantResult old true :: out). split; [|by constructor].
    rewrite Hrun. by rewrite <- app_assoc.
  - exfalso. assert (Hin : scanGrant id r ∈ select_grants P (db_tables s)).
    { apply elem_of_select_grants. exists r. simpl. unfold P. by rewrite Hsame, Hra. }
    apply head_None in E. change (select_grants P (db_tables s) = []) in E. rewrite E in Hin. by apply elem_of_nil in Hin.
Qed.

(** A batch can be retried. After a batch of active grants has succeeded, the
    same batch again, without faults, succeeds, reports every grant as existing and
    leaves the database as it is. *)
Theorem CreateIdempotentBatch_again grants s out s1 :
  CreateIdempotentBatch grants s = (Ok out, s1) ->
  Forall (fun g => g_is_active g = true) grants -> db_faults s1 = [] ->
  exists out', CreateIdempotentBatch grants s1 = (Ok out', s1) /\
    Forall (fun res => gc_existed res = true) out'.
Proof.
  intros E Hact Hf. pose proof (wp_run _ _ _ _ _ E (wp_CreateIdempotentBatch grants s)) as (Hv & Hcov & _).
  destruct (create_batch_dup grants [] s1 Hf) as (out' & Hrun & Hex).
  { apply Forall_forall. intros g Hg. rewrite Forall_forall in Hact.
    destruct (list_elem_of_lookup_1 _ _ Hg) as [i Hi].
    destruct (Forall2_lookup_l _ _ _ _ _ Hcov Hi) as (res & _ & r & Hr & Hsame & Hres).
    split; [by apply Hact|]. exists (g_id (gc_grant res)), r. split; [done|]. split; [|done].
    destruct (gc_existed res); [done|]. destruct Hres as [_ ->]. by apply Hact. }
  exists out'. split; [|done]. unfold CreateIdempotentBatch, bind at 1, lift_result.
  apply validate_all_ok in Hv as ->. rewrite in_transaction_run by done. unfold bind at 1.
  rewrite Hrun. cbn [app]. unfold bind. by rewrite commit_run.
Qed.

Definition sample_grants : list Grant :=
  [MkGrant "g1" "photos" "u1" ActionGetObject "a/" true "" "" 1 1;
   MkGrant "g2" "photos" "u1" ActionGetObject "a/" true "" "" 1 1].
Definition sample_db : Db :=
  MkDb (MkTables {["u1" := MkUserRow "User" "ak" "hash" None None "member" true 1 1]}
          {["photos" := MkBucketRow "u1" 1]} ∅ ∅ ∅ ∅ ∅ ∅) 5 [].

Lemma CreateIdempotentBatch_again_witness :
  let s1 := snd (CreateIdempotentBatch sample_grants sample_db) in
  size (t_grants (db_tables s1)) = 1 /\
  exists out', CreateIdempotentBatch sample_grants s1 = (Ok out', s1) /\
    Forall (fun res => gc_existed res = true) out'.
Proof.
  cbv zeta. split; [reflexivity|].
  apply (CreateIdempotentBatch_again sample_grants sample_db
    [MkGrantResult (MkGrant "g1" "photos" "u1" ActionGetObject "a/" true "" "" 1 1) false;
     MkGrantResult (MkGrant "g1" "photos" "u1" ActionGetObject "a/" true "" "" 1 1) true]);
    [vm_compute; reflexivity|repeat constructor|reflexivity].
Defined.
End GrantSpec.
