(* ===== verification/ShareLinkRepo.v ===== *)
(** * Share links: [internal/metadata/share_link.go] *)

From S2P Require Import Prelude GoStrings Effects Schema Db GrantRepo.

(** [metadata.ShareLink] *)
Record ShareLink : Type := MkShareLink {
  l_code : string;
  l_bucket_name : string;
  l_object_key : string;
  l_response_content_disposition : string;
  l_created_by : string;
  l_expires_at : option time;
  l_created_at : time;
}.

Module ShareLinkRepository.

(** [ShareLink.IsExpired]: at or after the expiry. *)
Definition IsExpired (l : ShareLink) (now : time) : bool :=
  match l_expires_at l with
  | None => false
  | Some at_ => negb (now <? at_)%Z
  end.

Definition scanShareLink (code : string) (r : ShareLinkRow) : ShareLink :=
  MkShareLink code (lr_bucket_name r) (lr_object_key r) (lr_response_content_disposition r)
    (lr_created_by r) (lr_expires_at r) (lr_created_at r).

Definition link_row (l : ShareLink) : ShareLinkRow :=
  MkShareLinkRow (l_bucket_name l) (l_object_key l) (l_response_content_disposition l)
    (l_created_by l) (l_expires_at l) (l_created_at l).

Definition Create (l : ShareLink) : M Db unit :=
  let! r := exec (insert_link (l_code l) (link_row l)) in
  match r with
  | Err e => if GrantRepository.isUniqueConstraintError e then fail ErrShareLinkCodeTaken else fail e
  | Ok _ => ret tt
  end.

Definition GetByCode (code : string) : M Db ShareLink :=
  row <- query (fun t => t_links t !! code) ;;
  match row with
  | None => fail ErrShareLinkNotFound
  | Some r => ret (scanShareLink code r)
  end.

(** [ORDER BY created_at DESC, code] *)
Definition by_created_desc (a b : ShareLink) : Prop :=
  if decide (l_created_at a = l_created_at b) then String.le (l_code a) (l_code b)
  else (l_created_at b <= l_created_at a)%Z.
#[export] Instance by_created_desc_dec : RelDecision by_created_desc.
Proof. intros a b. unfold by_created_desc. case_decide; apply _. Defined.

Definition List (bucketName : string) : M Db (list ShareLink) :=
  query (fun t => merge_sort by_created_desc
    ((fun kv => scanShareLink kv.1 kv.2) <$>
     filter (fun kv => bucketName = "" \/ lr_bucket_name kv.2 = bucketName) (map_to_list (t_links t)))).

Definition Delete (code : string) : M Db unit :=
  rows <- exec (delete_link code) ;;
  if Nat.eqb rows 0 then fail ErrShareLinkNotFound else ret tt.

End ShareLinkRepository.
