(* ===== verification/ActivityRepo.v ===== *)
(** * The activity log and the statistics

    [internal/metadata/activity.go] and [management.go]: what the management API shows of
    the server's work and of its tables. *)

From S2P Require Import Prelude GoStrings Effects Schema Db BucketRepo.

(** [metadata.ObjectActivity] *)
Record ObjectActivity : Type := MkActivity {
  a_id : string;
  a_action : string;
  a_bucket_name : string;
  a_object_key : string;
  a_size : Z;
  a_etag : string;
  a_actor_user_id : string;
  a_created_at : time;
}.

(** [metadata.ActivityListFilter] *)
Record ActivityListFilter : Type := MkActivityFilter {
  af_bucket_name : string;
  af_action : string;
  af_limit : Z;
}.

Definition ActivityPutObject := "put_object".
Definition ActivityCopyObject := "copy_object".
Definition ActivityDeleteObject := "delete_object".
Definition ActivityDeleteObjects := "delete_objects".
Definition ActivityCompleteMultipartUpload := "complete_multipart_upload".
Definition ActivityCreateBucket := "create_bucket".
Definition ActivityDeleteBucket := "delete_bucket".
Definition ActivityForceDeleteBucket := "force_delete_bucket".
Definition ActivityEmptyBucket := "empty_bucket".
Definition ActivityTransferBucketOwnership := "transfer_bucket_ownership".
Definition ActivityCreateGrant := "create_grant".
Definition ActivityUpdateGrant := "update_grant".
Definition ActivityDeleteGrant := "delete_grant".

Module ActivityRepository.

Definition scanActivityRow (id : string) (r : ActivityRow) : ObjectActivity :=
  MkActivity id (ar_action r) (ar_bucket_name r) (null_string (ar_object_key r))
    (match ar_size r with Some n => n | None => 0%Z end)
    (null_string (ar_etag r)) (null_string (ar_actor_user_id r)) (ar_created_at r).

Definition Create (a : ObjectActivity) : M Db unit :=
  now <- time_now ;;
  let createdAt := if time_is_zero (a_created_at a) then now else a_created_at a in
  exec (insert_activity (a_id a)
    (MkActivityRow (a_action a) (a_bucket_name a) (nullify (a_object_key a))
       (if (a_size a =? 0)%Z then None else Some (a_size a))
       (nullify (a_etag a)) (nullify (a_actor_user_id a)) createdAt)).

(** [ORDER BY created_at DESC, id DESC] *)
Definition by_recent (a b : ObjectActivity) : Prop :=
  if decide (a_created_at a = a_created_at b) then String.le (a_id b) (a_id a)
  else (a_created_at b <= a_created_at a)%Z.
#[export] Instance by_recent_dec : RelDecision by_recent.
Proof. intros a b. unfold by_recent. case_decide; apply _. Defined.

Definition List (f : ActivityListFilter) : M Db (list ObjectActivity) :=
  let limit := if (af_limit f <=? 0)%Z then 100%Z else af_limit f in
  query (fun t => take (Z.to_nat limit) (merge_sort by_recent
    ((fun kv => scanActivityRow kv.1 kv.2) <$>
     filter (fun kv => (af_bucket_name f = "" \/ ar_bucket_name kv.2 = af_bucket_name f) /\
                       (af_action f = "" \/ ar_action kv.2 = af_action f))
       (map_to_list (t_activity t))))).

End ActivityRepository.

(** ** Statistics *)

(** [metadata.ManagementMetrics] and [BucketSummary] *)
Record ManagementMetrics : Type := MkMetrics {
  mm_bucket_count : Z;
  mm_object_count : Z;
  mm_total_object_bytes : Z;
  mm_user_count : Z;
  mm_active_user_count : Z;
}.

Record BucketSummary : Type := MkSummary {
  bs_name : string;
  bs_owner_id : string;
  bs_created_at : time;
  bs_object_count : Z;
  bs_total_object_bytes : Z;
}.

Module ManagementRepository.

Definition sum_sizes (l : list ObjectRow) : Z := foldr (fun o n => (or_size o + n)%Z) 0%Z l.

Definition Metrics : M Db ManagementMetrics := query (fun t =>
  MkMetrics (Z.of_nat (size (t_buckets t))) (Z.of_nat (size (t_objects t)))
    (sum_sizes (map_to_list (t_objects t)).*2)
    (Z.of_nat (size (t_users t)))
    (Z.of_nat (length (filter (fun u => ur_is_active u = true) (map_to_list (t_users t)).*2)))).

Definition summary (t : Tables) (name : string) (b : BucketRow) : BucketSummary :=
  let objects := (filter (fun kv => kv.1.1 = name) (map_to_list (t_objects t))).*2 in
  MkSummary name (br_owner_id b) (br_created_at b) (Z.of_nat (length objects)) (sum_sizes objects).

Definition ListBucketSummaries : M Db (list BucketSummary) := query (fun t =>
  merge_sort (by_time bs_created_at) ((fun kv => summary t kv.1 kv.2) <$> map_to_list (t_buckets t))).

Definition GetBucketSummary (bucketName : string) : M Db BucketSummary :=
  row <- query (fun t => summary t bucketName <$> t_buckets t !! bucketName) ;;
  match row with
  | None => fail ErrBucketNotFound
  | Some s => ret s
  end.

End ManagementRepository.
