(* ===== verification/Cache.v ===== *)
(** * The metadata cache: [internal/metadata/cache.go], [cache_publication.go]

    An LRU cache of bucket and object rows with a budget in bytes. The linked list
    holds the entries, most recently used first, each in an element with an identity;
    the map holds the identity of a key's element. A cache-wide revision counts the
    evictions that writers make. [None] is a nil cache. *)

From S2P Require Import Prelude GoStrings Effects Schema Db ObjectRepo BucketRepo.

#[local] Open Scope Z_scope.

(** The values that 64-bit integers take. *)
Definition int64 (z : Z) : Z := (z + 2 ^ 63) mod 2 ^ 64 - 2 ^ 63.
Definition uint64 (z : Z) : Z := z mod 2 ^ 64.

Lemma int64_id z : min_int64 <= z <= max_int64 -> int64 z = z.
Proof. unfold int64, min_int64, max_int64. intros Hz. rewrite Z.mod_small; lia. Qed.

Inductive cacheKind : Type := cacheKindBucket | cacheKindObject.

Record cacheKey : Type := MkCacheKey { ck_kind : cacheKind; ck_bucketName : string; ck_objectKey : string }.

#[export] Instance cacheKind_eq_dec : EqDecision cacheKind.
Proof. solve_decision. Defined.
#[export] Instance cacheKey_eq_dec : EqDecision cacheKey.
Proof. solve_decision. Defined.
#[export] Instance cacheKey_countable : Countable cacheKey.
Proof.
  refine (inj_countable
    (fun k => (match ck_kind k with cacheKindBucket => true | _ => false end, ck_bucketName k, ck_objectKey k))
    (fun '(b, n, o) => Some (MkCacheKey (if b : bool then cacheKindBucket else cacheKindObject) n o)) _).
  by intros [[] ? ?].
Defined.

(** [cacheValue]: one of the two pointers is set. *)
Record cacheValue : Type := MkCacheValue { cv_bucket : option Bucket; cv_object : option Object }.

Record cacheEntry : Type := MkCacheEntry { ce_key : cacheKey; ce_value : cacheValue; ce_size : Z }.

(** [MetadataCache]; [mc_next] is the identity of the next list element. *)
Record MetadataCache : Type := MkCache {
  mc_revision : Z;
  mc_maxBytes : Z;
  mc_used : Z;
  mc_lru : list (nat * cacheEntry);
  mc_entries : gmap cacheKey nat;
  mc_next : nat;
}.

Definition NewMetadataCache (maxBytes : Z) : MetadataCache := MkCache 0 maxBytes 0 [] ∅ 0.

Definition bucketKey (name : string) : cacheKey := MkCacheKey cacheKindBucket name "".
Definition objectKey (bucketName key : string) : cacheKey := MkCacheKey cacheKindObject bucketName key.

Definition bucketCacheOverhead : Z := 128.
Definition objectCacheOverhead : Z := 256.

Definition estimateBucketSize (bucket : Bucket) : Z :=
  int64 (bucketCacheOverhead + (string_len (b_name bucket) + string_len (b_owner_id bucket))).

Definition estimateObjectSize (object : Object) : Z :=
  let size := objectCacheOverhead
    + (string_len (o_id object) + string_len (o_bucket_name object) + string_len (o_key object)
       + string_len (o_etag object) + string_len (o_content_type object) + string_len (o_storage_path object)
       + string_len (o_crc32 object) + string_len (o_crc32c object) + string_len (o_crc64nvme object)
       + string_len (o_sha1 object) + string_len (o_sha256 object)) in
  match o_user_metadata object with
  | None => int64 size
  | Some m => int64 (map_fold (fun key value size => size + (64 + (string_len key + string_len value)))
                       (size + 64) m)
  end.

(** ** List elements *)

Definition list_value (i : nat) (l : list (nat * cacheEntry)) : option cacheEntry :=
  snd <$> find (fun x => Nat.eqb x.1 i) l.

Definition list_remove (i : nat) (l : list (nat * cacheEntry)) : list (nat * cacheEntry) :=
  filter (fun x => x.1 <> i) l.

(** [MoveToFront] *)
Definition move_to_front (i : nat) (c : MetadataCache) : MetadataCache :=
  match list_value i (mc_lru c) with
  | None => c
  | Some e => MkCache (mc_revision c) (mc_maxBytes c) (mc_used c) ((i, e) :: list_remove i (mc_lru c))
                (mc_entries c) (mc_next c)
  end.

Definition removeElementLocked (i : nat) (c : MetadataCache) : MetadataCache :=
  match list_value i (mc_lru c) with
  | None => c
  | Some entry =>
      MkCache (mc_revision c) (mc_maxBytes c) (int64 (mc_used c - ce_size entry))
        (list_remove i (mc_lru c)) (delete (ce_key entry) (mc_entries c)) (mc_next c)
  end.

Definition removeLocked (key : cacheKey) (c : MetadataCache) : MetadataCache :=
  match mc_entries c !! key with
  | None => c
  | Some element => removeElementLocked element c
  end.

(** The loop of [evictOverBudgetLocked]; the list bounds the rounds. *)
Fixpoint evict_over_budget (fuel : nat) (c : MetadataCache) : MetadataCache :=
  if mc_used c <=? mc_maxBytes c then c
  else match last (mc_lru c), fuel with
       | Some (element, _), S fuel => evict_over_budget fuel (removeElementLocked element c)
       | _, _ => c
       end.

Definition evictOverBudgetLocked (c : MetadataCache) : MetadataCache :=
  evict_over_budget (length (mc_lru c)) c.

Definition putLocked (entry : cacheEntry) (c : MetadataCache) : MetadataCache :=
  let c := match mc_entries c !! ce_key entry with
           | Some existing => removeElementLocked existing c
           | None => c
           end in
  evictOverBudgetLocked
    (MkCache (mc_revision c) (mc_maxBytes c) (int64 (mc_used c + ce_size entry))
       ((mc_next c, entry) :: mc_lru c) (<[ce_key entry := mc_next c]> (mc_entries c)) (S (mc_next c))).

(** ** The methods of a cache *)

Abbreviation Cache := (option MetadataCache).

(** [c == nil || c.maxBytes <= 0] *)
Definition enabled (c : Cache) : option MetadataCache :=
  match c with
  | Some m => if mc_maxBytes m <=? 0 then None else Some m
  | None => None
  end.

(** A lookup: the entry moves to the front. *)
Definition get_entry (key : cacheKey) (c : Cache) : option cacheValue * Cache :=
  match enabled c with
  | None => (None, c)
  | Some m =>
      match mc_entries m !! key with
      | None => (None, c)
      | Some element =>
          (ce_value <$> list_value element (mc_lru m), Some (move_to_front element m))
      end
  end.

Definition getBucket (name : string) (c : Cache) : option Bucket * Cache :=
  let '(v, c) := get_entry (bucketKey name) c in (v ≫= cv_bucket, c).

Definition getObject (bucketName key : string) (c : Cache) : option Object * Cache :=
  let '(v, c) := get_entry (objectKey bucketName key) c in (v ≫= cv_object, c).

Definition bucket_entry (bucket : Bucket) : cacheEntry :=
  MkCacheEntry (bucketKey (b_name bucket)) (MkCacheValue (Some bucket) None) (estimateBucketSize bucket).

Definition object_entry (object : Object) : cacheEntry :=
  MkCacheEntry (objectKey (o_bucket_name object) (o_key object)) (MkCacheValue None (Some object))
    (estimateObjectSize object).

Definition put (entry : cacheEntry) (c : Cache) : Cache := putLocked entry <$> c.

Definition putBucket (bucket : Bucket) (c : Cache) : Cache :=
  match enabled c with None => c | Some _ => put (bucket_entry bucket) c end.

Definition putObject (object : Object) (c : Cache) : Cache :=
  match enabled c with None => c | Some _ => put (object_entry object) c end.

Definition bump (m : MetadataCache) : MetadataCache :=
  MkCache (uint64 (mc_revision m + 1)) (mc_maxBytes m) (mc_used m) (mc_lru m) (mc_entries m) (mc_next m).

(** [for key := range c.entries { if P key { c.removeLocked(key) } }] *)
Definition remove_range (P : cacheKey -> bool) (m : MetadataCache) : MetadataCache :=
  foldl (fun m key => if P key then removeLocked key m else m) m (map_to_list (mc_entries m)).*1.

Definition object_of_bucket (name : string) (key : cacheKey) : bool :=
  match ck_kind key with
  | cacheKindObject => String.eqb (ck_bucketName key) name
  | cacheKindBucket => false
  end.

Definition evictBucket (name : string) (c : Cache) : Cache :=
  match enabled c with
  | None => c
  | Some m => Some (remove_range (object_of_bucket name) (removeLocked (bucketKey name) (bump m)))
  end.

Definition evictObject (bucketName key : string) (c : Cache) : Cache :=
  match enabled c with
  | None => c
  | Some m => Some (removeLocked (objectKey bucketName key) (bump m))
  end.

Definition evictObjectsInBucket (bucketName : string) (c : Cache) : Cache :=
  match enabled c with
  | None => c
  | Some m => Some (remove_range (object_of_bucket bucketName) (bump m))
  end.

Definition currentRevision (c : Cache) : Z :=
  match c with None => 0 | Some m => mc_revision m end.

Definition publish (entry : cacheEntry) (revision : Z) (m : MetadataCache) : bool * MetadataCache :=
  if negb (mc_revision m =? revision) then (false, m) else (true, putLocked entry m).

Definition publish_entry (entry : cacheEntry) (revision : Z) (c : Cache) : bool * Cache :=
  match enabled c with
  | None => (true, c)
  | Some m => let '(b, m) := publish entry revision m in (b, Some m)
  end.

Definition publishBucket (bucket : Bucket) (revision : Z) (c : Cache) : bool * Cache :=
  publish_entry (bucket_entry bucket) revision c.

Definition publishObject (object : Object) (revision : Z) (c : Cache) : bool * Cache :=
  publish_entry (object_entry object) revision c.

(** ** The list and the map agree *)

Definition total (l : list (nat * cacheEntry)) : Z := foldr (fun x n => ce_size x.2 + n) 0 l.

(** The map is the index of the list. *)
Record linked (c : MetadataCache) : Prop := {
  ln_ids : NoDup (mc_lru c).*1;
  ln_next : Forall (fun x => (x.1 < mc_next c)%nat) (mc_lru c);
  ln_entries : forall k i, mc_entries c !! k = Some i <-> exists e, (i, e) ∈ mc_lru c /\ ce_key e = k;
}.

(** ... and [used] is the sum of the sizes, as it is until that sum overflows. *)
Record indexed (c : MetadataCache) : Prop := {
  ix_linked : linked c;
  ix_used : mc_used c = total (mc_lru c);
  ix_sizes : Forall (fun x => 0 <= ce_size x.2) (mc_lru c);
  ix_range : mc_used c <= max_int64;
}.

(** The invariant between the calls: the budget is kept, too. *)
Record wf_cache (c : MetadataCache) : Prop := {
  wf_indexed : indexed c;
  wf_positive : 0 < mc_maxBytes c <= max_int64;
  wf_budget : mc_used c <= mc_maxBytes c;
}.

(** What the cache holds for a key. *)
Definition cached (k : cacheKey) (c : MetadataCache) : option cacheValue :=
  mc_entries c !! k ≫= fun i => ce_value <$> list_value i (mc_lru c).

Lemma list_value_spec i e l : NoDup l.*1 -> list_value i l = Some e <-> (i, e) ∈ l.
Proof.
  induction l as [|[j e'] l IH]; simpl; intros Hn; [split; [done|by intros ?%elem_of_nil]|].
  apply NoDup_cons in Hn as [Hj Hn]. unfold list_value. simpl. rewrite elem_of_cons.
  destruct (Nat.eqb_spec j i) as [->|Hne]; simpl.
  - split; [intros [= ->]; by left|]. intros [[= ->]|Hin]; [done|].
    destruct Hj. apply list_elem_of_fmap. by exists (i, e).
  - rewrite <- (IH Hn). split; [by right|]. intros [[= <- <-]|H]; [done|exact H].
Qed.

Lemma total_remove i e l :
  NoDup l.*1 -> (i, e) ∈ l -> total (list_remove i l) = total l - ce_size e.
Proof.
  induction l as [|[j e'] l IH]; simpl; intros Hn Hin; [by apply elem_of_nil in Hin|].
  apply NoDup_cons in Hn as [Hj Hn]. unfold list_remove. rewrite filter_cons. simpl.
  apply elem_of_cons in Hin as [[= <- <-]|Hin].
  - rewrite decide_False by tauto.
    rewrite list_filter_all; [lia|]. intros [k e0] Hk E. cbn in E. subst k. destruct Hj.
    apply list_elem_of_fmap. by exists (i, e0).
  - rewrite decide_True; [simpl; specialize (IH Hn Hin); unfold list_remove in IH; lia|].
    intros ->. destruct Hj. apply list_elem_of_fmap. by exists (i, e).
Qed.

Lemma sublist_fmap {A B} (f : A -> B) l1 l2 : l1 `sublist_of` l2 -> f <$> l1 `sublist_of` f <$> l2.
Proof. induction 1; cbn; by constructor. Qed.

Lemma elem_of_remove i x l : x ∈ list_remove i l <-> x.1 <> i /\ x ∈ l.
Proof. unfold list_remove. by rewrite list_elem_of_filter. Qed.

Lemma total_nonneg l : Forall (fun x => 0 <= ce_size x.2) l -> 0 <= total l.
Proof. induction 1; simpl; lia. Qed.

Lemma total_elem i e l : Forall (fun x => 0 <= ce_size x.2) l -> (i, e) ∈ l -> 0 <= ce_size e <= total l.
Proof.
  induction 1 as [|x l Hx Hl IH]; simpl; [by intros ?%elem_of_nil|].
  pose proof (total_nonneg l Hl). intros [<-|Hin]%elem_of_cons; simpl in *; [lia|]. specialize (IH Hin). lia.
Qed.

Section Linked.
Context (c : MetadataCache) (Lk : linked c).

Lemma linked_value k i : mc_entries c !! k = Some i -> exists e, list_value i (mc_lru c) = Some e /\
  (i, e) ∈ mc_lru c /\ ce_key e = k.
Proof using Lk.
  intros (e & Hin & Hk)%(ln_entries c Lk). exists e. split; [|done]. by apply list_value_spec, Hin; apply Lk.
Qed.

(** A key has one element. *)
Lemma linked_unique i j e e' :
  (i, e) ∈ mc_lru c -> (j, e') ∈ mc_lru c -> ce_key e = ce_key e' -> i = j /\ e = e'.
Proof using Lk.
  intros H1 H2 Hk.
  assert (Hi : mc_entries c !! ce_key e = Some i) by (apply Lk; by exists e).
  assert (Hj : mc_entries c !! ce_key e = Some j) by (apply Lk; by exists e').
  assert (i = j) as -> by congruence. split; [done|].
  apply (list_value_spec j) in H1; [|apply Lk]. apply (list_value_spec j) in H2; [|apply Lk]. congruence.
Qed.

(** ... and so has an identity. *)
Lemma linked_id i e e' : (i, e) ∈ mc_lru c -> (i, e') ∈ mc_lru c -> e = e'.
Proof using Lk.
  intros H1 H2. apply (list_value_spec i) in H1; [|apply Lk]. apply (list_value_spec i) in H2; [|apply Lk]. congruence.
Qed.

Lemma cached_spec k v : cached k c = Some v <-> exists i e, (i, e) ∈ mc_lru c /\ ce_key e = k /\ ce_value e = v.
Proof using Lk.
  unfold cached. split.
  - destruct (mc_entries c !! k) as [i|] eqn:E; [|done]. simpl.
    destruct (linked_value k i E) as (e & -> & Hin & Hk). intros [= <-]. eauto.
  - intros (i & e & Hin & Hk & <-). assert (E : mc_entries c !! k = Some i) by (apply Lk; by exists e).
    rewrite E. simpl. apply (list_value_spec i) in Hin as ->; [done|apply Lk].
Qed.

Lemma NoDup_remove i : NoDup (list_remove i (mc_lru c)).*1.
Proof using Lk.
  apply (sublist_NoDup _ (mc_lru c).*1); [apply Lk|]. apply sublist_fmap. apply sublist_filter.
Qed.

(** Removing the element of an entry. *)
Lemma removeElement_eq i e :
  (i, e) ∈ mc_lru c ->
  removeElementLocked i c =
    MkCache (mc_revision c) (mc_maxBytes c) (int64 (mc_used c - ce_size e)) (list_remove i (mc_lru c))
      (delete (ce_key e) (mc_entries c)) (mc_next c).
Proof using Lk.
  intros Hin. unfold removeElementLocked. by rewrite (proj2 (list_value_spec i e _ (ln_ids c Lk)) Hin).
Qed.

Lemma removeElement_linked i e : (i, e) ∈ mc_lru c -> linked (removeElementLocked i c).
Proof using Lk.
  intros Hin. rewrite (removeElement_eq i e Hin). split; simpl.
  - apply NoDup_remove.
  - apply Forall_forall. intros x [_ Hx]%elem_of_remove.
    exact (proj1 (Forall_forall _ _) (ln_next c Lk) x Hx).
  - intros k j. rewrite lookup_delete_Some, (ln_entries c Lk k j). split.
    + intros (Hk & e' & Hj & <-). exists e'. rewrite elem_of_remove. split; [|done].
      split; [|done]. intros E. simpl in E. subst j. by rewrite (linked_id i e e') in Hk.
    + intros (e' & [Hne Hj]%elem_of_remove & <-). split; [|by exists e'].
      intros E. apply Hne. by destruct (linked_unique _ _ _ _ Hin Hj E).
Qed.
End Linked.

Lemma removeElement_indexed c i e :
  indexed c -> (i, e) ∈ mc_lru c ->
  indexed (removeElementLocked i c) /\ mc_used (removeElementLocked i c) = mc_used c - ce_size e.
Proof.
  intros [Lk Hu Hs Hr] Hin. pose proof (total_elem i e _ Hs Hin).
  assert (E : mc_used (removeElementLocked i c) = mc_used c - ce_size e).
  { rewrite (removeElement_eq c Lk i e Hin). simpl. apply int64_id. rewrite Hu in *. unfold min_int64. lia. }
  split; [|done]. split.
  - by apply (removeElement_linked c Lk i e).
  - rewrite E, (removeElement_eq c Lk i e Hin). simpl. rewrite (total_remove i e), Hu; [done|apply Lk|done].
  - rewrite (removeElement_eq c Lk i e Hin). simpl. apply Forall_forall. intros x [_ Hx]%elem_of_remove.
    exact (proj1 (Forall_forall _ _) Hs x Hx).
  - rewrite E. lia.
Qed.

(** What the removal of elements leaves: a part of the list, in its order, and what it
    holds; the revision, the budget and the next identity are as before. *)
Record shrunk (P : cacheKey -> Prop) (c c' : MetadataCache) : Prop := {
  sh_linked : linked c';
  sh_lru : mc_lru c' `sublist_of` mc_lru c;
  sh_keeps : forall x, x ∈ mc_lru c -> x ∈ mc_lru c' \/ P (ce_key x.2);
  sh_drops : forall x, x ∈ mc_lru c' -> x ∈ mc_lru c;
  sh_indexed : indexed c -> indexed c' /\ mc_used c' <= mc_used c;
  sh_revision : mc_revision c' = mc_revision c;
  sh_maxBytes : mc_maxBytes c' = mc_maxBytes c;
  sh_next : mc_next c' = mc_next c;
}.

Lemma shrunk_refl P c : linked c -> shrunk P c c.
Proof. intros Lk. split; auto. intros Ix. split; [done|lia]. Qed.

Lemma shrunk_trans P c1 c2 c3 : shrunk P c1 c2 -> shrunk P c2 c3 -> shrunk P c1 c3.
Proof.
  intros [I1 L1 K1 D1 U1 R1 M1 N1] [I2 L2 K2 D2 U2 R2 M2 N2]. split; try congruence; try done.
  - by etrans.
  - intros x Hx. destruct (K1 x Hx) as [Hx2|]; [by apply K2|by right].
  - intros x Hx. by apply D1, D2.
  - intros [Ix1 Hu1]%U1. destruct (U2 Ix1) as [Ix2 Hu2]. split; [done|lia].
Qed.

Lemma removeElement_shrunk (P : cacheKey -> Prop) c i e :
  linked c -> (i, e) ∈ mc_lru c -> P (ce_key e) ->
  shrunk P c (removeElementLocked i c) /\ ~ (i, e) ∈ mc_lru (removeElementLocked i c).
Proof.
  intros Lk Hin HP. pose proof (removeElement_linked c Lk i e Hin) as Lk'.
  pose proof (removeElement_indexed c i e) as Hix.
  rewrite (removeElement_eq c Lk i e Hin) in *. simpl. rewrite elem_of_remove. split; [|by intros [Hne _]].
  split; simpl; try done.
  - apply sublist_filter.
  - intros [j e'] Hx. rewrite elem_of_remove. destruct (decide (j = i)) as [->|]; [|by left].
    right. simpl. by rewrite (linked_id c Lk i e' e).
  - intros x. rewrite elem_of_remove. tauto.
  - intros Ix. destruct (Hix Ix Hin) as [Ix' Hu]. split; [done|]. simpl in Hu.
    pose proof (total_elem i e _ (ix_sizes c Ix) Hin). lia.
Qed.

Lemma removeLocked_shrunk (P : cacheKey -> Prop) k c :
  linked c -> P k ->
  shrunk P c (removeLocked k c) /\ forall x, x ∈ mc_lru (removeLocked k c) -> ce_key x.2 <> k.
Proof.
  intros Lk HP. unfold removeLocked. destruct (mc_entries c !! k) as [i|] eqn:E.
  - destruct (linked_value c Lk k i E) as (e & _ & Hin & Hk).
    assert (HP' : P (ce_key e)) by by rewrite Hk.
    destruct (removeElement_shrunk P c i e Lk Hin HP') as [Hs Hne].
    split; [done|]. intros [j e'] Hj Hkj. simpl in Hkj.
    destruct (linked_unique c Lk j i e' e) as [-> ->]; [by apply Hs|done|congruence|done].
  - split; [by apply shrunk_refl|]. intros [i e] Hin Hk.
    assert (mc_entries c !! k = Some i) by (apply Lk; by exists e). congruence.
Qed.

Lemma remove_range_shrunk (P : cacheKey -> bool) c :
  linked c ->
  shrunk (fun k => P k = true) c (remove_range P c) /\
  forall x, x ∈ mc_lru (remove_range P c) -> P (ce_key x.2) = false.
Proof.
  intros Lk. unfold remove_range.
  assert (Hall : forall x, x ∈ mc_lru c -> ce_key x.2 ∈ (map_to_list (mc_entries c)).*1).
  { intros [i e] Hin. apply list_elem_of_fmap. exists (ce_key e, i). split; [done|].
    apply elem_of_map_to_list, Lk. by exists e. }
  revert Hall. generalize (map_to_list (mc_entries c)).*1. intros keys Hall.
  assert (H : forall l c, linked c ->
    shrunk (fun k => P k = true) c (foldl (fun m key => if P key then removeLocked key m else m) c l) /\
    forall x, x ∈ mc_lru (foldl (fun m key => if P key then removeLocked key m else m) c l) ->
      ce_key x.2 ∈ l -> P (ce_key x.2) = false).
  { clear. induction l as [|k l IH]; intros c Lk; simpl.
    { split; [by apply shrunk_refl|]. intros x _ Hx. by apply elem_of_nil in Hx. }
    destruct (P k) eqn:Ek.
    - destruct (removeLocked_shrunk (fun k => P k = true) k c Lk Ek) as [Hs Hne].
      destruct (IH _ (sh_linked _ _ _ Hs)) as [Hs' Hl]. split; [by eapply shrunk_trans|].
      intros x Hx [Hk|Hk]%elem_of_cons; [|by apply Hl]. by destruct (Hne x); [apply Hs'|].
    - destruct (IH c Lk) as [Hs' Hl]. split; [done|].
      intros x Hx [->|Hk]%elem_of_cons; [done|by apply Hl]. }
  destruct (H keys c Lk) as [Hs Hl]. split; [done|]. intros x Hx. apply Hl; [done|]. by apply Hall, Hs.
Qed.

(** *** Eviction over the budget *)

Lemma list_remove_last l x : NoDup (l ++ [x]).*1 -> list_remove x.1 (l ++ [x]) = l.
Proof.
  intros Hn. unfold list_remove. rewrite filter_app, filter_cons, decide_False by tauto.
  rewrite filter_nil, app_nil_r. apply list_filter_all. intros y Hy E.
  rewrite fmap_app, NoDup_app in Hn. destruct Hn as (_ & Hn & _). apply (Hn y.1).
  - apply list_elem_of_fmap. by exists y.
  - rewrite E. by left.
Qed.

(** The cache is cut to its longest front that fits. *)
Lemma evict_over_budget_spec fuel c :
  indexed c -> 0 <= mc_maxBytes c -> (length (mc_lru c) <= fuel)%nat ->
  let c' := evict_over_budget fuel c in
  exists n, mc_lru c' = take n (mc_lru c) /\ indexed c' /\ mc_used c' <= mc_maxBytes c /\
    ((n < length (mc_lru c))%nat -> mc_maxBytes c < total (take (S n) (mc_lru c))) /\
    mc_revision c' = mc_revision c /\ mc_maxBytes c' = mc_maxBytes c /\ mc_next c' = mc_next c.
Proof.
  revert c; induction fuel as [|fuel IH]; intros c Ix Hmax Hlen; cbv zeta; cbn [evict_over_budget];
    destruct (Z.leb_spec (mc_used c) (mc_maxBytes c)) as [Hle|Hgt].
  1, 3: exists (length (mc_lru c)); rewrite firstn_all; split_and!; try done; intros; lia.
  - destruct (mc_lru c) eqn:E; [|simpl in Hlen; lia]. exfalso.
    pose proof (ix_used c Ix) as Hu. rewrite E in Hu. simpl in Hu. lia.
  - destruct (mc_lru c) as [|[i e] l _] eqn:E using rev_ind.
    { exfalso. pose proof (ix_used c Ix) as Hu. rewrite E in Hu. simpl in Hu. lia. }
    rewrite last_snoc.
    assert (Hin : (i, e) ∈ mc_lru c) by (rewrite E; set_solver).
    pose proof (ix_linked c Ix) as Lk. destruct (removeElement_indexed c i e Ix Hin) as [Ix' _].
    assert (El : mc_lru (removeElementLocked i c) = l).
    { rewrite (removeElement_eq c Lk i e Hin). simpl. rewrite E.
      apply (list_remove_last l (i, e)). rewrite <- E. apply Lk. }
    assert (Em : mc_maxBytes (removeElementLocked i c) = mc_maxBytes c /\
                 mc_revision (removeElementLocked i c) = mc_revision c /\
                 mc_next (removeElementLocked i c) = mc_next c)
      by by rewrite (removeElement_eq c Lk i e Hin).
    destruct Em as (Em & Er & En).
    destruct (IH (removeElementLocked i c) Ix') as (n & Hl & Ix2 & Hu & Hmin & Hr & Hm & Hn);
      [by rewrite Em|rewrite El; rewrite length_app in Hlen; simpl in Hlen; lia|].
    rewrite El in *. exists (n `min` length l)%nat. split_and!; try congruence.
    + rewrite Hl, take_app_le by lia. destruct (Nat.le_ge_cases n (length l)); [by rewrite Nat.min_l|].
      rewrite Nat.min_r by lia. by rewrite !take_ge by lia.
    + intros _. destruct (decide (n < length l)%nat) as [Hlt|Hge].
      * rewrite Nat.min_l by lia. rewrite take_app_le by lia. rewrite Em in Hmin. by apply Hmin.
      * rewrite Nat.min_r by lia. rewrite take_ge by (rewrite length_app; simpl; lia).
        rewrite <- E, <- (ix_used c Ix). done.
Qed.

(** Whatever the sizes say, only elements go. *)
Lemma evict_over_budget_shrunk fuel c : linked c -> shrunk (fun _ => True) c (evict_over_budget fuel c).
Proof.
  revert c; induction fuel as [|fuel IH]; intros c Lk; cbn [evict_over_budget]; (case_match; [by apply shrunk_refl|]);
    destruct (last (mc_lru c)) as [[i e]|] eqn:E; try by apply shrunk_refl.
  apply last_Some_elem_of in E. destruct (removeElement_shrunk (fun _ => True) c i e Lk E) as [Hs _]; [done|].
  eapply shrunk_trans; [exact Hs|]. apply IH, Hs.
Qed.

(** *** Storing an entry *)

(** The elements of other keys. *)
Definition others (k : cacheKey) (l : list (nat * cacheEntry)) : list (nat * cacheEntry) :=
  filter (fun x => ce_key x.2 <> k) l.

Lemma elem_of_others k x l : x ∈ others k l <-> ce_key x.2 <> k /\ x ∈ l.
Proof. unfold others. by rewrite list_elem_of_filter. Qed.

Lemma list_filter_cond {A} (P Q : A -> Prop) `{forall x, Decision (P x), forall x, Decision (Q x)} (l : list A) :
  (forall x, x ∈ l -> P x <-> Q x) -> filter P l = filter Q l.
Proof.
  induction l as [|x l IH]; intros Hl; [done|]. rewrite !filter_cons, IH by (intros; apply Hl; by right).
  destruct (decide (P x)) as [Hp|Hp], (decide (Q x)) as [Hq|Hq]; try done; exfalso;
    rewrite (Hl x) in Hp by (by left); done.
Qed.

(** The cache before the new element is pushed. *)
Definition without (k : cacheKey) (c : MetadataCache) : MetadataCache :=
  match mc_entries c !! k with
  | Some existing => removeElementLocked existing c
  | None => c
  end.

Lemma without_spec k c :
  linked c ->
  shrunk (fun k' => k' = k) c (without k c) /\ mc_lru (without k c) = others k (mc_lru c) /\
  mc_entries (without k c) !! k = None.
Proof.
  intros Lk. unfold without. destruct (mc_entries c !! k) as [i|] eqn:E.
  - destruct (linked_value c Lk k i E) as (e & _ & Hin & Hk).
    destruct (removeElement_shrunk (fun k' => k' = k) c i e Lk Hin Hk) as [Hs _]. split; [done|].
    rewrite (removeElement_eq c Lk i e Hin); simpl. split; [|by rewrite Hk, lookup_delete_eq].
    apply list_filter_cond. intros [j e'] Hj. simpl. split; intros Hne E'; apply Hne.
    + by destruct (linked_unique c Lk j i e' e Hj Hin) as [-> _]; [congruence|].
    + subst j. by rewrite (linked_id c Lk i e' e).
  - split; [by apply shrunk_refl|]. split; [|done]. symmetry. apply list_filter_all. intros [j e'] Hj Hk. simpl in Hk.
    assert (mc_entries c !! k = Some j) by (apply Lk; by exists e'). congruence.
Qed.

Definition push (entry : cacheEntry) (c : MetadataCache) : MetadataCache :=
  MkCache (mc_revision c) (mc_maxBytes c) (int64 (mc_used c + ce_size entry))
    ((mc_next c, entry) :: mc_lru c) (<[ce_key entry := mc_next c]> (mc_entries c)) (S (mc_next c)).

Lemma push_linked entry c :
  linked c -> mc_entries c !! ce_key entry = None -> linked (push entry c).
Proof.
  intros Lk Hk. split; simpl.
  - apply NoDup_cons. split; [|apply Lk]. intros ([j e] & Ej & Hin)%list_elem_of_fmap. cbn in Ej. subst j.
    pose proof (proj1 (Forall_forall _ _) (ln_next c Lk) _ Hin) as Hlt. simpl in Hlt. lia.
  - constructor; [simpl; lia|].
    apply (Forall_impl _ _ _ (ln_next c Lk)). intros x Hx. lia.
  - intros k i. destruct (decide (k = ce_key entry)) as [->|Hne].
    + rewrite lookup_insert_eq. split.
      * intros [= <-]. exists entry. split; [by left|done].
      * intros (e & [[= -> ->]|Hin]%elem_of_cons & Ee); [done|].
        assert (mc_entries c !! ce_key entry = Some i) by (apply Lk; by exists e). congruence.
    + rewrite lookup_insert_ne, (ln_entries c Lk k i) by done. split; intros (e & Hin & Ee); exists e.
      * split; [by right|done].
      * apply elem_of_cons in Hin as [[= -> ->]|Hin]; [by destruct Hne|done].
Qed.

Lemma push_indexed entry c :
  indexed c -> mc_entries c !! ce_key entry = None -> 0 <= ce_size entry ->
  mc_used c + ce_size entry <= max_int64 ->
  indexed (push entry c) /\ mc_used (push entry c) = mc_used c + ce_size entry.
Proof.
  intros [Lk Hus Hsz Hr] Hk Hsize Hrange. pose proof (total_nonneg _ Hsz) as Hpos.
  assert (Hu : int64 (mc_used c + ce_size entry) = mc_used c + ce_size entry).
  { apply int64_id. rewrite <- Hus in Hpos. unfold min_int64. lia. }
  split; [|done]. split; simpl; rewrite ?Hu; [by apply push_linked|lia|by constructor|done].
Qed.

(** What the cache holds after an entry was stored, of whatever size. *)
Lemma putLocked_linked entry c :
  linked c ->
  linked (putLocked entry c) /\ mc_revision (putLocked entry c) = mc_revision c /\
  mc_maxBytes (putLocked entry c) = mc_maxBytes c /\
  forall k v, cached k (putLocked entry c) = Some v ->
    if decide (k = ce_key entry) then v = ce_value entry else cached k c = Some v.
Proof.
  intros Lk. destruct (without_spec (ce_key entry) c Lk) as (Hw & Lw & Ew).
  set (p := push entry (without (ce_key entry) c)).
  assert (Lp : linked p) by (by apply push_linked; [apply Hw|]).
  change (putLocked entry c) with (evict_over_budget (length (mc_lru p)) p).
  pose proof (evict_over_budget_shrunk (length (mc_lru p)) p Lp) as Hs.
  split; [apply Hs|]. split; [rewrite (sh_revision _ _ _ Hs); apply Hw|].
  split; [rewrite (sh_maxBytes _ _ _ Hs); apply Hw|].
  intros k v (i & e & Hin%(sh_drops _ _ _ Hs) & <- & <-)%(cached_spec _ (sh_linked _ _ _ Hs)).
  simpl in Hin. apply elem_of_cons in Hin as [[= -> ->]|Hin]; [by rewrite decide_True|].
  rewrite Lw in Hin. apply elem_of_others in Hin as [Hne Hin]. rewrite decide_False by done.
  apply (cached_spec c Lk). eauto.
Qed.

(** An entry of a sensible size for a budget. *)
Definition fits (maxBytes : Z) (e : cacheEntry) : Prop := 0 <= ce_size e <= max_int64 - maxBytes.

Lemma putLocked_spec entry c :
  wf_cache c -> fits (mc_maxBytes c) entry ->
  let l := (mc_next c, entry) :: others (ce_key entry) (mc_lru c) in
  exists n, mc_lru (putLocked entry c) = take n l /\ wf_cache (putLocked entry c) /\
    ((n < length l)%nat -> mc_maxBytes c < total (take (S n) l)) /\
    mc_revision (putLocked entry c) = mc_revision c /\ mc_maxBytes (putLocked entry c) = mc_maxBytes c.
Proof.
  intros [Ix [Hp1 Hp2] Hb] [Hs1 Hs2]. cbv zeta.
  destruct (without_spec (ce_key entry) c (ix_linked c Ix)) as ([_ _ _ _ HI R1 M1 N1] & L1 & E1).
  destruct (HI Ix) as [I1 U1].
  destruct (push_indexed entry (without (ce_key entry) c) I1 E1 Hs1) as [I2 U2]; [lia|].
  set (p := push entry (without (ce_key entry) c)) in *.
  change (putLocked entry c) with (evict_over_budget (length (mc_lru p)) p).
  assert (Lp : mc_lru p = (mc_next c, entry) :: others (ce_key entry) (mc_lru c))
    by (subst p; simpl; by rewrite L1, N1).
  assert (Mp : mc_maxBytes p = mc_maxBytes c) by done. assert (Rp : mc_revision p = mc_revision c) by done.
  destruct (evict_over_budget_spec (length (mc_lru p)) p I2) as (n & Hl & Ix' & Hu & Hmin & Hr & Hm & _);
    [lia|done|].
  rewrite Lp in Hl at 2. rewrite Lp in Hmin. rewrite Mp in *. exists n.
  split; [exact Hl|]. split; [|by rewrite Hr, Hm, Rp]. split; [done| |]; by rewrite Hm.
Qed.

(** An entry that fits into the budget is kept. *)
Lemma putLocked_keeps entry c :
  wf_cache c -> fits (mc_maxBytes c) entry -> ce_size entry <= mc_maxBytes c ->
  cached (ce_key entry) (putLocked entry c) = Some (ce_value entry).
Proof.
  intros Hc Hf Hs. destruct (putLocked_spec entry c Hc Hf) as (n & Hl & Hc' & Hmin & _ & _).
  apply (cached_spec _ (ix_linked _ (wf_indexed _ Hc'))). exists (mc_next c), entry. split; [|done]. rewrite Hl.
  destruct n as [|n]; [|left]. exfalso. simpl in Hmin. lia.
Qed.

(** *** The methods keep the invariant *)

Lemma move_to_front_elem i c x : linked c -> x ∈ mc_lru (move_to_front i c) <-> x ∈ mc_lru c.
Proof.
  intros Lk. unfold move_to_front. destruct (list_value i (mc_lru c)) as [e|] eqn:E; [|done].
  apply (list_value_spec i e _ (ln_ids c Lk)) in E as Hin. destruct x as [j e']. simpl.
  rewrite elem_of_cons, elem_of_remove. split; [by intros [[= -> ->]|[_ ?]]|].
  intros Hj. destruct (decide (j = i)) as [->|]; [|by right]. left. by rewrite (linked_id c Lk i e' e).
Qed.

Lemma move_to_front_linked i c : linked c -> linked (move_to_front i c) /\
  (forall k, cached k (move_to_front i c) = cached k c).
Proof.
  intros Lk. assert (Lk' : linked (move_to_front i c)).
  { split.
    - unfold move_to_front. destruct (list_value i (mc_lru c)) as [e|]; [|apply Lk]. simpl. apply NoDup_cons.
      split; [|by apply NoDup_remove]. intros ([j e'] & Ej & [Hne _]%elem_of_remove)%list_elem_of_fmap. by destruct Hne.
    - apply Forall_forall. intros x Hx%move_to_front_elem; [|done].
      assert (mc_next (move_to_front i c) = mc_next c) as -> by (unfold move_to_front; by case_match).
      exact (proj1 (Forall_forall _ _) (ln_next c Lk) x Hx).
    - intros k j. assert (mc_entries (move_to_front i c) = mc_entries c) as -> by (unfold move_to_front; by case_match).
      rewrite (ln_entries c Lk). split; intros (e & Hin & He); exists e; (split; [by apply (move_to_front_elem i c _ Lk)|done]). }
  split; [done|]. intros k. apply option_eq. intros v.
  rewrite (cached_spec _ Lk'), (cached_spec c Lk).
  split; intros (j & e & Hin & He); exists j, e; (split; [by apply (move_to_front_elem i c _ Lk)|done]).
Qed.

Lemma move_to_front_indexed i c : indexed c -> indexed (move_to_front i c).
Proof.
  intros [Lk Hu Hs Hr]. destruct (move_to_front_linked i c Lk) as [Lk' _]. split; [done| | |].
  - unfold move_to_front. destruct (list_value i (mc_lru c)) as [e|] eqn:E; [|done].
    apply (list_value_spec i e _ (ln_ids c Lk)) in E. simpl.
    rewrite (total_remove i e), Hu; [lia|apply Lk|done].
  - apply Forall_forall. intros x Hx%move_to_front_elem; [|done]. exact (proj1 (Forall_forall _ _) Hs x Hx).
  - unfold move_to_front. by case_match.
Qed.

Lemma shrunk_wf P c c' : wf_cache c -> shrunk P c c' -> wf_cache c'.
Proof. intros [Ix Hp Hb] [_ _ _ _ HI _ M1 _]. destruct (HI Ix) as [I1 U1]. split; [done|by rewrite M1|rewrite M1; lia]. Qed.

Lemma shrunk_cached P c c' k v : linked c -> shrunk P c c' -> cached k c' = Some v -> cached k c = Some v.
Proof.
  intros Lk Hs (i & e & Hin & Hk & Hv)%(cached_spec c' (sh_linked _ _ _ Hs)).
  apply (cached_spec c Lk). exists i, e. split; [|done]. by apply Hs.
Qed.

Lemma shrunk_cached_other (P : cacheKey -> Prop) c c' k :
  linked c -> shrunk P c c' -> ~ P k -> cached k c' = cached k c.
Proof.
  intros Lk Hs HP. apply option_eq. intros v. split; [by apply (shrunk_cached P)|].
  intros (i & e & Hin & <- & Hv)%(cached_spec c Lk). apply (cached_spec c' (sh_linked _ _ _ Hs)).
  exists i, e. split; [|done]. by destruct (sh_keeps _ _ _ Hs _ Hin).
Qed.

Lemma not_cached c k : linked c -> (forall x, x ∈ mc_lru c -> ce_key x.2 <> k) -> cached k c = None.
Proof.
  intros Lk Hne. destruct (cached k c) as [v|] eqn:E; [|done]. exfalso.
  apply (cached_spec c Lk) in E as (i & e & Hin & Hk & _). by apply (Hne _ Hin).
Qed.

Lemma bump_linked c : linked c -> linked (bump c).
Proof. by intros []. Qed.

Lemma bump_wf c : wf_cache c -> wf_cache (bump c).
Proof. intros [[Lk ? ? ?] Hp Hb]. by split; [split; [apply bump_linked|..]| |]. Qed.

(** A cache in use, whatever the sizes of its entries. *)
Record sound (c : MetadataCache) : Prop := { so_linked : linked c; so_positive : 0 < mc_maxBytes c }.

Lemma wf_sound c : wf_cache c -> sound c.
Proof. intros [Ix Hp _]. split; [apply Ix|lia]. Qed.

(** One eviction: the revision moves on, the keys go, the others stay. *)
Record evicted (P : cacheKey -> Prop) (m m' : MetadataCache) : Prop := {
  ev_sound : sound m';
  ev_wf : wf_cache m -> wf_cache m';
  ev_revision : mc_revision m' = uint64 (mc_revision m + 1);
  ev_maxBytes : mc_maxBytes m' = mc_maxBytes m;
  ev_gone : forall k, P k -> cached k m' = None;
  ev_kept : forall k, ~ P k -> cached k m' = cached k m;
}.

Lemma evicted_shrunk (P : cacheKey -> Prop) m m' :
  sound m -> shrunk P (bump m) m' -> (forall x, x ∈ mc_lru m' -> ~ P (ce_key x.2)) -> evicted P m m'.
Proof.
  intros [Lk Hp] Hs Hgone. pose proof (bump_linked m Lk) as Hb. split.
  - split; [apply Hs|by rewrite (sh_maxBytes _ _ _ Hs)].
  - intros Hm. by apply (shrunk_wf P (bump m)); [apply bump_wf|].
  - by rewrite (sh_revision _ _ _ Hs).
  - by rewrite (sh_maxBytes _ _ _ Hs).
  - intros k HP. apply not_cached; [apply Hs|]. intros x Hx <-. by apply (Hgone x).
  - intros k HP. exact (shrunk_cached_other P _ _ k Hb Hs HP).
Qed.

Lemma enabled_sound m : sound m -> enabled (Some m) = Some m.
Proof. intros [_ Hp]. cbn. destruct (Z.leb_spec (mc_maxBytes m) 0); [lia|done]. Qed.

Lemma enabled_wf m : wf_cache m -> enabled (Some m) = Some m.
Proof. intros Hm. by apply enabled_sound, wf_sound. Qed.

(** The keys that an eviction of a bucket removes. *)
Definition of_bucket (name : string) (k : cacheKey) : Prop :=
  k = bucketKey name \/ object_of_bucket name k = true.

Lemma evictBucket_spec name m :
  sound m -> exists m', evictBucket name (Some m) = Some m' /\ evicted (of_bucket name) m m'.
Proof.
  intros Hm. unfold evictBucket. rewrite enabled_sound by done. eexists. split; [done|].
  pose proof (bump_linked m (so_linked m Hm)) as Lk.
  destruct (removeLocked_shrunk (of_bucket name) (bucketKey name) (bump m) Lk) as [Hs1 Hg1]; [by left|].
  destruct (remove_range_shrunk (object_of_bucket name) _ (sh_linked _ _ _ Hs1)) as [Hs2 Hg2].
  apply evicted_shrunk; [done| |].
  - eapply shrunk_trans; [exact Hs1|]. destruct Hs2 as [? ? K ? ? ? ? ?]. split; try done.
    intros x Hx. destruct (K x Hx); [by left|by right; right].
  - intros x Hx [Hk|Hk]; [by apply (Hg1 x); [apply Hs2|]|]. by rewrite Hg2 in Hk.
Qed.

Lemma evictObject_spec bucketName key m :
  sound m -> exists m', evictObject bucketName key (Some m) = Some m' /\
    evicted (fun k => k = objectKey bucketName key) m m'.
Proof.
  intros Hm. unfold evictObject. rewrite enabled_sound by done. eexists. split; [done|].
  pose proof (bump_linked m (so_linked m Hm)) as Lk.
  by destruct (removeLocked_shrunk (fun k => k = objectKey bucketName key) (objectKey bucketName key)
    (bump m) Lk) as [Hs Hg]; [|apply evicted_shrunk].
Qed.

Lemma evictObjectsInBucket_spec name m :
  sound m -> exists m', evictObjectsInBucket name (Some m) = Some m' /\
    evicted (fun k => object_of_bucket name k = true) m m'.
Proof.
  intros Hm. unfold evictObjectsInBucket. rewrite enabled_sound by done. eexists. split; [done|].
  destruct (remove_range_shrunk (object_of_bucket name) (bump m) (bump_linked m (so_linked m Hm))) as [Hs Hg].
  apply evicted_shrunk; [done|done|]. intros x Hx. rewrite (Hg x Hx). done.
Qed.

Lemma get_entry_spec k m :
  sound m -> exists m', get_entry k (Some m) = (cached k m, Some m') /\ sound m' /\ (wf_cache m -> wf_cache m') /\
    mc_revision m' = mc_revision m /\ mc_maxBytes m' = mc_maxBytes m /\ forall k', cached k' m' = cached k' m.
Proof.
  intros Hm. unfold get_entry. rewrite enabled_sound by done. unfold cached at 1.
  destruct (mc_entries m !! k) as [i|] eqn:E; [|by exists m]. simpl. eexists. split; [done|].
  destruct (move_to_front_linked i m (so_linked m Hm)) as [Lk Hcached].
  assert (mc_maxBytes (move_to_front i m) = mc_maxBytes m /\ mc_used (move_to_front i m) = mc_used m /\
          mc_revision (move_to_front i m) = mc_revision m) as (Em & Eu & Er)
    by by unfold move_to_front; destruct (list_value _ _).
  split; [split; [done|rewrite Em; apply Hm]|]. split; [|done].
  intros [Ix Hp Hb]. split; [by apply move_to_front_indexed|by rewrite Em|by rewrite Em, Eu].
Qed.

(** Publishing, whatever the size of the row. *)
Lemma publish_spec entry revision m :
  sound m ->
  exists b m', publish_entry entry revision (Some m) = (b, Some m') /\ sound m' /\
    mc_revision m' = mc_revision m /\ mc_maxBytes m' = mc_maxBytes m /\
    if b then mc_revision m = revision /\
              forall k v, cached k m' = Some v -> if decide (k = ce_key entry) then v = ce_value entry else cached k m = Some v
    else m' = m /\ mc_revision m <> revision.
Proof.
  intros Hm. unfold publish_entry. rewrite enabled_sound by done. unfold publish.
  destruct (Z.eqb_spec (mc_revision m) revision) as [E|]; cbn [negb]; [|by exists false, m].
  destruct (putLocked_linked entry m (so_linked m Hm)) as (Lk & Er & Em & Hc).
  exists true, (putLocked entry m). split; [done|]. split; [split; [done|rewrite Em; apply Hm]|]. done.
Qed.

(** ** Runs *)

Inductive cache_call : Type :=
  | CGetBucket (name : string)
  | CGetObject (bucketName key : string)
  | CPutBucket (b : Bucket)
  | CPutObject (o : Object)
  | CPublishBucket (b : Bucket) (revision : Z)
  | CPublishObject (o : Object) (revision : Z)
  | CEvictBucket (name : string)
  | CEvictObject (bucketName key : string)
  | CEvictObjectsInBucket (name : string).

Definition run_call (c : Cache) (call : cache_call) : Cache :=
  match call with
  | CGetBucket name => (getBucket name c).2
  | CGetObject b k => (getObject b k c).2
  | CPutBucket b => putBucket b c
  | CPutObject o => putObject o c
  | CPublishBucket b r => (publishBucket b r c).2
  | CPublishObject o r => (publishObject o r c).2
  | CEvictBucket name => evictBucket name c
  | CEvictObject b k => evictObject b k c
  | CEvictObjectsInBucket name => evictObjectsInBucket name c
  end.

(** No single row is so large that the sum of the sizes overflows. *)
Definition call_fits (maxBytes : Z) (call : cache_call) : Prop :=
  match call with
  | CPutBucket b | CPublishBucket b _ => fits maxBytes (bucket_entry b)
  | CPutObject o | CPublishObject o _ => fits maxBytes (object_entry o)
  | _ => True
  end.
#[export] Instance call_fits_dec maxBytes call : Decision (call_fits maxBytes call).
Proof. destruct call; unfold call_fits, fits; apply _. Defined.

Lemma publish_wf entry r m :
  wf_cache m -> fits (mc_maxBytes m) entry ->
  wf_cache (publish entry r m).2 /\ mc_maxBytes (publish entry r m).2 = mc_maxBytes m.
Proof.
  intros Hm Hf. unfold publish. destruct (negb _); [done|].
  destruct (putLocked_spec entry m Hm Hf) as (n & _ & ? & _ & _ & ?). done.
Qed.

Lemma run_call_wf m call :
  wf_cache m -> call_fits (mc_maxBytes m) call ->
  exists m', run_call (Some m) call = Some m' /\ wf_cache m' /\ mc_maxBytes m' = mc_maxBytes m.
Proof.
  intros Hm Hf.
  assert (Hget : forall k, exists m', (get_entry k (Some m)).2 = Some m' /\ wf_cache m' /\
    mc_maxBytes m' = mc_maxBytes m).
  { intros k. destruct (get_entry_spec k m (wf_sound m Hm)) as (m' & -> & _ & ? & _ & ? & _). exists m'. by split_and!; auto. }
  assert (Hput : forall e, fits (mc_maxBytes m) e -> exists m', Some (putLocked e m) = Some m' /\ wf_cache m' /\
    mc_maxBytes m' = mc_maxBytes m).
  { intros e He. destruct (putLocked_spec e m Hm He) as (n & _ & ? & _ & _ & ?). eauto. }
  destruct call; cbn [run_call].
  - unfold getBucket. specialize (Hget (bucketKey name)). by destruct (get_entry _ _).
  - unfold getObject. specialize (Hget (objectKey bucketName key)). by destruct (get_entry _ _).
  - unfold putBucket. rewrite enabled_wf by done. by apply Hput.
  - unfold putObject. rewrite enabled_wf by done. by apply Hput.
  - unfold publishBucket, publish_entry. rewrite enabled_wf by done.
    pose proof (publish_wf _ revision m Hm Hf). destruct (publish _ _ _). eauto.
  - unfold publishObject, publish_entry. rewrite enabled_wf by done.
    pose proof (publish_wf _ revision m Hm Hf). destruct (publish _ _ _). eauto.
  - destruct (evictBucket_spec name m (wf_sound m Hm)) as (m' & -> & []). eauto.
  - destruct (evictObject_spec bucketName key m (wf_sound m Hm)) as (m' & -> & []). eauto.
  - destruct (evictObjectsInBucket_spec name m (wf_sound m Hm)) as (m' & -> & []). eauto.
Qed.

Lemma new_cache_linked maxBytes : linked (NewMetadataCache maxBytes).
Proof.
  split; simpl; [constructor|constructor|]. intros k i. rewrite lookup_empty. split; [done|].
  by intros (? & ?%elem_of_nil & _).
Qed.

Lemma new_cache_wf maxBytes : 0 < maxBytes <= max_int64 -> wf_cache (NewMetadataCache maxBytes).
Proof.
  intros Hm. split; [|done|simpl; lia]. split; [apply new_cache_linked|done|constructor|done].
Qed.

(** C25: the cache stays within its budget. After any sequence of calls on a new
    cache, the map of entries is the index of the linked list (so no key is stored
    twice and no element is lost), the counter [used] is the sum of the sizes of the
    entries stored, and it is at most [maxBytes]. *)
Theorem cache_within_budget maxBytes calls :
  0 < maxBytes <= max_int64 -> Forall (call_fits maxBytes) calls ->
  exists m, foldl run_call (Some (NewMetadataCache maxBytes)) calls = Some m /\
    NoDup (mc_lru m).*1 /\
    (forall k i, mc_entries m !! k = Some i <-> exists e, (i, e) ∈ mc_lru m /\ ce_key e = k) /\
    mc_used m = total (mc_lru m) /\ 0 <= mc_used m <= maxBytes.
Proof.
  intros Hmax Hcalls.
  assert (H : forall m, wf_cache m -> mc_maxBytes m = maxBytes ->
    exists m', foldl run_call (Some m) calls = Some m' /\ wf_cache m' /\ mc_maxBytes m' = maxBytes).
  { induction Hcalls as [|call calls Hcall _ IH]; intros m Hm Em; [by exists m|]. cbn [foldl].
    rewrite <- Em in Hcall. destruct (run_call_wf m call Hm Hcall) as (m1 & -> & Hm1 & Em1).
    apply IH; [done|congruence]. }
  destruct (H (NewMetadataCache maxBytes)) as (m & Hrun & [Ix Hp Hb] & Em); [by apply new_cache_wf|done|].
  exists m. split; [done|]. split; [apply Ix|]. split; [apply (ix_linked _ Ix)|]. split; [apply Ix|].
  rewrite <- Em. split; [|done]. rewrite (ix_used m Ix). apply total_nonneg, Ix.
Qed.

(** C26: the cache evicts the least recently used. Storing an entry that fits in a
    64-bit sum puts it in front, drops the element that its key had, and cuts the rest
    at the end: exactly as many of the least recently used elements go as is needed to
    keep the budget. An entry that fits in the budget is kept, and what the cache
    holds for any other key is what it held before, or nothing. *)
Theorem putLocked_lru entry c :
  wf_cache c -> fits (mc_maxBytes c) entry ->
  let l := (mc_next c, entry) :: others (ce_key entry) (mc_lru c) in
  let c' := putLocked entry c in
  (exists n, mc_lru c' = take n l /\ ((n < length l)%nat -> mc_maxBytes c < total (take (S n) l))) /\
  mc_used c' = total (mc_lru c') /\ mc_used c' <= mc_maxBytes c /\
  (ce_size entry <= mc_maxBytes c -> cached (ce_key entry) c' = Some (ce_value entry)) /\
  (forall k v, k <> ce_key entry -> cached k c' = Some v -> cached k c = Some v).
Proof.
  intros Hc Hf. cbv zeta. destruct (putLocked_spec entry c Hc Hf) as (n & Hl & [Ix _ Hb] & Hmin & _ & Em).
  split; [by exists n|]. split; [apply Ix|]. split; [by rewrite <- Em|]. split.
  - by apply putLocked_keeps.
  - intros k v Hk Hv. destruct (putLocked_linked entry c) as (_ & _ & _ & H); [apply Hc|].
    specialize (H k v Hv). by rewrite decide_False in H.
Qed.

(** ** Witnesses *)

Definition sample_bucket (name : string) : Bucket := MkBucket name "u1" 1.
Definition sample_calls : list cache_call :=
  [CPutBucket (sample_bucket "photos"); CPutBucket (sample_bucket "music"); CGetBucket "photos";
   CPutBucket (sample_bucket "films"); CEvictBucket "music"].
Definition sample_cache : MetadataCache :=
  default (NewMetadataCache 300) (foldl run_call (Some (NewMetadataCache 300)) (take 2 sample_calls)).

Lemma cache_within_budget_witness :
  exists m, foldl run_call (Some (NewMetadataCache 300)) sample_calls = Some m /\
    NoDup (mc_lru m).*1 /\
    (forall k i, mc_entries m !! k = Some i <-> exists e, (i, e) ∈ mc_lru m /\ ce_key e = k) /\
    mc_used m = total (mc_lru m) /\ 0 <= mc_used m <= 300.
Proof. apply (cache_within_budget 300 sample_calls); [by_decide|by_decide]. Defined.

(** The bucket used least recently goes. *)
Example sample_calls_lru :
  (fun x => ck_bucketName (ce_key x.2)) <$>
    default [] (mc_lru <$> foldl run_call (Some (NewMetadataCache 300)) (take 4 sample_calls)) =
  ["films"; "photos"].
Proof. reflexivity. Qed.

Lemma sample_cache_wf : wf_cache sample_cache.
Proof.
  assert (H : wf_cache (NewMetadataCache 300)) by by apply new_cache_wf.
  destruct (run_call_wf _ (CPutBucket (sample_bucket "photos")) H) as (m1 & E1 & H1 & M1); [by_decide|].
  destruct (run_call_wf m1 (CPutBucket (sample_bucket "music")) H1) as (m2 & E2 & H2 & M2);
    [rewrite M1; by_decide|].
  unfold sample_cache, sample_calls. cbn [take foldl]. by rewrite E1, E2.
Qed.

Lemma putLocked_lru_witness :
  let entry := bucket_entry (sample_bucket "films") in
  let l := (mc_next sample_cache, entry) :: others (ce_key entry) (mc_lru sample_cache) in
  let c' := putLocked entry sample_cache in
  (exists n, mc_lru c' = take n l /\ ((n < length l)%nat -> mc_maxBytes sample_cache < total (take (S n) l))) /\
  mc_used c' = total (mc_lru c') /\ mc_used c' <= mc_maxBytes sample_cache /\
  (ce_size entry <= mc_maxBytes sample_cache -> cached (ce_key entry) c' = Some (ce_value entry)) /\
  (forall k v, k <> ce_key entry -> cached k c' = Some v -> cached k sample_cache = Some v).
Proof.
  apply (putLocked_lru (bucket_entry (sample_bucket "films")) sample_cache).
  - apply sample_cache_wf.
  - unfold fits. by_decide.
Defined.
