(* ===== verification/Prog.v ===== *)
(** * Programs that interleave

    The state that handlers share: the database, the file system and the metadata cache.

    A request handler is a sequence of calls - of a repository, of the storage engine -
    with Go code in between. [run] executes one handler alone; the step relation lets
    any number of them interleave, one call at a time, with the mutexes that they take.
    [safe] is the logic that carries an invariant through every interleaving: a handler
    owns what it has created and not yet published, and may rely on facts that no other
    handler can undo. *)

From S2P Require Import Prelude GoStrings Effects Os Schema Db Cache.

(** * The server's state

    The database, the file system and the cache that the handlers share, as parts of one
    state; the code of a repository or of the storage engine runs on its part. *)

(** [w_cache] is [nil] when the program runs without a cache. *)
Record World : Type := MkWorld { w_db : Db; w_os : Os; w_cache : Cache }.

#[export] Instance lens_db : Lens World Db.
Proof.
  refine (Build_Lens World Db w_db (fun d w => MkWorld d (w_os w) (w_cache w)) _ _ _); [done|done|by intros []].
Defined.

#[export] Instance lens_os : Lens World Os.
Proof.
  refine (Build_Lens World Os w_os (fun o w => MkWorld (w_db w) o (w_cache w)) _ _ _); [done|done|by intros []].
Defined.

(** Code of a repository, and code of the operating system, in the world. *)
Definition db {A} (m : M Db A) : M World A := on m.
Definition os {A} (m : M Os A) : M World A := on m.

(** A method of the cache: one critical section. *)
Definition on_cache {A} (f : Cache -> A * Cache) : M World A :=
  fun w => let '(a, c) := f (w_cache w) in (Ok a, MkWorld (w_db w) (w_os w) c).

Lemma wp_db {A} (m : M Db A) (Q : result A -> World -> Prop) w :
  wp m (fun r d => Q r (MkWorld d (w_os w) (w_cache w))) (w_db w) -> wp (db m) Q w.
Proof. intros H. by apply wp_on. Qed.

Lemma wp_os {A} (m : M Os A) (Q : result A -> World -> Prop) w :
  wp m (fun r o => Q r (MkWorld (w_db w) o (w_cache w))) (w_os w) -> wp (os m) Q w.
Proof. intros H. by apply wp_on. Qed.

Lemma wp_ok_db {A} (m : M Db A) (Q : A -> World -> Prop) w :
  wp_ok m (fun a d => Q a (MkWorld d (w_os w) (w_cache w))) (w_db w) -> wp_ok (db m) Q w.
Proof. intros H. by apply wp_db. Qed.

Lemma wp_ok_os {A} (m : M Os A) (Q : A -> World -> Prop) w :
  wp_ok m (fun a o => Q a (MkWorld (w_db w) o (w_cache w))) (w_os w) -> wp_ok (os m) Q w.
Proof. intros H. by apply wp_os. Qed.

Lemma wp_on_cache {A} (f : Cache -> A * Cache) (Q : result A -> World -> Prop) w :
  Q (Ok (f (w_cache w)).1) (MkWorld (w_db w) (w_os w) (f (w_cache w)).2) -> wp (on_cache f) Q w.
Proof. unfold wp, on_cache. by destruct (f (w_cache w)). Qed.

(** The tables of the world. *)
Abbreviation tables w := (db_tables (w_db w)).

(** * Programs that interleave *)

Inductive prog (S A : Type) : Type :=
  | Ret (a : A)
  | Call {B : Type} (m : M S B) (k : result B -> prog S A)
  | Lock (mutex : string) (k : prog S A)
  | Unlock (mutex : string) (k : prog S A).
Arguments Ret {S A} a.
Arguments Call {S A B} m k.
Arguments Lock {S A} mutex k.
Arguments Unlock {S A} mutex k.

Section Programs.
Context {S : Type}.

Fixpoint pbind {A B} (p : prog S A) (k : A -> prog S B) : prog S B :=
  match p with
  | Ret a => k a
  | Call m k' => Call m (fun r => pbind (k' r) k)
  | Lock mutex k' => Lock mutex (pbind k' k)
  | Unlock mutex k' => Unlock mutex (pbind k' k)
  end.

(** A call whose result, error included, the code looks at. *)
Definition call {B} (m : M S B) : prog S (result B) := Call m Ret.

(** A computation that writes the response and stops ([inl]), or goes on ([inr]). *)
Definition early {R A B} (p : prog S (R + A)) (k : A -> prog S (R + B)) : prog S (R + B) :=
  pbind p (fun r => match r with inl resp => Ret (inl resp) | inr a => k a end).

Definition respond {R A} (p : prog S (R + A)) (k : A -> prog S R) : prog S R :=
  pbind p (fun r => match r with inl resp => Ret resp | inr a => k a end).

(** [mutex.Lock(); defer mutex.Unlock(); body] *)
Definition with_lock {A} (mutex : string) (body : prog S A) : prog S A :=
  Lock mutex (pbind body (fun a => Unlock mutex (Ret a))).

(** One program alone. *)
Fixpoint run {A} (p : prog S A) (s : S) : A * S :=
  match p with
  | Ret a => (a, s)
  | Call m k => let '(r, s') := m s in run (k r) s'
  | Lock _ k | Unlock _ k => run k s
  end.

Lemma run_bind {A B} (p : prog S A) (k : A -> prog S B) s :
  run (pbind p k) s = let '(a, s') := run p s in run (k a) s'.
Proof.
  revert s; induction p as [a|C m k' IH|mutex k' IH|mutex k' IH]; intros s; cbn; [done| |apply IH|apply IH].
  destruct (m s) as [r s']. apply IH.
Qed.

Lemma run_call {B} (m : M S B) s : run (call m) s = m s.
Proof. cbn. by destruct (m s). Qed.

Lemma run_with_lock {A} mutex (body : prog S A) s : run (with_lock mutex body) s = run body s.
Proof. unfold with_lock. cbn. rewrite run_bind. by destruct (run body s). Qed.

(** [pwp p Q s]: running [p] alone from [s] ends with [Q]. *)
Definition pwp {A} (p : prog S A) (Q : A -> S -> Prop) (s : S) : Prop := Q (run p s).1 (run p s).2.

Lemma pwp_run {A} (p : prog S A) (Q : A -> S -> Prop) s a s' : run p s = (a, s') -> pwp p Q s -> Q a s'.
Proof. unfold pwp. by intros ->. Qed.

Lemma pwp_intro {A} (p : prog S A) (Q : A -> S -> Prop) s : (forall a s', run p s = (a, s') -> Q a s') -> pwp p Q s.
Proof. intros H. apply H. by destruct (run p s). Qed.

Lemma pwp_ret {A} (a : A) (Q : A -> S -> Prop) s : Q a s -> pwp (Ret a) Q s.
Proof. done. Qed.

Lemma pwp_mono {A} (p : prog S A) (Q Q' : A -> S -> Prop) s :
  pwp p Q s -> (forall a s', Q a s' -> Q' a s') -> pwp p Q' s.
Proof. unfold pwp. auto. Qed.

Lemma pwp_bind {A B} (p : prog S A) (k : A -> prog S B) (Q : B -> S -> Prop) s :
  pwp p (fun a s' => pwp (k a) Q s') s -> pwp (pbind p k) Q s.
Proof. unfold pwp. rewrite run_bind. by destruct (run p s). Qed.

Lemma pwp_call {B} (m : M S B) (Q : result B -> S -> Prop) s : wp m Q s -> pwp (call m) Q s.
Proof. unfold pwp, wp. by rewrite run_call. Qed.

Lemma pwp_call_bind {A B} (m : M S B) (k : result B -> prog S A) (Q : A -> S -> Prop) s :
  wp m (fun r s' => pwp (k r) Q s') s -> pwp (pbind (call m) k) Q s.
Proof. intros H. by apply pwp_bind, pwp_call. Qed.
End Programs.

Notation "x <~ p ;; k" := (pbind p (fun x => k))
  (at level 100, p at level 99, k at level 200, right associativity) : fbs_scope.
Notation "x <~? p ;; k" := (early p (fun x => k))
  (at level 100, p at level 99, k at level 200, right associativity) : fbs_scope.
Notation "x <~! p ;; k" := (respond p (fun x => k))
  (at level 100, p at level 99, k at level 200, right associativity) : fbs_scope.
Notation "p ~;; k" := (pbind p (fun _ => k))
  (at level 100, k at level 200, right associativity) : fbs_scope.

(** ** The server: any number of requests at once *)

Record Server (S Resp : Type) : Type := MkServer {
  sv_state : S;
  sv_mutexes : gset string;
  sv_requests : gmap nat (prog S Resp);
}.
Arguments MkServer {S Resp} _ _ _.
Arguments sv_state {S Resp} _.
Arguments sv_mutexes {S Resp} _.
Arguments sv_requests {S Resp} _.

Section Steps.
Context {S Req Resp : Type} (handle : Req -> prog S Resp) (env : S -> S -> Prop).

Inductive server_step (s : Server S Resp) : Server S Resp -> Prop :=
  | server_arrive i req :
      sv_requests s !! i = None ->
      server_step s (MkServer (sv_state s) (sv_mutexes s) (<[i := handle req]> (sv_requests s)))
  | server_call i B (m : M S B) k r s' :
      sv_requests s !! i = Some (Call m k) -> m (sv_state s) = (r, s') ->
      server_step s (MkServer s' (sv_mutexes s) (<[i := k r]> (sv_requests s)))
  | server_lock i mutex k :
      sv_requests s !! i = Some (Lock mutex k) -> mutex ∉ sv_mutexes s ->
      server_step s (MkServer (sv_state s) ({[mutex]} ∪ sv_mutexes s) (<[i := k]> (sv_requests s)))
  | server_unlock i mutex k :
      sv_requests s !! i = Some (Unlock mutex k) ->
      server_step s (MkServer (sv_state s) (sv_mutexes s ∖ {[mutex]}) (<[i := k]> (sv_requests s)))
  | server_done i resp :
      sv_requests s !! i = Some (Ret resp) ->
      server_step s (MkServer (sv_state s) (sv_mutexes s) (delete i (sv_requests s)))
  | server_env s' :
      env (sv_state s) s' ->
      server_step s (MkServer s' (sv_mutexes s) (sv_requests s)).
End Steps.

(** ** The logic *)

Section Logic.
Context {S R G : Type}.
(** Two resources that no two handlers can own. *)
Context (clash : R -> R -> Prop).
(** The invariant, given what is owned and the ghost state. *)
Context (I : (R -> Prop) -> G -> S -> Prop).
(** What the others may do to the ghost state and the state. *)
Context (evolves : G -> S -> G -> S -> Prop).

Definition disj (O F : R -> Prop) : Prop := forall r r', O r -> F r' -> ~ clash r r'.
Definition union (O F : R -> Prop) : R -> Prop := fun r => O r \/ F r.
Definition asrt : Type := G -> S -> Prop.
Definition stable (P : asrt) : Prop := forall g s g' s', evolves g s g' s' -> P g s -> P g' s'.

Fixpoint safe {A} (p : prog S A) (Q : A -> (R -> Prop) -> asrt -> Prop) (O : R -> Prop) (P : asrt) : Prop :=
  match p with
  | Ret a => Q a O P
  | Call m k =>
      forall F g s, disj O F -> P g s -> I (union O F) g s ->
      wp m (fun r s' => exists g' O' P', evolves g s g' s' /\ disj O' F /\ I (union O' F) g' s' /\
                          stable P' /\ P' g' s' /\ safe (k r) Q O' P') s
  | Lock _ k | Unlock _ k => safe k Q O P
  end.

Lemma safe_bind {A B} (p : prog S A) (k : A -> prog S B) Q O P :
  safe p (fun a O P => stable P -> safe (k a) Q O P) O P -> stable P -> safe (pbind p k) Q O P.
Proof.
  revert O P; induction p as [a|C m k' IH|mutex k' IH|mutex k' IH]; intros O P; cbn; auto.
  intros H HP F g s Hd Hs Hi. eapply wp_mono; [by apply H|]. cbv beta.
  intros r s' (g' & O' & P' & He & Hd' & Hi' & HP' & Hs' & Hk).
  exists g', O', P'. split_and!; auto.
Qed.

Lemma safe_mono {A} (p : prog S A) (Q Q' : A -> (R -> Prop) -> asrt -> Prop) O P :
  safe p Q O P -> (forall a O P, Q a O P -> Q' a O P) -> safe p Q' O P.
Proof.
  intros H HQ. revert O P H; induction p as [a|C m k' IH|mutex k' IH|mutex k' IH]; intros O P; cbn; auto.
  intros H F g s Hd Hs Hi. eapply wp_mono; [by apply H|]. cbv beta.
  intros r s' (g' & O' & P' & He & Hd' & Hi' & HP' & Hs' & Hk).
  exists g', O', P'. split_and!; auto.
Qed.

(** ** Every interleaving of safe handlers keeps the invariant *)

Context {Req Resp : Type} (handle : Req -> prog S Resp) (env : S -> S -> Prop).
Context (clash_sym : forall r r', clash r r' -> clash r' r).
Context (I_mono : forall O O' g s, (forall r, O' r -> O r) -> I O g s -> I O' g s).
Context (evolves_refl : forall g s, evolves g s g s).
Context (I_env : forall O g s s', I O g s -> env s s' -> exists g', evolves g s g' s' /\ I O g' s').
Context (handle_safe : forall req, safe (handle req) (fun _ _ _ => True) (fun _ => False) (fun _ _ => True)).

(** What request [i] owns, relies on and may still do. *)
Record request_ok (g : G) (s : S) (p : prog S Resp) (O : R -> Prop) (P : asrt) : Prop := {
  ro_stable : stable P;
  ro_holds : P g s;
  ro_safe : safe p (fun _ _ _ => True) O P;
}.

Definition server_ok (s : Server S Resp) : Prop :=
  exists (g : G) (own : nat -> R -> Prop) (rely : nat -> asrt),
    (forall i j, i <> j -> disj (own i) (own j)) /\
    I (fun r => exists i, own i r) g (sv_state s) /\
    forall i, match sv_requests s !! i with
              | Some p => request_ok g (sv_state s) p (own i) (rely i)
              | None => forall r, ~ own i r
              end.

Lemma disj_sym O F : disj O F -> disj F O.
Proof using clash_sym. intros H r r' Hr Hr' Hc. by apply (H r' r); auto. Qed.

(** Request [i] goes on as [p], with what it owns and relies on; the others keep theirs. *)
Lemma server_ok_update s st mutexes i q O P g g' (own : nat -> R -> Prop) (rely : nat -> asrt) :
  (forall i j, i <> j -> disj (own i) (own j)) ->
  (forall j p, sv_requests s !! j = Some p -> i <> j -> request_ok g (sv_state s) p (own j) (rely j)) ->
  (forall j, sv_requests s !! j = None -> i <> j -> forall r, ~ own j r) ->
  evolves g (sv_state s) g' st ->
  disj O (fun r => exists j, i <> j /\ own j r) ->
  I (union O (fun r => exists j, i <> j /\ own j r)) g' st ->
  request_ok g' st q O P ->
  server_ok (MkServer st mutexes (<[i := q]> (sv_requests s))).
Proof using clash_sym I_mono.
  intros Hdisj Hothers Hnone He Hd HI Hq.
  exists g', (fun j => if decide (i = j) then O else own j), (fun j => if decide (i = j) then P else rely j).
  split; [|split].
  - intros j j' Hne. repeat case_decide; subst; try done.
    + intros r r' Hr Hr'. apply Hd; [done|by exists j'].
    + apply disj_sym. intros r r' Hr Hr'. apply Hd; [done|by exists j].
    + by apply Hdisj.
  - eapply I_mono; [|exact HI]. intros r [j Hj]. case_decide; [by left|]. right. by exists j.
  - intros j. simpl. case_decide as Ej; [subst; by rewrite lookup_insert_eq|].
    rewrite lookup_insert_ne by done. destruct (sv_requests s !! j) as [p|] eqn:Ep.
    + destruct (Hothers j p Ep Ej) as [Hst Hh Hsafe]. split; [done|by eapply Hst|done].
    + by apply Hnone.
Qed.

Lemma server_step_ok s s' : server_step handle env s s' -> server_ok s -> server_ok s'.
Proof using clash_sym I_mono evolves_refl I_env handle_safe.
  intros Hstep (g & own & rely & Hdisj & HI & Hreq).
  assert (Hothers : forall i j p, sv_requests s !! j = Some p -> i <> j ->
            request_ok g (sv_state s) p (own j) (rely j)).
  { intros i j p Hj _. specialize (Hreq j). by rewrite Hj in Hreq. }
  assert (Hnone : forall i j, sv_requests s !! j = None -> i <> j -> forall r, ~ own j r).
  { intros i j Hj _. specialize (Hreq j). by rewrite Hj in Hreq. }
  assert (Hrest : forall i, I (union (own i) (fun r => exists j, i <> j /\ own j r)) g (sv_state s)).
  { intros i. eapply I_mono; [|exact HI]. intros r [Hr|(j & _ & Hr)]; eauto. }
  assert (Hdi : forall i, disj (own i) (fun r => exists j, i <> j /\ own j r)).
  { intros i r r' Hr (j & Hj & Hr'). by apply (Hdisj i j Hj). }
  destruct Hstep as [i req Hi|i B m k r st Hi Hm|i mutex k Hi Hfree|i mutex k Hi|i resp Hi|st He].
  - specialize (Hreq i). rewrite Hi in Hreq.
    apply (server_ok_update s _ _ i _ (fun _ => False) (fun _ _ => True) g g own rely Hdisj (Hothers i) (Hnone i)); auto.
    + by intros r r' [].
    + eapply I_mono; [|exact (Hrest i)]. intros r [[]|Hr]. by right.
    + split; [by intros ?|done|apply handle_safe].
  - pose proof (Hreq i) as Hi'. rewrite Hi in Hi'. destruct Hi' as [Hst Hh Hsafe].
    pose proof (wp_run _ _ _ _ _ Hm (Hsafe _ g (sv_state s) (Hdi i) Hh (Hrest i)))
      as (g' & O' & P' & He & Hd' & HI' & HP' & Hs' & Hk).
    by apply (server_ok_update s st _ i (k r) O' P' g g' own rely Hdisj (Hothers i) (Hnone i)); auto.
  - pose proof (Hreq i) as Hi'. rewrite Hi in Hi'. destruct Hi' as [Hst Hh Hsafe].
    by apply (server_ok_update s _ _ i k (own i) (rely i) g g own rely Hdisj (Hothers i) (Hnone i)); auto.
  - pose proof (Hreq i) as Hi'. rewrite Hi in Hi'. destruct Hi' as [Hst Hh Hsafe].
    by apply (server_ok_update s _ _ i k (own i) (rely i) g g own rely Hdisj (Hothers i) (Hnone i)); auto.
  - exists g, (fun j => if decide (i = j) then (fun _ => False) else own j), rely.
    split; [|split].
    + intros j j' Hne. destruct (decide (i = j)); [by intros r r' []|].
      destruct (decide (i = j')); [intros r r' _ Hr'; contradiction|]. by apply Hdisj.
    + eapply I_mono; [|exact HI]. intros r [j Hj]. case_decide; [done|eauto].
    + intros j. simpl. case_decide as Ej; [subst; rewrite lookup_delete_eq; exact (fun _ Hr => Hr)|].
      rewrite lookup_delete_ne by done. apply Hreq.
  - destruct (I_env _ _ _ _ HI He) as (g' & Hg & HI').
    exists g', own, rely. split; [done|]. split; [done|]. intros i. specialize (Hreq i). simpl.
    destruct (sv_requests s !! i); [|done]. destruct Hreq as [Hst Hh Hsafe]. split; [done|by eapply Hst|done].
Qed.

(** From a good state without requests, every reachable state is good. *)
Lemma server_reachable_ok st g mutexes s :
  I (fun _ => False) g st ->
  rtc (server_step handle env) (MkServer st mutexes ∅) s ->
  exists g' O, I O g' (sv_state s).
Proof using clash_sym I_mono evolves_refl I_env handle_safe.
  intros HI Hr.
  assert (H : server_ok (MkServer st mutexes ∅)).
  { exists g, (fun _ _ => False), (fun _ _ _ => True). split; [by intros i j _ r r' []|]. split.
    - eapply I_mono; [|exact HI]. by intros r [_ []].
    - intros i. simpl. rewrite lookup_empty. exact (fun _ Hr => Hr). }
  revert H. induction Hr as [s|s1 s2 s3 H12 _ IH]; intros H1.
  - destruct H1 as (g' & own & _ & _ & H1 & _). eauto.
  - apply IH. by eapply server_step_ok.
Qed.
End Logic.

(** ** One request alone in the server *)

(** [run], with the mutexes; [None] when the program waits for one that is taken. *)
Fixpoint run_alone {S A} (p : prog S A) (mutexes : gset string) (s : S) : option (A * gset string * S) :=
  match p with
  | Ret a => Some (a, mutexes, s)
  | Call m k => let '(r, s') := m s in run_alone (k r) mutexes s'
  | Lock mutex k => if decide (mutex ∈ mutexes) then None else run_alone k ({[mutex]} ∪ mutexes) s
  | Unlock mutex k => run_alone k (mutexes ∖ {[mutex]}) s
  end.

(** How many steps that takes. *)
Fixpoint program_steps {S A} (p : prog S A) (s : S) : nat :=
  match p with
  | Ret _ => O
  | Call m k => let '(r, s') := m s in Datatypes.S (program_steps (k r) s')
  | Lock _ k | Unlock _ k => Datatypes.S (program_steps k s)
  end.

Lemma run_alone_nsteps {S Req Resp} (handle : Req -> prog S Resp) env (p : prog S Resp) i mutexes s reqs a mutexes' s' :
  run_alone p mutexes s = Some (a, mutexes', s') ->
  nsteps (server_step handle env) (program_steps p s) (MkServer s mutexes (<[i := p]> reqs)) (MkServer s' mutexes' (<[i := Ret a]> reqs)).
Proof.
  revert mutexes s; induction p as [a'|B m k IH|mutex k IH|mutex k IH]; intros mutexes s; cbn [run_alone program_steps].
  - intros [= -> -> ->]. constructor.
  - destruct (m s) as [r s1] eqn:Em. intros Hr. eapply nsteps_l; [|by apply (IH r)].
    rewrite <- (insert_insert_eq reqs i (k r) (Call m k)). by apply (server_call _ _ (MkServer s mutexes _) i _ m); simpl; [rewrite lookup_insert_eq|].
  - case_decide; [done|]. intros Hr. eapply nsteps_l; [|by apply IH].
    rewrite <- (insert_insert_eq reqs i k (Lock mutex k)). apply (server_lock _ _ (MkServer s mutexes _) i mutex k); simpl; [by rewrite lookup_insert_eq|done].
  - intros Hr. eapply nsteps_l; [|by apply IH].
    rewrite <- (insert_insert_eq reqs i k (Unlock mutex k)). apply (server_unlock _ _ (MkServer s mutexes _) i mutex k); simpl. by rewrite lookup_insert_eq.
Qed.

Lemma run_alone_steps {S Req Resp} (handle : Req -> prog S Resp) env (p : prog S Resp) i mutexes s reqs a mutexes' s' :
  run_alone p mutexes s = Some (a, mutexes', s') ->
  rtc (server_step handle env) (MkServer s mutexes (<[i := p]> reqs)) (MkServer s' mutexes' (<[i := Ret a]> reqs)).
Proof. intros Hr. by eapply rtc_nsteps_2, run_alone_nsteps. Qed.

(** Requests one after the other, each with its response. *)
Fixpoint serve_all {S Req Resp} (handle : Req -> prog S Resp) (reqs : list Req) (s : S) : option (list Resp * S) :=
  match reqs with
  | [] => Some ([], s)
  | req :: rest =>
      match run_alone (handle req) ∅ s with
      | Some (resp, mutexes, s') =>
          if decide (mutexes = ∅) then
            match serve_all handle rest s' with
            | Some (resps, s'') => Some (resp :: resps, s'')
            | None => None
            end
          else None
      | None => None
      end
  end.

(** How many steps they take, from the arrival of the first to the end of the last. *)
Fixpoint serve_steps {S Req Resp} (handle : Req -> prog S Resp) (reqs : list Req) (s : S) : nat :=
  match reqs with
  | [] => O
  | req :: rest =>
      match run_alone (handle req) ∅ s with
      | Some (_, _, s') => Datatypes.S (program_steps (handle req) s + Datatypes.S (serve_steps handle rest s'))
      | None => O
      end
  end.

Lemma serve_all_nsteps {S Req Resp} (handle : Req -> prog S Resp) env reqs s resps s' :
  serve_all handle reqs s = Some (resps, s') ->
  nsteps (server_step handle env) (serve_steps handle reqs s) (MkServer s ∅ ∅) (MkServer s' ∅ ∅).
Proof.
  revert s resps; induction reqs as [|req rest IH]; intros s resps; cbn [serve_all serve_steps].
  - intros [= _ ->]. constructor.
  - destruct (run_alone _ _ _) as [[[resp mutexes] s1]|] eqn:Er; [|done]. case_decide as Em; [|done]. subst mutexes.
    destruct (serve_all handle rest s1) as [[resps' s2]|] eqn:Es; [|done]. intros [= _ <-].
    eapply nsteps_l; [by apply (server_arrive _ _ (MkServer s ∅ ∅) 0 req)|].
    eapply nsteps_trans; [by apply run_alone_nsteps|]. eapply nsteps_l; [|by eapply IH].
    rewrite <- (delete_insert_id (∅ : gmap nat (prog S Resp)) 0 (Ret resp)) at 2 by done.
    apply (server_done _ _ (MkServer s1 ∅ _) 0 resp). simpl. by rewrite lookup_insert_eq.
Qed.

Lemma serve_all_steps {S Req Resp} (handle : Req -> prog S Resp) env reqs s resps s' :
  serve_all handle reqs s = Some (resps, s') -> rtc (server_step handle env) (MkServer s ∅ ∅) (MkServer s' ∅ ∅).
Proof. intros Hs. by eapply rtc_nsteps_2, serve_all_nsteps. Qed.
