(* ===== verification/CachedBucketRepo.v ===== *)
(** * The cached repositories: [internal/metadata/cache.go], [object_replace.go]

    The cached reads and writes, and the repository of buckets behind the cache, as the
    handlers use them: a read that misses publishes its row only if no eviction came in
    between; a write evicts after it has committed. Without a cache the critical sections
    do nothing and this is the repository itself. *)

From S2P Require Import Prelude GoStrings Effects Schema Db ObjectRepo BucketRepo Cache Prog.

(** One critical section of the cache. *)
Definition cache `{Inhabited A} (f : Cache -> A * Cache) : prog World A :=
  Call (on_cache f) (fun r => Ret (match r with Ok a => a | Err _ => inhabitant end)).

Definition evict (f : Cache -> Cache) : prog World unit := cache (fun c => (tt, f c)).

(** [defer r.cache.evict...; r.delegate.Write(...)] *)
Definition then_evict {A} (m : M Db A) (f : Cache -> Cache) : prog World (result A) :=
  r <~ call (db m) ;;
  evict f ~;;
  Ret r.

(** [InvalidateObjectCache] *)
Definition InvalidateObjectCache (bucketName key : string) : prog World unit := evict (evictObject bucketName key).

(** How many times a read may start again, because evictions came in between, before the
    model gives up on it. *)
Class Rounds : Type := rounds : nat.

(** The loop of [GetByName] and [GetByKey]. *)
Fixpoint cached_read {A} (again : nat) (lookup : Cache -> option A * Cache) (load : M Db A)
    (publish : A -> Z -> Cache -> bool * Cache) : prog World (result A) :=
  revision <~ cache (fun c => (currentRevision c, c)) ;;
  hit <~ cache lookup ;;
  match hit with
  | Some row => Ret (Ok row)
  | None =>
      loaded <~ call (db load) ;;
      match loaded with
      | Err err => Ret (Err err)
      | Ok row =>
          published <~ cache (publish row revision) ;;
          if (published : bool) then Ret (Ok row)
          else
            alive <~ call (db db_ctx) ;;
            match alive, again with
            | Err err, _ => Ret (Err err)
            | Ok _, S again => cached_read again lookup load publish
            | Ok _, O => Ret (Err (ErrOther "out of fuel"))
            end
      end
  end.

Module CachedBucketRepository.

Definition Create (bucket : Bucket) : prog World (result unit) :=
  then_evict (BucketRepository.Create bucket) (evictBucket (b_name bucket)).

Definition GetByName `{Rounds} (name : string) : prog World (result Bucket) :=
  cached_read rounds (getBucket name) (BucketRepository.GetByName name) publishBucket.

Definition List : prog World (result (list Bucket)) := call (db BucketRepository.List).
Definition ListByOwner (ownerID : string) : prog World (result (list Bucket)) :=
  call (db (BucketRepository.ListByOwner ownerID)).
Definition ListByNames (names : list string) : prog World (result (list Bucket)) :=
  call (db (BucketRepository.ListByNames names)).

Definition UpdateOwner (name ownerID expectedOwnerID : string) : prog World (result unit) :=
  then_evict (BucketRepository.UpdateOwner name ownerID expectedOwnerID) (evictBucket name).

Definition Delete (name : string) : prog World (result unit) :=
  then_evict (BucketRepository.Delete name) (evictBucket name).

Definition DeleteWithObjects (name : string) : prog World (result (list Object)) :=
  then_evict (BucketRepository.DeleteWithObjects name) (evictBucket name).

End CachedBucketRepository.
