(* ===== verification/CachedObjectRepo.v ===== *)
(** * The cached object repository: [internal/metadata/cache.go], [object_replace.go]

    The repository of objects behind the cache: reads as [cached_read], writes with the
    eviction of their key or bucket. *)

From S2P Require Import Prelude GoStrings Effects Schema Db ObjectRepo Cache Prog CachedBucketRepo.

Module CachedObjectRepository.

Definition Create (object : Object) : prog World (result Object) :=
  then_evict (ObjectRepository.Create object) (evictObject (o_bucket_name object) (o_key object)).

Definition GetByKey `{Rounds} (bucketName key : string) : prog World (result Object) :=
  cached_read rounds (getObject bucketName key) (ObjectRepository.GetByKey bucketName key) publishObject.

Definition List (bucketName prefix startAfter : string) (maxKeys : Z) : prog World (result (list Object * bool)) :=
  call (db (ObjectRepository.List bucketName prefix startAfter maxKeys)).

Definition ListDelimited (bucketName prefix startAfter delimiter : string) (maxKeys : Z)
    : prog World (result (list DelimitedListEntry)) :=
  call (db (ObjectRepository.ListDelimited bucketName prefix startAfter delimiter maxKeys)).

Definition Replace (object : Object) (ifMatch ifNoneMatch : string) : prog World (result string) :=
  then_evict (ObjectRepository.Replace object ifMatch ifNoneMatch)
    (evictObject (o_bucket_name object) (o_key object)).

Definition Delete (bucketName key : string) : prog World (result unit) :=
  then_evict (ObjectRepository.Delete bucketName key) (evictObject bucketName key).

Definition DeleteAllInBucket (bucketName : string) : prog World (result unit) :=
  then_evict (ObjectRepository.DeleteAllInBucket bucketName) (evictObjectsInBucket bucketName).

End CachedObjectRepository.
