(* ===== verification/CachedRepo.v ===== *)
(** * The cached repositories together: [internal/metadata/cache.go], [cache_publication.go]

    Used sequentially, the cached repositories refine the repositories they wrap; the
    step relation lets any number of readers and writers interleave, each critical
    section of the cache and each call of a wrapped repository being one step. *)

From S2P Require Import Prelude GoStrings Effects Schema Db ObjectRepo BucketRepo MultipartRepo Os Cache Prog CachedBucketRepo CachedObjectRepo.

(** ** What a cached row should be *)

(** The value that the repositories read for a key. *)
Definition current (k : cacheKey) (t : Tables) : option cacheValue :=
  match ck_kind k with
  | cacheKindBucket =>
      if String.eqb (ck_objectKey k) "" then
        (fun r => MkCacheValue (Some (BucketRepository.scanBucket (ck_bucketName k) r)) None)
          <$> t_buckets t !! ck_bucketName k
      else None
  | cacheKindObject =>
      (fun r => MkCacheValue None (Some (ObjectRepository.scanObject (ck_bucketName k) (ck_objectKey k) r)))
        <$> t_objects t !! (ck_bucketName k, ck_objectKey k)
  end.

(** The field that is set is the one of the key's kind. *)
Definition kinded (k : cacheKey) (v : cacheValue) : Prop :=
  match ck_kind k with
  | cacheKindBucket => is_Some (cv_bucket v)
  | cacheKindObject => is_Some (cv_object v)
  end.

Lemma current_kinded k t v : current k t = Some v -> kinded k v.
Proof.
  unfold current, kinded. destruct (ck_kind k).
  - destruct (String.eqb _ _); [|done]. intros ([] & _ & ->)%fmap_Some. by eexists.
  - intros ([] & _ & ->)%fmap_Some. by eexists.
Qed.

(** A write, with the eviction that follows it, and the keys that go. *)
Inductive wrapped : forall {A : Type}, M Db A -> (Cache -> Cache) -> (cacheKey -> Prop) -> Prop :=
  | wrapped_create_bucket b :
      wrapped (BucketRepository.Create b) (evictBucket (b_name b)) (of_bucket (b_name b))
  | wrapped_update_owner n o e : wrapped (BucketRepository.UpdateOwner n o e) (evictBucket n) (of_bucket n)
  | wrapped_delete_bucket n : wrapped (BucketRepository.Delete n) (evictBucket n) (of_bucket n)
  | wrapped_delete_with_objects n :
      wrapped (BucketRepository.DeleteWithObjects n) (evictBucket n) (of_bucket n)
  | wrapped_create_object o :
      wrapped (ObjectRepository.Create o) (evictObject (o_bucket_name o) (o_key o))
        (fun k => k = objectKey (o_bucket_name o) (o_key o))
  | wrapped_replace o im inm :
      wrapped (ObjectRepository.Replace o im inm) (evictObject (o_bucket_name o) (o_key o))
        (fun k => k = objectKey (o_bucket_name o) (o_key o))
  | wrapped_delete_object b key :
      wrapped (ObjectRepository.Delete b key) (evictObject b key) (fun k => k = objectKey b key)
  | wrapped_delete_all b :
      wrapped (ObjectRepository.DeleteAllInBucket b) (evictObjectsInBucket b)
        (fun k => object_of_bucket b k = true)
  (* multipart completion commits outside the wrapper and invalidates afterwards *)
  | wrapped_complete o id im inm :
      wrapped (MultipartRepository.CompleteUpload o id im inm) (evictObject (o_bucket_name o) (o_key o))
        (fun k => k = objectKey (o_bucket_name o) (o_key o)).

(** Outside the keys that go, a write changes no row. *)
Definition same_outside (P : cacheKey -> Prop) (t t' : Tables) : Prop :=
  forall k, ~ P k -> current k t' = current k t.

Lemma same_outside_refl P t : same_outside P t t.
Proof. by intros k _. Qed.

Lemma same_outside_trans P t1 t2 t3 : same_outside P t1 t2 -> same_outside P t2 t3 -> same_outside P t1 t3.
Proof. intros H1 H2 k Hk. by rewrite H2, H1. Qed.

Lemma same_outside_bucket n f t :
  (forall n', n' <> n -> f (t_buckets t) !! n' = t_buckets t !! n') ->
  same_outside (of_bucket n) t (with_buckets f t).
Proof.
  intros Hf [[] b o] Hk; [|done]. unfold current. simpl. destruct (String.eqb_spec o "") as [->|]; [|done].
  rewrite Hf; [done|]. intros ->. apply Hk. by left.
Qed.

Lemma same_outside_object b key f t :
  (forall k, k <> (b, key) -> f (t_objects t) !! k = t_objects t !! k) ->
  same_outside (fun k => k = objectKey b key) t (with_objects f t).
Proof.
  intros Hf [[] b' o] Hk; [done|]. unfold current. simpl. rewrite Hf; [done|]. intros [= -> ->]. by apply Hk.
Qed.

Lemma same_outside_objects b t :
  same_outside (fun k => object_of_bucket b k = true) t (with_objects (filter (fun kv => kv.1.1 <> b)) t).
Proof.
  intros [[] b' o] Hk; [done|]. unfold current. simpl. f_equal. rewrite map_lookup_filter.
  destruct (t_objects t !! (b', o)); [|done]. simpl. rewrite option_guard_True; [done|].
  intros ->. apply Hk. apply String.eqb_refl.
Qed.

Lemma same_outside_weaken (P Q : cacheKey -> Prop) t t' :
  same_outside P t t' -> (forall k, P k -> Q k) -> same_outside Q t t'.
Proof. intros H HPQ k Hk. apply H. intros HP. by apply Hk, HPQ. Qed.

(** Statements that change no row outside the keys that go. *)
Section SameOutside.
Context (t0 : Tables).

Lemma stmt_same {A} P (stmt : Stmt A) :
  (forall t a t', stmt t = Ok (a, t') -> same_outside P t t') -> stmt_keeps (same_outside P t0) stmt.
Proof.
  intros H t Ht. destruct (stmt t) as [[a t']|] eqn:E; [|done].
  by eapply same_outside_trans; [|eapply H].
Qed.

Lemma insert_bucket_same n r : stmt_keeps (same_outside (of_bucket n) t0) (insert_bucket n r).
Proof.
  apply stmt_same. intros t a t'. unfold insert_bucket. repeat case_match; [done|done|]. intros [= _ <-].
  apply same_outside_bucket. intros n' Hn. by rewrite lookup_insert_ne.
Qed.

Lemma update_bucket_owner_same n o e : stmt_keeps (same_outside (of_bucket n) t0) (update_bucket_owner n o e).
Proof.
  apply stmt_same. intros t a t'. unfold update_bucket_owner.
  repeat case_match; intros [= _ <-]; try apply same_outside_refl.
  apply same_outside_bucket. intros n' Hn. by rewrite lookup_insert_ne.
Qed.

Lemma delete_bucket_same n : stmt_keeps (same_outside (of_bucket n) t0) (delete_bucket n).
Proof.
  apply stmt_same. intros t a t' [(_ & ->)| ->]%BucketSpec.delete_bucket_result; [|apply same_outside_refl].
  apply (same_outside_bucket n (delete n) t). intros n' Hn. by rewrite lookup_delete_ne.
Qed.

Lemma upsert_object_same b key r :
  stmt_keeps (same_outside (fun k => k = objectKey b key) t0) (upsert_object b key r).
Proof.
  apply stmt_same. intros t a t'. unfold upsert_object. repeat case_match; [done|done|]. intros [= _ <-].
  apply same_outside_object. intros k Hk. by rewrite lookup_insert_ne.
Qed.

Lemma delete_object_same b key : stmt_keeps (same_outside (fun k => k = objectKey b key) t0) (delete_object b key).
Proof.
  apply stmt_same. intros t a t'. unfold delete_object. repeat case_match; intros [= _ <-].
  - apply same_outside_object. intros k Hk. by rewrite lookup_delete_ne.
  - apply same_outside_refl.
Qed.

Lemma delete_objects_in_same (P : cacheKey -> Prop) b :
  (forall k, object_of_bucket b k = true -> P k) -> stmt_keeps (same_outside P t0) (delete_objects_in b).
Proof.
  intros HP. apply stmt_same. intros t a t' [= _ <-].
  eapply same_outside_weaken; [apply same_outside_objects|done].
Qed.

Lemma delete_upload_same P id : stmt_keeps (same_outside P t0) (delete_upload id).
Proof.
  apply stmt_same. intros t a t'. unfold delete_upload. repeat case_match; intros [= _ <-]; by intros [].
Qed.
End SameOutside.

#[export] Hint Resolve insert_bucket_same update_bucket_owner_same delete_bucket_same upsert_object_same
  delete_object_same delete_objects_in_same delete_upload_same : fbs.

Lemma object_of_bucket_gone name k : object_of_bucket name k = true -> of_bucket name k.
Proof. by right. Qed.
#[export] Hint Resolve object_of_bucket_gone : fbs.

(** A wrapped write changes only rows whose keys are evicted. *)
Lemma wrapped_keeps {A} (m : M Db A) evict P t : wrapped m evict P -> db_keeps (same_outside P t) m.
Proof.
  assert (Hup : forall o, db_keeps (same_outside (fun k => k = objectKey (o_bucket_name o) (o_key o)) t)
                  (ObjectRepository.upsertObject o)).
  { intros o. unfold ObjectRepository.upsertObject. db_keeps_steps. }
  intros [].
  - unfold BucketRepository.Create. db_keeps_steps.
  - unfold BucketRepository.UpdateOwner. db_keeps_steps.
  - unfold BucketRepository.Delete. db_keeps_steps.
  - unfold BucketRepository.DeleteWithObjects, BucketRepository.deleteBucketObjects. db_keeps_steps.
  - unfold ObjectRepository.Create. db_keeps_steps.
  - unfold ObjectRepository.Replace, ObjectRepository.loadObjectVersion. db_keeps_steps.
  - unfold ObjectRepository.Delete. db_keeps_steps.
  - unfold ObjectRepository.DeleteAllInBucket. db_keeps_steps.
  - unfold MultipartRepository.CompleteUpload, MultipartRepository.requireCompletingUpload,
      ObjectRepository.loadObjectVersion. db_keeps_steps.
Qed.

Lemma wrapped_outside {A} (m : M Db A) evict P s r s' :
  wrapped m evict P -> m s = (r, s') -> same_outside P (db_tables s) (db_tables s').
Proof.
  intros Hw E. apply (wp_run m (fun _ s' => same_outside P (db_tables s) (db_tables s')) _ _ _ E).
  apply (wrapped_keeps m evict P _ Hw). apply same_outside_refl.
Qed.

(** Which keys go is decidable. *)
Lemma wrapped_dec {A} (m : M Db A) evict P k : wrapped m evict P -> P k \/ ~ P k.
Proof.
  intros []; unfold of_bucket;
    match goal with |- ?Q \/ _ => destruct (decide Q); [by left|by right] end.
Qed.

(** An eviction with its effect. *)
Lemma wrapped_evicts {A} (m : M Db A) evict P c :
  wrapped m evict P -> sound c -> exists c', evict (Some c) = Some c' /\ evicted P c c'.
Proof.
  intros [] Hc; auto using evictBucket_spec, evictObject_spec, evictObjectsInBucket_spec.
Qed.

(** ** The readers, step by step *)

Inductive target : Type := TBucket (name : string) | TObject (bucketName key : string).

Definition target_key (tg : target) : cacheKey :=
  match tg with TBucket name => bucketKey name | TObject b k => objectKey b k end.

(** The read of the wrapped repository. *)
Definition delegate_read (tg : target) : M Db cacheValue :=
  match tg with
  | TBucket name => b <- BucketRepository.GetByName name ;; ret (MkCacheValue (Some b) None)
  | TObject b k => o <- ObjectRepository.GetByKey b k ;; ret (MkCacheValue None (Some o))
  end.

(** [publishBucket] or [publishObject] *)
Definition publish_value (v : cacheValue) (revision : Z) (c : Cache) : bool * Cache :=
  match v with
  | MkCacheValue (Some b) _ => publishBucket b revision c
  | MkCacheValue None (Some o) => publishObject o revision c
  | MkCacheValue None None => (true, c)
  end.

(** Where a reader stands in its loop: after its start, after it took the revision,
    after it missed, after it loaded, after a publication was refused, at its end. *)
Inductive read_pc : Type :=
  | RStart
  | RLookup (revision : Z)
  | RLoad (revision : Z)
  | RPublish (revision : Z) (v : cacheValue)
  | RCheck
  | RDone (r : result cacheValue).

(** One step: one critical section of the cache, or one call of the repository. *)
Definition reader_step (tg : target) (pc : read_pc) : M World read_pc :=
  match pc with
  | RStart => revision <- on_cache (fun c => (currentRevision c, c)) ;; ret (RLookup revision)
  | RLookup revision =>
      hit <- on_cache (get_entry (target_key tg)) ;;
      ret (match hit with Some v => RDone (Ok v) | None => RLoad revision end)
  | RLoad revision =>
      let! r := db (delegate_read tg) in
      ret (match r with Ok v => RPublish revision v | Err e => RDone (Err e) end)
  | RPublish revision v =>
      published <- on_cache (publish_value v revision) ;;
      ret (if (published : bool) then RDone (Ok v) else RCheck)
  | RCheck =>
      let! r := db db_ctx in
      ret (match r with Ok _ => RStart | Err e => RDone (Err e) end)
  | RDone r => ret (RDone r)
  end.

(** The reader on its own, from a point of its loop. *)
Fixpoint run_reader (steps : nat) (tg : target) (pc : read_pc) : M World cacheValue :=
  match pc, steps with
  | RDone r, _ => lift_result r
  | _, O => fail (ErrOther "out of fuel")
  | _, S steps => pc <- reader_step tg pc ;; run_reader steps tg pc
  end.

(** ** The concurrent system

    Any number of readers and writers of any rows, with the other repositories as the
    environment. [sy_evictions] counts the evictions; the cache's revision is this
    number, modulo the width of its type. *)

Inductive thread : Type :=
  | Reader (tg : target) (pc : read_pc) (seen : nat)
  | Committed (evict : Cache -> Cache) (P : cacheKey -> Prop)
  | Finished.

Record Sys : Type := MkSys {
  sy_state : World;
  sy_threads : gmap nat thread;
  sy_evictions : nat;
}.

Abbreviation sy_tables s := (db_tables (w_db (sy_state s))).

(** A request that has no eviction to make; a read may be given up at any point. *)
Definition idle (th : option thread) : Prop :=
  match th with Some (Committed _ _) => False | _ => True end.

Inductive sys_step (s : Sys) : Sys -> Prop :=
  (* a request starts to read *)
  | step_start i tg :
      idle (sy_threads s !! i) ->
      sys_step s (MkSys (sy_state s) (<[i := Reader tg RStart (sy_evictions s)]> (sy_threads s)) (sy_evictions s))
  (* a reader takes a step; the number of evictions that it has seen is that of its last start *)
  | step_read i tg pc seen pc' st' :
      sy_threads s !! i = Some (Reader tg pc seen) ->
      reader_step tg pc (sy_state s) = (Ok pc', st') ->
      sys_step s (MkSys st' (<[i := Reader tg pc' (if pc is RStart then sy_evictions s else seen)]> (sy_threads s))
                    (sy_evictions s))
  (* a write runs in the database, committing or not *)
  | step_write i {A} (m : M Db A) evict P r st' :
      idle (sy_threads s !! i) -> wrapped m evict P -> db m (sy_state s) = (r, st') ->
      sys_step s (MkSys st' (<[i := Committed evict P]> (sy_threads s)) (sy_evictions s))
  (* ... and evicts *)
  | step_evict i evict P :
      sy_threads s !! i = Some (Committed evict P) ->
      sys_step s (MkSys (MkWorld (w_db (sy_state s)) (w_os (sy_state s)) (evict (w_cache (sy_state s))))
                    (<[i := Finished]> (sy_threads s)) (S (sy_evictions s)))
  (* the environment: faults, time, files, and writes that touch neither buckets nor objects *)
  | step_env st' :
      t_buckets (tables st') = t_buckets (sy_tables s) ->
      t_objects (tables st') = t_objects (sy_tables s) ->
      w_cache st' = w_cache (sy_state s) ->
      sys_step s (MkSys st' (sy_threads s) (sy_evictions s)).

(** A write that may have changed a row has not evicted it yet. *)
Definition write_pending (k : cacheKey) (s : Sys) : Prop :=
  exists i evict (P : cacheKey -> Prop), sy_threads s !! i = Some (Committed evict P) /\ P k.

(** A value of the key's kind that is as good as what the database says. *)
Definition fresh (k : cacheKey) (v : cacheValue) (s : Sys) : Prop :=
  kinded k v /\ (current k (sy_tables s) = Some v \/ write_pending k s).

Lemma fresh_current k v s : current k (sy_tables s) = Some v -> fresh k v s.
Proof. intros Hk. split; [by eapply current_kinded|by left]. Qed.

(** The entry of a value is stored under the key that it was read for. *)
Definition value_entry (tg : target) (v : cacheValue) (e : cacheEntry) : Prop :=
  ce_key e = target_key tg /\ ce_value e = v /\
  forall revision c, publish_value v revision c = publish_entry e revision c.

Lemma current_entry tg t v : current (target_key tg) t = Some v -> exists e, value_entry tg v e.
Proof.
  destruct tg as [name|b k]; unfold current; simpl.
  - destruct (t_buckets t !! name) as [r|]; [|done]. intros [= <-].
    by exists (bucket_entry (BucketRepository.scanBucket name r)).
  - destruct (t_objects t !! (b, k)) as [r|]; [|done]. intros [= <-].
    by exists (object_entry (ObjectRepository.scanObject b k r)).
Qed.

Lemma delegate_read_spec tg s :
  wp (delegate_read tg) (fun r s' => db_tables s' = db_tables s /\
    match r with Ok v => current (target_key tg) (db_tables s) = Some v | Err _ => True end) s.
Proof.
  destruct tg as [name|b k]; cbn [delegate_read];
    apply wp_bind; (unfold BucketRepository.GetByName || unfold ObjectRepository.GetByKey);
    apply wp_bind, wp_query; [done| |done|]; intros fs; unfold current; simpl.
  - by destruct (t_buckets (db_tables s) !! name).
  - by destruct (t_objects (db_tables s) !! (b, k)).
Qed.

(** What one step of a reader does. *)
Definition reader_effect (tg : target) (pc : read_pc) (st : World) (r : result read_pc) (st' : World)
    : Prop :=
  tables st' = tables st /\ exists pc', r = Ok pc' /\
  forall m, w_cache st = Some m -> sound m ->
  exists m', w_cache st' = Some m' /\ sound m' /\ mc_revision m' = mc_revision m /\
  match pc with
  | RStart => m' = m /\ pc' = RLookup (mc_revision m)
  | RLookup revision =>
      (forall k, cached k m' = cached k m) /\
      (pc' = RLoad revision \/ exists v, cached (target_key tg) m = Some v /\ pc' = RDone (Ok v))
  | RLoad revision =>
      m' = m /\ ((exists e, pc' = RDone (Err e)) \/
        exists v, current (target_key tg) (tables st) = Some v /\ pc' = RPublish revision v)
  | RPublish revision v =>
      (exists e, value_entry tg v e) ->
      (pc' = RCheck /\ m' = m) \/
      (pc' = RDone (Ok v) /\ mc_revision m = revision /\
       forall k v', cached k m' = Some v' -> if decide (k = target_key tg) then v' = v else cached k m = Some v')
  | RCheck => m' = m /\ (pc' = RStart \/ exists e, pc' = RDone (Err e))
  | RDone r => m' = m /\ pc' = RDone r
  end.

Lemma reader_step_spec tg pc st :
  (forall revision v, pc = RPublish revision v -> exists e, value_entry tg v e) ->
  wp (reader_step tg pc) (reader_effect tg pc st) st.
Proof.
  intros Hpub. destruct pc as [|revision|revision|revision v| |r]; cbn [reader_step].
  - split; [done|]. eexists. split; [done|]. intros m Em Hm. exists m. cbn. by rewrite Em.
  - apply wp_bind. unfold wp, on_cache. destruct (get_entry (target_key tg) (w_cache st)) as [v c] eqn:E.
    split; [done|]. eexists. split; [done|]. intros m Em Hm. simpl. rewrite Em in E.
    destruct (get_entry_spec (target_key tg) m Hm) as (m' & E' & Hm' & _ & Hr & _ & Hc).
    rewrite E' in E. injection E as <- <-. exists m'. split_and!; try done.
    destruct (cached (target_key tg) m) as [v|]; [right; by exists v|by left].
  - apply wp_bind, wp_attempt, wp_on. eapply wp_mono; [apply delegate_read_spec|]. simpl.
    intros r d' [Et Hr]. split; [done|]. eexists. split; [done|]. intros m Em Hm. exists m.
    simpl. split_and!; try done. destruct r as [v|e]; [right|left]; eauto.
  - destruct (Hpub revision v eq_refl) as (e & Ek & Ev & Ep).
    apply wp_bind. unfold wp, on_cache. rewrite Ep.
    destruct (publish_entry e revision (w_cache st)) as [b c] eqn:E.
    split; [done|]. eexists. split; [done|]. intros m Em Hm. rewrite Em in E.
    destruct (publish_spec e revision m Hm) as (b' & m' & E' & Hm' & Hr & _ & Hb).
    rewrite E' in E. injection E as <- <-. exists m'. split; [done|]. split_and!; [done|done|].
    intros _. destruct b'; [right|left; by destruct Hb]. rewrite Ek, Ev in Hb. by destruct Hb.
  - apply wp_bind, wp_attempt, wp_on. apply wp_db_ctx; intros fs; (split; [done|]); eexists;
      (split; [done|]); intros m Em Hm; exists m; eauto 10.
  - apply wp_ret. split; [done|]. eexists. split; [done|]. intros m Em Hm. by exists m.
Qed.

(** ** The invariant of the concurrent system *)

Definition reader_ok (s : Sys) (tg : target) (pc : read_pc) (seen : nat) : Prop :=
  seen <= sy_evictions s /\
  match pc with
  | RLookup revision | RLoad revision => revision = uint64 (Z.of_nat seen)
  | RPublish revision v =>
      revision = uint64 (Z.of_nat seen) /\ (exists e, value_entry tg v e) /\
      (seen = sy_evictions s -> fresh (target_key tg) v s)
  | RStart | RCheck | RDone _ => True
  end.

Definition thread_ok (s : Sys) (th : thread) : Prop :=
  match th with
  | Reader tg pc seen => reader_ok s tg pc seen
  | Committed evict P => exists A (m : M Db A), wrapped m evict P
  | Finished => True
  end.

Record sys_inv (s : Sys) : Prop := {
  si_threads : forall i th, sy_threads s !! i = Some th -> thread_ok s th;
  si_cache : exists m, w_cache (sy_state s) = Some m /\ sound m /\
    mc_revision m = uint64 (Z.of_nat (sy_evictions s)) /\
    forall k v, cached k m = Some v -> fresh k v s;
}.

(** Writes that wait for their eviction in [s] wait in [s'], too. *)
Definition pending_kept (s s' : Sys) : Prop :=
  forall i evict P, sy_threads s !! i = Some (Committed evict P) ->
    sy_threads s' !! i = Some (Committed evict P).

Lemma pending_insert s st n i th :
  (forall evict P, sy_threads s !! i <> Some (Committed evict P)) ->
  pending_kept s (MkSys st (<[i := th]> (sy_threads s)) n).
Proof.
  intros Hi j evict P Hj. simpl. destruct (decide (i = j)) as [->|]; [by destruct (Hi evict P)|].
  by rewrite lookup_insert_ne.
Qed.

Lemma write_pending_mono k s s' : pending_kept s s' -> write_pending k s -> write_pending k s'.
Proof. intros H (i & evict & P & Hi & HP). exists i, evict, P. split; [by apply H|done]. Qed.

(** A value stays fresh while writes wait and its row stays, or one that waits covers it. *)
Lemma fresh_mono k v s s' :
  pending_kept s s' -> (current k (sy_tables s') = current k (sy_tables s) \/ write_pending k s') ->
  fresh k v s -> fresh k v s'.
Proof.
  intros Hp Hrow [Hv [Hc|Hw]]; (split; [done|]); [|right; by apply (write_pending_mono k s)].
  destruct Hrow as [E|]; [left; by rewrite E|by right].
Qed.

(** The other threads do not notice a step that keeps what is fresh. *)
Lemma thread_ok_mono s s' th :
  sy_evictions s <= sy_evictions s' ->
  (sy_evictions s = sy_evictions s' -> forall k v, fresh k v s -> fresh k v s') ->
  thread_ok s th -> thread_ok s' th.
Proof.
  intros Hn Hf. destruct th as [tg pc seen|evict P|]; [|done|done].
  intros [Hseen Hpc]. split; [lia|]. destruct pc; try done.
  destruct Hpc as (Hr & He & Hfr). split_and!; [done|done|].
  intros E. apply Hf; [lia|]. apply Hfr. lia.
Qed.

Lemma sys_inv_intro s st i th n m :
  sys_inv s ->
  let s' := MkSys st (<[i := th]> (sy_threads s)) n in
  sy_evictions s <= n ->
  (sy_evictions s = n -> forall k v, fresh k v s -> fresh k v s') ->
  thread_ok s' th ->
  w_cache st = Some m -> sound m -> mc_revision m = uint64 (Z.of_nat n) ->
  (forall k v, cached k m = Some v -> fresh k v s') ->
  sys_inv s'.
Proof.
  intros Hs s' Hn Hf Hth Em Hm Hr Hc. split.
  - intros j th' Hj. simpl in Hj. destruct (decide (i = j)) as [->|Hne].
    + rewrite lookup_insert_eq in Hj. by injection Hj as <-.
    + rewrite lookup_insert_ne in Hj by done. apply (thread_ok_mono s); [done|done|].
      by apply (si_threads s Hs j).
  - by exists m.
Qed.

Lemma uint64_small n : (Z.of_nat n < 2 ^ 64)%Z -> uint64 (Z.of_nat n) = Z.of_nat n.
Proof. intros Hn. unfold uint64. apply Z.mod_small. lia. Qed.

Section Steps.
Context (s : Sys) (Hs : sys_inv s).

Lemma read_fresh i tg pc seen th st :
  sy_threads s !! i = Some (Reader tg pc seen) ->
  tables st = sy_tables s ->
  forall k v, fresh k v s -> fresh k v (MkSys st (<[i := th]> (sy_threads s)) (sy_evictions s)).
Proof using.
  intros Hi Et k v. apply fresh_mono; [|left; simpl; by rewrite Et].
  apply pending_insert. intros evict P E. congruence.
Qed.

(** What a reader that ends with a value has seen. *)
Lemma read_step_inv i tg pc seen pc' st' :
  sy_threads s !! i = Some (Reader tg pc seen) ->
  reader_step tg pc (sy_state s) = (Ok pc', st') ->
  (Z.of_nat (sy_evictions s) < 2 ^ 64)%Z ->
  let seen' := if pc is RStart then sy_evictions s else seen in
  let s' := MkSys st' (<[i := Reader tg pc' seen']> (sy_threads s)) (sy_evictions s) in
  sys_inv s' /\ sy_tables s' = sy_tables s /\
  (forall v, pc' = RDone (Ok v) -> pc = RDone (Ok v) \/ fresh (target_key tg) v s).
Proof using Hs.
  intros Hi Hstep Hbound seen' s'.
  pose proof (si_threads s Hs i _ Hi) as [Hseen Hpc].
  destruct (si_cache s Hs) as (m & Em & Hm & Hr & Hc).
  assert (Hpub : forall revision v, pc = RPublish revision v -> exists e, value_entry tg v e).
  { intros revision v ->. by destruct Hpc as (_ & ? & _). }
  pose proof (wp_run _ _ _ _ _ Hstep (reader_step_spec tg pc (sy_state s) Hpub)) as [Et (pc0 & [= <-] & Heff)].
  destruct (Heff m Em Hm) as (m' & Em' & Hm' & Hr' & Hpc').
  pose proof (read_fresh i tg pc seen (Reader tg pc' seen') st' Hi Et) as Hfresh. fold s' in Hfresh.
  (* the cache of the new state *)
  assert (H : (forall k v, cached k m' = Some v -> cached k m = Some v \/ (k = target_key tg /\ fresh k v s)) /\
              reader_ok s' tg pc' seen' /\
              (forall v, pc' = RDone (Ok v) -> pc = RDone (Ok v) \/ fresh (target_key tg) v s)).
  { destruct pc as [|revision|revision|revision v| |r].
    - destruct Hpc' as [-> ->]. split; [by left|]. split; [|done]. by split.
    - destruct Hpc' as [Hsame Hpc']. split; [intros k v; rewrite Hsame; by left|].
      destruct Hpc' as [->|(v & Hv & ->)]; [split; [by split|done]|]. split; [by split|].
      intros v' [= <-]. right. by apply Hc.
    - destruct Hpc' as [-> Hpc']. split; [by left|].
      destruct Hpc' as [[e ->]|(v & Hv & ->)]; (split; [|done]); split; try done.
      split_and!; [done|by apply (current_entry tg (sy_tables s))|]. intros _. by apply Hfresh, fresh_current.
    - destruct Hpc as (Hrev & He & Hfr). destruct (Hpc' He) as [[-> ->]|(-> & Hpub' & Hnew)].
      { split; [by left|]. split; [by split|done]. }
      assert (Hv : fresh (target_key tg) v s).
      { apply Hfr. rewrite Hr, Hrev, !uint64_small in Hpub' by lia. lia. }
      split; [|split; [by split|intros v' [= <-]; by right]].
      intros k v' Hk. specialize (Hnew k v' Hk). case_decide as Ek; [|by left].
      right. by subst.
    - destruct Hpc' as [-> Hpc']. split; [by left|]. destruct Hpc' as [->|[e ->]]; (split; [by split|done]).
    - destruct Hpc' as [-> ->]. split; [by left|]. split; [by split|]. intros v [= ->]. by left. }
  destruct H as (Hcached & Hok & Hdone). split; [|done].
  apply (sys_inv_intro s st' i _ _ m'); try done; [by rewrite Hr'|].
  intros k v [Hk|[-> Hk]]%Hcached; by apply Hfresh; auto.
Qed.
End Steps.

Section OtherSteps.
Context (s : Sys) (Hs : sys_inv s).

Lemma idle_pending i th st n : idle (sy_threads s !! i) -> pending_kept s (MkSys st (<[i := th]> (sy_threads s)) n).
Proof using. intros Hi. apply pending_insert. intros evict P E. by rewrite E in Hi. Qed.

Lemma start_step_inv i tg :
  idle (sy_threads s !! i) ->
  sys_inv (MkSys (sy_state s) (<[i := Reader tg RStart (sy_evictions s)]> (sy_threads s)) (sy_evictions s)).
Proof using Hs.
  intros Hi. destruct (si_cache s Hs) as (m & Em & Hm & Hr & Hc).
  set (s' := MkSys _ _ _).
  assert (Hf : forall k v, fresh k v s -> fresh k v s').
  { intros k v. apply fresh_mono; [|by left]. by apply idle_pending. }
  apply (sys_inv_intro s (sy_state s) i _ _ m); auto. by split.
Qed.

Lemma write_step_inv i {A} (m : M Db A) evict P r st' :
  idle (sy_threads s !! i) -> wrapped m evict P -> db m (sy_state s) = (r, st') ->
  sys_inv (MkSys st' (<[i := Committed evict P]> (sy_threads s)) (sy_evictions s)).
Proof using Hs.
  intros Hi Hw E. destruct (si_cache s Hs) as (c & Em & Hm & Hr & Hc).
  unfold db, on in E. destruct (m _) as [r' d'] eqn:Em'. injection E as _ <-.
  set (s' := MkSys _ _ _).
  assert (Hf : forall k v, fresh k v s -> fresh k v s').
  { intros k v [Hv Hk]. split; [done|]. destruct Hk as [Hk|Hk].
    - destruct (wrapped_dec m evict P k Hw) as [HP|HP].
      + right. exists i, evict, P. split; [|done]. simpl. by rewrite lookup_insert_eq.
      + left. rewrite <- Hk. by apply (wrapped_outside m evict P _ _ _ Hw Em').
    - right. apply (write_pending_mono k s); [|done]. by apply idle_pending. }
  eapply (sys_inv_intro s _ i _ _ c); try done; [by exists A, m|]. intros k v Hk. by apply Hf, Hc.
Qed.

Lemma evict_step_inv i evict P :
  sy_threads s !! i = Some (Committed evict P) ->
  sys_inv (MkSys (MkWorld (w_db (sy_state s)) (w_os (sy_state s)) (evict (w_cache (sy_state s))))
             (<[i := Finished]> (sy_threads s)) (S (sy_evictions s))).
Proof using Hs.
  intros Hi. destruct (si_cache s Hs) as (c & Em & Hm & Hr & Hc).
  destruct (si_threads s Hs i _ Hi) as (A & m & Hw).
  destruct (wrapped_evicts m evict P c Hw Hm) as (c' & Ec' & [Hc' _ Hr' _ Hgone Hkept]).
  rewrite Em, Ec'.
  eapply (sys_inv_intro s _ i Finished _ c'); try done; [lia|lia| |].
  - rewrite Hr', Hr. unfold uint64. rewrite Zplus_mod_idemp_l. f_equal. lia.
  - intros k v Hk. destruct (wrapped_dec m evict P k Hw) as [HP|HP]; [by rewrite Hgone in Hk|].
    rewrite Hkept in Hk by done. destruct (Hc k v Hk) as [Hv [?|(j & ev & Q & Hj & HQ)]]; (split; [done|]); [by left|].
    right. exists j, ev, Q. split; [|done]. simpl. rewrite lookup_insert_ne; [done|].
    intros ->. rewrite Hi in Hj. injection Hj as <- <-. done.
Qed.

Lemma env_step_inv st' :
  t_buckets (tables st') = t_buckets (sy_tables s) ->
  t_objects (tables st') = t_objects (sy_tables s) ->
  w_cache st' = w_cache (sy_state s) ->
  sys_inv (MkSys st' (sy_threads s) (sy_evictions s)).
Proof using Hs.
  intros Eb Eo Ec. destruct (si_cache s Hs) as (c & Em & Hm & Hr & Hc). set (s' := MkSys _ _ _).
  assert (Hf : forall k v, fresh k v s -> fresh k v s').
  { intros k v. apply fresh_mono; [by intros ?|]. left. unfold current. simpl. by rewrite Eb, Eo. }
  split.
  - intros j th Hj. apply (thread_ok_mono s); [done|by intros _|]. by apply (si_threads s Hs j).
  - exists c. split; [simpl; by rewrite Ec|]. split_and!; try done. intros k v Hk. by apply Hf, Hc.
Qed.
End OtherSteps.

Lemma step_evictions s s' : sys_step s s' -> sy_evictions s <= sy_evictions s'.
Proof. intros []; simpl; lia. Qed.

Lemma sys_step_inv s s' :
  sys_inv s -> sys_step s s' -> (Z.of_nat (sy_evictions s') < 2 ^ 64)%Z -> sys_inv s'.
Proof.
  intros Hs [] Hb.
  - by apply start_step_inv.
  - by eapply read_step_inv.
  - by eapply write_step_inv.
  - by eapply evict_step_inv.
  - by apply env_step_inv.
Qed.

(** The world with a new cache. *)
Definition with_cache (c : Cache) (w : World) : World := MkWorld (w_db w) (w_os w) c.

(** The system at the start: an empty cache, no request. *)
Definition sys_init (maxBytes : Z) (w : World) : Sys := MkSys (with_cache (Some (NewMetadataCache maxBytes)) w) ∅ 0.

Lemma reachable_inv maxBytes w s :
  (0 < maxBytes)%Z -> rtc sys_step (sys_init maxBytes w) s ->
  (Z.of_nat (sy_evictions s) < 2 ^ 64)%Z -> sys_inv s.
Proof.
  intros Hmax Hr. revert s Hr.
  apply (rtc_ind_r (fun s => (Z.of_nat (sy_evictions s) < 2 ^ 64)%Z -> sys_inv s)); [|intros s1 s2 _ Hstep IH];
    intros Hb.
  - split; [intros i th; simpl; by rewrite lookup_empty|]. eexists. split; [done|].
    split; [split; [apply new_cache_linked|done]|]. split; [done|]. intros k v. unfold cached. simpl.
    by rewrite lookup_empty.
  - pose proof (step_evictions _ _ Hstep). apply (sys_step_inv s1 s2); [apply IH; lia|done|done].
Qed.

(** The cache never hides a finished write. In every state that concurrent
    readers and writers can reach, with statements failing at any point and fewer than
    2^64 evictions made, whatever the cache holds for a key is the row that the database
    holds, unless a write of that row has committed and not yet made its eviction. *)
Theorem cache_coherent maxBytes w s :
  (0 < maxBytes)%Z -> rtc sys_step (sys_init maxBytes w) s ->
  (Z.of_nat (sy_evictions s) < 2 ^ 64)%Z ->
  exists m, w_cache (sy_state s) = Some m /\
    forall k v, cached k m = Some v -> current k (sy_tables s) = Some v \/ write_pending k s.
Proof.
  intros Hmax Hr Hb. destruct (si_cache s (reachable_inv _ _ _ Hmax Hr Hb)) as (m & Em & _ & _ & Hc).
  exists m. split; [done|]. intros k v Hk. apply (Hc k v Hk).
Qed.

(** C18: a cached read returns a current row. Whenever a reader ends with a value,
    from the cache or after its own load, the database holds this value at that moment,
    unless a write of that row has committed and not yet returned to its caller. *)
Theorem cached_read_current maxBytes w s i tg pc seen v st' :
  (0 < maxBytes)%Z -> rtc sys_step (sys_init maxBytes w) s ->
  (Z.of_nat (sy_evictions s) < 2 ^ 64)%Z ->
  sy_threads s !! i = Some (Reader tg pc seen) ->
  (forall r, pc <> RDone r) ->
  reader_step tg pc (sy_state s) = (Ok (RDone (Ok v)), st') ->
  current (target_key tg) (sy_tables s) = Some v \/ write_pending (target_key tg) s.
Proof.
  intros Hmax Hr Hb Hi Hpc Hstep.
  destruct (read_step_inv s (reachable_inv _ _ _ Hmax Hr Hb) i tg pc seen _ st' Hi Hstep Hb)
    as (_ & _ & Hdone).
  destruct (Hdone v eq_refl) as [->|[_ Hf]]; [by destruct (Hpc (Ok v))|done].
Qed.

(** ** Sequential use: the wrappers refine the repositories *)

(** What every entry of the cache satisfies. *)
Definition cache_holds (Q : cacheKey -> cacheValue -> Prop) (c : Cache) : Prop :=
  match enabled c with
  | None => True
  | Some m => sound m /\ forall k v, cached k m = Some v -> Q k v
  end.

(** A cache that says what the database says. *)
Definition coherent (c : Cache) (t : Tables) : Prop := cache_holds (fun k v => current k t = Some v) c.

Abbreviation quiet_cache w := (coherent (w_cache w) (tables w)).

Lemma enabled_Some c m : enabled c = Some m -> c = Some m.
Proof. unfold enabled. destruct c as [m'|]; [|done]. by destruct (_ <=? _)%Z. Qed.

Lemma wrapped_disabled {A} (m : M Db A) evict P c : wrapped m evict P -> enabled c = None -> evict c = c.
Proof.
  intros [] Hc; (unfold evictBucket || unfold evictObject || unfold evictObjectsInBucket); by rewrite Hc.
Qed.

Lemma cache_holds_impl (Q Q' : cacheKey -> cacheValue -> Prop) c :
  (forall k v, Q k v -> Q' k v) -> cache_holds Q c -> cache_holds Q' c.
Proof. intros HQ. unfold cache_holds. destruct (enabled c); [|done]. intros [Hm Hc]. split; auto. Qed.

(** The keys that an eviction takes are gone; what was known of the others is known still. *)
Lemma evict_holds {A} (m : M Db A) evict P (Q Q' : cacheKey -> cacheValue -> Prop) c :
  wrapped m evict P -> (forall k v, ~ P k -> Q k v -> Q' k v) -> cache_holds Q c -> cache_holds Q' (evict c).
Proof.
  intros Hw HQ. unfold cache_holds at 1. destruct (enabled c) as [mc|] eqn:Ec; intros H.
  - apply enabled_Some in Ec as ->. destruct H as [Hm Hc].
    destruct (wrapped_evicts m evict P mc Hw Hm) as (m' & -> & [Hm' _ _ _ Hgone Hkept]).
    unfold cache_holds. rewrite enabled_sound by done. split; [done|]. intros k v Hk.
    destruct (wrapped_dec m evict P k Hw) as [HP|HP]; [by rewrite Hgone in Hk|].
    apply HQ; [done|]. apply Hc. by rewrite <- Hkept.
  - rewrite (wrapped_disabled m evict P c Hw Ec). unfold cache_holds. by rewrite Ec.
Qed.

Lemma write_coherent {A} (m : M Db A) evict P c s r s' :
  wrapped m evict P -> m s = (r, s') -> coherent c (db_tables s) -> coherent (evict c) (db_tables s').
Proof.
  intros Hw E. apply (evict_holds m evict P _ _ c Hw). intros k v HP Hk.
  by rewrite (wrapped_outside m evict P s r s' Hw E).
Qed.

(** A new cache says nothing. *)
Lemma new_cache_holds maxBytes Q : cache_holds Q (Some (NewMetadataCache maxBytes)).
Proof.
  unfold cache_holds. destruct (enabled _) as [m|] eqn:E; [|done]. pose proof (enabled_Some _ _ E) as [= <-].
  unfold enabled in E. simpl in E. destruct (Z.leb_spec maxBytes 0); [done|].
  split; [split; [apply new_cache_linked|done]|]. intros k v. unfold cached. simpl. by rewrite lookup_empty.
Qed.

Lemma new_cache_coherent maxBytes t : coherent (Some (NewMetadataCache maxBytes)) t.
Proof. apply new_cache_holds. Qed.

(** A cache stays coherent while buckets and objects stay. *)
Lemma coherent_rows c t t' :
  t_buckets t' = t_buckets t -> t_objects t' = t_objects t -> coherent c t -> coherent c t'.
Proof. intros Eb Eo. apply cache_holds_impl. intros k v <-. unfold current. by rewrite Eb, Eo. Qed.

(** A lookup says what is known of its key. *)
Lemma lookup_holds Q k c :
  cache_holds Q c ->
  exists v c', get_entry k c = (v, c') /\ cache_holds Q c' /\ currentRevision c' = currentRevision c /\
    (forall x, v = Some x -> Q k x).
Proof.
  unfold cache_holds at 1. destruct (enabled c) as [m|] eqn:Ec; intros Hc.
  - apply enabled_Some in Ec as ->. destruct Hc as [Hm Hc].
    destruct (get_entry_spec k m Hm) as (m' & E & Hm' & _ & Hr & _ & Hsame).
    eexists _, (Some m'). split; [exact E|]. split; [|split; [done|by intros x ?%Hc]].
    unfold cache_holds. rewrite enabled_sound by done. split; [done|]. intros k' v. rewrite Hsame. apply Hc.
  - exists None, c. unfold get_entry. rewrite Ec. split; [done|]. split; [unfold cache_holds; by rewrite Ec|done].
Qed.

(** Whether a publication goes through or not, the cache holds what was known. *)
Lemma publish_holds (Q : cacheKey -> cacheValue -> Prop) e revision c :
  cache_holds Q c -> Q (ce_key e) (ce_value e) ->
  exists b c', publish_entry e revision c = (b, c') /\ cache_holds Q c' /\ (revision = currentRevision c -> b = true).
Proof.
  intros Hc Hv. unfold cache_holds in Hc. destruct (enabled c) as [m|] eqn:Ec.
  - apply enabled_Some in Ec as ->. destruct Hc as [Hm Hc].
    destruct (publish_spec e revision m Hm) as (b & m' & E & Hm' & _ & _ & Hb).
    exists b, (Some m'). split; [exact E|]. unfold cache_holds. rewrite enabled_sound by done. destruct b.
    + split; [split; [done|]|done]. destruct Hb as [_ Hb]. intros k v' Hk. specialize (Hb k v' Hk).
      case_decide as Hd; [by subst|by apply Hc].
    + destruct Hb as [-> Hne]. split; [by split|]. by intros ->.
  - exists true, c. unfold publish_entry. rewrite Ec. split; [done|]. unfold cache_holds. by rewrite Ec.
Qed.

Lemma pwp_cache `{Inhabited A} (f : Cache -> A * Cache) (Q : A -> World -> Prop) w :
  Q (f (w_cache w)).1 (MkWorld (w_db w) (w_os w) (f (w_cache w)).2) -> pwp (cache f) Q w.
Proof. unfold pwp. simpl. unfold on_cache. by destruct (f (w_cache w)). Qed.

Lemma pwp_cache_bind `{Inhabited A} {B} (f : Cache -> A * Cache) (k : A -> prog World B) (Q : B -> World -> Prop) w :
  pwp (k (f (w_cache w)).1) Q (MkWorld (w_db w) (w_os w) (f (w_cache w)).2) -> pwp (pbind (cache f) k) Q w.
Proof. intros Hk. by apply pwp_bind, pwp_cache. Qed.

(** A write alone: its result, and the cache cut. *)
Lemma pwp_then_evict {A} (m : M Db A) evict (Q : result A -> World -> Prop) w :
  wp m (fun r d => Q r (MkWorld d (w_os w) (evict (w_cache w)))) (w_db w) -> pwp (then_evict m evict) Q w.
Proof.
  intros Hm. unfold then_evict. apply pwp_call_bind, wp_db. eapply wp_mono; [exact Hm|]. cbv beta. intros r d HQ.
  by apply pwp_cache_bind, pwp_ret.
Qed.

(** What a read alone leaves: the tables and the files, and a cache that agrees with them. *)
Record read_only (w w' : World) : Prop := {
  ro_tables : tables w' = tables w;
  ro_clock : db_clock (w_db w') = db_clock (w_db w);
  ro_os : w_os w' = w_os w;
  ro_cache : quiet_cache w';
  ro_db : db_faults (w_db w) = [] -> w_db w' = w_db w;
}.

Lemma read_only_refl w : quiet_cache w -> read_only w w.
Proof. by split. Qed.

Lemma read_only_trans w1 w2 w3 : read_only w1 w2 -> read_only w2 w3 -> read_only w1 w3.
Proof.
  intros [E1 T1 O1 C1 D1] [E2 T2 O2 C2 D2]. split; [congruence..|done|].
  intros Hf. rewrite D2, D1; [done|done|]. by rewrite D1.
Qed.

(** What the wrapped read says, of a row or an error. *)
Definition load_as {A} (tg : target) (inj : A -> cacheValue) (F : result A -> Prop) (d : Db) (r : result A) (d' : Db) : Prop :=
  db_tables d' = db_tables d /\ db_clock d' = db_clock d /\ (db_faults d = [] -> d' = d) /\ F r /\
  forall a, r = Ok a -> current (target_key tg) (db_tables d) = Some (inj a).

Lemma pwp_cached_read {A} tg (proj : cacheValue -> option A) inj again lookup load publish (F : result A -> Prop) w :
  (forall c, lookup c = let '(v, c) := get_entry (target_key tg) c in (v ≫= proj, c)) ->
  (forall a revision c, publish a revision c = publish_value (inj a) revision c) ->
  (forall v a, proj v = Some a -> current (target_key tg) (tables w) = Some v -> F (Ok a)) ->
  wp load (load_as tg inj F (w_db w)) (w_db w) -> quiet_cache w ->
  pwp (cached_read again lookup load publish) (fun r w' => read_only w w' /\ F r) w.
Proof.
  intros Hlook Hpub Hhit Hload Hc.
  assert (Hbody : forall k, pwp (revision <~ cache (fun c => (currentRevision c, c)) ;; hit <~ cache lookup ;;
     match hit with
     | Some row => Ret (Ok row)
     | None => loaded <~ call (db load) ;;
         match loaded with
         | Err err => Ret (Err err)
         | Ok row => published <~ cache (publish row revision) ;; if (published : bool) then Ret (Ok row) else k
         end
     end) (fun r w' => read_only w w' /\ F r) w); [|by destruct again; apply Hbody].
  intros k. apply pwp_cache_bind, pwp_cache_bind. cbn [fst snd w_db w_os w_cache].
  destruct (lookup_holds _ (target_key tg) _ Hc) as (v & c1 & E1 & Hc1 & Er1 & Hv1). rewrite Hlook, E1. cbn [fst snd].
  destruct (v ≫= proj) as [a|] eqn:Ea.
  - apply bind_Some in Ea as (x & -> & Ea). apply pwp_ret. split; [by split|]. by eapply Hhit, Hv1.
  - apply pwp_call_bind, wp_db. cbn [w_db w_os w_cache]. eapply wp_mono; [exact Hload|]. cbv beta.
    intros [a|err] d (Et & Ec & Ed & HF & Hcur).
    + apply pwp_cache_bind. cbn [w_db w_os w_cache]. specialize (Hcur a eq_refl).
      destruct (current_entry tg _ _ Hcur) as (e & Ek & Ev & Ep). rewrite Hpub, Ep.
      destruct (publish_holds _ e (currentRevision (w_cache w)) c1 Hc1) as (b & c2 & E2 & Hc2 & Hb); [by rewrite Ek, Ev|].
      rewrite E2. cbn [fst snd]. rewrite Hb by done. apply pwp_ret. split; [|done]. split; simpl; by rewrite ?Et.
    + apply pwp_ret. split; [|done]. split; simpl; by rewrite ?Et.
Qed.

(** A query of one row. *)
Lemma wp_get_row {R A} (q : Tables -> option R) (scan : R -> A) missing d :
  let answer := match q (db_tables d) with Some row => Ok (scan row) | None => Err missing end in
  wp (row <- query q ;; match row with Some row => ret (scan row) | None => fail missing end)
    (fun r d' => db_tables d' = db_tables d /\ db_clock d' = db_clock d /\ (db_faults d = [] -> d' = d) /\
       (r = answer \/ db_faults d <> [] /\ r = Err ErrDatabase)) d.
Proof.
  cbv zeta. unfold wp. destruct (decide (db_faults d = [])) as [Hf|Hf].
  - unfold bind. rewrite query_run by done. destruct (q (db_tables d)); by split_and!; [| | |left].
  - apply (wp_bind (query q)), wp_query; intros fs; [by split_and!; [| | |right]|].
    destruct (q (db_tables d)); [apply wp_ret|apply wp_fail]; by split_and!; [| | |left].
Qed.

Section Reads.
Context (again : nat).
#[local] Instance read_rounds : Rounds := again.

Definition bucket_answer (t : Tables) (name : string) : result Bucket :=
  match t_buckets t !! name with
  | Some row => Ok (BucketRepository.scanBucket name row)
  | None => Err ErrBucketNotFound
  end.

Definition object_answer (t : Tables) (b k : string) : result Object :=
  match t_objects t !! (b, k) with
  | Some row => Ok (ObjectRepository.scanObject b k row)
  | None => Err ErrObjectNotFound
  end.

(** What a cached read returns: what the database says, or that it could not be asked. *)
Definition answers {A} (w : World) (answer r : result A) : Prop :=
  r = answer \/ db_faults (w_db w) <> [] /\ r = Err ErrDatabase.

Lemma pwp_GetByName name w :
  quiet_cache w ->
  pwp (CachedBucketRepository.GetByName name)
    (fun r w' => read_only w w' /\ answers w (bucket_answer (tables w) name) r) w.
Proof using.
  apply (pwp_cached_read (TBucket name) cv_bucket (fun b => MkCacheValue (Some b) None)); try done.
  - intros v b Hv. unfold current, answers, bucket_answer. simpl. destruct (t_buckets (tables w) !! name) as [row|]; [|done].
    intros [= <-]. injection Hv as <-. by left.
  - eapply wp_mono; [apply wp_get_row|]. cbv beta zeta. intros r d (Et & Ec & Ed & Hr). split; [done|]. split; [done|]. split; [done|].
    split; [exact Hr|]. intros a ->. destruct Hr as [Hr|[_ ?]]; [|done]. unfold current. simpl.
    destruct (t_buckets _ !! name); [|done]. by injection Hr as ->.
Qed.

Lemma pwp_GetByKey b k w :
  quiet_cache w ->
  pwp (CachedObjectRepository.GetByKey b k)
    (fun r w' => read_only w w' /\ answers w (object_answer (tables w) b k) r) w.
Proof using.
  apply (pwp_cached_read (TObject b k) cv_object (fun o => MkCacheValue None (Some o))); try done.
  - intros v o Hv. unfold current, answers, object_answer. simpl. destruct (t_objects (tables w) !! (b, k)) as [row|]; [|done].
    intros [= <-]. injection Hv as <-. by left.
  - eapply wp_mono; [apply wp_get_row|]. cbv beta zeta. intros r d (Et & Ec & Ed & Hr). split; [done|]. split; [done|]. split; [done|].
    split; [exact Hr|]. intros a ->. destruct Hr as [Hr|[_ ?]]; [|done]. unfold current. simpl.
    destruct (t_objects _ !! (b, k)); [|done]. by injection Hr as ->.
Qed.
End Reads.

(** Each method of the two cached repositories, with the method that it wraps. *)
Inductive wraps : forall {A : Type}, prog World (result A) -> M Db A -> Prop :=
  | bucket_Create bucket : wraps (CachedBucketRepository.Create bucket) (BucketRepository.Create bucket)
  | bucket_GetByName (again : Rounds) name : wraps (CachedBucketRepository.GetByName name) (BucketRepository.GetByName name)
  | bucket_List : wraps CachedBucketRepository.List BucketRepository.List
  | bucket_ListByOwner owner : wraps (CachedBucketRepository.ListByOwner owner) (BucketRepository.ListByOwner owner)
  | bucket_ListByNames names : wraps (CachedBucketRepository.ListByNames names) (BucketRepository.ListByNames names)
  | bucket_UpdateOwner name owner expected :
      wraps (CachedBucketRepository.UpdateOwner name owner expected) (BucketRepository.UpdateOwner name owner expected)
  | bucket_Delete name : wraps (CachedBucketRepository.Delete name) (BucketRepository.Delete name)
  | bucket_DeleteWithObjects name :
      wraps (CachedBucketRepository.DeleteWithObjects name) (BucketRepository.DeleteWithObjects name)
  | object_Create object : wraps (CachedObjectRepository.Create object) (ObjectRepository.Create object)
  | object_GetByKey (again : Rounds) b k : wraps (CachedObjectRepository.GetByKey b k) (ObjectRepository.GetByKey b k)
  | object_List b prefix startAfter maxKeys :
      wraps (CachedObjectRepository.List b prefix startAfter maxKeys) (ObjectRepository.List b prefix startAfter maxKeys)
  | object_ListDelimited b prefix startAfter delimiter maxKeys :
      wraps (CachedObjectRepository.ListDelimited b prefix startAfter delimiter maxKeys)
        (ObjectRepository.ListDelimited b prefix startAfter delimiter maxKeys)
  | object_Replace object ifMatch ifNoneMatch :
      wraps (CachedObjectRepository.Replace object ifMatch ifNoneMatch) (ObjectRepository.Replace object ifMatch ifNoneMatch)
  | object_Delete b k : wraps (CachedObjectRepository.Delete b k) (ObjectRepository.Delete b k)
  | object_DeleteAllInBucket b : wraps (CachedObjectRepository.DeleteAllInBucket b) (ObjectRepository.DeleteAllInBucket b).

(** A method is as the one that it wraps, and the cache agrees with the database after it. *)
Definition refines_alone {A} (p : prog World (result A)) (m : M Db A) (w : World) : Prop :=
  exists w', run p w = ((m (w_db w)).1, w') /\ w_db w' = (m (w_db w)).2 /\ w_os w' = w_os w /\
    coherent (w_cache w') (tables w').

Lemma write_refines {A} (m : M Db A) evict P w :
  wrapped m evict P -> coherent (w_cache w) (tables w) -> refines_alone (then_evict m evict) m w.
Proof.
  intros Hw Hc. destruct (m (w_db w)) as [r d'] eqn:E. exists (MkWorld d' (w_os w) (evict (w_cache w))).
  unfold then_evict. rewrite run_bind, run_call. unfold db, on. simpl. rewrite E. simpl.
  split; [done|]. split; [done|]. split; [done|]. by apply (write_coherent m evict P _ (w_db w) r d').
Qed.

(** A method that only asks the database. *)
Lemma query_refines {A} (m : M Db A) w :
  (m (w_db w)).2 = w_db w -> coherent (w_cache w) (tables w) -> refines_alone (call (db m)) m w.
Proof.
  intros Hm Hc. eexists. rewrite run_call. unfold db, on. simpl. destruct (m (w_db w)) as [r d'] eqn:E. cbn in Hm. subst d'.
  split; [done|]. by split_and!.
Qed.

(** A read without faults. *)
Lemma read_refines {A} (p : prog World (result A)) (m : M Db A) answer w :
  pwp p (fun r w' => read_only w w' /\ answers w answer r) w -> m (w_db w) = (answer, w_db w) -> db_faults (w_db w) = [] ->
  exists w', run p w = ((m (w_db w)).1, w') /\ w_db w' = (m (w_db w)).2 /\ w_os w' = w_os w /\ quiet_cache w'.
Proof.
  intros Hp Em Hf. unfold pwp in Hp. destruct (run p w) as [r w'] eqn:E. destruct Hp as [Hr [Ha|[Ha _]]]; [|done].
  exists w'. rewrite Em. cbn [fst snd] in *. subst r. split; [done|]. split; [by apply Hr|]. split; apply Hr.
Qed.

(** C23: used by one request at a time, a cached repository is the repository. For
    each of the fifteen methods of the two repositories, on a cache that agrees with the
    database and without faults, the call ends in the first round with the result of the
    wrapped method, leaves the database as that method does and the files as they were,
    and the cache agrees with it again. *)
Theorem cached_refines {A} (p : prog World (result A)) (m : M Db A) w :
  wraps p m -> coherent (w_cache w) (tables w) -> db_faults (w_db w) = [] ->
  exists w', run p w = ((m (w_db w)).1, w') /\ w_db w' = (m (w_db w)).2 /\ w_os w' = w_os w /\
    coherent (w_cache w') (tables w').
Proof.
  intros Hw Hc Hf. destruct Hw; try (eapply write_refines; [econstructor|done]).
  - eapply read_refines; [by apply (pwp_GetByName again)| |done]. unfold BucketRepository.GetByName, bind.
    rewrite query_run by done. unfold bucket_answer. by destruct (t_buckets _ !! name).
  - apply query_refines; [|done]. unfold BucketRepository.List. by rewrite query_run.
  - apply query_refines; [|done]. unfold BucketRepository.ListByOwner. by rewrite query_run.
  - apply query_refines; [|done]. destruct names; [done|]. unfold BucketRepository.ListByNames. by rewrite query_run.
  - eapply read_refines; [by apply (pwp_GetByKey again)| |done]. unfold ObjectRepository.GetByKey, bind.
    rewrite query_run by done. unfold object_answer. by destruct (t_objects _ !! (b, k)).
  - apply query_refines; [|done]. unfold ObjectRepository.List. destruct (maxKeys <=? 0)%Z; [done|].
    unfold bind. rewrite query_run by done. by destruct (_ <? _)%Z.
  - apply query_refines; [|done]. unfold ObjectRepository.ListDelimited. destruct (maxKeys <=? 0)%Z; [done|]. by rewrite query_run.
Qed.

(** ** Witnesses *)

Definition sample_tables : Tables :=
  MkTables {["u1" := MkUserRow "User" "ak" "hash" None None "member" true 1 1]}
    {["photos" := MkBucketRow "u1" 1]} ∅ ∅ ∅ ∅ ∅ ∅.
Definition sample_db : Db := MkDb sample_tables 5 [].
Definition sample_cached : World := MkWorld sample_db (MkOs ∅ ∅ [] 0) (Some (NewMetadataCache 1000)).

Lemma cached_refines_witness :
  exists w', run (@CachedBucketRepository.GetByName 1 "photos") sample_cached =
      (Ok (MkBucket "photos" "u1" 1), w') /\ w_db w' = sample_db /\ w_os w' = w_os sample_cached /\
    coherent (w_cache w') (tables w').
Proof.
  apply (cached_refines (@CachedBucketRepository.GetByName 1 "photos")
           (BucketRepository.GetByName "photos") sample_cached); [constructor|apply new_cache_coherent|reflexivity].
Defined.

(** A reader takes the revision and misses, a writer commits and evicts, the reader
    loads and publishes. *)
Definition sample_reading (pc : read_pc) (st : World) (n : nat) : Sys :=
  MkSys st {[1 := Reader (TBucket "photos") pc 0]} n.
Definition after {A} (m : M World A) (st : World) : World := (m st).2.
Definition sample_state2 : World := after (reader_step (TBucket "photos") (RLookup 0)) sample_cached.
Definition sample_sys : Sys := sample_reading (RLoad 0) sample_state2 0.
Definition sample_start : World := MkWorld sample_db (MkOs ∅ ∅ [] 0) None.

Lemma sample_sys_reachable : rtc sys_step (sys_init 1000 sample_start) sample_sys.
Proof.
  eapply rtc_l; [by apply (step_start _ 1 (TBucket "photos"))|].
  eapply rtc_l; [eapply (step_read _ 1 (TBucket "photos") RStart); reflexivity|].
  eapply rtc_l; [eapply (step_read _ 1 (TBucket "photos") (RLookup 0)); reflexivity|].
  apply rtc_refl.
Qed.

Definition sample_published : Sys :=
  sample_reading (RDone (Ok (MkCacheValue (Some (MkBucket "photos" "u1" 1)) None)))
    (after (reader_step (TBucket "photos") (RPublish 0 (MkCacheValue (Some (MkBucket "photos" "u1" 1)) None)))
       sample_state2) 0.

Lemma sample_published_reachable : rtc sys_step (sys_init 1000 sample_start) sample_published.
Proof.
  etrans; [apply sample_sys_reachable|].
  eapply rtc_l; [eapply (step_read _ 1 (TBucket "photos") (RLoad 0)); reflexivity|].
  eapply rtc_l; [eapply (step_read _ 1 (TBucket "photos") (RPublish 0 _)); reflexivity|].
  apply rtc_refl.
Qed.

Lemma cache_coherent_witness :
  is_Some (w_cache (sy_state sample_published) ≫= cached (bucketKey "photos")) /\
  exists m, w_cache (sy_state sample_published) = Some m /\
    forall k v, cached k m = Some v ->
      current k (sy_tables sample_published) = Some v \/ write_pending k sample_published.
Proof.
  split; [by eexists|].
  apply (cache_coherent 1000 sample_start); [done|apply sample_published_reachable|done].
Defined.

Definition sample_value : cacheValue := MkCacheValue (Some (MkBucket "photos" "u1" 1)) None.
Definition sample_loaded : Sys := sample_reading (RPublish 0 sample_value) sample_state2 0.

Lemma sample_loaded_reachable : rtc sys_step (sys_init 1000 sample_start) sample_loaded.
Proof.
  etrans; [apply sample_sys_reachable|].
  eapply rtc_l; [eapply (step_read _ 1 (TBucket "photos") (RLoad 0)); reflexivity|].
  apply rtc_refl.
Qed.

Lemma cached_read_current_witness :
  current (bucketKey "photos") (sy_tables sample_loaded) = Some sample_value \/
  write_pending (bucketKey "photos") sample_loaded.
Proof.
  apply (cached_read_current 1000 sample_start sample_loaded 1 (TBucket "photos") (RPublish 0 sample_value) 0
    sample_value (sy_state sample_published)); try reflexivity; try done.
  apply sample_loaded_reachable.
Defined.
