(* ===== verification/ObjectOps.v ===== *)
(** * Shared object operations: [internal/objectops]

    Listing all objects of a bucket page by page, deleting an object with its file,
    emptying a bucket, and recording activity. *)

From S2P Require Import Prelude GoStrings Effects Os Sanitize DiskEngine Schema Db ObjectRepo ActivityRepo Prog Iam Authz CachedBucketRepo CachedObjectRepo.

Definition pageLimit : Z := 1000.

(** [ListAllObjects]: one page per round; [fuel] bounds the rounds. *)
Fixpoint list_pages (fuel : nat) (bucketName startAfter : string) (allObjects : list Object)
    : prog World (result (list Object)) :=
  match fuel with
  | O => Ret (Err (ErrOther "out of fuel"))
  | S fuel =>
      page <~ call (db (ObjectRepository.List bucketName "" startAfter pageLimit)) ;;
      match page with
      | Err err => Ret (Err err)
      | Ok (objects, isTruncated) =>
          let allObjects := allObjects ++ objects in
          match last objects with
          | Some obj => if (isTruncated : bool) then list_pages fuel bucketName (o_key obj) allObjects
                        else Ret (Ok allObjects)
          | None => Ret (Ok allObjects)
          end
      end
  end.

Definition ListAllObjects (fuel : nat) (bucketName : string) : prog World (result (list Object)) :=
  list_pages fuel bucketName "" [].

Section Ops.
Context `{Cwd} `{Rounds} (e : option engine).

(** [DeleteObject]: the object and whether it existed. The disk may be nil. *)
Definition DeleteObject (bucketName key : string) : prog World (result (option Object * bool)) :=
  obj <~ CachedObjectRepository.GetByKey bucketName key ;;
  match obj with
  | Err ErrObjectNotFound => Ret (Ok (None, false))
  | Err err => Ret (Err err)
  | Ok obj =>
      deleted <~ CachedObjectRepository.Delete bucketName key ;;
      match deleted, e with
      | Err err, _ => Ret (Err err)
      | Ok _, None => Ret (Ok (Some obj, true))
      | Ok _, Some e =>
          removed <~ call (os (Delete e (o_storage_path obj))) ;;
          match removed with
          | Err err => Ret (Err err)
          | Ok _ => Ret (Ok (Some obj, true))
          end
      end
  end.

(** The loop of [EmptyBucket] over the objects' files. *)
Fixpoint delete_files (e : engine) (objects : list Object) : prog World (result unit) :=
  match objects with
  | [] => Ret (Ok tt)
  | obj :: rest =>
      removed <~ call (os (Delete e (o_storage_path obj))) ;;
      match removed with
      | Err err => Ret (Err err)
      | Ok _ => delete_files e rest
      end
  end.

(** [EmptyBucket] *)
Definition EmptyBucket (fuel : nat) (bucketName : string) : prog World (result (list Object)) :=
  listed <~ ListAllObjects fuel bucketName ;;
  match listed with
  | Err err => Ret (Err err)
  | Ok objects =>
      deleted <~ CachedObjectRepository.DeleteAllInBucket bucketName ;;
      match deleted, e with
      | Err err, _ => Ret (Err err)
      | Ok _, None => Ret (Ok objects)
      | Ok _, Some e =>
          removed <~ delete_files e objects ;;
          match removed with
          | Err err => Ret (Err err)
          | Ok _ => Ret (Ok objects)
          end
      end
  end.
End Ops.

(** [RecordActivity]: a nil repository records nothing; the principal of the
    request, if there is one, is the actor. *)
Definition RecordActivity (enabled : bool) (principal : option Principal) (event : ObjectActivity)
    : M Db unit :=
  if negb enabled then ret tt
  else
    let event := match principal with
                 | None => event
                 | Some p => MkActivity (a_id event) (a_action event) (a_bucket_name event)
                               (a_object_key event) (a_size event) (a_etag event) (p_user_id p)
                               (a_created_at event)
                 end in
    ActivityRepository.Create event.

(** ** Pagination *)

Section Pagination.
Import ObjectRepository ObjectListing.

(** The listing that a page starts: the whole of it. *)
Definition full_listing (bucketName prefix startAfter : string) (t : Tables) : list Object :=
  select_objects bucketName (list_condition prefix startAfter) t.

(** What [List] makes of the rows that the query returns. *)
Lemma page_of_rows {A} (l : list A) n :
  (0 < n)%Z ->
  (if (n <? Z.of_nat (length (take (Z.to_nat (n + 1)) l)))%Z
   then (take (Z.to_nat n) (take (Z.to_nat (n + 1)) l), true) else (take (Z.to_nat (n + 1)) l, false)) =
  (take (Z.to_nat n) l, bool_decide (Z.to_nat n < length l)).
Proof.
  intros Hn. replace (Z.to_nat (n + 1)) with (S (Z.to_nat n)) by lia.
  rewrite length_take. destruct (Z.ltb_spec n (Z.of_nat (Nat.min (S (Z.to_nat n)) (length l)))).
  - rewrite take_take, Nat.min_l by lia. by rewrite bool_decide_true by lia.
  - rewrite bool_decide_false by lia. by rewrite !take_ge by lia.
Qed.

(** One page: the first [n] objects, and whether there are more. *)
Lemma wp_List_page bucketName prefix startAfter n s :
  (0 < n)%Z ->
  let l := full_listing bucketName prefix startAfter (db_tables s) in
  wp (List bucketName prefix startAfter n) (fun r s' => db_tables s' = db_tables s /\
    forall page, r = Ok page -> page = (take (Z.to_nat n) l, bool_decide (Z.to_nat n < length l))) s.
Proof.
  intros Hn l. unfold List. rewrite (proj2 (Z.leb_gt n 0)) by lia. apply wp_bind, wp_query; [done|]. intros fs.
  fold (full_listing bucketName prefix startAfter (db_tables s)). fold l. rewrite <- (page_of_rows l n) by done.
  destruct (_ <? _)%Z; apply wp_ret; by (split; [|intros page [= <-]]).
Qed.

Lemma List_page bucketName prefix startAfter n s :
  db_faults s = [] -> (0 < n)%Z ->
  let l := full_listing bucketName prefix startAfter (db_tables s) in
  List bucketName prefix startAfter n s =
    (Ok (take (Z.to_nat n) l, bool_decide (Z.to_nat n < length l)), s).
Proof.
  intros Hf Hn l. unfold List. rewrite (proj2 (Z.leb_gt n 0)) by lia.
  unfold bind. rewrite query_run by done. fold (full_listing bucketName prefix startAfter (db_tables s)).
  fold l. rewrite <- (page_of_rows l n) by done. by destruct (_ <? _)%Z.
Qed.

(** The page after a full one continues the listing. *)
Lemma full_listing_after bucketName prefix startAfter t l1 x l2 :
  full_listing bucketName prefix startAfter t = l1 ++ x :: l2 ->
  full_listing bucketName prefix (o_key x) t = l2.
Proof.
  intros E. unfold full_listing in *. rewrite <- (select_after _ _ _ _ _ _ E).
  assert (Hx : text_after (o_key x) startAfter = true).
  { assert (Hin : x ∈ select_objects bucketName (list_condition prefix startAfter) t)
      by (rewrite E; set_solver).
    apply elem_of_select_objects in Hin as (r & _ & Hc & _).
    by apply andb_true_iff in Hc as [? _]. }
  rewrite (select_objects_filter bucketName (fun _ => true) (list_condition prefix (o_key x))) by done.
  rewrite (select_objects_filter bucketName (fun _ => true) (fun k => _ && _)) by done.
  apply list_filter_iff. intros o. unfold list_condition.
  destruct (text_after (o_key o) (o_key x)) eqn:Eo; rewrite ?andb_true_r, ?andb_false_r; [|done].
  by rewrite (text_after_trans (o_key o) (o_key x) startAfter).
Qed.

(** After a page, the rest of the listing. *)
Lemma listing_resumes bucketName startAfter t n x :
  last (take n (full_listing bucketName "" startAfter t)) = Some x ->
  full_listing bucketName "" (o_key x) t = drop n (full_listing bucketName "" startAfter t).
Proof.
  set (l := full_listing bucketName "" startAfter t). intros [l1 Et]%last_Some.
  apply (full_listing_after bucketName "" startAfter _ l1 x). fold l.
  rewrite <- (take_drop n l) at 1. by rewrite Et, <- app_assoc.
Qed.

Lemma page_empty (l : list Object) : last (take (Z.to_nat pageLimit) l) = None -> l = [].
Proof. rewrite last_None. destruct l; [done|]. by rewrite (Nat2Z.inj (Z.to_nat pageLimit) 1000). Qed.

Lemma list_pages_run fuel bucketName startAfter acc w :
  db_faults (w_db w) = [] ->
  length (full_listing bucketName "" startAfter (tables w)) < fuel ->
  run (list_pages fuel bucketName startAfter acc) w =
    (Ok (acc ++ full_listing bucketName "" startAfter (tables w)), w).
Proof.
  intros Hf. revert startAfter acc; induction fuel as [|fuel IH]; intros startAfter acc Hl; [lia|].
  cbn [list_pages]. rewrite run_bind, run_call. unfold db, on. simpl lens_get.
  rewrite List_page by done. simpl lens_put.
  replace (MkWorld (w_db w) (w_os w) (w_cache w)) with w by by destruct w.
  set (l := full_listing bucketName "" startAfter (tables w)) in *. cbv zeta iota.
  destruct (last (take (Z.to_nat pageLimit) l)) as [x|] eqn:Elast; [|by rewrite (page_empty l)].
  pose proof (listing_resumes _ _ _ _ _ Elast) as Er. fold l in Er. case_bool_decide as Hmore.
  - rewrite IH; rewrite Er; [by rewrite <- app_assoc, take_drop|]. rewrite length_drop.
    assert (0 < Z.to_nat pageLimit) by by apply Nat.ltb_lt. lia.
  - simpl. by rewrite take_ge by lia.
Qed.

(** Whatever fails, the listing changes nothing, and a success is the whole of it. *)
Lemma pwp_list_pages fuel bucketName startAfter acc w :
  pwp (list_pages fuel bucketName startAfter acc) (fun r w' =>
    tables w' = tables w /\ w_os w' = w_os w /\ w_cache w' = w_cache w /\
    forall l, r = Ok l -> l = acc ++ full_listing bucketName "" startAfter (tables w)) w.
Proof.
  revert startAfter acc w; induction fuel as [|fuel IH]; intros startAfter acc w; cbn [list_pages]; [done|].
  apply pwp_call_bind, wp_db. eapply wp_mono; [by apply wp_List_page|]. cbv beta zeta.
  set (l := full_listing bucketName "" startAfter (tables w)).
  intros [[objects truncated]|err] d [Et Hp]; [|by apply pwp_ret]. specialize (Hp _ eq_refl). simplify_eq.
  destruct (last (take (Z.to_nat pageLimit) l)) as [x|] eqn:Elast.
  - pose proof (listing_resumes _ _ _ _ _ Elast) as Er. fold l in Er. case_bool_decide as Hmore.
    + eapply pwp_mono; [apply IH|]. cbv beta. simpl. rewrite Et, Er. intros r w' (E1 & E2 & E3 & Hr).
      split; [done|]. split; [done|]. split; [done|]. intros l' ->%Hr. by rewrite <- app_assoc, take_drop.
    + apply pwp_ret. do 3 (split; [done|]). intros l' [= <-]. by rewrite take_ge by lia.
  - apply pwp_ret. do 3 (split; [done|]). intros l' [= <-]. by rewrite (page_empty l).
Qed.

(** C21: paging through a bucket misses and repeats nothing. With enough rounds,
    and no faults, [ListAllObjects] returns exactly the objects stored in the bucket
    (those with a non-empty key), each once, in the byte order of their keys,
    although each query returns one page and the next one starts after its last key. *)
Theorem ListAllObjects_complete bucketName fuel w :
  db_faults (w_db w) = [] -> size (t_objects (tables w)) < fuel ->
  exists objects, run (ListAllObjects fuel bucketName) w = (Ok objects, w) /\
    StronglySorted (by_text o_key) objects /\ NoDup (o_key <$> objects) /\
    (forall o, o ∈ objects <-> exists r, t_objects (tables w) !! (bucketName, o_key o) = Some r /\
                 o_key o <> "" /\ o = scanObject bucketName (o_key o) r).
Proof.
  intros Hf Hfuel. set (l := full_listing bucketName "" "" (tables w)).
  assert (Hlen : length l <= size (t_objects (tables w))).
  { unfold l, full_listing, select_objects.
    rewrite (Permutation_length (merge_sort_Permutation (by_text o_key) _)), length_fmap.
    etrans; [apply length_filter|]. by rewrite length_map_to_list. }
  exists l. split; [unfold ListAllObjects; rewrite list_pages_run by (done || unfold l in Hlen; lia); done|].
  split; [apply select_objects_sorted|]. split; [apply select_objects_NoDup_keys|].
  intros o. unfold l, full_listing. rewrite elem_of_select_objects.
  assert (Hc : forall k, list_condition "" "" k = true <-> k <> "").
  { intros k. unfold list_condition. rewrite String.eqb_refl, andb_true_r, text_after_spec.
    split; [by intros [_ ?]|]. intros Hk. split; [by destruct k|congruence]. }
  setoid_rewrite Hc. done.
Qed.
End Pagination.

(** ** Witness *)

Definition sample_object (k : string) : ObjectRow :=
  MkObjectRow k 3 "etag" "text/plain" ("photos/" +:+ k) 1 1 false 0 None None None None None None.

Definition sample_tables : Tables :=
  MkTables {["u1" := MkUserRow "User" "ak" "hash" None None "member" true 1 1]}
    {["photos" := MkBucketRow "u1" 1]}
    {[("photos", "b") := sample_object "b"; ("photos", "a") := sample_object "a"]} ∅ ∅ ∅ ∅ ∅.
Definition sample_db : Db := MkDb sample_tables 5 [].

Definition sample_world : World := MkWorld sample_db (MkOs ∅ ∅ [] 0) None.

Lemma ListAllObjects_complete_witness :
  exists objects, run (ListAllObjects 3 "photos") sample_world = (Ok objects, sample_world) /\
    StronglySorted (by_text o_key) objects /\ NoDup (o_key <$> objects) /\
    (forall o, o ∈ objects <-> exists r, t_objects sample_tables !! ("photos", o_key o) = Some r /\
       o_key o <> "" /\ o = ObjectRepository.scanObject "photos" (o_key o) r).
Proof. apply (ListAllObjects_complete "photos" 3 sample_world); [reflexivity|vm_compute; lia]. Defined.

Definition sample_new_object : Object := ObjectRepository.scanObject "photos" "c" (sample_object "c").

Lemma Create_then_GetByKey_witness :
  exists stored s',
    ObjectRepository.Create sample_new_object sample_db = (Ok stored, s') /\
    o_id stored = o_id sample_new_object /\ o_size stored = 3%Z /\ o_storage_path stored = "photos/c" /\
    (exists read, ObjectRepository.GetByKey "photos" "c" s' = (Ok read, s') /\
       read = MkObject (o_id stored) (o_bucket_name stored) (o_key stored) (o_size stored)
                (o_etag stored) (o_content_type stored) (o_storage_path stored)
                (o_created_at stored) (o_updated_at stored) (o_is_multipart stored)
                (o_parts_count stored) (o_crc32 stored) (o_crc32c stored) (o_crc64nvme stored)
                (o_sha1 stored) (o_sha256 stored)
                (if decide (o_user_metadata stored = Some ∅) then None else o_user_metadata stored)) /\
    (forall b k, (b, k) <> ("photos", "c") ->
       (ObjectRepository.GetByKey b k s').1 = (ObjectRepository.GetByKey b k sample_db).1).
Proof.
  apply (ObjectSpec.Create_then_GetByKey sample_new_object sample_db); [reflexivity|by_decide|].
  intros k o Hk Hid. exfalso. revert k o Hk Hid.
  change (map_Forall (fun (_ : string * string) o => or_id o <> "c") (t_objects sample_tables)). by_decide.
Defined.
