(* ===== verification/Repositories.v ===== *)
(** * The repositories together

    Every write operation of [internal/metadata] as a step of the database, in any
    order and with any faults: the constraints of the schema and the rule that only
    grantable actions are granted hold in every reachable state; the life cycle of a
    multipart upload. *)

From S2P Require Import Prelude GoStrings Effects Schema Db Iam Authz ObjectRepo BucketRepo MultipartRepo UserRepo GrantRepo ShareLinkRepo ActivityRepo.

Inductive write_op : forall {A : Type}, M Db A -> Prop :=
  | op_create_user u : write_op (UserRepository.Create u)
  | op_create_first_user u : write_op (UserRepository.CreateFirstUser u)
  | op_update_user u : write_op (UserRepository.Update u)
  | op_delete_user id : write_op (UserRepository.Delete id)
  | op_create_bucket b : write_op (BucketRepository.Create b)
  | op_update_owner n o e : write_op (BucketRepository.UpdateOwner n o e)
  | op_delete_bucket n : write_op (BucketRepository.Delete n)
  | op_delete_with_objects n : write_op (BucketRepository.DeleteWithObjects n)
  | op_create_object o : write_op (ObjectRepository.Create o)
  | op_replace_object o im inm : write_op (ObjectRepository.Replace o im inm)
  | op_delete_object b k : write_op (ObjectRepository.Delete b k)
  | op_delete_all b : write_op (ObjectRepository.DeleteAllInBucket b)
  | op_create_upload u : write_op (MultipartRepository.Create u)
  | op_delete_upload id : write_op (MultipartRepository.Delete id)
  | op_claim id st : write_op (MultipartRepository.ClaimUpload id st)
  | op_set_status id st : write_op (MultipartRepository.SetUploadStatus id st)
  | op_add_part p : write_op (MultipartRepository.AddPart p)
  | op_complete o id im inm : write_op (MultipartRepository.CompleteUpload o id im inm)
  | op_create_grant g : write_op (GrantRepository.Create g)
  | op_create_grants gs : write_op (GrantRepository.CreateIdempotentBatch gs)
  | op_update_grant g : write_op (GrantRepository.Update g)
  | op_delete_grant id : write_op (GrantRepository.Delete id)
  | op_create_link l : write_op (ShareLinkRepository.Create l)
  | op_delete_link c : write_op (ShareLinkRepository.Delete c)
  | op_create_activity a : write_op (ActivityRepository.Create a).

(** One step: an operation, or the environment: time passes and faults are chosen. *)
Inductive db_step (s : Db) : Db -> Prop :=
  | db_step_op {A} (m : M Db A) r s' : write_op m -> m s = (r, s') -> db_step s s'
  | db_step_env clock faults : db_step s (MkDb (db_tables s) clock faults).

(** Only grantable actions are stored. *)
Definition grants_grantable (t : Tables) : Prop :=
  map_Forall (fun _ g => IsGrantable (gr_action g) = true) (t_grants t).

Definition db_inv (t : Tables) : Prop := wf_tables t /\ grants_grantable t.

(** Statements that keep both. *)
Definition keeps_grants {A} (s : Stmt A) : Prop := stmt_keeps grants_grantable s.

Lemma stmt_keeps_and {A} (I J : Tables -> Prop) (s : Stmt A) :
  stmt_keeps I s -> stmt_keeps J s -> stmt_keeps (fun t => I t /\ J t) s.
Proof.
  intros HI HJ t [Hi Hj]. specialize (HI t Hi). specialize (HJ t Hj). by destruct (s t) as [[a t']|].
Qed.

(** Statements that do not touch the grants, or only drop some. *)
Lemma grants_filter (P : string * GrantRow -> Prop) `{forall x, Decision (P x)} t :
  grants_grantable t -> map_Forall (fun _ g => IsGrantable (gr_action g) = true) (filter P (t_grants t)).
Proof. intros Ht k g Hk. apply map_lookup_filter_Some in Hk as [Hk _]. by eapply Ht. Qed.

Lemma delete_user_grants id : keeps_grants (delete_user id).
Proof.
  unfold delete_user. intros t Ht. destruct (t_users t !! id); [|done]. destruct (has_row _ _); [done|].
  intros k g Hk. simpl in Hk. apply lookup_fmap_Some in Hk as (g' & <- & Hk).
  apply map_lookup_filter_Some in Hk as [Hk _]. simpl. by eapply Ht.
Qed.

Lemma delete_bucket_grants name : keeps_grants (delete_bucket name).
Proof.
  unfold delete_bucket. intros t Ht. destruct (t_buckets t !! name); [|done].
  destruct (_ || _); [done|]. by apply grants_filter.
Qed.

Lemma insert_grant_grants id r : IsGrantable (gr_action r) = true -> keeps_grants (insert_grant id r).
Proof.
  intros Hr t Ht. unfold insert_grant. case_bool_decide; [done|]. destruct (active_duplicate _ _ _); [done|].
  destruct (negb _); [done|]. by apply map_Forall_insert_2.
Qed.

Lemma insert_grant_unless_grants id r :
  IsGrantable (gr_action r) = true -> keeps_grants (insert_grant_unless_active_duplicate id r).
Proof.
  intros Hr t Ht. unfold insert_grant_unless_active_duplicate. destruct (active_duplicate _ _ _); [done|].
  case_bool_decide; [destruct (t_grants t !! id); [destruct (_ && _)|]; done|].
  destruct (negb _); [done|]. by apply map_Forall_insert_2.
Qed.

Lemma update_grant_grants id p a n now : keeps_grants (update_grant id p a n now).
Proof.
  intros t Ht. unfold update_grant. destruct (t_grants t !! id) as [g|] eqn:E; [|done]. cbv zeta.
  destruct (active_duplicate _ _ _); [done|]. apply map_Forall_insert_2; [exact (Ht _ _ E)|done].
Qed.

Lemma delete_grant_grants id : keeps_grants (delete_grant id).
Proof.
  intros t Ht. unfold delete_grant. destruct (t_grants t !! id); [|done].
  by apply map_Forall_delete_1.
Qed.

Ltac same_grants := intros t Ht; repeat (case_match; simplify_eq); exact I || exact Ht.

Lemma insert_user_grants id r : keeps_grants (insert_user id r).
Proof. unfold insert_user. same_grants. Qed.
Lemma update_user_grants id r : keeps_grants (update_user id r).
Proof. unfold update_user. same_grants. Qed.
Lemma insert_bucket_grants n r : keeps_grants (insert_bucket n r).
Proof. unfold insert_bucket. same_grants. Qed.
Lemma update_bucket_owner_grants n o e : keeps_grants (update_bucket_owner n o e).
Proof. unfold update_bucket_owner. same_grants. Qed.
Lemma upsert_object_grants b k r : keeps_grants (upsert_object b k r).
Proof. unfold upsert_object. same_grants. Qed.
Lemma delete_object_grants b k : keeps_grants (delete_object b k).
Proof. unfold delete_object. same_grants. Qed.
Lemma delete_objects_in_grants b : keeps_grants (delete_objects_in b).
Proof. by intros t Ht. Qed.
Lemma insert_upload_grants id r : keeps_grants (insert_upload id r).
Proof. unfold insert_upload. same_grants. Qed.
Lemma update_upload_status_grants id st now : keeps_grants (update_upload_status id st now).
Proof. unfold update_upload_status. same_grants. Qed.
Lemma delete_upload_grants id : keeps_grants (delete_upload id).
Proof. unfold delete_upload. same_grants. Qed.
Lemma upsert_part_grants u n r : keeps_grants (upsert_part u n r).
Proof. unfold upsert_part. same_grants. Qed.
Lemma insert_link_grants c r : keeps_grants (insert_link c r).
Proof. unfold insert_link. same_grants. Qed.
Lemma delete_link_grants c : keeps_grants (delete_link c).
Proof. unfold delete_link. same_grants. Qed.
Lemma insert_activity_grants id r : keeps_grants (insert_activity id r).
Proof. unfold insert_activity. same_grants. Qed.

Lemma exec_inv {A} (s : Stmt A) :
  stmt_keeps wf_tables s -> keeps_grants s -> db_keeps db_inv (exec s).
Proof. intros H1 H2. by apply keeps_exec, stmt_keeps_and. Qed.

#[export] Hint Resolve insert_user_grants update_user_grants delete_user_grants insert_bucket_grants
  update_bucket_owner_grants delete_bucket_grants upsert_object_grants delete_object_grants
  delete_objects_in_grants insert_upload_grants update_upload_status_grants delete_upload_grants
  upsert_part_grants insert_grant_grants insert_grant_unless_grants update_grant_grants
  delete_grant_grants insert_link_grants delete_link_grants insert_activity_grants exec_inv : fbs.

Lemma create_batch_inv grants results :
  Forall (fun g => IsGrantable (g_action g) = true) grants ->
  db_keeps db_inv (GrantRepository.create_batch grants results).
Proof.
  intros Hg. revert results; induction Hg as [|g grants Hg Hgs IH]; intros results;
    cbn [GrantRepository.create_batch]; [db_keeps_steps|].
  unfold GrantRepository.findActiveDuplicate. db_keeps_steps.
Qed.

Lemma upsertObject_inv o : db_keeps db_inv (ObjectRepository.upsertObject o).
Proof. unfold ObjectRepository.upsertObject. db_keeps_steps. Qed.
#[export] Hint Resolve upsertObject_inv create_batch_inv : fbs.

Lemma write_op_inv {A} (m : M Db A) : write_op m -> db_keeps db_inv m.
Proof.
  intros [].
  - unfold UserRepository.Create, UserRepository.insertUser. db_keeps_steps.
  - unfold UserRepository.CreateFirstUser, UserRepository.insertUser. db_keeps_steps.
  - unfold UserRepository.Update. db_keeps_steps.
  - unfold UserRepository.Delete. db_keeps_steps.
  - unfold BucketRepository.Create. db_keeps_steps.
  - unfold BucketRepository.UpdateOwner. db_keeps_steps.
  - unfold BucketRepository.Delete. db_keeps_steps.
  - unfold BucketRepository.DeleteWithObjects, BucketRepository.deleteBucketObjects. db_keeps_steps.
  - apply upsertObject_inv.
  - unfold ObjectRepository.Replace, ObjectRepository.loadObjectVersion. db_keeps_steps.
  - unfold ObjectRepository.Delete. db_keeps_steps.
  - unfold ObjectRepository.DeleteAllInBucket. db_keeps_steps.
  - unfold MultipartRepository.Create. db_keeps_steps.
  - unfold MultipartRepository.Delete. db_keeps_steps.
  - unfold MultipartRepository.ClaimUpload. db_keeps_steps.
  - unfold MultipartRepository.SetUploadStatus. db_keeps_steps.
  - unfold MultipartRepository.AddPart. db_keeps_steps.
  - unfold MultipartRepository.CompleteUpload, MultipartRepository.requireCompletingUpload,
      ObjectRepository.loadObjectVersion. db_keeps_steps.
  - unfold GrantRepository.Create, GrantRepository.validateGrantWrite.
    destruct (IsGrantable (g_action g)) eqn:E; [|apply keeps_fail]. db_keeps_steps.
  - unfold GrantRepository.CreateIdempotentBatch.
    destruct (GrantRepository.validate_all gs) as [[]|] eqn:E; [|apply keeps_fail].
    apply GrantSpec.validate_all_ok in E. db_keeps_steps.
  - unfold GrantRepository.Update. db_keeps_steps.
  - unfold GrantRepository.Delete. db_keeps_steps.
  - unfold ShareLinkRepository.Create. db_keeps_steps.
  - unfold ShareLinkRepository.Delete. db_keeps_steps.
  - unfold ActivityRepository.Create. db_keeps_steps.
Qed.

Lemma db_step_inv s s' : db_step s s' -> db_inv (db_tables s) -> db_inv (db_tables s').
Proof.
  intros [A m r s1 Hm E|clock faults] Hi; [|done].
  by apply (wp_run m (fun _ s' => db_inv (db_tables s')) _ _ _ E), (write_op_inv m Hm).
Qed.

(** C10: the repositories never corrupt the metadata. From an empty database,
    after any sequence of write operations with any arguments, interleaved in any
    order and with any statements, commits and contexts failing, every foreign key
    refers to a row, every unique key is unique (one active grant per bucket, grantee,
    action and prefix included), roles and upload states are valid, and no stored
    grant is for an action that is not grantable, such as DeleteBucket. *)
Theorem repositories_keep_schema clock faults s :
  rtc db_step (MkDb empty_tables clock faults) s ->
  wf_tables (db_tables s) /\ grants_grantable (db_tables s).
Proof.
  intros Hs. assert (H0 : db_inv (db_tables (MkDb empty_tables clock faults))).
  { split; [apply empty_tables_wf|]. apply map_Forall_empty. }
  revert H0. induction Hs as [s|s1 s2 s3 H12 _ IH]; [done|]. intros H1.
  by apply IH, (db_step_inv s1).
Qed.

Definition sample_user : User := MkUser "u1" "User" "ak" "hash" "" "" "admin" true 1 1.
Definition sample_bootstrap : Db := snd (UserRepository.CreateFirstUser sample_user (MkDb empty_tables 0 [])).

Lemma repositories_keep_schema_witness :
  size (t_users (db_tables sample_bootstrap)) = 1 /\
  wf_tables (db_tables sample_bootstrap) /\ grants_grantable (db_tables sample_bootstrap).
Proof.
  split; [reflexivity|]. apply (repositories_keep_schema 0 []).
  apply rtc_once, (db_step_op _ (UserRepository.CreateFirstUser sample_user)
    (fst (UserRepository.CreateFirstUser sample_user (MkDb empty_tables 0 [])))); [constructor|].
  apply surjective_pairing.
Defined.

(** ** The life cycle of an upload *)

Section Uploads.
Import MultipartRepository ObjectRepository.

Definition upload_status (id : string) (t : Tables) : option string := mr_status <$> t_uploads t !! id.

(** An upload is claimed once. [ClaimUpload] succeeds only on an active
    upload, which it leaves in the claimed state, touching nothing else; and if it
    fails the tables are as they were. So of two claims of one upload, completions or
    abortions, in any order, at most one succeeds while no one reactivates it. *)
Theorem ClaimUpload_spec id status s :
  wp (ClaimUpload id status) (fun r s' =>
    match r with
    | Ok _ =>
        upload_status id (db_tables s) = Some MultipartUploadStatusActive /\
        upload_status id (db_tables s') = Some status /\ status <> MultipartUploadStatusActive /\
        (forall id', id' <> id -> t_uploads (db_tables s') !! id' = t_uploads (db_tables s) !! id') /\
        t_objects (db_tables s') = t_objects (db_tables s) /\ t_parts (db_tables s') = t_parts (db_tables s)
    | Err e =>
        db_tables s' = db_tables s /\
        (e = ErrMultipartUploadNotFound -> upload_status id (db_tables s) = None) /\
        (e = ErrUploadAlreadyClaimed -> upload_status id (db_tables s) <> Some MultipartUploadStatusActive)
    end) s.
Proof.
  unfold ClaimUpload.
  destruct (negb (validMultipartUploadStatus status) || String.eqb status MultipartUploadStatusActive) eqn:Ev;
    [by apply wp_fail|].
  apply orb_false_iff in Ev as [Hv Hna]. apply negb_false_iff in Hv. apply String.eqb_neq in Hna.
  apply wp_in_transaction_full; [done|]. intros fs.
  apply wp_bind, wp_query; [done|]. intros fs1. cbn [db_tables].
  destruct (t_uploads (db_tables s) !! id) as [u|] eqn:Eu; cbn [fmap option_fmap option_map].
  2: { apply wp_fail. unfold upload_status. by rewrite Eu. }
  destruct (String.eqb_spec (mr_status u) MultipartUploadStatusActive) as [Ea|Ea]; cbn [negb].
  2: { apply wp_fail. unfold upload_status. rewrite Eu. split; [done|]. split; [done|].
       intros _ [= ?]. done. }
  apply wp_bind, wp_time_now. apply wp_bind, wp_exec; [done|]. intros fs2. cbn [db_tables db_clock].
  unfold update_upload_status. rewrite Eu. change (valid_status status) with (validMultipartUploadStatus status).
  rewrite Hv. cbn [negb]. apply wp_commit; [|intros fs3].
  { intros e fs3 He. split; [done|]. unfold upload_status. rewrite Eu. cbn.
    destruct He as [->| ->]; done. }
  unfold upload_status. cbn. rewrite Eu, lookup_insert_eq. cbn. rewrite Ea. split_and!; try done.
  intros id' Hne. by rewrite lookup_insert_ne.
Qed.

(** What [CompleteUpload] does. *)
Definition complete_result (obj : Object) (id ifMatch ifNoneMatch : string) (s : Db) (r : result string)
    (s' : Db) : Prop :=
  let current := t_objects (db_tables s) !! (o_bucket_name obj, o_key obj) in
  match r with
  | Ok old =>
      upload_status id (db_tables s) = Some MultipartUploadStatusCompleting /\
      ObjectSpec.preconditions_hold current ifMatch ifNoneMatch /\
      old = match current with Some row => or_storage_path row | None => "" end /\
      upload_status id (db_tables s') = None /\
      (forall n, t_parts (db_tables s') !! (id, n) = None) /\
      t_objects (db_tables s') =
        t_objects (ObjectSpec.put_object obj (db_clock s) (db_tables s)) /\
      (forall id', id' <> id ->
        t_uploads (db_tables s') !! id' = t_uploads (db_tables s) !! id' /\
        forall n, t_parts (db_tables s') !! (id', n) = t_parts (db_tables s) !! (id', n)) /\
      t_buckets (db_tables s') = t_buckets (db_tables s)
  | Err _ => db_tables s' = db_tables s
  end.

Lemma wp_CompleteUpload obj id ifMatch ifNoneMatch s :
  wp (CompleteUpload obj id ifMatch ifNoneMatch) (complete_result obj id ifMatch ifNoneMatch s) s.
Proof.
  unfold CompleteUpload, complete_result. apply wp_in_transaction; [done|]. intros fs.
  apply wp_ok_bind. unfold requireCompletingUpload. apply wp_ok_bind, wp_ok_query. intros fs1.
  cbn [db_tables]. destruct (t_uploads (db_tables s) !! id) as [u|] eqn:Eu; cbn [fmap option_fmap option_map];
    [|apply wp_ok_fail].
  destruct (String.eqb_spec (mr_status u) MultipartUploadStatusCompleting) as [Es|]; cbn [negb];
    [|apply wp_ok_fail].
  apply wp_ok_ret, wp_ok_bind, ObjectSpec.wp_ok_loadObjectVersion. intros fs2. cbn [db_tables].
  apply wp_ok_bind, wp_ok_lift_result. intros [] Hpre%ObjectSpec.checkWritePreconditions_spec.
  apply wp_ok_bind, ObjectSpec.wp_ok_upsertObject. intros fs3.
  apply wp_ok_bind, wp_ok_exec. cbn [db_tables db_clock]. intros n t fs4 Edel.
  apply wp_ok_bind, wp_ok_commit. intros fs5. apply wp_ok_ret. cbn [db_tables].
  unfold delete_upload in Edel. change (t_uploads (ObjectSpec.put_object _ _ ?t)) with (t_uploads t) in Edel.
  rewrite Eu in Edel. injection Edel as <- <-. unfold upload_status.
  cbn [db_tables t_uploads t_parts t_objects with_uploads with_parts ObjectSpec.put_object with_objects].
  rewrite Eu, lookup_delete_eq. cbn. rewrite Es.
  split_and!; [done|done|by destruct (t_objects _ !! _)|done| |done| |done].
  - intros k. apply map_lookup_filter_None. right. intros r _. simpl. tauto.
  - intros id' Hne. split; [by rewrite lookup_delete_ne|]. intros k.
    rewrite map_lookup_filter. destruct (t_parts (db_tables s) !! (id', k)); [|done]. simpl.
    by rewrite option_guard_True.
Qed.

(** Completion is atomic and exclusive. [CompleteUpload] succeeds only while
    the upload is claimed for completion and the preconditions hold of the object
    stored at that moment; it then stores the object and removes the upload with all
    its parts in one step, so that no second completion of it can succeed. When it
    fails, the tables are as they were. *)
Theorem CompleteUpload_spec obj id ifMatch ifNoneMatch s :
  wp (CompleteUpload obj id ifMatch ifNoneMatch) (fun r s' =>
    let current := t_objects (db_tables s) !! (o_bucket_name obj, o_key obj) in
    match r with
    | Ok old =>
        upload_status id (db_tables s) = Some MultipartUploadStatusCompleting /\
        ObjectSpec.preconditions_hold current ifMatch ifNoneMatch /\
        old = match current with Some row => or_storage_path row | None => "" end /\
        upload_status id (db_tables s') = None /\
        (forall n, t_parts (db_tables s') !! (id, n) = None) /\
        t_objects (db_tables s') =
          t_objects (ObjectSpec.put_object obj (db_clock s) (db_tables s)) /\
        (forall id', id' <> id ->
          t_uploads (db_tables s') !! id' = t_uploads (db_tables s) !! id' /\
          forall n, t_parts (db_tables s') !! (id', n) = t_parts (db_tables s) !! (id', n)) /\
        t_buckets (db_tables s') = t_buckets (db_tables s)
    | Err _ => db_tables s' = db_tables s
    end) s.
Proof. apply wp_CompleteUpload. Qed.

(** What [AddPart] does. *)
Definition add_part_result (part : MultipartPart) (s : Db) (r : result string) (s' : Db) : Prop :=
  let k := (p_upload_id part, p_part_number part) in
  match r with
  | Ok old =>
      upload_status (p_upload_id part) (db_tables s) = Some MultipartUploadStatusActive /\
      old = match t_parts (db_tables s) !! k with Some row => pr_storage_path row | None => "" end /\
      (exists row, t_parts (db_tables s') !! k = Some row /\
         pr_storage_path row = p_storage_path part /\ pr_size row = p_size part /\
         pr_etag row = p_etag part) /\
      (forall k', k' <> k -> t_parts (db_tables s') !! k' = t_parts (db_tables s) !! k') /\
      t_uploads (db_tables s') = t_uploads (db_tables s) /\
      t_objects (db_tables s') = t_objects (db_tables s) /\
      t_buckets (db_tables s') = t_buckets (db_tables s)
  | Err _ => db_tables s' = db_tables s
  end.

Lemma wp_AddPart part s : wp (AddPart part) (add_part_result part s) s.
Proof.
  unfold AddPart, add_part_result. apply wp_in_transaction; [done|]. intros fs.
  apply wp_ok_bind, wp_ok_query. intros fs1. cbn [db_tables].
  destruct (t_uploads (db_tables s) !! p_upload_id part) as [u|] eqn:Eu;
    cbn [fmap option_fmap option_map]; [|apply wp_ok_fail].
  destruct (String.eqb_spec (mr_status u) MultipartUploadStatusActive) as [Es|]; cbn [negb];
    [|apply wp_ok_fail].
  apply wp_ok_bind, wp_ok_query. intros fs2. cbn [db_tables db_clock].
  apply wp_ok_bind, wp_ok_time_now. cbn [db_tables db_clock].
  apply wp_ok_bind, wp_ok_exec. cbn [db_tables db_clock]. intros n t fs4 Eup.
  apply wp_ok_bind, wp_ok_commit. intros fs5. apply wp_ok_ret. cbn [db_tables].
  unfold upsert_part in Eup. rewrite Eu in Eup. rewrite bool_decide_true in Eup by done. simplify_eq/=.
  unfold upload_status. rewrite Eu. cbn. rewrite Es. split_and!; try done.
  - eexists. by rewrite lookup_insert_eq.
  - intros k' Hne. by rewrite lookup_insert_ne.
Qed.

(** Parts are added to active uploads only. When [AddPart] succeeds, the
    upload was active, the stored part is the new one, and the returned path is the
    one the part had before - the file that has become garbage; every other part, every
    upload and every object is as before. When it fails, the tables are as they were. *)
Theorem AddPart_spec part s :
  wp (AddPart part) (fun r s' =>
    let k := (p_upload_id part, p_part_number part) in
    match r with
    | Ok old =>
        upload_status (p_upload_id part) (db_tables s) = Some MultipartUploadStatusActive /\
        old = match t_parts (db_tables s) !! k with Some row => pr_storage_path row | None => "" end /\
        (exists row, t_parts (db_tables s') !! k = Some row /\
           pr_storage_path row = p_storage_path part /\ pr_size row = p_size part /\
           pr_etag row = p_etag part) /\
        (forall k', k' <> k -> t_parts (db_tables s') !! k' = t_parts (db_tables s) !! k') /\
        t_uploads (db_tables s') = t_uploads (db_tables s) /\
        t_objects (db_tables s') = t_objects (db_tables s) /\
        t_buckets (db_tables s') = t_buckets (db_tables s)
    | Err _ => db_tables s' = db_tables s
    end) s.
Proof. apply wp_AddPart. Qed.
End Uploads.
