(* ===== verification/GoTime.v ===== *)
(** * Go's [time]: the layouts that the server formats, in UTC *)

From S2P Require Import Prelude GoStrings Schema.

#[local] Open Scope Z_scope.

Definition second : Z := 1000000000.
Definition seconds_of_day (t : time) : Z := (t / second) mod 86400.

(** Year, month and day of a number of days since 1 January of year 1, by eras of
    400 years that start in March. *)
Definition civil (days : Z) : Z * Z * Z :=
  let z := days + 306 in
  let doe := z mod 146097 in
  let yoe := (doe - doe / 1460 + doe / 36524 - doe / 146096) / 365 in
  let doy := doe - (365 * yoe + yoe / 4 - yoe / 100) in
  let mp := (5 * doy + 2) / 153 in
  let m := if mp <? 10 then mp + 3 else mp - 9 in
  (yoe + z / 146097 * 400 + (if m <=? 2 then 1 else 0), m, doy - (153 * mp + 2) / 5 + 1).

Definition digits (width : nat) (z : Z) : string :=
  let s := format_int z in
  foldr String.append s (repeat "0" (width - String.length s)).

Definition date_text (t : time) : string :=
  let '(y, m, d) := civil (t / second / 86400) in digits 4 y +:+ "-" +:+ digits 2 m +:+ "-" +:+ digits 2 d.
Definition clock_text (t : time) : string :=
  let s := seconds_of_day t in
  digits 2 (s / 3600) +:+ ":" +:+ digits 2 (s / 60 mod 60) +:+ ":" +:+ digits 2 (s mod 60).

(** [time.RFC3339] *)
Definition format_RFC3339 (t : time) : string := date_text t +:+ "T" +:+ clock_text t +:+ "Z".
(** ["2006-01-02T15:04:05.000Z"] *)
Definition format_millis (t : time) : string :=
  date_text t +:+ "T" +:+ clock_text t +:+ "." +:+ digits 3 (t mod second / 1000000) +:+ "Z".

Definition weekdays : list string := ["Mon"; "Tue"; "Wed"; "Thu"; "Fri"; "Sat"; "Sun"].
Definition months : list string :=
  ["Jan"; "Feb"; "Mar"; "Apr"; "May"; "Jun"; "Jul"; "Aug"; "Sep"; "Oct"; "Nov"; "Dec"].

(** [http.TimeFormat]: 1 January of year 1 was a Monday. *)
Definition format_http (t : time) : string :=
  let days := t / second / 86400 in
  let '(y, m, d) := civil days in
  nth (Z.to_nat (days mod 7)) weekdays "" +:+ ", " +:+ digits 2 d +:+ " " +:+ nth (Z.to_nat (m - 1)) months ""
  +:+ " " +:+ digits 4 y +:+ " " +:+ clock_text t +:+ " GMT".

(** The number of seconds from the zero time to the Unix epoch. *)
Definition unix_epoch : Z := 62135596800.
(** A 64-bit integer that wraps around. *)
Definition wrap64 (z : Z) : Z := (z + 2 ^ 63) mod 2 ^ 64 - 2 ^ 63.
(** [time.Unix(sec, 0)] and [t.Unix()] *)
Definition time_of_unix (sec : Z) : time := wrap64 (sec + unix_epoch) * second.
Definition unix_of_time (t : time) : Z := wrap64 (t / second - unix_epoch).
(** [t.Sub(u)], a [time.Duration] that saturates. *)
Definition time_sub (t u : time) : Z := Z.max min_int64 (Z.min max_int64 (t - u)).

Lemma wrap64_id z : min_int64 <= z <= max_int64 -> wrap64 z = z.
Proof. unfold wrap64, min_int64, max_int64. intros H. rewrite Z.mod_small by lia. lia. Qed.

Lemma wrap64_bounds z : min_int64 <= wrap64 z <= max_int64.
Proof.
  unfold wrap64, min_int64, max_int64. pose proof (Z.mod_pos_bound (z + 2 ^ 63) (2 ^ 64)). lia.
Qed.

Lemma wrap64_sub_add z k : min_int64 <= z <= max_int64 -> wrap64 (wrap64 (z + k) - k) = z.
Proof.
  intros H. unfold wrap64, min_int64, max_int64 in *.
  replace ((z + k + 2 ^ 63) mod 2 ^ 64 - 2 ^ 63 - k + 2 ^ 63) with ((z + k + 2 ^ 63) mod 2 ^ 64 - k) by lia.
  rewrite Zminus_mod_idemp_l. replace (z + k + 2 ^ 63 - k) with (z + 2 ^ 63) by lia.
  rewrite Z.mod_small by lia. lia.
Qed.

Lemma unix_round_trip sec : min_int64 <= sec <= max_int64 -> unix_of_time (time_of_unix sec) = sec.
Proof.
  intros H. unfold unix_of_time, time_of_unix. rewrite Z.div_mul by (unfold second; lia).
  by apply wrap64_sub_add.
Qed.

Example format_epoch : format_RFC3339 (time_of_unix 0) = "1970-01-01T00:00:00Z".
Proof. reflexivity. Qed.
Example format_leap : format_http (time_of_unix 951782399) = "Mon, 28 Feb 2000 23:59:59 GMT".
Proof. reflexivity. Qed.
Example format_leap_day : format_millis (time_of_unix 1709210096 + 7890000) = "2024-02-29T12:34:56.007Z".
Proof. reflexivity. Qed.
