(* ===== verification/GoParse.v ===== *)
(** * What the program parses: [time.Parse], [flag], [strconv], durations

    [time.Parse] of the layouts [20060102T150405Z], with and without milliseconds, and
    [time.RFC1123], with its range checks; then flags of the command line,
    [strconv.ParseBool] and [time.ParseDuration]. *)

From Stdlib Require Import SpecFloat.
From S2P Require Import Prelude GoStrings Encoding Schema GoTime.

#[local] Open Scope Z_scope.

(** ** Dates *)

(** The number of days since 1 January of year 1, the inverse of [civil]. *)
Definition days_of_civil (y m d : Z) : Z :=
  let y := if m <=? 2 then y - 1 else y in
  let yoe := y mod 400 in
  let mp := if m <=? 2 then m + 9 else m - 3 in
  let doy := (153 * mp + 2) / 5 + d - 1 in
  y / 400 * 146097 + (yoe * 365 + yoe / 4 - yoe / 100 + doy) - 306.

Definition is_leap (y : Z) : bool := (y mod 4 =? 0) && (negb (y mod 100 =? 0) || (y mod 400 =? 0)).
Definition days_in (m y : Z) : Z :=
  if m =? 2 then (if is_leap y then 29 else 28)
  else if (m =? 4) || (m =? 6) || (m =? 9) || (m =? 11) then 30 else 31.

Definition time_of_date (y m d hour minute sec ns : Z) : time :=
  (days_of_civil y m d * 86400 + hour * 3600 + minute * 60 + sec) * second + ns.

(** ** The parser *)

#[local] Notation "'some' x ':=' e 'in' k" :=
  (match e with Some x => k | None => None end)
  (at level 10, x pattern, e at level 200, k at level 200) : fbs_scope.

Definition is_digit (a : ascii) : bool := between 48 57 a.
Definition starts_digit (s : string) : bool := match s with String a _ => is_digit a | EmptyString => false end.

(** Exactly [n] digits. *)
Definition take_digits (n : nat) (s : string) : option (Z * string) :=
  let d := take_bytes n s in
  if Nat.eqb (String.length d) n then (fun z => (z, drop_bytes n s)) <$> parse_digits 0 d else None.

(** [getnum]: two digits, or one when [fixed] is false. *)
Definition getnum (fixed : bool) (s : string) : option (Z * string) :=
  if negb (starts_digit s) then None
  else if starts_digit (drop_bytes 1 s) then take_digits 2 s
  else if fixed then None else take_digits 1 s.

Fixpoint cutspace (s : string) : string :=
  match s with String " " r => cutspace r | _ => s end.

(** [skip]: a space of the layout stands for any number of spaces. *)
Fixpoint skip (value prefix : string) : option string :=
  match prefix with
  | EmptyString => Some value
  | String " " p =>
      match value with
      | EmptyString => skip "" p
      | String " " _ => skip (cutspace value) p
      | _ => None
      end
  | String c p =>
      match value with
      | String v r => if Ascii.eqb v c then skip r p else None
      | EmptyString => None
      end
  end.

(** A time, and the offset of its location in seconds. *)
Abbreviation Timestamp := (time * Z)%type.

(** The checks at the end of [time.Parse]. *)
Definition valid_date (y m d hour minute sec : Z) : bool :=
  (1 <=? m) && (m <=? 12) && (1 <=? d) && (d <=? days_in m y) && (hour <? 24) && (minute <? 60) && (sec <? 60).

(** The layout [20060102T150405]; the hour cannot have one digit, since a digit follows. *)
Definition parse_compact (s : string) : option (Z * Z * Z * Z * Z * Z * string) :=
  some (y, s) := take_digits 4 s in
  some (m, s) := getnum true s in
  some (d, s) := getnum true s in
  some s := skip s "T" in
  some (hour, s) := getnum true s in
  some (minute, s) := getnum true s in
  some (sec, s) := getnum true s in
  if valid_date y m d hour minute sec then Some (y, m, d, hour, minute, sec, s) else None.

(** [time.Parse("20060102T150405Z", s)] for 16 bytes: no room for a fraction is left. *)
Definition parse_amz (s : string) : option time :=
  some (y, m, d, hour, minute, sec, s) := parse_compact s in
  if String.eqb s "Z" then Some (time_of_date y m d hour minute sec 0) else None.

(** The three bytes of a fraction: [atoi] takes a sign. *)
Definition parse_thousandths (s : string) : option Z :=
  match s with
  | String c r =>
      if Ascii.eqb c "+" then parse_digits 0 r
      else if Ascii.eqb c "-" then
        match parse_digits 0 r with Some 0 => Some 0 | _ => None end
      else parse_digits 0 s
  | EmptyString => None
  end.

(** [time.Parse("20060102T150405.000Z", s)] for 20 bytes. *)
Definition parse_amz_millis (s : string) : option time :=
  some (y, m, d, hour, minute, sec, s) := parse_compact s in
  match s with
  | String c r =>
      if negb (Ascii.eqb c "." || Ascii.eqb c ",") then None
      else
        some ms := parse_thousandths (take_bytes 3 r) in
        if String.eqb (drop_bytes 3 r) "Z"
        then Some (time_of_date y m d hour minute sec (ms * 1000000)) else None
  | EmptyString => None
  end.

(** ** [time.RFC1123]: ["Mon, 02 Jan 2006 15:04:05 MST"] *)

(** [lookup]: the names are matched without regard to case. *)
Fixpoint lookup_name (tab : list string) (value : string) (i : Z) : option (Z * string) :=
  match tab with
  | [] => None
  | name :: rest =>
      if String.eqb (to_lower (take_bytes (String.length name) value)) (to_lower name)
      then Some (i, drop_bytes (String.length name) value)
      else lookup_name rest value (i + 1)
  end.

(** The digits that [value] starts with. *)
Fixpoint leading_digits (value : string) : string :=
  match value with
  | String a r => if is_digit a then String a (leading_digits r) else ""
  | EmptyString => ""
  end.

(** A fraction of a second that the layout does not mention; [parseNanoseconds] reads
    at most nine digits. *)
Definition extra_fraction (value : string) : Z * string :=
  match value with
  | String c r =>
      if (Ascii.eqb c "." || Ascii.eqb c ",") && starts_digit r then
        let ds := leading_digits r in
        let nine := take_bytes 9 ds in
        (default 0 (parse_digits 0 nine) * 10 ^ (9 - string_len nine), drop_bytes (String.length ds) r)
      else (0, value)
  | EmptyString => (0, value)
  end.

(** [parseSignedOffset]: the length of a signed hour of at most 23. *)
Definition signed_offset (value : string) : option (Z * nat) :=
  match value with
  | String c r =>
      let ds := leading_digits r in
      if negb (Ascii.eqb c "+" || Ascii.eqb c "-") || String.eqb ds "" then None
      else match parse_digits 0 ds with
           | Some x => if 23 <? x then None
                       else Some ((if Ascii.eqb c "-" then - x else x), S (String.length ds))
           | None => None
           end
  | EmptyString => None
  end.

Fixpoint upper_run (n : nat) (value : string) : nat :=
  match n, value with
  | S n, String a r => if between 65 90 a then S (upper_run n r) else 0%nat
  | _, _ => 0%nat
  end.

(** [parseTimeZone]: the length of the abbreviation. *)
Definition time_zone_len (value : string) : option nat :=
  if Nat.ltb (String.length value) 3 then None
  else if String.eqb (take_bytes 4 value) "ChST" || String.eqb (take_bytes 4 value) "MeST" then Some 4%nat
  else if String.eqb (take_bytes 3 value) "GMT" then
    Some (3 + match signed_offset (drop_bytes 3 value) with Some (_, n) => n | None => 0 end)%nat
  else match signed_offset value with
       | Some (_, n) => Some n
       | None =>
           match upper_run 6 value with
           | 5 => if String.eqb (take_bytes 1 (drop_bytes 4 value)) "T" then Some 5 else None
           | 4 => if String.eqb (take_bytes 1 (drop_bytes 3 value)) "T" || String.eqb (take_bytes 4 value) "WITA"
                  then Some 4 else None
           | 3 => Some 3
           | _ => None
           end%nat
       end.

(** The zone that ends the date. An abbreviation other than UTC has an unknown offset,
    which is taken to be zero, except for that of GMT+n. (The machine's own zone is
    taken to be UTC.) *)
Definition parse_zone (value : string) : option Z :=
  if String.eqb (take_bytes 3 value) "UTC" then
    if String.eqb (drop_bytes 3 value) "" then Some 0 else None
  else match time_zone_len value with
       | None => None
       | Some n =>
           if negb (String.eqb (drop_bytes n value) "") then None
           else if String.eqb (take_bytes 3 value) "GMT" then
             match signed_offset (drop_bytes 3 value) with Some (h, _) => Some (h * 3600) | None => Some 0 end
           else Some 0
       end.

Definition parse_RFC1123 (s : string) : option Timestamp :=
  some (_, s) := lookup_name ["Sun"; "Mon"; "Tue"; "Wed"; "Thu"; "Fri"; "Sat"] s 0 in
  some s := skip s ", " in
  some (d, s) := getnum true s in
  some s := skip s " " in
  some (m, s) := lookup_name months s 1 in
  some s := skip s " " in
  some (y, s) := take_digits 4 s in
  some s := skip s " " in
  some (hour, s) := getnum false s in
  some s := skip s ":" in
  some (minute, s) := getnum true s in
  some s := skip s ":" in
  some (sec, s) := getnum true s in
  let '(ns, s) := extra_fraction s in
  some s := skip s " " in
  some offset := parse_zone s in
  if valid_date y m d hour minute sec then Some (time_of_date y m d hour minute sec ns, offset) else None.

(** ** The layouts that are formatted *)

(** [t.Format("20060102")] and [t.Format("20060102T150405Z")] *)
Definition format_day (t : time) : string :=
  let '(y, m, d) := civil (t / second / 86400) in digits 4 y +:+ digits 2 m +:+ digits 2 d.
Definition format_amz (t : time) : string :=
  let s := seconds_of_day t in
  format_day t +:+ "T" +:+ digits 2 (s / 3600) +:+ digits 2 (s / 60 mod 60) +:+ digits 2 (s mod 60) +:+ "Z".

Example parse_http_date : parse_RFC1123 "Tue, 29 Feb 2000 1:02:03 GMT" = Some (time_of_unix 951786123, 0).
Proof. vm_compute. reflexivity. Qed.
Example parse_leap_day : parse_amz "20240229T123456Z" = Some (time_of_unix 1709210096).
Proof. vm_compute. reflexivity. Qed.
Example parse_no_leap_day : parse_amz "20230229T123456Z" = None.
Proof. vm_compute. reflexivity. Qed.
Example parse_with_millis : parse_amz_millis "20240229T123456.007Z" = Some (time_of_unix 1709210096 + 7000000).
Proof. vm_compute. reflexivity. Qed.

(** ** Formatting and parsing a date *)

(** A property of the first [n] numbers, by evaluation. *)
Fixpoint all_below (P : Z -> bool) (n : nat) (z : Z) : bool :=
  match n with O => true | S n => P z && all_below P n (z + 1) end.

Lemma all_below_spec P n z i : all_below P n z = true -> z <= i < z + Z.of_nat n -> P i = true.
Proof.
  revert z; induction n as [|n IH]; intros z; cbn [all_below]; [lia|].
  intros [Hz Hn]%andb_true_iff Hi. destruct (Z.eq_dec i z) as [->|]; [done|]. apply (IH (z + 1)); [done|lia].
Qed.

(** The year of an era that a day lies in, by the formula of [civil]. *)
Definition year_of_era (doe : Z) : Z := (doe - doe / 1460 + doe / 36524 - doe / 146096) / 365.
Definition year_start (y : Z) : Z := 365 * y + y / 4 - y / 100 + y / 400.

Lemma div_step k x : 0 < k -> 0 <= x -> x / k <= (x + 1) / k <= x / k + 1.
Proof.
  intros Hk Hx. split; [apply Z.div_le_mono; lia|].
  assert (H : (x + 1) / k < x / k + 2); [|lia].
  apply Z.div_lt_upper_bound; [lia|]. pose proof (Z.mod_pos_bound x k). pose proof (Z.div_mod x k). nia.
Qed.

Lemma year_of_era_step x : 0 <= x -> x + 1 < 146097 -> year_of_era x <= year_of_era (x + 1).
Proof.
  intros Hx Hlt. unfold year_of_era. apply Z.div_le_mono; [lia|].
  pose proof (div_step 1460 x). pose proof (div_step 36524 x).
  destruct (Z.eq_dec x 146095) as [->|]; [by vm_compute|].
  rewrite !(Z.div_small _ 146096) by lia. lia.
Qed.

Lemma year_of_era_mono a b : 0 <= a -> a <= b < 146097 -> year_of_era a <= year_of_era b.
Proof.
  intros Ha Hb. replace b with (a + Z.of_nat (Z.to_nat (b - a))) in * by lia.
  induction (Z.to_nat (b - a)) as [|n IH]; [rewrite Z.add_0_r; lia|].
  etrans; [apply IH; lia|]. replace (a + Z.of_nat (S n)) with (a + Z.of_nat n + 1) by lia.
  apply year_of_era_step; lia.
Qed.

(** The formula gives the year whose days surround the day. *)
Lemma year_of_era_spec doe :
  0 <= doe < 146097 ->
  let y := year_of_era doe in 0 <= y < 400 /\ year_start y <= doe < year_start (y + 1).
Proof.
  intros Hdoe. cbv zeta.
  assert (Hends : forall y, 0 <= y < 400 ->
            year_of_era (year_start y) = y /\ year_of_era (year_start (y + 1) - 1) = y /\
            0 <= year_start y < year_start (y + 1) /\ year_start (y + 1) <= 146097).
  { intros y Hy. pose proof (all_below_spec (fun y => (year_of_era (year_start y) =? y) &&
      (year_of_era (year_start (y + 1) - 1) =? y) && (0 <=? year_start y) && (year_start y <? year_start (y + 1))
      && (year_start (y + 1) <=? 146097)) 400 0 y eq_refl ltac:(lia)) as H.
    cbv beta in H. lia. }
  set (y := year_of_era doe).
  assert (Hy : 0 <= y < 400).
  { pose proof (year_of_era_mono 0 doe). pose proof (year_of_era_mono doe 146096).
    change (year_of_era 0) with 0 in *. change (year_of_era 146096) with 399 in *. fold y in H, H0. lia. }
  split; [done|]. destruct (Hends y Hy) as (E1 & E2 & Hr & Hle). split.
  - destruct (Z.le_gt_cases (year_start y) doe) as [|Hlt]; [done|exfalso].
    destruct (Z.eq_dec y 0) as [E|]; [rewrite E in Hlt; change (year_start 0) with 0 in Hlt; lia|].
    destruct (Hends (y - 1)) as (_ & E & _); [lia|]. replace (y - 1 + 1) with y in E by lia.
    pose proof (year_of_era_mono doe (year_start y - 1)). fold y in H. lia.
  - destruct (Z.lt_ge_cases doe (year_start (y + 1))) as [|Hge]; [done|exfalso].
    destruct (Z.eq_dec y 399) as [E|]; [rewrite E in Hge; change (year_start (399 + 1)) with 146097 in Hge; lia|].
    destruct (Hends (y + 1)) as (E & _ & _); [lia|].
    pose proof (year_of_era_mono (year_start (y + 1)) doe). fold y in H. lia.
Qed.

(** Month and day of a day of the year that starts in March. *)
Definition month_of (doy : Z) : Z := let mp := (5 * doy + 2) / 153 in if mp <? 10 then mp + 3 else mp - 9.
Definition day_of (doy : Z) : Z := doy - (153 * ((5 * doy + 2) / 153) + 2) / 5 + 1.

Lemma month_day_spec doy :
  0 <= doy < 366 ->
  let m := month_of doy in let d := day_of doy in
  1 <= m <= 12 /\ 1 <= d /\
  (153 * (if m <=? 2 then m + 9 else m - 3) + 2) / 5 + d - 1 = doy /\
  (m = 2 -> d <= if doy =? 365 then 29 else 28) /\
  (m <> 2 -> d <= if (m =? 4) || (m =? 6) || (m =? 9) || (m =? 11) then 30 else 31).
Proof.
  intros Hd. cbv zeta.
  pose proof (all_below_spec (fun doy => let m := month_of doy in let d := day_of doy in
    (1 <=? m) && (m <=? 12) && (1 <=? d) &&
    ((153 * (if m <=? 2 then m + 9 else m - 3) + 2) / 5 + d - 1 =? doy) &&
    (if m =? 2 then d <=? (if doy =? 365 then 29 else 28)
     else d <=? (if (m =? 4) || (m =? 6) || (m =? 9) || (m =? 11) then 30 else 31))) 366 0 doy eq_refl
    ltac:(lia)) as H.
  cbv beta zeta in H. rewrite !andb_true_iff in H. destruct H as ((((H1 & H2) & H3) & H4) & H5).
  destruct (Z.eqb_spec (month_of doy) 2) as [E|E]; split_and!; (lia || (intros ?; lia)).
Qed.

Lemma year_start_next y :
  0 <= y < 400 -> year_start (y + 1) - year_start y = if is_leap (y + 1) then 366 else 365.
Proof.
  intros Hy. pose proof (all_below_spec (fun y =>
    year_start (y + 1) - year_start y =? (if is_leap (y + 1) then 366 else 365)) 400 0 y eq_refl ltac:(lia)) as H.
  cbv beta in H. lia.
Qed.

Lemma is_leap_era y era : is_leap (y + era * 400) = is_leap y.
Proof.
  unfold is_leap. replace (y + era * 400) with (y + (era * 100) * 4) at 1 by lia.
  replace (y + era * 400) with (y + (era * 4) * 100) at 1 by lia. by rewrite !Z.mod_add.
Qed.

(** [civil] gives a date of the calendar, and [days_of_civil] gives the day back. *)
Lemma civil_spec days :
  let '(y, m, d) := civil days in
  days_of_civil y m d = days /\ 1 <= m <= 12 /\ 1 <= d <= days_in m y.
Proof.
  unfold civil. cbv zeta. set (z := days + 306). set (doe := z mod 146097).
  assert (Hdoe : 0 <= doe < 146097) by (apply Z.mod_pos_bound; lia).
  fold (year_of_era doe). destruct (year_of_era_spec doe Hdoe) as [Hy [Hlo Hhi]].
  set (y := year_of_era doe) in *. pose proof (year_start_next y Hy) as Hlen.
  replace (doe - (365 * y + y / 4 - y / 100)) with (doe - year_start y)
    by (unfold year_start; rewrite (Z.div_small y 400) by lia; lia).
  set (doy := doe - year_start y). assert (Hdoy : 0 <= doy < 366) by (destruct (is_leap (y + 1)); lia).
  fold (month_of doy) (day_of doy).
  destruct (month_day_spec doy Hdoy) as (Hm & Hd & Eback & H2 & Hn2).
  set (m := month_of doy) in *. set (d := day_of doy) in *.
  assert (Eyear : (if m <=? 2 then y + z / 146097 * 400 + (if m <=? 2 then 1 else 0) - 1
                   else y + z / 146097 * 400 + (if m <=? 2 then 1 else 0)) = y + z / 146097 * 400)
    by (destruct (m <=? 2); lia).
  split; [|split; [done|split; [done|]]].
  - unfold days_of_civil. rewrite Eyear, Eback.
    rewrite Z.div_add, Z.mod_add, (Z.div_small y), (Z.mod_small y) by lia.
    pose proof (Z.div_mod z 146097). unfold doy, year_start in *. rewrite (Z.div_small y 400) in * by lia. lia.
  - unfold days_in. destruct (Z.eqb_spec m 2) as [E|E]; [|by apply Hn2].
    specialize (H2 E). replace (if m <=? 2 then 1 else 0) with 1 by (destruct (Z.leb_spec m 2); lia).
    replace (y + z / 146097 * 400 + 1) with (y + 1 + z / 146097 * 400) by lia. rewrite is_leap_era.
    destruct (Z.eqb_spec doy 365); [|destruct (is_leap (y + 1)); lia].
    destruct (is_leap (y + 1)); lia.
Qed.

(** ** Formatting and parsing a number of fixed width *)

Lemma format_go_length n z acc k :
  0 <= z < 10 ^ Z.of_nat k -> (1 <= k)%nat ->
  (String.length (format_nat_go n z acc) <= k + String.length acc)%nat.
Proof.
  revert z acc k; induction n as [|n IH]; intros z acc k Hz Hk; cbn [format_nat_go]; [lia|]. cbv zeta.
  destruct (Z.ltb_spec z 10); [cbn [String.length]; lia|].
  destruct k as [|[|k]]; [lia|change (10 ^ Z.of_nat 1) with 10 in Hz; lia|].
  etrans; [apply (IH _ _ (S k)); [|lia]|cbn [String.length]; lia].
  rewrite Nat2Z.inj_succ, Z.pow_succ_r in Hz by lia.
  split; [apply Z.div_pos; lia|apply Z.div_lt_upper_bound; lia].
Qed.

Lemma zeros_length n s : String.length (foldr String.append s (repeat "0" n)) = (n + String.length s)%nat.
Proof. induction n as [|n IH]; [done|]. simpl. by rewrite IH. Qed.

Lemma parse_zeros n s : parse_digits 0 (foldr String.append s (repeat "0" n)) = parse_digits 0 s.
Proof.
  induction n as [|n IH]; [done|]. cbn [repeat foldr String.append parse_digits].
  change (digit_val "0") with (Some 0). exact IH.
Qed.

Lemma digits_spec w z :
  0 <= z < 10 ^ Z.of_nat w -> (1 <= w <= 20)%nat ->
  String.length (digits w z) = w /\ parse_digits 0 (digits w z) = Some z.
Proof.
  intros Hz Hw. unfold digits, format_int. rewrite (proj2 (Z.ltb_ge z 0)) by lia.
  rewrite zeros_length, parse_zeros, parse_format_go.
  - pose proof (format_go_length 20 z "" w Hz ltac:(lia)) as Hl. cbn [String.length] in Hl. split; [lia|done].
  - split; [lia|]. eapply Z.lt_le_trans; [apply Hz|]. apply Z.pow_le_mono_r; lia.
Qed.

Lemma take_digits_append w s rest :
  String.length s = w -> take_digits w (s +:+ rest) = (fun z => (z, rest)) <$> parse_digits 0 s.
Proof. intros <-. unfold take_digits. by rewrite take_bytes_append, drop_bytes_append, Nat.eqb_refl. Qed.

Lemma take_digits_format w z rest :
  0 <= z < 10 ^ Z.of_nat w -> (1 <= w <= 20)%nat -> take_digits w (digits w z +:+ rest) = Some (z, rest).
Proof. intros Hz Hw. destruct (digits_spec w z Hz Hw) as [Hl Hp]. by rewrite take_digits_append, Hp. Qed.

Lemma parse_digits_head acc a s z : parse_digits acc (String a s) = Some z -> is_digit a = true.
Proof. cbn [parse_digits]. unfold digit_val, is_digit. by destruct (between 48 57 a). Qed.

Lemma getnum_format z rest : 0 <= z < 100 -> getnum true (digits 2 z +:+ rest) = Some (z, rest).
Proof.
  intros Hz. pose proof (take_digits_format 2 z rest) as Ht. destruct (digits_spec 2 z) as [Hl Hp]; [lia..|].
  destruct (digits 2 z) as [|a [|b [|]]]; try done. unfold getnum.
  pose proof (parse_digits_head _ _ _ _ Hp) as Ha. cbn [String.append starts_digit drop_bytes].
  assert (Hb : is_digit b = true).
  { revert Hp. cbn [parse_digits]. unfold is_digit, digit_val. destruct (between 48 57 a), (between 48 57 b); done. }
  rewrite Ha, Hb. cbn [negb]. apply Ht; simpl; lia.
Qed.

Definition year_of (t : time) : Z := (civil (t / second / 86400)).1.1.

Lemma clock_parts s : 0 <= s < 86400 ->
  0 <= s / 3600 < 24 /\ 0 <= s / 60 mod 60 < 60 /\ 0 <= s mod 60 < 60 /\
  s / 3600 * 3600 + s / 60 mod 60 * 60 + s mod 60 = s.
Proof.
  intros Hs. assert (Hd : s / 3600 = s / 60 / 60) by (by rewrite Z.div_div).
  pose proof (Z.div_mod s 60). pose proof (Z.div_mod (s / 60) 60). pose proof (Z.mod_pos_bound s 60).
  pose proof (Z.mod_pos_bound (s / 60) 60).
  assert (0 <= s / 3600 < 24) by (split; [apply Z.div_pos; lia|apply Z.div_lt_upper_bound; lia]). lia.
Qed.

(** What [Format] writes, [time.Parse] reads, to the second. *)
Lemma parse_format_amz t :
  0 <= year_of t < 10000 -> parse_amz (format_amz t) = Some (t / second * second).
Proof.
  intros Hy. unfold format_amz, format_day, parse_amz, parse_compact, year_of in *.
  pose proof (civil_spec (t / second / 86400)) as Hc. destruct (civil _) as [[y m] d].
  destruct Hc as (Hdays & Hm & Hd). cbn [fst] in Hy.
  assert (Hd31 : days_in m y <= 31) by (unfold days_in; repeat case_match; lia).
  destruct (clock_parts (seconds_of_day t)) as (Hh & Hmi & Hs & Eclock); [apply Z.mod_pos_bound; lia|].
  rewrite !append_assoc, take_digits_format by (simpl; lia). rewrite !getnum_format by lia.
  cbn [String.append skip]. rewrite Ascii.eqb_refl, !getnum_format by lia.
  unfold valid_date. rewrite !(proj2 (Z.leb_le _ _)), !(proj2 (Z.ltb_lt _ _)) by lia. cbn [andb].
  rewrite String.eqb_refl. f_equal. unfold time_of_date. rewrite Hdays.
  pose proof (Z.div_mod (t / second) 86400). unfold seconds_of_day in *. lia.
Qed.

Lemma format_amz_length t : 0 <= year_of t < 10000 -> String.length (format_amz t) = 16%nat.
Proof.
  intros Hy. unfold format_amz, format_day, year_of in *.
  pose proof (civil_spec (t / second / 86400)) as Hc. destruct (civil _) as [[y m] d].
  destruct Hc as (_ & Hm & Hd). cbn [fst] in Hy.
  assert (Hd31 : days_in m y <= 31) by (unfold days_in; repeat case_match; lia).
  destruct (clock_parts (seconds_of_day t)) as (Hh & Hmi & Hs & _); [apply Z.mod_pos_bound; lia|].
  rewrite !length_append, (proj1 (digits_spec 4 y ltac:(simpl; lia) ltac:(lia))).
  repeat match goal with |- context [digits 2 ?z] => rewrite (proj1 (digits_spec 2 z ltac:(simpl; lia) ltac:(lia))) end.
  done.
Qed.

Lemma format_day_truncated t : format_day (t / second * second) = format_day t.
Proof. unfold format_day. by rewrite Z.div_mul. Qed.

Lemma format_amz_truncated t : format_amz (t / second * second) = format_amz t.
Proof. unfold format_amz, seconds_of_day. by rewrite format_day_truncated, Z.div_mul. Qed.

Lemma parse_digits_class acc s z : parse_digits acc s = Some z -> forallb is_digit (String.list_ascii_of_string s) = true.
Proof.
  revert acc; induction s as [|a s IH]; intros acc; [done|]. cbn. unfold digit_val, is_digit in *.
  destruct (between 48 57 a); [|done]. apply IH.
Qed.

(** A day is eight digits. *)
Lemma format_day_digits t :
  0 <= year_of t < 10000 ->
  String.length (format_day t) = 8%nat /\ forallb is_digit (String.list_ascii_of_string (format_day t)) = true.
Proof.
  intros Hy. unfold format_day, year_of in *.
  pose proof (civil_spec (t / second / 86400)) as Hc. destruct (civil _) as [[y m] d].
  destruct Hc as (_ & Hm & Hd). cbn [fst] in Hy.
  assert (Hd31 : days_in m y <= 31) by (unfold days_in; repeat case_match; lia).
  destruct (digits_spec 4 y) as [Ly Py]; [simpl; lia..|]. destruct (digits_spec 2 m) as [Lm Pm]; [simpl; lia..|].
  destruct (digits_spec 2 d) as [Ld Pd]; [simpl; lia..|].
  split; [rewrite !length_append; lia|].
  apply parse_digits_class in Py, Pm, Pd. by rewrite !forallb_append, Py, Pm, Pd.
Qed.

(** * Go's [flag], [strconv.ParseBool] and [time.ParseDuration]

    What reading the configuration from the command line and the environment needs. *)

(** [strconv.ParseBool] *)
Definition ParseBool (s : string) : option bool :=
  if existsb (String.eqb s) ["1"; "t"; "T"; "TRUE"; "true"; "True"] then Some true
  else if existsb (String.eqb s) ["0"; "f"; "F"; "FALSE"; "false"; "False"] then Some false
  else None.

(** ** [time.ParseDuration] *)

(** A [float64]; conversion from an integer rounds to the nearest, ties to even. *)
Definition to_float (z : Z) : spec_float := binary_normalize 53 1024 z 0 false.
Definition float_add : spec_float -> spec_float -> spec_float := SFadd 53 1024.
Definition float_mul : spec_float -> spec_float -> spec_float := SFmul 53 1024.
Definition float_div : spec_float -> spec_float -> spec_float := SFdiv 53 1024.

(** The conversion to an integer: towards zero. *)
Definition float_trunc (x : spec_float) : Z :=
  match x with
  | S754_finite negative m e => if negative then - Z.shiftl (Zpos m) e else Z.shiftl (Zpos m) e
  | _ => 0
  end.

(** The units, with the micro sign and the Greek letter mu. *)
Definition micro_sign : string := String "194" (String "181" "s").
Definition greek_mu : string := String "206" (String "188" "s").
Definition unitMap : list (string * Z) :=
  [("ns", 1); ("us", 1000); (micro_sign, 1000); (greek_mu, 1000); ("ms", 1000000); ("s", second);
   ("m", 60 * second); ("h", 3600 * second)].

(** [leadingInt]: [None] is an overflow. *)
Fixpoint leadingInt (x : Z) (s : string) : option (Z * string) :=
  match s with
  | String a r =>
      match digit_val a with
      | None => Some (x, s)
      | Some d =>
          if 2 ^ 63 / 10 <? x then None
          else let x := x * 10 + d in if 2 ^ 63 <? x then None else leadingInt x r
      end
  | EmptyString => Some (x, "")
  end.

(** [leadingFraction]: the digits that fit, and ten to their number. The scale is a power
    of ten below [10 ^ 20], which a [float64] holds exactly. *)
Fixpoint leadingFraction (x scale : Z) (overflow : bool) (s : string) : Z * Z * string :=
  match s with
  | String a r =>
      match digit_val a with
      | None => (x, scale, s)
      | Some d =>
          if overflow || ((2 ^ 63 - 1) / 10 <? x) then leadingFraction x scale true r
          else let y := x * 10 + d in
               if 2 ^ 63 <? y then leadingFraction x scale true r
               else leadingFraction y (scale * 10) false r
      end
  | EmptyString => (x, scale, "")
  end.

(** The bytes up to a digit or a point. *)
Fixpoint unit_text (s : string) : string :=
  match s with
  | String a r => if Ascii.eqb a "." || is_digit a then "" else String a (unit_text r)
  | EmptyString => ""
  end.

Definition fraction_value (f unit scale : Z) : Z :=
  float_trunc (float_mul (to_float f) (float_div (to_float unit) (to_float scale))).

(** One round of the loop: a number and its unit, in nanoseconds, and the rest. *)
Definition duration_part (s : string) : option (Z * string) :=
  if negb (starts_digit s || has_prefix s ".") then None
  else
    '(v, s1) ← leadingInt 0 s;
    let pre := negb (String.length s1 =? String.length s)%nat in
    let '(f, scale, post, s2) :=
      match s1 with
      | String "." r => let '(f, scale, r') := leadingFraction 0 1 false r in
                        (f, scale, negb (String.length r' =? String.length r)%nat, r')
      | _ => (0, 1, false, s1)
      end in
    if negb pre && negb post then None
    else
      let u := unit_text s2 in
      if String.eqb u "" then None
      else
        '(_, unit) ← find (fun entry => String.eqb entry.1 u) unitMap;
        if 2 ^ 63 / unit <? v then None
        else
          let v := v * unit in
          let v' := if 0 <? f then v + fraction_value f unit scale else v in
          if (0 <? f) && (2 ^ 63 <? v') then None
          else Some (v', drop_bytes (String.length u) s2).

(** The loop; the sum wraps at 64 bits before it is compared. Each round reads a byte at
    least. *)
Fixpoint duration_loop (fuel : nat) (d : Z) (s : string) : option Z :=
  match fuel with
  | O => None
  | S fuel' =>
      if String.eqb s "" then Some d
      else
        '(v, s) ← duration_part s;
        let d := (d + v) mod 2 ^ 64 in
        if 2 ^ 63 <? d then None else duration_loop fuel' d s
  end.

Definition ParseDuration (s : string) : option Z :=
  let '(neg, s) :=
    match s with
    | String "-" r => (true, r)
    | String "+" r => (false, r)
    | _ => (false, s)
    end in
  if String.eqb s "0" then Some 0
  else if String.eqb s "" then None
  else
    d ← duration_loop (S (String.length s)) 0 s;
    if neg : bool then Some (wrap64 (- wrap64 d))
    else if 2 ^ 63 - 1 <? d then None else Some d.

Example duration_mixed : ParseDuration "1h15m30.918s" = Some (4530918 * 1000000).
Proof. vm_compute. reflexivity. Qed.
Example duration_negative : ParseDuration "-1.5h" = Some (- 5400 * second).
Proof. vm_compute. reflexivity. Qed.
Example duration_no_unit : ParseDuration "10" = None.
Proof. reflexivity. Qed.
Example duration_limit :
  ParseDuration "9223372036854775807ns" = Some max_int64 /\ ParseDuration "9223372036854775808ns" = None.
Proof. vm_compute. done. Qed.

(** [Duration.Seconds], converted to an [int]. *)
Definition duration_seconds (d : Z) : Z :=
  float_trunc (float_add (to_float (Z.quot d second)) (float_div (to_float (Z.rem d second)) (to_float second))).

Example seconds_truncated : duration_seconds 1999999999 = 1 /\ duration_seconds (-1500000000) = -1.
Proof. vm_compute. done. Qed.
(** The sum is rounded: 400 days less a nanosecond count as 400 days. *)
Example seconds_rounded : duration_seconds (400 * 86400 * second - 1) = 400 * 86400.
Proof. vm_compute. reflexivity. Qed.

(** ** [flag] *)

(** The value of a flag, of one of the kinds the program declares. *)
Inductive FlagValue : Type := FlagString (s : string) | FlagBool (b : bool) | FlagDuration (d : Z).

(** [FlagSet.formal]: the flags by name. *)
Abbreviation FlagSet := (gmap string FlagValue).

Definition ErrFlag : error := ErrOther "flag error".

(** [flag.Value.Set] *)
Definition flag_set (v : FlagValue) (text : string) : option FlagValue :=
  match v with
  | FlagString _ => Some (FlagString text)
  | FlagBool _ => FlagBool <$> ParseBool text
  | FlagDuration _ => FlagDuration <$> ParseDuration text
  end.

Definition is_bool_flag (v : FlagValue) : bool := match v with FlagBool _ => true | _ => false end.

Definition set_flag (flags : FlagSet) (name text : string) : result FlagSet :=
  match flags !! name ≫= (fun v => flag_set v text) with
  | None => Err ErrFlag
  | Some v => Ok (<[name := v]> flags)
  end.

(** The name and the value of an argument, when it is a flag. *)
Inductive flag_arg : Type := NotFlag | BadFlag | IsFlag (name : string) (value : option string).

Definition flag_of (s : string) : flag_arg :=
  match s with
  | String "-" (String a r) =>
      let rest := if Ascii.eqb a "-" then r else String a r in
      match rest with
      | EmptyString => NotFlag
      | String "-" _ | String "=" _ => BadFlag
      | _ => let '(name, value, hasValue) := cut rest "=" in IsFlag name (if (hasValue : bool) then Some value else None)
      end
  | _ => NotFlag
  end.

(** [FlagSet.Parse], with its [parseOne]: it stops at the first argument that is not a
    flag, or after [--]. *)
Fixpoint Parse (flags : FlagSet) (args : list string) : result FlagSet :=
  match args with
  | [] => Ok flags
  | s :: rest =>
      match flag_of s with
      | NotFlag => Ok flags
      | BadFlag => Err ErrFlag
      | IsFlag name value =>
          match flags !! name with
          | None => Err ErrFlag
          | Some v =>
              match value, is_bool_flag v, rest with
              | Some value, _, _ => let? flags := set_flag flags name value in Parse flags rest
              | None, true, _ => let? flags := set_flag flags name "true" in Parse flags rest
              | None, false, value :: rest' => let? flags := set_flag flags name value in Parse flags rest'
              | None, false, [] => Err ErrFlag
              end
          end
      end
  end.

(** ** What the arguments give

    The flags that the arguments set, in their order, with their texts. *)

Inductive gives (is_bool : string -> bool) : list string -> list (string * string) -> Prop :=
  | gives_nothing : gives is_bool [] []
  | gives_stop s rest : flag_of s = NotFlag -> gives is_bool (s :: rest) []
  | gives_joined s rest name value given :
      flag_of s = IsFlag name (Some value) -> gives is_bool rest given -> gives is_bool (s :: rest) ((name, value) :: given)
  | gives_bool s rest name given :
      flag_of s = IsFlag name None -> is_bool name = true -> gives is_bool rest given ->
      gives is_bool (s :: rest) ((name, "true") :: given)
  | gives_next s value rest name given :
      flag_of s = IsFlag name None -> is_bool name = false -> gives is_bool rest given ->
      gives is_bool (s :: value :: rest) ((name, value) :: given).

Fixpoint last_given (given : list (string * string)) (name : string) : option string :=
  match given with
  | [] => None
  | (n, text) :: given =>
      match last_given given name with
      | Some text => Some text
      | None => if String.eqb n name then Some text else None
      end
  end.

(** Setting a flag does not change its kind. *)
Lemma flag_set_kind v text v' :
  flag_set v text = Some v' -> is_bool_flag v' = is_bool_flag v /\ forall t, flag_set v' t = flag_set v t.
Proof.
  destruct v; cbn [flag_set]; intros H; simplify_option_eq; done || (apply fmap_Some in H as (x & _ & ->); done).
Qed.

(** The flags [flags'] are [flags], set as the list says. *)
Definition set_as (flags flags' : FlagSet) (given : list (string * string)) : Prop :=
  forall name v, flags !! name = Some v ->
    exists v', flags' !! name = Some v' /\
      match last_given given name with None => v' = v | Some text => flag_set v text = Some v' end.

Lemma set_flag_as flags flags1 flags' name text given :
  set_flag flags name text = Ok flags1 -> set_as flags1 flags' given -> set_as flags flags' ((name, text) :: given).
Proof.
  unfold set_flag. destruct (flags !! name) as [v0|] eqn:E0; [|done]. cbn [mbind option_bind].
  destruct (flag_set v0 text) as [v1|] eqn:E1; [|done]. intros [= <-] Has q v Hq. cbn [last_given].
  destruct (flag_set_kind _ _ _ E1) as [_ Hk]. destruct (String.eqb_spec name q) as [->|Hne].
  - destruct (Has q v1) as (v' & Hv' & Hl); [apply lookup_insert_eq|]. exists v'. split; [done|].
    replace v with v0 by congruence. destruct (last_given given q) as [t|]; [by rewrite <- Hk|]. by rewrite E1, Hl.
  - destruct (Has q v) as (v' & Hv' & Hl); [by rewrite lookup_insert_ne|]. exists v'. split; [done|].
    by destruct (last_given given q).
Qed.

Definition kinds (is_bool : string -> bool) (flags : FlagSet) : Prop :=
  forall name v, flags !! name = Some v -> is_bool_flag v = is_bool name.

Lemma set_flag_kinds is_bool flags flags1 name text :
  set_flag flags name text = Ok flags1 -> kinds is_bool flags -> kinds is_bool flags1.
Proof.
  unfold set_flag. destruct (flags !! name) as [v0|] eqn:E0; [|done]. cbn [mbind option_bind].
  destruct (flag_set v0 text) as [v1|] eqn:E1; [|done]. intros [= <-] Hk q v Hq.
  apply lookup_insert_Some in Hq as [[-> <-]|[_ Hq]]; [|by apply Hk].
  destruct (flag_set_kind _ _ _ E1) as [-> _]. by apply Hk.
Qed.

Lemma Parse_gives is_bool flags args flags' :
  kinds is_bool flags -> Parse flags args = Ok flags' ->
  exists given, gives is_bool args given /\ set_as flags flags' given.
Proof.
  remember (List.length args) as n eqn:En. revert flags args En.
  induction n as [n IH] using lt_wf_ind. intros flags args -> Hk.
  destruct args as [|s rest]; cbn [Parse]; [intros [= <-]; exists []; split; [constructor|]; intros q v Hq; by exists v|].
  destruct (flag_of s) as [| |name value] eqn:Es; [|done|].
  { intros [= <-]. exists []. split; [by constructor|]. intros q v Hq. by exists v. }
  destruct (flags !! name) as [v|] eqn:Ev; [|done]. assert (Hb := Hk _ _ Ev).
  assert (Hstep : forall text rest', (List.length rest' < List.length (s :: rest))%nat ->
    (let? flags := set_flag flags name text in Parse flags rest') = Ok flags' ->
    exists given, gives is_bool rest' given /\ set_as flags flags' ((name, text) :: given)).
  { intros text rest' Hlen. destruct (set_flag flags name text) as [flags1|] eqn:E1; [|done]. cbn [result_bind]. intros HP.
    destruct (IH _ Hlen flags1 rest' eq_refl) as (given & Hg & Has); [by eapply set_flag_kinds|done|].
    exists given. split; [done|]. by eapply set_flag_as. }
  destruct value as [value|].
  - intros (given & Hg & Has)%Hstep; [|simpl; lia]. eexists. split; [by eapply gives_joined|done].
  - destruct (is_bool_flag v).
    + intros (given & Hg & Has)%Hstep; [|simpl; lia]. eexists. split; [by eapply gives_bool|done].
    + destruct rest as [|value rest']; [done|]. intros (given & Hg & Has)%Hstep; [|simpl; lia].
      eexists. split; [by eapply gives_next|done].
Qed.

(** A duration is a 64-bit integer. *)
Lemma duration_loop_range fuel d s r : 0 <= d -> d <= 2 ^ 63 -> duration_loop fuel d s = Some r -> 0 <= r <= 2 ^ 63.
Proof.
  revert d s. induction fuel as [|fuel IH]; intros d s H0 H1; cbn [duration_loop]; [done|].
  destruct (String.eqb s ""); [intros [= <-]; lia|]. destruct (duration_part s) as [[v s']|]; [|done]. cbn [mbind option_bind].
  destruct (Z.ltb_spec (2 ^ 63) ((d + v) mod 2 ^ 64)); [done|]. apply IH; [|lia]. apply Z.mod_pos_bound. lia.
Qed.

Lemma ParseDuration_range s d : ParseDuration s = Some d -> min_int64 <= d <= max_int64.
Proof.
  unfold ParseDuration. destruct (match s with String "-" r => _ | String "+" r => _ | _ => _ end) as [neg s'].
  destruct (String.eqb s' "0"); [intros [= <-]; done|]. destruct (String.eqb s' ""); [done|].
  destruct (duration_loop _ 0 s') as [r|] eqn:E; [|done]. cbn [mbind option_bind].
  apply duration_loop_range in E; [|lia|lia]. destruct neg; [intros [= <-]; apply wrap64_bounds|].
  destruct (Z.ltb_spec (2 ^ 63 - 1) r); [done|]. intros [= <-]. unfold min_int64, max_int64. lia.
Qed.

Lemma leadingInt_rest x s v r : leadingInt x s = Some (v, r) -> (String.length r <= String.length s)%nat.
Proof.
  revert x. induction s as [|a s IH]; intros x; cbn [leadingInt]; [by intros [= _ <-]|].
  destruct (digit_val a) as [d|]; [|by intros [= _ <-]]. destruct (_ <? x); [done|]. destruct (_ <? _); [done|].
  intros H%IH. simpl. lia.
Qed.

Lemma leadingFraction_rest x scale overflow s :
  (String.length (leadingFraction x scale overflow s).2 <= String.length s)%nat.
Proof.
  revert x scale overflow. induction s as [|a s IH]; intros x scale overflow; cbn [leadingFraction]; [done|].
  destruct (digit_val a) as [d|]; [|done]. repeat case_match; cbn; etrans; try apply IH; lia.
Qed.

Lemma duration_part_shorter s v r : duration_part s = Some (v, r) -> (String.length r < String.length s)%nat.
Proof.
  unfold duration_part. destruct (negb _); [done|]. destruct (leadingInt 0 s) as [[n s1]|] eqn:E1; [|done].
  apply leadingInt_rest in E1. cbn [mbind option_bind].
  destruct (match s1 with String "." r => _ | _ => _ end) as [[[f scale] post] s2] eqn:E2.
  assert (H2 : (String.length s2 <= String.length s1)%nat).
  { assert (Hr := leadingFraction_rest 0 1 false). repeat case_match; simplify_eq; try done.
    match goal with E : leadingFraction _ _ _ ?r = _ |- _ => specialize (Hr r); rewrite E in Hr; cbn in Hr |- *; lia end. }
  destruct (_ && _); [done|]. destruct (String.eqb_spec (unit_text s2) "") as [|Hu]; [done|].
  destruct (find _ unitMap) as [[u unit]|]; [|done]. cbn [mbind option_bind].
  destruct (_ <? n); [done|]. destruct (_ && _); [done|]. intros [= _ <-]. rewrite length_drop_bytes.
  destruct (unit_text s2) as [|a u'] eqn:Eu; [done|]. cbn [String.length].
  destruct s2; [by cbn in Eu|]. cbn [String.length] in *. lia.
Qed.

(** The fuel of [ParseDuration] is enough: more of it changes nothing. *)
Lemma duration_loop_fuel fuel fuel' d s :
  (String.length s < fuel)%nat -> (fuel <= fuel')%nat -> duration_loop fuel' d s = duration_loop fuel d s.
Proof.
  revert fuel' d s. induction fuel as [|fuel IH]; intros fuel' d s Hs Hle; [lia|].
  destruct fuel' as [|fuel']; [lia|]. cbn [duration_loop]. destruct (String.eqb s ""); [done|].
  destruct (duration_part s) as [[v r]|] eqn:E; [|done]. cbn [mbind option_bind]. destruct (_ <? _); [done|].
  apply duration_part_shorter in E. apply IH; lia.
Qed.
