(* ===== verification/Config.v ===== *)
(** * The configuration: [internal/config/config.go]

    The values, how they are read from texts, and what makes them valid. *)

From S2P Require Import Prelude GoStrings GoTime.

#[local] Open Scope Z_scope.

(** [config.Config]; a duration is its number of nanoseconds. *)
Record Config : Type := MkConfig {
  cf_http_addr : string;
  cf_db_path : string;
  cf_data_dir : string;
  cf_dev_mode : bool;
  cf_public_base_url : string;
  cf_metadata_cache_size_bytes : Z;
  cf_s3_cache_control : string;
  cf_public_read_signing_secret : string;
  cf_public_read_default_ttl : Z;
  cf_public_read_max_ttl : Z;
  cf_cors_allowed_origins : list string;
  cf_read_timeout : Z;
  cf_write_timeout : Z;
  cf_idle_timeout : Z;
  cf_shutdown_timeout : Z;
  cf_multipart_ttl : Z;
  cf_multipart_cleanup_interval : Z;
}.

Definition minute : Z := 60 * second.
Definition hour : Z := 60 * minute.

Definition defaultHTTPAddr : string := "127.0.0.1:9000".
Definition defaultMetadataCache : Z := 512 * 1024 * 1024.
Definition defaultS3CacheControl : string := "private, max-age=0, must-revalidate".
Definition defaultCORSAllowedOrigins : list string :=
  ["http://localhost:3000"; "http://127.0.0.1:3000"; "http://localhost:5173"; "http://127.0.0.1:5173"].

Definition Default : Config :=
  MkConfig defaultHTTPAddr "./fbs.db" "./data" false "" defaultMetadataCache defaultS3CacheControl "" hour (24 * hour)
    defaultCORSAllowedOrigins (15 * second) (30 * second) (60 * second) (10 * second) (24 * hour) hour.

(** ** Texts *)

(** The units of [parseByteSize]; a text ends with one of them at most, so the order of
    the map does not matter. *)
Definition byte_units : list (string * Z) :=
  [("KiB", 1024); ("MiB", 1024 * 1024); ("GiB", 1024 * 1024 * 1024);
   ("KB", 1000); ("MB", 1000 * 1000); ("GB", 1000 * 1000 * 1000)].

Definition ErrByteSize : error := ErrOther "invalid byte size".

Definition parseByteSize (value : string) : result Z :=
  let trimmed := trim_space value in
  if String.eqb trimmed "" then Err ErrByteSize
  else
    let '(multiplier, number) :=
      match filter (fun unit => has_suffix trimmed unit.1 = true) byte_units with
      | (suffix, unitMultiplier) :: _ => (unitMultiplier, trim_space (trim_suffix trimmed suffix))
      | [] => (1, trimmed)
      end in
    if String.eqb number "" then Err ErrByteSize
    else match parse_int number with
         | None => Err ErrByteSize
         | Some size =>
             if size <? 0 then Err ErrByteSize
             else if max_int64 / multiplier <? size then Err ErrByteSize
             else Ok (wrap64 (size * multiplier))
         end.

Definition splitCSV (value : string) : list string :=
  filter (fun part => part <> "") (trim_space <$> split value ",").
