(* ===== verification/Signer.v ===== *)
(** * Signed public URLs: [internal/publicread/signer.go]

    A signature is an HMAC over the path, the expiry and the content disposition. *)

From S2P Require Import Prelude GoStrings Encoding Hash GoTime GoUrl Effects Schema.

#[local] Open Scope Z_scope.

Definition ErrSigningDisabled : error := ErrOther "public read signing is disabled".
Definition ErrMalformedSignature : error := ErrOther "malformed public read signature".
Definition ErrExpiredSignature : error := ErrOther "public read signature is expired".
Definition ErrInvalidSignature : error := ErrOther "invalid public read signature".

(** [NewSigner]: the secret of the signer. *)
Definition NewSigner (secret : string) : result string :=
  let trimmed := trim_space secret in
  if String.eqb trimmed "" then Err ErrSigningDisabled
  else if string_len trimmed <? 32 then Err (ErrOther "public read signing secret must be at least 32 bytes")
  else Ok trimmed.

Definition newline : ascii := "010"%char.

Definition canonicalString (path : string) (expiresUnix : Z) (responseContentDisposition : string) : string :=
  let canonical := "GET" +:+ String newline path +:+ String newline (format_int expiresUnix) in
  if String.eqb responseContentDisposition "" then canonical
  else canonical +:+ String newline "response-content-disposition=" +:+ QueryEscape responseContentDisposition.

Definition SignPath (secret path : string) (expiresAt : time) (responseContentDisposition : string) : string :=
  hex_encode (hmac_sha256 secret (canonicalString path (unix_of_time expiresAt) responseContentDisposition)).

Definition Verify (secret : string) (now : time) (path expiresUnix responseContentDisposition signatureHex : string)
    : result unit :=
  match parse_int (trim_space expiresUnix) with
  | None => Err ErrMalformedSignature
  | Some expiresAtUnix =>
      if negb (now <? time_of_unix expiresAtUnix) then Err ErrExpiredSignature
      else match hex_decode (trim_space signatureHex) with
           | None => Err ErrMalformedSignature
           | Some got =>
               if negb (string_len got =? 32) then Err ErrMalformedSignature
               else
                 let wantHex := SignPath secret path (time_of_unix expiresAtUnix) responseContentDisposition in
                 match hex_decode wantHex with
                 | None => Err ErrInvalidSignature
                 | Some want => if String.eqb got want then Ok tt else Err ErrInvalidSignature
                 end
           end
  end.

(** [ObjectPath] *)
Definition ObjectPath (bucketName key : string) : string :=
  "/public/" +:+ PathEscape bucketName +:+ "/" +:+ join (PathEscape <$> split key "/") "/".

(** The path of a public URL decodes to the bucket and the key, and has no query. *)
Lemma ObjectPath_unescapes b k : PathUnescape (ObjectPath b k) = Some ("/public/" +:+ b +:+ String "/" k).
Proof.
  unfold ObjectPath. unfold PathUnescape. rewrite (unescape_append _ _ "/public/") by reflexivity.
  rewrite (unescape_append _ _ b) by apply PathUnescape_escape.
  rewrite (unescape_append _ _ "/") by reflexivity. change (unescape false ?x) with (PathUnescape x).
  rewrite PathUnescape_segments. by rewrite join_split.
Qed.

Lemma ObjectPath_no_query b k : contains_byte (ObjectPath b k) "?" = false.
Proof.
  unfold ObjectPath. rewrite !contains_byte_append. unfold PathEscape at 1. rewrite escape_no_byte by done.
  apply (orb_false_intro _ _ eq_refl). induction (split k "/") as [|s [|s' l] IH]; [done|by apply escape_no_byte|].
  change (contains_byte (PathEscape s +:+ String "/" (join (PathEscape <$> s' :: l) "/")) "?" = false).
  rewrite contains_byte_append. unfold PathEscape at 1. rewrite escape_no_byte by done. exact IH.
Qed.

(** ** What a signature covers *)

Lemma format_int_no_newline z : contains_byte (format_int z) newline = false.
Proof. apply format_int_byte; [vm_compute; intros [H _]; by apply H|done]. Qed.

Lemma format_int_inj z z' :
  min_int64 <= z <= max_int64 -> min_int64 <= z' <= max_int64 -> format_int z = format_int z' -> z = z'.
Proof. intros H H' E%(f_equal parse_int). rewrite !parse_format_int in E by done. congruence. Qed.

(** Two requests have the same canonical string only when they agree on everything. *)
Lemma canonicalString_inj p p' x x' d d' :
  contains_byte p newline = false -> contains_byte p' newline = false ->
  min_int64 <= x <= max_int64 -> min_int64 <= x' <= max_int64 ->
  canonicalString p x d = canonicalString p' x' d' -> p = p' /\ x = x' /\ d = d'.
Proof.
  intros Hp Hp' Hx Hx' E.
  assert (Hsplit : forall p x d, exists t, canonicalString p x d = "GET" +:+ String newline (p +:+ String newline t) /\
    t = if String.eqb d "" then format_int x
        else format_int x +:+ String newline ("response-content-disposition=" +:+ QueryEscape d)).
  { intros q y f. unfold canonicalString. destruct (String.eqb f ""); eexists; split; try reflexivity.
    by rewrite !append_assoc. }
  destruct (Hsplit p x d) as (t & Et & Ht), (Hsplit p' x' d') as (t' & Et' & Ht').
  rewrite Et, Et' in E. injection E as E. apply append_sep_inj in E as [-> ->]; [|done..].
  split; [done|]. rewrite Ht in Ht'.
  destruct (String.eqb_spec d "") as [->|Hd], (String.eqb_spec d' "") as [->|Hd'].
  - by apply format_int_inj in Ht'.
  - exfalso. pose proof (format_int_no_newline x) as Hn. rewrite Ht', contains_byte_append in Hn.
    apply orb_false_iff in Hn as [_ Hn]. done.
  - exfalso. pose proof (format_int_no_newline x') as Hn. rewrite <- Ht', contains_byte_append in Hn.
    apply orb_false_iff in Hn as [_ Hn]. done.
  - apply append_sep_inj in Ht' as [Ex Ed]; [|apply format_int_no_newline..].
    apply append_inj_l, QueryEscape_inj in Ed. split; [by apply format_int_inj|done].
Qed.

(** A signature is accepted when it has not expired and is that of the path, the expiry
    and the disposition. *)
Lemma Verify_accepts secret now path expires disposition signature :
  Verify secret now path expires disposition signature = Ok tt <->
  exists x, parse_int (trim_space expires) = Some x /\ now < time_of_unix x /\
    hex_decode (trim_space signature) = Some (hmac_sha256 secret (canonicalString path x disposition)).
Proof.
  unfold Verify.
  destruct (parse_int (trim_space expires)) as [x|] eqn:Ex; [|by split; [|intros (? & ? & _)]].
  assert (Hx : min_int64 <= x <= max_int64) by (by eapply parse_int_range).
  unfold SignPath. rewrite hex_decode_encode, unix_round_trip by done.
  set (want := hmac_sha256 secret (canonicalString path x disposition)).
  assert (Hlen : string_len want = 32) by (unfold string_len, want, hmac_sha256; by rewrite sha256_size).
  destruct (Z.ltb_spec now (time_of_unix x)) as [Hlt|Hge]; simpl.
  2: { split; [done|]. intros (x' & [= <-] & Hlt & _). lia. }
  destruct (hex_decode (trim_space signature)) as [got|]; [|by split; [|intros (? & _ & _ & ?)]].
  destruct (Z.eqb_spec (string_len got) 32) as [Hg|Hg]; simpl.
  - destruct (String.eqb_spec got want) as [->|Hne]; [split; [intros _; by exists x|done]|].
    split; [done|]. intros (x' & [= <-] & _ & [= ?]). done.
  - split; [done|]. intros (x' & [= <-] & _ & [= ->]). done.
Qed.

(** C33: a public URL opens for one object until it expires. [Verify] accepts a
    signature exactly when the expiry parses, lies after the current time, and the
    signature is the hexadecimal form of the HMAC that the secret gives the canonical
    string of this path, expiry and content disposition; a string that, for paths
    without line breaks, no other path, expiry or disposition has. *)
Theorem Verify_correct secret now path expires disposition signature :
  (Verify secret now path expires disposition signature = Ok tt <->
   exists x, parse_int (trim_space expires) = Some x /\ now < time_of_unix x /\
     hex_decode (trim_space signature) = Some (hmac_sha256 secret (canonicalString path x disposition))) /\
  (forall path' x x' disposition',
     contains_byte path newline = false -> contains_byte path' newline = false ->
     min_int64 <= x <= max_int64 -> min_int64 <= x' <= max_int64 ->
     canonicalString path x disposition = canonicalString path' x' disposition' ->
     path = path' /\ x = x' /\ disposition = disposition').
Proof.
  split; [apply Verify_accepts|intros; by apply canonicalString_inj].
Qed.

(** ** Witness *)

Definition sample_secret : string := "0123456789abcdef0123456789abcdef".
Definition sample_path : string := ObjectPath "photos" "a b/c".

Lemma Verify_correct_witness :
  sample_path = "/public/photos/a%20b/c" /\
  Verify sample_secret (time_of_unix 999) sample_path "1000" ""
    (SignPath sample_secret sample_path (time_of_unix 1000) "") = Ok tt /\
  Verify sample_secret (time_of_unix 1000) sample_path "1000" ""
    (SignPath sample_secret sample_path (time_of_unix 1000) "") = Err ErrExpiredSignature /\
  (canonicalString sample_path 1000 "" = canonicalString sample_path 1000 "" ->
   sample_path = sample_path /\ 1000 = 1000 /\ "" = "").
Proof.
  split; [reflexivity|]. split; [|split].
  - apply (proj1 (Verify_correct sample_secret (time_of_unix 999) sample_path "1000" ""
      (SignPath sample_secret sample_path (time_of_unix 1000) ""))).
    exists 1000. split; [reflexivity|]. split; [reflexivity|]. vm_compute. reflexivity.
  - vm_compute. reflexivity.
  - apply (proj2 (Verify_correct sample_secret (time_of_unix 999) sample_path "1000" "" "")); vm_compute;
      first [reflexivity|split; congruence].
Defined.
