(* ===== verification/S3Http.v ===== *)
(** * Requests and responses of the S3 handlers

    What the handlers of [internal/s3] read of an [http.Request] and write to an
    [http.ResponseWriter], the error responses, and the bounded request bodies of
    [internal/http/request_body.go]. *)

From S2P Require Import Prelude GoStrings Encoding Hash GoUrl Effects DiskEngine Authz Schema Db Prog.

(** ** Headers *)

(** [textproto.CanonicalMIMEHeaderKey] *)
Definition is_letter (a : ascii) : bool := between 65 90 a || between 97 122 a.
Definition is_token_byte (a : ascii) : bool :=
  is_letter a || between 48 57 a || contains_byte "!#$%&'*+-.^_`|~" a.

Fixpoint canonical_go (upper : bool) (s : string) : string :=
  match s with
  | EmptyString => ""
  | String a r => String (if upper then ascii_upper a else ascii_lower a) (canonical_go (Ascii.eqb a "-") r)
  end.

Definition CanonicalHeaderKey (s : string) : string :=
  if forallb is_token_byte (String.list_ascii_of_string s) then canonical_go true s else s.

(** [http.Header] *)
Abbreviation Header := (gmap string (list string)).

(** [Header.Get] and [Header.Set] *)
Definition header_get (h : Header) (name : string) : string :=
  match h !! CanonicalHeaderKey name with Some (v :: _) => v | _ => "" end.
Definition header_set (name value : string) (h : Header) : Header :=
  <[CanonicalHeaderKey name := [value]]> h.

(** ** Requests *)

(** The fields of [http.Request] that the handlers read: the path, raw and escaped, the
    host, the client's address and whether the connection is encrypted, the URL
    parameters of the router, the parsed query, the principal that the authentication
    middleware put in the context ([None]: there is none). The body of a server's
    request is never nil. *)
Record Request : Type := MkRequest {
  rq_method : string;
  rq_path : string;
  rq_escaped_path : string;
  rq_host : string;
  rq_remote_addr : string;
  rq_tls : bool;
  rq_params : gmap string string;
  rq_header : Header;
  rq_query : Values;
  rq_content_length : Z;
  rq_body : reader;
  rq_principal : option Principal;
  rq_id : string;
}.

Definition url_param (r : Request) (name : string) : string := default "" (rq_params r !! name).

Definition no_principal : Principal := MkPrincipal "" "" "" "" false "" "".
Definition principal_or_zero (r : Request) : Principal := default no_principal (rq_principal r).

(** [objectRouteParams] and [chiBucketParam] *)
Definition objectRouteParams (r : Request) : string * string :=
  (url_param r "bucket", trim_prefix (url_param r "*") "/").
Definition chiBucketParam (r : Request) : string := trim_space (url_param r "bucket").

(** [parseMetadataHeaders]: the user metadata, nil when there is none. *)
Definition add_metadata (meta : gmap string string) (kv : string * list string) : gmap string string :=
  let lower := to_lower kv.1 in
  if has_prefix lower "x-amz-meta-" then
    match kv.2 with
    | [] => meta
    | v :: _ => <[trim_prefix lower "x-amz-meta-" := v]> meta
    end
  else meta.

Definition parseMetadataHeaders (r : Request) : StringMap :=
  let meta := fold_left add_metadata (map_to_list (rq_header r)) ∅ in
  if bool_decide (meta = ∅) then None else Some meta.

(** [requestHasSignedHeader] *)
Definition requestHasSignedHeader (r : Request) (headerName : string) : bool :=
  match rq_principal r with
  | None => true
  | Some p =>
      if String.eqb (trim_space (p_signed_headers p)) "" then true
      else existsb (fun signed => equal_fold (trim_space signed) (to_lower headerName))
             (split (p_signed_headers p) ";")
  end.

(** [quoteETag] and [unquoteETag] *)
Definition quoteETag (etag : string) : string :=
  let trimmed := trim_space etag in
  if has_prefix trimmed quote_str && has_suffix trimmed quote_str then trimmed
  else quote_str +:+ trimmed +:+ quote_str.

Definition unquoteETag (etag : string) : string :=
  if (2 <=? string_len etag)%Z && has_prefix etag quote_str && has_suffix etag quote_str
  then take_bytes (String.length etag - 2) (drop_bytes 1 etag) else etag.

Definition etagMatches (requestETag storedETag : string) : bool :=
  equal_fold (unquoteETag requestETag) (unquoteETag storedETag).

(** ** Bounded bodies: [httpapi.ReadBody] *)

Definition ErrTooLarge : error := ErrOther "http: request body too large".
Definition ErrPayloadHashMismatch : error := ErrOther "request body does not match signed payload hash".

(** [io.ReadAll(http.MaxBytesReader(w, body, limit))] *)
Definition read_all (body : reader) (limit : Z) : result string :=
  if (limit <? string_len (reader_content body))%Z then Err ErrTooLarge
  else match reader_error body with
       | Some e => Err e
       | None => Ok (reader_content body)
       end.

Definition ReadBody (r : Request) (limit : Z) : result string :=
  if (limit <? rq_content_length r)%Z then Err ErrTooLarge
  else
    let? payload := read_all (rq_body r) limit in
    let expected := p_signed_payload_hash (principal_or_zero r) in
    if negb (String.eqb expected "") && negb (String.eqb expected "UNSIGNED-PAYLOAD")
       && negb (equal_fold expected (hex_encode (sha256_sum payload)))
    then Err ErrPayloadHashMismatch
    else Ok payload.

(** ** Error codes: [errors.go] *)

Definition codeBucketAlreadyExists := "BucketAlreadyExists".
Definition codeBucketAlreadyOwnedByYou := "BucketAlreadyOwnedByYou".
Definition codeBucketNotEmpty := "BucketNotEmpty".
Definition codeAccessDenied := "AccessDenied".
Definition codeBadDigest := "BadDigest".
Definition codeEntityTooSmall := "EntityTooSmall".
Definition codeInternalError := "InternalError".
Definition codeInvalidArgument := "InvalidArgument".
Definition codeInvalidBucketName := "InvalidBucketName".
Definition codeInvalidDigest := "InvalidDigest".
Definition codeInvalidLocationConstraint := "InvalidLocationConstraint".
Definition codeInvalidPart := "InvalidPart".
Definition codeInvalidPartOrder := "InvalidPartOrder".
Definition codeInvalidRange := "InvalidRange".
Definition codeInvalidRequest := "InvalidRequest".
Definition codeMalformedXML := "MalformedXML".
Definition codeNoSuchBucket := "NoSuchBucket".
Definition codeNoSuchKey := "NoSuchKey".
Definition codeNoSuchUpload := "NoSuchUpload".
Definition codeNotImplemented := "NotImplemented".
Definition codePreconditionFailed := "PreconditionFailed".

(** The message of each code, as the handlers pair them. *)
Definition messageBucketAlreadyExists := "The requested bucket name is not available.".
Definition messageBucketAlreadyOwnedByYou :=
  "Your previous request to create the named bucket succeeded and you already own it.".
Definition messageBucketNotEmpty := "The bucket you tried to delete is not empty.".
Definition messageAccessDenied := "Access denied.".
Definition messageBadDigest :=
  "The Content-MD5 or checksum you specified did not match what we received.".
Definition messageEntityTooSmall :=
  "Your proposed upload is smaller than the minimum allowed object size.".
Definition messageInternalError := "We encountered an internal error. Please try again.".
Definition messageInvalidArgument := "Invalid argument.".
Definition messageInvalidBucketName := "The specified bucket is not valid.".
Definition messageInvalidDigest := "The Content-MD5 you specified was invalid.".
Definition messageInvalidLocationConstraint := "The specified location-constraint is not valid.".
Definition messageInvalidPart :=
  "One or more of the specified parts could not be found or the specified entity tag might not have matched the part's entity tag.".
Definition messageInvalidPartOrder :=
  "The list of parts was not in ascending order. Parts must be ordered by part number.".
Definition messageInvalidRequest := "The request is invalid.".
Definition messageMalformedXML :=
  "The XML you provided was not well-formed or did not validate against our published schema.".
Definition messageNoSuchBucket := "The specified bucket does not exist.".
Definition messageNoSuchKey := "The specified key does not exist.".
Definition messageNotImplemented :=
  "A header or query you provided implies functionality that is not implemented.".
Definition messageNoSuchUpload := "The specified multipart upload does not exist.".
Definition messagePreconditionFailed :=
  "At least one of the pre-conditions you specified did not hold.".
