(* ===== verification/Middleware.v ===== *)
(** * The middleware of every request: [internal/http/middleware/logging.go], [recovery.go]

    The recorder between a handler and the response of [net/http], the recovery of
    panics and the access log, stacked as [NewRouter] of [internal/http/router.go] stacks
    them. A handler is any sequence of calls on its [ResponseWriter] that may look at
    their results and may panic: an error of the monad is a panic here. *)

From S2P Require Import Prelude GoStrings Effects DiskEngine S3Http.

#[local] Open Scope Z_scope.

(** ** The response of [net/http] *)

(** What a write below does: the bytes it takes, its error, and the time it needs. *)
Record event : Type := MkEvent { ev_taken : nat; ev_error : option error; ev_elapsed : Z }.

(** The header map of the response, the status and the headers that were sent, the
    interim statuses and the superfluous ones, the body taken so far; which optional
    interfaces it implements; what the next writes do ([None]: all they are asked for). *)
Record Wire : Type := MkWire {
  wr_header : Header;
  wr_sent : option (Z * Header);
  wr_interim : list Z;
  wr_superfluous : list Z;
  wr_body : string;
  wr_clock : Z;
  wr_events : list (option event);
  wr_reader_from : bool;
  wr_flusher : bool;
}.

Definition wire_header (f : Header -> Header) : M Wire unit := modify (fun w =>
  MkWire (f (wr_header w)) (wr_sent w) (wr_interim w) (wr_superfluous w) (wr_body w) (wr_clock w) (wr_events w)
    (wr_reader_from w) (wr_flusher w)).

(** The handler works for some time. *)
Definition wire_elapse (d : Z) : M Wire unit := modify (fun w =>
  MkWire (wr_header w) (wr_sent w) (wr_interim w) (wr_superfluous w) (wr_body w) (wr_clock w + d) (wr_events w)
    (wr_reader_from w) (wr_flusher w)).

Definition informational (code : Z) : bool := (100 <=? code) && (code <=? 199) && negb (code =? 101).

(** [WriteHeader]: the first final status counts; a code that is not one panics. *)
Definition wire_WriteHeader (code : Z) : M Wire unit := fun w =>
  match wr_sent w with
  | Some _ =>
      (Ok tt, MkWire (wr_header w) (wr_sent w) (wr_interim w) (wr_superfluous w ++ [code]) (wr_body w) (wr_clock w)
                (wr_events w) (wr_reader_from w) (wr_flusher w))
  | None =>
      if (code <? 100) || (999 <? code) then (Err (ErrOther "invalid WriteHeader code"), w)
      else if informational code then
        (Ok tt, MkWire (wr_header w) None (wr_interim w ++ [code]) (wr_superfluous w) (wr_body w) (wr_clock w)
                  (wr_events w) (wr_reader_from w) (wr_flusher w))
      else
        (Ok tt, MkWire (wr_header w) (Some (code, wr_header w)) (wr_interim w) (wr_superfluous w) (wr_body w) (wr_clock w)
                  (wr_events w) (wr_reader_from w) (wr_flusher w))
  end.

(** Sending the header when nothing was sent yet: before a body, when flushing, and when
    the handler has returned. *)
Definition wire_ensure_header : M Wire unit := fun w =>
  match wr_sent w with Some _ => (Ok tt, w) | None => wire_WriteHeader 200 w end.

Definition bodyAllowedForStatus (status : Z) : bool :=
  negb (((100 <=? status) && (status <=? 199)) || (status =? 204) || (status =? 304)).

Definition take_event (body : string) : M Wire (nat * option error) := fun w =>
  let '(ev, evs) := match wr_events w with [] => (None, []) | ev :: evs => (ev, evs) end in
  let data := match ev with None => body | Some ev => take_bytes (ev_taken ev) body end in
  (Ok (String.length data, ev ≫= ev_error),
   MkWire (wr_header w) (wr_sent w) (wr_interim w) (wr_superfluous w) (wr_body w +:+ data)
     (wr_clock w + from_option ev_elapsed 0 ev) evs (wr_reader_from w) (wr_flusher w)).

Definition ErrBodyNotAllowed : error := ErrOther "http: request method or response status code does not allow body".

Definition wire_Write (body : string) : M Wire (nat * option error) :=
  wire_ensure_header ;;
  w <- get_state ;;
  if String.eqb body "" then ret (O, None)
  else if negb (from_option (fun sent => bodyAllowedForStatus sent.1) true (wr_sent w)) then ret (O, Some ErrBodyNotAllowed)
  else take_event body.

(** [io.Copy] to the response, chunk by chunk; its [ReadFrom] has the same effect. *)
Fixpoint wire_copy (src : reader) (written : nat) : M Wire (nat * option error) :=
  match src with
  | [] => ret (written, None)
  | MkRead data readErr :: src' =>
      let* (nw, ew) := (if String.eqb data "" then ret (O, None) else wire_Write data) in
      let written := (written + nw)%nat in
      match ew with
      | Some e => ret (written, Some e)
      | None =>
          if negb (nw =? String.length data)%nat then ret (written, Some (ErrOther "short write"))
          else match readErr with
               | Some EOF => ret (written, None)
               | Some (ReadErr e) => ret (written, Some e)
               | None => wire_copy src' written
               end
      end
  end.

(** ** The recorder *)

Inductive log_entry : Type :=
  | HttpRequest (method path : string) (status bytes duration : Z) (remote_addr : string)
  | PanicRecovered (method path : string) (panic : error).

(** [responseRecorder]: the response below, [status] and [bytes]; what has been logged. *)
Record responseRecorder : Type := MkRecorder {
  rr_below : Wire;
  rr_status : Z;
  rr_bytes : Z;
  rr_log : list log_entry;
}.

Definition below {A} (m : M Wire A) : M responseRecorder A := fun r =>
  let '(a, w) := m (rr_below r) in (a, MkRecorder w (rr_status r) (rr_bytes r) (rr_log r)).

Definition set_status (status : Z) : M responseRecorder unit := modify (fun r =>
  MkRecorder (rr_below r) status (rr_bytes r) (rr_log r)).
Definition add_bytes (n : nat) : M responseRecorder unit := modify (fun r =>
  MkRecorder (rr_below r) (rr_status r) (rr_bytes r + Z.of_nat n) (rr_log r)).
Definition logged (entry : log_entry) : M responseRecorder unit := modify (fun r =>
  MkRecorder (rr_below r) (rr_status r) (rr_bytes r) (rr_log r ++ [entry])).

(** [if r.status == 0 { r.status = http.StatusOK }] *)
Definition default_status : M responseRecorder unit := modify (fun r =>
  MkRecorder (rr_below r) (if rr_status r =? 0 then 200 else rr_status r) (rr_bytes r) (rr_log r)).

Definition WriteHeader (statusCode : Z) : M responseRecorder unit :=
  set_status statusCode ;;
  below (wire_WriteHeader statusCode).

Definition Write (body : string) : M responseRecorder (nat * option error) :=
  default_status ;;
  let* (bytesWritten, err) := below (wire_Write body) in
  add_bytes bytesWritten ;;
  ret (bytesWritten, err).

(** [ReadFrom], through the response's own [ReadFrom] or [io.Copy]. *)
Definition ReadFrom (src : reader) : M responseRecorder (nat * option error) :=
  default_status ;;
  r <- get_state ;;
  if wr_reader_from (rr_below r) then
    let* (bytesRead, err) := below (wire_copy src 0) in
    add_bytes bytesRead ;;
    ret (bytesRead, err)
  else
    let* (bytesRead, err) := below (wire_copy src 0) in
    add_bytes bytesRead ;;
    ret (bytesRead, err).

Definition Flush : M responseRecorder unit :=
  default_status ;;
  r <- get_state ;;
  if wr_flusher (rr_below r) then below wire_ensure_header else ret tt.

Definition statusCode (r : responseRecorder) : Z := if rr_status r =? 0 then 200 else rr_status r.

(** ** Handlers *)

Inductive op : Type :=
  | OpHeaderSet (name value : string)
  | OpHeaderDel (name : string)
  | OpWriteHeader (code : Z)
  | OpWrite (body : string)
  | OpReadFrom (src : reader)
  | OpFlush
  | OpWork (elapsed : Z).

Inductive handler : Type :=
  | Return
  | Panic (e : error)
  | Do (o : op) (k : nat * option error -> handler).

Definition header_del (name : string) (h : Header) : Header := delete (CanonicalHeaderKey name) h.

Definition run_op (o : op) : M responseRecorder (nat * option error) :=
  match o with
  | OpHeaderSet name value => below (wire_header (header_set name value)) ;; ret (O, None)
  | OpHeaderDel name => below (wire_header (header_del name)) ;; ret (O, None)
  | OpWriteHeader code => WriteHeader code ;; ret (O, None)
  | OpWrite body => Write body
  | OpReadFrom src => ReadFrom src
  | OpFlush => Flush ;; ret (O, None)
  | OpWork elapsed => below (wire_elapse elapsed) ;; ret (O, None)
  end.

(** [next.ServeHTTP(recorder, r)] *)
Fixpoint ServeHTTP (next : handler) : M responseRecorder unit :=
  match next with
  | Return => ret tt
  | Panic e => fail e
  | Do o k => res <- run_op o ;; ServeHTTP (k res)
  end.

(** [http.Error] *)
Definition http_Error (message : string) (code : Z) : M responseRecorder unit :=
  below (wire_header (fun h =>
    header_set "X-Content-Type-Options" "nosniff" (header_set "Content-Type" "text/plain; charset=utf-8"
      (header_del "Content-Length" h)))) ;;
  WriteHeader code ;;
  Write (message +:+ String (byte_of 10) "") ;;
  ret tt.

Definition Recovery (r : Request) (next : M responseRecorder unit) : M responseRecorder unit :=
  let! out := next in
  match out with
  | Ok _ => ret tt
  | Err recovered =>
      logged (PanicRecovered (rq_method r) (rq_path r) recovered) ;;
      http_Error "Internal Server Error" 500
  end.

(** [Logging]; the recorder is new. *)
Definition Logging (r : Request) (next : M responseRecorder unit) : M responseRecorder unit :=
  modify (fun x => MkRecorder (rr_below x) 0 0 (rr_log x)) ;;
  start <- get_state ;;
  next ;;
  recorder <- get_state ;;
  logged (HttpRequest (rq_method r) (rq_path r) (statusCode recorder) (rr_bytes recorder)
            (wr_clock (rr_below recorder) - wr_clock (rr_below start)) (rq_remote_addr r)).

(** The stack of [NewRouter] around the routes, [cors] being the middleware of the CORS
    package; the server then sends a header if no call did. *)
Definition answer (cors : handler -> handler) (r : Request) (routes : handler) : M responseRecorder unit :=
  Logging r (Recovery r (ServeHTTP (cors routes))) ;;
  below wire_ensure_header.

(** ** What the log says *)

(** From [w] to [w'] the response took [n] bytes more, and sent at most the header of a
    status 200. *)
Record passed (n : nat) (w w' : Wire) : Prop := MkPassed {
  ps_body : String.length (wr_body w') = (String.length (wr_body w) + n)%nat;
  ps_interim : wr_interim w' = wr_interim w;
  ps_superfluous : wr_superfluous w' = wr_superfluous w;
  ps_sent : wr_sent w' = wr_sent w \/ wr_sent w = None /\ exists h, wr_sent w' = Some (200, h);
}.

Lemma passed_refl w : passed 0 w w.
Proof. split; [lia|done|done|by left]. Qed.

Lemma passed_trans n m w1 w2 w3 : passed n w1 w2 -> passed m w2 w3 -> passed (n + m) w1 w3.
Proof.
  intros [Hb Hi Hp Hs] [Kb Ki Kp Ks]. split; [lia|congruence|congruence|].
  destruct Hs as [Hs|[Hs (h & Hh)]], Ks as [Ks|[Ks (k & Hk)]]; rewrite ?Hs, ?Hh in *; eauto; congruence.
Qed.

Lemma wire_ensure_header_passed w : exists w', wire_ensure_header w = (Ok tt, w') /\ passed 0 w w' /\ is_Some (wr_sent w').
Proof.
  destruct w as [h [s|] ? ? ? ? ? ? ?]; (eexists; split; [reflexivity|]); (split; [|by eexists]); (split; [simpl; lia| | |]); try done.
  - by left.
  - right. split; [done|]. by eexists.
Qed.

Lemma take_event_passed body w : exists n err w', take_event body w = (Ok (n, err), w') /\ passed n w w'.
Proof.
  unfold take_event. destruct (wr_events w) as [|ev evs]; (do 3 eexists; split; [reflexivity|]);
    (split; [|done|done|by left]); simpl; by rewrite length_append.
Qed.

Lemma wire_Write_passed body w : exists n err w', wire_Write body w = (Ok (n, err), w') /\ passed n w w'.
Proof.
  destruct (wire_ensure_header_passed w) as (w1 & E & Hw & _).
  unfold wire_Write, bind, get_state. rewrite E. destruct (String.eqb body ""); [by exists O, None, w1|].
  destruct (negb _); [by exists O, (Some ErrBodyNotAllowed), w1|].
  destruct (take_event_passed body w1) as (n & err & w2 & -> & H2). exists n, err, w2. split; [done|].
  by apply (passed_trans 0 n w w1 w2).
Qed.

Lemma wire_copy_passed src : forall written w, exists n err w',
  wire_copy src written w = (Ok ((written + n)%nat, err), w') /\ passed n w w'.
Proof.
  assert (Hret : forall n (err : option error) (written : nat) (w w' : Wire), passed n w w' ->
    exists n2 (err2 : option error) w2, @ret Wire _ ((written + n)%nat, err) w' = (Ok ((written + n2)%nat, err2), w2) /\ passed n2 w w2).
  { intros n err written w w' H. by exists n, err, w'. }
  induction src as [|[data readErr] src IH]; intros written w; cbn [wire_copy].
  - exists O, None, w. rewrite Nat.add_0_r. split; [done|apply passed_refl].
  - assert (Hwrite : exists n err w1, (if String.eqb data "" then ret (O, None) else wire_Write data) w = (Ok (n, err), w1) /\
      passed n w w1).
    { destruct (String.eqb data ""); [exists O, None, w; split; [done|apply passed_refl]|apply wire_Write_passed]. }
    destruct Hwrite as (n & err & w1 & E & H1). unfold bind. rewrite E.
    destruct err as [e|]; [by apply Hret|]. destruct (negb _); [by apply Hret|].
    destruct readErr as [[|e]|]; [by apply Hret|by apply Hret|].
    destruct (IH (written + n)%nat w1) as (m & err & w2 & -> & H2).
    exists (n + m)%nat, err, w2. rewrite Nat.add_assoc. split; [done|]. by eapply passed_trans.
Qed.

(** The recorder has counted what the response has taken since [w], and nothing was logged. *)
Definition counted (w : Wire) (log : list log_entry) (x : responseRecorder) : Prop :=
  rr_bytes x + Z.of_nat (String.length (wr_body w)) = Z.of_nat (String.length (wr_body (rr_below x))) /\ rr_log x = log.

(** The status is the one that was sent, as long as none was interim or superfluous. *)
Definition status_sent (x : responseRecorder) : Prop :=
  wr_interim (rr_below x) = [] -> wr_superfluous (rr_below x) = [] ->
  match wr_sent (rr_below x) with
  | Some (code, _) => code <> 0 /\ rr_status x = code
  | None => rr_status x = 0 \/ rr_status x = 200
  end.

(** The header that was sent stays. *)
Definition keeps_sent (x x' : responseRecorder) : Prop :=
  is_Some (wr_sent (rr_below x)) -> wr_sent (rr_below x') = wr_sent (rr_below x).

(** What the recorder and its response know after a call, in whichever way it ended. *)
Definition tracks (w : Wire) (log : list log_entry) (x : responseRecorder) (r : result unit) (x' : responseRecorder) : Prop :=
  counted w log x' /\ keeps_sent x x' /\ (is_ok r = true -> status_sent x').

(** A call below that passed, after the default status. *)
Definition defaulted (x : responseRecorder) : Z := if rr_status x =? 0 then 200 else rr_status x.

Lemma passed_tracks n w log x w' status bytes :
  passed n (rr_below x) w' -> counted w log x -> status_sent x -> status = defaulted x -> bytes = rr_bytes x + Z.of_nat n ->
  tracks w log x (Ok tt) (MkRecorder w' status bytes (rr_log x)).
Proof.
  intros [Hb Hi Hp Hs] [Hc Hl] Hstat -> ->. split; [split; simpl; [lia|done]|]. unfold keeps_sent, status_sent, defaulted; simpl.
  split.
  - intros [s Hx]. destruct Hs as [Hs|[Hs _]]; congruence.
  - rewrite Hi, Hp. intros _ H1 H2. specialize (Hstat H1 H2).
    destruct Hs as [->|[Hs (h & ->)]]; [|rewrite Hs in Hstat].
    + destruct (wr_sent (rr_below x)) as [[code h]|].
      * destruct Hstat as [Hc0 ->]. destruct (Z.eqb_spec code 0); [lia|done].
      * destruct Hstat as [-> | ->]; auto.
    + destruct Hstat as [-> | ->]; auto.
Qed.

Lemma run_op_tracks w log o x : counted w log x -> status_sent x ->
  tracks w log x (match run_op o x with (Ok _, _) => Ok tt | (Err e, _) => Err e end) (run_op o x).2.
Proof.
  destruct x as [b status bytes lg]. intros Hc Hs.
  destruct o as [name value|name|code|body|src| |elapsed]; unfold run_op, bind.
  - destruct b; by split.
  - destruct b; by split.
  - unfold WriteHeader, bind, set_status, modify, below, wire_WriteHeader; cbn.
    destruct (wr_sent b) as [[code0 h]|] eqn:Eb.
    + split; [done|]. split; [by intros _; simpl; rewrite Eb|]. intros _ _ Hp. by apply app_nil in Hp as [_ ?].
    + destruct ((code <? 100) || (999 <? code)) eqn:Ec.
      { split; [done|]. split; [by intros [? ?]|done]. }
      apply orb_false_iff in Ec as [Ec _]. apply Z.ltb_ge in Ec.
      destruct (informational code); (split; [done|]); (split; [unfold keeps_sent; simpl; rewrite Eb; by intros [? ?]|]); intros _.
      * intros Hi. by apply app_nil in Hi as [_ ?].
      * intros _ _. simpl. split; [lia|done].
  - unfold Write, bind, default_status, modify, below; cbn. destruct (wire_Write_passed body b) as (n & err & w' & -> & Hw).
    cbn. by eapply (passed_tracks n w log (MkRecorder b status bytes lg)).
  - unfold ReadFrom, bind, default_status, modify, below, get_state; cbn.
    destruct (wire_copy_passed src 0 b) as (n & err & w' & E & Hw).
    destruct (wr_reader_from b); cbn; rewrite E; cbn; by eapply (passed_tracks n w log (MkRecorder b status bytes lg)).
  - unfold Flush, bind, default_status, modify, below, get_state; cbn -[wire_ensure_header].
    destruct (wire_ensure_header_passed b) as (w' & E & Hw & _).
    destruct (wr_flusher b); cbn -[wire_ensure_header]; rewrite ?E; cbn;
      eapply (passed_tracks 0 w log (MkRecorder b status bytes lg)); try done; solve [apply passed_refl|simpl; lia].
  - destruct b; by split.
Qed.

Lemma ServeHTTP_tracks w log next : forall x, counted w log x -> status_sent x ->
  tracks w log x (ServeHTTP next x).1 (ServeHTTP next x).2.
Proof.
  induction next as [|e|o k IH]; intros x Hc Hs; [by split|by split|]. cbn [ServeHTTP]. unfold bind.
  pose proof (run_op_tracks w log o x Hc Hs) as (Hc1 & Hk1 & Hs1).
  destruct (run_op o x) as [[res|e] x1]; cbn in *; [|by split].
  destruct (IH res x1 Hc1 (Hs1 eq_refl)) as (Hc2 & Hk2 & Hs2). split; [done|]. split; [|done].
  intros H. rewrite <- (Hk1 H). apply Hk2. by rewrite (Hk1 H).
Qed.

(** ** One request *)

(** Before a request: its response is new. *)
Definition fresh (x : responseRecorder) : Prop :=
  let w := rr_below x in wr_sent w = None /\ wr_interim w = [] /\ wr_superfluous w = [] /\ wr_body w = "".

(** The recorder that [Logging] makes. *)
Definition new_recorder (x : responseRecorder) : responseRecorder := MkRecorder (rr_below x) 0 0 (rr_log x).

(** The header that [http.Error] sends over those that were set. *)
Definition error_header (h : Header) : Header :=
  header_set "X-Content-Type-Options" "nosniff" (header_set "Content-Type" "text/plain; charset=utf-8"
    (header_del "Content-Length" h)).

Lemma http_Error_run message x : exists n w',
  http_Error message 500 x = (Ok tt, MkRecorder w' 500 (rr_bytes x + Z.of_nat n) (rr_log x)) /\
  String.length (wr_body w') = (String.length (wr_body (rr_below x)) + n)%nat /\
  wr_sent w' = Some (default (500, error_header (wr_header (rr_below x))) (wr_sent (rr_below x))) /\
  wr_interim w' = wr_interim (rr_below x) /\
  (wr_superfluous w' = [] -> wr_sent (rr_below x) = None).
Proof.
  destruct x as [[h sent interim sup body clock evs rf fl] status bytes lg].
  unfold http_Error, WriteHeader, Write, bind, set_status, default_status, modify, below, wire_header, wire_WriteHeader.
  destruct sent as [s|]; cbn -[wire_Write].
  all: match goal with |- context [wire_Write ?m ?w] =>
    destruct (wire_Write_passed m w) as (n & err & w' & E & [Hb Hi Hp Hs]); rewrite E; exists n, w' end.
  all: cbn in *; (split; [done|]); (split; [done|]); rewrite Hi, Hp; (split; [|split; [done|]]).
  - by destruct Hs as [Hs|[Hs _]].
  - by intros [_ ?]%app_nil.
  - by destruct Hs as [Hs|[Hs _]].
  - done.
Qed.

(** What the log and the client see of a request, [out] being how the handler ended and
    [x1] the recorder then. *)
Record request_logged (r : Request) (x x1 : responseRecorder) (out : result unit) (x' : responseRecorder)
    (panics : list log_entry) (status bytes duration : Z) : Prop := MkLogged {
  lg_log : rr_log x' = rr_log x ++ panics ++ [HttpRequest (rq_method r) (rq_path r) status bytes duration (rq_remote_addr r)];
  lg_bytes : bytes = Z.of_nat (String.length (wr_body (rr_below x')));
  lg_sent : is_Some (wr_sent (rr_below x'));
  lg_status : wr_interim (rr_below x') = [] -> wr_superfluous (rr_below x') = [] -> fst <$> wr_sent (rr_below x') = Some status;
  lg_panics : match out with
    | Ok _ => panics = []
    | Err e => panics = [PanicRecovered (rq_method r) (rq_path r) e] /\ status = 500 /\
        wr_sent (rr_below x') = Some (default (500, error_header (wr_header (rr_below x1))) (wr_sent (rr_below x1)))
    end;
}.

(** C32: every request leaves exactly one line in the access log and is answered, whatever its
    handler does and whether it panics or not: the line has the bytes the response took,
    and the status the client got unless the handler sent another one after or before
    it. A panic is logged and becomes a 500 with the headers of an error when nothing was
    sent yet; when a status was sent the client keeps that one, while the log says 500. *)
Theorem requests_are_logged cors r routes x : fresh x ->
  let '(out, x1) := ServeHTTP (cors routes) (new_recorder x) in
  exists panics status bytes duration x', answer cors r routes x = (Ok tt, x') /\
    request_logged r x x1 out x' panics status bytes duration.
Proof.
  intros (Hsent & Hi & Hp & Hbody).
  destruct (ServeHTTP (cors routes) (new_recorder x)) as [out x1] eqn:Er.
  assert (Hc0 : counted (rr_below x) (rr_log x) (new_recorder x)) by (split; simpl; [lia|done]).
  assert (Hs0 : status_sent (new_recorder x)) by (unfold status_sent; simpl; rewrite Hsent; auto).
  pose proof (ServeHTTP_tracks _ _ (cors routes) _ Hc0 Hs0) as (Hc & _ & Hs). rewrite Er in Hc, Hs. cbn in Hc, Hs.
  destruct Hc as [Hc Hl]. rewrite Hbody in Hc. simpl in Hc.
  unfold answer, Logging, bind, modify, get_state. fold (new_recorder x).
  unfold Recovery, bind, attempt. rewrite Er. destruct out as [[]|e]; cbn -[http_Error wire_ensure_header].
  - destruct (wire_ensure_header_passed (rr_below x1)) as (w' & E & [Hb' Hi' Hp' Hs'] & Hsome).
    unfold below. cbn -[wire_ensure_header]. rewrite E. exists []. do 4 eexists. split; [reflexivity|]. split; cbn; [by rewrite Hl|lia|done| |done].
    rewrite Hi', Hp'. intros H1 H2. specialize (Hs eq_refl H1 H2). unfold statusCode.
    destruct Hs' as [Hs'|[Hn (h & Hh)]].
    + rewrite Hs' in Hsome |- *. destruct Hsome as [[code h] Ec]. rewrite Ec in Hs |- *. destruct Hs as [Hc0' ->].
      destruct (Z.eqb_spec code 0); [lia|done].
    + rewrite Hn in Hs. rewrite Hh. destruct Hs as [-> | ->]; done.
  - match goal with |- context [http_Error ?m 500 ?y] =>
      destruct (http_Error_run m y) as (n & w1 & E & Hb1 & Hs1 & Hi1 & Hp1); rewrite E end.
    unfold below. cbn -[wire_ensure_header] in *.
    destruct (wire_ensure_header_passed w1) as (w' & E' & [Hb' Hi' Hp' Hs'] & Hsome).
    rewrite E'. exists [PanicRecovered (rq_method r) (rq_path r) e]. do 4 eexists. split; [reflexivity|].
    destruct Hs' as [Hs'|[Hn _]]; [|congruence].
    split; cbn; [by rewrite Hl, <- app_assoc|lia|done| |].
    + rewrite Hp'. intros _ H2. by rewrite Hs', Hs1, (Hp1 H2).
    + split; [done|]. split; [done|]. by rewrite Hs', Hs1.
Qed.

(** ** A witness *)

(** A download that begins with its length, and panics in the middle. *)
Definition broken_download : handler :=
  Do (OpHeaderSet "Content-Length" "9") (fun _ =>
  Do (OpWriteHeader 200) (fun _ =>
  Do (OpReadFrom [MkRead "abc" None; MkRead "def" None]) (fun _ => Panic (ErrOther "index out of range")))).

(** A handler that panics after setting a length. *)
Definition broken_handler : handler :=
  Do (OpHeaderSet "Content-Length" "9") (fun _ => Panic (ErrOther "nil map")).

Definition get_request : Request :=
  MkRequest "GET" "/b/k" "/b/k" "localhost" "127.0.0.1:5" false ∅ ∅ ∅ 0 [] None "".

Definition ErrContentLength : error := ErrOther "http: wrote more than the declared Content-Length".

Definition new_response : responseRecorder :=
  MkRecorder (MkWire ∅ None [] [] "" 0 [None; Some (MkEvent 3 None 4); Some (MkEvent 0 (Some ErrContentLength) 0)] true true) 0 0 [].

(** The client got a status 200 and six bytes; the log says 500. *)
Example broken_download_logged :
  let x := (answer id get_request broken_download new_response).2 in
  fst <$> wr_sent (rr_below x) = Some 200 /\ wr_body (rr_below x) = "abcdef" /\
  rr_log x = [PanicRecovered "GET" "/b/k" (ErrOther "index out of range");
              HttpRequest "GET" "/b/k" 500 6 4 "127.0.0.1:5"].
Proof. vm_compute. repeat split. Qed.

Example broken_handler_answered :
  (fun s => (s.1, header_get s.2 "Content-Length")) <$> wr_sent (rr_below (answer id get_request broken_handler new_response).2) = Some (500, "").
Proof. reflexivity. Qed.

Lemma requests_are_logged_witness :
  exists panics status bytes duration x', answer id get_request broken_download new_response = (Ok tt, x') /\
    request_logged get_request new_response (ServeHTTP broken_download (new_recorder new_response)).2
      (Err (ErrOther "index out of range")) x' panics status bytes duration.
Proof.
  assert (Hf : fresh new_response) by (repeat split; reflexivity).
  exact (requests_are_logged id get_request broken_download new_response Hf).
Defined.
