(* ===== verification/SigV4.v ===== *)
(** * AWS Signature Version 4: [internal/auth/sigv4.go], [errors.go]

    The canonical form of a request, its signature, and the authenticator for signed
    headers and presigned URLs; the signers that clients use. *)

From S2P Require Import Prelude GoStrings Encoding Hash GoTime GoParse GoUrl Effects Schema Db UserRepo Authz S3Http.

#[local] Open Scope Z_scope.

(** [errors.go]; an internal error keeps its cause. *)
Inductive AuthError : Type :=
  | ErrNotApplicable | ErrMissingAuth | ErrUnsupportedScheme | ErrMalformedToken | ErrInvalidCredentials
  | ErrInactiveUser | ErrInternal (cause : error) | ErrUnauthorized | ErrForbidden.

(** What an authenticator answers. *)
Abbreviation AuthResult := (AuthError + Principal)%type.

Definition sigV4Algorithm : string := "AWS4-HMAC-SHA256".
Definition sigV4Terminator : string := "aws4_request".
Definition unsignedPayload : string := "UNSIGNED-PAYLOAD".
Definition maxClockSkew : Z := 15 * 60 * second.

(** ** Parsing *)

(** One part of the header; [None] when it is not of the form [key=value]. *)
Definition auth_param (st : string * string * string) (part : string) : option (string * string * string) :=
  let part := trim_space part in
  if String.eqb part "" then Some st
  else
    let '(key, value, found) := cut part "=" in
    let '(credential, signedHeaders, signature) := st in
    if negb found then None
    else if String.eqb key "Credential" then Some (value, signedHeaders, signature)
    else if String.eqb key "SignedHeaders" then Some (credential, value, signature)
    else if String.eqb key "Signature" then Some (credential, signedHeaders, value)
    else Some st.

Fixpoint auth_params (st : string * string * string) (parts : list string) : option (string * string * string) :=
  match parts with
  | [] => Some st
  | part :: rest => match auth_param st part with Some st => auth_params st rest | None => None end
  end.

(** [parseAuthorizationHeader]: credential, signed headers and signature. *)
Definition parseAuthorizationHeader (header : string) : option (string * string * string) :=
  if negb (has_prefix header (sigV4Algorithm +:+ " ")) then None
  else match auth_params ("", "", "") (split (trim_prefix header (sigV4Algorithm +:+ " ")) ",") with
       | Some (credential, signedHeaders, signature) =>
           if String.eqb credential "" || String.eqb signedHeaders "" || String.eqb signature "" then None
           else Some (credential, signedHeaders, signature)
       | None => None
       end.

Definition validateSignedHeaders (s : string) : bool := existsb (String.eqb "host") (split s ";").

(** [parseCredential]: access key, date, region and service. *)
Definition parseCredential (credential : string) : option (string * string * string * string) :=
  match split credential "/" with
  | [accessKeyID; date; region; service; terminator] =>
      if negb (String.eqb terminator sigV4Terminator) then None
      else if String.eqb accessKeyID "" then None
      else if negb (string_len date =? 8) then None
      else if negb (forallb is_digit (String.list_ascii_of_string date)) then None
      else if String.eqb region "" then None
      else if negb (String.eqb service "s3") then None
      else Some (accessKeyID, date, region, service)
  | _ => None
  end.

(** [parseTimestamp]; the formats of a timestamp are in its own location. *)
Definition parseTimestamp (s : string) : option Timestamp :=
  if string_len s =? 16 then (fun t => (t, 0)) <$> parse_amz s
  else if string_len s =? 20 then (fun t => (t, 0)) <$> parse_amz_millis s
  else parse_RFC1123 s.

Definition stamp_day (ts : Timestamp) : string := format_day (ts.1 + ts.2 * second).
Definition stamp_amz (ts : Timestamp) : string := format_amz (ts.1 + ts.2 * second).

(** [validateTimestamp]: the difference saturates, and negating the least duration
    overflows to itself. *)
Definition validateTimestamp (amzDate credDate : string) (now : time) : bool :=
  if String.eqb amzDate "" then false
  else match parseTimestamp amzDate with
       | None => false
       | Some t =>
           if negb (String.eqb (stamp_day t) credDate) then false
           else
             let diff := time_sub now t.1 in
             let diff := if diff <? 0 then wrap64 (- diff) else diff in
             negb (maxClockSkew <? diff)
       end.

(** ** The canonical request *)

Definition getPayloadHash (r : Request) : string :=
  let hash := header_get (rq_header r) "X-Amz-Content-SHA256" in
  if String.eqb hash "" then unsignedPayload else hash.

(** [shouldEscape] and [uriEncode] *)
Definition shouldEscape (c : ascii) : bool :=
  negb (between 65 90 c || between 97 122 c || between 48 57 c || contains_byte "-_.~" c).
Definition uriEncode (s : string) : string := escape (fun c => negb (shouldEscape c)) false s.

(** [buildCanonicalQueryString]: sorted by key, and by value for each key. *)
Definition canonical_key (values : Values) (k : string) : list string :=
  (fun v => uriEncode k +:+ "=" +:+ uriEncode v) <$> merge_sort String.le (default [] (values !! k)).

Definition buildCanonicalQueryString (values : Values) (exclude : string -> bool) : string :=
  let keys := merge_sort String.le (filter (fun k => exclude k = false) (map_to_list values).*1) in
  join (keys ≫= canonical_key values) "&".

Definition is_blank (a : ascii) : bool :=
  Ascii.eqb a " " || (byte_val a =? 9) || (byte_val a =? 10) || (byte_val a =? 13).

(** [collapseWhitespace]: the loop is over runes, and writes U+FFFD for an invalid byte.
    [n] bounds the rounds, one per byte. *)
Fixpoint collapse (n : nat) (inSpace : bool) (s : string) : string :=
  match n, s with
  | O, _ | _, EmptyString => ""
  | S n, String a r =>
      if is_blank a then (if inSpace then collapse n true r else String " " (collapse n true r))
      else match rune_len s with
           | Some k => take_bytes k s +:+ collapse n false (drop_bytes k s)
           | None => replacement +:+ collapse n false r
           end
  end.

Definition collapseWhitespace (s : string) : string := trim_space (collapse (String.length s) false s).

Definition canonical_header (r : Request) (h : string) : string :=
  let value := if String.eqb h "host" then rq_host r else header_get (rq_header r) h in
  h +:+ ":" +:+ collapseWhitespace (trim_space value) +:+ String "010" "".

Definition buildCanonicalHeaders (r : Request) (signedHeaders : list string) : string :=
  join (canonical_header r <$> signedHeaders) "".

(** [buildCanonicalRequest] and [buildCanonicalRequestForQuery], which leaves the
    signature out of the query. *)
Definition canonical_request (r : Request) (exclude : string -> bool) (signedHeaders payloadHash : string) : string :=
  let canonicalURI := if String.eqb (rq_escaped_path r) "" then "/" else rq_escaped_path r in
  join [rq_method r; canonicalURI; buildCanonicalQueryString (rq_query r) exclude;
        buildCanonicalHeaders r (split signedHeaders ";"); signedHeaders; payloadHash] (String "010" "").

Definition buildCanonicalRequest (r : Request) : string -> string -> string :=
  canonical_request r (fun _ => false).
Definition buildCanonicalRequestForQuery (r : Request) : string -> string -> string :=
  canonical_request r (String.eqb "X-Amz-Signature").

(** [buildStringToSign]: the scope is the credential without the access key. *)
Definition buildStringToSign (timestamp credentialScope canonicalRequest : string) : string :=
  let '(_, after, ok) := cut credentialScope "/" in
  join [sigV4Algorithm; timestamp; if ok then after else credentialScope;
        hex_encode (sha256_sum canonicalRequest)] (String "010" "").

Definition computeSignature (secretKey date region service stringToSign : string) : string :=
  let kDate := hmac_sha256 ("AWS4" +:+ secretKey) date in
  let kRegion := hmac_sha256 kDate region in
  let kService := hmac_sha256 kRegion service in
  let kSigning := hmac_sha256 kService sigV4Terminator in
  hex_encode (hmac_sha256 kSigning stringToSign).

(** ** The authenticator *)

(** The user that a SigV4 access key belongs to, or the error. *)
Definition sigv4_user (accessKeyID : string) : M Db (AuthError + User) :=
  let! user := UserRepository.GetBySigV4AccessKeyID accessKeyID in
  match user with
  | Err ErrUserNotFound => ret (inl ErrInvalidCredentials)
  | Err err => ret (inl (ErrInternal err))
  | Ok user => ret (if us_is_active user then inr user else inl ErrInactiveUser)
  end.

Definition signed_principal (user : User) (signedHeaders payloadHash : string) : Principal :=
  MkPrincipal (us_id user) (us_display_name user) (us_sigv4_access_key_id user) (us_role user) false
    signedHeaders payloadHash.

(** The end of both forms: the signature is computed and compared. *)
Definition check_signature (user : User) (canonicalRequest amzDate credential credDate region service signature
    signedHeaders payloadHash : string) : AuthResult :=
  let stringToSign := buildStringToSign amzDate credential canonicalRequest in
  let expectedSignature := computeSignature (us_sigv4_secret_key user) credDate region service stringToSign in
  if negb (String.eqb signature expectedSignature) then inl ErrInvalidCredentials
  else inr (signed_principal user signedHeaders payloadHash).

Definition authenticateHeader (r : Request) : M Db AuthResult :=
  match parseAuthorizationHeader (header_get (rq_header r) "Authorization") with
  | None => ret (inl ErrMalformedToken)
  | Some (credential, signedHeaders, signature) =>
      if negb (validateSignedHeaders signedHeaders) then ret (inl ErrMalformedToken)
      else match parseCredential credential with
           | None => ret (inl ErrMalformedToken)
           | Some (accessKeyID, credDate, region, service) =>
               let rawDate := header_get (rq_header r) "X-Amz-Date" in
               let rawDate := if String.eqb rawDate "" then header_get (rq_header r) "Date" else rawDate in
               match parseTimestamp rawDate with
               | None => ret (inl ErrMalformedToken)
               | Some timestamp =>
                   let amzDate := stamp_amz timestamp in
                   now <- time_now ;;
                   if negb (validateTimestamp amzDate credDate now) then ret (inl ErrInvalidCredentials)
                   else
                     user <- sigv4_user accessKeyID ;;
                     match user with
                     | inl err => ret (inl err)
                     | inr user =>
                         let payloadHash := getPayloadHash r in
                         ret (check_signature user (buildCanonicalRequest r signedHeaders payloadHash) amzDate
                                credential credDate region service signature signedHeaders payloadHash)
                     end
               end
           end
  end.

Definition authenticateQuery (r : Request) : M Db AuthResult :=
  let q := rq_query r in
  let credential := values_get q "X-Amz-Credential" in
  let signedHeaders := values_get q "X-Amz-SignedHeaders" in
  let signature := values_get q "X-Amz-Signature" in
  let amzDate := values_get q "X-Amz-Date" in
  let expires := values_get q "X-Amz-Expires" in
  if negb (String.eqb (values_get q "X-Amz-Algorithm") sigV4Algorithm) then ret (inl ErrMalformedToken)
  else if String.eqb credential "" || String.eqb signedHeaders "" || String.eqb signature ""
          || String.eqb amzDate "" || String.eqb expires "" then ret (inl ErrMalformedToken)
  else if negb (validateSignedHeaders signedHeaders) then ret (inl ErrMalformedToken)
  else match parseCredential credential with
       | None => ret (inl ErrMalformedToken)
       | Some (accessKeyID, credDate, region, service) =>
           match parseTimestamp amzDate with
           | None => ret (inl ErrMalformedToken)
           | Some timestamp =>
               if negb (String.eqb (stamp_day timestamp) credDate) then ret (inl ErrInvalidCredentials)
               else
                 now <- time_now ;;
                 if timestamp.1 + 7 * 24 * 3600 * second <? now then ret (inl ErrInvalidCredentials)
                 else
                   now <- time_now ;;
                   if now + maxClockSkew <? timestamp.1 then ret (inl ErrInvalidCredentials)
                   else match parse_int expires with
                        | None => ret (inl ErrMalformedToken)
                        | Some expirySeconds =>
                            if (expirySeconds <=? 0) || (604800 <? expirySeconds) then ret (inl ErrMalformedToken)
                            else
                              now <- time_now ;;
                              if timestamp.1 + expirySeconds * second <? now then ret (inl ErrInvalidCredentials)
                              else
                                user <- sigv4_user accessKeyID ;;
                                match user with
                                | inl err => ret (inl err)
                                | inr user =>
                                    let payloadHash := values_get q "X-Amz-Content-SHA256" in
                                    let payloadHash := if String.eqb payloadHash "" then unsignedPayload else payloadHash in
                                    ret (check_signature user (buildCanonicalRequestForQuery r signedHeaders payloadHash)
                                           amzDate credential credDate region service signature signedHeaders payloadHash)
                                end
                        end
           end
       end.

(** [SigV4Authenticator.Authenticate]; the hook [Now] is nil outside tests. *)
Definition SigV4Authenticate (r : Request) : M Db AuthResult :=
  let authHeader := header_get (rq_header r) "Authorization" in
  if negb (String.eqb authHeader "") then
    if has_prefix authHeader sigV4Algorithm then authenticateHeader r else ret (inl ErrNotApplicable)
  else if negb (String.eqb (values_get (rq_query r) "X-Amz-Algorithm") "") then authenticateQuery r
  else ret (inl ErrNotApplicable).

(** ** Signing *)

Definition with_header (hd : Header) (r : Request) : Request :=
  MkRequest (rq_method r) (rq_path r) (rq_escaped_path r) (rq_host r) (rq_remote_addr r) (rq_tls r) (rq_params r) hd (rq_query r)
    (rq_content_length r) (rq_body r) (rq_principal r) (rq_id r).

Definition SignRequestAt (r : Request) (accessKeyID secretKey region service : string)
    (signedHeaders : list string) (payloadHash : string) (now : time) : Request :=
  let payloadHash := if String.eqb payloadHash "" then unsignedPayload else payloadHash in
  let timestamp := format_amz now in
  let date := format_day now in
  let hd := header_set "X-Amz-Date" timestamp (rq_header r) in
  let hd := if String.eqb (header_get hd "Host") "" && negb (String.eqb (rq_host r) "")
            then header_set "Host" (rq_host r) hd else hd in
  let hd := if negb (String.eqb payloadHash unsignedPayload) then header_set "X-Amz-Content-SHA256" payloadHash hd
            else hd in
  let r := with_header hd r in
  let signedHeadersStr := join signedHeaders ";" in
  let canonicalRequest := buildCanonicalRequest r signedHeadersStr payloadHash in
  let credential := join [accessKeyID; date; region; service; sigV4Terminator] "/" in
  let stringToSign := buildStringToSign timestamp credential canonicalRequest in
  let signature := computeSignature secretKey date region service stringToSign in
  with_header (header_set "Authorization"
    (sigV4Algorithm +:+ " Credential=" +:+ credential +:+ ", SignedHeaders=" +:+ signedHeadersStr
     +:+ ", Signature=" +:+ signature) hd) r.
