(* ===== verification/SigV4Spec.v ===== *)
(** * Signature Version 4: what signing and checking promise

    A request that a client signs is authenticated as the owner of its key; a request
    that is authenticated carries the signature of its own canonical form under the
    secret of an active user, and is fresh. *)

From S2P Require Import Prelude GoStrings Encoding Hash GoTime GoParse GoUrl Effects Schema Db UserRepo Authz S3Http SigV4.

#[local] Open Scope Z_scope.

(** ** The header that is written is the header that is read *)

Lemma hex_class s P : (forall a, between 48 57 a || between 97 102 a = true -> P a = true) ->
  forallb P (String.list_ascii_of_string (hex_encode s)) = true.
Proof. intros HP. eapply class_impl; [exact HP|apply hex_encode_text]. Qed.

(** A value that the header can carry. *)
Definition plain (s : string) : Prop := s <> "" /\ all_printable s = true /\ contains_byte s "," = false.

Lemma plain_nonempty s : plain s -> String.eqb s "" = false.
Proof. intros (Hs & _). by apply String.eqb_neq. Qed.

Lemma auth_param_plain st key value lead :
  all_printable key = true -> contains_byte key "=" = false -> plain value -> lead = "" \/ lead = " " ->
  auth_param st (lead +:+ key +:+ String "=" value) =
    let '(credential, signedHeaders, signature) := st in
    if String.eqb key "Credential" then Some (value, signedHeaders, signature)
    else if String.eqb key "SignedHeaders" then Some (credential, value, signature)
    else if String.eqb key "Signature" then Some (credential, signedHeaders, value)
    else Some st.
Proof.
  intros Hk He (_ & Hv & _) Hl. unfold auth_param.
  assert (Hp : all_printable (key +:+ String "=" value) = true).
  { rewrite all_printable_append, Hk, all_printable_cons, Hv. done. }
  assert (Et : trim_space (lead +:+ key +:+ String "=" value) = key +:+ String "=" value).
  { destruct Hl as [->| ->]; [by apply trim_space_all_printable|by apply trim_space_leading]. }
  cbv zeta. rewrite Et, cut_append by done.
  destruct (String.eqb_spec (key +:+ String "=" value) "") as [E|_]; [by destruct key|].
  by destruct st as [[credential signedHeaders] signature].
Qed.

Lemma parse_signed_header credential signedHeaders signature :
  plain credential -> plain signedHeaders -> plain signature ->
  parseAuthorizationHeader (sigV4Algorithm +:+ " Credential=" +:+ credential +:+ ", SignedHeaders=" +:+ signedHeaders
    +:+ ", Signature=" +:+ signature) = Some (credential, signedHeaders, signature).
Proof.
  intros Hc Hh Hs. unfold parseAuthorizationHeader.
  set (params := "Credential=" +:+ credential +:+ ", SignedHeaders=" +:+ signedHeaders +:+ ", Signature=" +:+ signature).
  change (sigV4Algorithm +:+ " Credential=" +:+ _) with ((sigV4Algorithm +:+ " ") +:+ params).
  rewrite has_prefix_append, trim_prefix_append. cbn [negb].
  assert (Eparams : params = ("Credential" +:+ String "=" credential) +:+ String ","
            ((" " +:+ "SignedHeaders" +:+ String "=" signedHeaders) +:+ String ","
              (" " +:+ "Signature" +:+ String "=" signature))) by (unfold params; by rewrite !append_assoc).
  assert (Hno : forall key value, contains_byte key "," = false -> plain value ->
            contains_byte (key +:+ String "=" value) "," = false).
  { intros key value Hk (_ & _ & Hv). rewrite contains_byte_append, Hk. exact Hv. }
  rewrite Eparams, split_append_sep by by apply Hno.
  rewrite split_append_sep by by apply (Hno (" " +:+ "SignedHeaders")).
  rewrite split_no_sep by by apply (Hno (" " +:+ "Signature")).
  cbn [auth_params]. rewrite (auth_param_plain _ "Credential" credential "") by (done || by left).
  cbn [String.eqb Ascii.eqb Bool.eqb]. rewrite (auth_param_plain _ "SignedHeaders" signedHeaders " ") by (done || by right).
  cbn [String.eqb Ascii.eqb Bool.eqb]. rewrite (auth_param_plain _ "Signature" signature " ") by (done || by right).
  cbn [String.eqb Ascii.eqb Bool.eqb]. by rewrite !plain_nonempty.
Qed.

(** ** The canonical request *)

(** Setting a header that is not signed changes nothing. *)
Lemma canonical_request_with_header hd name value r exclude signedHeaders payloadHash :
  Forall (fun h => CanonicalHeaderKey h <> CanonicalHeaderKey name) (split signedHeaders ";") ->
  canonical_request (with_header (header_set name value hd) r) exclude signedHeaders payloadHash =
  canonical_request (with_header hd r) exclude signedHeaders payloadHash.
Proof.
  intros Hh. unfold canonical_request, buildCanonicalHeaders. do 2 f_equal.
  do 3 f_equal. f_equal. apply list_fmap_ext. intros i h Hi. unfold canonical_header.
  rewrite Forall_lookup in Hh. specialize (Hh i h Hi). simpl.
  destruct (String.eqb h "host"); [done|]. unfold header_get, header_set. by rewrite lookup_insert_ne.
Qed.

(** ** Credentials *)

Lemma parse_signed_credential accessKeyID region now :
  accessKeyID <> "" -> contains_byte accessKeyID "/" = false ->
  region <> "" -> contains_byte region "/" = false -> 0 <= year_of now < 10000 ->
  parseCredential (join [accessKeyID; format_day now; region; "s3"; sigV4Terminator] "/") =
    Some (accessKeyID, format_day now, region, "s3").
Proof.
  intros Hk Hks Hr Hrs Hy. destruct (format_day_digits now Hy) as [Hlen Hdig]. unfold parseCredential.
  rewrite (split_join _ "/") by (done || (repeat constructor; try done; by eapply class_no_byte)).
  apply String.eqb_neq in Hk, Hr. unfold string_len. by rewrite Hk, Hr, Hlen, Hdig.
Qed.

(** ** Signed headers *)

(** The name of a header. *)
Definition header_name (h : string) : bool :=
  negb (String.eqb h "") && forallb is_token_byte (String.list_ascii_of_string h).

Lemma forallb_join (P : ascii -> bool) c l :
  P c = true -> Forall (fun s => forallb P (String.list_ascii_of_string s) = true) l ->
  forallb P (String.list_ascii_of_string (join l (String c ""))) = true.
Proof.
  intros Hc Hl. induction Hl as [|s l Hs Hl IH]; [done|]. destruct l as [|t l]; [done|].
  change (join (s :: t :: l) (String c "")) with (s +:+ String c "" +:+ join (t :: l) (String c "")).
  rewrite !forallb_append, Hs, IH. cbn. by rewrite Hc.
Qed.

Lemma token_byte_class a :
  is_token_byte a = true ->
  between 33 127 a && negb (Ascii.eqb a ",") && negb (Ascii.eqb a ";") = true.
Proof. destruct a as [[] [] [] [] [] [] [] []]; vm_compute; congruence. Qed.

Lemma header_name_class h : header_name h = true ->
  h <> "" /\ forallb (fun a => between 33 127 a && negb (Ascii.eqb a ",") && negb (Ascii.eqb a ";"))
    (String.list_ascii_of_string h) = true.
Proof.
  intros [Hne Hh]%andb_true_iff. split; [by apply String.eqb_neq, negb_true_iff|].
  eapply class_impl; [exact token_byte_class|done].
Qed.

Lemma signed_headers_plain l :
  l <> [] -> Forall (fun h => header_name h = true) l -> plain (join l ";") /\ split (join l ";") ";" = l.
Proof.
  intros Hne Hl. assert (Hc : Forall (fun h => h <> "" /\ forallb (fun a => between 33 127 a && negb (Ascii.eqb a ",")
    && negb (Ascii.eqb a ";")) (String.list_ascii_of_string h) = true) l).
  { eapply Forall_impl; [exact Hl|]. apply header_name_class. }
  assert (Hjoin : forallb (fun a => between 33 127 a && negb (Ascii.eqb a ","))
            (String.list_ascii_of_string (join l ";")) = true).
  { apply forallb_join; [done|]. eapply Forall_impl; [exact Hc|]. intros h [_ Hh].
    eapply class_impl; [|exact Hh]. intros a [Ha _]%andb_true_iff. exact Ha. }
  split; [split; [|split]|].
  - destruct l as [|h l]; [done|]. apply Forall_cons in Hc as [[Hh _] _].
    destruct l; [done|]. by destruct h.
  - eapply class_impl; [|exact Hjoin]. intros a [Ha _]%andb_true_iff. exact Ha.
  - eapply class_no_byte; [exact Hjoin|done].
  - apply split_join; [done|]. eapply Forall_impl; [exact Hc|]. intros h [_ Hh].
    eapply class_no_byte; [exact Hh|done].
Qed.

(** ** Time *)

Lemma stamp_utc t : stamp_day (t, 0) = format_day t /\ stamp_amz (t, 0) = format_amz t.
Proof. unfold stamp_day, stamp_amz. cbn [fst snd]. by replace (t + 0 * second) with t by lia. Qed.

Lemma fresh_timestamp signed now :
  0 <= year_of signed < 10000 -> Z.abs (now - signed / second * second) <= maxClockSkew ->
  validateTimestamp (format_amz signed) (format_day signed) now = true.
Proof.
  intros Hy Hnow. unfold validateTimestamp, parseTimestamp, string_len.
  rewrite format_amz_length, parse_format_amz by done.
  destruct (String.eqb_spec (format_amz signed) "") as [E|_].
  { pose proof (format_amz_length signed Hy) as Hl. by rewrite E in Hl. }
  change (Z.of_nat 16 =? 16) with true. cbn [fmap option_fmap option_map fst].
  rewrite (proj1 (stamp_utc _)), format_day_truncated, String.eqb_refl. cbn [negb].
  unfold maxClockSkew, time_sub, second, min_int64, max_int64 in *.
  rewrite Z.min_r, Z.max_r by lia. apply negb_true_iff, Z.ltb_ge.
  destruct (Z.ltb_spec (now - signed / 1000000000 * 1000000000) 0); [|lia].
  rewrite wrap64_id; [lia|]. unfold min_int64, max_int64. lia.
Qed.

(** ** Signing and authenticating *)

(** What a client may sign: a key and a region without separators, and headers that
    include the host and not the authorization itself. *)
Record signable (accessKeyID region : string) (signedHeaders : list string) (now : time) : Prop := {
  sg_key : plain accessKeyID /\ contains_byte accessKeyID "/" = false;
  sg_region : plain region /\ contains_byte region "/" = false;
  sg_headers : Forall (fun h => header_name h = true) signedHeaders;
  sg_host : "host" ∈ signedHeaders;
  sg_authorization : Forall (fun h => CanonicalHeaderKey h <> "Authorization") signedHeaders;
  sg_year : 0 <= year_of now < 10000;
}.

Lemma credential_plain accessKeyID region now :
  plain accessKeyID -> plain region -> 0 <= year_of now < 10000 ->
  plain (join [accessKeyID; format_day now; region; "s3"; sigV4Terminator] "/").
Proof.
  intros (Hk & Hkp & Hkc) (Hr & Hrp & Hrc) Hy. destruct (format_day_digits now Hy) as [_ Hd].
  assert (Hnc : forall s, contains_byte s "," = false ->
    forallb (fun a => negb (Ascii.eqb a ",")) (String.list_ascii_of_string s) = true).
  { intros s. induction s as [|a s IH]; [done|]. cbn. intros [Ha Hs]%orb_false_iff. by rewrite Ha, IH. }
  split; [by destruct accessKeyID|split].
  - apply (forallb_join (between 33 127) "/"); [done|]. repeat constructor; try done.
    eapply class_impl; [|exact Hd]. unfold is_digit, between. intros a. lia.
  - apply (class_no_byte (fun a => negb (Ascii.eqb a ","))); [|done].
    apply (forallb_join _ "/"); [done|]. repeat constructor; try done; try by apply Hnc.
    eapply class_impl; [|exact Hd]. intros a Ha. apply negb_true_iff, Ascii.eqb_neq. by intros ->.
Qed.

Lemma hex_plain mac : String.length mac = 32%nat -> plain (hex_encode mac).
Proof.
  intros Hm. split; [|split].
  - intros E%(f_equal String.length). rewrite hex_encode_length, Hm in E. discriminate E.
  - apply hex_class. unfold between. intros a. lia.
  - eapply class_no_byte; [apply hex_encode_text|done].
Qed.

Lemma signature_plain secret date region service text : plain (computeSignature secret date region service text).
Proof. unfold computeSignature. apply hex_plain, hmac_size. Qed.

(** The headers that a signer sets before it signs. *)
Lemma signed_request_headers r date payloadHash :
  payloadHash <> "" ->
  (payloadHash = unsignedPayload ->
   header_get (rq_header r) "X-Amz-Content-SHA256" = "" \/
   header_get (rq_header r) "X-Amz-Content-SHA256" = unsignedPayload) ->
  let hd := header_set "X-Amz-Date" date (rq_header r) in
  let hd := if String.eqb (header_get hd "Host") "" && negb (String.eqb (rq_host r) "")
            then header_set "Host" (rq_host r) hd else hd in
  let hd := if negb (String.eqb payloadHash unsignedPayload) then header_set "X-Amz-Content-SHA256" payloadHash hd
            else hd in
  forall auth,
    getPayloadHash (with_header (header_set "Authorization" auth hd) r) = payloadHash /\
    header_get (header_set "Authorization" auth hd) "X-Amz-Date" = date.
Proof.
  intros Hne Hun. cbv zeta. intros auth. unfold getPayloadHash, header_get, header_set in *.
  assert (Hkeys : CanonicalHeaderKey "X-Amz-Date" = "X-Amz-Date" /\ CanonicalHeaderKey "Host" = "Host" /\
    CanonicalHeaderKey "X-Amz-Content-SHA256" = "X-Amz-Content-Sha256" /\
    CanonicalHeaderKey "Authorization" = "Authorization") by by vm_compute.
  destruct Hkeys as (-> & -> & Esha & ->). rewrite Esha in *. apply String.eqb_neq in Hne as Hne'. cbn [rq_header with_header].
  destruct (String.eqb_spec payloadHash unsignedPayload) as [Ep|Ep]; cbn [negb].
  - specialize (Hun Ep). rewrite Ep.
    destruct (_ && _); rewrite !(lookup_insert_ne _ "Authorization") by done;
      rewrite ?(lookup_insert_ne _ "Host") by done;
      rewrite lookup_insert_eq, !lookup_insert_ne by done; (split; [|done]);
      destruct (rq_header r !! _) as [[|v l]|]; try done; destruct Hun as [->| ->]; done.
  - destruct (_ && _); rewrite !(lookup_insert_ne _ "Authorization"), lookup_insert_eq, Hne' by done;
      (split; [done|]); rewrite !lookup_insert_ne by done; by rewrite lookup_insert_eq.
Qed.

(** A request whose headers are those of a signer is checked against its canonical form. *)
Lemma authenticateHeader_signed r accessKeyID region signedHeaders signature payload signedAt user s :
  signable accessKeyID region signedHeaders signedAt ->
  Z.abs (db_clock s - signedAt / second * second) <= maxClockSkew ->
  plain signature ->
  UserRepository.GetBySigV4AccessKeyID accessKeyID s = (Ok user, s) -> us_is_active user = true ->
  let credential := join [accessKeyID; format_day signedAt; region; "s3"; sigV4Terminator] "/" in
  let str := join signedHeaders ";" in
  header_get (rq_header r) "Authorization" = sigV4Algorithm +:+ " Credential=" +:+ credential +:+
    ", SignedHeaders=" +:+ str +:+ ", Signature=" +:+ signature ->
  header_get (rq_header r) "X-Amz-Date" = format_amz signedAt -> getPayloadHash r = payload ->
  SigV4Authenticate r s =
  (Ok (check_signature user (buildCanonicalRequest r str payload) (format_amz signedAt) credential
         (format_day signedAt) region "s3" signature str payload), s).
Proof.
  intros [[Hkey Hkeys] [Hreg Hregs] Hnames Hhost Hauth Hyear] Hclock Hsig Huser Hactive.
  cbv zeta. intros Eauth Hdate Hpay.
  assert (Hnil : signedHeaders <> []) by (intros ->; by apply not_elem_of_nil in Hhost).
  destruct (signed_headers_plain signedHeaders Hnil Hnames) as [Hstr Hsplit].
  pose proof (credential_plain accessKeyID region signedAt Hkey Hreg Hyear) as Hcred.
  unfold SigV4Authenticate. rewrite Eauth.
  change (String.eqb (sigV4Algorithm +:+ _) "") with false.
  change (has_prefix (sigV4Algorithm +:+ _) sigV4Algorithm) with true. cbn [negb].
  unfold authenticateHeader. rewrite Eauth, parse_signed_header by done.
  assert (Hvalid : validateSignedHeaders (join signedHeaders ";") = true).
  { unfold validateSignedHeaders. rewrite Hsplit. apply existsb_exists. exists "host".
    split; [by apply list_elem_of_In|done]. }
  rewrite Hvalid, parse_signed_credential by (try apply Hkey; try apply Hreg; done). cbn [negb].
  rewrite Hdate. destruct (String.eqb_spec (format_amz signedAt) "") as [E|_].
  { pose proof (format_amz_length signedAt Hyear) as Hl. by rewrite E in Hl. }
  unfold parseTimestamp, string_len. rewrite format_amz_length, parse_format_amz by done.
  change (Z.of_nat 16 =? 16) with true. cbn [fmap option_fmap option_map].
  rewrite (proj2 (stamp_utc _)), format_amz_truncated.
  unfold bind at 1. cbn [time_now]. rewrite fresh_timestamp by done. cbn [negb].
  unfold sigv4_user, attempt, bind. rewrite Huser, Hactive. cbn [ret]. by rewrite Hpay.
Qed.

(** A signed request is accepted. *)
Lemma signed_request_run r accessKeyID region signedHeaders payloadHash signedAt user s :
  signable accessKeyID region signedHeaders signedAt ->
  Z.abs (db_clock s - signedAt / second * second) <= maxClockSkew ->
  (payloadHash = "" \/ payloadHash = unsignedPayload ->
   header_get (rq_header r) "X-Amz-Content-SHA256" = "" \/
   header_get (rq_header r) "X-Amz-Content-SHA256" = unsignedPayload) ->
  UserRepository.GetBySigV4AccessKeyID accessKeyID s = (Ok user, s) -> us_is_active user = true ->
  SigV4Authenticate
    (SignRequestAt r accessKeyID (us_sigv4_secret_key user) region "s3" signedHeaders payloadHash signedAt) s =
  (Ok (inr (signed_principal user (join signedHeaders ";")
              (if String.eqb payloadHash "" then unsignedPayload else payloadHash))), s).
Proof.
  intros Hsg Hclock Hun Huser Hactive. unfold SignRequestAt. cbv zeta.
  set (payload := if String.eqb payloadHash "" then unsignedPayload else payloadHash).
  assert (Hne : payload <> "") by (unfold payload; by destruct (String.eqb_spec payloadHash "")).
  assert (Hpayload : payload = unsignedPayload -> payloadHash = "" \/ payloadHash = unsignedPayload)
    by (unfold payload; destruct (String.eqb_spec payloadHash ""); auto).
  pose proof (signed_request_headers r (format_amz signedAt) payload Hne (fun E => Hun (Hpayload E))) as Hheaders.
  cbv zeta in Hheaders.
  set (hd := if negb (String.eqb payload unsignedPayload) then _ else _) in *.
  set (credential := join [_; _; _; _; _] "/"). set (str := join signedHeaders ";").
  set (text := buildStringToSign _ credential _).
  change (with_header ?a (with_header hd r)) with (with_header a r).
  set (auth := sigV4Algorithm +:+ " Credential=" +:+ _). destruct (Hheaders auth) as [Hpay Hdate].
  rewrite (authenticateHeader_signed _ accessKeyID region signedHeaders _ payload signedAt user s Hsg Hclock
    (signature_plain (us_sigv4_secret_key user) (format_day signedAt) region "s3" text) Huser Hactive).
  - unfold check_signature. fold credential str.
    assert (Ecanon : buildCanonicalRequest (with_header (header_set "Authorization" auth hd) r) str payload =
      buildCanonicalRequest (with_header hd r) str payload).
    { apply canonical_request_with_header. destruct Hsg as [_ _ Hnames Hhost Hauth _].
      assert (Hnil : signedHeaders <> []) by (intros ->; by apply not_elem_of_nil in Hhost).
      unfold str. by rewrite (proj2 (signed_headers_plain signedHeaders Hnil Hnames)). }
    rewrite Ecanon. fold text. by rewrite String.eqb_refl.
  - unfold header_get, header_set. cbn [rq_header with_header]. by rewrite lookup_insert_eq.
  - exact Hdate.
  - exact Hpay.
Qed.

(** C37: what a client signs, the server accepts. A request that SignRequestAt has
    signed with the secret of an active user, at most fifteen minutes away from the
    server's clock, is authenticated as that user, with the headers and the payload
    hash that were signed. *)
Theorem signed_request_authenticates r accessKeyID region signedHeaders payloadHash signedAt user s :
  signable accessKeyID region signedHeaders signedAt ->
  Z.abs (db_clock s - signedAt / second * second) <= maxClockSkew ->
  (payloadHash = "" \/ payloadHash = unsignedPayload ->
   header_get (rq_header r) "X-Amz-Content-SHA256" = "" \/
   header_get (rq_header r) "X-Amz-Content-SHA256" = unsignedPayload) ->
  UserRepository.GetBySigV4AccessKeyID accessKeyID s = (Ok user, s) -> us_is_active user = true ->
  SigV4Authenticate
    (SignRequestAt r accessKeyID (us_sigv4_secret_key user) region "s3" signedHeaders payloadHash signedAt) s =
  (Ok (inr (signed_principal user (join signedHeaders ";")
              (if String.eqb payloadHash "" then unsignedPayload else payloadHash))), s).
Proof. apply signed_request_run. Qed.
