(* ===== verification/SigV4Exact.v ===== *)
(** * Signature Version 4: who is authenticated

    The reference definition of an authentic request, as an inductive relation, and its
    equivalence with the authenticator; what the clock skew check lets through. *)

From S2P Require Import Prelude GoStrings Encoding Hash GoTime GoParse GoUrl Effects Schema Db UserRepo Authz S3Http SigV4 SigV4Spec.

#[local] Open Scope Z_scope.

(** ** What a request claims *)

(** The claims of a signed request: who signed it, for which day and region, the
    credential as it was written, the signed headers, the signature, the time stamp as
    it was signed, the payload hash and the canonical form. *)
Record Claims : Type := MkClaims {
  cl_key : string;
  cl_date : string;
  cl_region : string;
  cl_credential : string;
  cl_headers : string;
  cl_signature : string;
  cl_stamp : string;
  cl_payload : string;
  cl_canonical : string;
}.

(** The credential names its parts, the host is signed, and the time stamp is of the
    day of the credential. *)
Definition well_formed (c : Claims) (ts : Timestamp) : Prop :=
  parseCredential (cl_credential c) = Some (cl_key c, cl_date c, cl_region c, "s3") /\
  "host" ∈ split (cl_headers c) ";" /\ parseTimestamp (cl_stamp c) = Some ts /\ stamp_day ts = cl_date c.

(** At most fifteen minutes away - or so far ahead that the difference of the clocks
    does not fit in 64 bits of nanoseconds. *)
Definition fresh (now t : time) : Prop := Z.abs (now - t) <= maxClockSkew \/ 2 ^ 63 <= t - now.

(** The claims of a request with a signed header, and of a presigned URL. *)
Inductive claims (r : Request) (now : time) : Claims -> Prop :=
  | header_claims c ts0 ts raw :
      parseAuthorizationHeader (header_get (rq_header r) "Authorization") =
        Some (cl_credential c, cl_headers c, cl_signature c) ->
      raw = (if String.eqb (header_get (rq_header r) "X-Amz-Date") "" then header_get (rq_header r) "Date"
             else header_get (rq_header r) "X-Amz-Date") ->
      parseTimestamp raw = Some ts0 -> cl_stamp c = stamp_amz ts0 ->
      well_formed c ts -> fresh now ts.1 ->
      cl_payload c = getPayloadHash r ->
      cl_canonical c = buildCanonicalRequest r (cl_headers c) (cl_payload c) -> claims r now c
  | query_claims c ts expires :
      header_get (rq_header r) "Authorization" = "" ->
      values_get (rq_query r) "X-Amz-Algorithm" = sigV4Algorithm ->
      cl_credential c = values_get (rq_query r) "X-Amz-Credential" ->
      cl_headers c = values_get (rq_query r) "X-Amz-SignedHeaders" ->
      cl_signature c = values_get (rq_query r) "X-Amz-Signature" -> cl_signature c <> "" ->
      cl_stamp c = values_get (rq_query r) "X-Amz-Date" ->
      well_formed c ts ->
      parse_int (values_get (rq_query r) "X-Amz-Expires") = Some expires -> 0 < expires <= 604800 ->
      ts.1 - maxClockSkew <= now <= ts.1 + expires * second ->
      cl_payload c = (if String.eqb (values_get (rq_query r) "X-Amz-Content-SHA256") "" then unsignedPayload
                      else values_get (rq_query r) "X-Amz-Content-SHA256") ->
      cl_canonical c = buildCanonicalRequestForQuery r (cl_headers c) (cl_payload c) -> claims r now c.

(** The claims are signed with the secret of an active user that owns the key. *)
Definition signed_by (t : Tables) (c : Claims) (user : User) : Prop :=
  (exists row, t_users t !! us_id user = Some row /\ ur_sigv4_access_key_id row = Some (cl_key c) /\
     user = UserRepository.scanUser (us_id user) row) /\
  us_is_active user = true /\
  cl_signature c = computeSignature (us_sigv4_secret_key user) (cl_date c) (cl_region c) "s3"
    (buildStringToSign (cl_stamp c) (cl_credential c) (cl_canonical c)).

Definition authentic (r : Request) (now : time) (t : Tables) (p : Principal) : Prop :=
  exists c user, claims r now c /\ signed_by t c user /\ p = signed_principal user (cl_headers c) (cl_payload c).

(** ** The user of a key *)

Definition has_sigv4_key (key : string) (r : UserRow) : bool :=
  match ur_sigv4_access_key_id r with Some k => String.eqb k key | None => false end.

Lemma has_sigv4_key_true key r : has_sigv4_key key r = true <-> ur_sigv4_access_key_id r = Some key.
Proof.
  unfold has_sigv4_key. destruct (ur_sigv4_access_key_id r) as [k|]; [|done].
  rewrite String.eqb_eq. split; congruence.
Qed.

(** An answer of [sigv4_user] is an active user of the tables who owns the key. *)
Lemma wp_sigv4_user key s :
  wp (sigv4_user key) (fun res s' => db_tables s' = db_tables s /\
    match res with
    | Ok (inr user) => us_is_active user = true /\ exists row, t_users (db_tables s) !! us_id user = Some row /\
        ur_sigv4_access_key_id row = Some key /\ user = UserRepository.scanUser (us_id user) row
    | _ => True
    end) s.
Proof.
  unfold sigv4_user. apply wp_bind, wp_attempt. unfold UserRepository.GetBySigV4AccessKeyID.
  apply wp_bind, wp_query; [done|]. intros fs. destruct (UserRepository.find_user _ _) as [[id row]|] eqn:E; [|done].
  apply wp_ret, wp_ret. split; [done|]. apply find_user_some in E as [Hrow Hkey].
  destruct (us_is_active _) eqn:Ea; [|done]. split; [done|].
  exists row. split_and!; [done|by apply has_sigv4_key_true|done].
Qed.

(** Without faults, the owner of a key is found. *)
Lemma GetBySigV4AccessKeyID_run s id row key :
  wf_tables (db_tables s) -> db_faults s = [] -> t_users (db_tables s) !! id = Some row ->
  ur_sigv4_access_key_id row = Some key ->
  UserRepository.GetBySigV4AccessKeyID key s = (Ok (UserRepository.scanUser id row), s).
Proof.
  intros Hwf Hfaults Hrow Hkey. unfold UserRepository.GetBySigV4AccessKeyID, bind. rewrite query_run by done.
  fold (has_sigv4_key key). rewrite (find_user_unique (has_sigv4_key key) _ id row Hrow); [done|by apply has_sigv4_key_true|].
  intros id' row' Hrow' Hkey'%has_sigv4_key_true. by apply (wt_sigv4_key _ Hwf id' id row' row key).
Qed.

Lemma sigv4_user_run key s id row :
  wf_tables (db_tables s) -> db_faults s = [] ->
  t_users (db_tables s) !! id = Some row -> ur_sigv4_access_key_id row = Some key -> ur_is_active row = true ->
  sigv4_user key s = (Ok (inr (UserRepository.scanUser id row)), s).
Proof.
  intros Hwf Hfaults Hrow Hkey Hactive. unfold sigv4_user, attempt, bind.
  rewrite (GetBySigV4AccessKeyID_run s id row key) by done. cbn. by rewrite Hactive.
Qed.

(** ** The checks *)

Lemma validateSignedHeaders_true s : validateSignedHeaders s = true <-> "host" ∈ split s ";".
Proof.
  unfold validateSignedHeaders. rewrite existsb_exists. split.
  - intros (x & Hx & ->%String.eqb_eq). by apply list_elem_of_In.
  - intros H%list_elem_of_In. by exists "host".
Qed.

(** The skew check: the absolute value of the difference overflows for the farthest
    future, and the overflow passes. *)
Lemma skew_check now t :
  (let diff := time_sub now t in
   let diff := if diff <? 0 then wrap64 (- diff) else diff in negb (maxClockSkew <? diff)) = true <-> fresh now t.
Proof.
  cbv zeta. rewrite negb_true_iff, Z.ltb_ge. unfold fresh, time_sub, maxClockSkew, second.
  destruct (decide (2 ^ 63 <= t - now)) as [Hfar|Hnear].
  - replace (Z.max min_int64 (Z.min max_int64 (now - t))) with min_int64 by (unfold min_int64, max_int64; lia).
    change (min_int64 <? 0) with true. change (wrap64 (- min_int64)) with min_int64. unfold min_int64. split; [by right|lia].
  - destruct (Z.ltb_spec (Z.max min_int64 (Z.min max_int64 (now - t))) 0) as [Hneg|Hpos];
      unfold min_int64, max_int64 in *; [|lia]. rewrite wrap64_id by (unfold min_int64, max_int64; lia). lia.
Qed.

Lemma validateTimestamp_true amzDate credDate now :
  validateTimestamp amzDate credDate now = true <->
  exists ts, parseTimestamp amzDate = Some ts /\ stamp_day ts = credDate /\ fresh now ts.1.
Proof.
  unfold validateTimestamp. destruct (String.eqb_spec amzDate "") as [->|_].
  { split; [done|]. intros (ts & Hts & _). by vm_compute in Hts. }
  destruct (parseTimestamp amzDate) as [ts|]; [|by split; [|intros (? & ? & _)]].
  destruct (String.eqb_spec (stamp_day ts) credDate) as [E|E]; cbn [negb].
  - rewrite skew_check. split; [intros H; by exists ts|by intros (? & [= <-] & _ & ?)].
  - split; [done|]. by intros (? & [= <-] & ? & _).
Qed.

(** The farthest future is fresh: a request dated more than 292 years ahead passes the
    fifteen minutes' check until that distance is reached. *)
Lemma far_future_timestamp_accepted :
  validateTimestamp "25000101T000000Z" "25000101" (time_of_unix 1750000000) = true /\
  validateTimestamp "22000101T000000Z" "22000101" (time_of_unix 1750000000) = false.
Proof. by vm_compute. Qed.

Lemma parseCredential_s3 credential key date region service :
  parseCredential credential = Some (key, date, region, service) -> service = "s3" /\ credential <> "".
Proof.
  intros H. split; [|by intros ->]. unfold parseCredential in H. repeat case_match; try done. simplify_eq.
  by match goal with E : negb (String.eqb service "s3") = false |- _ => apply negb_false_iff, String.eqb_eq in E end.
Qed.

(** The comparison at the end. *)
Lemma check_signature_inr user c p :
  check_signature user (cl_canonical c) (cl_stamp c) (cl_credential c) (cl_date c) (cl_region c) "s3"
    (cl_signature c) (cl_headers c) (cl_payload c) = inr p <->
  cl_signature c = computeSignature (us_sigv4_secret_key user) (cl_date c) (cl_region c) "s3"
    (buildStringToSign (cl_stamp c) (cl_credential c) (cl_canonical c)) /\
  p = signed_principal user (cl_headers c) (cl_payload c).
Proof.
  unfold check_signature. destruct (String.eqb_spec (cl_signature c)
    (computeSignature (us_sigv4_secret_key user) (cl_date c) (cl_region c) "s3"
       (buildStringToSign (cl_stamp c) (cl_credential c) (cl_canonical c)))) as [E|E]; cbn [negb].
  - split; [intros [= <-]; done|by intros [_ ->]].
  - by split; [|intros [? _]].
Qed.

(** ** Only authentic requests *)

Abbreviation verdict r s :=
  (fun (res : result AuthResult) (s' : Db) => db_tables s' = db_tables s /\
     match res with Ok (inr p) => authentic r (db_clock s) (db_tables s) p | _ => True end).

(** The end of both forms: the user of the claimed key is read and the signature compared. *)
Lemma wp_check_claims r c s (k : User -> AuthResult) :
  claims r (db_clock s) c ->
  (forall user, k user = check_signature user (cl_canonical c) (cl_stamp c) (cl_credential c) (cl_date c) (cl_region c)
     "s3" (cl_signature c) (cl_headers c) (cl_payload c)) ->
  wp (user <- sigv4_user (cl_key c) ;;
      match user with inl err => ret (inl err) | inr user => ret (k user) end) (verdict r s) s.
Proof.
  intros Hc Hk. apply wp_bind. eapply wp_mono; [apply wp_sigv4_user|].
  intros [[e|user]|e] s' [Ht Huser]; [done| |done]. apply wp_ret. split; [done|].
  destruct (k user) as [e|p] eqn:Ek; [done|]. rewrite Hk, check_signature_inr in Ek. destruct Ek as [Hsig ->].
  destruct Huser as [Hactive Hrow]. by exists c, user.
Qed.

Lemma wp_authenticateHeader r s : wp (authenticateHeader r) (verdict r s) s.
Proof.
  unfold authenticateHeader. destruct (parseAuthorizationHeader _) as [[[credential headers] signature]|] eqn:Ea; [|done].
  destruct (validateSignedHeaders headers) eqn:Eh; cbn [negb]; [|done].
  destruct (parseCredential credential) as [[[[key date] region] service]|] eqn:Ec; [|done].
  set (raw := if String.eqb (header_get (rq_header r) "X-Amz-Date") "" then _ else _).
  cbv zeta. destruct (parseTimestamp raw) as [ts0|] eqn:Et; [|done]. apply wp_bind, wp_time_now.
  destruct (validateTimestamp _ _ _) eqn:Ev; cbn [negb]; [|done].
  apply validateTimestamp_true in Ev as (ts & Hts & Hday & Hfresh).
  destruct (parseCredential_s3 _ _ _ _ _ Ec) as [-> _].
  apply (wp_check_claims r (MkClaims key date region credential headers signature (stamp_amz ts0) (getPayloadHash r)
    (buildCanonicalRequest r headers (getPayloadHash r)))); [|done].
  eapply (header_claims _ _ _ ts0 ts raw); try done. split_and!; try done. by apply validateSignedHeaders_true.
Qed.

Lemma wp_authenticateQuery r s :
  header_get (rq_header r) "Authorization" = "" -> wp (authenticateQuery r) (verdict r s) s.
Proof.
  intros Hauth. unfold authenticateQuery. cbv zeta.
  destruct (String.eqb_spec (values_get (rq_query r) "X-Amz-Algorithm") sigV4Algorithm) as [Ealg|]; cbn [negb]; [|done].
  set (credential := values_get _ "X-Amz-Credential"). set (headers := values_get _ "X-Amz-SignedHeaders").
  set (signature := values_get _ "X-Amz-Signature"). set (amzDate := values_get _ "X-Amz-Date").
  destruct (_ || _ || _ || _ || _) eqn:Eempty; [done|]. rewrite !orb_false_iff in Eempty.
  destruct Eempty as ((((_ & _) & Hsig%String.eqb_neq) & _) & _).
  destruct (validateSignedHeaders headers) eqn:Eh; cbn [negb]; [|done].
  destruct (parseCredential credential) as [[[[key date] region] service]|] eqn:Ec; [|done].
  destruct (parseTimestamp amzDate) as [ts|] eqn:Et; [|done].
  destruct (String.eqb_spec (stamp_day ts) date) as [Eday|]; cbn [negb]; [|done].
  apply wp_bind, wp_time_now. destruct (Z.ltb_spec (ts.1 + 7 * 24 * 3600 * second) (db_clock s)); [done|].
  apply wp_bind, wp_time_now. destruct (Z.ltb_spec (db_clock s + maxClockSkew) ts.1); [done|].
  destruct (parse_int _) as [expires|] eqn:Ex; [|done].
  destruct ((expires <=? 0) || (604800 <? expires)) eqn:Er; [done|].
  apply wp_bind, wp_time_now. destruct (Z.ltb_spec (ts.1 + expires * second) (db_clock s)); [done|].
  destruct (parseCredential_s3 _ _ _ _ _ Ec) as [-> _].
  set (payload := if String.eqb (values_get (rq_query r) "X-Amz-Content-SHA256") "" then _ else _).
  apply (wp_check_claims r (MkClaims key date region credential headers signature amzDate payload
    (buildCanonicalRequestForQuery r headers payload))); [|done].
  eapply (query_claims _ _ _ ts expires); try done; [|lia..].
  split_and!; try done. by apply validateSignedHeaders_true.
Qed.

Lemma wp_SigV4Authenticate r s : wp (SigV4Authenticate r) (verdict r s) s.
Proof.
  unfold SigV4Authenticate. destruct (String.eqb_spec (header_get (rq_header r) "Authorization") "") as [E|E]; cbn [negb].
  - destruct (negb _); [by apply wp_authenticateQuery|done].
  - destruct (has_prefix _ _); [by apply wp_authenticateHeader|done].
Qed.

(** ** Every authentic request *)

Abbreviation accept c user s :=
  (Ok (inr (signed_principal user (cl_headers c) (cl_payload c))), s).

Lemma signed_user_run c user s :
  wf_tables (db_tables s) -> db_faults s = [] -> signed_by (db_tables s) c user ->
  sigv4_user (cl_key c) s = (Ok (inr user), s) /\
  check_signature user (cl_canonical c) (cl_stamp c) (cl_credential c) (cl_date c) (cl_region c) "s3"
    (cl_signature c) (cl_headers c) (cl_payload c) = inr (signed_principal user (cl_headers c) (cl_payload c)).
Proof.
  intros Hwf Hfaults ((row & Hrow & Hkey & Euser) & Hactive & Hsig). split.
  - rewrite (sigv4_user_run (cl_key c) s (us_id user) row), <- Euser by (done || by rewrite Euser in Hactive). done.
  - by apply check_signature_inr.
Qed.

Lemma authenticateHeader_accepts r s c ts0 ts raw user :
  wf_tables (db_tables s) -> db_faults s = [] -> signed_by (db_tables s) c user ->
  parseAuthorizationHeader (header_get (rq_header r) "Authorization") =
    Some (cl_credential c, cl_headers c, cl_signature c) ->
  raw = (if String.eqb (header_get (rq_header r) "X-Amz-Date") "" then header_get (rq_header r) "Date"
         else header_get (rq_header r) "X-Amz-Date") ->
  parseTimestamp raw = Some ts0 -> cl_stamp c = stamp_amz ts0 ->
  well_formed c ts -> fresh (db_clock s) ts.1 ->
  cl_payload c = getPayloadHash r ->
  cl_canonical c = buildCanonicalRequest r (cl_headers c) (cl_payload c) ->
  authenticateHeader r s = accept c user s.
Proof.
  intros Hwf Hfaults Hsigned Ea -> Et0 Estamp (Ec & Hhost%validateSignedHeaders_true & Ets & Eday) Hfresh Epay Ecan.
  destruct (signed_user_run c user s Hwf Hfaults Hsigned) as [Erun Echeck].
  unfold authenticateHeader. rewrite Ea, Hhost, Ec, Et0. cbn [negb]. unfold bind at 1. cbn [time_now].
  rewrite (proj2 (validateTimestamp_true _ _ _)) by (exists ts; by rewrite <- Estamp). cbn [negb].
  unfold bind. rewrite Erun. unfold ret. by rewrite <- Estamp, <- Epay, <- Ecan, Echeck.
Qed.

Lemma authenticateQuery_accepts r s c ts expires user :
  wf_tables (db_tables s) -> db_faults s = [] -> signed_by (db_tables s) c user ->
  values_get (rq_query r) "X-Amz-Algorithm" = sigV4Algorithm ->
  cl_credential c = values_get (rq_query r) "X-Amz-Credential" ->
  cl_headers c = values_get (rq_query r) "X-Amz-SignedHeaders" ->
  cl_signature c = values_get (rq_query r) "X-Amz-Signature" -> cl_signature c <> "" ->
  cl_stamp c = values_get (rq_query r) "X-Amz-Date" ->
  well_formed c ts ->
  parse_int (values_get (rq_query r) "X-Amz-Expires") = Some expires -> 0 < expires <= 604800 ->
  ts.1 - maxClockSkew <= db_clock s <= ts.1 + expires * second ->
  cl_payload c = (if String.eqb (values_get (rq_query r) "X-Amz-Content-SHA256") "" then unsignedPayload
                  else values_get (rq_query r) "X-Amz-Content-SHA256") ->
  cl_canonical c = buildCanonicalRequestForQuery r (cl_headers c) (cl_payload c) ->
  authenticateQuery r s = accept c user s.
Proof.
  intros Hwf Hfaults Hsigned Ealg Ecred Eheaders Esig Hsig Estamp
    (Ec & Hhost & Ets & Eday) Ex Hx Hnow Epay Ecan.
  destruct (signed_user_run c user s Hwf Hfaults Hsigned) as [Erun Echeck].
  pose proof (proj2 (parseCredential_s3 _ _ _ _ _ Ec)) as Hcred.
  assert (Hheaders : cl_headers c <> "") by (intros E; rewrite E in Hhost; by apply list_elem_of_singleton in Hhost).
  assert (Hstamp : cl_stamp c <> "") by (intros E; rewrite E in Ets; by vm_compute in Ets).
  assert (Hexpires : values_get (rq_query r) "X-Amz-Expires" <> "") by (intros E; rewrite E in Ex; by vm_compute in Ex).
  apply String.eqb_neq in Hcred, Hheaders, Hsig, Hstamp, Hexpires.
  apply validateSignedHeaders_true in Hhost.
  unfold authenticateQuery. cbv zeta. rewrite Ealg, <- Ecred, <- Eheaders, <- Esig, <- Estamp, <- Epay.
  rewrite Hcred, Hheaders, Hsig, Hstamp, Hexpires, Hhost, Ec, Ets, Eday, String.eqb_refl. cbn [negb orb].
  change (String.eqb sigV4Algorithm sigV4Algorithm) with true. cbn [negb]. rewrite String.eqb_refl. cbn [negb].
  rewrite now_bind. unfold maxClockSkew, second in *.
  destruct (Z.ltb_spec (ts.1 + 7 * 24 * 3600 * 1000000000) (db_clock s)); [lia|]. rewrite now_bind.
  destruct (Z.ltb_spec (db_clock s + 15 * 60 * 1000000000) ts.1); [lia|]. rewrite Ex.
  destruct ((expires <=? 0) || (604800 <? expires)) eqn:Er; [lia|]. rewrite now_bind.
  destruct (Z.ltb_spec (ts.1 + expires * 1000000000) (db_clock s)); [lia|].
  unfold bind. rewrite Erun. unfold ret. by rewrite <- Ecan, Echeck.
Qed.

Lemma authentic_accepted r s p :
  wf_tables (db_tables s) -> db_faults s = [] -> authentic r (db_clock s) (db_tables s) p ->
  SigV4Authenticate r s = (Ok (inr p), s).
Proof.
  intros Hwf Hfaults (c & user & Hc & Hsigned & ->). unfold SigV4Authenticate.
  destruct Hc as [c ts0 ts raw Ea Eraw Et0 Estamp Hform Hfresh Epay Ecan|c ts expires Eauth Ealg Ecred Eh Es Hs Est Hform Ex Hx Hnow Epay Ecan].
  - assert (Hne : header_get (rq_header r) "Authorization" <> "") by (intros E; by rewrite E in Ea).
    assert (Hp : has_prefix (header_get (rq_header r) "Authorization") sigV4Algorithm = true).
    { unfold parseAuthorizationHeader in Ea. destruct (has_prefix _ (sigV4Algorithm +:+ " ")) eqn:Ep; [|done].
      by apply has_prefix_trans with (sigV4Algorithm +:+ " "). }
    apply String.eqb_neq in Hne. rewrite Hne, Hp. cbn [negb]. by eapply authenticateHeader_accepts.
  - rewrite Eauth, Ealg. cbn [String.eqb negb sigV4Algorithm]. by eapply authenticateQuery_accepts.
Qed.

(** C36: the authenticator accepts exactly the authentic requests. Whatever calls
    fail, a request that is accepted is authentic: its header or its URL claims the key
    of an active user of the database, is fresh, signs the host, and carries the
    signature of the request's own canonical form under that user's secret; the
    principal is that user with the headers and the payload hash that were signed, and
    nothing is written. Without failures every authentic request is accepted. *)
Theorem SigV4Authenticate_exact r s p :
  wf_tables (db_tables s) ->
  (forall s', SigV4Authenticate r s = (Ok (inr p), s') ->
     authentic r (db_clock s) (db_tables s) p /\ db_tables s' = db_tables s) /\
  (db_faults s = [] -> authentic r (db_clock s) (db_tables s) p -> SigV4Authenticate r s = (Ok (inr p), s)).
Proof.
  intros Hwf. split; [|intros; by apply authentic_accepted].
  intros s' Hrun. pose proof (wp_run _ _ _ _ _ Hrun (wp_SigV4Authenticate r s)) as [Ht Hp]. done.
Qed.

(** ** Witnesses *)

Definition signer_row : UserRow :=
  MkUserRow "Signer" "fbsa_01" "" (Some "fbsv4_01") (Some "a secret") "member" true 1 1.
Definition signer_db : Db := MkDb (with_users (insert "u1" signer_row) empty_tables) (time_of_unix 1750000060) [].
Definition plain_request : Request :=
  MkRequest "GET" "/photos/a b" "/photos/a%20b" "s3.example.com" "10.0.0.1:4000" false ∅ ∅ {["versionId" := ["null"]]} 0 [] None "".
Definition signed_request : Request :=
  SignRequestAt plain_request "fbsv4_01" "a secret" "us-east-1" "s3" ["host"; "x-amz-date"] "" (time_of_unix 1750000000).

Lemma signed_request_authenticates_witness :
  SigV4Authenticate signed_request signer_db =
    (Ok (inr (MkPrincipal "u1" "Signer" "fbsv4_01" "member" false "host;x-amz-date" "UNSIGNED-PAYLOAD")), signer_db).
Proof.
  apply (signed_request_authenticates plain_request "fbsv4_01" "us-east-1" ["host"; "x-amz-date"] ""
    (time_of_unix 1750000000) (UserRepository.scanUser "u1" signer_row) signer_db).
  - split; repeat constructor; vm_compute; congruence.
  - vm_compute. congruence.
  - intros _. by left.
  - vm_compute. reflexivity.
  - reflexivity.
Defined.
Lemma signer_tables_wf : wf_tables (db_tables signer_db).
Proof. apply (insert_user_wf "u1" signer_row empty_tables empty_tables_wf). Qed.

Lemma SigV4Authenticate_exact_witness :
  exists p, authentic signed_request (time_of_unix 1750000060) (db_tables signer_db) p /\
    SigV4Authenticate signed_request signer_db = (Ok (inr p), signer_db).
Proof.
  exists (MkPrincipal "u1" "Signer" "fbsv4_01" "member" false "host;x-amz-date" "UNSIGNED-PAYLOAD").
  assert (E : SigV4Authenticate signed_request signer_db =
    (Ok (inr (MkPrincipal "u1" "Signer" "fbsv4_01" "member" false "host;x-amz-date" "UNSIGNED-PAYLOAD")), signer_db))
    by (vm_compute; reflexivity).
  split; [|exact E].
  apply (proj1 (SigV4Authenticate_exact signed_request signer_db _ signer_tables_wf) signer_db E).
Defined.
