(* ===== verification/SigV4Presign.v ===== *)
(** * Signature Version 4: presigned URLs

    [PresignRequest] of [internal/auth/sigv4.go], the encoding of a query and its
    reading, and that what is presigned is accepted until it expires. *)

From S2P Require Import Prelude GoStrings Encoding Hash GoTime GoParse GoUrl Effects Schema Db UserRepo Authz S3Http SigV4 SigV4Spec SigV4Exact.

#[local] Open Scope Z_scope.

(** ** The query that is written is the query that is read *)

Definition encode_pair (kv : string * string) : string := QueryEscape kv.1 +:+ "=" +:+ QueryEscape kv.2.
Definition add_pair (m : Values) (kv : string * string) : Values := <[kv.1 := default [] (m !! kv.1) ++ [kv.2]]> m.

Definition pairs_of (v : Values) (keys : list string) : list (string * string) :=
  keys ≫= (fun k => (fun x => (k, x)) <$> default [] (v !! k)).

Definition sorted_keys (v : Values) : list string := merge_sort String.le (map_to_list v).*1.

Lemma values_encode_pairs v : values_encode v = join (encode_pair <$> pairs_of v (sorted_keys v)) "&".
Proof.
  unfold values_encode, pairs_of, sorted_keys. f_equal. induction (merge_sort _ _) as [|k ks IH]; [done|].
  cbn [mbind list_bind]. rewrite IH, fmap_app, <- list_fmap_compose. done.
Qed.

Lemma parse_pair m failed kv : parse_setting (m, failed) (encode_pair kv) = (add_pair m kv, failed).
Proof.
  destruct kv as [k x]. unfold parse_setting, encode_pair. cbn [fst snd].
  assert (Hesc : forall s c, is_unreserved c = false -> c <> "+"%char -> c <> "%"%char -> is_alnum c = false ->
    contains_byte (QueryEscape s) c = false) by (intros; by apply escape_no_byte).
  rewrite !contains_byte_append. change (contains_byte "=" ";") with false.
  rewrite !(Hesc _ ";"%char) by done. cbn [orb].
  destruct (String.eqb_spec (QueryEscape k +:+ "=" +:+ QueryEscape x) "") as [E|_]; [by destruct (QueryEscape k)|].
  change (QueryEscape k +:+ "=" +:+ QueryEscape x) with (QueryEscape k +:+ String "=" (QueryEscape x)).
  rewrite cut_append by (by apply Hesc). by rewrite !QueryUnescape_escape.
Qed.

Lemma fold_parse_pairs ps m : fold_left parse_setting (encode_pair <$> ps) (m, false) = (fold_left add_pair ps m, false).
Proof. revert m. induction ps as [|p ps IH]; intros m; [done|]. cbn [fmap list_fmap fold_left]. by rewrite parse_pair, IH. Qed.

(** The values of one key, read one after the other. *)
Lemma fold_group k l m : fold_left add_pair ((fun x => (k, x)) <$> l) m = (if l is [] then m else <[k := default [] (m !! k) ++ l]> m).
Proof.
  revert m. induction l as [|x l IH]; intros m; [done|]. cbn [fmap list_fmap fold_left]. rewrite IH. unfold add_pair. cbn [fst snd].
  destruct l as [|y l]; [done|]. rewrite lookup_insert_eq, insert_insert_eq. unfold from_option at 1, id at 1. by rewrite <- app_assoc.
Qed.

Lemma fold_pairs v keys m j :
  NoDup keys -> (forall k, k ∈ keys -> exists x l, v !! k = Some (x :: l)) -> (forall k, k ∈ keys -> m !! k = None) ->
  fold_left add_pair (pairs_of v keys) m !! j = if decide (j ∈ keys) then v !! j else m !! j.
Proof.
  revert m. induction keys as [|k keys IH]; intros m Hnd Hv Hm; [by rewrite decide_False by apply not_elem_of_nil|].
  apply NoDup_cons in Hnd as [Hk Hnd]. destruct (Hv k) as (x & l & El); [by left|].
  unfold pairs_of. cbn [mbind list_bind]. rewrite fold_left_app, El, fold_group. unfold from_option at 1, id at 1.
  fold (pairs_of v keys). rewrite (Hm k) by (by left). cbn [from_option id app]. rewrite IH; [|done| |].
  - destruct (decide (j ∈ keys)) as [Hj|Hj]; [by rewrite decide_True by (by right)|].
    destruct (decide (j = k)) as [->|Hne]; [rewrite decide_True by (by left); by rewrite lookup_insert_eq|].
    rewrite lookup_insert_ne by done. rewrite decide_False; [done|]. by intros [->|Hin]%elem_of_cons.
  - intros k' Hk'. apply Hv. by right.
  - intros k' Hk'. rewrite lookup_insert_ne by (by intros ->). apply Hm. by right.
Qed.

(** Every key has a value. *)
Definition values_ok (v : Values) : Prop := map_Forall (fun _ l => l <> []) v.

(** [URL.Query], which ignores errors. *)
Definition url_query (rawQuery : string) : Values := (fold_left parse_setting (split rawQuery "&") (∅, false)).1.

Lemma elem_of_sorted_keys v k : k ∈ sorted_keys v <-> is_Some (v !! k).
Proof.
  unfold sorted_keys. rewrite merge_sort_Permutation. rewrite list_elem_of_fmap. split.
  - intros ([k' l] & -> & H%elem_of_map_to_list). by exists l.
  - intros [l Hl]. exists (k, l). by rewrite elem_of_map_to_list.
Qed.

Lemma NoDup_sorted_keys v : NoDup (sorted_keys v).
Proof. unfold sorted_keys. rewrite merge_sort_Permutation. apply NoDup_fst_map_to_list. Qed.

Lemma query_round_trip v : values_ok v -> url_query (values_encode v) = v.
Proof.
  intros Hok. unfold url_query. rewrite values_encode_pairs. set (ps := pairs_of v (sorted_keys v)).
  assert (Hsplit : fold_left parse_setting (split (join (encode_pair <$> ps) "&") "&") (∅, false) =
                   fold_left parse_setting (encode_pair <$> ps) (∅, false)).
  { destruct ps as [|p ps']; [done|]. rewrite split_join; [done|done|]. apply Forall_fmap, Forall_forall. intros [k x] _.
    unfold compose, encode_pair. cbn [fst snd]. rewrite !contains_byte_append. unfold QueryEscape.
    rewrite !escape_no_byte by done. done. }
  rewrite Hsplit, fold_parse_pairs. cbn [fst]. apply map_eq. intros j. unfold ps. rewrite fold_pairs.
  - destruct (decide (j ∈ sorted_keys v)) as [Hj|Hj]; [done|]. rewrite elem_of_sorted_keys in Hj.
    rewrite lookup_empty. symmetry. by apply eq_None_not_Some.
  - apply NoDup_sorted_keys.
  - intros k [l Hl]%elem_of_sorted_keys. destruct l as [|x l]; [by apply Hok in Hl|]. by exists x, l.
  - intros k _. apply lookup_empty.
Qed.

(** ** Presigning *)

(** [Values.Set] *)
Definition values_set (key value : string) (v : Values) : Values := <[key := [value]]> v.

(** [r.URL.RawQuery = rawQuery] *)
Definition with_raw_query (rawQuery : string) (r : Request) : Request :=
  MkRequest (rq_method r) (rq_path r) (rq_escaped_path r) (rq_host r) (rq_remote_addr r) (rq_tls r) (rq_params r) (rq_header r)
    (url_query rawQuery) (rq_content_length r) (rq_body r) (rq_principal r) (rq_id r).

(** The query that is signed. *)
Definition presign_query (method : string) (q : Values) (credential timestamp : string) (expiresSeconds : Z) : Values :=
  let q := values_set "X-Amz-Algorithm" sigV4Algorithm q in
  let q := values_set "X-Amz-Credential" credential q in
  let q := values_set "X-Amz-Date" timestamp q in
  let q := values_set "X-Amz-Expires" (format_int expiresSeconds) q in
  let q := values_set "X-Amz-SignedHeaders" "host" q in
  if String.eqb method "PUT" && String.eqb (values_get q "X-Amz-Content-SHA256") ""
  then values_set "X-Amz-Content-SHA256" unsignedPayload q else q.

(** The seconds that a URL is valid for, and the hash of the payload it is signed with. *)
Definition presigned_seconds (expires : Z) : Z :=
  let expiresSeconds := duration_seconds expires in if expiresSeconds <=? 0 then 900 else expiresSeconds.
Definition presigned_payload (q : Values) : string :=
  let payloadHash := values_get q "X-Amz-Content-SHA256" in
  if String.eqb payloadHash "" then unsignedPayload else payloadHash.

Definition PresignRequest (r : Request) (accessKeyID secretKey region service : string) (expires : Z) (now : time) : Request :=
  let r := if String.eqb (header_get (rq_header r) "Host") "" && negb (String.eqb (rq_host r) "")
           then with_header (header_set "Host" (rq_host r) (rq_header r)) r else r in
  let timestamp := format_amz now in
  let date := format_day now in
  let credential := join [accessKeyID; date; region; service; sigV4Terminator] "/" in
  let q := presign_query (rq_method r) (rq_query r) credential timestamp (presigned_seconds expires) in
  let r := with_raw_query (values_encode q) r in
  let payloadHash := presigned_payload q in
  let canonicalRequest := buildCanonicalRequestForQuery r "host" payloadHash in
  let stringToSign := buildStringToSign timestamp credential canonicalRequest in
  let signature := computeSignature secretKey date region service stringToSign in
  with_raw_query (values_encode (values_set "X-Amz-Signature" signature q)) r.

(** *** The canonical query *)

Lemma sorted_unique_keys (l l' : list string) : l ≡ₚ l' -> merge_sort String.le l = merge_sort String.le l'.
Proof.
  intros Hp. apply (Sorted_unique String.le); [apply Sorted_merge_sort, _|apply Sorted_merge_sort, _|].
  by rewrite !merge_sort_Permutation.
Qed.

(** A key that is left out of the canonical query can be set after it is built. *)
Lemma canonical_query_set q key value exclude :
  exclude key = true -> buildCanonicalQueryString (values_set key value q) exclude = buildCanonicalQueryString q exclude.
Proof.
  intros He. unfold buildCanonicalQueryString. f_equal.
  assert (Hkeys : filter (fun k => exclude k = false) (map_to_list (values_set key value q)).*1 ≡ₚ
                  filter (fun k => exclude k = false) (map_to_list q).*1).
  { assert (Hkey : ~ exclude key = false) by congruence. unfold values_set.
    rewrite <- insert_delete_eq. rewrite map_to_list_insert by apply lookup_delete_eq. cbn [fmap list_fmap fst].
    rewrite filter_cons_False by done. destruct (q !! key) as [l|] eqn:E.
    - rewrite <- (insert_delete_id q key l E) at 2. rewrite map_to_list_insert by apply lookup_delete_eq.
      cbn [fmap list_fmap fst]. by rewrite filter_cons_False.
    - by rewrite delete_id. }
  rewrite (sorted_unique_keys _ _ Hkeys). assert (Hin : forall k, k ∈ merge_sort String.le (filter (fun k => exclude k = false) (map_to_list q).*1) -> k <> key).
  { intros k. rewrite merge_sort_Permutation. intros [Hk _]%list_elem_of_filter ->. congruence. }
  induction (merge_sort _ _) as [|k ks IH]; [done|]. cbn [mbind list_bind]. rewrite IH by (intros k' Hk'; apply Hin; by right).
  f_equal. unfold canonical_key, values_set. rewrite lookup_insert_ne; [done|]. intros <-. by apply (Hin key); [left|].
Qed.

Lemma canonical_request_query raw raw' r exclude signedHeaders payloadHash :
  buildCanonicalQueryString (url_query raw) exclude = buildCanonicalQueryString (url_query raw') exclude ->
  canonical_request (with_raw_query raw r) exclude signedHeaders payloadHash =
  canonical_request (with_raw_query raw' r) exclude signedHeaders payloadHash.
Proof. intros E. unfold canonical_request. cbn [with_raw_query rq_query rq_method rq_escaped_path]. by rewrite E. Qed.

Lemma values_ok_set key value q : values_ok q -> values_ok (values_set key value q).
Proof. intros Hq. by apply map_Forall_insert_2. Qed.

Lemma values_get_set key value q : values_get (values_set key value q) key = value.
Proof. unfold values_get, values_set. by rewrite lookup_insert_eq. Qed.

Lemma values_get_set_ne key key' value q : key' <> key -> values_get (values_set key' value q) key = values_get q key.
Proof. intros Hne. unfold values_get, values_set. by rewrite lookup_insert_ne. Qed.

(** ** What is presigned is accepted *)

(** A presigned request, by its query. *)
Record presigned_query (q : Values) (credential date : string) (seconds : Z) (signature payload : string) : Prop := {
  pq_algorithm : values_get q "X-Amz-Algorithm" = sigV4Algorithm;
  pq_credential : values_get q "X-Amz-Credential" = credential;
  pq_date : values_get q "X-Amz-Date" = date;
  pq_expires : values_get q "X-Amz-Expires" = format_int seconds;
  pq_headers : values_get q "X-Amz-SignedHeaders" = "host";
  pq_signature : values_get q "X-Amz-Signature" = signature;
  pq_payload : presigned_payload q = payload;
}.

Lemma format_int_nonempty z : min_int64 <= z <= max_int64 -> String.eqb (format_int z) "" = false.
Proof. intros Hz. apply String.eqb_neq. intros E%(f_equal parse_int). by rewrite parse_format_int in E. Qed.

Lemma authenticateQuery_presigned r accessKeyID region seconds signature payload signedAt user s :
  accessKeyID <> "" -> contains_byte accessKeyID "/" = false -> region <> "" -> contains_byte region "/" = false ->
  0 <= year_of signedAt < 10000 -> 0 < seconds <= 604800 -> signature <> "" ->
  header_get (rq_header r) "Authorization" = "" ->
  UserRepository.GetBySigV4AccessKeyID accessKeyID s = (Ok user, s) -> us_is_active user = true ->
  let credential := join [accessKeyID; format_day signedAt; region; "s3"; sigV4Terminator] "/" in
  let stamp := signedAt / second * second in
  presigned_query (rq_query r) credential (format_amz signedAt) seconds signature payload ->
  SigV4Authenticate r s =
  (Ok (if bool_decide (stamp - maxClockSkew <= db_clock s <= stamp + seconds * second)
       then check_signature user (buildCanonicalRequestForQuery r "host" payload) (format_amz signedAt) credential
              (format_day signedAt) region "s3" signature "host" payload
       else inl ErrInvalidCredentials), s).
Proof.
  intros Hk Hks Hr Hrs Hy Hsec Hsig Hauth Huser Hactive credential stamp [H1 H2 H3 H4 H5 H6 H7].
  unfold SigV4Authenticate. rewrite Hauth, H1. change (String.eqb sigV4Algorithm "") with false. cbn [negb String.eqb].
  unfold authenticateQuery. cbv zeta. fold (presigned_payload (rq_query r)). rewrite H1, H2, H3, H4, H5, H6, H7.
  rewrite String.eqb_refl. cbn [negb].
  assert (Hcred : String.eqb credential "" = false).
  { apply String.eqb_neq. unfold credential. by destruct accessKeyID. }
  assert (Hdate : String.eqb (format_amz signedAt) "" = false).
  { apply String.eqb_neq. intros E. pose proof (format_amz_length signedAt Hy) as Hl. by rewrite E in Hl. }
  apply String.eqb_neq in Hsig. rewrite Hcred, Hdate, Hsig, format_int_nonempty by (unfold min_int64, max_int64; lia).
  change (String.eqb "host" "") with false. cbn [orb].
  change (validateSignedHeaders "host") with true. cbn [negb]. unfold credential at 1. rewrite parse_signed_credential by done.
  unfold parseTimestamp, string_len. rewrite format_amz_length, parse_format_amz by done.
  change (Z.of_nat 16 =? 16) with true. cbn [fmap option_fmap option_map fst].
  rewrite (proj1 (stamp_utc _)), format_day_truncated, String.eqb_refl. cbn [negb].
  rewrite now_bind. fold stamp. rewrite parse_format_int by (unfold min_int64, max_int64; lia).
  rewrite (proj2 (orb_false_iff _ _)) by (split; [apply Z.leb_gt|apply Z.ltb_ge]; lia).
  case_bool_decide as Hin.
  - rewrite (proj2 (Z.ltb_ge _ _)) by (unfold second in *; lia). rewrite now_bind, (proj2 (Z.ltb_ge _ _)) by lia.
    rewrite now_bind, (proj2 (Z.ltb_ge _ _)) by lia. unfold sigv4_user, attempt, bind. by rewrite Huser, Hactive.
  - destruct (Z.ltb_spec (stamp + 7 * 24 * 3600 * second) (db_clock s)); [done|].
    rewrite now_bind. destruct (Z.ltb_spec (db_clock s + maxClockSkew) stamp); [done|].
    rewrite now_bind. destruct (Z.ltb_spec (stamp + seconds * second) (db_clock s)); [done|]. destruct Hin. lia.
Qed.

(** *** The query that is signed *)

Section PresignQuery.
Context (method credential timestamp : string) (seconds : Z) (q : Values).
Abbreviation presigned := (presign_query method q credential timestamp seconds).

Lemma presign_query_ok : values_ok q -> values_ok presigned.
Proof. intros Hq. unfold presign_query. cbv zeta. case_match; by repeat apply values_ok_set. Qed.

Lemma presign_query_payload : presigned_payload presigned = presigned_payload q.
Proof.
  unfold presign_query. cbv zeta. set (q0 := values_set "X-Amz-SignedHeaders" "host" _).
  assert (E0 : values_get q0 "X-Amz-Content-SHA256" = values_get q "X-Amz-Content-SHA256")
    by (unfold q0; by rewrite !values_get_set_ne).
  unfold presigned_payload. cbv zeta. rewrite <- E0. destruct (String.eqb method "PUT"); cbn [andb]; [|done].
  destruct (String.eqb (values_get q0 "X-Amz-Content-SHA256") "") eqn:E; [|by rewrite E]. by rewrite values_get_set.
Qed.

(** With its signature it is what the authenticator reads. *)
Lemma presign_query_signed signature :
  presigned_query (values_set "X-Amz-Signature" signature presigned) credential timestamp seconds signature
    (presigned_payload q).
Proof.
  assert (Hget : forall key value, key <> "X-Amz-Content-SHA256" -> key <> "X-Amz-Signature" ->
    values_get (values_set "X-Amz-SignedHeaders" "host" (values_set "X-Amz-Expires" (format_int seconds)
      (values_set "X-Amz-Date" timestamp (values_set "X-Amz-Credential" credential
        (values_set "X-Amz-Algorithm" sigV4Algorithm q))))) key = value ->
    values_get (values_set "X-Amz-Signature" signature presigned) key = value).
  { intros key value H1 H2 <-. rewrite values_get_set_ne by done. unfold presign_query. cbv zeta.
    case_match; [by apply values_get_set_ne|done]. }
  split; try (apply Hget; [done..|]); rewrite ?values_get_set_ne by done; rewrite ?values_get_set; try done.
  unfold presigned_payload at 1. rewrite values_get_set_ne by done. apply presign_query_payload.
Qed.
End PresignQuery.

(** C38: a presigned URL is good exactly until it expires. A request that [PresignRequest]
    has signed with the secret of an active user is authenticated as that user, with the
    payload hash that its query names, from fifteen minutes before the time of signing
    until the seconds it was signed for have passed, a week at most, and at no other
    time; what the query said before the signature, and what it is encoded as, do not
    matter. *)
Theorem presigned_request_authenticates r accessKeyID region expires signedAt user s :
  accessKeyID <> "" -> contains_byte accessKeyID "/" = false -> region <> "" -> contains_byte region "/" = false ->
  0 <= year_of signedAt < 10000 -> presigned_seconds expires <= 604800 ->
  header_get (rq_header r) "Authorization" = "" -> values_ok (rq_query r) ->
  UserRepository.GetBySigV4AccessKeyID accessKeyID s = (Ok user, s) -> us_is_active user = true ->
  let stamp := signedAt / second * second in
  SigV4Authenticate (PresignRequest r accessKeyID (us_sigv4_secret_key user) region "s3" expires signedAt) s =
  (Ok (if bool_decide (stamp - maxClockSkew <= db_clock s <= stamp + presigned_seconds expires * second)
       then inr (signed_principal user "host" (presigned_payload (rq_query r)))
       else inl ErrInvalidCredentials), s).
Proof.
  intros Hk Hks Hr Hrs Hy Hsec Hauth Hok Huser Hactive stamp. unfold PresignRequest. cbv zeta.
  set (r0 := if _ && _ then with_header _ r else r). set (credential := join _ "/"). set (q := presign_query _ _ _ _ _).
  set (r1 := with_raw_query (values_encode q) r0). set (text := buildStringToSign _ credential _).
  set (signature := computeSignature _ _ _ _ text).
  set (r2 := with_raw_query (values_encode (values_set "X-Amz-Signature" signature q)) r1).
  assert (Eq : rq_query r0 = rq_query r) by (unfold r0; by case_match).
  assert (Hq : values_ok q) by (apply presign_query_ok; by rewrite Eq).
  assert (Equery : rq_query r2 = values_set "X-Amz-Signature" signature q)
    by (apply query_round_trip, values_ok_set, Hq).
  assert (Hpay : presigned_payload q = presigned_payload (rq_query r)) by (rewrite <- Eq; apply presign_query_payload).
  rewrite (authenticateQuery_presigned r2 accessKeyID region (presigned_seconds expires) signature
    (presigned_payload (rq_query r)) signedAt user s); try done.
  - fold stamp. do 2 f_equal. case_bool_decide; [|done]. unfold check_signature. fold credential.
    assert (Ecanon : buildCanonicalRequestForQuery r2 "host" (presigned_payload (rq_query r)) =
                     buildCanonicalRequestForQuery r1 "host" (presigned_payload q)).
    { rewrite Hpay. apply (canonical_request_query _ _ r0). rewrite !query_round_trip by (done || by apply values_ok_set).
      by apply canonical_query_set. }
    rewrite Ecanon. fold text. by rewrite String.eqb_refl.
  - split; [|done]. unfold presigned_seconds. cbv zeta. destruct (Z.leb_spec (duration_seconds expires) 0); lia.
  - by destruct (signature_plain (us_sigv4_secret_key user) (format_day signedAt) region "s3" text).
  - cbn [r2 r1 with_raw_query rq_header]. unfold r0. case_match; [|done]. cbn [with_header rq_header].
    unfold header_get, header_set in *. by rewrite lookup_insert_ne.
  - rewrite Equery, <- Eq. apply presign_query_signed.
Qed.

(** A download link for a minute and a half, used in time, and too late. *)
Definition signer_user : User := UserRepository.scanUser "u1" signer_row.
Definition presigned_link : Request :=
  PresignRequest plain_request "fbsv4_01" (us_sigv4_secret_key signer_user) "us-east-1" "s3" (90 * second) (time_of_unix 1750000000).
Definition late_db : Db := MkDb (db_tables signer_db) (time_of_unix 1750000091) [].

Lemma presigned_request_authenticates_witness :
  SigV4Authenticate presigned_link signer_db =
    (Ok (inr (MkPrincipal "u1" "Signer" "fbsv4_01" "member" false "host" "UNSIGNED-PAYLOAD")), signer_db) /\
  SigV4Authenticate presigned_link late_db = (Ok (inl ErrInvalidCredentials), late_db).
Proof.
  assert (Hany : forall s, UserRepository.GetBySigV4AccessKeyID "fbsv4_01" s = (Ok signer_user, s) ->
    SigV4Authenticate presigned_link s =
    (Ok (if bool_decide (time_of_unix 1750000000 / second * second - maxClockSkew <= db_clock s <=
                         time_of_unix 1750000000 / second * second + presigned_seconds (90 * second) * second)
         then inr (signed_principal signer_user "host" (presigned_payload (rq_query plain_request)))
         else inl ErrInvalidCredentials), s)).
  { intros s Hs. unfold presigned_link. apply (presigned_request_authenticates plain_request "fbsv4_01" "us-east-1" (90 * second)
      (time_of_unix 1750000000) signer_user s); [done..| | | |by apply map_Forall_singleton|exact Hs|done].
    - vm_compute. split; congruence.
    - vm_compute. congruence.
    - done. }
  split.
  - rewrite Hany by reflexivity. vm_compute. reflexivity.
  - rewrite Hany by reflexivity. vm_compute. reflexivity.
Defined.
