(* ===== verification/S3Xml.v ===== *)
(** * XML: requests ([internal/s3/request_xml.go]) and documents ([xml.go])

    The checks around a request document, on the tokens of the decoder; then the
    structs that the handlers encode, and the responses. A field with [omitempty] is an
    empty value here too. *)

From S2P Require Import Prelude GoStrings Encoding Json Hash Effects DiskEngine Schema GoTime S3Http.

(** * XML request bodies: [internal/s3/request_xml.go]

    The loop over the tokens of a document: one root element, with nothing outside it
    but white space, comments and the like. The tokens, and the decoding of an element,
    are those of [encoding/xml]. *)

(** [xml.Token]; what an element holds is for [DecodeElement]. *)
Inductive XmlToken : Type :=
  | StartElement (name : string)
  | EndElement (name : string)
  | CharData (text : string)
  | Comment
  | ProcInst (target : string)
  | Directive.

(** A decoder, at the results of its next calls of [Token], before [io.EOF]. *)
Abbreviation decoder := (list (result XmlToken)).

(** [DecodeElement] with the start element that has been read: the value, and the decoder
    behind the end of the element. *)
Abbreviation element_decoder A := (string -> decoder -> result (A * decoder)).

Definition ErrXmlEOF : error := ErrOther "EOF".
Definition errInvalidXMLDocument : error := ErrOther "request body must contain one XML document".

Definition is_xml_space (c : ascii) : bool := contains_byte (String "032" (String "009" (String "013" (String "010" "")))) c.

Definition isXMLMisc (token : XmlToken) (prolog : bool) : bool :=
  match token with
  | CharData text => forallb is_xml_space (String.list_ascii_of_string text)
  | Comment => true
  | ProcInst target => prolog || negb (equal_fold target "xml")
  | Directive => prolog
  | StartElement _ | EndElement _ => false
  end.

Fixpoint finishXMLRequest (d : decoder) : result unit :=
  match d with
  | [] => Ok tt
  | Err e :: _ => Err e
  | Ok token :: d => if negb (isXMLMisc token false) then Err errInvalidXMLDocument else finishXMLRequest d
  end.

(** An XML declaration that is not the first token, or not in lower case. *)
Definition misplaced_declaration (first : bool) (token : XmlToken) : bool :=
  match token with
  | ProcInst target => equal_fold target "xml" && (negb first || negb (String.eqb target "xml"))
  | _ => false
  end.

(** The loop of [decodeXMLRequest]. *)
Fixpoint decode_document {A} (decodeElement : element_decoder A) (first : bool) (d : decoder) : result A :=
  match d with
  | [] => Err ErrXmlEOF
  | Err e :: _ => Err e
  | Ok (StartElement name) :: d =>
      let? decoded := decodeElement name d in
      let? _ := finishXMLRequest decoded.2 in
      Ok decoded.1
  | Ok token :: d =>
      if negb (isXMLMisc token true) then Err errInvalidXMLDocument
      else if misplaced_declaration first token then Err errInvalidXMLDocument
      else decode_document decodeElement false d
  end.

(** The byte order mark. *)
Definition bom : string := String "239" (String "187" (String "191" "")).

(** [decodeXMLRequest], given the tokens of a payload. *)
Definition decodeXMLRequest {A} (tokens : string -> decoder) (decodeElement : element_decoder A) (payload : string)
    : result A :=
  decode_document decodeElement true (tokens (trim_prefix payload bom)).

(** ** What a request body is *)

(** White space, a comment, an instruction or a directive. *)
Inductive misc : XmlToken -> Prop :=
  | misc_space text : forallb is_xml_space (String.list_ascii_of_string text) = true -> misc (CharData text)
  | misc_comment : misc Comment
  | misc_instruction target : misc (ProcInst target)
  | misc_directive : misc Directive.

(** Before the root: an XML declaration can only be the first token. *)
Definition prolog (ts : list XmlToken) : Prop :=
  Forall misc ts /\
  forall i target, ts !! i = Some (ProcInst target) -> equal_fold target "xml" = true -> i = 0 /\ target = "xml".

(** After the root: no declaration, no directive. *)
Definition epilog (ts : list XmlToken) : Prop :=
  Forall misc ts /\ (Directive ∉ ts) /\ (forall target, ProcInst target ∈ ts -> equal_fold target "xml" = false).

Inductive document {A} (decodeElement : element_decoder A) : decoder -> A -> Prop :=
  | one_root before name inside v after :
      prolog before -> decodeElement name inside = Ok (v, (Ok <$> after)) -> epilog after ->
      document decodeElement ((Ok <$> before) ++ (Ok (StartElement name) :: inside)) v.

Lemma isXMLMisc_prolog token : isXMLMisc token true = true <-> misc token.
Proof. split; [destruct token; try done; by constructor|]. by intros []. Qed.

Lemma isXMLMisc_epilog token : isXMLMisc token false = true <->
  misc token /\ token <> Directive /\ forall target, token = ProcInst target -> equal_fold target "xml" = false.
Proof.
  split.
  - destruct token as [| |text| |target|]; cbn [isXMLMisc orb]; intros H; try done; (split; [by constructor|]); (split; [done|]);
      try done. intros t [= <-]. by apply negb_true_iff.
  - intros ([] & Hd & Ht); try done. cbn [isXMLMisc orb]. by rewrite Ht.
Qed.

Lemma finishXMLRequest_epilog d : finishXMLRequest d = Ok tt <-> exists after, d = (Ok <$> after) /\ epilog after.
Proof.
  split.
  - induction d as [|[token|e] d IH]; cbn [finishXMLRequest]; [|..|done].
    { intros _. exists []. split; [done|]. split; [constructor|]. split; [by apply not_elem_of_nil|]. by intros t Ht%elem_of_nil. }
   
    destruct (isXMLMisc token false) eqn:E; [|done]. cbn [negb]. intros (after & -> & Hm & Hd & Hp)%IH.
    apply isXMLMisc_epilog in E as (Hm' & Hd' & Hp'). exists (token :: after). split; [done|]. split; [by constructor|].
    split; [by intros [?|?]%elem_of_cons|]. intros target [<-|Hin]%elem_of_cons; [by apply Hp'|by apply Hp].
  - intros (after & -> & Hm & Hd & Hp). induction after as [|token after IH]; [done|]. cbn [fmap list_fmap finishXMLRequest].
    apply Forall_cons in Hm as [Hm Hms]. rewrite (proj2 (isXMLMisc_epilog token)).
    + apply IH; [done|set_solver|]. intros target Hin. apply Hp. by right.
    + split; [done|]. split; [intros ->; by apply Hd; left|]. intros target ->. apply Hp. by left.
Qed.

(** The tokens of a prolog that begins with the first token, or after it. *)
Definition prolog_from (first : bool) (ts : list XmlToken) : Prop :=
  Forall misc ts /\
  forall i target, ts !! i = Some (ProcInst target) -> equal_fold target "xml" = true -> first = true /\ i = 0 /\ target = "xml".

Lemma prolog_from_cons first token ts :
  prolog_from first (token :: ts) <-> misc token /\ misplaced_declaration first token = false /\ prolog_from false ts.
Proof.
  unfold prolog_from. rewrite Forall_cons. split.
  - intros ((Hm & Hms) & Hp). split; [done|]. split.
    + destruct token as [| | | |target|]; try done. cbn [misplaced_declaration].
      destruct (equal_fold target "xml") eqn:E; [|done]. destruct (Hp 0 target eq_refl E) as (-> & _ & ->). done.
    + split; [done|]. intros i target Hi E. by destruct (Hp (S i) target Hi E) as (_ & ? & _).
  - intros (Hm & Hd & Hms & Hp). split; [done|]. intros [|i] target Hi E.
    + injection Hi as ->. cbn [misplaced_declaration] in Hd. rewrite E in Hd. cbn [andb] in Hd.
      apply orb_false_iff in Hd as [->%negb_false_iff Ht%negb_false_iff%String.eqb_eq]. done.
    + by destruct (Hp i target Hi E) as [? _].
Qed.

Lemma decode_document_spec {A} (decodeElement : element_decoder A) first d v :
  decode_document decodeElement first d = Ok v <->
  exists before name inside after, d = (Ok <$> before) ++ (Ok (StartElement name) :: inside) /\ prolog_from first before /\
    decodeElement name inside = Ok (v, (Ok <$> after)) /\ epilog after.
Proof.
  split.
  - revert first. induction d as [|[token|e] d IH]; intros first; cbn [decode_document]; [done|..|done].
    destruct (isXMLMisc token true) eqn:Em; cbn [negb].
    + destruct token as [name| | | | |]; try done;
        (destruct (misplaced_declaration first _) eqn:Ep; [done|]; intros (before & name & inside & after & -> & Hp & Hd & He)%IH;
         eexists (_ :: before), name, inside, after; split; [done|]; split; [|done]; apply prolog_from_cons;
         split; [by apply isXMLMisc_prolog|done]).
    + destruct token as [name| | | | |]; try done. destruct (decodeElement name d) as [[v' d']|] eqn:Ed; [|done]. cbn [result_bind fst snd].
      destruct (finishXMLRequest d') as [[]|] eqn:Ef; [|done]. intros [= <-].
      apply finishXMLRequest_epilog in Ef as (after & -> & He). exists [], name, d, after.
      split; [done|]. split; [by split|done].
  - intros (before & name & inside & after & -> & Hp & Hd & He). revert first Hp. induction before as [|token before IH]; intros first Hp.
    + cbn [fmap list_fmap app decode_document]. rewrite Hd. cbn [result_bind fst snd].
      by rewrite (proj2 (finishXMLRequest_epilog _)) by (by exists after).
    + apply prolog_from_cons in Hp as (Hm & Hmis & Hp). cbn [fmap list_fmap app decode_document].
      apply isXMLMisc_prolog in Hm. rewrite Hmis, Hm. cbn [negb]. destruct token; try done; by apply IH.
Qed.

(** C35: a request body is one XML document. [decodeXMLRequest] accepts exactly the payloads
    whose tokens, behind a byte order mark if there is one, are one root element, which
    gives the value, between white space, comments, instructions and directives: with the
    XML declaration nowhere but at the start, no directive behind the root, and nothing
    malformed before the end of the payload. *)
Theorem decodeXMLRequest_exact {A} (tokens : string -> decoder) (decodeElement : element_decoder A) payload v :
  decodeXMLRequest tokens decodeElement payload = Ok v <->
  document decodeElement (tokens (trim_prefix payload bom)) v.
Proof.
  unfold decodeXMLRequest. rewrite decode_document_spec. split.
  - intros (before & name & inside & after & -> & [Hm Hp] & Hd & He). apply (one_root _ _ _ _ _ after); [|done..].
    split; [done|]. intros i target Hi E. by destruct (Hp i target Hi E) as [_ ?].
  - intros [before name inside v' after [Hm Hp] Hd He]. exists before, name, inside, after. split; [done|]. split; [|done].
    split; [done|]. intros i target Hi E. split; [done|by apply Hp].
Qed.

(** * The documents of the S3 handlers: [internal/s3/xml.go] *)

Definition s3_xmlns : string := "http://s3.amazonaws.com/doc/2006-03-01/".

(** ** Requests *)

(** [CompletePart] *)
Record CompletePart : Type := MkCompletePart { cp_part_number : Z; cp_etag : string }.

(** [deleteObjectsRequest] *)
Record deleteObjectsRequest : Type := MkDeleteRequest {
  dq_xml_name : string;
  dq_quiet : bool;
  dq_objects : list string;
}.

(** [createBucketConfiguration] *)
Record createBucketConfiguration : Type := MkBucketConfig {
  bc_xml_name : string;
  bc_location_constraint : string;
}.

(** The parser of [encoding/xml]: the tokens of a payload, and the elements of the three
    documents that a request body holds, as the structs they fill. *)
Class XmlDecoder : Type := {
  xml_tokens : string -> decoder;
  complete_element : element_decoder (list CompletePart);
  delete_element : element_decoder deleteObjectsRequest;
  configuration_element : element_decoder createBucketConfiguration;
}.

Section Decode.
Context `{XmlDecoder}.

Definition decodeCompleteMultipartUpload : string -> result (list CompletePart) :=
  decodeXMLRequest xml_tokens complete_element.
Definition decodeDeleteObjects : string -> result deleteObjectsRequest := decodeXMLRequest xml_tokens delete_element.
Definition decodeCreateBucketConfiguration : string -> result createBucketConfiguration :=
  decodeXMLRequest xml_tokens configuration_element.
End Decode.

(** ** Results *)

(** [listBucketObject] *)
Record listBucketObject : Type := MkContents {
  lo_key : string;
  lo_last_modified : string;
  lo_etag : string;
  lo_size : Z;
  lo_storage_class : string;
}.

(** [listBucketResult] *)
Record listBucketResult : Type := MkListV2 {
  l2_name : string;
  l2_prefix : string;
  l2_key_count : Z;
  l2_max_keys : Z;
  l2_delimiter : string;
  l2_is_truncated : bool;
  l2_contents : list listBucketObject;
  l2_common_prefixes : list string;
  l2_continuation_token : string;
  l2_next_continuation_token : string;
  l2_start_after : string;
  l2_encoding_type : string;
}.

(** [listBucketV1Result] *)
Record listBucketV1Result : Type := MkListV1 {
  l1_name : string;
  l1_prefix : string;
  l1_marker : string;
  l1_next_marker : string;
  l1_max_keys : Z;
  l1_delimiter : string;
  l1_is_truncated : bool;
  l1_contents : list listBucketObject;
  l1_common_prefixes : list string;
  l1_encoding_type : string;
}.

(** [ListVersionsEntry] and [ListVersionsResult] *)
Record ListVersionsEntry : Type := MkVersionEntry {
  ve_key : string;
  ve_version_id : string;
  ve_is_latest : bool;
  ve_last_modified : string;
  ve_etag : string;
  ve_size : Z;
  ve_storage_class : string;
}.

Record ListVersionsResult : Type := MkListVersions {
  lv_name : string;
  lv_prefix : string;
  lv_key_marker : string;
  lv_next_key_marker : string;
  lv_max_keys : Z;
  lv_is_truncated : bool;
  lv_version : list ListVersionsEntry;
}.

(** [Owner] *)
Record Owner : Type := MkOwner { ow_id : string; ow_display_name : string }.

(** [MultipartUploadEntry] and [ListMultipartUploadsResult] *)
Record MultipartUploadEntry : Type := MkUploadEntry {
  ue_key : string;
  ue_upload_id : string;
  ue_initiator : Owner;
  ue_owner : Owner;
  ue_storage_class : string;
  ue_initiated : string;
}.

Record ListMultipartUploadsResult : Type := MkListUploads {
  lm_bucket : string;
  lm_key_marker : string;
  lm_upload_id_marker : string;
  lm_next_key_marker : string;
  lm_next_upload_id_marker : string;
  lm_max_uploads : Z;
  lm_is_truncated : bool;
  lm_upload : list MultipartUploadEntry;
  lm_delimiter : string;
  lm_prefix : string;
}.

(** [ListPartsPart] and [ListPartsResult] *)
Record ListPartsPart : Type := MkPartEntry {
  pe_part_number : Z;
  pe_last_modified : string;
  pe_etag : string;
  pe_size : Z;
  pe_crc32 : string;
  pe_crc32c : string;
  pe_crc64nvme : string;
  pe_sha1 : string;
  pe_sha256 : string;
}.

Record ListPartsResult : Type := MkListParts {
  lp_bucket : string;
  lp_key : string;
  lp_upload_id : string;
  lp_initiator : Owner;
  lp_owner : Owner;
  lp_storage_class : string;
  lp_part_number_marker : Z;
  lp_next_part_number_marker : Z;
  lp_max_parts : Z;
  lp_is_truncated : bool;
  lp_part : list ListPartsPart;
}.

(** [ObjectChecksum] and [GetObjectAttributesResult] *)
Record ObjectChecksum : Type := MkObjectChecksum {
  oc_crc32 : string;
  oc_crc32c : string;
  oc_crc64nvme : string;
  oc_sha1 : string;
  oc_sha256 : string;
}.

Record GetObjectAttributesResult : Type := MkAttributes {
  at_etag : string;
  at_object_size : option Z;
  at_storage_class : string;
  at_object_parts : option Z;
  at_checksum : option ObjectChecksum;
}.

(** [deleteObjectError] and [deleteObjectsResult] *)
Record deleteObjectError : Type := MkDeleteError { de_key : string; de_code : string; de_message : string }.

Record deleteObjectsResult : Type := MkDeleteResult {
  dl_deleted : list string;
  dl_errors : list deleteObjectError;
}.

(** [listAllMyBucketsResult]: the owner, and name and creation date of each bucket. *)
Record listAllMyBucketsResult : Type := MkBucketsResult {
  lb_owner : Owner;
  lb_buckets : list (string * string);
}.

(** The documents that a handler encodes. *)
Inductive XmlResult : Type :=
  | InitiateMultipartUploadResult (bucket key uploadID checksumAlgorithm : string)
  | CompleteMultipartUploadResult (location bucket key etag : string)
  | CopyPartResult (lastModified etag : string)
  | CopyObjectResult (lastModified etag : string)
  | LocationConstraintResult (value : string)
  | ListBucketResult (r : listBucketResult)
  | ListBucketV1Result (r : listBucketV1Result)
  | ListVersionsXml (r : ListVersionsResult)
  | ListMultipartUploadsXml (r : ListMultipartUploadsResult)
  | ListPartsXml (r : ListPartsResult)
  | GetObjectAttributesXml (r : GetObjectAttributesResult)
  | DeleteResultXml (r : deleteObjectsResult)
  | ListAllMyBucketsXml (r : listAllMyBucketsResult).

(** ** Responses

    [Content] is the call of [http.ServeContent] on an open file: the standard
    library answers ranges and conditional requests from the file and the headers
    set. [ErrorXml] is an [S3Error] document, [JsonText] an encoded JSON value, [PlainText]
    the body of [http.Error]. *)
Inductive Body : Type :=
  | NoBody
  | ErrorXml (code message resource requestID : string)
  | JsonText (doc : Json)
  | Xml (doc : XmlResult)
  | Content (name : string) (modtime : time) (file : option string)
  | PlainText (text : string).

Record Response : Type := MkResponse { rs_status : Z; rs_header : Header; rs_body : Body }.

(** [WriteS3Error], after the headers [h] have been set. *)
Definition WriteS3Error_with (h : Header) (r : Request) (status : Z) (code message : string) : Response :=
  MkResponse status (header_set "Content-Type" "application/xml" h)
    (if String.eqb (rq_method r) "HEAD" then NoBody
     else ErrorXml code message (rq_path r) (if String.eqb (rq_id r) "" then "local-0001" else rq_id r)).

Definition WriteS3Error : Request -> Z -> string -> string -> Response := WriteS3Error_with ∅.

(** [w.WriteHeader(status)] with no body. *)
Definition Reply (status : Z) (h : Header) : Response := MkResponse status h NoBody.

(** [w.Header().Set("Content-Type", "application/xml"); w.WriteHeader(200);
    xml.NewEncoder(w).Encode(doc)] *)
Definition ReplyXml_with (h : Header) (doc : XmlResult) : Response :=
  MkResponse 200 (header_set "Content-Type" "application/xml" h) (Xml doc).
Definition ReplyXml : XmlResult -> Response := ReplyXml_with ∅.

(** ** Multipart ETags *)

(** [MultipartETag]: the digest of the parts' digests, and their number. *)
Fixpoint part_digests (partETags : list string) : option string :=
  match partETags with
  | [] => Some ""
  | etag :: rest =>
      match hex_decode (unquoteETag etag), part_digests rest with
      | Some digest, Some digests => Some (digest +:+ digests)
      | _, _ => None
      end
  end.

Definition MultipartETag (partETags : list string) : result string :=
  match partETags with
  | [] => Err (ErrOther "no parts")
  | _ =>
      match part_digests partETags with
      | None => Err (ErrOther "invalid etag")
      | Some digests =>
          Ok (hex_encode (md5_sum digests) +:+ "-" +:+ format_int (Z.of_nat (length partETags)))
      end
  end.
