(* ===== verification/Checksum.v ===== *)
(** * Request checksums: [internal/s3/checksum.go]

    The pipeline hashes the body while the storage engine reads it, and compares the
    digests with those that the request's headers announce. *)

From S2P Require Import Prelude GoStrings Encoding Hash Effects DiskEngine Authz S3Http.

Definition errInvalidDigest : error := ErrOther "invalid digest".
Definition errInvalidChecksum : error := ErrOther "invalid checksum".
Definition errChecksumMismatch : error := ErrOther "checksum mismatch".

Definition unsignedPayloadHash : string := "UNSIGNED-PAYLOAD".

(** A [checksumCheck]: [sum] is the digest of what has been read. *)
Record checksumCheck : Type := MkCheck {
  cc_name : string;
  cc_expected : string;
  cc_sum : string -> string;
}.

(** The [checksumPipeline], without its hashes: they are functions of the bytes read. *)
Abbreviation checksumPipeline := (list checksumCheck).

(** [decodeChecksum] *)
Definition decodeChecksum (value : string) : option string := b64_decode StdAlphabet true value.

(** A check of one header: none when the value is empty; it must decode to [size] bytes. *)
Definition header_check (name value : string) (decode : string -> option string) (size : Z)
    (sum : string -> string) (failure : error) : result checksumPipeline :=
  if String.eqb value "" then Ok []
  else match decode value with
       | Some expected => if (string_len expected =? size)%Z then Ok [MkCheck name expected sum] else Err failure
       | None => Err failure
       end.

(** [addHashCheck], [addCRC32Check] and [addCRC64NVME] *)
Definition addHashCheck (h : Header) (name : string) (sum : string -> string) (size : Z) :=
  header_check name (header_get h name) decodeChecksum size sum errInvalidChecksum.

Definition addCRC32Check (h : Header) (name : string) (table : Z) :=
  header_check name (header_get h name) decodeChecksum 4
    (fun data => be_bytes 4 (crc32_checksum table data)) errInvalidChecksum.

Definition crc64NVMeTable : Z := 0x9a6c9329ac4bc9b5.

Definition addCRC64NVME (h : Header) :=
  let name := "x-amz-checksum-crc64nvme" in
  header_check name (trim_space (header_get h name)) decodeChecksum 8
    (fun data => be_bytes 8 (crc64_checksum crc64NVMeTable data)) errInvalidChecksum.

(** One round of the loop over the two payload hashes. *)
Definition payload_check (value : string) : result checksumPipeline :=
  header_check "X-Amz-Content-SHA256" (if String.eqb value unsignedPayloadHash then "" else value)
    hex_decode 32 sha256_sum errInvalidDigest.

Definition newChecksumPipeline (r : Request) : result checksumPipeline :=
  let h := rq_header r in
  let? md5 := header_check "Content-MD5" (header_get h "Content-MD5") decodeChecksum 16 md5_sum errInvalidDigest in
  let? payload := payload_check (trim_space (header_get h "X-Amz-Content-SHA256")) in
  let? signed := payload_check (p_signed_payload_hash (principal_or_zero r)) in
  let? sha1 := addHashCheck h "x-amz-checksum-sha1" sha1_sum 20 in
  let? sha256 := addHashCheck h "x-amz-checksum-sha256" sha256_sum 32 in
  let? crc32 := addCRC32Check h "x-amz-checksum-crc32" crc32_IEEE in
  let? crc32c := addCRC32Check h "x-amz-checksum-crc32c" crc32_Castagnoli in
  let? crc64 := addCRC64NVME h in
  Ok (md5 ++ payload ++ signed ++ sha1 ++ sha256 ++ crc32 ++ crc32c ++ crc64).

(** The methods of the pipeline once it has read [data]. *)
Definition ETag (data : string) : string := hex_encode (md5_sum data).

Fixpoint Validate (checks : checksumPipeline) (data : string) : result unit :=
  match checks with
  | [] => Ok tt
  | check :: rest =>
      if negb (String.eqb (cc_expected check) (cc_sum check data)) then Err errChecksumMismatch
      else Validate rest data
  end.

Definition Checksums (checks : checksumPipeline) (data : string) : gmap string string :=
  fold_left (fun m c => <[cc_name c := b64_encode StdAlphabet true (cc_sum c data)]> m) checks ∅.

(** [cs[name]]: the zero value for an absent key. *)
Definition checksum_of (cs : gmap string string) (name : string) : string := default "" (cs !! name).

(** ** Correctness *)

Lemma Validate_app p q data :
  Validate (p ++ q) data = Ok tt <-> Validate p data = Ok tt /\ Validate q data = Ok tt.
Proof.
  induction p as [|c p IH]; simpl; [tauto|]. destruct (negb _); [|done]. split; [done|by intros [? _]].
Qed.

(** The bytes that a header value announces are the digest of the data. *)
Definition announces (decode : string -> option string) (value digest : string) : Prop :=
  value = "" \/ decode value = Some digest.

Lemma header_check_validate name value decode size sum failure p data :
  header_check name value decode size sum failure = Ok p ->
  Validate p data = Ok tt <-> announces decode value (sum data).
Proof.
  unfold header_check, announces. destruct (String.eqb_spec value "") as [->|Hne].
  { intros [= <-]. simpl. tauto. }
  destruct (decode value) as [expected|]; [|done]. destruct (_ =? _)%Z; [|done]. intros [= <-]. simpl.
  destruct (String.eqb_spec expected (sum data)) as [->|Hd]; simpl; [tauto|].
  split; [done|]. intros [?|[= ?]]; done.
Qed.

(** Every digest that the request announces is that of the data. *)
Definition digests_match (r : Request) (data : string) : Prop :=
  let h := rq_header r in
  let payload value := value = unsignedPayloadHash \/ announces hex_decode value (sha256_sum data) in
  announces decodeChecksum (header_get h "Content-MD5") (md5_sum data) /\
  payload (trim_space (header_get h "X-Amz-Content-SHA256")) /\
  payload (p_signed_payload_hash (principal_or_zero r)) /\
  announces decodeChecksum (header_get h "x-amz-checksum-sha1") (sha1_sum data) /\
  announces decodeChecksum (header_get h "x-amz-checksum-sha256") (sha256_sum data) /\
  announces decodeChecksum (header_get h "x-amz-checksum-crc32")
    (be_bytes 4 (crc32_checksum crc32_IEEE data)) /\
  announces decodeChecksum (header_get h "x-amz-checksum-crc32c")
    (be_bytes 4 (crc32_checksum crc32_Castagnoli data)) /\
  announces decodeChecksum (trim_space (header_get h "x-amz-checksum-crc64nvme"))
    (be_bytes 8 (crc64_checksum crc64NVMeTable data)).

Lemma payload_check_validate value p data :
  payload_check value = Ok p ->
  Validate p data = Ok tt <-> (value = unsignedPayloadHash \/ announces hex_decode value (sha256_sum data)).
Proof.
  intros H. apply header_check_validate with (data := data) in H. rewrite H.
  destruct (String.eqb_spec value unsignedPayloadHash) as [->|Hne].
  - split; [by left|]. by left.
  - split; [by right|]. by intros [?|?].
Qed.

(** The body is accepted exactly when it has every digest announced. *)
Lemma pipeline_validate r p data :
  newChecksumPipeline r = Ok p -> Validate p data = Ok tt <-> digests_match r data.
Proof.
  unfold newChecksumPipeline. intros H.
  repeat match type of H with
    | result_bind ?m _ = Ok _ => destruct m as [?l|] eqn:?E; [|done]; simpl in H
    end.
  injection H as <-. unfold digests_match. rewrite !Validate_app.
  rewrite (header_check_validate _ _ _ _ _ _ _ data E), (payload_check_validate _ _ data E0),
    (payload_check_validate _ _ data E1).
  unfold addHashCheck, addCRC32Check, addCRC64NVME in *.
  rewrite (header_check_validate _ _ _ _ _ _ _ data E2), (header_check_validate _ _ _ _ _ _ _ data E3),
    (header_check_validate _ _ _ _ _ _ _ data E4), (header_check_validate _ _ _ _ _ _ _ data E5),
    (header_check_validate _ _ _ _ _ _ _ data E6).
  done.
Qed.

(** C30: no body is stored under a digest it does not have. Once the pipeline of a
    request is built, [Validate] accepts the bytes read exactly when each digest that
    the request announces - Content-MD5, the payload hash, the hash the signature
    covers, and the SHA-1, SHA-256, CRC-32, CRC-32C and CRC-64/NVME checksums - is
    that of these bytes. *)
Theorem Validate_correct r p data :
  newChecksumPipeline r = Ok p -> Validate p data = Ok tt <-> digests_match r data.
Proof. apply pipeline_validate. Qed.

(** ** Witness *)

Definition sample_request : Request :=
  MkRequest "PUT" "/photos/cat" "/photos/cat" "localhost" "127.0.0.1:4000" false {["bucket" := "photos"; "*" := "cat"]}
    {["Content-Md5" := ["kAFQmDzST7DWlj99KOF/cg=="];
      "X-Amz-Checksum-Crc32" := ["NSRBwg=="];
      "X-Amz-Content-Sha256" := ["UNSIGNED-PAYLOAD"]]}
    ∅ 3 [MkRead "abc" None] (Some (MkPrincipal "u1" "User" "ak" "member" false "" "")) "".

Lemma Validate_correct_witness :
  exists p, newChecksumPipeline sample_request = Ok p /\ length p = 2 /\
    (Validate p "abc" = Ok tt <-> digests_match sample_request "abc") /\
    Validate p "abc" = Ok tt /\ Validate p "abd" = Err errChecksumMismatch.
Proof.
  set (p := match newChecksumPipeline sample_request with Ok p => p | Err _ => [] end).
  exists p. split; [reflexivity|]. split; [reflexivity|].
  split; [apply (Validate_correct sample_request p "abc"); reflexivity|].
  split; vm_compute; reflexivity.
Defined.
