(* ===== verification/S3Access.v ===== *)
(** * Access checks of the S3 handlers: [internal/s3/access.go]

    The handlers' configuration, and the checks that come before their work. A check
    returns the error response it has written, or what the handler goes on with. *)

From S2P Require Import Prelude GoStrings Effects Os Sanitize DiskEngine Schema Db Iam Authz ObjectRepo BucketRepo GrantRepo ActivityRepo ObjectOps Prog S3Http S3Xml CachedBucketRepo CachedObjectRepo CachedRepo.

(** [NewAuthzEvaluator]; [false] is a nil repository. *)
Definition authz_grant (row : Grant) : AuthzGrant :=
  MkAuthzGrant (g_bucket_name row) (g_grantee_user_id row) (g_action row) (g_key_prefix row) (g_is_active row).

Definition NewAuthzEvaluator (grants : bool) : Evaluator World :=
  if negb grants then MkEvaluator None
  else MkEvaluator (Some (FuncStore (Some (fun granteeUserID bucketName =>
    rows <- db (GrantRepository.ListActiveForGranteeBucket granteeUserID bucketName) ;;
    ret (authz_grant <$> rows))))).

(** [ObjectHandlers], without the logger, the hooks [Now] and [NewID] (nil outside
    tests) and the write timeout; a repository that may be nil is a flag. *)
Record ObjectHandlers : Type := MkHandlers {
  h_storage : engine;
  h_users : bool;
  h_activity : bool;
  h_grants : bool;
  h_share_links : bool;
  h_authz : option (Evaluator World);
  h_s3_cache_control : string;
  h_min_part_size : Z;
  h_signing_secret : option string;
}.

(** [h.now()] and [h.newID()] *)
Definition now : prog World time := Call (db time_now) (fun r => Ret (match r with Ok t => t | Err _ => 0%Z end)).

Section Ids.
Context `{Uuid}.

Definition newID : prog World string := Call (os new_uuid) (fun r => Ret (match r with Ok s => s | Err _ => "" end)).

(** [recordActivity]: a failure is only logged. *)
Definition recordActivity (h : ObjectHandlers) (r : Request) (action bucketName key : string) (size : Z)
    (etag : string) : prog World unit :=
  id <~ newID ;;
  created <~ now ;;
  call (db (RecordActivity (h_activity h) (rq_principal r)
         (MkActivity id action bucketName key size etag "" created))) ~;;
  Ret tt.
End Ids.

Section Access.
Context `{Rounds} (h : ObjectHandlers).

Definition AccessDenied (r : Request) : Response := WriteS3Error r 403 codeAccessDenied messageAccessDenied.
Definition InternalError (r : Request) : Response := WriteS3Error r 500 codeInternalError messageInternalError.
Definition InvalidRequest (r : Request) : Response := WriteS3Error r 400 codeInvalidRequest messageInvalidRequest.
Definition InvalidArgument (r : Request) : Response := WriteS3Error r 400 codeInvalidArgument messageInvalidArgument.
Definition NoSuchBucket (r : Request) : Response := WriteS3Error r 404 codeNoSuchBucket messageNoSuchBucket.
Definition NoSuchKey (r : Request) : Response := WriteS3Error r 404 codeNoSuchKey messageNoSuchKey.
Definition NoSuchUpload (r : Request) : Response := WriteS3Error r 404 codeNoSuchUpload messageNoSuchUpload.
Definition PreconditionFailed (r : Request) : Response :=
  WriteS3Error r 412 codePreconditionFailed messagePreconditionFailed.

(** [NotImplemented] *)
Definition NotImplemented (r : Request) : Response := WriteS3Error r 501 codeNotImplemented messageNotImplemented.

(** [evaluator]: without one, nothing is allowed by grants. *)
Definition evaluator : Evaluator World := default (MkEvaluator None) (h_authz h).

Definition has_user (r : Request) : option Principal :=
  p ← rq_principal r; if String.eqb (trim_space (p_user_id p)) "" then None else Some p.

(** [authorize]: [inr] when access is allowed. *)
Definition authorize_with (hd : Header) (r : Request) (action : Action)
    (bucketName objectKey listPrefix : string) (bucket : option Bucket) : prog World (Response + unit) :=
  let refuse status code message := Ret (inl (WriteS3Error_with hd r status code message)) in
  match has_user r with
  | None => refuse 403%Z codeAccessDenied messageAccessDenied
  | Some principal =>
      let ownerID := match bucket with Some b => b_owner_id b | None => "" end in
      allowed <~ call (Allow evaluator
                   (MkDecisionRequest principal action bucketName objectKey listPrefix ownerID)) ;;
      match allowed with
      | Err _ => refuse 500%Z codeInternalError messageInternalError
      | Ok false => refuse 403%Z codeAccessDenied messageAccessDenied
      | Ok true => Ret (inr tt)
      end
  end.

(** [authorizeQuiet] *)
Definition authorizeQuiet (r : Request) (action : Action) (bucketName objectKey : string) (bucket : Bucket)
    : prog World (result bool) :=
  match has_user r with
  | None => Ret (Ok false)
  | Some principal =>
      call (Allow evaluator
        (MkDecisionRequest principal action bucketName objectKey "" (b_owner_id bucket)))
  end.

(** [authorizeBucketRelationship] *)
Definition authorizeBucketRelationship (r : Request) (bucket : Bucket) : prog World (Response + unit) :=
  match has_user r with
  | None => Ret (inl (AccessDenied r))
  | Some principal =>
      if String.eqb (p_role principal) RoleAdmin || String.eqb (b_owner_id bucket) (p_user_id principal)
      then Ret (inr tt)
      else if negb (h_grants h) then Ret (inl (AccessDenied r))
      else
        grants <~ call (db (GrantRepository.ListActiveForGranteeBucket (p_user_id principal) (b_name bucket))) ;;
        match grants with
        | Err _ => Ret (inl (InternalError r))
        | Ok [] => Ret (inl (AccessDenied r))
        | Ok _ => Ret (inr tt)
        end
  end.

(** [loadBucket], after the headers [hd] have been set. *)
Definition loadBucket_with (hd : Header) (r : Request) (bucketName : string) : prog World (Response + Bucket) :=
  if String.eqb (trim_space bucketName) ""
  then Ret (inl (WriteS3Error_with hd r 400 codeInvalidRequest messageInvalidRequest))
  else
    bucket <~ CachedBucketRepository.GetByName bucketName ;;
    match bucket with
    | Err ErrBucketNotFound => Ret (inl (WriteS3Error_with hd r 404 codeNoSuchBucket messageNoSuchBucket))
    | Err _ => Ret (inl (WriteS3Error_with hd r 500 codeInternalError messageInternalError))
    | Ok b => Ret (inr b)
    end.
Definition loadBucket : Request -> string -> prog World (Response + Bucket) := loadBucket_with ∅.

(** [loadBucketForAction] and [ensureBucketAction] *)
Definition loadBucketForAction_with (hd : Header) (r : Request) (bucketName : string) (action : Action)
    (objectKey listPrefix : string) : prog World (Response + Bucket) :=
  bucket <~? loadBucket_with hd r bucketName ;;
  _ <~? authorize_with hd r action bucketName objectKey listPrefix (Some bucket) ;;
  Ret (inr bucket).

Definition ensureBucketAction_with (hd : Header) (r : Request) (bucketName : string) (action : Action)
    (objectKey listPrefix : string) : prog World (Response + unit) :=
  _ <~? loadBucketForAction_with hd r bucketName action objectKey listPrefix ;;
  Ret (inr tt).
Definition ensureBucketAction : Request -> string -> Action -> string -> string -> prog World (Response + unit) :=
  ensureBucketAction_with ∅.

(** [requireSignedHeader] *)
Definition requireSignedHeader (r : Request) (headerName : string) : prog World (Response + unit) :=
  if requestHasSignedHeader r headerName then Ret (inr tt) else Ret (inl (AccessDenied r)).
End Access.

(** ** The checks alone

    Of one request on a cache that agrees with the database: a check changes nothing,
    and says the same wherever the database is the same. *)

(** A response of the handlers that is not a file. *)
Definition no_file (resp : Response) : Prop := match rs_body resp with Content _ _ (Some _) => False | _ => True end.

Definition refusal (resp : Response) : Prop := (400 <= rs_status resp)%Z /\ no_file resp.

Lemma WriteS3Error_refusal hd r status code message : (400 <= status)%Z -> refusal (WriteS3Error_with hd r status code message).
Proof. intros Hs. split; [exact Hs|]. unfold no_file, WriteS3Error_with. cbn [rs_body]. by destruct (String.eqb (rq_method r) "HEAD"). Qed.

(** The program has returned. *)
Ltac rets := cbv beta iota; repeat (lazymatch goal with |- pwp (Ret _) _ _ => apply pwp_ret end; cbv beta iota).

(** The repositories' authorizer, or none. *)
Definition standard_authz (h : ObjectHandlers) : Prop :=
  h_authz h = None \/ exists grants, h_authz h = Some (NewAuthzEvaluator grants).

Section Alone.
Context `{Rounds} (h : ObjectHandlers) (Hauthz : standard_authz h).

(** The evaluator asks the database only. *)
Lemma Allow_on_db req :
  exists m : M Db bool, (forall w, Allow (evaluator h) req w = db m w) /\
    forall d, wp m (fun _ d' => db_tables d' = db_tables d /\ db_clock d' = db_clock d /\ (db_faults d = [] -> d' = d)) d.
Proof using Hauthz.
  assert (Hret : forall b : bool, exists m : M Db bool, (forall w, ret b w = db m w) /\
            forall d, wp m (fun _ d' => db_tables d' = db_tables d /\ db_clock d' = db_clock d /\ (db_faults d = [] -> d' = d)) d).
  { intros b. exists (ret b). split; [by intros []|done]. }
  unfold Allow, evaluator. destruct Hauthz as [->|[[] ->]]; repeat (case_match; [apply Hret|]); try apply Hret.
  cbn [ev_grants default from_option NewAuthzEvaluator negb FuncStore].
  exists (rows <- GrantRepository.ListActiveForGranteeBucket (p_user_id (dr_principal req)) (dr_bucket req) ;;
          ret (any_grant_allows (authz_grant <$> rows) req)). split.
  - intros w. unfold db, on, bind. simpl. by destruct (GrantRepository.ListActiveForGranteeBucket _ _ _) as [[]].
  - intros d. unfold GrantRepository.ListActiveForGranteeBucket. destruct (decide (db_faults d = [])) as [Hf|Hf].
    + unfold wp, bind. by rewrite query_run.
    + apply wp_bind, wp_query; intros fs; [done|by apply wp_ret].
Qed.

Lemma pwp_Allow req w :
  quiet_cache w -> pwp (call (Allow (evaluator h) req)) (fun _ w' => read_only w w') w.
Proof using Hauthz.
  intros Hc. destruct (Allow_on_db req) as (m & Em & Hm). apply pwp_call. unfold wp. rewrite Em.
  apply (wp_db m (fun _ w' => read_only w w')). eapply wp_mono; [apply Hm|]. cbv beta.
  intros r d (Et & Ec & Ed). split; [done|done|done|simpl; by rewrite Et|done].
Qed.

Lemma Allow_agrees req w1 w2 :
  w_db w1 = w_db w2 -> (Allow (evaluator h) req w1).1 = (Allow (evaluator h) req w2).1.
Proof using Hauthz.
  intros E. destruct (Allow_on_db req) as (m & Em & _). rewrite !Em. unfold db, on. simpl. rewrite E.
  by destruct (m (w_db w2)).
Qed.

Lemma pwp_ensure hd r b action k p w :
  quiet_cache w ->
  pwp (ensureBucketAction_with h hd r b action k p) (fun res w' => read_only w w' /\
    match res with inr _ => is_Some (t_buckets (tables w) !! b) | inl resp => refusal resp end) w.
Proof using Hauthz.
  intros Hc. unfold ensureBucketAction_with, loadBucketForAction_with, loadBucket_with, early.
  apply pwp_bind, pwp_bind. destruct (String.eqb _ ""); [by rets; split; [apply read_only_refl|apply WriteS3Error_refusal]|].
  apply pwp_bind. eapply pwp_mono; [by apply (pwp_GetByName rounds)|]. cbv beta. intros res w1 [Hr Ha].
  destruct res as [bucket|err]; [|by destruct err; rets; (split; [|apply WriteS3Error_refusal])].
  assert (Hb : is_Some (t_buckets (tables w) !! b)).
  { destruct Ha as [Ha|[_ ?]]; [|done]. unfold bucket_answer in Ha. destruct (t_buckets (tables w) !! b); [by eexists|done]. }
  rets. apply pwp_bind. unfold authorize_with.
  destruct (has_user r) as [principal|]; [|by apply pwp_ret; split; [|apply WriteS3Error_refusal]].
  apply pwp_bind. eapply pwp_mono; [apply pwp_Allow, Hr|]. cbv beta.
  intros [[]|] w' Hr'; rets; (split; [by eapply read_only_trans|]); [done|by apply WriteS3Error_refusal..].
Qed.

(** A check that has passed. *)
Lemma granted_read hd r b action k p w :
  quiet_cache w -> (run (ensureBucketAction_with h hd r b action k p) w).1 = inr tt ->
  pwp (ensureBucketAction_with h hd r b action k p) (fun res w' => res = inr tt /\ read_only w w') w.
Proof using Hauthz. intros Hc Hg. split; [exact Hg|]. by apply pwp_ensure. Qed.

(** Without faults, what is allowed follows from the database. *)
Lemma ensure_agrees hd r r' b action k p w1 w2 :
  rq_principal r' = rq_principal r -> quiet_cache w1 -> quiet_cache w2 -> db_faults (w_db w1) = [] -> w_db w2 = w_db w1 ->
  (run (ensureBucketAction_with h hd r b action k p) w1).1 = inr tt ->
  (run (ensureBucketAction_with h hd r' b action k p) w2).1 = inr tt.
Proof using Hauthz.
  intros Er Hc1 Hc2 Hf E. unfold ensureBucketAction_with, loadBucketForAction_with, loadBucket_with, early, authorize_with, has_user.
  rewrite Er. destruct (String.eqb _ ""); [done|]. rewrite !run_bind.
  pose proof (pwp_GetByName rounds b w1 Hc1) as H1. pose proof (pwp_GetByName rounds b w2 Hc2) as H2. unfold pwp in H1, H2.
  change (@CachedBucketRepository.GetByName (read_rounds rounds)) with (CachedBucketRepository.GetByName) in *.
  destruct (run (CachedBucketRepository.GetByName b) w1) as [a1 w1'], (run (CachedBucketRepository.GetByName b) w2) as [a2 w2'].
  cbn [fst snd] in *. destruct H1 as [R1 [->|[? _]]], H2 as [R2 [->|[? _]]]; try congruence. rewrite E.
  destruct (bucket_answer (tables w1) b) as [bucket|[]]; try done. cbn [run pbind].
  destruct (_ ≫= _) as [principal|]; [|done]. cbn [call pbind run].
  assert (E' : w_db w2' = w_db w1') by (rewrite (ro_db _ _ R1), (ro_db _ _ R2) by congruence; done).
  match goal with |- context [Allow (evaluator h) ?req w1'] => pose proof (Allow_agrees req w1' w2' (eq_sym E')) as Ha end.
  destruct (Allow _ _ w1') as [r1 w1''], (Allow _ _ w2') as [r2 w2'']. cbn [fst] in Ha. subst r2. by destruct r1 as [[]|].
Qed.
End Alone.
