(* ===== verification/Auth.v ===== *)
(** * Authentication: [internal/auth] but for [sigv4.go]

    Issuing credentials ([token.go]), the bearer and the development authenticator,
    the chain, and the middleware that puts the principal in the request. *)

From S2P Require Import Prelude GoStrings Encoding GoNet Hash Effects Os Schema Db Iam UserRepo Authz Prog S3Http S3Xml S3Access SigV4.

#[local] Open Scope Z_scope.

(** ** Random bytes

    [crypto/rand]: the n-th call of a run gives these bytes, and a number below
    a bound. *)
Class Random : Type := {
  random_bytes : nat -> nat -> string;
  random_below : nat -> Z -> Z;
}.
Class RandomLaws `{Random} : Prop := {
  random_bytes_length i n : String.length (random_bytes i n) = n;
  random_below_range i max : 0 < max -> 0 <= random_below i max < max;
}.

Definition next_call (s : Os) : Os := MkOs (os_files s) (os_dirs s) (os_faults s) (S (os_uuids s)).

Definition rand_read `{Random} (n : nat) : M Os string :=
  syscall (fun s => (Ok (random_bytes (os_uuids s) n), next_call s)).
Definition rand_int `{Random} (max : Z) : M Os Z :=
  syscall (fun s => (Ok (random_below (os_uuids s) max), next_call s)).

(** ** Tokens: [token.go] *)

Definition tokenPrefix : string := "fbsa_".
Definition sigV4Prefix : string := "fbsv4_".

Record IssuedToken : Type := MkIssued { it_access_key_id : string; it_raw_token : string; it_secret_hash : string }.
Record SigV4Credentials : Type := MkSigV4 { sc_access_key_id : string; sc_secret_key : string }.

Definition hashSecret (secret : string) : string := hex_encode (sha256_sum secret).

(** [verifySecret]; the comparison takes the same time for all secrets. *)
Definition verifySecret (secret storedHex : string) : bool :=
  match hex_decode storedHex with
  | None => false
  | Some expected => String.eqb (sha256_sum secret) expected
  end.

Section Issue.
Context `{Random} `{Uuid}.

Definition generateID (prefix : string) : M Os string :=
  b <- rand_read 16 ;; ret (prefix +:+ hex_encode b).
Definition generateAccessKeyID : M Os string := generateID tokenPrefix.
Definition generateSecret : M Os string := b <- rand_read 32 ;; ret (b64_encode URLAlphabet false b).

Definition IssueBearerToken : M Os IssuedToken :=
  accessKeyID <- generateAccessKeyID ;;
  secret <- generateSecret ;;
  ret (MkIssued accessKeyID (accessKeyID +:+ "." +:+ secret) (hashSecret secret)).

Definition IssueSigV4Credentials : M Os SigV4Credentials :=
  accessKeyID <- generateID sigV4Prefix ;;
  secretKey <- generateSecret ;;
  ret (MkSigV4 accessKeyID secretKey).

(** The secrets of a user are blanked in what the callers see. *)
Definition without_secrets (u : User) : User :=
  MkUser (us_id u) (us_display_name u) (us_access_key_id u) "" (us_sigv4_access_key_id u) "" (us_role u)
    (us_is_active u) (us_created_at u) (us_updated_at u).

Definition createUserCredentials (createUser : User -> M Db unit) (displayName : string) (role : Role)
    : prog World (result (IssuedToken * SigV4Credentials * User)) :=
  issued <~ call (os IssueBearerToken) ;;
  match issued with
  | Err err => Ret (Err err)
  | Ok issued =>
      sigv4Creds <~ call (os IssueSigV4Credentials) ;;
      match sigv4Creds with
      | Err err => Ret (Err err)
      | Ok sigv4Creds =>
          now_ <~ now ;;
          id <~ newID ;;
          let user := MkUser id displayName (it_access_key_id issued) (it_secret_hash issued)
                        (sc_access_key_id sigv4Creds) (sc_secret_key sigv4Creds) role true now_ now_ in
          created <~ call (db (createUser user)) ;;
          match created with
          | Err err => Ret (Err err)
          | Ok _ => Ret (Ok (issued, sigv4Creds, without_secrets user))
          end
      end
  end.

Definition CreateBearerToken (displayName : string) (role : Role) :=
  createUserCredentials UserRepository.Create displayName role.

Definition CreateFirstAdmin (displayName : string) :=
  createUserCredentials UserRepository.CreateFirstUser
    (if String.eqb displayName "" then "Initial Admin" else displayName) RoleAdmin.
End Issue.

(** ** Authenticators *)

(** [BearerAuthenticator.Authenticate] *)
Definition BearerAuthenticate (r : Request) : M Db AuthResult :=
  let authHeader := header_get (rq_header r) "Authorization" in
  if String.eqb authHeader "" then ret (inl ErrNotApplicable)
  else
    let parts := fields authHeader in
    if match parts with p :: _ => negb (equal_fold p "Bearer") | [] => false end then ret (inl ErrNotApplicable)
    else match parts with
         | [_; token] =>
             let '(accessKeyID, secret, found) := cut token "." in
             if negb found || String.eqb accessKeyID "" || String.eqb secret "" then ret (inl ErrMalformedToken)
             else
               let! user := UserRepository.GetByAccessKeyID accessKeyID in
               match user with
               | Err ErrUserNotFound => ret (inl ErrInvalidCredentials)
               | Err err => ret (inl (ErrInternal err))
               | Ok user =>
                   if negb (verifySecret secret (us_secret_hash user)) then ret (inl ErrInvalidCredentials)
                   else if negb (us_is_active user) then ret (inl ErrInactiveUser)
                   else ret (inr (MkPrincipal (us_id user) (us_display_name user) (us_access_key_id user)
                                    (us_role user) false "" ""))
               end
         | _ => ret (inl ErrMalformedToken)
         end.

(** [ValidateDevMode] *)
Definition ValidateDevMode (httpAddr : string) (devMode : bool) : result unit :=
  if negb devMode then Ok tt
  else match SplitHostPort httpAddr with
       | None => Err (ErrOther "parse http addr")
       | Some (host, _) =>
           let host := trim_bytes "[]" host in
           if String.eqb host "127.0.0.1" || String.eqb host "localhost" || String.eqb host "::1" then Ok tt
           else Err (ErrOther "--dev requires a localhost-only bind address")
       end.

(** [DevAuthenticator.Authenticate] *)
Definition dev_principal : Principal := MkPrincipal "dev-user" "Development User" "dev" RoleAdmin true "" "".
Definition DevAuthenticate (r : Request) : M Db AuthResult := ret (inr dev_principal).

(** [ChainAuthenticator.Authenticate]: the first principal, or else the first error of
    an authenticator that applies; each authenticator is one call. *)
Fixpoint chain_loop (authenticators : list (Request -> M Db AuthResult)) (r : Request)
    (authErr : option AuthError) : prog World AuthResult :=
  match authenticators with
  | [] =>
      match authErr with
      | Some err => Ret (inl err)
      | None => if negb (String.eqb (header_get (rq_header r) "Authorization") "")
                then Ret (inl ErrUnsupportedScheme) else Ret (inl ErrMissingAuth)
      end
  | a :: rest =>
      p <~ call (db (a r)) ;;
      match p with
      | Ok (inr p) => Ret (inr p)
      | Ok (inl ErrNotApplicable) => chain_loop rest r authErr
      | Ok (inl err) => chain_loop rest r (match authErr with None => Some err | _ => authErr end)
      | Err err => chain_loop rest r (match authErr with None => Some (ErrInternal err) | _ => authErr end)
      end
  end.

Definition ChainAuthenticate (authenticators : list (Request -> M Db AuthResult)) (r : Request)
    : prog World AuthResult := chain_loop authenticators r None.

(** [newAuthChain] of [cmd/server/app.go] *)
Definition newAuthChain (devMode : bool) : list (Request -> M Db AuthResult) :=
  (if devMode then [DevAuthenticate] else []) ++ [BearerAuthenticate; SigV4Authenticate].

(** ** Middleware *)

(** [WithPrincipal] *)
Definition with_principal (p : Principal) (r : Request) : Request :=
  MkRequest (rq_method r) (rq_path r) (rq_escaped_path r) (rq_host r) (rq_remote_addr r) (rq_tls r) (rq_params r)
    (rq_header r) (rq_query r) (rq_content_length r) (rq_body r) (Some p) (rq_id r).

Abbreviation Handler := (Request -> prog World Response).

(** [RequireAuthentication]; [LogInternalErrors] only adds a line to the log. *)
Definition RequireAuthentication (chain : list (Request -> M Db AuthResult))
    (onError : Request -> AuthError -> Response) (next : Handler) : Handler := fun r =>
  p <~ ChainAuthenticate chain r ;;
  match p with
  | inl err => Ret (onError r err)
  | inr p => next (with_principal p r)
  end.

(** [RequireRole] *)
Definition RequireRole (role : Role) (onError : Request -> AuthError -> Response) (next : Handler) : Handler := fun r =>
  match rq_principal r with
  | None => Ret (onError r ErrUnauthorized)
  | Some p => if negb (String.eqb (p_role p) role) then Ret (onError r ErrForbidden) else next r
  end.

(** [writeS3AuthError] of [cmd/server/router.go] *)
Definition writeS3AuthError (r : Request) (err : AuthError) : Response :=
  match err with
  | ErrMissingAuth =>
      WriteS3Error_with (header_set "WWW-Authenticate" ("Bearer realm=" +:+ quote_str +:+ "fbs" +:+ quote_str) ∅)
        r 401 codeAccessDenied messageAccessDenied
  | ErrInactiveUser | ErrForbidden => WriteS3Error r 403 codeAccessDenied messageAccessDenied
  | ErrInternal _ => WriteS3Error r 500 codeInternalError messageInternalError
  | _ => WriteS3Error r 401 codeAccessDenied messageAccessDenied
  end.
