(* ===== verification/ConfigLoad.v ===== *)
(** * Reading the configuration: [Load] of [internal/config/config.go]

    The environment, the flags over it, the checks of [Validate], and what a
    configuration that is returned is. *)

From S2P Require Import Prelude GoStrings Encoding GoNet GoTime GoParse Config S3Http Auth.

#[local] Open Scope Z_scope.

(** [url.ParseRequestURI] accepts the text. *)
Class RequestUri : Type := request_uri : string -> bool.

(** The variables of the process's environment, for [os.LookupEnv]. *)
Abbreviation Env := (gmap string string).

(** ** The environment *)

Definition envRawOrDefault (env : Env) (key fallback : string) : string := default fallback (env !! key).

Definition envOrDefault (env : Env) (key fallback : string) : string :=
  match env !! key with
  | None => fallback
  | Some value => let trimmed := trim_space value in if String.eqb trimmed "" then fallback else trimmed
  end.

Definition ErrParseEnv : error := ErrOther "parse environment".

(** A variable that is not set, or blank, has no value. *)
Definition from_env {A} (env : Env) (key : string) (fallback : A) (parse : string -> result A) : result A :=
  match env !! key with
  | None => Ok fallback
  | Some value => if String.eqb (trim_space value) "" then Ok fallback else parse value
  end.

Definition of_option {A} (o : option A) : result A := match o with Some a => Ok a | None => Err ErrParseEnv end.

Definition durationFromEnv (env : Env) (key : string) (fallback : Z) : result Z :=
  from_env env key fallback (fun value => of_option (ParseDuration (trim_space value))).
Definition byteSizeFromEnv (env : Env) (key : string) (fallback : Z) : result Z :=
  from_env env key fallback parseByteSize.
Definition boolFromEnvStrict (env : Env) (key : string) (fallback : bool) : result bool :=
  from_env env key fallback (fun value => of_option (ParseBool (trim_space value))).

(** ** Validation *)

Definition ErrConfig (message : string) : error := ErrOther message.

Definition minCleanupInterval : Z := minute.

Definition Validate `{RequestUri} (c : Config) : result unit :=
  let secret := trim_space (cf_public_read_signing_secret c) in
  if String.eqb (cf_http_addr c) "" then Err (ErrConfig "http address is required")
  else if String.eqb (cf_db_path c) "" then Err (ErrConfig "database path is required")
  else if String.eqb (cf_data_dir c) "" then Err (ErrConfig "data directory is required")
  else if cf_metadata_cache_size_bytes c <? 0 then Err (ErrConfig "metadata cache size")
  else if negb (String.eqb (cf_public_base_url c) "") && negb (request_uri (cf_public_base_url c))
  then Err (ErrConfig "invalid public base URL")
  else if negb (String.eqb secret "") && (string_len secret <? 32) then Err (ErrConfig "public read signing secret")
  else if (cf_public_read_default_ttl c <=? 0) || (cf_public_read_max_ttl c <=? 0) then Err (ErrConfig "public read TTLs")
  else if cf_public_read_max_ttl c <? cf_public_read_default_ttl c then Err (ErrConfig "public read default TTL")
  else if (List.length (cf_cors_allowed_origins c) =? 0)%nat then Err (ErrConfig "CORS allowed origin")
  else if (cf_read_timeout c <=? 0) || (cf_write_timeout c <=? 0) || (cf_idle_timeout c <=? 0) || (cf_shutdown_timeout c <=? 0)
  then Err (ErrConfig "timeouts")
  else if cf_multipart_ttl c <=? 0 then Err (ErrConfig "multipart TTL")
  else if cf_multipart_cleanup_interval c <=? 0 then Err (ErrConfig "multipart cleanup interval")
  else if cf_multipart_cleanup_interval c <? minCleanupInterval then Err (ErrConfig "multipart cleanup interval")
  else if cf_dev_mode c then ValidateDevMode (cf_http_addr c) (cf_dev_mode c)
  else Ok tt.

(** ** Loading *)

(** The values of flags of each kind; the flags that [Load] reads are declared with it. *)
Definition flag_string (flags : FlagSet) (name : string) : string :=
  match flags !! name with Some (FlagString s) => s | _ => "" end.
Definition flag_bool (flags : FlagSet) (name : string) : bool :=
  match flags !! name with Some (FlagBool b) => b | _ => false end.
Definition flag_duration (flags : FlagSet) (name : string) : Z :=
  match flags !! name with Some (FlagDuration d) => d | _ => 0 end.

(** The flags with the values that the environment gives them. *)
Definition declared_flags (env : Env) : result FlagSet :=
  let? readTimeout := durationFromEnv env "FBS_READ_TIMEOUT" (cf_read_timeout Default) in
  let? writeTimeout := durationFromEnv env "FBS_WRITE_TIMEOUT" (cf_write_timeout Default) in
  let? idleTimeout := durationFromEnv env "FBS_IDLE_TIMEOUT" (cf_idle_timeout Default) in
  let? shutdownTimeout := durationFromEnv env "FBS_SHUTDOWN_TIMEOUT" (cf_shutdown_timeout Default) in
  let? metadataCacheSize := byteSizeFromEnv env "FBS_METADATA_CACHE_SIZE" (cf_metadata_cache_size_bytes Default) in
  let? multipartTTL := durationFromEnv env "FBS_MULTIPART_TTL" (cf_multipart_ttl Default) in
  let? publicReadDefaultTTL := durationFromEnv env "FBS_PUBLIC_READ_DEFAULT_TTL" (cf_public_read_default_ttl Default) in
  let? publicReadMaxTTL := durationFromEnv env "FBS_PUBLIC_READ_MAX_TTL" (cf_public_read_max_ttl Default) in
  let? multipartCleanupInterval :=
    durationFromEnv env "FBS_MULTIPART_CLEANUP_INTERVAL" (cf_multipart_cleanup_interval Default) in
  let? devMode := boolFromEnvStrict env "FBS_DEV" (cf_dev_mode Default) in
  Ok (list_to_map
    [("http-addr", FlagString (envOrDefault env "FBS_HTTP_ADDR" (cf_http_addr Default)));
     ("db-path", FlagString (envOrDefault env "FBS_DB_PATH" (cf_db_path Default)));
     ("data-dir", FlagString (envOrDefault env "FBS_DATA_DIR" (cf_data_dir Default)));
     ("dev", FlagBool devMode);
     ("public-base-url", FlagString (envOrDefault env "FBS_PUBLIC_BASE_URL" (cf_public_base_url Default)));
     ("metadata-cache-size", FlagString (format_int metadataCacheSize));
     ("s3-cache-control", FlagString (envRawOrDefault env "FBS_S3_CACHE_CONTROL" (cf_s3_cache_control Default)));
     ("public-read-signing-secret",
       FlagString (envRawOrDefault env "FBS_PUBLIC_READ_SIGNING_SECRET" (cf_public_read_signing_secret Default)));
     ("cors-allowed-origins",
       FlagString (envOrDefault env "FBS_CORS_ALLOWED_ORIGINS" (join (cf_cors_allowed_origins Default) ",")));
     ("public-read-default-ttl", FlagDuration publicReadDefaultTTL);
     ("public-read-max-ttl", FlagDuration publicReadMaxTTL);
     ("read-timeout", FlagDuration readTimeout);
     ("write-timeout", FlagDuration writeTimeout);
     ("idle-timeout", FlagDuration idleTimeout);
     ("shutdown-timeout", FlagDuration shutdownTimeout);
     ("multipart-ttl", FlagDuration multipartTTL);
     ("multipart-cleanup-interval", FlagDuration multipartCleanupInterval)]).

Definition Load `{RequestUri} (env : Env) (args : list string) : result Config :=
  let? declared := declared_flags env in
  let? flags := Parse declared args in
  let? parsedMetadataCacheSize := parseByteSize (flag_string flags "metadata-cache-size") in
  let cfg := MkConfig
    (trim_space (flag_string flags "http-addr"))
    (trim_space (flag_string flags "db-path"))
    (trim_space (flag_string flags "data-dir"))
    (flag_bool flags "dev")
    (trim_space (flag_string flags "public-base-url"))
    parsedMetadataCacheSize
    (trim_space (flag_string flags "s3-cache-control"))
    (trim_space (flag_string flags "public-read-signing-secret"))
    (flag_duration flags "public-read-default-ttl")
    (flag_duration flags "public-read-max-ttl")
    (splitCSV (flag_string flags "cors-allowed-origins"))
    (flag_duration flags "read-timeout")
    (flag_duration flags "write-timeout")
    (flag_duration flags "idle-timeout")
    (flag_duration flags "shutdown-timeout")
    (flag_duration flags "multipart-ttl")
    (flag_duration flags "multipart-cleanup-interval") in
  let? _ := Validate cfg in
  Ok cfg.

(** * The configuration: what [Load] gives

    The reference of a valid configuration, and where each option comes from. *)





(** ** Where the options come from *)












(** *** The code's readers of the environment are these *)








(** *** Byte sizes *)






(** *** The flags that [Load] reads *)

Section Flags.
Context (flags flags' : FlagSet) (given : list (string * string)) (Has : set_as flags flags' given).



End Flags.





#[local] Instance sample_request_uri : RequestUri := fun s => has_prefix s "http".


(** Development mode is refused on an address that others can reach. *)
Example dev_mode_refused : Load ∅ ["-dev"; "-http-addr"; "0.0.0.0:9000"] = Err (ErrOther "--dev requires a localhost-only bind address").
Proof. vm_compute. reflexivity. Qed.
