(* ===== verification/AuthSpec.v ===== *)
(** * Credentials: what is issued authenticates

    The bearer token and the SigV4 key of a user that has been created authenticate
    this user. *)

From S2P Require Import Prelude GoStrings Encoding Hash GoTime GoParse Effects Os DiskEngine Schema Db Iam UserRepo Authz Prog S3Http S3Access SigV4 SigV4Spec SigV4Exact Auth.

#[local] Open Scope Z_scope.

Section Credentials.
Context `{RL : RandomLaws} `{Uuid}.

Lemma wp_ok_rand_read n (Q : string -> Os -> Prop) s :
  (forall b s', String.length b = n -> Q b s') -> wp_ok (rand_read n) Q s.
Proof. intros HQ. apply wp_syscall; [done|]. intros fs. apply HQ, random_bytes_length. Qed.

(** The texts of a credential that has been issued. *)
Definition issued_texts (issued : IssuedToken) (secret : string) : Prop :=
  (exists b, it_access_key_id issued = tokenPrefix +:+ hex_encode b) /\
  (exists b, String.length b = 32%nat /\ secret = b64_encode URLAlphabet false b) /\
  it_raw_token issued = it_access_key_id issued +:+ "." +:+ secret /\ it_secret_hash issued = hashSecret secret.

Lemma wp_IssueBearerToken s : wp_ok IssueBearerToken (fun issued _ => exists secret, issued_texts issued secret) s.
Proof.
  unfold IssueBearerToken, generateAccessKeyID, generateID, generateSecret.
  apply wp_ok_bind, wp_ok_bind, wp_ok_rand_read. intros b1 s1 _. apply wp_ok_ret.
  apply wp_ok_bind, wp_ok_bind, wp_ok_rand_read. intros b2 s2 Hb2. apply wp_ok_ret, wp_ok_ret.
  exists (b64_encode URLAlphabet false b2). split_and!; [by exists b1|by exists b2|done|done].
Qed.

(** A creation that succeeds has stored the user with the credentials it returns. *)
Lemma createUserCredentials_ok createUser name role w :
  pwp (createUserCredentials createUser name role) (fun res w' =>
    match res with
    | Err _ => True
    | Ok (issued, creds, user) =>
        exists secret id, issued_texts issued secret /\
          let full := MkUser id name (it_access_key_id issued) (it_secret_hash issued) (sc_access_key_id creds)
                        (sc_secret_key creds) role true (db_clock (w_db w)) (db_clock (w_db w)) in
          user = without_secrets full /\ createUser full (w_db w) = (Ok tt, w_db w')
    end) w.
Proof.
  unfold createUserCredentials. apply pwp_call_bind, wp_os.
  eapply wp_mono; [apply wp_IssueBearerToken|]. intros [issued|] o1 Hissued; [|done]. destruct Hissued as [secret Hsecret].
  apply pwp_call_bind, wp_os, wp_intro. intros [creds|] o2 _; [|done].
  apply pwp_bind. unfold now. change (Call ?m ?k) with (pbind (call m) k). apply pwp_call_bind, wp_db, wp_time_now, pwp_ret.
  apply pwp_bind. unfold newID. change (Call ?m ?k) with (pbind (call m) k). apply pwp_call_bind, wp_os, wp_new_uuid, pwp_ret.
  apply pwp_call_bind, wp_db, wp_intro. intros [[]|] d Hd; [|done]. apply pwp_ret.
  by eexists secret, _.
Qed.

(** ** Bearer tokens *)

Lemma Create_stored user s s' :
  UserRepository.Create user s = (Ok tt, s') -> wf_tables (db_tables s) ->
  t_users (db_tables s') !! us_id user = Some (UserRepository.user_row user) /\ wf_tables (db_tables s') /\
  db_clock s' = db_clock s.
Proof.
  intros Hrun Hwf.
  apply (wp_ok_run _ (fun _ s' => t_users (db_tables s') !! us_id user = Some (UserRepository.user_row user) /\
    wf_tables (db_tables s') /\ db_clock s' = db_clock s) _ _ _ Hrun).
  unfold UserRepository.Create, UserRepository.insertUser. apply wp_ok_exec. cbn [db_tables db_clock]. intros [] t fs Ei.
  pose proof (insert_user_wf (us_id user) (UserRepository.user_row user) (db_tables s) Hwf) as Ht.
  rewrite Ei in Ht. split_and!; [|done|done].
  unfold insert_user in Ei. repeat case_match; simplify_eq/=; by rewrite lookup_insert_eq.
Qed.

Lemma GetByAccessKeyID_run s id row :
  wf_tables (db_tables s) -> db_faults s = [] -> t_users (db_tables s) !! id = Some row ->
  UserRepository.GetByAccessKeyID (ur_access_key_id row) s =
    (Ok (UserRepository.hide_secret (UserRepository.scanUser id row)), s).
Proof.
  intros Hwf Hfaults Hrow. unfold UserRepository.GetByAccessKeyID, bind. rewrite query_run by done.
  rewrite (find_user_unique _ _ id row Hrow); [done|apply String.eqb_refl|].
  intros id' row' Hrow' E%String.eqb_eq.
  apply (wt_access_key _ Hwf id' id row' row (ur_access_key_id row)); [done|done|by rewrite E|done].
Qed.

Lemma issued_plain issued secret :
  issued_texts issued secret ->
  all_printable (it_raw_token issued) = true /\ it_access_key_id issued <> "" /\ secret <> "" /\
  contains_byte (it_access_key_id issued) "." = false.
Proof.
  intros ([b1 E1] & (b2 & Hb2 & ->) & -> & _). rewrite E1. split_and!; [|done| |].
  - rewrite !all_printable_append. assert (Hs : all_printable (b64_encode URLAlphabet false b2) = true).
    { eapply class_impl; [|apply b64_encode_url_safe].
      intros [[] [] [] [] [] [] [] []]; vm_compute; congruence. }
    by rewrite hex_encode_printable, Hs.
  - by destruct b2 as [|a [|b [|c r]]].
  - rewrite contains_byte_append. apply orb_false_iff. split; [done|].
    eapply class_no_byte; [apply hex_encode_text|done].
Qed.

Lemma issued_bearer_run issued secret row id s r :
  issued_texts issued secret -> wf_tables (db_tables s) -> db_faults s = [] ->
  t_users (db_tables s) !! id = Some row -> ur_access_key_id row = it_access_key_id issued ->
  ur_secret_hash row = it_secret_hash issued -> ur_is_active row = true ->
  header_get (rq_header r) "Authorization" = "Bearer " +:+ it_raw_token issued ->
  BearerAuthenticate r s =
    (Ok (inr (MkPrincipal id (ur_display_name row) (it_access_key_id issued) (ur_role row) false "" "")), s).
Proof.
  intros Hissued Hwf Hfaults Hrow Hkey Hhash Hactive Hheader.
  destruct (issued_plain issued secret Hissued) as (Hprint & Hkne & Hsne & Hdot).
  destruct Hissued as (_ & _ & Eraw & Ehash). unfold BearerAuthenticate. rewrite Hheader.
  change ("Bearer " +:+ ?t) with ("Bearer" +:+ " " +:+ t).
  rewrite fields_two by (done || (rewrite Eraw; by destruct (it_access_key_id issued))).
  change (String.eqb ("Bearer" +:+ _) "") with false. change (equal_fold "Bearer" "Bearer") with true. cbn [negb].
  rewrite Eraw. change (?k +:+ "." +:+ ?t) with (k +:+ String "." t). rewrite cut_append by done.
  apply String.eqb_neq in Hkne, Hsne. rewrite Hkne, Hsne. cbn [negb orb].
  unfold attempt, bind. rewrite <- Hkey, (GetByAccessKeyID_run s id row) by done.
  cbn [us_secret_hash UserRepository.hide_secret UserRepository.scanUser us_is_active].
  unfold verifySecret. rewrite Hhash, Ehash. unfold hashSecret. rewrite hex_decode_encode, String.eqb_refl, Hactive.
  done.
Qed.

(** The authenticator takes the request for one of [p], and writes nothing. *)
Definition authenticates (authenticate : Request -> M Db AuthResult) (r : Request) (p : Principal) (s : Db) : Prop :=
  authenticate r s = (Ok (inr p), s).

(** C39: what is issued authenticates. When CreateBearerToken succeeds, the bearer token
    it returns authenticates the new user, and so does any request that is signed with
    the returned SigV4 key within fifteen minutes of the server's clock; the user it
    returns carries no secret. *)
Theorem issued_credentials_authenticate name role w issued creds user w' :
  run (CreateBearerToken name role) w = (Ok (issued, creds, user), w') ->
  wf_tables (tables w) -> db_faults (w_db w') = [] ->
  us_secret_hash user = "" /\ us_sigv4_secret_key user = "" /\
  (forall r, header_get (rq_header r) "Authorization" = "Bearer " +:+ it_raw_token issued ->
     authenticates BearerAuthenticate r
       (MkPrincipal (us_id user) name (it_access_key_id issued) role false "" "") (w_db w')) /\
  (forall r region headers payloadHash signedAt,
     signable (sc_access_key_id creds) region headers signedAt ->
     Z.abs (db_clock (w_db w') - signedAt / second * second) <= maxClockSkew ->
     (payloadHash = "" \/ payloadHash = unsignedPayload ->
      header_get (rq_header r) "X-Amz-Content-SHA256" = "" \/
      header_get (rq_header r) "X-Amz-Content-SHA256" = unsignedPayload) ->
     authenticates SigV4Authenticate
       (SignRequestAt r (sc_access_key_id creds) (sc_secret_key creds) region "s3" headers payloadHash signedAt)
       (MkPrincipal (us_id user) name (sc_access_key_id creds) role false (join headers ";")
          (if String.eqb payloadHash "" then unsignedPayload else payloadHash)) (w_db w')).
Proof.
  intros Hrun Hwf Hfaults.
  destruct (pwp_run _ _ _ _ _ Hrun (createUserCredentials_ok UserRepository.Create name role w))
    as (secret & id & Hissued & -> & Hc).
  apply Create_stored in Hc as (Hrow & Hwf' & Hclock); [|done]. cbn [us_id without_secrets] in *.
  split_and!; [done|done| |].
  - intros r Hheader. by apply (issued_bearer_run issued secret _ id _ r Hissued Hwf' Hfaults Hrow).
  - intros r region headers payloadHash signedAt Hsg Hnow Hpay.
    assert (Hkey : sc_access_key_id creds <> "") by apply Hsg.
    apply (signed_request_run r _ region headers payloadHash signedAt
      (MkUser id name (it_access_key_id issued) (it_secret_hash issued) (sc_access_key_id creds) (sc_secret_key creds)
         role true (db_clock (w_db w)) (db_clock (w_db w)))); [done..| |done].
    rewrite (GetBySigV4AccessKeyID_run _ id _ _ Hwf' Hfaults Hrow).
    + unfold UserRepository.scanUser, UserRepository.user_row. cbn. by rewrite !null_nullify.
    + cbn. unfold nullify. by apply String.eqb_neq in Hkey as ->.
Qed.
End Credentials.

(** ** Witness *)

#[export] Instance sample_random : Random :=
  {| random_bytes i n := String.string_of_list_ascii (repeat (byte_of (Z.of_nat (i * 7 + 1))) n);
     random_below i max := Z.of_nat i mod max |}.
#[export] Instance sample_random_laws : RandomLaws.
Proof.
  split.
  - intros i n. cbn [random_bytes sample_random]. induction n as [|n IH]; [done|]. cbn. by rewrite IH.
  - intros i max Hmax. cbn [random_below sample_random]. by apply Z.mod_pos_bound.
Qed.

Definition fresh_world : World := MkWorld (MkDb empty_tables (time_of_unix 1750000000) []) (MkOs ∅ ∅ [] 0) None.
Definition bearer_request (token : string) : Request :=
  MkRequest "GET" "/" "/" "localhost" "10.0.0.1:4000" false ∅ {["Authorization" := ["Bearer " +:+ token]]} ∅ 0 [] None "".

Lemma issued_credentials_authenticate_witness :
  exists issued creds user w',
    run (CreateBearerToken "Alice" RoleMember) fresh_world = (Ok (issued, creds, user), w') /\
    it_access_key_id issued = "fbsa_01010101010101010101010101010101" /\
    authenticates BearerAuthenticate (bearer_request (it_raw_token issued))
      (MkPrincipal (us_id user) "Alice" (it_access_key_id issued) RoleMember false "" "") (w_db w').
Proof.
  destruct (run (CreateBearerToken "Alice" RoleMember) fresh_world) as [[[[issued creds] user]|err] w'] eqn:E;
    [|by vm_compute in E].
  exists issued, creds, user, w'. split; [reflexivity|].
  assert (Hw : db_faults (w_db w') = [] /\ it_access_key_id issued = "fbsa_01010101010101010101010101010101").
  { vm_compute in E. by simplify_eq/=. }
  split; [apply Hw|].
  apply (issued_credentials_authenticate "Alice" RoleMember fresh_world issued creds user w' E empty_tables_wf (proj1 Hw)).
  reflexivity.
Defined.
