(* ===== verification/S3Objects.v ===== *)
(** * Objects: [internal/s3/object_handlers.go], [object_read.go], [object_delete.go],
      [object_replace.go]

    Storing, reading and deleting single objects. *)

From S2P Require Import Prelude GoStrings Encoding Hash GoTime Effects Os Sanitize DiskEngine Schema Db Iam Authz ObjectRepo ActivityRepo ObjectOps Prog GoUrl S3Http S3Xml Checksum S3Access CachedBucketRepo CachedObjectRepo.

(** Whether [mime.ParseMediaType] accepts a content disposition. *)
Class MediaTypes : Type := valid_media_type : string -> bool.

Section Objects.
Context `{Cwd} `{Rounds} `{Uuid} (h : ObjectHandlers).

Definition InvalidPart (r : Request) : Response := WriteS3Error r 400 codeInvalidPart messageInvalidPart.
Definition BadDigest (r : Request) : Response := WriteS3Error r 400 codeBadDigest messageBadDigest.

(** [writeStorageMutationError] *)
Definition writeStorageMutationError (r : Request) (err : error) : Response :=
  match err with
  | ErrInvalidKey | ErrPathTraversal => InvalidRequest r
  | _ => InternalError r
  end.

(** [writeObjectReplaceError] *)
Definition writeObjectReplaceError (r : Request) (err : error) : Response :=
  match err with
  | ErrPreconditionFailed => PreconditionFailed r
  | ErrObjectNotFound => NoSuchKey r
  | _ => InternalError r
  end.

(** The response to a failure of [newChecksumPipeline]. *)
Definition writePipelineError (r : Request) (err : error) : Response :=
  if bool_decide (err = errInvalidDigest) then WriteS3Error r 400 codeInvalidDigest messageInvalidDigest
  else InvalidRequest r.

(** [deleteStoredFile]: a failure is only logged. *)
Definition deleteStoredFile (storagePath : string) : prog World unit :=
  call (os (Delete (h_storage h) storagePath)) ~;; Ret tt.

(** The content type of the request, or the default. *)
Definition requestContentType (r : Request) : string :=
  let contentType := trim_space (header_get (rq_header r) "Content-Type") in
  if String.eqb contentType "" then "application/octet-stream" else contentType.

(** [w.Header().Set(name, value)] for each checksum. *)
Definition set_checksums (cs : gmap string string) (hd : Header) : Header :=
  fold_left (fun hd kv => header_set kv.1 kv.2 hd) (map_to_list cs) hd.

Definition PutObject (r : Request) : prog World Response :=
  let '(bucketName, key) := objectRouteParams r in
  if String.eqb key "" then Ret (InvalidRequest r)
  else
    _ <~! ensureBucketAction h r bucketName ActionPutObject key "" ;;
    match newChecksumPipeline r with
    | Err err => Ret (writePipelineError r err)
    | Ok pipeline =>
        let data := reader_content (rq_body r) in
        written <~ call (os (Write (h_storage h) bucketName key (rq_body r))) ;;
        match written with
        | Err err => Ret (writeStorageMutationError r err)
        | Ok (storagePath, size) =>
            match Validate pipeline data with
            | Err _ => call (os (Delete (h_storage h) storagePath)) ~;; Ret (BadDigest r)
            | Ok _ =>
                now_ <~ now ;;
                let cs := Checksums pipeline data in
                id <~ newID ;;
                let obj := MkObject id bucketName key size (ETag data) (requestContentType r) storagePath
                             now_ now_ false 0 (checksum_of cs "x-amz-checksum-crc32")
                             (checksum_of cs "x-amz-checksum-crc32c") (checksum_of cs "x-amz-checksum-crc64nvme")
                             (checksum_of cs "x-amz-checksum-sha1") (checksum_of cs "x-amz-checksum-sha256")
                             (parseMetadataHeaders r) in
                replaced <~ CachedObjectRepository.Replace obj (header_get (rq_header r) "If-Match")
                              (header_get (rq_header r) "If-None-Match") ;;
                match replaced with
                | Err err => deleteStoredFile storagePath ~;; Ret (writeObjectReplaceError r err)
                | Ok replacedPath =>
                    recordActivity h r ActivityPutObject bucketName key size (o_etag obj) ~;;
                    (if negb (String.eqb replacedPath "") && negb (String.eqb replacedPath storagePath)
                     then deleteStoredFile replacedPath else Ret tt) ~;;
                    Ret (Reply 200 (set_checksums cs (header_set "ETag" (quoteETag (o_etag obj)) ∅)))
                end
            end
        end
    end.

(** ** Reading *)

(** [loadObjectForRead] *)
Definition loadObjectForRead (r : Request) (bucketName key : string) : prog World (Response + Object) :=
  if String.eqb key "" then Ret (inl (InvalidRequest r))
  else
    _ <~? ensureBucketAction h r bucketName ActionGetObject key "" ;;
    obj <~ CachedObjectRepository.GetByKey bucketName key ;;
    match obj with
    | Err ErrObjectNotFound => Ret (inl (NoSuchKey r))
    | Err _ => Ret (inl (InternalError r))
    | Ok obj => Ret (inr obj)
    end.

(** [handlePartNumber]: [Some] is the response written. *)
Definition handlePartNumber (r : Request) (obj : Object) : option Response :=
  let partNumStr := values_get (rq_query r) "partNumber" in
  if String.eqb partNumStr "" then None
  else match parse_int partNumStr with
       | None => Some (InvalidArgument r)
       | Some partNumber =>
           if (partNumber <? 1)%Z then Some (InvalidArgument r)
           else if negb (o_is_multipart obj) then
             if negb (partNumber =? 1)%Z then Some (InvalidPart r) else None
           else if (o_parts_count obj <? partNumber)%Z then Some (InvalidPart r)
           else Some (WriteS3Error_with (header_set "x-amz-mp-parts-count" (format_int (o_parts_count obj)) ∅)
                        r 501 codeNotImplemented messageNotImplemented)
       end.

(** [setObjectHeaders]; the user metadata keep their lower-case names. *)
Definition setObjectHeaders (obj : Object) (cacheControl responseContentDisposition : string) : Header :=
  let set_if (c : bool) name value hd := if c then header_set name value hd else hd in
  let hd := header_set "ETag" (quoteETag (o_etag obj)) ∅ in
  let hd := header_set "Content-Length" (format_int (o_size obj)) hd in
  let hd := header_set "Last-Modified" (format_http (o_updated_at obj)) hd in
  let hd := set_if (negb (String.eqb (o_content_type obj) "")) "Content-Type" (o_content_type obj) hd in
  let hd := set_if (negb (String.eqb responseContentDisposition "")) "Content-Disposition"
              responseContentDisposition hd in
  let hd := header_set "X-Content-Type-Options" "nosniff" hd in
  let hd := set_if (negb (String.eqb cacheControl "")) "Cache-Control" cacheControl hd in
  let hd := set_if (o_is_multipart obj && (0 <? o_parts_count obj)%Z) "x-amz-mp-parts-count"
              (format_int (o_parts_count obj)) hd in
  fold_left (fun hd kv => <["x-amz-meta-" +:+ kv.1 := [kv.2]]> hd)
    (match o_user_metadata obj with Some m => map_to_list m | None => [] end) hd.

(** [httpapi.EnableWriteIdleTimeout]: the connection is in [WriteTimeout]; for the handler
    setting its deadline works or fails. *)
Definition EnableWriteIdleTimeout : M Os unit := syscall (ret tt).

(** [serveObject] *)
Definition serveObject (r : Request) (obj : Object) (cacheControl responseContentDisposition : string)
    (mapReadError : error -> Response) : prog World Response :=
  file <~ call (os (Open (h_storage h) (o_storage_path obj))) ;;
  match file with
  | Err err => Ret (mapReadError err)
  | Ok file =>
      enabled <~ call (os EnableWriteIdleTimeout) ;;
      match enabled with
      | Err err => Ret (mapReadError err)
      | Ok _ => Ret (MkResponse 200 (setObjectHeaders obj cacheControl responseContentDisposition)
                       (Content (o_key obj) (o_updated_at obj) file))
      end
  end.

(** [mapAuthenticatedStorageReadError]: both branches answer alike and log differently. *)
Definition mapAuthenticatedStorageReadError (r : Request) (err : error) : Response := InternalError r.

(** ** Deleting *)

(** [deleteObject] *)
Definition deleteObject (bucketName key : string) : prog World (result (option Object * bool)) :=
  ObjectOps.DeleteObject (Some (h_storage h)) bucketName key.

Definition DeleteObject (r : Request) : prog World Response :=
  let '(bucketName, key) := objectRouteParams r in
  if String.eqb key "" then Ret (InvalidRequest r)
  else
    _ <~! ensureBucketAction h r bucketName ActionDeleteObject key "" ;;
    deleted <~ deleteObject bucketName key ;;
    match deleted with
    | Err _ => Ret (InternalError r)
    | Ok (Some obj, true) =>
        recordActivity h r ActivityDeleteObject bucketName key (o_size obj) (o_etag obj) ~;;
        Ret (Reply 204 ∅)
    | Ok _ => Ret (Reply 204 ∅)
    end.

(** [checkPreconditionFailed]: [Some] is the response written. *)
Definition checkPreconditionFailed (r : Request) (obj : option Object) : option Response :=
  let ifMatch := header_get (rq_header r) "If-Match" in
  let ifNoneMatch := header_get (rq_header r) "If-None-Match" in
  if String.eqb ifMatch "" && String.eqb ifNoneMatch "" then None
  else match obj with
       | None => None
       | Some obj =>
           if negb (String.eqb ifMatch "") && negb (String.eqb ifMatch "*")
              && negb (equal_fold (unquoteETag ifMatch) (unquoteETag (o_etag obj)))
           then Some (PreconditionFailed r)
           else if String.eqb ifNoneMatch "*" then Some (PreconditionFailed r)
           else if negb (String.eqb ifNoneMatch "") && negb (String.eqb ifNoneMatch "*")
                   && equal_fold (unquoteETag ifNoneMatch) (unquoteETag (o_etag obj))
           then Some (PreconditionFailed r)
           else None
       end.
End Objects.

Section Reads.
Context `{Cwd} `{Rounds} `{Uuid} `{MediaTypes} (h : ObjectHandlers).

Definition responseContentDispositionQuery : string := "response-content-disposition".

(** [parseResponseContentDisposition]: [None] is invalid. *)
Definition parseResponseContentDisposition (values : option (list string)) : option string :=
  match values with
  | None => Some ""
  | Some [v] => if String.eqb v "" then None else if valid_media_type v then Some v else None
  | Some _ => None
  end.

(** [requestedResponseContentDisposition] *)
Definition requestedResponseContentDisposition (r : Request) : Response + string :=
  match parseResponseContentDisposition (rq_query r !! responseContentDispositionQuery) with
  | Some disposition => inr disposition
  | None => inl (InvalidArgument r)
  end.

Definition GetObject (r : Request) : prog World Response :=
  let '(bucketName, key) := objectRouteParams r in
  obj <~! loadObjectForRead h r bucketName key ;;
  match handlePartNumber r obj with
  | Some response => Ret response
  | None =>
      responseContentDisposition <~! Ret (requestedResponseContentDisposition r) ;;
      serveObject h r obj (h_s3_cache_control h) responseContentDisposition
        (mapAuthenticatedStorageReadError r)
  end.

(** [HeadObject] has the same statements; the server drops the body. *)
Definition HeadObject (r : Request) : prog World Response := GetObject r.

(** The loop of [GetObjectAttributes] over the requested attributes: the valid ones,
    or the first invalid one. *)
Definition validAttrs : list string := ["etag"; "checksum"; "objectparts"; "storageclass"; "objectsize"].

Fixpoint parse_attributes (attrs requested : list string) : string + list string :=
  match attrs with
  | [] => inr requested
  | attr :: rest =>
      let a := trim_space (to_lower attr) in
      if String.eqb a "" then parse_attributes rest requested
      else if negb (existsb (String.eqb a) validAttrs) then inl a
      else parse_attributes rest (a :: requested)
  end.

Definition object_attributes (obj : Object) (requested : list string) : GetObjectAttributesResult :=
  let has a := existsb (String.eqb a) requested in
  let objectParts := if o_is_multipart obj && has "objectparts" then Some (o_parts_count obj) else None in
  let checksum :=
    if has "checksum" && (negb (String.eqb (o_crc32 obj) "") || negb (String.eqb (o_crc32c obj) "")
         || negb (String.eqb (o_crc64nvme obj) "") || negb (String.eqb (o_sha1 obj) "")
         || negb (String.eqb (o_sha256 obj) ""))
    then Some (MkObjectChecksum (o_crc32 obj) (o_crc32c obj) (o_crc64nvme obj) (o_sha1 obj) (o_sha256 obj))
    else None in
  MkAttributes (if has "etag" then quoteETag (o_etag obj) else "")
    (if has "objectsize" then Some (o_size obj) else None)
    (if has "storageclass" then "STANDARD" else "") objectParts checksum.

Definition GetObjectAttributes (r : Request) : prog World Response :=
  let '(bucketName, key) := objectRouteParams r in
  obj <~! loadObjectForRead h r bucketName key ;;
  let attrHeader := header_get (rq_header r) "x-amz-object-attributes" in
  if String.eqb attrHeader ""
  then Ret (WriteS3Error r 400 codeInvalidRequest "x-amz-object-attributes header is required")
  else match parse_attributes (split attrHeader ",") [] with
       | inl a => Ret (WriteS3Error r 400 codeInvalidRequest ("invalid attribute: " +:+ a))
       | inr requested => Ret (ReplyXml (GetObjectAttributesXml (object_attributes obj requested)))
       end.
End Reads.
