(* ===== verification/S3Copy.v ===== *)
(** * Copying: [internal/s3/copy_object.go], and the copy source of [multipart_part.go] *)

From S2P Require Import Prelude GoStrings Encoding Hash GoTime GoUrl Effects Os Sanitize DiskEngine Schema Db Iam Authz ObjectRepo ActivityRepo ObjectOps Prog S3Http S3Xml Checksum S3Access S3Objects CachedBucketRepo CachedObjectRepo.

(** [copySource] *)
Record copySource : Type := MkCopySource { cs_bucket_name : string; cs_key : string; cs_version_id : string }.

Definition parseCopySource (value : string) : result copySource :=
  let trimmed := trim_prefix (trim_space value) "/" in
  if String.eqb trimmed "" then Err (ErrOther "missing copy source")
  else
    let '(pathPart, rawQuery, _) := cut trimmed "?" in
    let? query := ParseQuery rawQuery in
    let '(bucketPart, keyPart, ok) := cut pathPart "/" in
    if negb ok || String.eqb bucketPart "" || String.eqb keyPart "" then Err (ErrOther "invalid copy source")
    else match PathUnescape bucketPart, PathUnescape keyPart with
         | Some bucketName, Some key => Ok (MkCopySource bucketName key (values_get query "versionId"))
         | _, _ => Err (ErrOther "invalid URL escape")
         end.

(** [strings.ToUpper(strings.TrimSpace(...))] of the metadata directive. *)
Definition metadataDirective (r : Request) : string :=
  to_upper (trim_space (header_get (rq_header r) "x-amz-metadata-directive")).

(** [copyObjectContentType]: [None] is an unknown directive. *)
Definition copyObjectContentType (r : Request) (sourceContentType : string) : option string :=
  let directive := metadataDirective r in
  if String.eqb directive "" || String.eqb directive "COPY" then Some sourceContentType
  else if String.eqb directive "REPLACE" then Some (requestContentType r)
  else None.

(** [parseByteRange]: start and end, both inside the object. *)
Definition errRangeExceedsSize : error := ErrOther "range exceeds object size".

Definition parseByteRange (rangeHeader : string) (objectSize : Z) : result (Z * Z) :=
  let invalid := Err (ErrOther "invalid byte range") in
  if negb (has_prefix rangeHeader "bytes=") then invalid
  else
    let rangeVal := trim_space (trim_prefix rangeHeader "bytes=") in
    let '(first, last, found) := cut rangeVal "-" in
    if negb found then invalid
    else match parse_int (trim_space first), parse_int (trim_space last) with
         | Some start, Some end_ =>
             if (start <? 0)%Z || (end_ <? 0)%Z || (end_ <? start)%Z || (objectSize <=? start)%Z then invalid
             else if (objectSize <=? end_)%Z then Err errRangeExceedsSize
             else Ok (start, end_)
         | _, _ => invalid
         end.

Section Copy.
Context `{Cwd} `{Rounds} `{Uuid} (h : ObjectHandlers).

Definition CopyObject (r : Request) : prog World Response :=
  let '(destinationBucket, destinationKey) := objectRouteParams r in
  if String.eqb destinationKey "" then Ret (InvalidRequest r)
  else
    _ <~! requireSignedHeader r "x-amz-copy-source" ;;
    _ <~! (if String.eqb (header_get (rq_header r) "x-amz-metadata-directive") "" then Ret (inr tt)
           else requireSignedHeader r "x-amz-metadata-directive") ;;
    match parseCopySource (header_get (rq_header r) "x-amz-copy-source") with
    | Err _ => Ret (InvalidRequest r)
    | Ok source =>
        if negb (String.eqb (cs_version_id source) "") then Ret (NotImplemented r)
        else
          _ <~! ensureBucketAction h r (cs_bucket_name source) ActionGetObject (cs_key source) "" ;;
          _ <~! ensureBucketAction h r destinationBucket ActionPutObject destinationKey "" ;;
          sourceObject <~ CachedObjectRepository.GetByKey (cs_bucket_name source) (cs_key source) ;;
          match sourceObject with
          | Err ErrObjectNotFound => Ret (NoSuchKey r)
          | Err _ => Ret (InternalError r)
          | Ok sourceObject =>
              sourceFile <~ call (os (Open (h_storage h) (o_storage_path sourceObject))) ;;
              match sourceFile with
              | Err err => Ret (mapAuthenticatedStorageReadError r err)
              | Ok sourceFile =>
                  match copyObjectContentType r (o_content_type sourceObject) with
                  | None => Ret (InvalidRequest r)
                  | Some contentType =>
                      written <~ call (os (src <- file_reader sourceFile ;;
                                           Write (h_storage h) destinationBucket destinationKey src)) ;;
                      match written with
                      | Err err => Ret (writeStorageMutationError r err)
                      | Ok (storagePath, size) =>
                          now_ <~ now ;;
                          let userMeta := if String.eqb (metadataDirective r) "REPLACE"
                                          then parseMetadataHeaders r else o_user_metadata sourceObject in
                          id <~ newID ;;
                          let obj := MkObject id destinationBucket destinationKey size (o_etag sourceObject)
                                       contentType storagePath now_ now_ false 0 "" "" "" "" "" userMeta in
                          replaced <~ CachedObjectRepository.Replace obj
                                        (header_get (rq_header r) "If-Match")
                                        (header_get (rq_header r) "If-None-Match") ;;
                          match replaced with
                          | Err err =>
                              deleteStoredFile h storagePath ~;; Ret (writeObjectReplaceError r err)
                          | Ok replacedPath =>
                              recordActivity h r ActivityCopyObject destinationBucket destinationKey size
                                (o_etag obj) ~;;
                              (if negb (String.eqb replacedPath "") && negb (String.eqb replacedPath storagePath)
                               then deleteStoredFile h replacedPath else Ret tt) ~;;
                              Ret (ReplyXml_with (header_set "ETag" (quoteETag (o_etag obj)) ∅)
                                     (CopyObjectResult (format_millis now_) (quoteETag (o_etag obj))))
                          end
                      end
                  end
              end
          end
    end.

(** ** The source of [UploadPartCopy] *)

(** [parsePartCopySource] *)
Definition parsePartCopySource (r : Request) : prog World (Response + copySource) :=
  let header := header_get (rq_header r) "x-amz-copy-source" in
  if String.eqb header "" then Ret (inl (InvalidRequest r))
  else
    _ <~? requireSignedHeader r "x-amz-copy-source" ;;
    match parseCopySource header with
    | Err _ => Ret (inl (InvalidRequest r))
    | Ok source =>
        if negb (String.eqb (cs_version_id source) "") then Ret (inl (NotImplemented r))
        else
          _ <~? (if String.eqb (header_get (rq_header r) "x-amz-copy-source-range") "" then Ret (inr tt)
                 else requireSignedHeader r "x-amz-copy-source-range") ;;
          Ret (inr source)
    end.

(** [io.LimitReader] after a [Seek]: the bytes of a file from [start] to [end_]. *)
Definition section_of (file : option string) (start end_ : Z) : option string :=
  (fun c => take_bytes (Z.to_nat (end_ - start + 1)) (drop_bytes (Z.to_nat start) c)) <$> file.

(** [openCopySource]: the bytes to copy ([None]: the file is a directory). *)
Definition openCopySource (r : Request) (source : copySource) : prog World (Response + option string) :=
  sourceObject <~ CachedObjectRepository.GetByKey (cs_bucket_name source) (cs_key source) ;;
  match sourceObject with
  | Err ErrObjectNotFound => Ret (inl (NoSuchKey r))
  | Err _ => Ret (inl (InternalError r))
  | Ok sourceObject =>
      sourceFile <~ call (os (Open (h_storage h) (o_storage_path sourceObject))) ;;
      match sourceFile with
      | Err ErrNotFound => Ret (inl (NoSuchKey r))
      | Err _ => Ret (inl (InternalError r))
      | Ok sourceFile =>
          let rangeHeader := header_get (rq_header r) "x-amz-copy-source-range" in
          if String.eqb rangeHeader "" then Ret (inr sourceFile)
          else match parseByteRange rangeHeader (o_size sourceObject) with
               | Err err =>
                   if bool_decide (err = errRangeExceedsSize)
                   then Ret (inl (WriteS3Error_with
                          (header_set "Content-Range" ("bytes */" +:+ format_int (o_size sourceObject)) ∅)
                          r 416 codeInvalidRange "The requested range is not valid."))
                   else Ret (inl (InvalidArgument r))
               | Ok (start, end_) =>
                   sought <~ call (os (syscall (ret tt))) ;;
                   match sought with
                   | Err _ => Ret (inl (InternalError r))
                   | Ok _ => Ret (inr (section_of sourceFile start end_))
                   end
               end
      end
  end.
End Copy.

(** ** Byte ranges *)

(** A header names the bytes from [start] to [end_], both included: [bytes=], the first
    number, the first dash and the last number, with white space around them. *)
Definition names_range (rangeHeader : string) (start end_ : Z) : Prop :=
  exists value first last, rangeHeader = "bytes=" +:+ value /\
    trim_space value = first +:+ String "-" last /\ contains_byte first "-" = false /\
    parse_int (trim_space first) = Some start /\ parse_int (trim_space last) = Some end_ /\ (0 <= start <= end_)%Z.

Lemma names_range_unique rangeHeader s e s' e' :
  names_range rangeHeader s e -> names_range rangeHeader s' e' -> s = s' /\ e = e'.
Proof.
  intros (v & f & l & -> & Ev & Hf & Ef & El & _) (v' & f' & l' & E & Ev' & Hf' & Ef' & El' & _).
  apply append_inj_l in E. subst v'. rewrite Ev in Ev'. apply append_sep_inj in Ev' as [-> ->]; [|done..]. split; congruence.
Qed.

(** What the parser says: a range that the header names, or none. *)
Lemma parseByteRange_cases rangeHeader size :
  (exists s e, names_range rangeHeader s e /\
     parseByteRange rangeHeader size = if (size <=? s)%Z then Err (ErrOther "invalid byte range")
       else if (size <=? e)%Z then Err errRangeExceedsSize else Ok (s, e)) \/
  (forall s e, ~ names_range rangeHeader s e) /\ parseByteRange rangeHeader size = Err (ErrOther "invalid byte range").
Proof.
  unfold parseByteRange. destruct (has_prefix rangeHeader "bytes=") eqn:Ep; cbn [negb].
  2: { right. split; [|done]. intros s e (v & f & l & -> & _). by rewrite has_prefix_append in Ep. }
  apply has_prefix_spec in Ep as [value ->]. rewrite trim_prefix_append.
  destruct (cut (trim_space value) "-") as [[first last] found] eqn:Ec. apply cut_spec in Ec as [Hf Hc].
  assert (Hthe : forall s e, names_range ("bytes=" +:+ value) s e -> found = true /\
            parse_int (trim_space first) = Some s /\ parse_int (trim_space last) = Some e /\ (0 <= s <= e)%Z).
  { intros s e (v & f & l & E & Ev & Hfb & Ef & El & Hse). apply append_inj_l in E. subst v. destruct found.
    - rewrite Hc in Ev. apply append_sep_inj in Ev as [-> ->]; done.
    - destruct Hc as (_ & _ & Hn). rewrite Ev, contains_byte_append in Hn. cbn [contains_byte] in Hn.
      by rewrite Ascii.eqb_refl, orb_true_r in Hn. }
  destruct found; cbn [negb]; [|right; split; [by intros s e (? & _)%Hthe|done]].
  destruct (parse_int (trim_space first)) as [s|] eqn:Es; [|right; split; [by intros s e (_ & ? & _)%Hthe|done]].
  destruct (parse_int (trim_space last)) as [e|] eqn:Ee; [|right; split; [by intros s' e (_ & _ & ? & _)%Hthe|done]].
  destruct (decide (0 <= s <= e)%Z) as [Hse|Hse].
  - left. exists s, e. split; [by exists value, first, last|].
    rewrite (proj2 (Z.ltb_ge s 0)), (proj2 (Z.ltb_ge e 0)), (proj2 (Z.ltb_ge e s)) by lia. cbn [orb]. done.
  - right. split; [by intros s' e' (_ & [= <-] & [= <-] & ?)%Hthe|].
    assert (Hbad : ((s <? 0) || (e <? 0) || (e <? s) || (size <=? s) = true)%Z); [|by rewrite Hbad].
    rewrite !orb_true_iff, !Z.ltb_lt. lia.
Qed.

(** C34: a copied range is never clamped. [parseByteRange] gives the range that the header
    names, unchanged, exactly when it lies inside the object; it refuses a range as
    unsatisfiable exactly when it begins inside the object and ends outside; and the
    section that is copied is then the bytes of the object from the first to the last
    position, both included. What a client writes for two positions names them. *)
Theorem parseByteRange_exact rangeHeader content :
  let size := string_len content in
  (forall start end_, parseByteRange rangeHeader size = Ok (start, end_) <->
     names_range rangeHeader start end_ /\ (end_ < size)%Z) /\
  (parseByteRange rangeHeader size = Err errRangeExceedsSize <->
     exists start end_, names_range rangeHeader start end_ /\ (start < size <= end_)%Z) /\
  (forall start end_, parseByteRange rangeHeader size = Ok (start, end_) ->
     exists before part after, content = before +:+ part +:+ after /\ string_len before = start /\
       string_len part = (end_ - start + 1)%Z /\ section_of (Some content) start end_ = Some part) /\
  (forall start end_, (0 <= start <= end_)%Z -> (end_ <= max_int64)%Z ->
     names_range ("bytes=" +:+ format_int start +:+ "-" +:+ format_int end_) start end_).
Proof.
  cbv zeta. set (size := string_len content).
  assert (Hok : forall s e, parseByteRange rangeHeader size = Ok (s, e) <-> names_range rangeHeader s e /\ (e < size)%Z).
  { intros s e. destruct (parseByteRange_cases rangeHeader size) as [(s' & e' & Hn & ->)|[Hn ->]]; [|by split; [|intros [?%Hn _]]].
    assert (Hse : (0 <= s' <= e')%Z) by by destruct Hn as (? & ? & ? & _ & _ & _ & _ & _ & ?).
    destruct (Z.leb_spec size s'), (Z.leb_spec size e'); split; try done; try (intros [= <- <-]; by split).
    all: intros [Hn' ?]; destruct (names_range_unique _ _ _ _ _ Hn Hn') as [<- <-]; done || lia. }
  split; [exact Hok|]. split; [|split].
  - destruct (parseByteRange_cases rangeHeader size) as [(s & e & Hn & ->)|[Hn ->]]; [|by split; [|intros (? & ? & ?%Hn & _)]].
    destruct (Z.leb_spec size s), (Z.leb_spec size e); split; try done; try (intros _; by exists s, e).
    all: intros (s' & e' & Hn' & ?); destruct (names_range_unique _ _ _ _ _ Hn Hn') as [<- <-]; lia.
  - intros s e [Hn He]%Hok. assert (Hse : (0 <= s <= e)%Z) by by destruct Hn as (? & ? & ? & _ & _ & _ & _ & _ & ?).
    unfold size, string_len in *.
    exists (take_bytes (Z.to_nat s) content), (take_bytes (Z.to_nat (e - s + 1)) (drop_bytes (Z.to_nat s) content)),
      (drop_bytes (Z.to_nat (e - s + 1)) (drop_bytes (Z.to_nat s) content)).
    rewrite !take_drop_bytes, !length_take_bytes, length_drop_bytes. split; [done|]. split; [lia|]. split; [lia|done].
  - intros s e Hse He. exists (format_int s +:+ "-" +:+ format_int e), (format_int s), (format_int e).
    assert (Hp := format_int_printable). rewrite !trim_space_all_printable, !parse_format_int;
      try (unfold min_int64 in *; lia); try apply Hp; [|by rewrite !all_printable_append, !Hp].
    split_and!; [done|done|apply format_int_no_minus; lia|done..|lia|lia].
Qed.

(** Five bytes of an object, and a range that ends after it. *)
Lemma parseByteRange_exact_witness :
  parseByteRange "bytes=2-6" (string_len "0123456789") = Ok (2, 6)%Z /\
  parseByteRange "bytes=2-10" (string_len "0123456789") = Err errRangeExceedsSize /\
  section_of (Some "0123456789") 2 6 = Some "23456" /\
  exists before part after, "0123456789" = before +:+ part +:+ after /\ string_len before = 2%Z /\
    string_len part = (6 - 2 + 1)%Z /\ section_of (Some "0123456789") 2 6 = Some part.
Proof.
  split; [reflexivity|]. split; [reflexivity|]. split; [reflexivity|].
  apply (proj1 (proj2 (proj2 (parseByteRange_exact "bytes=2-6" "0123456789")))). reflexivity.
Defined.
