(* ===== verification/S3Multipart.v ===== *)
(** * Multipart uploads: [internal/s3/multipart_*.go]

    Creating an upload, storing its parts, completing, aborting and listing. The
    handlers of one upload exclude each other by its lock, and claim the upload in the
    database before they complete or abort it. *)

From S2P Require Import Prelude GoStrings Encoding Hash GoTime GoUrl Effects Os Sanitize DiskEngine Schema Db Iam Authz ObjectRepo MultipartRepo ActivityRepo ObjectOps Prog S3Http S3Xml Checksum S3Access S3Objects S3Copy CachedBucketRepo CachedObjectRepo.

Definition defaultMinPartSize : Z := 5 * 1024 * 1024.
Definition maxPartNumber : Z := 10000.
Definition maxListResults : Z := 1000.

(** ** Completed parts *)

(** [normalizeCompletedParts]: the loop keeps [unique] and the position of each number. *)
Definition add_completed (unique : list CompletePart) (positions : gmap Z nat) (part : CompletePart)
    : list CompletePart * gmap Z nat :=
  match positions !! cp_part_number part with
  | Some i => (<[i := part]> unique, positions)
  | None => (unique ++ [part], <[cp_part_number part := length unique]> positions)
  end.

Fixpoint unique_parts (parts : list CompletePart) (unique : list CompletePart) (positions : gmap Z nat)
    : list CompletePart :=
  match parts with
  | [] => unique
  | part :: rest => let '(unique, positions) := add_completed unique positions part in
                    unique_parts rest unique positions
  end.

Fixpoint ascending (parts : list CompletePart) : bool :=
  match parts with
  | a :: ((b :: _) as rest) => if (cp_part_number b <? cp_part_number a)%Z then false else ascending rest
  | _ => true
  end.

Definition normalizeCompletedParts (parts : list CompletePart) : result (list CompletePart) :=
  match parts with
  | [] => Err ErrNoCompletedParts
  | _ => let unique := unique_parts parts [] ∅ in
         if ascending unique then Ok unique else Err ErrPartOrder
  end.

(** [matchStoredParts]: the map from part numbers, and the loop over the requested parts. *)
Definition byNumber (stored : list MultipartPart) : gmap Z MultipartPart :=
  fold_left (fun m part => <[p_part_number part := part]> m) stored ∅.

Fixpoint match_parts (requested : list CompletePart) (stored : gmap Z MultipartPart) (minPartSize : Z)
    : result (list MultipartPart) :=
  match requested with
  | [] => Ok []
  | want :: rest =>
      match stored !! cp_part_number want with
      | None => Err ErrUnknownPart
      | Some part =>
          if negb (etagMatches (cp_etag want) (p_etag part)) then Err ErrUnknownPart
          else if negb (bool_decide (rest = [])) && (p_size part <? minPartSize)%Z then Err ErrPartTooSmall
          else let? matched := match_parts rest stored minPartSize in Ok (part :: matched)
      end
  end.

Definition matchStoredParts (requested : list CompletePart) (stored : list MultipartPart) (minPartSize : Z)
    : result (list MultipartPart) :=
  match_parts requested (byNumber stored) minPartSize.

(** [partsAfterMarker]: the parts from the first one above the marker. *)
Fixpoint from_marker (parts : list MultipartPart) (marker : Z) : list MultipartPart :=
  match parts with
  | [] => []
  | p :: rest => if (marker <? p_part_number p)%Z then parts else from_marker rest marker
  end.

Definition partsAfterMarker (parts : list MultipartPart) (marker limit : Z) : list MultipartPart * bool :=
  let page := from_marker parts marker in
  if (limit <? Z.of_nat (length page))%Z then (take (Z.to_nat limit) page, true) else (page, false).

Section Multipart.
Context `{Cwd} `{Rounds} `{Uuid} (h : ObjectHandlers).

(** ** Shared steps: [multipart_upload.go] *)

(** [multipartTarget]: bucket, key and upload. *)
Definition multipartTarget (r : Request) (action : Action) : prog World (Response + string * string * string) :=
  let '(bucketName, key) := objectRouteParams r in
  if String.eqb key "" then Ret (inl (InvalidRequest r))
  else
    _ <~? ensureBucketAction h r bucketName action key "" ;;
    let uploadID := values_get (rq_query r) "uploadId" in
    if String.eqb uploadID "" then Ret (inl (InvalidRequest r))
    else Ret (inr (bucketName, key, uploadID)).

(** [parsePartNumber] *)
Definition parsePartNumber (r : Request) : Response + Z :=
  match parse_int (values_get (rq_query r) "partNumber") with
  | Some n => if (n <? 1)%Z || (maxPartNumber <? n)%Z then inl (InvalidRequest r) else inr n
  | None => inl (InvalidRequest r)
  end.

(** [parseListLimit] *)
Definition parseListLimit (r : Request) (raw : string) : Response + Z :=
  let raw := trim_space raw in
  if String.eqb raw "" then inr maxListResults
  else match parse_int raw with
       | None => inl (InvalidArgument r)
       | Some limit =>
           if (limit <? 0)%Z then inl (InvalidArgument r)
           else if (limit =? 0)%Z || (maxListResults <? limit)%Z then inr maxListResults
           else inr limit
       end.

(** [loadUpload] *)
Definition loadUpload (r : Request) (uploadID bucketName key : string) : prog World (Response + MultipartUpload) :=
  upload <~ call (db (MultipartRepository.GetByID uploadID)) ;;
  match upload with
  | Err ErrMultipartUploadNotFound => Ret (inl (NoSuchUpload r))
  | Err _ => Ret (inl (InternalError r))
  | Ok upload =>
      if negb (String.eqb (u_bucket_name upload) bucketName) || negb (String.eqb (u_key upload) key)
      then Ret (inl (NoSuchUpload r))
      else Ret (inr upload)
  end.

(** [lockUpload] and the deferred [release]: the body runs with the upload's lock. *)
Definition with_upload (r : Request) (uploadID bucketName key : string)
    (body : MultipartUpload -> prog World Response) : prog World Response :=
  with_lock uploadID (upload <~! loadUpload r uploadID bucketName key ;; body upload).

(** [storePart] *)
Definition storePart (r : Request) (part : MultipartPart) : prog World (Response + unit) :=
  added <~ call (db (MultipartRepository.AddPart part)) ;;
  match added with
  | Err err =>
      deleteStoredFile h (p_storage_path part) ~;;
      match err with
      | ErrUploadAlreadyClaimed | ErrMultipartUploadNotFound => Ret (inl (NoSuchUpload r))
      | _ => Ret (inl (InternalError r))
      end
  | Ok replacedPath =>
      (if negb (String.eqb replacedPath "") && negb (String.eqb replacedPath (p_storage_path part))
       then deleteStoredFile h replacedPath else Ret tt) ~;;
      Ret (inr tt)
  end.

(** [claimUpload] *)
Definition claimUpload (r : Request) (uploadID : string) (status : MultipartUploadStatus)
    : prog World (Response + unit) :=
  claimed <~ call (db (MultipartRepository.ClaimUpload uploadID status)) ;;
  match claimed with
  | Err ErrMultipartUploadNotFound | Err ErrUploadAlreadyClaimed => Ret (inl (NoSuchUpload r))
  | Err _ => Ret (inl (InternalError r))
  | Ok _ => Ret (inr tt)
  end.

(** [defer claim.release()] around a body that says whether it settled the claim. *)
Definition with_claim (r : Request) (uploadID : string) (status : MultipartUploadStatus)
    (body : prog World (Response * bool)) : prog World Response :=
  _ <~! claimUpload r uploadID status ;;
  answer <~ body ;;
  (if (answer.2 : bool) then Ret tt
   else call (db (MultipartRepository.SetUploadStatus uploadID MultipartUploadStatusActive)) ~;; Ret tt) ~;;
  Ret answer.1.

(** [deleteUploadParts] *)
Definition deleteUploadParts (uploadID : string) : prog World unit :=
  call (os (DeleteUploadParts (h_storage h) uploadID)) ~;; Ret tt.

(** ** Creating an upload: [multipart_create.go] *)

Definition valid_checksum_algorithm (algo : string) : bool :=
  existsb (String.eqb algo) ["SHA256"; "SHA1"; "CRC32"; "CRC32C"; "CRC64NVME"; ""].

Definition CreateMultipartUpload (r : Request) : prog World Response :=
  let '(bucketName, key) := objectRouteParams r in
  if String.eqb key "" then Ret (InvalidRequest r)
  else
    _ <~! ensureBucketAction h r bucketName ActionPutObject key "" ;;
    match ValidateKey key with
    | Err _ => Ret (InvalidRequest r)
    | Ok _ =>
        let checksumAlgo := trim_space (header_get (rq_header r) "x-amz-checksum-algorithm") in
        if negb (valid_checksum_algorithm checksumAlgo) then Ret (InvalidArgument r)
        else
          id <~ newID ;;
          created <~ now ;;
          let upload := MkUpload id bucketName key (requestContentType r) checksumAlgo
                          MultipartUploadStatusActive created 0 (parseMetadataHeaders r) in
          stored <~ call (db (MultipartRepository.Create upload)) ;;
          match stored with
          | Err _ => Ret (InternalError r)
          | Ok upload =>
              Ret (ReplyXml_with (if String.eqb checksumAlgo "" then ∅
                                  else header_set "x-amz-checksum-algorithm" checksumAlgo ∅)
                     (InitiateMultipartUploadResult bucketName key (u_id upload) checksumAlgo))
          end
    end.

(** ** Parts: [multipart_part.go] *)

(** The checksums that [UploadPart] echoes. *)
Definition partChecksumHeaders : list string :=
  ["x-amz-checksum-crc32"; "x-amz-checksum-crc32c"; "x-amz-checksum-crc64nvme"; "x-amz-checksum-sha1";
   "x-amz-checksum-sha256"].

Definition echo_checksums (cs : gmap string string) (hd : Header) : Header :=
  fold_left (fun hd name => let value := checksum_of cs name in
               if String.eqb value "" then hd else header_set name value hd) partChecksumHeaders hd.

(** The body of [UploadPart] under the upload's lock. *)
Definition upload_part (r : Request) (bucketName key uploadID : string) (partNumber : Z)
    (upload : MultipartUpload) : prog World Response :=
  if negb (String.eqb (u_status upload) MultipartUploadStatusActive) then Ret (NoSuchUpload r)
  else match newChecksumPipeline r with
       | Err err => Ret (writePipelineError r err)
       | Ok pipeline =>
           let data := reader_content (rq_body r) in
           written <~ call (os (WritePart (h_storage h) uploadID partNumber (rq_body r))) ;;
           match written with
           | Err err => Ret (writeStorageMutationError r err)
           | Ok (storagePath, size) =>
               match Validate pipeline data with
               | Err _ => deleteStoredFile h storagePath ~;; Ret (BadDigest r)
               | Ok _ =>
                   let cs := Checksums pipeline data in
                   created <~ now ;;
                   let part := MkPart uploadID partNumber size (ETag data) storagePath created
                                 (checksum_of cs "x-amz-checksum-crc32") (checksum_of cs "x-amz-checksum-crc32c")
                                 (checksum_of cs "x-amz-checksum-crc64nvme")
                                 (checksum_of cs "x-amz-checksum-sha1") (checksum_of cs "x-amz-checksum-sha256") in
                   _ <~! storePart r part ;;
                   Ret (Reply 200 (echo_checksums cs (header_set "ETag" (quoteETag (p_etag part)) ∅)))
               end
           end
       end.

Definition UploadPart (r : Request) : prog World Response :=
  target <~! multipartTarget r ActionPutObject ;;
  let '(bucketName, key, uploadID) := target in
  partNumber <~! Ret (parsePartNumber r) ;;
  _ <~! loadUpload r uploadID bucketName key ;;
  existing <~ CachedObjectRepository.GetByKey bucketName key ;;
  match (match existing with
         | Ok obj => inr (Some obj)
         | Err ErrObjectNotFound => inr None
         | Err _ => inl (InternalError r)
         end) with
  | inl response => Ret response
  | inr existingObj =>
      match checkPreconditionFailed r existingObj with
      | Some response => Ret response
      | None => with_upload r uploadID bucketName key (upload_part r bucketName key uploadID partNumber)
      end
  end.

(** The body of [UploadPartCopy] under the upload's lock. *)
Definition upload_part_copy (r : Request) (uploadID : string) (partNumber : Z) (source : option string)
    : prog World Response :=
  written <~ call (os (src <- file_reader source ;;
                       let* (storagePath, size) := WritePart (h_storage h) uploadID partNumber src in
                       ret (storagePath, size, reader_content src))) ;;
  match written with
  | Err err => Ret (writeStorageMutationError r err)
  | Ok (storagePath, size, copied) =>
      created <~ now ;;
      let part := MkPart uploadID partNumber size (hex_encode (md5_sum copied)) storagePath created "" "" "" "" "" in
      _ <~! storePart r part ;;
      Ret (ReplyXml (CopyPartResult (format_RFC3339 created) (quoteETag (p_etag part))))
  end.

Definition UploadPartCopy (r : Request) : prog World Response :=
  target <~! multipartTarget r ActionPutObject ;;
  let '(bucketName, key, uploadID) := target in
  partNumber <~! Ret (parsePartNumber r) ;;
  source <~! parsePartCopySource r ;;
  _ <~! loadUpload r uploadID bucketName key ;;
  _ <~! ensureBucketAction h r (cs_bucket_name source) ActionGetObject (cs_key source) "" ;;
  sourceReader <~! openCopySource h r source ;;
  with_upload r uploadID bucketName key (fun _ => upload_part_copy r uploadID partNumber sourceReader).
End Multipart.

(** ** The parts that are matched *)

Lemma byNumber_stored stored n part : byNumber stored !! n = Some part -> part ∈ stored /\ p_part_number part = n.
Proof.
  unfold byNumber. induction stored as [|x stored IH] using rev_ind; [done|].
  rewrite fold_left_app. cbn [fold_left]. intros [[E ->]|[_ Hp]]%lookup_insert_Some.
  - split; [|done]. apply elem_of_app. right. by left.
  - apply IH in Hp as [Hp ?]. split; [|done]. apply elem_of_app. by left.
Qed.

(** A matched part is a stored part. *)
Lemma match_parts_stored requested stored minSize parts :
  match_parts requested (byNumber stored) minSize = Ok parts -> Forall (fun p => p ∈ stored) parts.
Proof.
  revert parts; induction requested as [|want rest IH]; intros parts; cbn [match_parts]; [intros [= <-]; constructor|].
  destruct (byNumber stored !! _) as [part|] eqn:Ep; [|done].
  destruct (negb _); [done|]. destruct (_ && _); [done|].
  destruct (match_parts rest (byNumber stored) minSize) as [matched|]; [|done]. cbn. intros [= <-].
  apply byNumber_stored in Ep as [Ep _]. constructor; [done|]. by apply IH.
Qed.
