(* ===== verification/S3Complete.v ===== *)
(** * Ending an upload: [multipart_complete.go], [multipart_abort.go], [multipart_cleanup.go] and the
      listings of [multipart_list.go] *)

From S2P Require Import Prelude GoStrings Encoding Hash GoTime GoUrl Effects Os Sanitize DiskEngine Schema Db Iam Authz ObjectRepo MultipartRepo ActivityRepo ObjectOps Prog S3Http S3Xml Checksum S3Access S3Objects S3Copy S3Multipart CachedBucketRepo CachedObjectRepo.

Section Complete.
Context `{Cwd} `{Rounds} `{Uuid} `{XmlDecoder} (h : ObjectHandlers).

(** [writeCompletedPartsError] *)
Definition writeCompletedPartsError (r : Request) (err : error) : Response :=
  match err with
  | ErrPartOrder => WriteS3Error r 400 codeInvalidPartOrder messageInvalidPartOrder
  | ErrUnknownPart => WriteS3Error r 400 codeInvalidPart messageInvalidPart
  | ErrPartTooSmall => WriteS3Error r 400 codeEntityTooSmall messageEntityTooSmall
  | _ => InvalidRequest r
  end.

(** [minPartSize] *)
Definition minPartSize : Z := if (h_min_part_size h =? 0)%Z then defaultMinPartSize else h_min_part_size h.

(** [writeCompleteUploadError]: the response, and whether the claim is settled. *)
Definition writeCompleteUploadError (r : Request) (err : error) : Response * bool :=
  match err with
  | ErrMultipartUploadNotFound => (NoSuchUpload r, true)
  | ErrUploadAlreadyClaimed => (NoSuchUpload r, false)
  | ErrPreconditionFailed => (PreconditionFailed r, false)
  | ErrObjectNotFound => (NoSuchKey r, false)
  | _ => (InternalError r, false)
  end.

(** [assembleUpload] *)
Definition assembleUpload (r : Request) (upload : MultipartUpload) (parts : list MultipartPart)
    : prog World (Response + Object) :=
  assembled <~ call (os (AssembleParts (h_storage h) (u_bucket_name upload) (u_key upload)
                     (p_storage_path <$> parts))) ;;
  match assembled with
  | Err err => Ret (inl (writeStorageMutationError r err))
  | Ok (storagePath, size) =>
      match MultipartETag (p_etag <$> parts) with
      | Err _ => deleteStoredFile h storagePath ~;; Ret (inl (InternalError r))
      | Ok etag =>
          let contentType := if String.eqb (u_content_type upload) "" then "application/octet-stream"
                             else u_content_type upload in
          now_ <~ now ;;
          id <~ newID ;;
          Ret (inr (MkObject id (u_bucket_name upload) (u_key upload) size etag contentType storagePath
                 now_ now_ true (Z.of_nat (length parts)) "" "" "" "" "" (u_user_metadata upload)))
      end
  end.

(** The body of [CompleteMultipartUpload] under the claim. *)
Definition complete_claimed (r : Request) (bucketName key uploadID : string) (upload : MultipartUpload)
    (requested : list CompletePart) : prog World (Response * bool) :=
  storedParts <~ call (db (MultipartRepository.ListParts uploadID)) ;;
  match storedParts with
  | Err _ => Ret (InternalError r, false)
  | Ok storedParts =>
      match matchStoredParts requested storedParts minPartSize with
      | Err err => Ret (writeCompletedPartsError r err, false)
      | Ok parts =>
          assembled <~ assembleUpload r upload parts ;;
          match assembled with
          | inl response => Ret (response, false)
          | inr obj =>
              completed <~ call (db (MultipartRepository.CompleteUpload obj uploadID
                             (header_get (rq_header r) "If-Match") (header_get (rq_header r) "If-None-Match"))) ;;
              match completed with
              | Err err =>
                  deleteStoredFile h (o_storage_path obj) ~;; Ret (writeCompleteUploadError r err)
              | Ok replacedPath =>
                  InvalidateObjectCache (o_bucket_name obj) (o_key obj) ~;;
                  recordActivity h r ActivityCompleteMultipartUpload bucketName key (o_size obj) (o_etag obj) ~;;
                  (if negb (String.eqb replacedPath "") && negb (String.eqb replacedPath (o_storage_path obj))
                   then deleteStoredFile h replacedPath else Ret tt) ~;;
                  deleteUploadParts h uploadID ~;;
                  Ret (ReplyXml (CompleteMultipartUploadResult ("/" +:+ bucketName +:+ "/" +:+ key)
                         bucketName key (quoteETag (o_etag obj))), true)
              end
          end
      end
  end.

(** The body of [CompleteMultipartUpload] under the upload's lock. *)
Definition complete_locked (r : Request) (bucketName key uploadID : string) (upload : MultipartUpload)
    : prog World Response :=
  let malformed := Ret (WriteS3Error r 400 codeMalformedXML messageMalformedXML) in
  match ReadBody r (2 * 1024 * 1024) with
  | Err _ => malformed
  | Ok payload =>
      match decodeCompleteMultipartUpload payload with
      | Err _ => malformed
      | Ok parts =>
          match normalizeCompletedParts parts with
          | Err err => Ret (writeCompletedPartsError r err)
          | Ok requested =>
              with_claim r uploadID MultipartUploadStatusCompleting
                (complete_claimed r bucketName key uploadID upload requested)
          end
      end
  end.

Definition CompleteMultipartUpload (r : Request) : prog World Response :=
  target <~! multipartTarget h r ActionPutObject ;;
  let '(bucketName, key, uploadID) := target in
  _ <~! loadUpload r uploadID bucketName key ;;
  with_upload r uploadID bucketName key (complete_locked r bucketName key uploadID).

(** ** Aborting: [multipart_abort.go] *)

Definition abort_claimed (r : Request) (uploadID : string) : prog World (Response * bool) :=
  deleted <~ call (db (MultipartRepository.Delete uploadID)) ;;
  match deleted with
  | Err _ => Ret (InternalError r, false)
  | Ok _ => deleteUploadParts h uploadID ~;; Ret (Reply 204 ∅, true)
  end.

Definition AbortMultipartUpload (r : Request) : prog World Response :=
  target <~! multipartTarget h r ActionAbortMultipartUpload ;;
  let '(bucketName, key, uploadID) := target in
  _ <~! loadUpload r uploadID bucketName key ;;
  with_upload r uploadID bucketName key (fun _ =>
    with_claim r uploadID MultipartUploadStatusAborted (abort_claimed r uploadID)).

(** ** Stale uploads: [multipart_cleanup.go]

    One tick of [StaleMultipartCleanup]; the loop over ticks is the environment's. *)

(** [removeStaleUpload] *)
Definition removeStaleUpload (upload : MultipartUpload) : prog World unit :=
  let claimed := String.eqb (u_status upload) MultipartUploadStatusActive in
  claim <~ (if claimed then call (db (MultipartRepository.ClaimUpload (u_id upload) MultipartUploadStatusAborted))
            else Ret (Ok tt)) ;;
  match claim with
  | Err _ => Ret tt
  | Ok _ =>
      deleted <~ call (db (MultipartRepository.Delete (u_id upload))) ;;
      match deleted with
      | Err _ =>
          if claimed then
            call (db (MultipartRepository.SetUploadStatus (u_id upload) MultipartUploadStatusActive)) ~;; Ret tt
          else Ret tt
      | Ok _ => deleteUploadParts h (u_id upload)
      end
  end.

Fixpoint remove_stale (uploads : list MultipartUpload) (ttl : Z) : prog World unit :=
  match uploads with
  | [] => Ret tt
  | upload :: rest =>
      now_ <~ now ;;
      (if negb (String.eqb (u_status upload) MultipartUploadStatusActive)
          && (time_sub now_ (u_status_updated_at upload) <? wrap64 (ttl * 2))%Z
       then Ret tt else removeStaleUpload upload) ~;;
      remove_stale rest ttl
  end.

Definition removeStaleUploads (ttl : Z) : prog World unit :=
  now_ <~ now ;;
  stale <~ call (db (MultipartRepository.ListStale (now_ - ttl)%Z)) ;;
  match stale with
  | Err _ => Ret tt
  | Ok stale => remove_stale stale ttl
  end.

(** ** Listing: [multipart_list.go] *)

Definition anonymous : Owner := MkOwner "anonymous" "anonymous".

Definition ListMultipartUploads (r : Request) : prog World Response :=
  let bucketName := chiBucketParam r in
  let q := rq_query r in
  let prefix := values_get q "prefix" in
  _ <~! ensureBucketAction h r bucketName ActionListBucket "" prefix ;;
  maxUploads <~! Ret (parseListLimit r (values_get q "max-uploads")) ;;
  let keyMarker := values_get q "key-marker" in
  let uploadIDMarker := values_get q "upload-id-marker" in
  let delimiter := values_get q "delimiter" in
  if negb (String.eqb delimiter "")
  then Ret (WriteS3Error r 501 codeNotImplemented "delimiter is not yet supported")
  else
    listed <~ call (db (MultipartRepository.ListByBucket bucketName prefix keyMarker uploadIDMarker maxUploads)) ;;
    match listed with
    | Err _ => Ret (InternalError r)
    | Ok (uploads, isTruncated, nextKeyMarker, nextUploadIDMarker) =>
        let entries := (fun u => MkUploadEntry (u_key u) (u_id u) anonymous anonymous "STANDARD"
                                   (format_RFC3339 (u_created_at u))) <$> uploads in
        Ret (ReplyXml (ListMultipartUploadsXml (MkListUploads bucketName keyMarker uploadIDMarker nextKeyMarker
               nextUploadIDMarker maxUploads isTruncated entries delimiter prefix)))
    end.

(** The part-number marker of [ListParts]. *)
Definition partNumberMarker (r : Request) : Response + Z :=
  let raw := trim_space (values_get (rq_query r) "part-number-marker") in
  if String.eqb raw "" then inr 0%Z
  else match parse_int raw with
       | None => inl (InvalidArgument r)
       | Some n => if (n <? 0)%Z then inl (InvalidArgument r) else inr n
       end.

Definition part_entry (p : MultipartPart) : ListPartsPart :=
  MkPartEntry (p_part_number p) (format_RFC3339 (p_created_at p)) (quoteETag (p_etag p)) (p_size p)
    (p_crc32 p) (p_crc32c p) (p_crc64nvme p) (p_sha1 p) (p_sha256 p).

Definition ListParts (r : Request) : prog World Response :=
  target <~! multipartTarget h r ActionListMultipartUploadParts ;;
  let '(bucketName, key, uploadID) := target in
  _ <~! loadUpload r uploadID bucketName key ;;
  listed <~ call (db (MultipartRepository.ListParts uploadID)) ;;
  match listed with
  | Err _ => Ret (InternalError r)
  | Ok parts =>
      maxParts <~! Ret (parseListLimit r (values_get (rq_query r) "max-parts")) ;;
      marker <~! Ret (partNumberMarker r) ;;
      let '(page, isTruncated) := partsAfterMarker parts marker maxParts in
      let nextMarker := match last page with
                        | Some p => if (isTruncated : bool) then p_part_number p else 0%Z
                        | None => 0%Z
                        end in
      Ret (ReplyXml (ListPartsXml (MkListParts bucketName key uploadID anonymous anonymous "STANDARD" marker
             nextMarker maxParts isTruncated (part_entry <$> page))))
  end.
End Complete.
