(* ===== verification/S3Buckets.v ===== *)
(** * Buckets: [bucket_create.go], [bucket_delete.go], [bucket_head.go], [bucket_location.go],
      [list_buckets.go] *)

From S2P Require Import Prelude GoStrings Encoding GoTime Effects Os GoPath Sanitize DiskEngine Schema Db Iam Authz ObjectRepo BucketRepo MultipartRepo UserRepo GrantRepo ActivityRepo ObjectOps Prog S3Http S3Xml S3Access S3Objects S3Multipart CachedBucketRepo CachedObjectRepo.

(** [s3compat.Region] *)
Definition Region : string := "us-east-1".

(** ** Names *)

(** [net.ParseIP(name) != nil] for a name without a colon: four decimal fields of at
    most three digits, without leading zeros, below 256. A name with a colon (an IPv6
    address) has a character that [validateBucketName] refuses anyway. *)
Definition ip_field (s : string) : bool :=
  match s with
  | EmptyString => false
  | String a r =>
      (String.length s <=? 3)%nat && negb (Ascii.eqb a "0" && negb (String.eqb r ""))
      && match parse_digits 0 s with Some v => (v <=? 255)%Z | None => false end
  end.
Definition is_ip (name : string) : bool :=
  let fields := split name "." in
  Nat.eqb (length fields) 4 && forallb ip_field fields.

(** [isBucketLabelChar] *)
Definition isBucketLabelChar (char : ascii) : bool := between 97 122 char || between 48 57 char.

Definition bucket_char (char : ascii) : bool :=
  isBucketLabelChar char || Ascii.eqb char "-" || Ascii.eqb char ".".

Definition last_char (s : string) : option ascii := last (String.list_ascii_of_string s).

(** [validateBucketName] *)
Definition validateBucketName (name : string) : result unit :=
  let fails := Err (ErrOther "invalid bucket name") in
  if (string_len name <? 3)%Z || (63 <? string_len name)%Z then fails
  else if String.eqb name "public" then fails
  else if negb (String.eqb (to_lower name) name) then fails
  else if is_ip name then fails
  else if negb (forallb bucket_char (String.list_ascii_of_string name)) then fails
  else if match String.list_ascii_of_string name, last_char name with
          | first :: _, Some last => negb (isBucketLabelChar first) || negb (isBucketLabelChar last)
          | _, _ => true
          end then fails
  else if contains name ".." || contains name ".-" || contains name "-." then fails
  else Ok tt.

Section Buckets.
Context `{Cwd} `{Rounds} `{Uuid} `{XmlDecoder} (h : ObjectHandlers).

(** ** Creating: [bucket_create.go] *)

Definition errInvalidLocationConstraint : error := ErrOther "invalid location constraint".

(** [validateCreateBucketConfiguration] *)
Definition validateCreateBucketConfiguration (r : Request) : result unit :=
  let? payload := ReadBody r (4 * 1024) in
  if String.eqb (trim_space payload) "" then Ok tt
  else
    let? config := decodeCreateBucketConfiguration payload in
    if negb (String.eqb (bc_xml_name config) "CreateBucketConfiguration")
    then Err (ErrOther "unexpected root element")
    else
      let locationConstraint := trim_space (bc_location_constraint config) in
      if String.eqb locationConstraint "" || String.eqb locationConstraint Region then Ok tt
      else Err errInvalidLocationConstraint.

(** [writeCreateBucketConflict] *)
Definition writeCreateBucketConflict (r : Request) (bucket : Bucket) (userID : string) : Response :=
  if String.eqb (b_owner_id bucket) userID
  then WriteS3Error r 409 codeBucketAlreadyOwnedByYou messageBucketAlreadyOwnedByYou
  else WriteS3Error r 409 codeBucketAlreadyExists messageBucketAlreadyExists.

(** [bucketOwnerID]: in development mode the user is created on demand. *)
Definition bucketOwnerID (principal : Principal) : prog World (result string) :=
  if negb (p_dev_mode principal) then Ret (Ok (p_user_id principal))
  else if negb (h_users h) then Ret (Err (ErrOther "user repository is required for dev bucket creation"))
  else
    user <~ call (db (UserRepository.GetByID (p_user_id principal))) ;;
    match user with
    | Ok _ => Ret (Ok (p_user_id principal))
    | Err ErrUserNotFound =>
        now_ <~ now ;;
        created <~ call (db (UserRepository.Create
          (MkUser (p_user_id principal) (p_display_name principal) (p_access_key_id principal) "dev-mode" "" ""
             (p_role principal) true now_ now_))) ;;
        match created with
        | Ok _ => Ret (Ok (p_user_id principal))
        | Err err =>
            again <~ call (db (UserRepository.GetByID (p_user_id principal))) ;;
            match again with
            | Ok _ => Ret (Ok (p_user_id principal))
            | Err _ => Ret (Err err)
            end
        end
    | Err err => Ret (Err err)
    end.

Definition CreateBucket (r : Request) : prog World Response :=
  let bucketName := chiBucketParam r in
  match validateBucketName bucketName with
  | Err _ => Ret (WriteS3Error r 400 codeInvalidBucketName messageInvalidBucketName)
  | Ok _ =>
      match validateCreateBucketConfiguration r with
      | Err err =>
          Ret (if bool_decide (err = errInvalidLocationConstraint)
               then WriteS3Error r 400 codeInvalidLocationConstraint messageInvalidLocationConstraint
               else WriteS3Error r 400 codeMalformedXML messageMalformedXML)
      | Ok _ =>
          match has_user r with
          | None => Ret (AccessDenied r)
          | Some principal =>
              owner <~ bucketOwnerID principal ;;
              match owner with
              | Err _ => Ret (InternalError r)
              | Ok ownerID =>
                  bucket <~ CachedBucketRepository.GetByName bucketName ;;
                  match bucket with
                  | Ok bucket => Ret (writeCreateBucketConflict r bucket ownerID)
                  | Err ErrBucketNotFound =>
                      created <~ now ;;
                      stored <~ CachedBucketRepository.Create (MkBucket bucketName ownerID created) ;;
                      match stored with
                      | Err _ =>
                          existing <~ CachedBucketRepository.GetByName bucketName ;;
                          match existing with
                          | Ok existing => Ret (writeCreateBucketConflict r existing ownerID)
                          | Err _ => Ret (InternalError r)
                          end
                      | Ok _ =>
                          recordActivity h r ActivityCreateBucket bucketName "" 0 "" ~;;
                          Ret (Reply 200 (header_set "Location" ("/" +:+ bucketName) ∅))
                      end
                  | Err _ => Ret (InternalError r)
                  end
              end
          end
      end
  end.

(** ** Deleting: [bucket_delete.go] *)

Definition isSQLiteForeignKeyError (err : error) : bool := bool_decide (err = ErrForeignKey).

(** The inner loop: the uploads of one page. *)
Fixpoint delete_uploads (r : Request) (uploads : list MultipartUpload) : prog World (Response + unit) :=
  match uploads with
  | [] => Ret (inr tt)
  | upload :: rest =>
      deleted <~ call (db (MultipartRepository.Delete (u_id upload))) ;;
      match deleted with
      | Err _ => Ret (inl (InternalError r))
      | Ok _ => deleteUploadParts h (u_id upload) ~;; delete_uploads r rest
      end
  end.

Definition maxAbortIterations : nat := 10.

(** The outer loop: a page of uploads in each round, until there are none. *)
Fixpoint abort_uploads (rounds : nat) (r : Request) (bucketName : string) : prog World (Response + unit) :=
  match rounds with
  | O => Ret (inr tt)
  | S rounds =>
      listed <~ call (db (MultipartRepository.ListByBucket bucketName "" "" "" 1000)) ;;
      match listed with
      | Err _ => Ret (inl (InternalError r))
      | Ok ([], _, _, _) => Ret (inr tt)
      | Ok (uploads, _, _, _) =>
          _ <~? delete_uploads r uploads ;;
          abort_uploads rounds r bucketName
      end
  end.

Definition DeleteBucket (r : Request) : prog World Response :=
  let bucketName := chiBucketParam r in
  let notEmpty := WriteS3Error r 409 codeBucketNotEmpty messageBucketNotEmpty in
  _ <~! ensureBucketAction h r bucketName ActionDeleteBucket "" "" ;;
  listed <~ call (db (ObjectRepository.List bucketName "" "" 1)) ;;
  match listed with
  | Err _ => Ret (InternalError r)
  | Ok (objects, isTruncated) =>
      if negb (bool_decide (objects = [])) || isTruncated then Ret notEmpty
      else
        _ <~! abort_uploads maxAbortIterations r bucketName ;;
        deleted <~ CachedBucketRepository.Delete bucketName ;;
        match deleted with
        | Err ErrBucketNotFound => Ret (NoSuchBucket r)
        | Err err => if isSQLiteForeignKeyError err then Ret notEmpty else Ret (InternalError r)
        | Ok _ => recordActivity h r ActivityDeleteBucket bucketName "" 0 "" ~;; Ret (Reply 204 ∅)
        end
  end.

(** ** Reading *)

(** [HeadBucket] *)
Definition HeadBucket (r : Request) : prog World Response :=
  let bucketName := chiBucketParam r in
  if String.eqb bucketName "" then Ret (InvalidRequest r)
  else
    let hd := header_set "x-amz-bucket-region" Region ∅ in
    _ <~! ensureBucketAction_with h hd r bucketName ActionListBucket "" "" ;;
    Ret (Reply 200 hd).

(** [GetBucketLocation] *)
Definition GetBucketLocation (r : Request) : prog World Response :=
  let bucketName := chiBucketParam r in
  _ <~! ensureBucketAction h r bucketName ActionListBucket "" "" ;;
  Ret (ReplyXml (LocationConstraintResult "")).

(** [mergeBucketsByName]: the owned buckets and the granted ones, each once. *)
Definition by_created_name (a b : Bucket) : Prop :=
  if decide (b_created_at a = b_created_at b) then String.le (b_name a) (b_name b)
  else (b_created_at a <= b_created_at b)%Z.
#[local] Instance by_created_name_dec : RelDecision by_created_name.
Proof. intros a b. unfold by_created_name. case_decide; apply _. Defined.

Definition mergeBucketsByName (owned granted : list Bucket) : list Bucket :=
  let byName := fold_left (fun m b => <[b_name b := b]> m) owned (∅ : gmap string Bucket) in
  let byName := fold_left (fun m b => match m !! b_name b with Some _ => m | None => <[b_name b := b]> m end)
                  granted byName in
  merge_sort by_created_name (map_to_list byName).*2.

(** [listBucketsForPrincipal] *)
Definition listBucketsForPrincipal (principal : Principal) : prog World (result (list Bucket)) :=
  if String.eqb (p_role principal) RoleAdmin then call (db BucketRepository.List)
  else
    owned <~ call (db (BucketRepository.ListByOwner (p_user_id principal))) ;;
    match owned with
    | Err err => Ret (Err err)
    | Ok owned =>
        if negb (h_grants h) then Ret (Ok owned)
        else
          names <~ call (db (GrantRepository.ListBucketNamesWithActiveGrants (p_user_id principal))) ;;
          match names with
          | Err err => Ret (Err err)
          | Ok [] => Ret (Ok owned)
          | Ok names =>
              granted <~ call (db (BucketRepository.ListByNames names)) ;;
              match granted with
              | Err err => Ret (Err err)
              | Ok granted => Ret (Ok (mergeBucketsByName owned granted))
              end
          end
    end.

(** [ListBuckets] *)
Definition ListBuckets (r : Request) : prog World Response :=
  match rq_principal r with
  | None => Ret (AccessDenied r)
  | Some principal =>
      if String.eqb (p_user_id principal) "" then Ret (AccessDenied r)
      else
        listed <~ listBucketsForPrincipal principal ;;
        match listed with
        | Err _ => Ret (InternalError r)
        | Ok buckets =>
            Ret (ReplyXml (ListAllMyBucketsXml
              (MkBucketsResult (MkOwner (p_user_id principal) (p_display_name principal))
                 ((fun b => (b_name b, format_millis (b_created_at b))) <$> buckets))))
        end
  end.
End Buckets.

(** ** Bucket names *)

Lemma forallb_no_sep s : forallb bucket_char (String.list_ascii_of_string s) = true -> contains_byte s sep = false.
Proof.
  induction s as [|a s IH]; [done|]. cbn [String.list_ascii_of_string forallb contains_byte].
  intros [Ha Hs]%andb_true_iff. rewrite IH by done. rewrite orb_false_r.
  destruct (Ascii.eqb_spec a sep) as [->|]; [|done]. by vm_compute in Ha.
Qed.

Lemma valid_bucket_dir name : validateBucketName name = Ok tt -> bucket_dir name.
Proof.
  unfold validateBucketName. destruct (_ || _) eqn:Elen; [done|]. apply orb_false_iff in Elen as [Hmin _].
  destruct (String.eqb _ _); [done|]. destruct (negb _); [done|]. destruct (is_ip _); [done|].
  destruct (negb (forallb _ _)) eqn:Ech; [done|]. apply negb_false_iff, forallb_no_sep in Ech.
  destruct name as [|a name]; [done|]. cbn [String.list_ascii_of_string].
  destruct (last_char _) as [l|]; [|done]. destruct (negb (isBucketLabelChar a)) eqn:Ea; [done|].
  apply negb_false_iff in Ea. intros _. split; [split_and!; [done|..|done]|]; intros E; injection E as -> ->;
    by vm_compute in Ea || by vm_compute in Hmin.
Qed.

(** Bucket names are safe directory names. A name that CreateBucket accepts is a
    single path segment - not empty, not a dot name, without a separator - and is not
    the engine's own temporary directory, so that the files of a bucket lie in a
    directory of its own below the data directory. *)
Theorem validateBucketName_dir name :
  validateBucketName name = Ok tt ->
  name <> "" /\ name <> "." /\ name <> ".." /\ contains_byte name sep = false /\ name <> ".tmp".
Proof. intros H. destruct (valid_bucket_dir name H) as [(H1 & H2 & H3 & H4) H5]. by split_and!. Qed.

Lemma validateBucketName_dir_witness :
  validateBucketName "my.photos-2" = Ok tt /\ "my.photos-2" <> ".." /\ contains_byte "my.photos-2" sep = false.
Proof.
  pose proof (validateBucketName_dir "my.photos-2" eq_refl) as (_ & _ & H & H' & _). split; [reflexivity|]. by split.
Defined.
