(* ===== verification/S3Lists.v ===== *)
(** * Listing objects: [bucket_handlers.go], [list_objects_v1.go], [list_object_versions.go] *)

From S2P Require Import Prelude GoStrings Encoding GoTime GoUrl Effects Os Sanitize DiskEngine Schema Db Iam Authz ObjectRepo ObjectOps Prog S3Http S3Xml S3Access CachedBucketRepo CachedObjectRepo.

#[local] Open Scope Z_scope.

Definition defaultListMaxKeys : Z := 1000.
Definition maxListKeys : Z := 1000.
Definition maxContinuationTokenLen : Z := 1500.
Definition maxContinuationKeyLen : Z := 1024.

(** [listEntry] *)
Record listEntry : Type := MkListEntry {
  le_value : string;
  le_cursor : string;
  le_object : option Object;
}.

(** [listObjectsV2Params] *)
Record listObjectsV2Params : Type := MkV2Params {
  v2_prefix : string;
  v2_delimiter : string;
  v2_continuation_token : string;
  v2_start_after : string;
  v2_response_start_after : string;
  v2_has_start_after : bool;
  v2_encoding_type : string;
  v2_max_keys : Z;
}.

(** [listObjectsV1Params] *)
Record listObjectsV1Params : Type := MkV1Params {
  v1_prefix : string;
  v1_delimiter : string;
  v1_marker : string;
  v1_encoding_type : string;
  v1_max_keys : Z;
}.

(** ** Tokens and encoded values *)

Definition encodeContinuationToken (key : string) : string := b64_encode URLAlphabet false key.

Definition decodeContinuationToken (token : string) : result string :=
  if maxContinuationTokenLen <? string_len token then Err (ErrOther "continuation token too long")
  else match b64_decode URLAlphabet false token with
       | None => Err (ErrOther "illegal base64 data")
       | Some decoded =>
           if maxContinuationKeyLen <? string_len decoded then Err (ErrOther "continuation key too long")
           else Ok decoded
       end.

(** [strings.ReplaceAll(s, "+", "%20")] *)
Fixpoint plus_to_space (s : string) : string :=
  match s with
  | EmptyString => ""
  | String a r => if Ascii.eqb a "+" then "%20" +:+ plus_to_space r else String a (plus_to_space r)
  end.

(** [encodeListValue] *)
Definition encodeListValue (value encodingType : string) : string :=
  if negb (String.eqb encodingType "url") then value else plus_to_space (QueryEscape value).

(** ** Parameters *)

Definition errInvalidMaxKeys : error := ErrOther "invalid max-keys".

(** The max-keys of both listings. *)
Definition parse_max_keys (query : Values) : result Z :=
  let rawMaxKeys := trim_space (values_get query "max-keys") in
  let? maxKeys :=
    if String.eqb rawMaxKeys "" then Ok defaultListMaxKeys
    else match parse_int rawMaxKeys with
         | None => Err errInvalidMaxKeys
         | Some n => if n <? 0 then Err errInvalidMaxKeys else Ok n
         end in
  Ok (if maxListKeys <? maxKeys then maxListKeys else maxKeys).

Definition parse_encoding_type (query : Values) : result string :=
  let encodingType := values_get query "encoding-type" in
  if negb (String.eqb encodingType "") && negb (String.eqb encodingType "url")
  then Err (ErrOther "invalid encoding-type") else Ok encodingType.

(** [parseListObjectsV2Params] *)
Definition parseListObjectsV2Params (r : Request) : result listObjectsV2Params :=
  let query := rq_query r in
  let? maxKeys := parse_max_keys query in
  let? encodingType := parse_encoding_type query in
  let startAfter := values_get query "start-after" in
  let continuationToken := values_get query "continuation-token" in
  let? after := if String.eqb continuationToken "" then Ok startAfter
                else decodeContinuationToken continuationToken in
  Ok (MkV2Params (values_get query "prefix") (values_get query "delimiter") continuationToken after startAfter
        (values_has query "start-after") encodingType maxKeys).

(** [parseListObjectsV1Params] *)
Definition parseListObjectsV1Params (r : Request) : result listObjectsV1Params :=
  let query := rq_query r in
  let? maxKeys := parse_max_keys query in
  let? encodingType := parse_encoding_type query in
  Ok (MkV1Params (values_get query "prefix") (values_get query "delimiter") (values_get query "marker")
        encodingType maxKeys).

(** ** Entries *)

(** [listObjectsV2Entries] *)
Definition object_entry (o : Object) : listEntry := MkListEntry (o_key o) (o_key o) (Some o).
Definition delimited_entry (res : DelimitedListEntry) : listEntry :=
  if e_is_prefix res then MkListEntry (e_virtual_key res) (e_cursor_key res) None
  else MkListEntry (e_virtual_key res) (e_cursor_key res) (e_object res).

Definition listObjectsV2Entries (bucketName : string) (params : listObjectsV2Params)
    : prog World (result (list listEntry * bool)) :=
  if v2_max_keys params =? 0 then Ret (Ok ([], false))
  else if String.eqb (v2_delimiter params) "" then
    listed <~ call (db (ObjectRepository.List bucketName (v2_prefix params) (v2_start_after params)
                      (v2_max_keys params))) ;;
    match listed with
    | Err err => Ret (Err err)
    | Ok (objects, isTruncated) => Ret (Ok (object_entry <$> objects, isTruncated))
    end
  else
    listed <~ call (db (ObjectRepository.ListDelimited bucketName (v2_prefix params) (v2_start_after params)
                      (v2_delimiter params) (v2_max_keys params))) ;;
    match listed with
    | Err err => Ret (Err err)
    | Ok results =>
        let isTruncated := v2_max_keys params <? Z.of_nat (length results) in
        let results := if isTruncated then take (Z.to_nat (v2_max_keys params)) results else results in
        Ret (Ok (delimited_entry <$> results, isTruncated))
    end.

(** [listObjectsV1Entries] *)
Definition listObjectsV1Entries (bucketName : string) (params : listObjectsV1Params)
    : prog World (result (list listEntry * bool)) :=
  listObjectsV2Entries bucketName
    (MkV2Params (v1_prefix params) (v1_delimiter params) "" (v1_marker params) "" false
       (v1_encoding_type params) (v1_max_keys params)).

(** ** Results *)

Definition contents_of (encodingType : string) (entry : listEntry) : option listBucketObject :=
  (fun o => MkContents (encodeListValue (o_key o) encodingType) (format_millis (o_updated_at o))
              (quoteETag (o_etag o)) (o_size o) "STANDARD") <$> le_object entry.

Definition prefix_of_entry (encodingType : string) (entry : listEntry) : option string :=
  match le_object entry with
  | None => Some (encodeListValue (le_value entry) encodingType)
  | Some _ => None
  end.

(** [buildListBucketResult] *)
Definition buildListBucketResult (bucketName : string) (params : listObjectsV2Params) (entries : list listEntry)
    (isTruncated : bool) : listBucketResult :=
  let enc := v2_encoding_type params in
  let contents := omap (contents_of enc) entries in
  let prefixes := omap (prefix_of_entry enc) entries in
  let next := match last entries with
              | Some entry => if isTruncated then Some (encodeContinuationToken (le_cursor entry)) else None
              | None => None
              end in
  MkListV2 bucketName (encodeListValue (v2_prefix params) enc)
    (Z.of_nat (length contents) + Z.of_nat (length prefixes)) (v2_max_keys params)
    (encodeListValue (v2_delimiter params) enc) (bool_decide (is_Some next)) contents prefixes
    (v2_continuation_token params) (default "" next)
    (if v2_has_start_after params then encodeListValue (v2_response_start_after params) enc else "") enc.

(** [buildListBucketV1Result] *)
Definition buildListBucketV1Result (bucketName : string) (params : listObjectsV1Params)
    (entries : list listEntry) (isTruncated : bool) : listBucketV1Result :=
  let enc := v1_encoding_type params in
  let next := match last entries with
              | Some entry => if isTruncated then Some (encodeListValue (le_cursor entry) enc) else None
              | None => None
              end in
  MkListV1 bucketName (encodeListValue (v1_prefix params) enc) (encodeListValue (v1_marker params) enc)
    (default "" next) (v1_max_keys params) (encodeListValue (v1_delimiter params) enc)
    (bool_decide (is_Some next)) (omap (contents_of enc) entries) (omap (prefix_of_entry enc) entries) enc.

Section Lists.
Context `{Rounds} (h : ObjectHandlers).

(** The response to parameters that do not parse. *)
Definition writeParamsError (r : Request) (err : error) : Response :=
  if bool_decide (err = errInvalidMaxKeys) then InvalidArgument r else InvalidRequest r.

Definition ListObjectsV2 (r : Request) : prog World Response :=
  if negb (String.eqb (values_get (rq_query r) "list-type") "2") then Ret (InvalidRequest r)
  else
    let bucketName := chiBucketParam r in
    match parseListObjectsV2Params r with
    | Err err => Ret (writeParamsError r err)
    | Ok params =>
        _ <~! ensureBucketAction h r bucketName ActionListBucket "" (v2_prefix params) ;;
        listed <~ listObjectsV2Entries bucketName params ;;
        match listed with
        | Err _ => Ret (InternalError r)
        | Ok (entries, isTruncated) =>
            Ret (ReplyXml (ListBucketResult (buildListBucketResult bucketName params entries isTruncated)))
        end
    end.

Definition ListObjectsV1 (r : Request) : prog World Response :=
  let bucketName := chiBucketParam r in
  match parseListObjectsV1Params r with
  | Err err => Ret (writeParamsError r err)
  | Ok params =>
      _ <~! ensureBucketAction h r bucketName ActionListBucket "" (v1_prefix params) ;;
      listed <~ listObjectsV1Entries bucketName params ;;
      match listed with
      | Err _ => Ret (InternalError r)
      | Ok (entries, isTruncated) =>
          Ret (ReplyXml (ListBucketV1Result (buildListBucketV1Result bucketName params entries isTruncated)))
      end
  end.

(** The max-keys of [ListObjectVersions]. *)
Definition versions_max_keys (r : Request) : Response + Z :=
  let v := values_get (rq_query r) "max-keys" in
  if String.eqb v "" then inr 1000
  else match parse_int v with
       | None => inl (InvalidArgument r)
       | Some parsed => if parsed <=? 0 then inl (InvalidArgument r) else inr (Z.min parsed 1000)
       end.

Definition version_entry (o : Object) : ListVersionsEntry :=
  MkVersionEntry (o_key o) "null" true (format_RFC3339 (o_updated_at o)) (quoteETag (o_etag o)) (o_size o) "STANDARD".

Definition ListObjectVersions (r : Request) : prog World Response :=
  let bucketName := chiBucketParam r in
  let prefix := values_get (rq_query r) "prefix" in
  _ <~! ensureBucketAction h r bucketName ActionListBucket "" prefix ;;
  maxKeys <~! Ret (versions_max_keys r) ;;
  let keyMarker := values_get (rq_query r) "key-marker" in
  if negb (String.eqb (values_get (rq_query r) "delimiter") "")
  then Ret (WriteS3Error r 501 codeNotImplemented "delimiter is not yet supported")
  else
    listed <~ call (db (ObjectRepository.List bucketName prefix keyMarker maxKeys)) ;;
    match listed with
    | Err _ => Ret (InternalError r)
    | Ok (objects, isTruncated) =>
        let nextKeyMarker := match last objects with
                             | Some o => if (isTruncated : bool) then o_key o else ""
                             | None => ""
                             end in
        Ret (ReplyXml (ListVersionsXml (MkListVersions bucketName prefix keyMarker nextKeyMarker maxKeys
               isTruncated (version_entry <$> objects))))
    end.
End Lists.

(** ** Tokens *)

(** A page's token leads to the next page. For every key that an object may have
    (at most 1024 bytes), the continuation token that a truncated page returns is
    within the length that the next request may send, and decodes to that key. *)
Theorem continuation_token_roundtrip key :
  string_len key <= maxContinuationKeyLen ->
  string_len (encodeContinuationToken key) <= maxContinuationTokenLen /\
  decodeContinuationToken (encodeContinuationToken key) = Ok key.
Proof.
  unfold maxContinuationKeyLen, maxContinuationTokenLen, string_len. intros Hk.
  pose proof (b64_encode_length_raw URLAlphabet key) as Hl.
  assert (Ht : Z.of_nat (String.length (encodeContinuationToken key)) <= 1500)
    by (unfold encodeContinuationToken; lia).
  split; [done|]. unfold decodeContinuationToken, maxContinuationKeyLen, maxContinuationTokenLen, string_len.
  destruct (Z.ltb_spec 1500 (Z.of_nat (String.length (encodeContinuationToken key)))) as [Hlt|_]; [lia|].
  unfold encodeContinuationToken. rewrite b64_decode_encode.
  destruct (Z.ltb_spec 1024 (Z.of_nat (String.length key))) as [Hlt|_]; [lia|done].
Qed.

Lemma continuation_token_roundtrip_witness :
  string_len "photos/2024/cat.jpg" <= maxContinuationKeyLen /\
  encodeContinuationToken "photos/2024/cat.jpg" = "cGhvdG9zLzIwMjQvY2F0LmpwZw" /\
  decodeContinuationToken "cGhvdG9zLzIwMjQvY2F0LmpwZw" = Ok "photos/2024/cat.jpg".
Proof.
  split; [by vm_compute|]. split; [reflexivity|].
  apply (continuation_token_roundtrip "photos/2024/cat.jpg"). by vm_compute.
Defined.

Lemma unescape_plus_to_space s :
  PathUnescape (plus_to_space (QueryEscape s)) = Some s /\ QueryUnescape (plus_to_space (QueryEscape s)) = Some s.
Proof.
  unfold PathUnescape, QueryUnescape, QueryEscape.
  assert (Hx : forall z, 0 <= z < 16 -> Ascii.eqb (upper_hex z) "+" = false).
  { intros z Hz. apply Ascii.eqb_neq. intros E. pose proof (hex_val_upper z Hz) as Hh. by rewrite E in Hh. }
  induction s as [|a s [IH1 IH2]]; [done|]. cbn [escape andb].
  destruct (Ascii.eqb_spec a " ") as [->|Hs]; [cbn -[escape]; by rewrite IH1, IH2|].
  destruct (is_unreserved a) eqn:Ek.
  - cbn [plus_to_space]. destruct (Ascii.eqb_spec a "+") as [->|Hp]; [done|].
    cbn [unescape andb]. destruct (Ascii.eqb_spec a "%") as [->|_]; [done|].
    apply Ascii.eqb_neq in Hp as ->. by rewrite IH1, IH2.
  - pose proof (byte_val_range a).
    assert (0 <= byte_val a / 16 < 16) by (split; [apply Z.div_pos; lia|apply Z.div_lt_upper_bound; lia]).
    assert (0 <= byte_val a mod 16 < 16) by (apply Z.mod_pos_bound; lia).
    cbn [plus_to_space]. rewrite !Hx by done. cbn -[hex_val upper_hex escape plus_to_space Z.mul Z.add].
    rewrite !hex_val_upper by done. rewrite IH1, IH2. cbn. by rewrite byte_hex_join.
Qed.

(** An encoded listing decodes to its keys. With encoding-type=url, percent
    decoding - as a path, or as a query component - gives back exactly the value that
    [encodeListValue] encoded; without it, the value is unchanged. *)
Theorem encodeListValue_roundtrip value encodingType :
  if String.eqb encodingType "url"
  then PathUnescape (encodeListValue value encodingType) = Some value /\
       QueryUnescape (encodeListValue value encodingType) = Some value
  else encodeListValue value encodingType = value.
Proof.
  unfold encodeListValue. destruct (String.eqb encodingType "url"); [apply unescape_plus_to_space|done].
Qed.
