(* ===== verification/ListingSpec.v ===== *)
(** * What a listing shows: paging through [ListObjectsV2]

    The grouping query of [ListDelimited] counts characters, as SQLite does; for valid
    UTF-8 it is the grouping of byte strings that the S3 protocol has. A client that
    follows the continuation tokens then sees every object or its common prefix once. *)

From S2P Require Import Prelude GoStrings Encoding GoTime GoUrl Effects Os Sanitize DiskEngine Schema Db Iam Authz ObjectRepo BucketRepo ObjectOps Prog S3Http S3Xml S3Access S3Lists CachedBucketRepo CachedObjectRepo CachedRepo.

Import ObjectRepository ObjectListing.

(** ** Characters of valid text *)

Definition all_cont (s : string) : bool := forallb is_cont (String.list_ascii_of_string s).

(** A text that is valid is empty or starts with one character. *)
Inductive first_char (s : string) : Prop :=
  | no_char : s = "" -> first_char s
  | one_char a cs rest :
      s = String a (cs +:+ rest) -> is_cont a = false -> all_cont cs = true -> (cs = "" \/ is_lead a = true) ->
      valid_utf8 rest = true -> rune_count s = S (rune_count rest) ->
      (forall x, valid_utf8 (String a (cs +:+ x)) = valid_utf8 x) -> first_char s.

Lemma between_weaken lo hi lo' hi' a :
  between lo hi a = true -> (lo' <= lo)%Z -> (hi <= hi')%Z -> between lo' hi' a = true.
Proof. unfold between. rewrite !andb_true_iff, !Z.leb_le. lia. Qed.

Lemma utf8_lead_spec a n second :
  utf8_lead a = Some (n, second) ->
  is_cont a = false /\ is_lead a = true /\ (byte_val a <? 128)%Z = false /\ (n = 1 \/ n = 2 \/ n = 3) /\
  forall b, second b = true -> is_cont b = true.
Proof.
  unfold utf8_lead. intros H. repeat case_match; simplify_eq;
    match goal with H : between _ _ a = true |- _ => unfold between in H; apply andb_true_iff in H as [?%Z.leb_le ?%Z.leb_le] end;
    (split_and!; [unfold is_cont, between; apply andb_false_iff; right; apply Z.leb_gt; lia
                 |apply Z.leb_le; lia|apply Z.ltb_ge; lia|tauto
                 |intros b Hb; done || (eapply between_weaken; [exact Hb|lia..])]).
Qed.

Lemma valid_first_char s : valid_utf8 s = true -> first_char s.
Proof.
  destruct s as [|a s1]; [by constructor|]. cbn [valid_utf8]. destruct (byte_val a <? 128)%Z eqn:Ea.
  - intros Hv. apply Z.ltb_lt in Ea. assert (Hl : utf8_lead a = None).
    { destruct (utf8_lead a) as [[n second]|] eqn:E; [|done]. apply utf8_lead_spec in E as (_ & _ & E & _).
      by apply Z.ltb_ge in E; lia. }
    apply (one_char _ a "" s1); try done; [|by left|cbn [rune_count]; by rewrite Hl|intros x; cbn; by rewrite (proj2 (Z.ltb_lt _ _) Ea)].
    unfold is_cont, between. apply andb_false_iff. left. apply Z.leb_gt. lia.
  - destruct (utf8_lead a) as [[n second]|] eqn:E; [|done].
    pose proof E as (Hc & Hl & _ & Hn & Hsec)%utf8_lead_spec.
    destruct Hn as [->|[->| ->]]; cbn [rune_count]; rewrite ?E.
    + destruct s1 as [|b s2]; [done|]. intros [Hb Hv]%andb_true_iff.
      apply (one_char _ a (String b "") s2); cbn [rune_count all_cont]; rewrite ?E, ?Hb; auto.
      * unfold all_cont. cbn. by rewrite Hsec.
      * intros x. cbn. by rewrite Ea, E, Hb.
    + destruct s1 as [|b [|c s3]]; [done..|]. intros [[Hb Hcc]%andb_true_iff Hv]%andb_true_iff.
      apply (one_char _ a (String b (String c "")) s3); cbn [rune_count all_cont]; rewrite ?E, ?Hb, ?Hcc; auto.
      * unfold all_cont. cbn. by rewrite Hsec, Hcc.
      * intros x. cbn. by rewrite Ea, E, Hb, Hcc.
    + destruct s1 as [|b [|c [|d s4]]]; [done..|]. intros [[[Hb Hcc]%andb_true_iff Hd]%andb_true_iff Hv]%andb_true_iff.
      apply (one_char _ a (String b (String c (String d ""))) s4); cbn [rune_count all_cont]; rewrite ?E, ?Hb, ?Hcc, ?Hd; auto.
      * unfold all_cont. cbn. by rewrite Hsec, Hcc, Hd.
      * intros x. cbn. by rewrite Ea, E, Hb, Hcc, Hd.
Qed.

Lemma valid_starts_char s : valid_utf8 s = true -> starts_char s = true.
Proof. intros [->|a cs rest -> Ha _ _ _ _ _]%valid_first_char; [done|]. cbn. by rewrite Ha. Qed.

Lemma split_cont cs rest :
  all_cont cs = true -> starts_char rest = true -> split_chars true (cs +:+ rest) = (cs, sql_chars rest).
Proof.
  intros Hcs Hr. induction cs as [|c cs IH].
  - cbn [String.append]. rewrite split_chars_start by done. unfold sql_chars. pose proof (split_chars_out rest) as H.
    destruct (split_chars false rest). cbn in *. by subst.
  - unfold all_cont in Hcs. cbn in Hcs. apply andb_true_iff in Hcs as [Hc Hcs]. cbn. rewrite Hc. cbn. by rewrite IH.
Qed.

Lemma sql_chars_first a cs rest :
  is_cont a = false -> all_cont cs = true -> (cs = "" \/ is_lead a = true) -> starts_char rest = true ->
  sql_chars (String a (cs +:+ rest)) = String a cs :: sql_chars rest.
Proof.
  intros Ha Hcs Hl Hr. unfold sql_chars. cbn [split_chars]. rewrite andb_false_l. destruct Hl as [->|Hl].
  - cbn [String.append]. rewrite split_chars_start by done. pose proof (split_chars_out rest) as H.
    destruct (split_chars false rest). cbn in *. by subst.
  - rewrite Hl, split_cont by done. done.
Qed.

(** An induction along the characters of a valid text. *)
Lemma valid_ind (P : string -> Prop) :
  P "" ->
  (forall a cs rest, is_cont a = false -> all_cont cs = true -> (cs = "" \/ is_lead a = true) -> valid_utf8 rest = true ->
     rune_count (String a (cs +:+ rest)) = S (rune_count rest) ->
     (forall x, valid_utf8 (String a (cs +:+ x)) = valid_utf8 x) -> P rest -> P (String a (cs +:+ rest))) ->
  forall s, valid_utf8 s = true -> P s.
Proof.
  intros H0 H1 s. remember (String.length s) as n eqn:En. revert s En.
  induction (lt_wf n) as [n _ IH]. intros s -> Hv. pose proof (valid_first_char s Hv) as [->|a cs rest E Ha Hcs Hl Hr Hn Hx]; [done|].
  rewrite E in Hn. rewrite E. apply H1; try done. eapply IH; [|done..]. subst s. cbn. rewrite length_append. lia.
Qed.

Lemma rune_count_sql s : valid_utf8 s = true -> rune_count s = sql_length s.
Proof.
  revert s. apply valid_ind; [done|]. intros a cs rest Ha Hcs Hl Hv -> _ IH. unfold sql_length in *.
  rewrite sql_chars_first by (done || by apply valid_starts_char). cbn. by rewrite IH.
Qed.

Lemma valid_append p r : valid_utf8 p = true -> valid_utf8 (p +:+ r) = valid_utf8 r.
Proof.
  revert p. apply valid_ind; [done|]. intros a cs rest _ _ _ _ _ Hx IH. cbn [String.append].
  by rewrite append_assoc, Hx, IH.
Qed.

Lemma sql_chars_valid s t : valid_utf8 t = true -> sql_chars (s +:+ t) = sql_chars s ++ sql_chars t.
Proof. intros Ht. by apply sql_chars_append, valid_starts_char. Qed.

(** ** Common prefixes *)

(** The text up to the end of the first occurrence of the delimiter. *)
Fixpoint cut_after (d s : string) : option string :=
  if has_prefix s d then Some d
  else match s with EmptyString => None | String a r => String a <$> cut_after d r end.

(** What the S3 protocol puts in the place of a key with the prefix [p]: the key up to the
    first delimiter after the prefix, if there is one. *)
Definition common_prefix (p d key : string) : option string :=
  if String.eqb d "" then None
  else String.append p <$> cut_after d (drop_bytes (String.length p) key).

Lemma cont_no_prefix c s d : valid_utf8 d = true -> d <> "" -> is_cont c = true -> has_prefix (String c s) d = false.
Proof.
  intros Hv%valid_starts_char Hne Hc. destruct d as [|a d]; [done|]. cbn [has_prefix starts_char] in *. destruct (Ascii.eqb_spec c a) as [->|_]; [|reflexivity].
  by rewrite Hc in Hv.
Qed.

Lemma cut_after_cont d cs x :
  valid_utf8 d = true -> d <> "" -> all_cont cs = true -> cut_after d (cs +:+ x) = String.append cs <$> cut_after d x.
Proof.
  intros Hv Hne. induction cs as [|c cs IH]; intros Hcs.
  { cbn [String.append]. by destruct (cut_after d x). }
  unfold all_cont in Hcs. cbn in Hcs. apply andb_true_iff in Hcs as [Hc Hcs]. cbn [String.append cut_after].
  rewrite cont_no_prefix, IH by done. by destruct (cut_after d x).
Qed.

(** The first occurrence in bytes is the first in characters. *)
Lemma instr_spec d x n :
  valid_utf8 d = true -> d <> "" -> valid_utf8 x = true ->
  match cut_after d x with
  | Some c => exists m r, c = m +:+ d /\ x = c +:+ r /\ valid_utf8 m = true /\ valid_utf8 r = true /\
                instr_chars (S n) (sql_chars x) d = S n + sql_length m
  | None => instr_chars (S n) (sql_chars x) d = 0
  end.
Proof.
  intros Hd Hne Hx. revert x Hx n. apply (valid_ind (fun x => forall n, _)).
  - intros n. cbn. destruct d; [done|]. done.
  - intros a cs rest Ha Hcs Hl Hv _ Hx IH n.
    rewrite sql_chars_first by (done || by apply valid_starts_char).
    cbn [instr_chars cut_after]. change (concat_chars (String a cs :: sql_chars rest)) with (String a cs +:+ concat_chars (sql_chars rest)).
    rewrite concat_sql_chars. cbn [String.append].
    destruct (has_prefix (String a (cs +:+ rest)) d) eqn:Ep.
    + apply has_prefix_spec in Ep as [r Er]. exists "", r. split_and!; [done|done|done| |cbn; lia].
      by rewrite <- (valid_append d), <- Er, Hx.
    + rewrite cut_after_cont by done. specialize (IH (S n)). destruct (cut_after d rest) as [c|]; [|exact IH].
      destruct IH as (m & r & -> & Erest & Hm & Hr & ->). cbn [fmap option_fmap option_map]. exists (String a (cs +:+ m)), r.
      split_and!; [cbn; by rewrite append_assoc|cbn; by rewrite Erest, !append_assoc|by rewrite Hx|done|].
      unfold sql_length. rewrite sql_chars_first by (done || by apply valid_starts_char). cbn. lia.
Qed.

(** The virtual key is the common prefix, if there is one. *)
Lemma virtual_key_spec p d rest :
  valid_utf8 p = true -> valid_utf8 d = true -> valid_utf8 rest = true ->
  virtual_key (rune_count p) d (p +:+ rest) =
  match common_prefix p d (p +:+ rest) with Some c => (c, true) | None => (p +:+ rest, false) end.
Proof.
  intros Hp Hd Hr. unfold virtual_key, common_prefix. destruct (String.eqb_spec d "") as [->|Hne]; [done|].
  rewrite rune_count_sql, drop_bytes_append by done. cbn [negb]. rewrite andb_true_l.
  assert (Efrom : sql_from (sql_length p) (p +:+ rest) = rest).
  { unfold sql_from, sql_length. by rewrite sql_chars_valid, drop_app_length, concat_sql_chars by done. }
  rewrite Efrom. pose proof (instr_spec d rest 0 Hd Hne Hr) as H. unfold sql_instr. destruct (cut_after d rest) as [c|]; [|by rewrite H].
  destruct H as (m & r & -> & -> & Hm & Hv & ->). cbn [fmap option_fmap option_map]. rewrite (proj2 (Nat.ltb_lt 0 _)) by lia.
  f_equal. unfold sql_left, sql_length.
  replace (p +:+ ((m +:+ d) +:+ r)) with ((p +:+ (m +:+ d)) +:+ r) by by rewrite append_assoc.
  assert (Hmd : valid_utf8 (m +:+ d) = true) by by rewrite valid_append.
  rewrite sql_chars_valid, (sql_chars_valid p), (sql_chars_valid m) by done.
  rewrite take_app_le by (rewrite !length_app; lia). rewrite take_ge by (rewrite !length_app; lia).
  by rewrite !concat_chars_app, !concat_sql_chars.
Qed.

Lemma raw_condition_spec p after key :
  valid_utf8 p = true -> valid_utf8 key = true ->
  raw_condition p (rune_count p) after key = text_after key after && has_prefix key p.
Proof.
  intros Hp Hk. unfold raw_condition. f_equal. apply eq_true_iff_eq. rewrite orb_true_iff, !String.eqb_eq, has_prefix_spec. split.
  - intros [->|E]; [by exists key|]. rewrite <- E. apply has_prefix_spec, sql_left_prefix.
  - intros [r ->]. right. rewrite valid_append in Hk by done. rewrite rune_count_sql by done. unfold sql_left, sql_length.
    by rewrite sql_chars_valid, take_app_length, concat_sql_chars by done.
Qed.

Lemma has_prefix_short x r d : String.length d <= String.length x -> has_prefix (x +:+ r) d = has_prefix x d.
Proof.
  revert x; induction d as [|a d IH]; intros [|b x] Hl; cbn in *; try done; [lia|]. by rewrite IH by lia.
Qed.

Lemma cut_after_prefix d s : has_prefix s d = true -> cut_after d s = Some d.
Proof. destruct s as [|a s]; cbn [cut_after]; by intros ->. Qed.

Lemma cut_after_split d s c : cut_after d s = Some c -> exists m r, c = m +:+ d /\ s = c +:+ r.
Proof.
  revert c; induction s as [|a s IH]; intros c; cbn [cut_after].
  - destruct (has_prefix "" d) eqn:E; [|done]. intros [= <-]. apply has_prefix_spec in E as [r E]. by exists "", r.
  - destruct (has_prefix (String a s) d) eqn:E.
    + intros [= <-]. apply has_prefix_spec in E as [r E]. by exists "", r.
    + destruct (cut_after d s) as [c'|]; [|done]. intros [= <-]. destruct (IH c' eq_refl) as (m & r & -> & ->).
      by exists (String a m), r.
Qed.

(** What follows the first occurrence does not matter. *)
Lemma cut_after_ext d s c r' : cut_after d s = Some c -> cut_after d (c +:+ r') = Some c.
Proof.
  revert c; induction s as [|a s IH]; intros c; cbn [cut_after].
  - destruct (has_prefix "" d); [|done]. intros [= <-]. apply cut_after_prefix, has_prefix_append.
  - destruct (has_prefix (String a s) d) eqn:E.
    + intros [= <-]. apply cut_after_prefix, has_prefix_append.
    + destruct (cut_after d s) as [c'|] eqn:Ec; [|done]. intros [= <-]. specialize (IH c' eq_refl).
      destruct (cut_after_split _ _ _ Ec) as (m & r & -> & ->). cbn [String.append cut_after]. rewrite IH.
      replace (has_prefix (String a ((m +:+ d) +:+ r')) d) with false; [done|]. symmetry. rewrite <- E.
      change (has_prefix (String a (m +:+ d) +:+ r') d = has_prefix (String a (m +:+ d) +:+ r) d).
      rewrite !has_prefix_short; [done|cbn; rewrite length_append; lia..].
Qed.

Lemma common_prefix_split p d k c : has_prefix k p = true -> common_prefix p d k = Some c -> has_prefix c p = true /\ has_prefix k c = true.
Proof.
  unfold common_prefix. destruct (String.eqb d ""); [done|]. intros [r ->]%has_prefix_spec. rewrite drop_bytes_append.
  destruct (cut_after d r) as [c'|] eqn:E; [|done]. intros [= <-]. split; [apply has_prefix_append|].
  destruct (cut_after_split _ _ _ E) as (m & r' & -> & ->). rewrite <- append_assoc. apply has_prefix_append.
Qed.

Lemma common_prefix_ext p d k c r : common_prefix p d k = Some c -> common_prefix p d (c +:+ r) = Some c.
Proof.
  unfold common_prefix. destruct (String.eqb d ""); [done|]. intros E. apply fmap_Some in E as (c' & E & ->).
  rewrite append_assoc, drop_bytes_append. by rewrite (cut_after_ext _ _ _ _ E).
Qed.

(** ** The order of texts *)

Lemma ltb_cons a b s t : String.ltb (String a s) (String b t) = match Ascii.compare a b with Eq => String.ltb s t | Lt => true | Gt => false end.
Proof. unfold String.ltb. cbn. by destruct (Ascii.compare a b). Qed.

Lemma prefix_le k v : has_prefix k v = true -> String.le v k.
Proof.
  intros [r ->]%has_prefix_spec. destruct (decide (r = "")) as [->|Hr]; [by rewrite append_nil_r|]. apply ltb_lt.
  induction v as [|a v IH]; [by destruct r|]. cbn [String.append]. rewrite ltb_cons.
  unfold Ascii.compare. by rewrite N.compare_refl.
Qed.

(** Behind a group come only keys behind all that the group can have. *)
Lemma ltb_extend v w x : String.ltb v w = true -> has_prefix w v = false -> String.ltb (v +:+ x) w = true.
Proof.
  revert w; induction v as [|a v IH]; intros [|b w] Hlt Hp; try done. cbn [String.append]. rewrite ltb_cons in *.
  destruct (Ascii.compare a b) eqn:E; [|done|done]. apply Ascii.compare_eq_iff in E as ->. cbn [has_prefix] in Hp.
  rewrite Ascii.eqb_refl in Hp. by apply IH.
Qed.

(** ** The groups of a bucket *)

(** What stands for a key in a listing, and whether that is a common prefix. *)
Definition group (p d key : string) : string * bool :=
  match common_prefix p d key with Some c => (c, true) | None => (key, false) end.

Lemma group_prefix p d k : has_prefix k p = true -> has_prefix k (group p d k).1 = true.
Proof.
  unfold group. intros Hp. destruct (common_prefix p d k) as [c|] eqn:E; [by apply (common_prefix_split p d)|].
  apply has_prefix_spec. exists "". by rewrite append_nil_r.
Qed.

(** A key that extends a common prefix is in its group. *)
Lemma group_ext p d k k' : (group p d k).2 = true -> has_prefix k' (group p d k).1 = true -> group p d k' = group p d k.
Proof.
  unfold group. destruct (common_prefix p d k) as [c|] eqn:E; [|done]. intros _ [r ->]%has_prefix_spec. cbn.
  by rewrite (common_prefix_ext _ _ _ _ r E).
Qed.

Lemma group_flag p d k k' : has_prefix k' p = true -> (group p d k').1 = (group p d k).1 -> (group p d k').2 = (group p d k).2 \/ (group p d k).2 = false.
Proof.
  intros Hp E. destruct (group p d k).2 eqn:E2; [|by right]. left.
  assert (group p d k' = group p d k) as -> by (apply group_ext; [done|]; rewrite <- E; by apply group_prefix). done.
Qed.

Lemma group_same p d k k' :
  has_prefix k p = true -> has_prefix k' p = true -> (group p d k).1 = (group p d k').1 -> group p d k = group p d k'.
Proof.
  intros Hp Hp' E. apply injective_projections; [done|].
  destruct (group_flag p d k k' Hp' (eq_sym E)) as [?|E2]; [done|].
  destruct (group_flag p d k' k Hp E) as [?|?]; congruence.
Qed.

(** [GROUP BY], over any keys. *)
Lemma group_keys_spec n d keys v :
  match group_keys n d keys !! v with
  | Some (cursor, cp) =>
      cursor ∈ keys /\ (virtual_key n d cursor).1 = v /\
      (forall k, k ∈ keys -> (virtual_key n d k).1 = v -> String.le k cursor) /\
      (cp = true <-> exists k, k ∈ keys /\ virtual_key n d k = (v, true))
  | None => forall k, k ∈ keys -> (virtual_key n d k).1 <> v
  end.
Proof.
  unfold group_keys. induction keys as [|x keys IH] using rev_ind.
  { cbn [fold_left]. rewrite lookup_empty. by intros k ?%not_elem_of_nil. }
  rewrite fold_left_app. cbn [fold_left]. set (m := fold_left _ keys ∅) in *. unfold add_to_group.
  destruct (virtual_key n d x) as [vx cx] eqn:Ex. destruct (decide (vx = v)) as [->|Hne].
  - rewrite lookup_insert_eq. destruct (m !! v) as [[cursor cp]|] eqn:Em.
    + destruct IH as (Hin & Hv & Hmax & Hcp). unfold max_text. split_and!.
      * destruct (String.leb cursor x); apply elem_of_app; [right; by apply list_elem_of_singleton|by left].
      * destruct (String.leb cursor x); [by rewrite Ex|done].
      * intros k [Hk| ->%list_elem_of_singleton]%elem_of_app Hkv.
        -- destruct (String.leb cursor x) eqn:El; [|by apply Hmax]. etrans; [by apply Hmax|by apply Is_true_true].
        -- destruct (String.leb cursor x) eqn:El; [reflexivity|]. destruct (String.le_total cursor x) as [H|H]; [|done].
           apply Is_true_true in H. congruence.
      * rewrite orb_true_iff, Hcp. split.
        -- intros [(k & Hk & Hkv)| ->]; [exists k; split; [by apply elem_of_app; left|done]|exists x; split; [apply elem_of_app; right; by left|done]].
        -- intros (k & [Hk| ->%list_elem_of_singleton]%elem_of_app & Hkv); [left; eauto|right; congruence].
    + split_and!; [apply elem_of_app; right; by left|by rewrite Ex| |].
      * intros k [Hk| ->%list_elem_of_singleton]%elem_of_app Hkv; [by destruct (IH k Hk)|reflexivity].
      * split; [intros ->; exists x; split; [apply elem_of_app; right; by left|done]|].
        intros (k & [Hk| ->%list_elem_of_singleton]%elem_of_app & Hkv); [|congruence].
        destruct (IH k Hk). by rewrite Hkv.
  - rewrite lookup_insert_ne by done. destruct (m !! v) as [[cursor cp]|] eqn:Em.
    + destruct IH as (Hin & Hv & Hmax & Hcp). split_and!; [by apply elem_of_app; left|done| |].
      * intros k [Hk| ->%list_elem_of_singleton]%elem_of_app; [by apply Hmax|by rewrite Ex].
      * rewrite Hcp. split; intros (k & Hk & Hkv); exists k; (split; [|done]); [by apply elem_of_app; left|].
        apply elem_of_app in Hk as [Hk| ->%list_elem_of_singleton]; [done|]. rewrite Hkv in Ex. congruence.
    + intros k [Hk| ->%list_elem_of_singleton]%elem_of_app; [by apply IH|by rewrite Ex].
Qed.

Section Groups.
Context (b p d : string) (t : Tables).
Context (Hp : valid_utf8 p = true) (Hd : valid_utf8 d = true).
Context (Hkeys : forall key row, t_objects t !! (b, key) = Some row -> valid_utf8 key = true).

(** The keys that a listing is about. *)
Definition listed (after key : string) : Prop :=
  is_Some (t_objects t !! (b, key)) /\ has_prefix key p = true /\ text_after key after = true.

Definition raw_keys (after : string) : list string :=
  o_key <$> select_objects b (raw_condition p (rune_count p) after) t.

Lemma elem_of_raw_keys after key : key ∈ raw_keys after <-> listed after key.
Proof.
  unfold raw_keys, listed. rewrite list_elem_of_fmap. split.
  - intros (o & -> & (r & Hr & Hc & Ho)%elem_of_select_objects).
    rewrite raw_condition_spec in Hc by (done || by eapply Hkeys). apply andb_true_iff in Hc as [? ?]. eauto.
  - intros ([r Hr] & Hpre & Haf). exists (scanObject b key r). split; [done|]. apply elem_of_select_objects. exists r.
    split; [done|]. split; [|done]. change (o_key (scanObject b key r)) with key.
    rewrite raw_condition_spec by (done || by eapply Hkeys). by rewrite Haf, Hpre.
Qed.

Lemma listed_virtual after key : listed after key -> virtual_key (rune_count p) d key = group p d key.
Proof.
  intros ([r Hr] & [rest ->]%has_prefix_spec & _). assert (Hv := Hkeys _ _ Hr). rewrite valid_append in Hv by done.
  by apply virtual_key_spec.
Qed.

(** The last key of a group. *)
Definition last_of_group (after v cursor : string) : Prop :=
  listed after cursor /\ (group p d cursor).1 = v /\
  forall k, listed after k -> (group p d k).1 = v -> String.le k cursor.

Definition entry_of (v cursor : string) : DelimitedListEntry :=
  MkEntry v cursor (group p d cursor).2
    (if (group p d cursor).2 then None
     else Some (match t_objects t !! (b, v) with
                | Some r => MkObject (or_id r) b v (or_size r) (or_etag r) (or_content_type r) (or_storage_path r)
                              (or_created_at r) (or_updated_at r) false 0 "" "" "" "" "" None
                | None => MkObject "" "" "" 0 "" "" "" 0 0 false 0 "" "" "" "" "" None
                end)).

Lemma grouped_spec after v cursor cp :
  group_keys (rune_count p) d (raw_keys after) !! v = Some (cursor, cp) <->
  last_of_group after v cursor /\ cp = (group p d cursor).2.
Proof.
  assert (Hvk : forall k, k ∈ raw_keys after -> virtual_key (rune_count p) d k = group p d k)
    by (intros k Hk%elem_of_raw_keys; by eapply listed_virtual).
  pose proof (group_keys_spec (rune_count p) d (raw_keys after) v) as H. split.
  - intros E. rewrite E in H. destruct H as (Hin & Hv & Hmax & Hcp). rewrite Hvk in Hv by done.
    split; [split; [by apply elem_of_raw_keys|]; split; [done|]|].
    + intros k Hk%elem_of_raw_keys Hkv. apply Hmax; [done|]. by rewrite Hvk.
    + apply eq_true_iff_eq. rewrite Hcp. split.
      * intros (k & Hk & Hkv). rewrite Hvk in Hkv by done. apply elem_of_raw_keys in Hk as (_ & Hk & _), Hin as (_ & Hin & _).
        rewrite (group_same p d cursor k), Hkv by (done || by rewrite Hkv). done.
      * intros Hf. exists cursor. split; [done|]. rewrite Hvk by done. by apply injective_projections.
  - intros [(Hl & Hv & Hmax) ->]. destruct (group_keys (rune_count p) d (raw_keys after) !! v) as [[cursor' cp']|].
    + destruct H as (Hin & Hv' & Hmax' & Hcp). rewrite Hvk in Hv' by done.
      assert (cursor' = cursor) as ->.
      { apply (anti_symm String.le); [apply Hmax; [by apply elem_of_raw_keys|done]|apply Hmax'; [by apply elem_of_raw_keys|]].
        by rewrite (listed_virtual after). }
      do 2 f_equal. apply eq_true_iff_eq. rewrite Hcp. split.
      * intros (k & Hk & Hkv). rewrite Hvk in Hkv by done. apply elem_of_raw_keys in Hk as (_ & Hk & _). destruct Hl as (_ & Hl & _).
        rewrite (group_same p d cursor k), Hkv by (done || by rewrite Hkv). done.
      * intros Hf. exists cursor. split; [done|]. rewrite Hvk by done. by apply injective_projections.
    + destruct (H cursor); [by apply elem_of_raw_keys|]. by rewrite (listed_virtual after).
Qed.

Lemma elem_of_groups after e :
  e ∈ select_groups b p after d t <->
  exists v cursor, last_of_group after v cursor /\ text_after v after = true /\ e = entry_of v cursor.
Proof.
  unfold select_groups. rewrite merge_sort_Permutation, list_elem_of_fmap. fold (raw_keys after). split.
  - intros ([v [cursor cp]] & -> & [Haf [Hg ->]%elem_of_map_to_list%grouped_spec]%list_elem_of_filter).
    by exists v, cursor.
  - intros (v & cursor & Hg & Haf & ->). exists (v, (cursor, (group p d cursor).2)). split; [done|].
    apply list_elem_of_filter. split; [done|]. by apply elem_of_map_to_list, grouped_spec.
Qed.

(** Starting later only drops the groups before the start. *)
Lemma last_of_group_start after v cursor :
  text_after v after = true -> last_of_group after v cursor <-> last_of_group "" v cursor.
Proof.
  intros Hv. assert (Hl : forall k, (group p d k).1 = v -> listed after k <-> listed "" k).
  { intros k Hk. unfold listed. split; intros (Hs & Hpre & Haf); (split; [done|]); (split; [done|]).
    - apply text_after_spec in Haf as [_ Hne]. apply text_after_spec. split; [by destruct k|]. intros <-.
      rewrite <- Hk in Hv. assert (Hx := group_prefix p d "" Hpre). destruct (group p d "").1; [|done].
      apply text_after_spec in Hv as [Hle Hne']. by destruct after.
    - assert (Hle := prefix_le _ _ (group_prefix p d k Hpre)). rewrite Hk in Hle.
      apply text_after_spec in Hv as [Hle' Hne]. apply text_after_spec. split; [by etrans|]. intros ->. apply Hne.
      by apply (anti_symm String.le). }
  unfold last_of_group. split; intros (Hc & Hcv & Hmax); (split; [by apply Hl|]); (split; [done|]);
    intros k Hk Hkv; (apply Hmax; [by apply Hl|done]).
Qed.

Lemma groups_sorted after : StronglySorted (by_text e_virtual_key) (select_groups b p after d t).
Proof. apply StronglySorted_merge_sort; apply _. Qed.

Lemma groups_inj after e e' :
  e ∈ select_groups b p after d t -> e' ∈ select_groups b p after d t -> e_virtual_key e = e_virtual_key e' -> e = e'.
Proof.
  intros (v & c & (Hl & Hv & Hmax) & _ & ->)%elem_of_groups (v' & c' & (Hl' & Hv' & Hmax') & _ & ->)%elem_of_groups.
  cbn. intros <-. f_equal. apply (anti_symm String.le); [by apply Hmax'|by apply Hmax].
Qed.

Lemma groups_NoDup after : NoDup (select_groups b p after d t).
Proof.
  unfold select_groups. rewrite merge_sort_Permutation. apply NoDup_fmap_2_strong; [|apply NoDup_filter, NoDup_map_to_list].
  intros [v [c f]] [v' [c' f']] _ _ [= -> -> -> _]. done.
Qed.

Lemma select_groups_start after :
  select_groups b p after d t = filter (fun e => text_after (e_virtual_key e) after = true) (select_groups b p "" d t).
Proof.
  apply (sorted_by_unique e_virtual_key).
  - intros x y. apply groups_inj.
  - apply groups_sorted.
  - apply StronglySorted_filter, groups_sorted.
  - apply NoDup_Permutation; [apply groups_NoDup|apply NoDup_filter, groups_NoDup|]. intros e.
    rewrite list_elem_of_filter, !elem_of_groups. split.
    + intros (v & c & Hg & Haf & ->). split; [done|]. exists v, c. rewrite last_of_group_start in Hg by done.
      split; [done|]. split; [|done]. destruct v; [|done]. by destruct after.
    + intros (Haf & v & c & Hg & _ & ->). exists v, c. split; [|done]. by apply last_of_group_start.
Qed.
End Groups.

(** ** The pages of a listing *)

Section Pages.
Context (b p d : string) (t : Tables).
Context (Hp : valid_utf8 p = true) (Hd : valid_utf8 d = true).
Context (Hkeys : forall key row, t_objects t !! (b, key) = Some row -> valid_utf8 key = true).

(** Everything that a listing which starts after a text has to show. *)
Definition entries (after : string) : list listEntry :=
  if String.eqb d "" then object_entry <$> full_listing b p after t
  else delimited_entry <$> select_groups b p after d t.

(** Behind the last key of a group the next group begins. *)
Lemma groups_resume after l1 x l2 :
  select_groups b p after d t = l1 ++ x :: l2 -> select_groups b p (e_cursor_key x) d t = l2.
Proof.
  intros E.
  assert (Hin : forall e, e ∈ l1 ++ x :: l2 -> e ∈ select_groups b p after d t) by by rewrite E.
  assert (Hx : exists v cursor, last_of_group b p d t after v cursor /\ text_after v after = true /\ x = entry_of b p d t v cursor).
  { apply elem_of_groups, Hin; [done..|]. apply elem_of_app. right. by left. }
  destruct Hx as (v & cursor & (Hl & Hv & Hmax) & Haf & Ex).
  assert (Hvc : String.le v cursor) by (rewrite <- Hv; apply prefix_le, group_prefix; by destruct Hl as (_ & ? & _)).
  assert (Hca : text_after cursor after = true) by by destruct Hl as (_ & _ & ?).
  assert (Efilter : select_groups b p (e_cursor_key x) d t =
                    filter (fun e => text_after (e_virtual_key e) (e_cursor_key x) = true) (l1 ++ x :: l2)).
  { rewrite <- E, (select_groups_start b p d t Hp Hd Hkeys (e_cursor_key x)), (select_groups_start b p d t Hp Hd Hkeys after).
    rewrite list_filter_filter. apply list_filter_iff. intros e. split; [|by intros [? _]]. intros He. split; [done|].
    rewrite Ex in He. by apply (text_after_trans _ cursor). }
  rewrite Efilter. assert (Hs := groups_sorted b p d t after). rewrite E in Hs.
  apply StronglySorted_app in Hs as (H12 & _ & H2). apply StronglySorted_cons in H2 as [Hx2 _]. rewrite Forall_forall in Hx2.
  assert (Hn := groups_NoDup b p d t after). rewrite E in Hn. apply NoDup_app in Hn as (_ & Hn12 & [Hnx _]%NoDup_cons).
  rewrite filter_app, filter_cons. subst x. cbn [e_cursor_key entry_of e_virtual_key] in *.
  rewrite decide_False by (rewrite text_after_spec; intros [Hle Hne]; apply Hne; by apply (anti_symm String.le)).
  replace (filter _ l1) with (@nil DelimitedListEntry); [cbn|symmetry].
  - apply list_filter_all. intros e He. assert (Hle := Hx2 e He). unfold by_text in Hle. cbn in Hle.
    assert (Hmem : e ∈ select_groups b p after d t) by (apply Hin, elem_of_app; right; by right).
    assert (Hne : v <> e_virtual_key e).
    { intros Ev. apply Hnx. erewrite (groups_inj b p d t Hp Hd Hkeys after (entry_of b p d t v cursor) e); [exact He| |done|exact Ev].
      apply Hin, elem_of_app. right. by left. }
    apply elem_of_groups in Hmem as (ve & ce & (Hle' & Hve & _) & _ & ->); [|done..]. cbn [e_virtual_key entry_of] in *.
    destruct (group p d cursor).2 eqn:Ef; [|by apply text_after_spec; unfold group in *; destruct (common_prefix p d cursor); simplify_eq].
    assert (Hext : has_prefix ve v = false).
    { apply not_true_iff_false. intros Hpre. apply Hne. rewrite <- Hv, <- Hve. f_equal. symmetry. apply group_ext; [done|].
      rewrite Hv. destruct Hle' as (_ & Hcp & _). apply (has_prefix_trans _ ve); [|done]. rewrite <- Hve. by apply group_prefix. }
    assert (Hcv : has_prefix cursor v = true) by (rewrite <- Hv; apply group_prefix; by destruct Hl as (_ & ? & _)).
    apply has_prefix_spec in Hcv as [rest ->]. apply ltb_extend; [|done]. by apply ltb_lt.
  - apply list_filter_none. intros e He. rewrite text_after_spec. intros [Hle Hne]. apply Hne. apply (anti_symm String.le); [done|].
    etrans; [|exact Hvc]. by apply (H12 e (entry_of b p d t v cursor)); [|left].
Qed.

(** A page that ends with [x] is continued behind the cursor of [x]. *)
Lemma entries_resume after n x :
  last (take n (entries after)) = Some x -> entries (le_cursor x) = drop n (entries after).
Proof.
  unfold entries. destruct (String.eqb d ""); rewrite <- !fmap_take, fmap_last, <- fmap_drop.
  - destruct (last (take n (full_listing b p after t))) as [o|] eqn:El; [|done]. intros [= <-]. f_equal.
    apply last_Some in El as [l1 El]. apply (full_listing_after b p after t l1 o).
    by rewrite <- (take_drop n (full_listing b p after t)) at 1; rewrite El, <- app_assoc.
  - destruct (last (take n (select_groups b p after d t))) as [e|] eqn:El; [|done]. intros [= <-]. f_equal.
    apply last_Some in El as [l1 El].
    assert (Hc : le_cursor (delimited_entry e) = e_cursor_key e) by (unfold delimited_entry; by destruct (e_is_prefix e)).
    rewrite Hc. apply (groups_resume after l1 e). rewrite <- (take_drop n (select_groups b p after d t)) at 1.
    by rewrite El, <- app_assoc.
Qed.

Lemma listObjectsV2Entries_run params w :
  tables w = t -> db_faults (w_db w) = [] -> v2_prefix params = p -> v2_delimiter params = d -> (0 < v2_max_keys params)%Z ->
  let l := entries (v2_start_after params) in let n := Z.to_nat (v2_max_keys params) in
  run (listObjectsV2Entries b params) w = (Ok (take n l, bool_decide (n < length l)), w).
Proof.
  intros Et Hf Ep Ed Hn l n. unfold listObjectsV2Entries. rewrite (proj2 (Z.eqb_neq _ _)) by lia.
  unfold l, entries, n. rewrite Ep, Ed.
  destruct (String.eqb d ""); rewrite run_bind, run_call; unfold db, on; simpl lens_get.
  - rewrite List_page by done. fold (tables w). rewrite Et. simpl lens_put.
    replace (MkWorld (w_db w) (w_os w) (w_cache w)) with w by by destruct w. cbn [run]. by rewrite fmap_take, length_fmap.
  - unfold ListDelimited. rewrite (proj2 (Z.leb_gt _ _)) by lia. rewrite query_run by done. fold (tables w). rewrite Et.
    simpl lens_put. replace (MkWorld (w_db w) (w_os w) (w_cache w)) with w by by destruct w. cbn [run].
    set (g := select_groups b p (v2_start_after params) d t). set (m := v2_max_keys params) in *.
    assert (E := page_of_rows g m Hn). destruct (m <? Z.of_nat (length (take (Z.to_nat (m + 1)) g)))%Z;
      injection E as E1 E2; by rewrite length_fmap, <- E2, <- fmap_take, <- E1.
Qed.
End Pages.

(** ** A client that lists a bucket *)

Definition with_query (q : Values) (r : Request) : Request :=
  MkRequest (rq_method r) (rq_path r) (rq_escaped_path r) (rq_host r) (rq_remote_addr r) (rq_tls r) (rq_params r)
    (rq_header r) q (rq_content_length r) (rq_body r) (rq_principal r) (rq_id r).

(** The request for the page that a token names. *)
Definition next_page (token : string) (r : Request) : Request :=
  with_query (<["continuation-token" := [token]]> (rq_query r)) r.

(** The pages of a listing, as long as each names the next. *)
Fixpoint list_all `{Rounds} (fuel : nat) (h : ObjectHandlers) (r : Request) : prog World (option (list listBucketObject * list string)) :=
  match fuel with
  | O => Ret None
  | S fuel =>
      response <~ ListObjectsV2 h r ;;
      match rs_body response with
      | Xml (ListBucketResult page) =>
          if l2_is_truncated page then
            rest <~ list_all fuel h (next_page (l2_next_continuation_token page) r) ;;
            Ret ('(contents, prefixes) ← rest; Some (l2_contents page ++ contents, l2_common_prefixes page ++ prefixes))
          else Ret (Some (l2_contents page, l2_common_prefixes page))
      | _ => Ret None
      end
  end.

(** ** What the client is shown *)

(** The stored objects that a listing shows as themselves, and the common prefixes that
    it shows instead of the others. *)
Definition object_line (encodingType : string) (kv : string * ObjectRow) : listBucketObject :=
  MkContents (encodeListValue kv.1 encodingType) (format_millis (or_updated_at kv.2)) (quoteETag (or_etag kv.2)) (or_size kv.2) "STANDARD".

Record shown (b p d after : string) (t : Tables) (rows : list (string * ObjectRow)) (prefixes : list string) : Prop := {
  shown_rows_sorted : StronglySorted (by_text fst) rows;
  shown_rows_once : NoDup rows.*1;
  shown_rows key row : (key, row) ∈ rows <->
    t_objects t !! (b, key) = Some row /\ has_prefix key p = true /\ text_after key after = true /\ common_prefix p d key = None;
  shown_prefixes_sorted : StronglySorted String.le prefixes;
  shown_prefixes_once : NoDup prefixes;
  shown_prefixes c : c ∈ prefixes <->
    text_after c after = true /\
    exists key row, t_objects t !! (b, key) = Some row /\ has_prefix key p = true /\ common_prefix p d key = Some c;
}.

(** What [omap] keeps of a sorted list without repetitions, when it keeps the keys. *)
Lemma omap_keys {A B} (f : A -> option B) (g : A -> string) (h : B -> string) (l : list A) :
  (forall x fx, x ∈ l -> f x = Some fx -> h fx = g x) ->
  StronglySorted (by_text g) l -> NoDup (g <$> l) ->
  StronglySorted (by_text h) (omap f l) /\ NoDup (h <$> omap f l).
Proof.
  intros Hf. induction 1 as [|x l Hl IH Hx]; [by split; constructor|]. cbn. intros [Hnx Hn]%NoDup_cons.
  destruct IH as [IH1 IH2]; [intros y fy Hy; apply Hf; by right|done|]. destruct (f x) as [fx|] eqn:E; [|done].
  assert (Efx := Hf x fx ltac:(by left) E). rewrite Forall_forall in Hx.
  split; [constructor; [done|]; apply Forall_forall|cbn; constructor; [|done]].
  - intros fy (y & Hy & Ey)%list_elem_of_omap. unfold by_text. rewrite Efx, (Hf y fy ltac:(by right) Ey). by apply Hx.
  - intros (fy & Ey & (y & Hy & Ef)%list_elem_of_omap)%list_elem_of_fmap.
    apply Hnx. rewrite <- Efx, Ey, (Hf y fy ltac:(by right) Ef). by apply list_elem_of_fmap_2.
Qed.

Lemma omap_via {A B C} (f : A -> option C) (g : B -> C) (h : A -> option B) (l : list A) :
  (forall x, x ∈ l -> f x = g <$> h x) -> omap f l = g <$> omap h l.
Proof.
  induction l as [|x l IH]; intros H; [done|]. cbn. rewrite (H x) by by left. rewrite IH by (intros y Hy; apply H; by right).
  by destruct (h x).
Qed.

Section Shown.
Context (b p d : string) (t : Tables).
Context (Hp : valid_utf8 p = true) (Hd : valid_utf8 d = true).
Context (Hkeys : forall key row, t_objects t !! (b, key) = Some row -> valid_utf8 key = true).

Definition row_of_entry (e : listEntry) : option (string * ObjectRow) :=
  match le_object e with
  | Some o => (fun r => (o_key o, r)) <$> t_objects t !! (b, o_key o)
  | None => None
  end.
Definition prefix_of (e : listEntry) : option string := match le_object e with Some _ => None | None => Some (le_value e) end.

(** An entry is an object that no delimiter follows the prefix in, or a common prefix. *)
Inductive entry_kind (after : string) : listEntry -> Prop :=
  | object_kind key row o :
      t_objects t !! (b, key) = Some row -> has_prefix key p = true -> text_after key after = true ->
      common_prefix p d key = None -> o_key o = key -> (forall enc, contents_of enc (MkListEntry key key (Some o)) = Some (object_line enc (key, row))) ->
      entry_kind after (MkListEntry key key (Some o))
  | prefix_kind c cursor :
      last_of_group b p d t after c cursor -> text_after c after = true -> common_prefix p d cursor = Some c ->
      entry_kind after (MkListEntry c cursor None).

Lemma list_condition_listed after key row :
  t_objects t !! (b, key) = Some row -> list_condition p after key = true <-> text_after key after = true /\ has_prefix key p = true.
Proof.
  intros Hr. rewrite <- andb_true_iff, <- raw_condition_spec by (done || by eapply Hkeys). unfold list_condition, raw_condition, sql_prefix.
  by rewrite rune_count_sql.
Qed.

Lemma entry_kinds after e : e ∈ entries b p d t after -> entry_kind after e.
Proof.
  unfold entries. destruct (String.eqb_spec d "") as [E|_]; intros Hin%list_elem_of_fmap.
  - destruct Hin as (o & -> & (r & Hr & Hc & Ho)%elem_of_select_objects). apply (list_condition_listed _ _ r) in Hc as [Haf Hpre]; [|done].
    apply (object_kind after (o_key o) r o); try done; [unfold common_prefix; by rewrite (proj2 (String.eqb_eq _ _) E)|].
    intros enc. rewrite Ho. done.
  - destruct Hin as (e' & -> & (v & cursor & Hg & Haf & ->)%elem_of_groups); [|done..].
    pose proof Hg as (([r Hr] & Hpre & Hca) & Hv & _). unfold delimited_entry, entry_of. cbn [e_is_prefix e_virtual_key e_cursor_key e_object].
    unfold group in *. destruct (common_prefix p d cursor) as [c|] eqn:Ec; cbn in Hv |- *; subst v.
    + by apply prefix_kind.
    + rewrite Hr. by apply (object_kind after cursor r).
Qed.

Lemma direct_last_of_group after key row :
  t_objects t !! (b, key) = Some row -> has_prefix key p = true -> text_after key after = true -> common_prefix p d key = None ->
  last_of_group b p d t after key key.
Proof.
  intros Hr Hpre Haf Hc. assert (Hg : group p d key = (key, false)) by (unfold group; by rewrite Hc).
  split; [by split; [eexists|]|]. rewrite Hg. split; [done|]. intros k (_ & Hk & _) E.
  assert (Es : group p d k = (key, false)) by (rewrite <- Hg; apply group_same; [done..|by rewrite Hg]).
  unfold group in Es. destruct (common_prefix p d k); [discriminate|]. injection Es as Es. by rewrite Es.
Qed.

Lemma object_entries after key row :
  t_objects t !! (b, key) = Some row -> has_prefix key p = true -> text_after key after = true -> common_prefix p d key = None ->
  exists o, o_key o = key /\ MkListEntry key key (Some o) ∈ entries b p d t after.
Proof.
  intros Hr Hpre Haf Hc. unfold entries. destruct (String.eqb d "").
  - exists (scanObject b key row). split; [done|]. apply list_elem_of_fmap. exists (scanObject b key row). split; [done|].
    apply elem_of_select_objects. exists row. split; [done|]. split; [|done]. by apply (list_condition_listed _ _ row).
  - eexists (MkObject (or_id row) b key _ _ _ _ _ _ _ _ _ _ _ _ _ _). split; [reflexivity|]. apply list_elem_of_fmap.
    exists (entry_of b p d t key key). split; [unfold delimited_entry, entry_of, group; by rewrite Hc, Hr|].
    apply elem_of_groups; [done..|]. exists key, key. split; [by eapply direct_last_of_group|done].
Qed.

(** The last key of a group exists. *)
Lemma group_has_last after key row c :
  t_objects t !! (b, key) = Some row -> has_prefix key p = true -> common_prefix p d key = Some c -> text_after c after = true ->
  exists cursor, last_of_group b p d t after c cursor.
Proof.
  intros Hr Hpre Hc Haf. assert (Hl : listed b p t after key).
  { split; [by eexists|]. split; [done|]. destruct (common_prefix_split _ _ _ _ Hpre Hc) as [_ Hkc%prefix_le].
    apply text_after_spec in Haf as [Hle Hne]. apply text_after_spec. split; [by etrans|]. intros ->. apply Hne. by apply (anti_symm String.le). }
  destruct (group_keys (rune_count p) d (raw_keys b p t after) !! c) as [[cursor cp]|] eqn:E.
  - apply grouped_spec in E as [E _]; [|done..]. by exists cursor.
  - pose proof (group_keys_spec (rune_count p) d (raw_keys b p t after) c) as H. rewrite E in H.
    destruct (H key); [by apply elem_of_raw_keys|]. rewrite (listed_virtual b p d t Hp Hd Hkeys after) by done. unfold group. by rewrite Hc.
Qed.

Lemma prefix_entries after key row c :
  t_objects t !! (b, key) = Some row -> has_prefix key p = true -> common_prefix p d key = Some c -> text_after c after = true ->
  exists cursor, MkListEntry c cursor None ∈ entries b p d t after.
Proof.
  intros Hr Hpre Hc Haf. destruct (group_has_last _ _ _ _ Hr Hpre Hc Haf) as [cursor Hg]. exists cursor. unfold entries.
  assert (Hcur : common_prefix p d cursor = Some c).
  { pose proof Hg as ((_ & Hcp & _) & Hgc & _). assert (Hk : group p d key = (c, true)) by (unfold group; by rewrite Hc).
    assert (E : group p d cursor = (c, true)) by (rewrite <- Hk; apply group_same; [done..|by rewrite Hk]).
    unfold group in E. by destruct (common_prefix p d cursor); simplify_eq. }
  destruct (String.eqb d "") eqn:Ed; [by unfold common_prefix in Hc; rewrite Ed in Hc|]. apply list_elem_of_fmap.
  exists (entry_of b p d t c cursor). split; [unfold delimited_entry, entry_of, group; by rewrite Hcur|].
  apply elem_of_groups; [done..|]. by exists c, cursor.
Qed.

Lemma entries_sorted after : StronglySorted (by_text le_value) (entries b p d t after) /\ NoDup (le_value <$> entries b p d t after).
Proof.
  unfold entries. destruct (String.eqb d "").
  - split; [by apply (StronglySorted_fmap _ (by_text o_key)), select_objects_sorted|].
    rewrite <- list_fmap_compose. apply select_objects_NoDup_keys.
  - assert (Hv : forall e, le_value (delimited_entry e) = e_virtual_key e) by (intros e; unfold delimited_entry; by destruct (e_is_prefix e)).
    split.
    + apply (StronglySorted_fmap _ (by_text e_virtual_key)); [|apply groups_sorted]. intros x y. unfold by_text. by rewrite !Hv.
    + rewrite <- list_fmap_compose. apply NoDup_fmap_2_strong; [|by apply groups_NoDup]. intros x y Hx Hy E. unfold compose in E.
      rewrite !Hv in E. by apply (groups_inj b p d t Hp Hd Hkeys after).
Qed.

Lemma row_of_entry_spec after e key row :
  e ∈ entries b p d t after -> row_of_entry e = Some (key, row) <->
  exists o, e = MkListEntry key key (Some o) /\ o_key o = key /\ t_objects t !! (b, key) = Some row /\ has_prefix key p = true /\
    text_after key after = true /\ common_prefix p d key = None.
Proof.
  intros [k r o Hr Hpre Haf Hc Ho _|c cursor _ _ _]%entry_kinds; unfold row_of_entry; cbn [le_object].
  - rewrite Ho, Hr. cbn. split; [intros [= <- <-]; by exists o|]. intros (o' & [= -> _ ->] & _ & Hr' & _). congruence.
  - split; [done|]. by intros (o & [=] & _).
Qed.

Lemma prefix_of_spec after e c :
  e ∈ entries b p d t after -> prefix_of e = Some c <->
  exists cursor, e = MkListEntry c cursor None /\ last_of_group b p d t after c cursor /\ text_after c after = true /\
    common_prefix p d cursor = Some c.
Proof.
  intros [k r o _ _ _ _ _ _|c' cursor Hg Haf Hc]%entry_kinds; unfold prefix_of; cbn [le_object le_value].
  - split; [done|]. by intros (cursor & [=] & _).
  - split; [intros [= <-]; by exists cursor|]. intros (cursor' & [= -> ->] & _). done.
Qed.

(** The entries of a listing are what the protocol promises. *)
Lemma entries_shown after :
  let l := entries b p d t after in shown b p d after t (omap row_of_entry l) (omap prefix_of l).
Proof.
  intros l. destruct (entries_sorted after) as [Hs Hn]. fold l in Hs, Hn.
  destruct (omap_keys row_of_entry le_value fst l) as [Hrs Hrn]; [|done..|].
  { intros e [k r] Hin He. apply (row_of_entry_spec after) in He as (o & -> & _); done. }
  destruct (omap_keys prefix_of le_value id l) as [Hps Hpn]; [|done..|].
  { intros e c Hin He. apply (prefix_of_spec after) in He as (cursor & -> & _); done. }
  rewrite list_fmap_id in Hpn. split; [done|done| |done|done|].
  - intros key row. rewrite list_elem_of_omap. split.
    + intros (e & Hin & He). apply (row_of_entry_spec after) in He as (o & _ & _ & H); done.
    + intros (Hr & Hpre & Haf & Hc). destruct (object_entries _ _ _ Hr Hpre Haf Hc) as (o & Ho & Hin).
      exists (MkListEntry key key (Some o)). split; [done|]. apply (row_of_entry_spec after); [done|]. by exists o.
  - intros c. rewrite list_elem_of_omap. split.
    + intros (e & Hin & He). apply (prefix_of_spec after) in He as (cursor & _ & (([r Hr] & Hpre & _) & _) & Haf & Hc); [|done].
      split; [done|]. by exists cursor, r.
    + intros (Haf & key & row & Hr & Hpre & Hc). destruct (prefix_entries _ _ _ _ Hr Hpre Hc Haf) as [cursor Hin].
      by exists (MkListEntry c cursor None).
Qed.

Lemma entries_contents after enc :
  omap (contents_of enc) (entries b p d t after) = object_line enc <$> omap row_of_entry (entries b p d t after).
Proof.
  apply omap_via. intros e [k r o Hr _ _ _ Ho Hline|c cursor _ _ _]%entry_kinds; [|done].
  rewrite Hline. unfold row_of_entry. cbn [le_object]. by rewrite Ho, Hr.
Qed.

Lemma entries_prefixes after enc :
  omap (prefix_of_entry enc) (entries b p d t after) =
  (fun c => encodeListValue c enc) <$> omap prefix_of (entries b p d t after).
Proof. apply omap_via. intros e _. unfold prefix_of_entry, prefix_of. by destruct (le_object e). Qed.

(** The cursor of an entry is the key of a stored object. *)
Lemma entry_cursor after e : e ∈ entries b p d t after -> is_Some (t_objects t !! (b, le_cursor e)).
Proof. intros [k r o Hr _ _ _ _ _|c cursor (([r Hr] & _) & _) _ _]%entry_kinds; cbn [le_cursor]; by eexists. Qed.

(** There are no more entries than objects. *)
Lemma entries_length after : length (entries b p d t after) <= size (t_objects t).
Proof.
  rewrite <- (length_fmap le_value).
  transitivity (length ((fun kv => (group p d kv.1.2).1) <$> map_to_list (t_objects t))).
  2: { by rewrite length_fmap, length_map_to_list. }
  apply submseteq_length, NoDup_submseteq; [apply entries_sorted|].
  intros v (e & -> & Hin)%list_elem_of_fmap. apply list_elem_of_fmap.
  destruct (entry_kinds _ _ Hin) as [k r o Hr _ _ Hc _ _|c cursor (([r Hr] & _) & Hg & _) _ _].
  - exists ((b, k), r). split; [cbn; unfold group; by rewrite Hc|by apply elem_of_map_to_list].
  - exists ((b, cursor), r). split; [done|by apply elem_of_map_to_list].
Qed.
End Shown.

(** ** Following the tokens *)

#[local] Open Scope Z_scope.

Lemma parse_next_page r params cursor :
  parseListObjectsV2Params r = Ok params -> 1 <= string_len cursor <= maxContinuationKeyLen ->
  let token := encodeContinuationToken cursor in
  parseListObjectsV2Params (next_page token r) =
  Ok (MkV2Params (v2_prefix params) (v2_delimiter params) token cursor (v2_response_start_after params)
        (v2_has_start_after params) (v2_encoding_type params) (v2_max_keys params)).
Proof.
  intros Hparse Hc token. destruct (continuation_token_roundtrip cursor) as [_ Hdec]; [lia|]. fold token in Hdec.
  assert (Hne : String.eqb token "" = false).
  { apply String.eqb_neq. intros E. rewrite E in Hdec. injection Hdec as <-. unfold string_len in Hc. cbn in Hc. lia. }
  assert (Hget : forall k, k <> "continuation-token" -> values_get (rq_query (next_page token r)) k = values_get (rq_query r) k).
  { intros k Hk. unfold values_get, next_page, with_query. cbn [rq_query]. by rewrite lookup_insert_ne. }
  assert (Hhas : values_has (rq_query (next_page token r)) "start-after" = values_has (rq_query r) "start-after").
  { unfold values_has, next_page, with_query. cbn [rq_query]. by rewrite lookup_insert_ne. }
  assert (Htok : values_get (rq_query (next_page token r)) "continuation-token" = token).
  { unfold values_get, next_page, with_query. cbn [rq_query]. by rewrite lookup_insert_eq. }
  revert Hparse. unfold parseListObjectsV2Params, parse_max_keys, parse_encoding_type. rewrite Htok, Hne, Hdec, Hhas, !Hget by done.
  destruct (if String.eqb (trim_space _) "" then _ else _) as [m|]; cbn; [|done].
  destruct (negb _ && negb _); cbn; [done|].
  destruct (if String.eqb (values_get (rq_query r) "continuation-token") "" then _ else _); cbn; [|done]. by intros [= <-].
Qed.

Section Listing.
Context `{Rounds} (h : ObjectHandlers) (w : World) (bucket prefix delimiter enc : string) (n : Z).
Context (Hauthz : standard_authz h) (Hcalm : db_faults (w_db w) = []) (Hquiet : quiet_cache w).
Context (Hkeys : forall key row, t_objects (tables w) !! (bucket, key) = Some row -> valid_key key).
Context (Hp : valid_utf8 prefix = true) (Hd : valid_utf8 delimiter = true) (Hn : 0 < n).

Let valid_stored key row (H : t_objects (tables w) !! (bucket, key) = Some row) : valid_utf8 key = true := vk_utf8 _ (Hkeys key row H).
Let listing (after : string) : list listEntry := entries bucket prefix delimiter (tables w) after.

(** A request for a page that the server grants. *)
Record page_request (r : Request) (params : listObjectsV2Params) : Prop := {
  pr_type : values_get (rq_query r) "list-type" = "2";
  pr_bucket : chiBucketParam r = bucket;
  pr_params : parseListObjectsV2Params r = Ok params;
  pr_prefix : v2_prefix params = prefix;
  pr_delimiter : v2_delimiter params = delimiter;
  pr_encoding : v2_encoding_type params = enc;
  pr_max_keys : v2_max_keys params = n;
  pr_allowed : (run (ensureBucketAction h r bucket ActionListBucket "" prefix) w).1 = inr tt;
}.

(** The same server; its cache may have been read. *)
Definition alike (w1 : World) : Prop := w_db w1 = w_db w /\ w_os w1 = w_os w /\ quiet_cache w1.

Lemma alike_refl : alike w.
Proof using Hquiet. done. Qed.

Lemma allowed_alike r r' w1 :
  rq_principal r' = rq_principal r -> (run (ensureBucketAction h r bucket ActionListBucket "" prefix) w).1 = inr tt -> alike w1 ->
  pwp (ensureBucketAction h r' bucket ActionListBucket "" prefix) (fun res w2 => res = inr tt /\ alike w2) w1.
Proof using Hauthz Hcalm Hquiet.
  intros Er Hallow (E1 & E2 & E3). pose proof (pwp_ensure h Hauthz ∅ r' bucket ActionListBucket "" prefix w1 E3) as Hens.
  unfold ensureBucketAction in *. unfold pwp in *. destruct Hens as [Hro _].
  split; [by apply (ensure_agrees h Hauthz ∅ r r' bucket ActionListBucket "" prefix w)|].
  split; [rewrite (ro_db _ _ Hro), E1 by (by rewrite E1); done|]. split; [by rewrite (ro_os _ _ Hro)|apply Hro].
Qed.

Lemma page_run r params w1 :
  page_request r params -> alike w1 ->
  let l := listing (v2_start_after params) in
  let page := take (Z.to_nat n) l in
  pwp (ListObjectsV2 h r) (fun resp w2 => alike w2 /\ exists result, resp = ReplyXml (ListBucketResult result) /\
    l2_contents result = omap (contents_of enc) page /\ l2_common_prefixes result = omap (prefix_of_entry enc) page /\
    l2_is_truncated result = bool_decide (Z.to_nat n < length l)%nat /\
    forall x, last page = Some x -> (Z.to_nat n < length l)%nat -> l2_next_continuation_token result = encodeContinuationToken (le_cursor x)) w1.
Proof.
  intros [Ht Hb Hparse Epre Edel Eenc Emax Hallow] Hw1 l page.
  unfold ListObjectsV2. rewrite Ht, Hb, Hparse, Epre. change (negb (String.eqb "2" "2")) with false. cbv beta iota zeta.
  unfold respond. apply pwp_bind. eapply pwp_mono; [by apply (allowed_alike r r)|]. cbv beta. intros res w2 [-> Hw2].
  assert (Hrun : run (listObjectsV2Entries bucket params) w2 = (Ok (page, bool_decide (Z.to_nat n < length l)%nat), w2)).
  { destruct Hw2 as (Ed & _ & _). unfold page, l, listing. rewrite <- Emax, <- Ed.
    apply listObjectsV2Entries_run; try done; [by rewrite Ed|by rewrite Emax]. }
  apply pwp_bind. unfold pwp at 1. rewrite Hrun. cbn [fst snd]. apply pwp_ret. split; [done|]. eexists. split; [reflexivity|].
  unfold buildListBucketResult. cbn [l2_contents l2_common_prefixes l2_is_truncated l2_next_continuation_token]. rewrite Eenc.
  split; [done|]. split; [done|]. case_bool_decide as Hmore.
  - assert (Hx : is_Some (last page)).
    { apply last_is_Some. unfold page. destruct l; [cbn in Hmore; lia|]. by destruct (Z.to_nat n) eqn:E; [lia|]. }
    destruct Hx as [x Hx]. rewrite Hx. split; [done|]. by intros x' [= <-].
  - destruct (last page); (split; [done|lia]).
Qed.

Lemma next_page_request r params x :
  page_request r params -> is_Some (t_objects (tables w) !! (bucket, le_cursor x)) ->
  exists params', page_request (next_page (encodeContinuationToken (le_cursor x)) r) params' /\ v2_start_after params' = le_cursor x.
Proof.
  intros [Ht Hb Hparse Epre Edel Eenc Emax Hallow] [row Hrow]. apply Hkeys in Hrow as [Hlen _ _ _ _ _].
  eexists. split; [split|].
  - unfold values_get, next_page, with_query. cbn [rq_query]. by rewrite lookup_insert_ne.
  - done.
  - by apply parse_next_page.
  - done.
  - done.
  - done.
  - done.
  - apply (ensure_agrees h Hauthz ∅ r _ bucket ActionListBucket "" prefix w); done.
  - done.
Qed.

Lemma list_all_run fuel r params w1 :
  page_request r params -> alike w1 -> (length (listing (v2_start_after params)) < fuel)%nat ->
  pwp (list_all fuel h r) (fun res w2 => alike w2 /\
    res = Some (omap (contents_of enc) (listing (v2_start_after params)), omap (prefix_of_entry enc) (listing (v2_start_after params)))) w1.
Proof.
  revert r params w1; induction fuel as [|fuel IH]; intros r params w1 Hr Hw1 Hfuel; [lia|].
  set (l := listing (v2_start_after params)) in *. cbn [list_all]. apply pwp_bind.
  eapply pwp_mono; [by apply (page_run r params)|]. cbv beta. fold l.
  intros resp w2 (Hw2 & page & -> & Hc & Hpre & Htr & Hnext). cbn [ReplyXml ReplyXml_with rs_body]. rewrite Htr.
  case_bool_decide as Hmore.
  - assert (Hx : is_Some (last (take (Z.to_nat n) l))).
    { apply last_is_Some. destruct l; [cbn in Hmore; lia|]. by destruct (Z.to_nat n) eqn:E; [lia|]. }
    destruct Hx as [x Hx]. rewrite (Hnext x Hx Hmore).
    assert (Hin : x ∈ l) by (apply (subseteq_take (Z.to_nat n)), last_Some_elem_of, Hx).
    destruct (next_page_request r params x Hr) as (params' & Hr' & Eafter).
    { by eapply (entry_cursor bucket prefix delimiter). }
    assert (El : listing (v2_start_after params') = drop (Z.to_nat n) l).
    { rewrite Eafter. by apply entries_resume. }
    apply pwp_bind. eapply pwp_mono; [apply (IH _ _ w2 Hr' Hw2); rewrite El, length_drop; lia|]. cbv beta.
    intros res w3 [Hw3 ->]. apply pwp_ret. split; [done|]. rewrite El. cbn [mbind option_bind].
    by rewrite Hc, Hpre, <- !omap_app, take_drop.
  - apply pwp_ret. split; [done|]. by rewrite Hc, Hpre, take_ge by lia.
Qed.
End Listing.

(** C13: a client that lists a bucket sees all of it, once. When it follows the continuation
    tokens of [ListObjectsV2] through a store that nobody changes meanwhile and without
    faults, the listing ends after at most one page more than there are objects, and the
    pages together hold exactly the objects with the prefix that no delimiter follows, in
    the order of their keys, and exactly the common prefixes of the others, each once and in
    order - although the query counts characters where the protocol counts bytes, and every
    page starts from a token. *)
Theorem ListObjectsV2_complete `{Rounds} h w bucket prefix delimiter enc n r params fuel :
  standard_authz h -> db_faults (w_db w) = [] -> coherent (w_cache w) (tables w) ->
  (forall key row, t_objects (tables w) !! (bucket, key) = Some row -> valid_key key) ->
  valid_utf8 prefix = true -> valid_utf8 delimiter = true -> 0 < n ->
  page_request h w bucket prefix delimiter enc n r params ->
  (size (t_objects (tables w)) < fuel)%nat ->
  exists rows prefixes,
    shown bucket prefix delimiter (v2_start_after params) (tables w) rows prefixes /\
    (run (list_all fuel h r) w).1 = Some (object_line enc <$> rows, (fun c => encodeListValue c enc) <$> prefixes).
Proof.
  intros Hauthz Hcalm Hquiet Hkeys Hp Hd Hn Hr Hfuel.
  assert (Hv : forall key row, t_objects (tables w) !! (bucket, key) = Some row -> valid_utf8 key = true)
    by (intros key row Hrow; apply (vk_utf8 _ (Hkeys key row Hrow))).
  eexists _, _. split; [by apply entries_shown|]. rewrite <- entries_contents, <- entries_prefixes by done.
  apply (list_all_run h w bucket prefix delimiter enc n Hauthz Hcalm Hquiet Hkeys Hp Hd Hn fuel r params w Hr).
  - by apply alike_refl.
  - eapply Nat.le_lt_trans; [by apply entries_length|done].
Qed.

Definition sample_listing_world : World :=
  MkWorld (MkDb (MkTables (t_users sample_tables) (t_buckets sample_tables)
    {[("photos", "cat") := sample_object "cat"; ("photos", "2024/a") := sample_object "a";
      ("photos", "2024/b") := sample_object "b"; ("photos", "zoo/c") := sample_object "c"]} ∅ ∅ ∅ ∅ ∅) 5 []) (MkOs ∅ ∅ [] 0) (Some (Cache.NewMetadataCache 1000)).

#[local] Instance sample_rounds : Rounds := 1%nat.

Definition sample_listing_handlers : ObjectHandlers :=
  MkHandlers (MkEngine "/data" "/data/.tmp") true true true true (Some (NewAuthzEvaluator true)) "" 0 None.

(** One entry a page: [GET /photos?list-type=2&delimiter=/&max-keys=1]. *)
Definition sample_listing_request : Request :=
  MkRequest "GET" "/photos" "/photos" "localhost" "10.0.0.1:4000" false {["bucket" := "photos"]} ∅
    {["list-type" := ["2"]; "delimiter" := ["/"]; "max-keys" := ["1"]]} 0 [] (Some (MkPrincipal "u1" "User" "ak" RoleAdmin false "" "")) "".

Example sample_listing :
  (run (list_all 5 sample_listing_handlers sample_listing_request) sample_listing_world).1 =
  Some ([MkContents "cat" (format_millis 1) (quoteETag "etag") 3 "STANDARD"], ["2024/"; "zoo/"]).
Proof. vm_compute. reflexivity. Qed.

Lemma sample_valid_key key : key ∈ ["cat"; "2024/a"; "2024/b"; "zoo/c"] -> valid_key key.
Proof.
  intros Hk. repeat (apply elem_of_cons in Hk as [->|Hk]; [split;
    [by vm_compute|done|intros c Hc; repeat (apply elem_of_cons in Hc as [->|Hc]; [done|]); by apply not_elem_of_nil in Hc
    |by apply (bool_decide_unpack _)|done|eexists; split; [left|done]]|]).
  by apply not_elem_of_nil in Hk.
Qed.

Lemma ListObjectsV2_complete_witness :
  exists rows prefixes,
    shown "photos" "" "/" "" (tables sample_listing_world) rows prefixes /\
    (run (list_all 5 sample_listing_handlers sample_listing_request) sample_listing_world).1 =
      Some (object_line "" <$> rows, (fun c => encodeListValue c "") <$> prefixes).
Proof.
  apply (ListObjectsV2_complete sample_listing_handlers sample_listing_world "photos" "" "/" "" 1 sample_listing_request
           (MkV2Params "" "/" "" "" "" false "" 1) 5).
  - right. by exists true.
  - reflexivity.
  - apply new_cache_coherent.
  - intros key row Hrow. apply sample_valid_key. revert key row Hrow.
    assert (H : map_Forall (fun (k : string * string) (_ : ObjectRow) => k.2 ∈ ["cat"; "2024/a"; "2024/b"; "zoo/c"])
                  (t_objects (tables sample_listing_world))) by by_decide.
    intros key row Hrow. exact (H _ _ Hrow).
  - reflexivity.
  - reflexivity.
  - reflexivity.
  - split; by vm_compute.
  - vm_compute. lia.
Defined.
