(* ===== verification/S3Delete.v ===== *)
(** * Deleting many objects: [internal/s3/delete_objects.go] *)

From S2P Require Import Prelude GoStrings Encoding Hash Effects Os Sanitize DiskEngine Schema Db Iam Authz ObjectRepo BucketRepo ActivityRepo ObjectOps Prog S3Http S3Xml Checksum S3Access S3Objects CachedBucketRepo CachedObjectRepo.

Definition maxDeleteObjects : nat := 1000.

Definition errTooManyDeleteObjects : error := ErrOther "too many delete objects".
Definition errMissingDeleteDigest : error := ErrOther "missing delete object digest".
Definition errUnsignedDeleteDigest : error := ErrOther "unsigned delete object digest".

(** [verifyDeleteObjectsDigest] *)
Definition verify_digest (r : Request) (headerName value : string) (decode : string -> option string) (size : Z)
    (actual : string) : result unit :=
  if negb (requestHasSignedHeader r headerName) then Err errUnsignedDeleteDigest
  else match decode value with
       | None => Err errInvalidDigest
       | Some expected =>
           if negb (string_len expected =? size)%Z then Err errInvalidDigest
           else if negb (String.eqb expected actual) then Err errChecksumMismatch
           else Ok tt
       end.

Definition verifyDeleteObjectsDigest (r : Request) (payload : string) : result unit :=
  let md5 := header_get (rq_header r) "Content-MD5" in
  let sha := header_get (rq_header r) "X-Amz-Content-SHA256" in
  if negb (String.eqb md5 "")
  then verify_digest r "content-md5" md5 (b64_decode StdAlphabet true) 16 (md5_sum payload)
  else if negb (String.eqb sha "") && negb (String.eqb sha unsignedPayloadHash)
  then verify_digest r "x-amz-content-sha256" sha hex_decode 32 (sha256_sum payload)
  else Err errMissingDeleteDigest.

Section Delete.
Context `{Cwd} `{Rounds} `{Uuid} `{XmlDecoder} (h : ObjectHandlers).

(** [parseDeleteObjectsRequest] *)
Definition parseDeleteObjectsRequest (r : Request) : result deleteObjectsRequest :=
  let? payload := ReadBody r (2 * 1024 * 1024) in
  if String.eqb (trim_space payload) "" then Err (ErrOther "empty delete request")
  else
    let? _ := verifyDeleteObjectsDigest r payload in
    let? req := decodeDeleteObjects payload in
    if negb (String.eqb (dq_xml_name req) "Delete") || bool_decide (dq_objects req = [])
    then Err (ErrOther "invalid delete request")
    else if (maxDeleteObjects <? length (dq_objects req))%nat then Err errTooManyDeleteObjects
    else if existsb (fun key => String.eqb key "") (dq_objects req)
    then Err (ErrOther "missing delete object key")
    else Ok req.

(** The response to a request that does not parse. *)
Definition writeDeleteRequestError (r : Request) (err : error) : Response :=
  if bool_decide (err = errUnsignedDeleteDigest) then AccessDenied r
  else if bool_decide (err = errTooManyDeleteObjects) || bool_decide (err = errMissingDeleteDigest)
  then InvalidRequest r
  else if bool_decide (err = errInvalidDigest) then WriteS3Error r 400 codeInvalidDigest messageInvalidDigest
  else if bool_decide (err = errChecksumMismatch) then BadDigest r
  else WriteS3Error r 400 codeMalformedXML messageMalformedXML.

(** The loop over the requested keys, with the entries so far. *)
Fixpoint delete_each (r : Request) (bucket : Bucket) (bucketName : string) (quiet : bool) (keys : list string)
    (result : deleteObjectsResult) : prog World (Response + deleteObjectsResult) :=
  match keys with
  | [] => Ret (inr result)
  | key :: rest =>
      allowed <~ authorizeQuiet h r ActionDeleteObject bucketName key bucket ;;
      match allowed with
      | Err _ => Ret (inl (InternalError r))
      | Ok false =>
          delete_each r bucket bucketName quiet rest
            (MkDeleteResult (dl_deleted result)
               (dl_errors result ++ [MkDeleteError key codeAccessDenied messageAccessDenied]))
      | Ok true =>
          deleted <~ deleteObject h bucketName key ;;
          match deleted with
          | Err _ => Ret (inl (InternalError r))
          | Ok (obj, existed) =>
              (match obj with
               | Some obj => if (existed : bool)
                             then recordActivity h r ActivityDeleteObject bucketName key (o_size obj) (o_etag obj)
                             else Ret tt
               | None => Ret tt
               end) ~;;
              delete_each r bucket bucketName quiet rest
                (if quiet then result
                 else MkDeleteResult (dl_deleted result ++ [key]) (dl_errors result))
          end
      end
  end.

Definition DeleteObjects (r : Request) : prog World Response :=
  let bucketName := chiBucketParam r in
  bucket <~! loadBucket r bucketName ;;
  _ <~! authorizeBucketRelationship h r bucket ;;
  match parseDeleteObjectsRequest r with
  | Err err => Ret (writeDeleteRequestError r err)
  | Ok req =>
      result <~! delete_each r bucket bucketName (dq_quiet req) (dq_objects req) (MkDeleteResult [] []) ;;
      recordActivity h r ActivityDeleteObjects bucketName "" (Z.of_nat (length (dq_objects req))) "" ~;;
      Ret (ReplyXml (DeleteResultXml result))
  end.
End Delete.
