(* ===== verification/S3Public.v ===== *)
(** * Reads without credentials: [PublicReadObject] of [object_read.go], and [share_link_read.go] *)

From S2P Require Import Prelude GoStrings Encoding GoTime GoUrl Effects Os Sanitize DiskEngine Schema Db Iam Authz ObjectRepo BucketRepo UserRepo ShareLinkRepo ObjectOps Prog Signer S3Http S3Xml S3Access S3Objects CachedBucketRepo CachedObjectRepo.

(** [writePublicReadError]: [http.Error] with the status text. *)
Definition status_text (status : Z) : string :=
  if (status =? 403)%Z then "Forbidden" else if (status =? 404)%Z then "Not Found" else "Internal Server Error".

Definition writePublicReadError (statusCode : Z) : Response :=
  MkResponse statusCode
    (header_set "X-Content-Type-Options" "nosniff"
      (header_set "Content-Type" "text/plain; charset=utf-8" (header_set "Cache-Control" "no-store" ∅)))
    (PlainText (status_text statusCode)).

(** [mapPublicStorageReadError]: both branches answer alike and log differently. *)
Definition mapPublicStorageReadError (err : error) : Response := writePublicReadError 500.

Section Public.
Context `{Cwd} `{Rounds} `{Uuid} `{MediaTypes} (h : ObjectHandlers).

(** [validatePublicReadSignature] *)
Definition validatePublicReadSignature (r : Request) : prog World (Response + string) :=
  let query := rq_query r in
  let dispositionValues := query !! responseContentDispositionQuery in
  let requiredQueryValues := match dispositionValues with Some _ => 3 | None => 2 end in
  let single name := match query !! name with Some [_] => true | _ => false end in
  match h_signing_secret h, parseResponseContentDisposition dispositionValues with
  | Some secret, Some disposition =>
      if negb (Nat.eqb (size query) requiredQueryValues) || negb (single "expires") || negb (single "signature")
      then Ret (inl (writePublicReadError 403))
      else
        now_ <~ now ;;
        match Verify secret now_ (rq_escaped_path r) (values_get query "expires") disposition
                (values_get query "signature") with
        | Err _ => Ret (inl (writePublicReadError 403))
        | Ok _ => Ret (inr disposition)
        end
  | _, _ => Ret (inl (writePublicReadError 403))
  end.

(** [publicCacheControl] *)
Definition publicCacheControl (r : Request) : prog World string :=
  let none := "public, max-age=0, must-revalidate" in
  match parse_int (values_get (rq_query r) "expires") with
  | None => Ret none
  | Some expiresUnix =>
      now_ <~ now ;;
      let remaining := time_sub (time_of_unix expiresUnix) now_ in
      if (remaining <=? 0)%Z then Ret none
      else Ret ("public, max-age=" +:+ format_int (remaining / second) +:+ ", must-revalidate")
  end.

Definition PublicReadObject (r : Request) : prog World Response :=
  responseContentDisposition <~! validatePublicReadSignature r ;;
  let '(bucketName, key) := objectRouteParams r in
  if String.eqb bucketName "" || String.eqb key "" then Ret (writePublicReadError 404)
  else
    obj <~ CachedObjectRepository.GetByKey bucketName key ;;
    match obj with
    | Err ErrObjectNotFound => Ret (writePublicReadError 404)
    | Err _ => Ret (writePublicReadError 500)
    | Ok obj =>
        cacheControl <~ publicCacheControl r ;;
        serveObject h r obj cacheControl responseContentDisposition mapPublicStorageReadError
    end.

(** ** Share links *)

Definition shareLinkCacheControl : string := "public, max-age=0, must-revalidate".

(** [creatorCanRead] *)
Definition creatorCanRead (link : ShareLink) : prog World (result bool) :=
  creator <~ call (db (UserRepository.GetByID (l_created_by link))) ;;
  match creator with
  | Err ErrUserNotFound => Ret (Ok false)
  | Err err => Ret (Err err)
  | Ok creator =>
      if negb (us_is_active creator) then Ret (Ok false)
      else
        bucket <~ CachedBucketRepository.GetByName (l_bucket_name link) ;;
        match bucket with
        | Err ErrBucketNotFound => Ret (Ok false)
        | Err err => Ret (Err err)
        | Ok bucket =>
            call (Allow (evaluator h)
              (MkDecisionRequest (MkPrincipal (us_id creator) "" "" (us_role creator) false "" "")
                 ActionGetObject (l_bucket_name link) (l_object_key link) "" (b_owner_id bucket)))
        end
  end.

(** [loadActiveShareLink] *)
Definition loadActiveShareLink (code : string) : prog World (Response + ShareLink) :=
  if negb (h_share_links h) || String.eqb code "" then Ret (inl (writePublicReadError 404))
  else
    link <~ call (db (ShareLinkRepository.GetByCode code)) ;;
    match link with
    | Err ErrShareLinkNotFound => Ret (inl (writePublicReadError 404))
    | Err _ => Ret (inl (writePublicReadError 500))
    | Ok link =>
        now_ <~ now ;;
        if ShareLinkRepository.IsExpired link now_ then Ret (inl (writePublicReadError 404))
        else
          allowed <~ creatorCanRead link ;;
          match allowed with
          | Err _ => Ret (inl (writePublicReadError 500))
          | Ok false => Ret (inl (writePublicReadError 404))
          | Ok true => Ret (inr link)
          end
    end.

Definition ShareLinkReadObject (r : Request) : prog World Response :=
  link <~! loadActiveShareLink (url_param r "code") ;;
  obj <~ CachedObjectRepository.GetByKey (l_bucket_name link) (l_object_key link) ;;
  match obj with
  | Err ErrObjectNotFound => Ret (writePublicReadError 404)
  | Err _ => Ret (writePublicReadError 500)
  | Ok obj =>
      serveObject h r obj shareLinkCacheControl (l_response_content_disposition link) mapPublicStorageReadError
  end.
End Public.
