(* ===== verification/S3Dispatch.v ===== *)
(** * Routes and dispatch: [internal/s3/routes.go], [dispatch.go]

    Which handler answers a request. *)

From S2P Require Import Prelude GoStrings GoUrl Effects Os Sanitize DiskEngine Schema Db Iam Authz ObjectOps Prog S3Http S3Xml S3Access S3Objects S3Copy S3Multipart S3Complete S3Buckets S3Lists S3Delete S3Public CachedBucketRepo CachedObjectRepo.

Section Dispatch.
Context `{Cwd} `{Rounds} `{Uuid} `{XmlDecoder} `{MediaTypes} (h : ObjectHandlers).

(** [query.Has] for some of the names. *)
Definition has_any (r : Request) (names : list string) : bool := existsb (values_has (rq_query r)) names.
Definition query_get (r : Request) (name : string) : string := values_get (rq_query r) name.
Definition has_copy_source (r : Request) : bool :=
  negb (String.eqb (header_get (rq_header r) "x-amz-copy-source") "").

Definition DispatchBucketGet (r : Request) : prog World Response :=
  if has_any r ["acl"; "cors"; "policy"] then Ret (NotImplemented r)
  else if has_any r ["versions"] then ListObjectVersions h r
  else if has_any r ["uploads"] then ListMultipartUploads h r
  else if has_any r ["location"] then GetBucketLocation h r
  else if String.eqb (query_get r "list-type") "2" then ListObjectsV2 h r
  else if String.eqb (query_get r "list-type") "" || String.eqb (query_get r "list-type") "1"
  then ListObjectsV1 h r
  else Ret (InvalidRequest r).

Definition DispatchBucketPut (r : Request) : prog World Response :=
  if has_any r ["acl"; "cors"; "policy"; "uploads"; "uploadId"] then Ret (NotImplemented r)
  else CreateBucket h r.

Definition DispatchBucketPost (r : Request) : prog World Response :=
  if has_any r ["delete"] then DeleteObjects h r
  else if has_any r ["acl"; "cors"; "policy"; "uploads"; "uploadId"; "lifecycle"; "versioning"]
  then Ret (NotImplemented r)
  else Ret (InvalidRequest r).

Definition DispatchBucketDelete (r : Request) : prog World Response :=
  if has_any r ["cors"; "policy"; "uploads"; "uploadId"] then Ret (NotImplemented r)
  else if has_any r ["delete"] then DeleteObjects h r
  else DeleteBucket h r.

Definition DispatchObjectGet (r : Request) : prog World Response :=
  if has_any r ["uploadId"] then ListParts h r
  else if has_any r ["attributes"] then GetObjectAttributes h r
  else if has_any r ["acl"; "uploads"] then Ret (NotImplemented r)
  else GetObject h r.

(** [DispatchPut] *)
Definition DispatchPut (r : Request) : prog World Response :=
  let hasUploadID := has_any r ["uploadId"] in
  let hasPartNumber := has_any r ["partNumber"] in
  if hasUploadID && hasPartNumber && negb (String.eqb (query_get r "uploadId") "")
     && negb (String.eqb (query_get r "partNumber") "")
  then if has_copy_source r then UploadPartCopy h r else UploadPart h r
  else if hasUploadID || hasPartNumber then Ret (InvalidRequest r)
  else if has_copy_source r then CopyObject h r
  else PutObject h r.

Definition DispatchObjectPut (r : Request) : prog World Response :=
  if has_any r ["acl"; "uploads"] then Ret (NotImplemented r)
  else if has_any r ["uploadId"; "partNumber"] then DispatchPut r
  else if has_copy_source r then CopyObject h r
  else PutObject h r.

(** [DispatchPost] *)
Definition DispatchPost (r : Request) : prog World Response :=
  if has_any r ["uploads"] then CreateMultipartUpload h r
  else if negb (String.eqb (query_get r "uploadId") "") then CompleteMultipartUpload h r
  else Ret (InvalidRequest r).

(** [DispatchDelete] *)
Definition DispatchDelete (r : Request) : prog World Response :=
  if has_any r ["uploadId"] then
    if String.eqb (query_get r "uploadId") "" then Ret (InvalidRequest r) else AbortMultipartUpload h r
  else DeleteObject h r.

Definition DispatchObjectDelete (r : Request) : prog World Response :=
  if has_any r ["uploads"] then Ret (NotImplemented r)
  else if has_any r ["uploadId"] then DispatchDelete r
  else DeleteObject h r.

(** The routes of [RegisterBucketRoutes], [RegisterObjectRoutes], [RegisterPublicReadRoutes]
    and [RegisterShareLinkRoutes], as the router has matched them. *)
Inductive Route : Type := RootRoute | BucketRoute | ObjectRoute | PublicRoute | ShareRoute.

Definition route_handler (route : Route) (method : string) : option (Request -> prog World Response) :=
  let verb m := String.eqb method m in
  match route with
  | RootRoute => if verb "GET" then Some (ListBuckets h) else None
  | BucketRoute =>
      if verb "POST" then Some DispatchBucketPost
      else if verb "PUT" then Some DispatchBucketPut
      else if verb "GET" then Some DispatchBucketGet
      else if verb "HEAD" then Some (HeadBucket h)
      else if verb "DELETE" then Some DispatchBucketDelete
      else None
  | ObjectRoute =>
      if verb "GET" then Some DispatchObjectGet
      else if verb "HEAD" then Some (HeadObject h)
      else if verb "PUT" then Some DispatchObjectPut
      else if verb "POST" then Some DispatchPost
      else if verb "DELETE" then Some DispatchObjectDelete
      else None
  | PublicRoute => if verb "GET" || verb "HEAD" then Some (PublicReadObject h) else None
  | ShareRoute => if verb "GET" || verb "HEAD" then Some (ShareLinkReadObject h) else None
  end.

(** A request on a route; the router answers other methods itself. *)
Definition MethodNotAllowed : Response := Reply 405 ∅.

Definition ServeRoute (route : Route) (r : Request) : prog World Response :=
  match route_handler route (rq_method r) with
  | Some handler => handler r
  | None => Ret MethodNotAllowed
  end.
End Dispatch.
