(* ===== verification/MgmtHttp.v ===== *)
(** * The management API: requests and responses

    [internal/http/request_body.go], [internal/responses], and of [internal/management]
    the handlers' configuration ([handlers.go]), [responses.go], [request_fields.go],
    [dto.go], and the recording of activity. *)

From S2P Require Import Prelude GoStrings GoUrl Encoding Json GoTime Effects Os Sanitize DiskEngine Schema Db Iam Authz ObjectRepo BucketRepo UserRepo GrantRepo ActivityRepo ObjectOps Prog Config S3Http S3Xml S3Access SigV4.

#[local] Open Scope Z_scope.

(** ** JSON bodies *)

Definition MaxJSONBodyBytes : Z := 2 ^ 20.

(** [DecodeJSONBody]: one value of at most a mebibyte; [decode] fills the destination. *)
Definition DecodeJSONBody {A} (r : Request) (allowEmpty : bool) (decode : Json -> option A) (zero : A) : result A :=
  let? payload := ReadBody r MaxJSONBodyBytes in
  if json_empty payload then if allowEmpty then Ok zero else Err (ErrOther "EOF")
  else match v ← json_parse payload; decode v with
       | Some a => Ok a
       | None => Err (ErrOther "invalid JSON")
       end.

(** ** Responses *)

(** [WithNoStore] *)
Definition WithNoStore (hd : Header) : Header :=
  header_set "Pragma" "no-cache" (header_set "Cache-Control" "no-store" hd).

(** [WriteJSON] with [WithNoStore], after the headers [hd]. *)
Definition writeJSON_with (hd : Header) (statusCode : Z) (payload : Json) : Response :=
  MkResponse statusCode (WithNoStore (header_set "Content-Type" "application/json; charset=utf-8" hd)) (JsonText payload).
Definition writeJSON : Z -> Json -> Response := writeJSON_with ∅.

Definition errorCodeInvalidRequest : string := "invalid_request".
Definition errorCodeNotFound : string := "not_found".
Definition errorCodeUnauthorized : string := "unauthorized".
Definition errorCodeForbidden : string := "forbidden".
Definition errorCodeInternal : string := "internal_error".
Definition errorCodeConflict : string := "conflict".

Definition writeError_with (hd : Header) (statusCode : Z) (code message : string) : Response :=
  writeJSON_with hd statusCode
    (JObject [("error", JObject [("code", JString code); ("message", JString message)])]).
Definition writeError : Z -> string -> string -> Response := writeError_with ∅.

(** [WriteAuthError] *)
Definition WriteAuthError (r : Request) (err : AuthError) : Response :=
  match err with
  | ErrMissingAuth =>
      writeError_with (header_set "WWW-Authenticate" ("Bearer realm=" +:+ quote_str +:+ "fbs" +:+ quote_str) ∅)
        401 errorCodeUnauthorized "authentication required"
  | ErrInactiveUser | ErrForbidden => writeError 403 errorCodeForbidden "admin role required"
  | ErrInternal _ => writeError 500 errorCodeInternal "authentication failed"
  | _ => writeError 401 errorCodeUnauthorized "invalid credentials"
  end.

(** [internalError]: the cause is logged only. *)
Definition internalError (message : string) : Response := writeError 500 errorCodeInternal message.
Definition badRequest (message : string) : Response := writeError 400 errorCodeInvalidRequest message.
Definition notFound (message : string) : Response := writeError 404 errorCodeNotFound message.
(** [setNoStoreHeaders(w); w.WriteHeader(http.StatusNoContent)] *)
Definition NoContent : Response := Reply 204 (WithNoStore ∅).

Definition formatTime : time -> string := format_RFC3339.

(** ** Fields of a request: [request_fields.go] *)

Definition decodeStringField (rawFields : gmap string Json) (field : string) : Response + string :=
  match rawFields !! field with
  | None => inr ""
  | Some (JString value) => inr value
  | Some _ => inl (badRequest (field +:+ " must be a string"))
  end.

Definition decodeBoolField (rawFields : gmap string Json) (field : string) : Response + bool :=
  match rawFields !! field with
  | None => inr false
  | Some (JBool value) => inr value
  | Some _ => inl (badRequest (field +:+ " must be a boolean"))
  end.

(** A field that a patch may hold: absent, or decoded. *)
Definition patch_field {A} (rawFields : gmap string Json) (field : string)
    (decode : gmap string Json -> string -> Response + A) : Response + option A :=
  match rawFields !! field with
  | None => inr None
  | Some _ => match decode rawFields field with inl resp => inl resp | inr a => inr (Some a) end
  end.

(** The raw fields of a request that holds no others than [names]. *)
Definition raw_fields (r : Request) (names : list string) : Response + gmap string Json :=
  match DecodeJSONBody r false decode_raw_map ∅ with
  | Err _ => inl (badRequest "invalid JSON request body")
  | Ok rawFields =>
      if forallb (fun kv => existsb (String.eqb kv.1) names) (map_to_list rawFields) then inr rawFields
      else inl (badRequest "invalid JSON request body")
  end.

(** [x, ok := decode(w, r); if !ok { return }] *)
Definition sum_bind {R A B} (x : R + A) (k : A -> R + B) : R + B :=
  match x with inl r => inl r | inr a => k a end.
Notation "'let+' x ':=' m 'in' k" := (sum_bind m (fun x => k))
  (at level 10, x pattern, m at level 200, k at level 200) : fbs_scope.

(** ** DTOs: [dto.go] *)

(** A member with [omitempty]. *)
Definition omit_empty (name s : string) : list (string * Json) := if String.eqb s "" then [] else [(name, JString s)].

Definition bucketSummaryResponse (name ownerID createdAt : string) (objectCount totalObjectBytes : Z) : Json :=
  JObject [("name", JString name); ("owner_id", JString ownerID); ("created_at", JString createdAt);
           ("object_count", JInt objectCount); ("total_object_bytes", JInt totalObjectBytes)].

Definition bucketSummaryDTO (s : BucketSummary) : Json :=
  bucketSummaryResponse (bs_name s) (bs_owner_id s) (formatTime (bs_created_at s)) (bs_object_count s)
    (bs_total_object_bytes s).

Definition objectSummaryDTO (obj : Object) : Json :=
  JObject [("key", JString (o_key obj)); ("size", JInt (o_size obj)); ("etag", JString (o_etag obj));
           ("content_type", JString (o_content_type obj)); ("created_at", JString (formatTime (o_created_at obj)));
           ("updated_at", JString (formatTime (o_updated_at obj)))].

Definition objectDetailDTO (obj : Object) : Json :=
  JObject [("key", JString (o_key obj)); ("bucket", JString (o_bucket_name obj)); ("size", JInt (o_size obj));
           ("etag", JString (o_etag obj)); ("content_type", JString (o_content_type obj));
           ("created_at", JString (formatTime (o_created_at obj)));
           ("updated_at", JString (formatTime (o_updated_at obj)))].

Definition keyDTO (user : User) : Json :=
  JObject [("id", JString (us_id user)); ("display_name", JString (us_display_name user));
           ("access_key_id", JString (us_access_key_id user));
           ("sigv4_access_key_id", JString (us_sigv4_access_key_id user)); ("role", JString (us_role user));
           ("is_active", JBool (us_is_active user)); ("created_at", JString (formatTime (us_created_at user)));
           ("updated_at", JString (formatTime (us_updated_at user)))].

Definition activityDTO (a : ObjectActivity) : Json :=
  JObject ([("id", JString (a_id a)); ("action", JString (a_action a)); ("bucket", JString (a_bucket_name a))]
    ++ omit_empty "key" (a_object_key a)
    ++ (if a_size a =? 0 then [] else [("size", JInt (a_size a))])
    ++ omit_empty "etag" (a_etag a) ++ omit_empty "actor_user_id" (a_actor_user_id a)
    ++ [("created_at", JString (formatTime (a_created_at a)))]).

(** ** The handlers' configuration: [handlers.go] *)

(** [management.Handlers], without the logger; the activity repository and the storage
    may be nil, the other repositories are set. *)
Record MgmtHandlers : Type := MkMgmt {
  mh_activity : bool;
  mh_storage : option engine;
  mh_config : Config;
  mh_signing_secret : option string;
}.

Definition Region : string := "us-east-1".
Definition maxObjectListLimit : Z := 1000.
Definition maxActivityLimit : Z := 500.

Section Handlers.
Context `{Uuid} (h : MgmtHandlers).

Definition Metrics (r : Request) : prog World Response :=
  metrics <~ call (db ManagementRepository.Metrics) ;;
  match metrics with
  | Err _ => Ret (internalError "failed to load metrics")
  | Ok m => Ret (writeJSON 200 (JObject [
      ("bucket_count", JInt (mm_bucket_count m)); ("object_count", JInt (mm_object_count m));
      ("total_object_bytes", JInt (mm_total_object_bytes m)); ("user_count", JInt (mm_user_count m));
      ("active_user_count", JInt (mm_active_user_count m))]))
  end.

Definition ConfigInfo (r : Request) : prog World Response :=
  Ret (writeJSON 200 (JObject [
    ("region", JString Region); ("dev_mode", JBool (cf_dev_mode (mh_config h)));
    ("public_base_url", JString (cf_public_base_url (mh_config h)));
    ("limits", JObject [("s3_max_keys", JInt 1000); ("s3_delete_objects", JInt 1000);
                        ("management_object_list_limit", JInt maxObjectListLimit);
                        ("management_activity_limit", JInt maxActivityLimit)])])).

(** [recordActivity] of [activity.go]: a failure is only logged. *)
Definition recordActivity (r : Request) (action bucketName key : string) (size : Z) (etag : string) : prog World unit :=
  id <~ newID ;;
  created <~ now ;;
  call (db (RecordActivity (mh_activity h) (rq_principal r)
         (MkActivity id action bucketName key size etag "" created))) ~;;
  Ret tt.

(** ** Activity: [activity.go] *)

Definition defaultActivityLimit : Z := 100.

(** A positive limit from the query, cut at [max]. *)
Definition parse_limit (r : Request) (dflt max : Z) : option Z :=
  let rawLimit := trim_space (values_get (rq_query r) "limit") in
  limit ← (if String.eqb rawLimit "" then Some dflt
           else parsed ← parse_int rawLimit; if parsed <=? 0 then None else Some parsed);
  Some (if max <? limit then max else limit).

Definition parseActivityParams (r : Request) : option ActivityListFilter :=
  limit ← parse_limit r defaultActivityLimit maxActivityLimit;
  Some (MkActivityFilter (trim_space (values_get (rq_query r) "bucket"))
          (trim_space (values_get (rq_query r) "action")) limit).

Definition ListActivity (r : Request) : prog World Response :=
  if negb (mh_activity h) then Ret (writeJSON 200 (JObject [("activity", JArray [])]))
  else match parseActivityParams r with
       | None => Ret (badRequest "limit must be a positive integer")
       | Some params =>
           activities <~ call (db (ActivityRepository.List params)) ;;
           match activities with
           | Err _ => Ret (internalError "failed to list activity")
           | Ok l => Ret (writeJSON 200 (JObject [("activity", JArray (activityDTO <$> l))]))
           end
       end.
End Handlers.
