(* ===== verification/MgmtKeys.v ===== *)
(** * The management API: keys, [internal/management/keys.go] *)

From S2P Require Import Prelude GoStrings Encoding Json Hash Effects Os Schema Db Iam Authz UserRepo Prog S3Http S3Xml SigV4 Auth MgmtHttp.

Section Keys.
Context `{Uuid} `{Random}.

Definition ListKeys (r : Request) : prog World Response :=
  users <~ call (db UserRepository.List) ;;
  match users with
  | Err _ => Ret (internalError "failed to list keys")
  | Ok users => Ret (writeJSON 200 (JObject [("keys", JArray (keyDTO <$> users))]))
  end.

(** [decodeCreateKeyRequest]: the display name and the role. *)
Definition decodeCreateKeyRequest (r : Request) : Response + (string * Role) :=
  let+ rawFields := raw_fields r ["display_name"; "role"] in
  let+ displayName := decodeStringField rawFields "display_name" in
  let displayName := trim_space displayName in
  if String.eqb displayName "" then inl (badRequest "display_name is required")
  else match rawFields !! "role" with
       | None => inr (displayName, RoleMember)
       | Some _ =>
           let+ decodedRole := decodeStringField rawFields "role" in
           match ParseRole (trim_space decodedRole) with
           | Err _ => inl (badRequest "role must be admin or member")
           | Ok role => inr (displayName, role)
           end
       end.

Definition CreateKey (r : Request) : prog World Response :=
  match decodeCreateKeyRequest r with
  | inl resp => Ret resp
  | inr (displayName, role) =>
      created <~ CreateBearerToken displayName role ;;
      match created with
      | Err _ => Ret (internalError "failed to create key")
      | Ok (issued, sigv4Creds, user) =>
          Ret (writeJSON 201 (JObject [
            ("key", keyDTO user); ("bearer_token", JString (it_raw_token issued));
            ("sigv4", JObject [("access_key_id", JString (sc_access_key_id sigv4Creds));
                               ("secret_key", JString (sc_secret_key sigv4Creds))])]))
      end
  end.

Definition DeleteKey (r : Request) : prog World Response :=
  let id := trim_space (url_param r "id") in
  if String.eqb id "" then Ret (notFound "key not found")
  else
    deleted <~ call (db (UserRepository.Delete id)) ;;
    match deleted with
    | Err ErrUserNotFound => Ret (notFound "key not found")
    | Err _ => Ret (internalError "failed to delete key")
    | Ok _ => Ret NoContent
    end.

(** [decodePatchKeyRequest]: the fields that are present. *)
Definition decodePatchKeyRequest (r : Request) : Response + (option string * option bool) :=
  let+ rawFields := raw_fields r ["display_name"; "is_active"] in
  if bool_decide (rawFields = ∅) then inl (badRequest "at least one field is required")
  else
    let+ displayName := patch_field rawFields "display_name" (fun rawFields field =>
      let+ displayName := decodeStringField rawFields field in
      let displayName := trim_space displayName in
      if String.eqb displayName "" then inl (badRequest "display_name must not be empty") else inr displayName) in
    let+ isActive := patch_field rawFields "is_active" decodeBoolField in
    inr (displayName, isActive).

Definition patched_user (displayName : option string) (isActive : option bool) (u : User) : User :=
  MkUser (us_id u) (default (us_display_name u) displayName) (us_access_key_id u) (us_secret_hash u)
    (us_sigv4_access_key_id u) (us_sigv4_secret_key u) (us_role u) (default (us_is_active u) isActive)
    (us_created_at u) (us_updated_at u).

Definition PatchKey (r : Request) : prog World Response :=
  let id := trim_space (url_param r "id") in
  if String.eqb id "" then Ret (notFound "key not found")
  else match decodePatchKeyRequest r with
       | inl resp => Ret resp
       | inr (displayName, isActive) =>
           user <~ call (db (UserRepository.GetByID id)) ;;
           match user with
           | Err ErrUserNotFound => Ret (notFound "key not found")
           | Err _ => Ret (internalError "failed to load key")
           | Ok user =>
               updated <~ call (db (UserRepository.Update (patched_user displayName isActive user))) ;;
               match updated with
               | Err ErrUserNotFound => Ret (notFound "key not found")
               | Err _ => Ret (internalError "failed to update key")
               | Ok _ =>
                   updated <~ call (db (UserRepository.GetByID id)) ;;
                   match updated with
                   | Err _ => Ret (internalError "failed to load updated key")
                   | Ok updated => Ret (writeJSON 200 (JObject [("key", keyDTO updated)]))
                   end
               end
           end
       end.
End Keys.
