(* ===== verification/MgmtBuckets.v ===== *)
(** * The management API: buckets and objects

    [internal/management/buckets.go], [object_listing.go] and [public_urls.go]. *)

From S2P Require Import Prelude GoStrings GoUrl GoNet Encoding Json GoTime Effects Os Sanitize DiskEngine Schema Db Iam Authz ObjectRepo BucketRepo ActivityRepo ObjectOps Prog Signer Config S3Http S3Xml S3Access S3Objects SigV4 MgmtHttp CachedBucketRepo CachedObjectRepo.

#[local] Open Scope Z_scope.

Definition bucket_param (r : Request) : string := trim_space (url_param r "bucket").

Definition ListBuckets (r : Request) : prog World Response :=
  summaries <~ call (db ManagementRepository.ListBucketSummaries) ;;
  match summaries with
  | Err _ => Ret (internalError "failed to list buckets")
  | Ok l => Ret (writeJSON 200 (JObject [("buckets", JArray (bucketSummaryDTO <$> l))]))
  end.

Definition GetBucket (r : Request) : prog World Response :=
  if String.eqb (bucket_param r) "" then Ret (notFound "bucket not found")
  else
    summary <~ call (db (ManagementRepository.GetBucketSummary (bucket_param r))) ;;
    match summary with
    | Err ErrBucketNotFound => Ret (notFound "bucket not found")
    | Err _ => Ret (internalError "failed to load bucket")
    | Ok s => Ret (writeJSON 200 (JObject [("bucket", bucketSummaryDTO s)]))
    end.

(** [ensureBucket] *)
Definition ensureBucket `{Rounds} (bucketName : string) : prog World (Response + unit) :=
  if String.eqb bucketName "" then Ret (inl (notFound "bucket not found"))
  else
    bucket <~ CachedBucketRepository.GetByName bucketName ;;
    match bucket with
    | Err ErrBucketNotFound => Ret (inl (notFound "bucket not found"))
    | Err _ => Ret (inl (internalError "failed to load bucket"))
    | Ok _ => Ret (inr tt)
    end.

Section Buckets.
Context `{Cwd} `{Rounds} `{Uuid} `{MediaTypes} (h : MgmtHandlers).

(** [deleteBucketFiles]: every file is tried; the first error is reported. *)
Fixpoint delete_bucket_files (e : engine) (objects : list Object) (firstError : option error)
    : prog World (result unit) :=
  match objects with
  | [] => Ret (match firstError with None => Ok tt | Some err => Err err end)
  | obj :: rest =>
      deleted <~ call (os (Delete e (o_storage_path obj))) ;;
      delete_bucket_files e rest
        (match deleted, firstError with Err err, None => Some err | _, _ => firstError end)
  end.

Definition deleteBucketFiles (objects : list Object) : prog World (result unit) :=
  match mh_storage h with
  | None => Ret (Ok tt)
  | Some e => delete_bucket_files e objects None
  end.

(** One record for each object that was deleted. *)
Fixpoint record_deletions (r : Request) (bucketName : string) (objects : list Object) : prog World unit :=
  match objects with
  | [] => Ret tt
  | obj :: rest =>
      recordActivity h r ActivityDeleteObject bucketName (o_key obj) (o_size obj) (o_etag obj) ~;;
      record_deletions r bucketName rest
  end.

Definition DeleteBucket (r : Request) : prog World Response :=
  let bucketName := bucket_param r in
  _ <~! ensureBucket bucketName ;;
  objects <~ CachedBucketRepository.DeleteWithObjects bucketName ;;
  match objects with
  | Err ErrBucketHasMultipartUploads =>
      Ret (writeError 409 "bucket_has_multipart_uploads"
             "bucket has multipart uploads; complete or abort them before deleting the bucket")
  | Err ErrBucketNotFound => Ret (notFound "bucket not found")
  | Err _ => Ret (internalError "failed to delete bucket")
  | Ok objects =>
      cleanupErr <~ deleteBucketFiles objects ;;
      record_deletions r bucketName objects ~;;
      recordActivity h r ActivityForceDeleteBucket bucketName "" (Z.of_nat (length objects)) "" ~;;
      match cleanupErr with
      | Err _ => Ret (internalError "failed to delete bucket object files")
      | Ok _ => Ret NoContent
      end
  end.

(** [EmptyBucket]; [fuel] bounds the pages of the listing. *)
Definition EmptyBucket (fuel : nat) (r : Request) : prog World Response :=
  let bucketName := bucket_param r in
  _ <~! ensureBucket bucketName ;;
  objects <~ ObjectOps.EmptyBucket (mh_storage h) fuel bucketName ;;
  match objects with
  | Err _ => Ret (internalError "failed to empty bucket")
  | Ok objects =>
      record_deletions r bucketName objects ~;;
      recordActivity h r ActivityEmptyBucket bucketName "" (Z.of_nat (length objects)) "" ~;;
      Ret NoContent
  end.

(** ** Objects: [object_listing.go] *)

Definition defaultObjectListLimit : Z := 100.

Record objectListParams : Type := MkListParams {
  op_prefix : string;
  op_delimiter : string;
  op_cursor : string;
  op_limit : Z;
}.

Definition parseObjectListParams (r : Request) : option objectListParams :=
  limit ← parse_limit r defaultObjectListLimit maxObjectListLimit;
  Some (MkListParams (values_get (rq_query r) "prefix") (values_get (rq_query r) "delimiter")
          (values_get (rq_query r) "cursor") limit).

(** What a page of a listing shows: objects, common prefixes, whether there are more,
    and where the next page starts. *)
Record objectListing : Type := MkListing {
  ol_objects : list Object;
  ol_common_prefixes : list string;
  ol_is_truncated : bool;
  ol_next_cursor : string;
}.

Definition page_of_entries (entries : list DelimitedListEntry) (limit : Z) : objectListing :=
  let isTruncated := limit <? Z.of_nat (length entries) in
  let entries := if isTruncated then take (Z.to_nat limit) entries else entries in
  MkListing (entries ≫= (fun entry => if e_is_prefix entry then [] else option_list (e_object entry)))
    (entries ≫= (fun entry => if e_is_prefix entry then [e_virtual_key entry] else []))
    isTruncated
    (if isTruncated then match last entries with Some entry => e_cursor_key entry | None => "" end else "").

Definition listObjects (bucketName : string) (params : objectListParams) : prog World (result objectListing) :=
  if String.eqb (op_delimiter params) "" then
    page <~ call (db (ObjectRepository.List bucketName (op_prefix params) (op_cursor params) (op_limit params))) ;;
    match page with
    | Err err => Ret (Err err)
    | Ok (objects, isTruncated) =>
        let nextCursor := if (isTruncated : bool) then match last objects with Some o => o_key o | None => "" end else "" in
        Ret (Ok (MkListing objects [] isTruncated nextCursor))
    end
  else
    entries <~ call (db (ObjectRepository.ListDelimited bucketName (op_prefix params) (op_cursor params)
                           (op_delimiter params) (op_limit params))) ;;
    match entries with
    | Err err => Ret (Err err)
    | Ok entries => Ret (Ok (page_of_entries entries (op_limit params)))
    end.

Definition ListObjects (r : Request) : prog World Response :=
  let bucketName := bucket_param r in
  _ <~! ensureBucket bucketName ;;
  match parseObjectListParams r with
  | None => Ret (badRequest "limit must be a positive integer")
  | Some params =>
      listing <~ listObjects bucketName params ;;
      match listing with
      | Err _ => Ret (internalError "failed to list objects")
      | Ok l => Ret (writeJSON 200 (JObject [
          ("bucket", JString bucketName); ("prefix", JString (op_prefix params));
          ("delimiter", JString (op_delimiter params)); ("limit", JInt (op_limit params));
          ("is_truncated", JBool (ol_is_truncated l)); ("next_cursor", JString (ol_next_cursor l));
          ("objects", JArray (objectSummaryDTO <$> ol_objects l));
          ("common_prefixes", JArray (JString <$> ol_common_prefixes l))]))
      end
  end.

Definition GetObject (r : Request) : prog World Response :=
  let bucketName := bucket_param r in
  _ <~! ensureBucket bucketName ;;
  let key := trim_prefix (url_param r "*") "/" in
  if String.eqb key "" then Ret (notFound "object not found")
  else
    obj <~ CachedObjectRepository.GetByKey bucketName key ;;
    match obj with
    | Err ErrObjectNotFound => Ret (notFound "object not found")
    | Err _ => Ret (internalError "failed to load object")
    | Ok obj => Ret (writeJSON 200 (JObject [("object", objectDetailDTO obj)]))
    end.

(** ** Public URLs: [public_urls.go] *)

(** [publicURLObjectKey] *)
Definition publicURLObjectKey (r : Request) : option string :=
  let rawPath := trim_prefix (url_param r "*") "/" in
  if has_suffix rawPath "/public-url" then
    let key := trim_suffix rawPath "/public-url" in if String.eqb key "" then None else Some key
  else None.

(** [publicObjectURLRequest] *)
Record publicObjectURLRequest : Type := MkPublicURL {
  pu_expires_in_seconds : option Z;
  pu_response_content_disposition : string;
}.

Definition set_public_url (key : string) : option (Json -> publicObjectURLRequest -> option publicObjectURLRequest) :=
  if field_named "expires_in_seconds" key then
    Some (fun v p => z ← decode_int_ptr v (pu_expires_in_seconds p); Some (MkPublicURL z (pu_response_content_disposition p)))
  else if field_named "response_content_disposition" key then
    Some (fun v p => s ← decode_string v (pu_response_content_disposition p); Some (MkPublicURL (pu_expires_in_seconds p) s))
  else None.

(** [publicReadOptions]: the request, and the time to live. *)
Definition publicReadOptions (r : Request) : Response + (publicObjectURLRequest * Z) :=
  let zero := MkPublicURL None "" in
  match DecodeJSONBody r true (fun v => decode_struct false set_public_url v zero) zero with
  | Err _ => inl (badRequest "invalid JSON body")
  | Ok req =>
      if negb (String.eqb (pu_response_content_disposition req) "")
         && negb (valid_media_type (pu_response_content_disposition req))
      then inl (badRequest "response_content_disposition is invalid")
      else
        let maxTTL := cf_public_read_max_ttl (mh_config h) in
        let+ ttl := match pu_expires_in_seconds req with
                    | None => inr (cf_public_read_default_ttl (mh_config h))
                    | Some seconds =>
                        if seconds <=? 0 then inl (badRequest "expires_in_seconds must be positive")
                        else if Z.quot maxTTL second <? seconds
                        then inl (badRequest "expires_in_seconds exceeds maximum TTL")
                        else inr (wrap64 (seconds * second))
                    end in
        if (ttl <=? 0) || (maxTTL <? ttl) then inl (badRequest "expires_in_seconds exceeds maximum TTL")
        else inr (req, ttl)
  end.

(** [publicBaseURL] *)
Definition publicBaseURL (r : Request) : string :=
  if negb (String.eqb (cf_public_base_url (mh_config h)) "") then cf_public_base_url (mh_config h)
  else
    let scheme := trim_space (header_get (rq_header r) "X-Forwarded-Proto") in
    let scheme := if String.eqb scheme "" then if rq_tls r then "https" else "http" else scheme in
    scheme +:+ "://" +:+ rq_host r.

Definition CreatePublicObjectURL (r : Request) : prog World Response :=
  let bucketName := bucket_param r in
  _ <~! ensureBucket bucketName ;;
  match publicURLObjectKey r, mh_signing_secret h with
  | None, _ => Ret (notFound "object not found")
  | Some _, None => Ret (writeError 503 errorCodeInternal "public read signing is not configured")
  | Some key, Some secret =>
      match publicReadOptions r with
      | inl resp => Ret resp
      | inr (request, ttl) =>
          obj <~ CachedObjectRepository.GetByKey bucketName key ;;
          match obj with
          | Err ErrObjectNotFound => Ret (notFound "object not found")
          | Err _ => Ret (internalError "failed to load object")
          | Ok _ =>
              now_ <~ now ;;
              let expiresAt := now_ + ttl in
              let path := ObjectPath bucketName key in
              let disposition := pu_response_content_disposition request in
              let query := <["signature" := [SignPath secret path expiresAt disposition]]>
                             ((if negb (String.eqb disposition "")
                               then insert "response-content-disposition" [disposition] else id)
                              {["expires" := [format_int (unix_of_time expiresAt)]]}) in
              Ret (writeJSON 200 (JObject [
                ("url", JString (trim_right_bytes "/" (publicBaseURL r) +:+ path +:+ "?" +:+ values_encode query));
                ("expires_at", JString (formatTime expiresAt));
                ("cache_control", JString ("public, max-age=" +:+ format_int (Z.quot ttl second) +:+ ", must-revalidate"))]))
          end
      end
  end.
End Buckets.
