(* ===== verification/MgmtGrants.v ===== *)
(** * The management API: grants and ownership, [internal/management/grants.go] *)

From S2P Require Import Prelude GoStrings Encoding Json GoTime Effects Os Sanitize DiskEngine Schema Db Iam Authz BucketRepo UserRepo GrantRepo ActivityRepo Prog S3Http S3Xml S3Access SigV4 MgmtHttp CachedBucketRepo CachedObjectRepo.

Definition grantDTO (g : Grant) : Json :=
  JObject ([("id", JString (g_id g)); ("bucket", JString (g_bucket_name g));
            ("grantee_user_id", JString (g_grantee_user_id g)); ("action", JString (g_action g));
            ("key_prefix", JString (g_key_prefix g)); ("is_active", JBool (g_is_active g))]
    ++ omit_empty "created_by" (g_created_by g) ++ omit_empty "note" (g_note g)
    ++ [("created_at", JString (formatTime (g_created_at g))); ("updated_at", JString (formatTime (g_updated_at g)))]).

Definition grantsResponse (grants : list Grant) : Json := JObject [("grants", JArray (grantDTO <$> grants))].

(** [loadBucketForGrantAdmin]: an admin or the owner of the bucket goes on. *)
Definition loadBucketForGrantAdmin `{Rounds} (r : Request) : prog World (Response + Bucket) :=
  let bucketName := trim_space (url_param r "bucket") in
  if String.eqb bucketName "" then Ret (inl (notFound "bucket not found"))
  else
    bucket <~ CachedBucketRepository.GetByName bucketName ;;
    match bucket with
    | Err ErrBucketNotFound => Ret (inl (notFound "bucket not found"))
    | Err _ => Ret (inl (internalError "failed to load bucket"))
    | Ok bucket =>
        match rq_principal r with
        | None => Ret (inl (writeError 401 errorCodeUnauthorized "authentication required"))
        | Some principal =>
            if negb (String.eqb (p_role principal) RoleAdmin) && negb (String.eqb (b_owner_id bucket) (p_user_id principal))
            then Ret (inl (writeError 403 errorCodeForbidden "admin or bucket owner required"))
            else Ret (inr bucket)
        end
    end.

(** [loadGrantOnBucket] *)
Definition loadGrantOnBucket (grantID bucketName : string) : prog World (Response + Grant) :=
  if String.eqb grantID "" then Ret (inl (notFound "grant not found"))
  else
    grant <~ call (db (GrantRepository.GetByID grantID)) ;;
    match grant with
    | Err ErrGrantNotFound => Ret (inl (notFound "grant not found"))
    | Err _ => Ret (inl (internalError "failed to load grant"))
    | Ok grant =>
        if negb (String.eqb (g_bucket_name grant) bucketName) then Ret (inl (notFound "grant not found"))
        else Ret (inr grant)
    end.

(** [resolveGrantee] *)
Definition resolveGrantee (userID accessKeyID : string) : prog World (Response + User) :=
  let userID := trim_space userID in
  let accessKeyID := trim_space accessKeyID in
  let found missing user :=
    match user with
    | Err ErrUserNotFound => Ret (inl (badRequest missing))
    | Err _ => Ret (inl (internalError "failed to load grantee"))
    | Ok user => Ret (inr user)
    end in
  if negb (String.eqb userID "") && negb (String.eqb accessKeyID "")
  then Ret (inl (badRequest "provide grantee_user_id or grantee_access_key_id, not both"))
  else if negb (String.eqb userID "") then
    user <~ call (db (UserRepository.GetByID userID)) ;; found "grantee user not found" user
  else if negb (String.eqb accessKeyID "") then
    user <~ call (db (UserRepository.GetByAccessKeyID accessKeyID)) ;; found "grantee access key not found" user
  else Ret (inl (badRequest "grantee_user_id or grantee_access_key_id is required")).

(** [validateGrantPrefix] *)
Definition validateGrantPrefix (prefix : string) : bool :=
  if String.eqb prefix "" then true
  else if contains_byte prefix "000" || contains_byte prefix "010" || contains_byte prefix "013" then false
  else if has_prefix prefix "/" then false
  else
    let toCheck := trim_suffix prefix "/" in
    if String.eqb toCheck "" then false else is_ok (ValidateKey toCheck).

(** ** Bodies *)

(** The request of [decodeCreateGrantRequest]. *)
Record createGrantRequest : Type := MkCreateGrant {
  cg_grantee_user_id : string;
  cg_grantee_access_key_id : string;
  cg_actions : list string;
  cg_key_prefix : string;
  cg_note : string;
}.

Definition set_create_grant (key : string) : option (Json -> createGrantRequest -> option createGrantRequest) :=
  if field_named "grantee_user_id" key then Some (fun v '(MkCreateGrant u k a p n) =>
    u ← decode_string v u; Some (MkCreateGrant u k a p n))
  else if field_named "grantee_access_key_id" key then Some (fun v '(MkCreateGrant u k a p n) =>
    k ← decode_string v k; Some (MkCreateGrant u k a p n))
  else if field_named "actions" key then Some (fun v '(MkCreateGrant u k a p n) =>
    a ← decode_strings v a; Some (MkCreateGrant u k a p n))
  else if field_named "key_prefix" key then Some (fun v '(MkCreateGrant u k a p n) =>
    p ← decode_string v p; Some (MkCreateGrant u k a p n))
  else if field_named "note" key then Some (fun v '(MkCreateGrant u k a p n) =>
    n ← decode_string v n; Some (MkCreateGrant u k a p n))
  else None.

(** The actions of a request, without empty ones and duplicates. *)
Fixpoint grant_actions (values : list string) (actions : list Action) : Response + list Action :=
  match values with
  | [] => inr actions
  | value :: rest =>
      let value := trim_space value in
      if String.eqb value "" then grant_actions rest actions
      else match ParseGrantableAction value with
           | Err _ => inl (badRequest ("invalid or non-grantable action: " +:+ value))
           | Ok action =>
               grant_actions rest (if existsb (String.eqb action) actions then actions else actions ++ [action])
           end
  end.

Definition decodeCreateGrantRequest (r : Request) : Response + createGrantRequest :=
  let zero := MkCreateGrant "" "" [] "" "" in
  match DecodeJSONBody r false (fun v => decode_struct false set_create_grant v zero) zero with
  | Err _ => inl (badRequest "invalid JSON request body")
  | Ok raw =>
      let+ actions := grant_actions (cg_actions raw) [] in
      if bool_decide (actions = []) then inl (badRequest "at least one action is required")
      else inr (MkCreateGrant (trim_space (cg_grantee_user_id raw)) (trim_space (cg_grantee_access_key_id raw))
                  actions (cg_key_prefix raw) (trim_space (cg_note raw)))
  end.

(** [decodePatchGrantRequest] *)
Record patchGrantInput : Type := MkPatchGrant {
  pg_key_prefix : option string;
  pg_is_active : option bool;
  pg_note : option string;
}.

Definition decodePatchGrantRequest (r : Request) : Response + patchGrantInput :=
  let+ rawFields := raw_fields r ["key_prefix"; "is_active"; "note"] in
  if bool_decide (rawFields = ∅) then inl (badRequest "at least one field is required")
  else
    let+ keyPrefix := patch_field rawFields "key_prefix" decodeStringField in
    let+ isActive := patch_field rawFields "is_active" decodeBoolField in
    let+ note := patch_field rawFields "note" decodeStringField in
    inr (MkPatchGrant keyPrefix isActive (trim_space <$> note)).

(** [transferOwnershipRequest] *)
Definition set_transfer (key : string) : option (Json -> string -> option string) :=
  if field_named "new_owner_user_id" key then Some decode_string else None.

(** ** Handlers *)

Section Grants.
Context `{Rounds} `{Uuid} (h : MgmtHandlers).

Definition ListBucketGrants (r : Request) : prog World Response :=
  bucket <~! loadBucketForGrantAdmin r ;;
  grants <~ call (db (GrantRepository.ListByBucket (b_name bucket))) ;;
  match grants with
  | Err _ => Ret (internalError "failed to list grants")
  | Ok grants => Ret (writeJSON 200 (grantsResponse grants))
  end.

(** The grants that a request creates, one for each action, each with an id of its own. *)
Fixpoint new_grants (principal : Principal) (bucket : Bucket) (grantee : User) (input : createGrantRequest)
    (now_ : time) (actions : list Action) : prog World (list Grant) :=
  match actions with
  | [] => Ret []
  | action :: rest =>
      id <~ newID ;;
      grants <~ new_grants principal bucket grantee input now_ rest ;;
      Ret (MkGrant id (b_name bucket) (us_id grantee) action (cg_key_prefix input) true (p_user_id principal)
             (cg_note input) now_ now_ :: grants)
  end.

(** Only grants that are new are recorded. *)
Fixpoint record_grants (r : Request) (bucketName : string) (results : list GrantCreateResult) : prog World unit :=
  match results with
  | [] => Ret tt
  | res :: rest =>
      (if negb (gc_existed res)
       then recordActivity h r ActivityCreateGrant bucketName (g_action (gc_grant res)) 0 (g_id (gc_grant res))
       else Ret tt) ~;;
      record_grants r bucketName rest
  end.

Definition CreateBucketGrants (r : Request) : prog World Response :=
  bucket <~! loadBucketForGrantAdmin r ;;
  match decodeCreateGrantRequest r with
  | inl resp => Ret resp
  | inr input =>
      grantee <~! resolveGrantee (cg_grantee_user_id input) (cg_grantee_access_key_id input) ;;
      if negb (us_is_active grantee) then Ret (badRequest "grantee user is inactive")
      else if negb (validateGrantPrefix (cg_key_prefix input)) then Ret (badRequest "invalid key_prefix")
      else
        now_ <~ now ;;
        grants <~ new_grants (principal_or_zero r) bucket grantee input now_ (cg_actions input) ;;
        results <~ call (db (GrantRepository.CreateIdempotentBatch grants)) ;;
        match results with
        | Err _ => Ret (internalError "failed to create grant")
        | Ok results =>
            record_grants r (b_name bucket) results ~;;
            Ret (writeJSON 201 (grantsResponse (gc_grant <$> results)))
        end
  end.

Definition patched_grant (input : patchGrantInput) (g : Grant) : Grant :=
  MkGrant (g_id g) (g_bucket_name g) (g_grantee_user_id g) (g_action g) (default (g_key_prefix g) (pg_key_prefix input))
    (default (g_is_active g) (pg_is_active input)) (g_created_by g) (default (g_note g) (pg_note input))
    (g_created_at g) (g_updated_at g).

Definition PatchBucketGrant (r : Request) : prog World Response :=
  bucket <~! loadBucketForGrantAdmin r ;;
  grant <~! loadGrantOnBucket (trim_space (url_param r "grantID")) (b_name bucket) ;;
  match decodePatchGrantRequest r with
  | inl resp => Ret resp
  | inr input =>
      if match pg_key_prefix input with Some prefix => negb (validateGrantPrefix prefix) | None => false end
      then Ret (badRequest "invalid key_prefix")
      else
        updated <~ call (db (GrantRepository.Update (patched_grant input grant))) ;;
        match updated with
        | Err ErrGrantNotFound => Ret (notFound "grant not found")
        | Err ErrInvalidGrantAction => Ret (badRequest "invalid or non-grantable action")
        | Err ErrDuplicateGrant =>
            Ret (writeError 409 errorCodeInvalidRequest
                   "an active grant already exists for this bucket, grantee, action, and prefix")
        | Err _ => Ret (internalError "failed to update grant")
        | Ok _ =>
            updated <~ call (db (GrantRepository.GetByID (g_id grant))) ;;
            match updated with
            | Err _ => Ret (internalError "failed to load updated grant")
            | Ok updated =>
                recordActivity h r ActivityUpdateGrant (b_name bucket) (g_action updated) 0 (g_id updated) ~;;
                Ret (writeJSON 200 (JObject [("grant", grantDTO updated)]))
            end
        end
  end.

Definition DeleteBucketGrant (r : Request) : prog World Response :=
  bucket <~! loadBucketForGrantAdmin r ;;
  grant <~! loadGrantOnBucket (trim_space (url_param r "grantID")) (b_name bucket) ;;
  deleted <~ call (db (GrantRepository.Delete (g_id grant))) ;;
  match deleted with
  | Err ErrGrantNotFound => Ret (notFound "grant not found")
  | Err _ => Ret (internalError "failed to delete grant")
  | Ok _ =>
      recordActivity h r ActivityDeleteGrant (b_name bucket) (g_action grant) 0 (g_id grant) ~;;
      Ret NoContent
  end.

Definition ListMyGrants (r : Request) : prog World Response :=
  match has_user r with
  | None => Ret (writeError 401 errorCodeUnauthorized "authentication required")
  | Some principal =>
      grants <~ call (db (GrantRepository.ListByGrantee (p_user_id principal))) ;;
      match grants with
      | Err _ => Ret (internalError "failed to list grants")
      | Ok grants => Ret (writeJSON 200 (grantsResponse grants))
      end
  end.

Definition ListUserGrants (r : Request) : prog World Response :=
  let userID := trim_space (url_param r "userID") in
  if String.eqb userID "" then Ret (notFound "user not found")
  else
    user <~ call (db (UserRepository.GetByID userID)) ;;
    match user with
    | Err ErrUserNotFound => Ret (notFound "user not found")
    | Err _ => Ret (internalError "failed to load user")
    | Ok _ =>
        grants <~ call (db (GrantRepository.ListByGrantee userID)) ;;
        match grants with
        | Err _ => Ret (internalError "failed to list grants")
        | Ok grants => Ret (writeJSON 200 (grantsResponse grants))
        end
    end.

Definition TransferBucketOwnership (r : Request) : prog World Response :=
  bucket <~! loadBucketForGrantAdmin r ;;
  match DecodeJSONBody r true (fun v => decode_struct false set_transfer v "") "" with
  | Err _ => Ret (badRequest "invalid JSON request body")
  | Ok newOwner =>
      let newOwnerID := trim_space newOwner in
      if String.eqb newOwnerID "" then Ret (badRequest "new_owner_user_id is required")
      else
        newOwner <~ call (db (UserRepository.GetByID newOwnerID)) ;;
        match newOwner with
        | Err ErrUserNotFound => Ret (badRequest "new owner user not found")
        | Err _ => Ret (internalError "failed to load new owner")
        | Ok newOwner =>
            if negb (us_is_active newOwner) then Ret (badRequest "new owner user is inactive")
            else
              moved <~ CachedBucketRepository.UpdateOwner (b_name bucket) (us_id newOwner) (b_owner_id bucket) ;;
              match moved with
              | Err ErrBucketNotFound => Ret (notFound "bucket not found")
              | Err _ => Ret (internalError "failed to transfer ownership")
              | Ok _ =>
                  recordActivity h r ActivityTransferBucketOwnership (b_name bucket) (us_id newOwner) 0 "" ~;;
                  summary <~ call (db (ManagementRepository.GetBucketSummary (b_name bucket))) ;;
                  let dto := match summary with
                             | Err _ => bucketSummaryResponse (b_name bucket) (us_id newOwner)
                                          (formatTime (b_created_at bucket)) 0 0
                             | Ok s => bucketSummaryDTO s
                             end in
                  Ret (writeJSON 200 (JObject [("bucket", dto); ("owner_id", JString (us_id newOwner))]))
              end
        end
  end.
End Grants.
