(* ===== verification/MgmtShareLinks.v ===== *)
(** * The management API: share links

    [internal/sharelink/code.go] and [internal/management/share_links.go]. *)

From S2P Require Import Prelude GoStrings GoUrl GoNet Encoding Json GoTime Effects Os Sanitize DiskEngine Schema Db Iam Authz ObjectRepo BucketRepo UserRepo ShareLinkRepo Prog Config S3Http S3Xml S3Access S3Objects SigV4 Auth MgmtHttp MgmtBuckets CachedBucketRepo CachedObjectRepo.

#[local] Open Scope Z_scope.

(** ** Codes *)

Definition GeneratedCodeLength : nat := 10.
Definition RoutePrefix : string := "/s/".
Definition codeAlphabet : string := "0123456789ABCDEFGHIJKLMNOPQRSTUVWXYZabcdefghijklmnopqrstuvwxyz".

Definition code_char (n : Z) : ascii := default "0"%char (String.get (Z.to_nat n) codeAlphabet).

Fixpoint generate_code `{Random} (length : nat) : M Os string :=
  match length with
  | O => ret ""
  | S length =>
      n <- rand_int (string_len codeAlphabet) ;;
      rest <- generate_code length ;;
      ret (String (code_char n) rest)
  end.
Definition GenerateCode `{Random} : M Os string := generate_code GeneratedCodeLength.

(** [aliasPattern]: a letter or digit, then 2 to 63 letters, digits, dashes or underscores. *)
Definition is_alias_byte (a : ascii) : bool := is_alnum a || Ascii.eqb a "-" || Ascii.eqb a "_".
Definition ValidateAlias (alias : string) : bool :=
  match alias with
  | String a rest =>
      is_alnum a && forallb is_alias_byte (String.list_ascii_of_string rest)
      && (2 <=? string_len rest) && (string_len rest <=? 63)
  | EmptyString => false
  end.

(** [sharelink.Path] *)
Definition Path (code : string) : string := RoutePrefix +:+ PathEscape code.

(** ** Requests *)

Definition maxShareLinkTTL : Z := 100 * 365 * 24 * hour.
Definition generatedCodeAttempts : nat := 3.

Record createShareLinkRequest : Type := MkCreateLink {
  csl_bucket : string;
  csl_key : string;
  csl_alias : string;
  csl_expires_in_seconds : option Z;
  csl_response_content_disposition : string;
}.

Definition set_share_link (key : string) : option (Json -> createShareLinkRequest -> option createShareLinkRequest) :=
  if field_named "bucket" key then Some (fun v '(MkCreateLink b k a x d) =>
    b ← decode_string v b; Some (MkCreateLink b k a x d))
  else if field_named "key" key then Some (fun v '(MkCreateLink b k a x d) =>
    k ← decode_string v k; Some (MkCreateLink b k a x d))
  else if field_named "alias" key then Some (fun v '(MkCreateLink b k a x d) =>
    a ← decode_string v a; Some (MkCreateLink b k a x d))
  else if field_named "expires_in_seconds" key then Some (fun v '(MkCreateLink b k a x d) =>
    x ← decode_int_ptr v x; Some (MkCreateLink b k a x d))
  else if field_named "response_content_disposition" key then Some (fun v '(MkCreateLink b k a x d) =>
    d ← decode_string v d; Some (MkCreateLink b k a x d))
  else None.

(** [decodeCreateShareLinkRequest]: the request, and the time to live (0: none). *)
Definition decodeCreateShareLinkRequest `{MediaTypes} (r : Request) : Response + (createShareLinkRequest * Z) :=
  let zero := MkCreateLink "" "" "" None "" in
  match DecodeJSONBody r false (fun v => decode_struct false set_share_link v zero) zero with
  | Err _ => inl (badRequest "invalid JSON body")
  | Ok req =>
      let req := MkCreateLink (trim_space (csl_bucket req)) (trim_prefix (csl_key req) "/") (csl_alias req)
                   (csl_expires_in_seconds req) (csl_response_content_disposition req) in
      if String.eqb (csl_bucket req) "" || String.eqb (csl_key req) "" then inl (badRequest "bucket and key are required")
      else if negb (String.eqb (csl_alias req) "") && negb (ValidateAlias (csl_alias req))
      then inl (badRequest "alias must be 3-64 characters of letters, digits, '-' or '_', starting with a letter or digit")
      else if negb (String.eqb (csl_response_content_disposition req) "")
              && negb (valid_media_type (csl_response_content_disposition req))
      then inl (badRequest "response_content_disposition is invalid")
      else match csl_expires_in_seconds req with
           | None => inr (req, 0)
           | Some seconds =>
               if (seconds <=? 0) || (Z.quot maxShareLinkTTL second <? seconds)
               then inl (badRequest "expires_in_seconds must be positive and at most 100 years")
               else inr (req, wrap64 (seconds * second))
           end
  end.

(** ** Handlers *)

Section ShareLinks.
Context `{Rounds} `{Uuid} `{Random} `{MediaTypes} (h : MgmtHandlers).

(** [shareLinkDTO] *)
Definition shareLinkDTO (r : Request) (link : ShareLink) : Json :=
  JObject ([("code", JString (l_code link));
            ("url", JString (trim_right_bytes "/" (publicBaseURL h r) +:+ Path (l_code link)));
            ("bucket", JString (l_bucket_name link)); ("key", JString (l_object_key link))]
    ++ omit_empty "response_content_disposition" (l_response_content_disposition link)
    ++ [("created_by", JString (l_created_by link));
        ("expires_at", match l_expires_at link with Some t => JString (formatTime t) | None => JNull end);
        ("created_at", JString (formatTime (l_created_at link)))]).

Definition with_code (code : string) (l : ShareLink) : ShareLink :=
  MkShareLink code (l_bucket_name l) (l_object_key l) (l_response_content_disposition l) (l_created_by l)
    (l_expires_at l) (l_created_at l).

(** The loop of [insertShareLink]: the link as stored, or the last error. *)
Fixpoint insert_generated (attempts : nat) (link : ShareLink) (err : error) : prog World (result ShareLink) :=
  match attempts with
  | O => Ret (Err err)
  | S attempts =>
      code <~ call (os GenerateCode) ;;
      match code with
      | Err err => Ret (Err err)
      | Ok code =>
          created <~ call (db (ShareLinkRepository.Create (with_code code link))) ;;
          match created with
          | Ok _ => Ret (Ok (with_code code link))
          | Err ErrShareLinkCodeTaken => insert_generated attempts link ErrShareLinkCodeTaken
          | Err err => Ret (Err err)
          end
      end
  end.

Definition insertShareLink (link : ShareLink) (alias : string) : prog World (result ShareLink) :=
  if negb (String.eqb alias "") then
    created <~ call (db (ShareLinkRepository.Create (with_code alias link))) ;;
    Ret (match created with Ok _ => Ok (with_code alias link) | Err err => Err err end)
  else insert_generated generatedCodeAttempts link (ErrOther "no attempt").

(** [shareLinkCreatorID] *)
Definition shareLinkCreatorID (r : Request) : prog World (Response + string) :=
  match rq_principal r with
  | None => Ret (inl (writeError 401 errorCodeUnauthorized "authentication required"))
  | Some principal =>
      user <~ call (db (UserRepository.GetByID (p_user_id principal))) ;;
      match user with
      | Err ErrUserNotFound => Ret (inl (writeError 403 errorCodeForbidden "share links require a stored user account"))
      | Err _ => Ret (inl (internalError "failed to load user"))
      | Ok _ => Ret (inr (p_user_id principal))
      end
  end.

Definition CreateShareLink (r : Request) : prog World Response :=
  match decodeCreateShareLinkRequest r with
  | inl resp => Ret resp
  | inr (req, ttl) =>
      _ <~! ensureBucket (csl_bucket req) ;;
      obj <~ CachedObjectRepository.GetByKey (csl_bucket req) (csl_key req) ;;
      match obj with
      | Err ErrObjectNotFound => Ret (notFound "object not found")
      | Err _ => Ret (internalError "failed to load object")
      | Ok _ =>
          creatorID <~! shareLinkCreatorID r ;;
          now_ <~ now ;;
          let link := MkShareLink "" (csl_bucket req) (csl_key req) (csl_response_content_disposition req) creatorID
                        (if 0 <? ttl then Some (now_ + ttl) else None) now_ in
          inserted <~ insertShareLink link (csl_alias req) ;;
          match inserted with
          | Err ErrShareLinkCodeTaken => Ret (writeError 409 errorCodeConflict "alias is already in use")
          | Err _ => Ret (internalError "failed to create share link")
          | Ok link => Ret (writeJSON 201 (shareLinkDTO r link))
          end
      end
  end.

Definition ListShareLinks (r : Request) : prog World Response :=
  links <~ call (db (ShareLinkRepository.List (trim_space (values_get (rq_query r) "bucket")))) ;;
  match links with
  | Err _ => Ret (internalError "failed to list share links")
  | Ok links => Ret (writeJSON 200 (JObject [("share_links", JArray (shareLinkDTO r <$> links))]))
  end.

Definition DeleteShareLink (r : Request) : prog World Response :=
  deleted <~ call (db (ShareLinkRepository.Delete (url_param r "code"))) ;;
  match deleted with
  | Err ErrShareLinkNotFound => Ret (notFound "share link not found")
  | Err _ => Ret (internalError "failed to delete share link")
  | Ok _ => Ret NoContent
  end.
End ShareLinks.
