(* ===== verification/Setup.v ===== *)
(** * First-start setup: [internal/setup]

    Whether an administrator is needed, and creating the first one, from loopback
    addresses only. *)

From S2P Require Import Prelude GoStrings GoNet Encoding Json Effects Os Schema Db Iam Authz UserRepo Prog Config S3Http S3Xml S3Access SigV4 Auth MgmtHttp.

#[local] Open Scope Z_scope.

Definition defaultAdminDisplayName : string := "Initial Admin".

(** [isLoopbackRequest] *)
Definition isLoopbackRequest (r : Request) : bool :=
  let host := trim_space (rq_remote_addr r) in
  let host := match SplitHostPort host with Some (splitHost, _) => splitHost | None => host end in
  match ParseIP host with Some ip => IsLoopback ip | None => false end.

(** [bootstrapRequest] *)
Definition set_bootstrap (key : string) : option (Json -> string -> option string) :=
  if field_named "display_name" key then Some decode_string else None.
Definition decodeBootstrapRequest (r : Request) : Response + string :=
  match DecodeJSONBody r true (fun v => decode_struct true set_bootstrap v "") "" with
  | Err _ => inl (badRequest "invalid JSON body")
  | Ok displayName => inr displayName
  end.

Section Setup.
Context `{Uuid} `{Random} (cfg : Config).

(** [endpoints]: the management URL and the S3 URL. *)
Definition requestBaseURL (r : Request) : string := (if rq_tls r then "https" else "http") +:+ "://" +:+ rq_host r.
Definition endpoints (r : Request) : string * string :=
  let baseURL := trim_right_bytes "/" (trim_space (cf_public_base_url cfg)) in
  let baseURL := if String.eqb baseURL "" then requestBaseURL r else baseURL in
  (baseURL +:+ "/api/management", baseURL).

Definition notLoopback : Response := writeError 403 errorCodeForbidden "setup is only available from loopback".

(** [bootstrapRequired] *)
Definition bootstrapRequired : prog World (Response + bool) :=
  count <~ call (db UserRepository.UserCount) ;;
  match count with
  | Err _ => Ret (inl (internalError "failed to inspect setup state"))
  | Ok count => Ret (inr (count =? 0))
  end.

Definition Status (r : Request) : prog World Response :=
  if negb (isLoopbackRequest r) then Ret notLoopback
  else
    required <~! bootstrapRequired ;;
    let '(managementURL, s3URL) := endpoints r in
    Ret (writeJSON 200 (JObject [("bootstrap_required", JBool required); ("region", JString Region);
                                 ("management_url", JString managementURL); ("s3_url", JString s3URL)])).

Definition BootstrapFirstAdmin (r : Request) : prog World Response :=
  if negb (isLoopbackRequest r) then Ret notLoopback
  else match decodeBootstrapRequest r with
       | inl resp => Ret resp
       | inr displayName =>
           let displayName := trim_space displayName in
           let displayName := if String.eqb displayName "" then defaultAdminDisplayName else displayName in
           created <~ CreateFirstAdmin displayName ;;
           match created with
           | Err ErrUsersAlreadyExist => Ret (writeError 409 errorCodeConflict "users already exist")
           | Err _ => Ret (internalError "failed to create initial admin")
           | Ok (issued, sigv4Creds, user) =>
               let '(managementURL, s3URL) := endpoints r in
               Ret (writeJSON 201 (JObject [
                 ("key", keyDTO user); ("bearer_token", JString (it_raw_token issued));
                 ("sigv4", JObject [("access_key_id", JString (sc_access_key_id sigv4Creds));
                                    ("secret_key", JString (sc_secret_key sigv4Creds))]);
                 ("region", JString Region); ("management_url", JString managementURL); ("s3_url", JString s3URL)]))
           end
       end.
End Setup.
