(* ===== verification/App.v ===== *)
(** * The server: [cmd/server/app.go], [router.go]; [internal/http/router.go], [middleware]

    The handlers behind their middleware, as the router composes them, and the
    reconciliation of the storage when the server starts. *)

From S2P Require Import Prelude GoStrings GoUrl GoNet Encoding Json Effects Os Sanitize DiskEngine Reconcile Schema Db Iam Authz ObjectRepo MultipartRepo UserRepo Cache Prog CachedBucketRepo CachedObjectRepo ObjectOps Config S3Http S3Xml S3Access S3Objects S3Dispatch SigV4 Auth MgmtHttp MgmtKeys MgmtBuckets MgmtGrants MgmtShareLinks Setup.

#[local] Open Scope Z_scope.

(** [app]: the handlers' configurations, and the cache that the repositories of all
    handlers share, as it is made; the authentication chain follows from the development
    mode. [ap_fuel] bounds the pages of a bucket that is emptied. *)
Record app : Type := MkApp {
  ap_objects : ObjectHandlers;
  ap_management : MgmtHandlers;
  ap_config : Config;
  ap_cache : Cache;
  ap_fuel : nat;
}.

(** [newApp]; without a cache the repositories are used as they are. *)
Definition newApp (cfg : Config) (store : engine) (fuel : nat) : result app :=
  let secret := trim_space (cf_public_read_signing_secret cfg) in
  let signer := if String.eqb secret "" then None else Some secret in
  if negb (String.eqb secret "") && (string_len secret <? 32) then Err (ErrOther "initialize public read signer")
  else Ok (MkApp
    (MkHandlers store true true true true (Some (NewAuthzEvaluator true)) (cf_s3_cache_control cfg) 0 signer)
    (MkMgmt true (Some store) cfg signer) cfg
    (if 0 <? cf_metadata_cache_size_bytes cfg then Some (NewMetadataCache (cf_metadata_cache_size_bytes cfg)) else None) fuel).

(** ** Middleware *)

(** [newRequestID] *)
Definition newRequestID `{Random} : prog World string :=
  Call (os (rand_read 8)) (fun r => Ret (hex_encode (match r with Ok b => b | Err _ => String.string_of_list_ascii (repeat "000"%char 8) end))).

Definition with_request_id (id : string) (r : Request) : Request :=
  MkRequest (rq_method r) (rq_path r) (rq_escaped_path r) (rq_host r) (rq_remote_addr r) (rq_tls r) (rq_params r)
    (rq_header r) (rq_query r) (rq_content_length r) (rq_body r) (rq_principal r) id.

(** Headers that are set before the handler runs: the handler's own win. *)
Definition under_headers (hd : Header) (resp : Response) : Response :=
  MkResponse (rs_status resp) (rs_header resp ∪ hd) (rs_body resp).

(** [S3Headers] *)
Definition S3Headers `{Random} (next : Handler) : Handler := fun r =>
  id <~ newRequestID ;;
  resp <~ next (with_request_id id r) ;;
  Ret (under_headers (header_set "x-amz-id-2" id (header_set "x-amz-request-id" id ∅)) resp).

(** ** Routes *)

Inductive AppRoute : Type :=
  | HealthRoute (status : string)
  | SetupRoute (path : string)
  | ManagementRoute (pattern : string)
  | S3Route (route : Route).

Section Router.
Context `{Cwd} `{Rounds} `{Uuid} `{Random} `{XmlDecoder} `{MediaTypes} (a : app).

Definition chain : list (Request -> M Db AuthResult) := newAuthChain (cf_dev_mode (ap_config a)).

(** [RegisterAdminRoutes] and [RegisterGrantRoutes] *)
Definition adminRoutes : list (string * string * Handler) :=
  let h := ap_management a in
  [("GET", "/metrics", Metrics); ("GET", "/config", ConfigInfo h); ("GET", "/activity", ListActivity h);
   ("GET", "/buckets", MgmtBuckets.ListBuckets); ("GET", "/buckets/{bucket}", MgmtBuckets.GetBucket);
   ("DELETE", "/buckets/{bucket}", MgmtBuckets.DeleteBucket h);
   ("POST", "/buckets/{bucket}/empty", MgmtBuckets.EmptyBucket h (ap_fuel a));
   ("GET", "/buckets/{bucket}/objects", MgmtBuckets.ListObjects);
   ("GET", "/buckets/{bucket}/objects/*", MgmtBuckets.GetObject);
   ("POST", "/buckets/{bucket}/objects/*", CreatePublicObjectURL h);
   ("GET", "/keys", ListKeys); ("POST", "/keys", CreateKey); ("PATCH", "/keys/{id}", PatchKey);
   ("DELETE", "/keys/{id}", DeleteKey); ("GET", "/users/{userID}/grants", ListUserGrants);
   ("GET", "/share-links", ListShareLinks h); ("POST", "/share-links", CreateShareLink h);
   ("DELETE", "/share-links/{code}", DeleteShareLink)].

Definition grantRoutes : list (string * string * Handler) :=
  let h := ap_management a in
  [("GET", "/grants/me", ListMyGrants); ("GET", "/buckets/{bucket}/grants", ListBucketGrants);
   ("POST", "/buckets/{bucket}/grants", CreateBucketGrants h);
   ("PATCH", "/buckets/{bucket}/grants/{grantID}", PatchBucketGrant h);
   ("DELETE", "/buckets/{bucket}/grants/{grantID}", DeleteBucketGrant h);
   ("POST", "/buckets/{bucket}/transfer-ownership", TransferBucketOwnership h)].

Definition find_route (routes : list (string * string * Handler)) (method pattern : string) : option Handler :=
  snd <$> List.find (fun x => String.eqb x.1.1 method && String.eqb x.1.2 pattern) routes.

Definition NotFound : Response := MkResponse 404 ∅ (PlainText "404 page not found").

(** The routes below [/api/management]: all are authenticated, admin routes need the role. *)
Definition managementRoutes (pattern : string) : Handler :=
  RequireAuthentication chain WriteAuthError (fun r =>
    match find_route grantRoutes (rq_method r) pattern, find_route adminRoutes (rq_method r) pattern with
    | Some handler, _ => handler r
    | None, Some handler => RequireRole RoleAdmin WriteAuthError handler r
    | None, None => Ret NotFound
    end).

(** [setup.RegisterRoutes] *)
Definition setupRoutes (path : string) : Handler := fun r =>
  if String.eqb path "/api/setup/status" && String.eqb (rq_method r) "GET" then Status (ap_config a) r
  else if String.eqb path "/api/setup/bootstrap" && String.eqb (rq_method r) "POST" then BootstrapFirstAdmin (ap_config a) r
  else Ret NotFound.

(** Share links and signed URLs come without credentials. *)
Definition s3Routes (route : Route) : Handler := fun r =>
  match route_handler (ap_objects a) route (rq_method r) with
  | None => Ret MethodNotAllowed
  | Some handler =>
      match route with
      | PublicRoute | ShareRoute => handler r
      | _ => S3Headers (RequireAuthentication chain writeS3AuthError handler) r
      end
  end.

(** [newRouter]: the response to a request on a route that the router has matched. *)
Definition newRouter (route : AppRoute) (r : Request) : prog World Response :=
  match route with
  | HealthRoute status =>
      Ret (MkResponse 200 (header_set "Content-Type" "application/json; charset=utf-8" ∅)
             (JsonText (JObject [("status", JString status)])))
  | SetupRoute path => setupRoutes path r
  | ManagementRoute pattern => managementRoutes pattern r
  | S3Route route => s3Routes route r
  end.
End Router.

(** ** Starting *)

(** [startupSetupURL] *)
Definition startupSetupURL (cfg : Config) : string :=
  let baseURL := trim_right_bytes "/" (trim_space (cf_public_base_url cfg)) in
  let baseURL :=
    if String.eqb baseURL "" then
      let addr := trim_space (cf_http_addr cfg) in
      "http://" +:+ (if has_prefix addr ":" then "127.0.0.1" +:+ addr else addr)
    else baseURL in
  baseURL +:+ "/api/setup/status".

(** [logFirstStartSetup]: the line that is logged. *)
Definition logFirstStartSetup (cfg : Config) : M Db (option string) :=
  userCount <- UserRepository.UserCount ;;
  ret (if userCount =? 0 then Some (startupSetupURL cfg) else None).

(** [reconcileStorage]: nothing else runs yet, so the listing of a bucket is one step;
    [fuel] bounds its pages. *)
Definition knownObjects (fuel : nat) (bucketName : string) : M World (list string) :=
  bucketObjects <- run (ListAllObjects fuel bucketName) ;;
  ret (o_storage_path <$> bucketObjects).

Definition reconcileStorage `{Cwd} (fuel : nat) (store : engine) : M World unit :=
  Reconcile store (knownObjects fuel) ;;
  ReconcileMultipartTmp store (db MultipartRepository.ListAllUploadIDs).
