(* ===== verification/Integrity.v ===== *)
(** * Storage integrity: specifications of handlers, and the invariant

    The triples of handlers that interleave come first. Then the invariant:
    Every metadata row of an object or a part names a file of its own, which exists
    and has the size of the row, in every state that requests interleaving in any way
    can reach. A file is named by the uuid it was made with, so the ghost state records
    for each uuid what it was committed to; a request owns the files that it has
    written and not yet committed. *)

From S2P Require Import Prelude GoStrings Encoding GoPath Effects Iam Authz Os Sanitize DiskEngine Reconcile Schema Db ObjectRepo BucketRepo MultipartRepo UserRepo GrantRepo Cache Prog CachedRepo Repositories.

(** * Specifications of handlers under interleaving

    On top of [Prog.safe]: the specification of one call, of a program that hands its
    ownership on, and of a whole handler, with the rules that compose them. An
    assertion holds now and whatever the other requests do. *)

Section Triples.
Context {S R G : Type}.
Context (clash : R -> R -> Prop) (I : (R -> Prop) -> G -> S -> Prop) (evolves : G -> S -> G -> S -> Prop).

Abbreviation asrt := (G -> S -> Prop).
Abbreviation owned := (R -> Prop).
Abbreviation stable := (Prog.stable evolves).

Definition entails (P Q : asrt) : Prop := forall g s, P g s -> Q g s.
Definition also (P Q : asrt) : asrt := fun g s => P g s /\ Q g s.
Definition pure (phi : Prop) : asrt := fun _ _ => phi.

(** A call that owns [O] and relies on [Pre]: it ends with [O'], and the others can
    never undo [P']. *)
Definition op {A} (m : M S A) (O : owned) (Pre : asrt) (Post : result A -> owned -> asrt -> Prop) : Prop :=
  forall F g s, disj clash O F -> Pre g s -> I (union O F) g s ->
  wp m (fun r s' => exists g' O' P', evolves g s g' s' /\ disj clash O' F /\ I (union O' F) g' s' /\
                      stable P' /\ P' g' s' /\ Post r O' P') s.

(** A program that owns [O], relies on [Pre], and ends owning [O'] with [psi] of its result. *)
Definition triple {A} (O : owned) (Pre : asrt) (p : prog S A) (O' : owned) (psi : A -> asrt) : Prop :=
  forall P, stable P -> entails P Pre ->
  safe clash I evolves p (fun a O1 P' => O1 = O' /\ entails P' (also P (psi a))) O P.

(** A handler: whatever it returns, it has kept the invariant. *)
Definition handler_safe {A} (O : owned) (Pre : asrt) (p : prog S A) : Prop :=
  forall P, stable P -> entails P Pre -> safe clash I evolves p (fun _ _ _ => True) O P.

Lemma entails_refl P : entails P P.
Proof. by intros g s. Qed.

Lemma stable_also P Q : stable P -> stable Q -> stable (also P Q).
Proof. intros HP HQ g s g' s' He [H1 H2]. split; [by eapply HP|by eapply HQ]. Qed.

Lemma stable_pure phi : stable (pure phi).
Proof. by intros g s g' s' _. Qed.

(** ** Calls *)

Lemma op_weaken {A} (m : M S A) O Pre Post (Post' : result A -> owned -> asrt -> Prop) :
  op m O Pre Post -> (forall r O' P', Post r O' P' -> Post' r O' P') -> op m O Pre Post'.
Proof.
  intros H HP F g s Hd Hs Hi. eapply wp_mono; [by apply H|]. cbv beta.
  intros r s' (g' & O' & P' & ? & ? & ? & ? & ? & ?). exists g', O', P'. split_and!; auto.
Qed.

Lemma op_pre {A} (m : M S A) O (Pre Pre' : asrt) Post : op m O Pre Post -> entails Pre' Pre -> op m O Pre' Post.
Proof. intros H HP F g s Hd Hs Hi. apply H; auto. Qed.

(** ** Handlers *)

Lemma handler_ret {A} O Pre (a : A) : handler_safe O Pre (Ret a).
Proof. by intros P _ _. Qed.

Lemma handler_pre {A} O (Pre Pre' : asrt) (p : prog S A) :
  handler_safe O Pre p -> entails Pre' Pre -> handler_safe O Pre' p.
Proof. intros H HP P HS HE. apply H; [done|]. intros g s Hs. by apply HP, HE. Qed.

Lemma handler_bind {A B} O O' Pre (p : prog S A) (k : A -> prog S B) psi :
  triple O Pre p O' psi -> (forall a, handler_safe O' (also Pre (psi a)) (k a)) ->
  handler_safe O Pre (pbind p k).
Proof.
  intros Hp Hk P HS HE. apply safe_bind; [|done]. eapply safe_mono; [by apply Hp|].
  intros a O1 P' [-> HP'] HS'. apply Hk; [done|]. intros g s Hs. apply HP' in Hs as [H1 H2].
  split; [by apply HE|done].
Qed.

Definition on_right {R' A} (psi : A -> asrt) (r : R' + A) : asrt :=
  match r with inl _ => pure True | inr a => psi a end.

Lemma handler_respond {A B} O O' Pre (p : prog S (B + A)) (k : A -> prog S B) psi :
  triple O Pre p O' (on_right psi) -> (forall a, handler_safe O' (also Pre (psi a)) (k a)) ->
  handler_safe O Pre (respond p k).
Proof.
  intros Hp Hk. eapply handler_bind; [exact Hp|]. intros [b|a]; [apply handler_ret|apply Hk].
Qed.

Lemma handler_call {A B} O Pre (m : M S A) (k : result A -> prog S B) Post :
  op m O Pre Post ->
  (forall r O' P', Post r O' P' -> handler_safe O' (also Pre P') (k r)) ->
  handler_safe O Pre (pbind (call m) k).
Proof.
  intros Hm Hk P HS HE. cbn. intros F g s Hd Hs Hi. eapply wp_mono; [apply Hm; [done|by apply HE|done]|]. cbv beta.
  intros r s' (g' & O' & P' & He & Hd' & Hi' & HS' & Hs' & HP).
  exists g', O', (also P P'). split_and!; [done..|by apply stable_also| |].
  - split; [by eapply HS|done].
  - eapply Hk; [done|by apply stable_also|]. intros g1 s1 [H1 H2]. split; [by apply HE|done].
Qed.

Lemma handler_lock {A} O Pre mutex (p : prog S A) : handler_safe O Pre p -> handler_safe O Pre (with_lock mutex p).
Proof.
  intros Hp P HS HE. unfold with_lock. cbn. apply safe_bind; [|done]. eapply safe_mono; [by apply Hp|]. done.
Qed.

Lemma handler_map {A B} O Pre (p : prog S A) (f : A -> B) :
  handler_safe O Pre p -> handler_safe O Pre (pbind p (fun a => Ret (f a))).
Proof. intros Hp P HS HE. apply safe_bind; [|done]. eapply safe_mono; [by apply Hp|]. done. Qed.

Lemma handler_triple {A} O O' Pre (p : prog S A) psi : triple O Pre p O' psi -> handler_safe O Pre p.
Proof. intros Hp P HS HE. eapply safe_mono; [by apply Hp|]. done. Qed.

(** What the precondition says of the arguments can be used. *)
Lemma handler_pure {A} O Pre phi (p : prog S A) :
  (phi -> handler_safe O Pre p) -> entails Pre (pure phi) -> handler_safe O Pre p.
Proof.
  intros Hp Hphi P HS HE.
  assert (H : phi -> safe clash I evolves p (fun _ _ _ => True) O P) by (intros H; by apply Hp).
  assert (HP : forall g s, P g s -> phi) by (intros g s Hs; by apply (Hphi g s), HE).
  clear -H HP. induction p as [a|C m k IH|mutex k IH|mutex k IH]; cbn; [done| |by apply IH|by apply IH].
  intros F g s Hd Hs Hi. exact (H (HP g s Hs) F g s Hd Hs Hi).
Qed.

Lemma safe_assoc {A B C} (p : prog S A) (k : A -> prog S B) (k' : B -> prog S C) Q O P :
  safe clash I evolves (pbind p (fun a => pbind (k a) k')) Q O P ->
  safe clash I evolves (pbind (pbind p k) k') Q O P.
Proof.
  revert O P; induction p as [a|D m k0 IH|mutex k0 IH|mutex k0 IH]; intros O P; cbn; auto.
  intros H F g s Hd Hs Hi. eapply wp_mono; [by apply H|]. cbv beta.
  intros r s' (g' & O' & P' & ? & ? & ? & ? & ? & ?). exists g', O', P'. split_and!; auto.
Qed.

Lemma handler_assoc {A B C} O Pre (p : prog S A) (k : A -> prog S B) (k' : B -> prog S C) :
  handler_safe O Pre (pbind p (fun a => pbind (k a) k')) -> handler_safe O Pre (pbind (pbind p k) k').
Proof. intros H P HS HE. by apply safe_assoc, H. Qed.

(** ** Programs *)

Lemma triple_ret {A} O Pre (a : A) (psi : A -> asrt) : entails Pre (psi a) -> triple O Pre (Ret a) O psi.
Proof. intros H P HS HE. split; [done|]. intros g s Hs. split; [done|]. by apply H, HE. Qed.

Lemma triple_pre {A} O O' (Pre Pre' : asrt) (p : prog S A) psi :
  triple O Pre p O' psi -> entails Pre' Pre -> triple O Pre' p O' psi.
Proof. intros H HP P HS HE. apply H; [done|]. intros g s Hs. by apply HP, HE. Qed.

Lemma triple_post {A} O O' Pre (p : prog S A) (psi psi' : A -> asrt) :
  triple O Pre p O' psi -> (forall a, entails (also Pre (psi a)) (psi' a)) -> triple O Pre p O' psi'.
Proof.
  intros H HP P HS HE. eapply safe_mono; [by apply H|]. intros a O1 P' [-> HP']. split; [done|].
  intros g s Hs. apply HP' in Hs as [H1 H2]. split; [done|]. apply HP. split; [by apply HE|done].
Qed.

Lemma triple_bind {A B} O O1 O2 Pre (p : prog S A) (k : A -> prog S B) psi phi :
  triple O Pre p O1 psi -> (forall a, triple O1 (also Pre (psi a)) (k a) O2 phi) ->
  triple O Pre (pbind p k) O2 phi.
Proof.
  intros Hp Hk P HS HE. apply safe_bind; [|done]. eapply safe_mono; [by apply Hp|].
  intros a O' P' [-> HP'] HS'. eapply safe_mono; [apply Hk; [done|]|].
  - intros g s Hs. apply HP' in Hs as [H1 H2]. split; [by apply HE|done].
  - intros b O' P'' [-> HP'']. split; [done|]. intros g s Hs. apply HP'' in Hs as [H1 H2].
    apply HP' in H1 as [H1 _]. by split.
Qed.

Lemma triple_early {R' A B} O Pre (p : prog S (R' + A)) (k : A -> prog S (R' + B)) psi phi :
  triple O Pre p O (on_right psi) -> (forall a, triple O (also Pre (psi a)) (k a) O (on_right phi)) ->
  triple O Pre (early p k) O (on_right phi).
Proof.
  intros Hp Hk. eapply triple_bind; [exact Hp|]. intros [b|a]; [|apply Hk]. by apply triple_ret.
Qed.

Lemma triple_call {A B} O O2 Pre (m : M S A) (k : result A -> prog S B) Post phi :
  op m O Pre Post ->
  (forall r O' P', Post r O' P' -> triple O' (also Pre P') (k r) O2 phi) ->
  triple O Pre (pbind (call m) k) O2 phi.
Proof.
  intros Hm Hk P HS HE. cbn. intros F g s Hd Hs Hi. eapply wp_mono; [apply Hm; [done|by apply HE|done]|]. cbv beta.
  intros r s' (g' & O' & P' & He & Hd' & Hi' & HS' & Hs' & HP).
  exists g', O', (also P P'). split_and!; [done..|by apply stable_also| |].
  - split; [by eapply HS|done].
  - eapply safe_mono; [eapply Hk; [done|by apply stable_also|]|].
    + intros g1 s1 [H1 H2]. split; [by apply HE|done].
    + intros b O1 P'' [-> HP'']. split; [done|]. intros g1 s1 Hs1. apply HP'' in Hs1 as [[H1 _] H2]. by split.
Qed.

Lemma triple_assoc {A B C} O O' Pre (p : prog S A) (k : A -> prog S B) (k' : B -> prog S C) psi :
  triple O Pre (pbind p (fun a => pbind (k a) k')) O' psi -> triple O Pre (pbind (pbind p k) k') O' psi.
Proof. intros Hp P HS HE. by apply safe_assoc, Hp. Qed.
End Triples.

(** * Storage integrity: the invariant *)

(** What a uuid is committed to. *)
Inductive Ref : Type :=
  | RObject (bucket key : string)
  | RPart (upload : string) (number : Z)
  | RUpload.

Abbreviation Ghost := (nat -> Ref -> Prop).

(** A file that a request has written: its uuid, what it is for, its content. *)
Record Owned : Type := MkOwned { own_id : nat; own_ref : Ref; own_content : string }.
Definition clash (x y : Owned) : Prop := own_id x = own_id y.
Definition none : Owned -> Prop := fun _ => False.
Definition only (x : Owned) : Owned -> Prop := fun y => y = x.

Section Integrity.
Context `{Cwd} `{UL : UuidLaws} (e : engine) (We : wf_engine e).

Definition ref_file (r : Ref) (n : nat) : path :=
  match r with
  | RObject b _ => object_file e b n
  | RPart up k => part_file e up k n
  | RUpload => []
  end.

(** The row of [r] names the file of [n]. *)
Definition refers (t : Tables) (r : Ref) (n : nat) : Prop :=
  match r with
  | RObject b k => exists row, t_objects t !! (b, k) = Some row /\ or_storage_path row = object_path b n
  | RPart up k => exists row, t_parts t !! (up, k) = Some row /\ pr_storage_path row = part_path up k n
  | RUpload => is_Some (t_uploads t !! uuid_of n)
  end.

(** The file [p] exists with that many bytes. *)
Definition has_file (w : World) (p : path) (size : Z) : Prop :=
  exists c, os_files (w_os w) !! p = Some c /\ size = string_len c.

Definition owned_ok (g : Ghost) (w : World) (x : Owned) : Prop :=
  let files := os_files (w_os w) in
  match own_ref x with
  | RObject b k =>
      bucket_dir b /\ is_ok (ValidateKey k) = true /\ files !! object_file e b (own_id x) = Some (own_content x)
  | RPart up k =>
      (exists m, up = uuid_of m /\ g m RUpload) /\
      (is_Some (t_uploads (tables w) !! up) ->
       files !! part_file e up k (own_id x) = Some (own_content x))
  | RUpload => True
  end.

(** What is known of an entry of the cache: its bucket was created, its object was
    committed with this path. *)
Definition entry_known (g : Ghost) (k : cacheKey) (v : cacheValue) : Prop :=
  match ck_kind k with
  | cacheKindBucket => forall b, cv_bucket v = Some b -> bucket_dir (ck_bucketName k) /\ b_name b = ck_bucketName k
  | cacheKindObject =>
      forall o, cv_object v = Some o ->
      o_bucket_name o = ck_bucketName k /\ o_key o = ck_objectKey k /\
      exists n, bucket_dir (ck_bucketName k) /\ o_storage_path o = object_path (ck_bucketName k) n /\
                g n (RObject (ck_bucketName k) (ck_objectKey k))
  end.

Record inv (U : Owned -> Prop) (g : Ghost) (w : World) : Prop := {
  inv_db : db_inv (tables w);
  inv_bucket : forall b, is_Some (t_buckets (tables w) !! b) -> bucket_dir b;
  inv_key : forall b k row, t_objects (tables w) !! (b, k) = Some row -> is_ok (ValidateKey k) = true;
  inv_object : forall b k row, t_objects (tables w) !! (b, k) = Some row ->
    exists n, or_storage_path row = object_path b n /\ g n (RObject b k) /\
              has_file w (object_file e b n) (or_size row);
  inv_part : forall up k row, t_parts (tables w) !! (up, k) = Some row ->
    exists n, pr_storage_path row = part_path up k n /\ g n (RPart up k) /\
              has_file w (part_file e up k n) (pr_size row);
  inv_upload : forall id, is_Some (t_uploads (tables w) !! id) -> exists n, id = uuid_of n /\ g n RUpload;
  inv_unique : forall n r r', g n r -> g n r' -> r = r';
  inv_bound : forall n r, g n r -> n < os_uuids (w_os w);
  inv_owned : forall x, U x ->
    own_id x < os_uuids (w_os w) /\ (forall r, ~ g (own_id x) r) /\ owned_ok g w x;
  inv_os : wf_os (w_os w);
  inv_cache : cache_holds (entry_known g) (w_cache w);
}.

(** The ghost state grows, and a row that has let go of a file never names it again. *)
Definition evolves (g : Ghost) (w : World) (g' : Ghost) (w' : World) : Prop :=
  (forall n r, g n r -> g' n r) /\
  (forall n r, g n r -> ~ refers (tables w) r n -> ~ refers (tables w') r n).

Abbreviation asrt := (Ghost -> World -> Prop).

Definition committed (n : nat) (r : Ref) : asrt := fun g _ => g n r.
Definition dead (n : nat) (r : Ref) : asrt := fun g w => g n r /\ ~ refers (tables w) r n.

Lemma evolves_refl g w : evolves g w g w.
Proof. done. Qed.

Lemma stable_committed n r : stable evolves (committed n r).
Proof. intros g w g' w' [H1 _]. apply H1. Qed.

Lemma stable_dead n r : stable evolves (dead n r).
Proof. intros g w g' w' [H1 H2] [Hc Hr]. split; [by apply H1|by apply H2]. Qed.

Lemma stable_exists {A} (P : A -> asrt) :
  (forall a, stable evolves (P a)) -> stable evolves (fun g w => exists a, P a g w).
Proof. intros HP g w g' w' He [a Ha]. exists a. by eapply HP. Qed.

Lemma inv_mono U U' g w : (forall x, U' x -> U x) -> inv U g w -> inv U' g w.
Proof. intros HU []. split; auto. Qed.

Lemma entry_known_mono (g g' : Ghost) k v : (forall n r, g n r -> g' n r) -> entry_known g k v -> entry_known g' k v.
Proof.
  intros Hg. unfold entry_known. destruct (ck_kind k); [done|]. intros Hk o Ho.
  destruct (Hk o Ho) as (? & ? & n & ? & ? & ?). split_and!; [done|done|]. exists n. auto.
Qed.

(** The cache may hold anything that is known. *)
Lemma inv_with_cache U g w c :
  inv U g w -> cache_holds (entry_known g) c -> inv U g (MkWorld (w_db w) (w_os w) c).
Proof. intros [] Hc. by split. Qed.

Lemma clash_sym x y : clash x y -> clash y x.
Proof. by unfold clash. Qed.

(** ** Paths *)

Lemma object_path_inj b b' n n' : object_path b n = object_path b' n' -> normal_seg b -> normal_seg b' -> n = n'.
Proof.
  intros E Hb Hb'. apply render_rel_inj in E; [|done|done|by apply object_segs_normal..]. simplify_eq.
  by apply uuid_inj.
Qed.

Lemma part_name_inj k k' n n' : part_name k n = part_name k' n' -> n = n'.
Proof.
  unfold part_name. intros E.
  assert (Hdot : forall z, contains_byte (format_int z) "." = false).
  { intros z. apply format_int_byte; [vm_compute; intros [Hz _]; by apply Hz|done]. }
  apply (append_sep_inj "."%char _ _ ("tmp-" +:+ uuid_of n) ("tmp-" +:+ uuid_of n')) in E as [_ E]; [|done..].
  simpl in E. simplify_eq. by apply uuid_inj.
Qed.

Lemma part_path_inj up up' k k' n n' :
  part_path up k n = part_path up' k' n' -> normal_seg up -> normal_seg up' -> n = n'.
Proof.
  intros E Hu Hu'. apply render_rel_inj in E; [|done|done|by apply part_segs_normal..]. simplify_eq.
  by eapply part_name_inj.
Qed.

(** A file belongs to one uuid. *)
Lemma ref_file_inj r r' n n' :
  r <> RUpload -> r' <> RUpload -> ref_file r n = ref_file r' n' -> n = n'.
Proof.
  destruct r as [b k|up k|], r' as [b' k'|up' k'|]; simpl; intros Hr Hr' E; try done.
  - by apply object_file_inj in E as [_ ?].
  - symmetry in E. by apply part_not_object in E.
  - by apply part_not_object in E.
  - apply part_file_inj in E as [_ E]. by eapply part_name_inj.
Qed.

Lemma ref_file_not_temp r n m :
  r <> RUpload -> (forall b k, r = RObject b k -> bucket_dir b) -> ref_file r n <> temp_file e m.
Proof.
  destruct r as [b k|up k|]; simpl; intros Hr Hb; try done.
  - apply object_not_temp. by eapply Hb.
  - apply part_not_temp.
Qed.
(** ** What is in use *)

(** The files that the invariant speaks of. *)
Definition in_use (U : Owned -> Prop) (w : World) (r : Ref) (n : nat) : Prop :=
  r <> RUpload /\
  (refers (tables w) r n \/
   exists x, U x /\ own_id x = n /\ own_ref x = r /\
     match r with RPart up _ => is_Some (t_uploads (tables w) !! up) | _ => True end).

Lemma inv_object_bucket U g w b k :
  inv U g w -> is_Some (t_objects (tables w) !! (b, k)) -> bucket_dir b.
Proof.
  intros Hi [row Hrow]. apply (inv_bucket _ _ _ Hi).
  exact (wt_object_bucket _ (proj1 (inv_db _ _ _ Hi)) (b, k) row b Hrow eq_refl).
Qed.

Lemma inv_part_upload U g w up k :
  inv U g w -> is_Some (t_parts (tables w) !! (up, k)) -> is_Some (t_uploads (tables w) !! up).
Proof.
  intros Hi [row Hrow].
  exact (wt_part_upload _ (proj1 (inv_db _ _ _ Hi)) (up, k) row up Hrow eq_refl).
Qed.

Lemma inv_upload_normal U g w up :
  inv U g w -> is_Some (t_uploads (tables w) !! up) -> normal_seg up.
Proof. intros Hi Hup. apply (inv_upload _ _ _ Hi) in Hup as (n & -> & _). apply uuid_normal. Qed.

Lemma refers_committed U g w r n : inv U g w -> refers (tables w) r n -> g n r.
Proof.
  intros Hi. destruct r as [b k|up k|]; simpl.
  - intros (row & Hrow & Hp). destruct (inv_object _ _ _ Hi _ _ _ Hrow) as (m & Hm & Hg & _).
    rewrite Hp in Hm. assert (Hb : normal_seg b) by (by eapply inv_object_bucket).
    by apply object_path_inj in Hm as ->.
  - intros (row & Hrow & Hp). destruct (inv_part _ _ _ Hi _ _ _ Hrow) as (m & Hm & Hg & _).
    rewrite Hp in Hm.
    assert (Hu : normal_seg up) by (eapply inv_upload_normal; [done|by eapply inv_part_upload]).
    by apply part_path_inj in Hm as ->.
  - intros Hu. destruct (inv_upload _ _ _ Hi _ Hu) as (m & Hm & Hg). by apply uuid_inj in Hm as ->.
Qed.

Lemma in_use_bound U g w r n : inv U g w -> in_use U w r n -> n < os_uuids (w_os w).
Proof.
  intros Hi (_ & [Hr|(x & Hx & <- & _)]).
  - eapply (inv_bound _ _ _ Hi), refers_committed; done.
  - by apply (inv_owned _ _ _ Hi).
Qed.

Lemma in_use_bucket U g w b k n : inv U g w -> in_use U w (RObject b k) n -> bucket_dir b.
Proof.
  intros Hi (_ & [(row & Hrow & _)|(x & Hx & _ & Er & _)]).
  - by eapply inv_object_bucket.
  - apply (inv_owned _ _ _ Hi) in Hx as (_ & _ & Hok). unfold owned_ok in Hok. rewrite Er in Hok. apply Hok.
Qed.

Lemma in_use_upload U g w up k n :
  inv U g w -> in_use U w (RPart up k) n -> is_Some (t_uploads (tables w) !! up).
Proof.
  intros Hi (_ & [(row & Hrow & _)|(x & Hx & _ & _ & Hup)]); [|done]. by eapply inv_part_upload.
Qed.

(** ** Changes of the disk, and of the tables *)

(** A change of the disk that spares the files in use keeps the invariant. *)
Lemma inv_disk U g w o' (touched : path -> Prop) :
  inv U g w -> files_frame touched (w_os w) o' -> (wf_os (w_os w) -> wf_os o') ->
  (forall r n, in_use U w r n -> ~ touched (ref_file r n)) ->
  inv U g (MkWorld (w_db w) o' (w_cache w)).
Proof.
  intros Hi [Hf Hu] Hwf Ht.
  assert (Hsame : forall r n, in_use U w r n -> os_files o' !! ref_file r n = os_files (w_os w) !! ref_file r n)
    by eauto.
  split; simpl; try apply Hi.
  - intros b k row Hrow. destruct (inv_object _ _ _ Hi _ _ _ Hrow) as (n & Hp & Hg & c & Hc & Hz).
    exists n. split; [done|]. split; [done|]. exists c. split; [|done].
    rewrite <- Hc. apply (Hsame (RObject b k)). split; [done|]. left. by exists row.
  - intros up k row Hrow. destruct (inv_part _ _ _ Hi _ _ _ Hrow) as (n & Hp & Hg & c & Hc & Hz).
    exists n. split; [done|]. split; [done|]. exists c. split; [|done].
    rewrite <- Hc. apply (Hsame (RPart up k)). split; [done|]. left. by exists row.
  - intros n r Hg. apply (inv_bound _ _ _ Hi) in Hg. lia.
  - intros x Hx. destruct (inv_owned _ _ _ Hi x Hx) as (Hn & Hg & Hok).
    split; [simpl; lia|]. split; [done|]. destruct x as [n [b k|up k|] c]; unfold owned_ok in *; simpl in *; [|
      |done].
    + destruct Hok as (Hb & Hk & Hc). split; [done|]. split; [done|]. rewrite <- Hc. apply (Hsame (RObject b k)). split; [done|].
      right. by eexists.
    + destruct Hok as [Hup Hc]. split; [done|]. intros Hs. rewrite <- Hc by done.
      apply (Hsame (RPart up k)). split; [done|]. right. by eexists.
  - by apply Hwf, (inv_os _ _ _ Hi).
Qed.

(** Tables that name the same files. *)
Record same_refs (t t' : Tables) : Prop := {
  sr_buckets : forall b, is_Some (t_buckets t' !! b) -> is_Some (t_buckets t !! b) \/ bucket_dir b;
  sr_objects : t_objects t' = t_objects t;
  sr_parts : t_parts t' = t_parts t;
  sr_uploads : forall id, is_Some (t_uploads t' !! id) <-> is_Some (t_uploads t !! id);
}.

Lemma same_refs_refl t : same_refs t t.
Proof. split; auto. Qed.

Lemma same_refs_refers t t' r n : same_refs t t' -> refers t' r n <-> refers t r n.
Proof. intros []. destruct r; simpl; [by rewrite sr_objects0|by rewrite sr_parts0|done]. Qed.

Lemma inv_tables U g w d' :
  inv U g w -> db_inv (db_tables d') -> same_refs (tables w) (db_tables d') -> inv U g (MkWorld d' (w_os w) (w_cache w)).
Proof.
  intros Hi Hdb Hs. split; simpl; try apply Hi.
  - done.
  - intros b Hb. apply (sr_buckets _ _ Hs) in Hb as [Hb|Hb]; [|done]. by apply (inv_bucket _ _ _ Hi).
  - intros b k row Hrow. rewrite (sr_objects _ _ Hs) in Hrow. by apply (inv_key _ _ _ Hi _ _ _ Hrow).
  - intros b k row Hrow. rewrite (sr_objects _ _ Hs) in Hrow. by apply (inv_object _ _ _ Hi).
  - intros up k row Hrow. rewrite (sr_parts _ _ Hs) in Hrow. by apply (inv_part _ _ _ Hi).
  - intros id Hid. apply (inv_upload _ _ _ Hi). by apply (sr_uploads _ _ Hs).
  - intros x Hx. destruct (inv_owned _ _ _ Hi x Hx) as (Hn & Hg & Hok). split; [done|]. split; [done|].
    destruct x as [n [b k|up k|] c]; unfold owned_ok in *; simpl in *; [done| |done].
    destruct Hok as [Hup Hc]. split; [done|]. intros Hid. by apply Hc, (sr_uploads _ _ Hs).
Qed.

Lemma evolves_tables g w d' :
  same_refs (tables w) (db_tables d') -> evolves g w g (MkWorld d' (w_os w) (w_cache w)).
Proof. intros Hs. split; [done|]. intros n r _ Hr. simpl. by rewrite (same_refs_refers _ _ _ _ Hs). Qed.

Lemma evolves_disk g w o' : evolves g w g (MkWorld (w_db w) o' (w_cache w)).
Proof. done. Qed.

(** ** Ownership *)

Lemma disj_only x F : disj clash (only x) F <-> forall y, F y -> own_id y <> own_id x.
Proof.
  unfold disj, only, clash. split; [intros Hd y Hy E; by eapply Hd|]. intros Hd r y -> Hy E.
  by apply (Hd y Hy).
Qed.

Lemma disj_none F : disj clash none F.
Proof. by intros r y []. Qed.

Lemma inv_drop x F g w : inv (union (only x) F) g w -> inv (union none F) g w.
Proof. apply inv_mono. intros y [[]|Hy]. by right. Qed.

(** A fresh file becomes a possession of the request that wrote it. *)
Lemma inv_own n x F g w w' :
  inv (union none F) g w' -> own_id x = n -> os_uuids (w_os w) <= n -> n < os_uuids (w_os w') ->
  inv (union none F) g w -> owned_ok g w' x ->
  disj clash (only x) F /\ inv (union (only x) F) g w'.
Proof.
  intros Hi' Hx Hn Hn' Hi Hok. split.
  - apply disj_only. intros y Hy E. apply (or_intror (A := none y)) in Hy.
    apply (inv_owned _ _ _ Hi) in Hy as [Hy _]. lia.
  - split; try apply Hi'. intros y [->|Hy]; [|apply (inv_owned _ _ _ Hi'); by right].
    split; [lia|]. split; [|done]. intros r Hg. apply (inv_bound _ _ _ Hi) in Hg. lia.
Qed.

(** ** Rows that come and go *)

(** Tables with fewer rows. *)
Record fewer (t t' : Tables) : Prop := {
  fw_buckets : forall b, is_Some (t_buckets t' !! b) -> is_Some (t_buckets t !! b);
  fw_objects : forall k row, t_objects t' !! k = Some row -> t_objects t !! k = Some row;
  fw_parts : forall k row, t_parts t' !! k = Some row -> t_parts t !! k = Some row;
  fw_uploads : forall id, is_Some (t_uploads t' !! id) -> is_Some (t_uploads t !! id);
}.

Lemma fewer_refl t : fewer t t.
Proof. split; auto. Qed.

Lemma fewer_refers t t' r n : fewer t t' -> refers t' r n -> refers t r n.
Proof.
  intros []. destruct r; simpl; [intros (row & Hr & Hp)..|auto]; exists row; auto.
Qed.

Lemma inv_fewer U g w d' :
  inv U g w -> db_inv (db_tables d') -> fewer (tables w) (db_tables d') ->
  evolves g w g (MkWorld d' (w_os w) (w_cache w)) /\ inv U g (MkWorld d' (w_os w) (w_cache w)).
Proof.
  intros Hi Hdb Hs. split; [split; [done|]; intros n r _ Hr Hr'; by eapply Hr, fewer_refers|].
  split; simpl; try apply Hi.
  - done.
  - intros b Hb%(fw_buckets _ _ Hs). by apply (inv_bucket _ _ _ Hi).
  - intros b k row Hrow%(fw_objects _ _ Hs). by apply (inv_key _ _ _ Hi _ _ _ Hrow).
  - intros b k row Hrow%(fw_objects _ _ Hs). by apply (inv_object _ _ _ Hi).
  - intros up k row Hrow%(fw_parts _ _ Hs). by apply (inv_part _ _ _ Hi).
  - intros id Hid%(fw_uploads _ _ Hs). by apply (inv_upload _ _ _ Hi).
  - intros x Hx. destruct (inv_owned _ _ _ Hi x Hx) as (Hn & Hg & Hok). split; [done|]. split; [done|].
    destruct x as [n [b k|up k|] c]; unfold owned_ok in *; simpl in *; [done| |done].
    destruct Hok as [Hup Hc]. split; [done|]. intros Hid. by apply Hc, (fw_uploads _ _ Hs).
Qed.

(** Tables with one more row, which refers to the file of [x]. *)
Record adds (x : Owned) (t t' : Tables) : Prop := {
  ad_buckets : forall b, is_Some (t_buckets t' !! b) -> is_Some (t_buckets t !! b);
  ad_objects : forall b k row, t_objects t' !! (b, k) = Some row -> t_objects t !! (b, k) = Some row \/
    own_ref x = RObject b k /\ or_storage_path row = object_path b (own_id x) /\
    or_size row = string_len (own_content x);
  ad_parts : forall up k row, t_parts t' !! (up, k) = Some row -> t_parts t !! (up, k) = Some row \/
    own_ref x = RPart up k /\ pr_storage_path row = part_path up k (own_id x) /\
    pr_size row = string_len (own_content x) /\ is_Some (t_uploads t !! up);
  ad_uploads : forall id, is_Some (t_uploads t' !! id) -> is_Some (t_uploads t !! id) \/
    own_ref x = RUpload /\ id = uuid_of (own_id x);
}.

(** The uuid of [x] is committed. *)
Definition commits (x : Owned) (g : Ghost) : Ghost := fun n r => g n r \/ n = own_id x /\ r = own_ref x.

Lemma adds_refers U g w t' x n r :
  inv U g w -> U x -> adds x (tables w) t' -> refers t' r n -> refers (tables w) r n \/ n = own_id x /\ r = own_ref x.
Proof.
  intros Hi Hx Ha. destruct (inv_owned _ _ _ Hi x Hx) as (_ & _ & Hok). unfold owned_ok in Hok.
  destruct r as [b k|up k|]; simpl.
  - intros (row & Hrow & Hp). destruct (ad_objects _ _ _ Ha _ _ _ Hrow) as [Hr|(Er & Hp' & _)]; [left; by exists row|].
    right. rewrite Er in Hok. split; [|done]. destruct Hok as [[Hb _] _]. rewrite Hp in Hp'.
    by apply object_path_inj in Hp'.
  - intros (row & Hrow & Hp). destruct (ad_parts _ _ _ Ha _ _ _ Hrow) as [Hr|(Er & Hp' & _ & Hs)]; [left; by exists row|].
    right. split; [|done]. apply (inv_upload_normal _ _ _ _ Hi) in Hs. rewrite Hp in Hp'.
    by apply part_path_inj in Hp'.
  - intros Hs. destruct (ad_uploads _ _ _ Ha _ Hs) as [?|[Er E]]; [by left|right].
    split; [|done]. by apply uuid_inj.
Qed.

Lemma adds_evolves U g w d' x :
  inv U g w -> U x -> adds x (tables w) (db_tables d') ->
  evolves g w (commits x g) (MkWorld d' (w_os w) (w_cache w)).
Proof.
  intros Hi Hx Ha. split; [by left|]. intros n r Hg Hr Hr'.
  destruct (adds_refers _ _ _ _ _ _ _ Hi Hx Ha Hr') as [?|[-> _]]; [done|].
  destruct (inv_owned _ _ _ Hi x Hx) as (_ & Hfresh & _). by apply (Hfresh r).
Qed.

Lemma adds_owned x F g w d' y :
  inv (union (only x) F) g w -> adds x (tables w) (db_tables d') -> disj clash (only x) F -> F y ->
  own_id y < os_uuids (w_os w) /\ (forall r, ~ commits x g (own_id y) r) /\
  owned_ok (commits x g) (MkWorld d' (w_os w) (w_cache w)) y.
Proof.
  intros Hi Ha Hd Hy. rewrite disj_only in Hd. specialize (Hd y Hy).
  destruct (inv_owned _ _ _ Hi y (or_intror Hy)) as (Hn & Hg & Hok). split; [done|].
  split; [intros r [Hr|[E _]]; [by eapply Hg|done]|].
  destruct y as [n [b k|up k|] c]; unfold owned_ok in *; simpl in *; [done| |done].
  destruct Hok as [(m & -> & Hm) Hc]. split; [exists m; split; [done|by left]|]. intros Hs. apply Hc.
  destruct (ad_uploads _ _ _ Ha _ Hs) as [?|[_ E]]; [done|]. apply uuid_inj in E as ->.
  destruct (inv_owned _ _ _ Hi x (or_introl eq_refl)) as (_ & Hfresh & _). by destruct (Hfresh RUpload).
Qed.

Lemma inv_adds x F g w d' :
  inv (union (only x) F) g w -> db_inv (db_tables d') -> adds x (tables w) (db_tables d') ->
  disj clash (only x) F -> inv (union none F) (commits x g) (MkWorld d' (w_os w) (w_cache w)).
Proof.
  intros Hi Hdb Ha Hd.
  destruct (inv_owned _ _ _ Hi x (or_introl eq_refl)) as (Hn & Hfresh & Hok). unfold owned_ok in Hok.
  split; simpl.
  - done.
  - intros b Hb%(ad_buckets _ _ _ Ha). by apply (inv_bucket _ _ _ Hi).
  - intros b k row Hrow. destruct (ad_objects _ _ _ Ha _ _ _ Hrow) as [Hr|(Er & _)].
    + by apply (inv_key _ _ _ Hi _ _ _ Hr).
    + rewrite Er in Hok. apply Hok.
  - intros b k row Hrow. destruct (ad_objects _ _ _ Ha _ _ _ Hrow) as [Hr|(Er & Hp & Hz)].
    + destruct (inv_object _ _ _ Hi _ _ _ Hr) as (n & Hp & Hg & Hf). exists n. split; [done|]. split; [by left|done].
    + exists (own_id x). split; [done|]. split; [right; done|]. rewrite Er in Hok. exists (own_content x). by destruct Hok as (_ & _ & ?).
  - intros up k row Hrow. destruct (ad_parts _ _ _ Ha _ _ _ Hrow) as [Hr|(Er & Hp & Hz & Hs)].
    + destruct (inv_part _ _ _ Hi _ _ _ Hr) as (n & Hp & Hg & Hf). exists n. split; [done|]. split; [by left|done].
    + exists (own_id x). split; [done|]. split; [right; done|]. rewrite Er in Hok. exists (own_content x).
      split; [by apply Hok|done].
  - intros id Hid. destruct (ad_uploads _ _ _ Ha _ Hid) as [Hs|[Er ->]].
    + apply (inv_upload _ _ _ Hi) in Hs as (n & -> & Hg). exists n. split; [done|by left].
    + exists (own_id x). split; [done|]. right. done.
  - intros n r r' [Hr|[-> ->]] [Hr'|[E' ->]]; subst; [by eapply (inv_unique _ _ _ Hi)| | |done].
    + by apply Hfresh in Hr.
    + by apply Hfresh in Hr'.
  - intros n r [Hr|[-> _]]; [by eapply (inv_bound _ _ _ Hi)|done].
  - intros y [[]|Hy]. by apply (adds_owned x F).
  - apply (inv_os _ _ _ Hi).
  - eapply cache_holds_impl; [|apply (inv_cache _ _ _ Hi)]. intros k v. apply entry_known_mono. by left.
Qed.
End Integrity.
