(* ===== verification/IntegrityOps.v ===== *)
(** * Storage integrity: the calls

    Each call of a repository and of the storage engine keeps the invariant, whatever
    fails, and what it tells the request that makes it. *)

From S2P Require Import Prelude GoStrings Encoding GoPath Effects Os Sanitize DiskEngine Reconcile Schema Db Iam Authz ObjectRepo BucketRepo MultipartRepo UserRepo GrantRepo ShareLinkRepo ActivityRepo Repositories Cache Prog CachedBucketRepo CachedObjectRepo CachedRepo ObjectOps Integrity.

Section Ops.
Context `{Cwd} `{UL : UuidLaws} (e : engine) (We : wf_engine e).

Abbreviation inv := (Integrity.inv e).
Abbreviation op := (Integrity.op clash inv evolves).
Abbreviation asrt := (Ghost -> World -> Prop).

(** The six things that a call leaves behind. *)
Ltac op_done := refine (conj _ (conj _ (conj _ (conj _ (conj _ _))))).

(** ** Assertions *)

(** [path] is the storage path of the file of [n], for [r]. *)
Definition names (r : Ref) (n : nat) (path : string) : Prop :=
  match r with
  | RObject b _ => bucket_dir b /\ path = object_path b n
  | RPart up k => normal_seg up /\ path = part_path up k n
  | RUpload => False
  end.

Definition stored_object (b k path : string) : asrt := fun g w =>
  exists n, names (RObject b k) n path /\ committed n (RObject b k) g w.
Definition garbage (path : string) : asrt := fun g w => exists r n, names r n path /\ dead n r g w.
Definition upload_known (id : string) : asrt := fun g w => exists n, id = uuid_of n /\ committed n RUpload g w.
Definition upload_gone (id : string) : asrt := fun g w => exists n, id = uuid_of n /\ dead n RUpload g w.
Definition replaced (path : string) : asrt := fun g w => path = "" \/ garbage path g w.

Lemma stable_stored_object b k path : stable evolves (stored_object b k path).
Proof. intros g w g' w' He (n & Hn & Hc). exists n. split; [done|]. by eapply stable_committed. Qed.

Lemma stable_garbage path : stable evolves (garbage path).
Proof. intros g w g' w' He (r & n & Hn & Hd). exists r, n. split; [done|]. by eapply stable_dead. Qed.

Lemma stable_upload_known id : stable evolves (upload_known id).
Proof. intros g w g' w' He (n & -> & Hc). exists n. split; [done|]. by eapply stable_committed. Qed.

Lemma stable_upload_gone id : stable evolves (upload_gone id).
Proof. intros g w g' w' He (n & -> & Hd). exists n. split; [done|]. by eapply stable_dead. Qed.

Lemma stable_replaced path : stable evolves (replaced path).
Proof. intros g w g' w' He [->|Hg]; [by left|right]. by eapply stable_garbage. Qed.

(** ** Calls that leave the files and their rows alone *)

(** The call keeps what it owns, and tells [fact] of its result. *)
Definition same_post {A} (O : Owned -> Prop) (fact : result A -> asrt) (r : result A) (O' : Owned -> Prop)
    (P' : asrt) : Prop := O' = O /\ P' = fact r.

Lemma op_db_same {A} (m : M Db A) O (Pre : asrt) (fact : result A -> asrt) :
  (forall r, stable evolves (fact r)) ->
  (forall U g w, inv U g w -> Pre g w ->
    wp m (fun r d' => db_inv (db_tables d') /\ same_refs (tables w) (db_tables d') /\ fact r g (MkWorld d' (w_os w) (w_cache w)))
       (w_db w)) ->
  op (db m) O Pre (same_post O fact).
Proof.
  intros Hst Hm F g w Hd HP Hi. apply wp_db. eapply wp_mono; [by eapply Hm|]. cbv beta.
  intros r d' (Hdb & Hs & Hf). exists g, O, (fact r).
  op_done; [by apply evolves_tables|done|by apply inv_tables|apply Hst|done|done].
Qed.

Lemma op_os_same {A} (m : M Os A) O (Pre : asrt) (fact : result A -> Prop) :
  (forall o, wp m (fun r o' => files_frame (fun _ => False) o o' /\ fact r) o) -> keeps wf_os m ->
  op (os m) O Pre (same_post O (fun r => pure (fact r))).
Proof.
  intros Hm Hk F g w Hd HP Hi. apply wp_os.
  eapply wp_mono; [apply wp_and; [apply Hm|apply Hk, (inv_os _ _ _ _ Hi)]|]. cbv beta.
  intros r o' [[Hf Hr] Hwf]. exists g, O, (pure (fact r)).
  op_done; [by apply evolves_disk|done|eapply inv_disk; [done|exact Hf|done|by intros ?? _ []]|apply stable_pure|done|done].
Qed.

(** A query. *)
Definition reads {A} (m : M Db A) : Prop := forall t, db_keeps (eq t) m.

Lemma op_reads {A} (m : M Db A) O (Pre : asrt) : reads m -> op (db m) O Pre (same_post O (fun _ => pure True)).
Proof.
  intros Hm. apply op_db_same; [intros r; apply stable_pure|]. intros U g w Hi _.
  eapply wp_mono; [by apply (Hm (tables w))|]. cbv beta. intros r d' <-.
  split; [by apply Hi|]. split; [apply same_refs_refl|done].
Qed.

(** A write that does not touch the rows of files. *)
Lemma op_write_same {A} (m : M Db A) O (Pre : asrt) :
  db_keeps db_inv m -> (forall t, db_keeps (same_refs t) m) -> op (db m) O Pre (same_post O (fun _ => pure True)).
Proof.
  intros Hw Hm. apply op_db_same; [intros r; apply stable_pure|]. intros U g w Hi _.
  eapply wp_mono; [apply wp_and; [apply Hw, Hi|apply (Hm (tables w)), same_refs_refl]|].
  cbv beta. intros r d' [? ?]. done.
Qed.

Ltac stmt_same :=
  intros ? []; unfold update_upload_status, insert_activity, insert_user, delete_bucket, insert_bucket;
  repeat case_match; try done; simplify_eq; split; simpl; auto.

Lemma update_upload_status_refs t id st now : stmt_keeps (same_refs t) (update_upload_status id st now).
Proof.
  stmt_same. intros id'. rewrite <- sr_uploads.
  destruct (decide (id = id')) as [->|Hne]; [|by rewrite lookup_insert_ne].
  rewrite lookup_insert_eq. split; [by eauto|done].
Qed.

Lemma insert_activity_refs t id r : stmt_keeps (same_refs t) (insert_activity id r).
Proof. stmt_same. Qed.

Lemma insert_user_refs t id r : stmt_keeps (same_refs t) (insert_user id r).
Proof. stmt_same. Qed.

Lemma delete_bucket_refs t name : stmt_keeps (same_refs t) (delete_bucket name).
Proof.
  stmt_same. intros b1 Hb. apply sr_buckets. destruct Hb as [x [_ Hb]%lookup_delete_Some]. by exists x.
Qed.

Lemma insert_bucket_refs t name r : bucket_dir name -> stmt_keeps (same_refs t) (insert_bucket name r).
Proof.
  intros Hn. stmt_same. intros b1 Hb. destruct (decide (name = b1)) as [->|Hne]; [by right|].
  rewrite lookup_insert_ne in Hb by done. by apply sr_buckets.
Qed.

(** ** Queries *)

(** The call changes no row, and its result follows from the tables. *)
Definition reads_as {A} (m : M Db A) (f : Tables -> result A -> Prop) : Prop :=
  forall s, wp m (fun r s' => db_tables s' = db_tables s /\ f (db_tables s) r) s.

Lemma op_reads_as {A} (m : M Db A) O (Pre : asrt) f (fact : result A -> asrt) :
  reads_as m f -> (forall r, stable evolves (fact r)) ->
  (forall U g w r, inv U g w -> f (tables w) r -> fact r g w) ->
  op (db m) O Pre (same_post O fact).
Proof.
  intros Hm Hst Hf. apply op_db_same; [done|]. intros U g w Hi _.
  eapply wp_mono; [apply Hm|]. cbv beta. intros r d' [Et Hr]. rewrite Et.
  split; [by apply Hi|]. split; [apply same_refs_refl|].
  apply (Hst r g w); [|by eapply Hf]. apply evolves_tables. rewrite Et. apply same_refs_refl.
Qed.

Lemma reads_as_query {A} (q : Tables -> A) : reads_as (query q) (fun t r => forall a, r = Ok a -> a = q t).
Proof. intros s. apply wp_query; [done|]. intros fs. by split; [|intros a [= ->]]. Qed.

(** What a result tells when it is one. *)
Definition on_ok {A} (fact : A -> asrt) (r : result A) : asrt :=
  match r with Ok a => fact a | Err _ => pure True end.

Lemma stable_on_ok {A} (fact : A -> asrt) r :
  (forall a, stable evolves (fact a)) -> stable evolves (on_ok fact r).
Proof. intros Hf. destruct r; [apply Hf|apply stable_pure]. Qed.

Lemma op_reads_ok {A} (m : M Db A) O (Pre : asrt) (f : Tables -> A -> Prop) (fact : A -> asrt) :
  reads_as m (fun t r => forall a, r = Ok a -> f t a) -> (forall a, stable evolves (fact a)) ->
  (forall U g w a, inv U g w -> f (tables w) a -> fact a g w) ->
  op (db m) O Pre (same_post O (on_ok fact)).
Proof.
  intros Hm Hst Hf. eapply op_reads_as; [exact Hm|intros r; by apply stable_on_ok|].
  intros U g w [a|err] Hi Hr; [|done]. by eapply Hf; [|apply Hr].
Qed.

(** An object's row names its file. *)
Definition found_object (b k : string) (obj : Object) : asrt :=
  also (stored_object b k (o_storage_path obj)) (pure (o_bucket_name obj = b /\ o_key obj = k)).

Lemma stable_found_object b k obj : stable evolves (found_object b k obj).
Proof. apply stable_also; [apply stable_stored_object|apply stable_pure]. Qed.

Lemma op_GetByKey b k O (Pre : asrt) :
  op (db (ObjectRepository.GetByKey b k)) O Pre (same_post O (on_ok (found_object b k))).
Proof.
  apply op_reads_ok with (f := fun t obj => exists row, t_objects t !! (b, k) = Some row /\
                                  o_storage_path obj = or_storage_path row /\ o_bucket_name obj = b /\ o_key obj = k).
  - intros s. unfold ObjectRepository.GetByKey. apply wp_bind, wp_query; [done|]. intros fs.
    destruct (t_objects (db_tables s) !! (b, k)) as [row|]; [|done].
    apply wp_ret. split; [done|]. intros a [= <-]. by exists row.
  - intros a. apply stable_found_object.
  - intros U g w obj Hi (row & Hrow & Ep & Hn). destruct (inv_object _ _ _ _ Hi _ _ _ Hrow) as (n & En & Hg & _).
    split; [|done]. exists n. rewrite Ep. split; [|done]. split; [by eapply inv_object_bucket|done].
Qed.

Lemma op_GetByName b O (Pre : asrt) :
  op (db (BucketRepository.GetByName b)) O Pre (same_post O (on_ok (fun bucket => pure (bucket_dir b /\ b_name bucket = b)))).
Proof.
  apply op_reads_ok with (f := fun t bucket => is_Some (t_buckets t !! b) /\ b_name bucket = b).
  - intros s. unfold BucketRepository.GetByName. apply wp_bind, wp_query; [done|]. intros fs.
    destruct (t_buckets (db_tables s) !! b) eqn:E; [|done]. apply wp_ret. split; [done|]. intros a [= <-]. by eauto.
  - intros a. apply stable_pure.
  - intros U g w a Hi [Hb Hn]. split; [|done]. by apply (inv_bucket _ _ _ _ Hi).
Qed.

Lemma inv_upload_known U g w id : inv U g w -> is_Some (t_uploads (tables w) !! id) -> upload_known id g w.
Proof. intros Hi Hid. by apply (inv_upload _ _ _ _ Hi). Qed.

Lemma op_GetByID id O (Pre : asrt) :
  op (db (MultipartRepository.GetByID id)) O Pre (same_post O (on_ok (fun _ => upload_known id))).
Proof.
  apply op_reads_ok with (f := fun t _ => is_Some (t_uploads t !! id)).
  - intros s. unfold MultipartRepository.GetByID. apply wp_bind, wp_query; [done|]. intros fs.
    destruct (t_uploads (db_tables s) !! id) eqn:E; [|done]. apply wp_ret. by eauto.
  - intros a. apply stable_upload_known.
  - intros U g w _ Hi Hb. by eapply inv_upload_known.
Qed.

Definition known_uploads (uploads : list MultipartUpload) : asrt := fun g w =>
  Forall (fun u => upload_known (u_id u) g w) uploads.

Lemma stable_known_uploads uploads : stable evolves (known_uploads uploads).
Proof. intros g w g' w' He Hu. eapply Forall_impl; [exact Hu|]. intros u. by apply stable_upload_known. Qed.

Lemma all_uploads_known U g w uploads :
  inv U g w -> (forall u, u ∈ uploads -> u ∈ MultipartRepository.all_uploads (tables w)) ->
  known_uploads uploads g w.
Proof.
  intros Hi Hu. apply Forall_forall. intros u Hin%Hu. eapply inv_upload_known; [done|].
  apply list_elem_of_fmap in Hin as ([id row] & -> & Hin%elem_of_map_to_list). by exists row.
Qed.

Lemma op_ListStale cutoff O (Pre : asrt) :
  op (db (MultipartRepository.ListStale cutoff)) O Pre (same_post O (on_ok known_uploads)).
Proof.
  eapply op_reads_ok; [apply reads_as_query|apply stable_known_uploads|].
  intros U g w uploads Hi ->. eapply all_uploads_known; [done|]. intros u Hu.
  rewrite merge_sort_Permutation in Hu. by apply list_elem_of_filter in Hu as [_ Hu].
Qed.

Lemma op_ListByBucket b prefix keyMarker idMarker limit O (Pre : asrt) :
  op (db (MultipartRepository.ListByBucket b prefix keyMarker idMarker limit)) O Pre
     (same_post O (on_ok (fun page => known_uploads page.1.1.1))).
Proof.
  apply op_reads_ok with (f := fun t page =>
    forall u, u ∈ page.1.1.1 -> u ∈ MultipartRepository.select_listed b prefix keyMarker idMarker t).
  - intros s. unfold MultipartRepository.ListByBucket. cbv zeta.
    apply wp_bind, wp_query; [done|]. intros fs. set (n := if (limit <=? 0)%Z || (1000 <? limit)%Z then 1000%Z else limit).
    set (l := take _ _). assert (Hl : forall u, u ∈ l -> u ∈ MultipartRepository.select_listed b prefix keyMarker idMarker
      (db_tables s)) by (intros u (i & Hi & _)%elem_of_take; by eapply list_elem_of_lookup_2).
    assert (Ht : forall u, u ∈ take (Z.to_nat n) l -> u ∈ MultipartRepository.select_listed b prefix keyMarker idMarker
      (db_tables s)) by (intros u (i & Hi & _)%elem_of_take; apply Hl; by eapply list_elem_of_lookup_2).
    destruct (n <? Z.of_nat (length l))%Z; [destruct (last (take (Z.to_nat n) l))|]; apply wp_ret;
      (split; [done|]); by intros a [= <-].
  - intros a. apply stable_known_uploads.
  - intros U g w page Hi Hp. eapply all_uploads_known; [done|]. intros u Hu%Hp.
    unfold MultipartRepository.select_listed in Hu. rewrite merge_sort_Permutation in Hu.
    by apply list_elem_of_filter in Hu as [_ Hu].
Qed.

(** The parts of an upload lie in its directory. *)
Definition part_paths (up : string) (parts : list MultipartPart) : Prop :=
  Forall (fun p => exists k n, normal_seg up /\ p_storage_path p = part_path up k n) parts.

Lemma op_ListParts id O (Pre : asrt) :
  op (db (MultipartRepository.ListParts id)) O Pre (same_post O (on_ok (fun parts => pure (part_paths id parts)))).
Proof.
  eapply op_reads_ok; [apply reads_as_query|intros a; apply stable_pure|].
  intros U g w parts Hi ->. apply Forall_forall. intros p Hp.
  unfold MultipartRepository.select_parts in Hp. rewrite merge_sort_Permutation in Hp.
  apply list_elem_of_fmap in Hp as ([[up k] row] & -> & [Hup Hrow]%list_elem_of_filter). simpl in Hup. subst up.
  apply elem_of_map_to_list in Hrow. destruct (inv_part _ _ _ _ Hi _ _ _ Hrow) as (n & Hn & _).
  exists k, n. split; [|done]. eapply inv_upload_normal, inv_part_upload; [done..|]. by exists row.
Qed.

(** ** Rows that go *)

Lemma op_db_fewer {A} (m : M Db A) O (Pre : asrt) (fact : result A -> asrt) :
  (forall r, stable evolves (fact r)) -> db_keeps db_inv m ->
  (forall U g w, inv U g w -> Pre g w ->
    wp m (fun r d' => fewer (tables w) (db_tables d') /\ fact r g (MkWorld d' (w_os w) (w_cache w))) (w_db w)) ->
  op (db m) O Pre (same_post O fact).
Proof.
  intros Hst Hk Hm F g w Hd HP Hi. apply wp_db.
  eapply wp_mono; [apply wp_and; [apply Hk, Hi|by eapply Hm]|]. cbv beta.
  intros r d' (Hdb & Hs & Hf). exists g, O, (fact r).
  destruct (inv_fewer _ _ _ _ d' Hi Hdb Hs) as [He Hi'].
  op_done; [done|done|done|apply Hst|done|done].
Qed.

Lemma op_ObjectDelete b k path O (Pre : asrt) :
  entails Pre (stored_object b k path) ->
  op (db (ObjectRepository.Delete b k)) O Pre (same_post O (on_ok (fun _ => garbage path))).
Proof.
  intros HP. apply op_db_fewer.
  { intros r. apply stable_on_ok. intros _. apply stable_garbage. }
  { apply write_op_inv. constructor. }
  intros U g w Hi (n & Hn & Hg)%HP. unfold ObjectRepository.Delete.
  apply wp_bind, wp_exec; [by split; [apply fewer_refl|]|]. intros fs. unfold delete_object.
  destruct (t_objects (tables w) !! (b, k)) as [row|] eqn:E; apply wp_ret || apply wp_fail;
    (split; [|try done]); try apply fewer_refl.
  - split; simpl; auto. by intros k' row' [_ Hrow]%lookup_delete_Some.
  - exists (RObject b k), n. split; [done|]. split; [done|]. simpl. intros (row' & Hrow & _).
    by rewrite lookup_delete_eq in Hrow.
Qed.

Lemma op_UploadDelete id O (Pre : asrt) :
  entails Pre (upload_known id) ->
  op (db (MultipartRepository.Delete id)) O Pre (same_post O (on_ok (fun _ => upload_gone id))).
Proof.
  intros HP. apply op_db_fewer.
  { intros r. apply stable_on_ok. intros _. apply stable_upload_gone. }
  { apply write_op_inv. constructor. }
  intros U g w Hi (n & -> & Hg)%HP. unfold MultipartRepository.Delete.
  apply wp_bind, wp_exec; [by split; [apply fewer_refl|]|]. intros fs. unfold delete_upload.
  destruct (t_uploads (tables w) !! uuid_of n) as [row|] eqn:E; apply wp_ret || apply wp_fail;
    (split; [|try done]); try apply fewer_refl.
  - split; simpl; auto.
    + intros k row' Hrow. by apply map_lookup_filter_Some in Hrow as [Hrow _].
    + intros id [x [_ Hx]%lookup_delete_Some]. by exists x.
  - exists n. split; [done|]. split; [done|]. simpl. rewrite lookup_delete_eq. by intros [].
Qed.

(** ** Rows that are published *)

(** A success hands the file of [x] over, a failure leaves it. *)
Definition publishes {A} (x : Owned) (fact : A -> asrt) (r : result A) (O' : Owned -> Prop) (P' : asrt) : Prop :=
  match r with
  | Ok a => O' = none /\ P' = fact a
  | Err _ => O' = only x /\ P' = pure True
  end.

Lemma op_db_adds {A} (m : M Db A) x (Pre : asrt) (fact : A -> asrt) :
  (forall a, stable evolves (fact a)) -> db_keeps db_inv m ->
  (forall F g w, inv (union (only x) F) g w -> Pre g w ->
    wp m (fun r d' => match r with
                      | Ok a => adds x (tables w) (db_tables d') /\ fact a (commits x g) (MkWorld d' (w_os w) (w_cache w))
                      | Err _ => db_tables d' = tables w
                      end) (w_db w)) ->
  op (db m) (only x) Pre (publishes x fact).
Proof.
  intros Hst Hk Hm F g w Hd HP Hi. apply wp_db.
  eapply wp_mono; [apply wp_and; [apply Hk, Hi|by eapply Hm]|]. cbv beta. intros [a|err] d' [Hdb Ha].
  - destruct Ha as [Ha Hf]. exists (commits x g), none, (fact a).
    op_done; [apply (adds_evolves e (union (only x) F)); [done|by left|done]|apply disj_none|by apply inv_adds|apply Hst|done|done].
  - assert (Hs : same_refs (tables w) (db_tables d')) by (rewrite Ha; apply same_refs_refl).
    exists g, (only x), (pure True).
    op_done; [by apply evolves_tables|done|by apply inv_tables|apply stable_pure|done|done].
Qed.

(** The object that [x] was written for. *)
Definition object_of (x : Owned) (obj : Object) : Prop :=
  own_ref x = RObject (o_bucket_name obj) (o_key obj) /\
  o_storage_path obj = object_path (o_bucket_name obj) (own_id x) /\ o_size obj = string_len (own_content x).

Lemma put_object_objects obj now t b k row :
  t_objects (ObjectSpec.put_object obj now t) !! (b, k) = Some row ->
  t_objects t !! (b, k) = Some row \/
  o_bucket_name obj = b /\ o_key obj = k /\ or_storage_path row = o_storage_path obj /\ or_size row = o_size obj.
Proof.
  unfold ObjectSpec.put_object. simpl. destruct (decide ((o_bucket_name obj, o_key obj) = (b, k))) as [E|Hne].
  - rewrite E, lookup_insert_eq. intros [= <-]. right. by simplify_eq.
  - rewrite lookup_insert_ne by done. by left.
Qed.

Lemma adds_put_object x obj now t :
  object_of x obj -> adds x t (ObjectSpec.put_object obj now t).
Proof.
  intros (Er & Hp & Hz). split; [done| |by left|by left].
  intros b k row [Hr|(<- & <- & Hp' & Hz')]%put_object_objects; [by left|right]. split_and!; congruence.
Qed.

(** The file that an object names when it is replaced is garbage. *)
Lemma put_object_replaced x F g w d' obj now :
  object_of x obj -> inv (union (only x) F) g w ->
  t_objects (db_tables d') = t_objects (ObjectSpec.put_object obj now (tables w)) ->
  replaced (match t_objects (tables w) !! (o_bucket_name obj, o_key obj) with
            | Some row => or_storage_path row | None => "" end) (commits x g) (MkWorld d' (w_os w) (w_cache w)).
Proof.
  intros (Er & Hp & _) Hi Ht.
  destruct (t_objects (tables w) !! _) as [row|] eqn:Erow; [right|by left].
  destruct (inv_object _ _ _ _ Hi _ _ _ Erow) as (n & Hn & Hg & _).
  assert (Hb : bucket_dir (o_bucket_name obj)) by by eapply inv_object_bucket.
  exists (RObject (o_bucket_name obj) (o_key obj)), n. split; [done|]. split; [by left|].
  simpl. rewrite Ht. simpl. rewrite lookup_insert_eq. intros (row' & [= <-] & Hp').
  change (o_storage_path obj = object_path (o_bucket_name obj) n) in Hp'. rewrite Hp in Hp'.
  apply object_path_inj in Hp'; [|apply Hb..].
  destruct (inv_owned _ _ _ _ Hi x (or_introl eq_refl)) as (_ & Hfresh & _). rewrite Hp' in Hfresh. by eapply Hfresh.
Qed.

Lemma op_Replace x obj ifMatch ifNoneMatch (Pre : asrt) :
  object_of x obj -> op (db (ObjectRepository.Replace obj ifMatch ifNoneMatch)) (only x) Pre (publishes x replaced).
Proof.
  intros Hx. apply op_db_adds; [apply stable_replaced|apply write_op_inv; constructor|].
  intros F g w Hi _. eapply wp_mono; [apply ObjectSpec.wp_Replace|]. cbv beta.
  intros [old|err] d' Hr; [|exact Hr]. destruct Hr as (_ & -> & Et). split.
  - rewrite Et. by apply adds_put_object.
  - apply (put_object_replaced x F _ _ _ _ (db_clock (w_db w))); [done|done|by rewrite Et].
Qed.

Lemma op_CompleteUpload x obj id ifMatch ifNoneMatch (Pre : asrt) :
  object_of x obj ->
  op (db (MultipartRepository.CompleteUpload obj id ifMatch ifNoneMatch)) (only x) Pre
     (publishes x (fun old => also (replaced old) (upload_gone id))).
Proof.
  intros Hx. apply op_db_adds; [|apply write_op_inv; constructor|].
  { intros old. apply stable_also; [apply stable_replaced|apply stable_upload_gone]. }
  intros F g w Hi _. eapply wp_mono; [apply wp_CompleteUpload|]. cbv beta.
  intros [old|err] d' Hr; [|exact Hr]. destruct Hr as (Hs & _ & -> & Hgone & Hnop & Et & Hother & Eb).
  unfold upload_status in Hs, Hgone. apply fmap_Some in Hs as (u & Hu & _). apply fmap_None in Hgone.
  split; [|split].
  - destruct (adds_put_object x obj (db_clock (w_db w)) (tables w) Hx) as [_ Ho _ _]. split.
    + by rewrite Eb.
    + by rewrite Et.
    + intros up k row Hrow. left. destruct (decide (up = id)) as [->|Hne]; [by rewrite Hnop in Hrow|].
      by rewrite (proj2 (Hother up Hne)) in Hrow.
    + intros id' Hid. left. destruct (decide (id' = id)) as [->|Hne]; [rewrite Hgone in Hid; by destruct Hid|].
      by rewrite (proj1 (Hother id' Hne)) in Hid.
  - by apply (put_object_replaced x F _ _ _ _ (db_clock (w_db w))).
  - destruct (inv_upload _ _ _ _ Hi id (ex_intro _ u Hu)) as (n & -> & Hg). exists n. split; [done|].
    split; [by left|]. simpl. rewrite Hgone. by intros [].
Qed.

(** The part that [x] was written for. *)
Definition part_of (x : Owned) (part : MultipartPart) : Prop :=
  own_ref x = RPart (p_upload_id part) (p_part_number part) /\
  p_storage_path part = part_path (p_upload_id part) (p_part_number part) (own_id x) /\
  p_size part = string_len (own_content x).

Lemma op_AddPart x part (Pre : asrt) :
  part_of x part -> op (db (MultipartRepository.AddPart part)) (only x) Pre (publishes x replaced).
Proof.
  intros (Er & Hp & Hz). apply op_db_adds; [apply stable_replaced|apply write_op_inv; constructor|].
  intros F g w Hi _. eapply wp_mono; [apply wp_AddPart|]. cbv beta.
  intros [old|err] d' Hr; [|exact Hr].
  destruct Hr as (Hs & -> & (row & Hrow & Hrp & Hrz & _) & Hother & Eu & Eo & Eb).
  unfold upload_status in Hs. apply fmap_Some in Hs as (u & Hu & _).
  assert (Hup : normal_seg (p_upload_id part)) by (eapply inv_upload_normal; [exact Hi|by exists u]).
  set (k := (p_upload_id part, p_part_number part)) in *. split.
  - split; [by rewrite Eb|intros b ky r0; rewrite Eo; by left| |rewrite Eu; by left].
    intros up n r0 Hr0. destruct (decide ((up, n) = k)) as [E|Hne]; [|rewrite Hother in Hr0 by done; by left].
    right. rewrite E, Hrow in Hr0. unfold k in E. simplify_eq. split_and!; [done|congruence|congruence|by exists u].
  - destruct (t_parts (tables w) !! k) as [row0|] eqn:E0; [right|by left].
    destruct (inv_part _ _ _ _ Hi _ _ _ E0) as (n & Hn & Hg & _).
    exists (RPart (p_upload_id part) (p_part_number part)), n. split; [done|]. split; [by left|].
    simpl. fold k. rewrite Hrow. intros (row' & [= <-] & Hp'). rewrite Hrp, Hp in Hp'.
    apply part_path_inj in Hp' as <-; [|done..].
    destruct (inv_owned _ _ _ _ Hi x (or_introl eq_refl)) as (_ & Hfresh & _). by eapply Hfresh.
Qed.

Lemma op_UploadCreate x upload (Pre : asrt) :
  own_ref x = RUpload -> u_id upload = uuid_of (own_id x) ->
  op (db (MultipartRepository.Create upload)) (only x) Pre (publishes x (fun _ => pure True)).
Proof.
  intros Er Hid. apply op_db_adds; [intros _; apply stable_pure|apply write_op_inv; constructor|].
  intros F g w Hi _. unfold MultipartRepository.Create.
  apply wp_bind, wp_time_now. destruct (negb _); [by apply wp_fail|].
  apply wp_bind, wp_exec; [done|]. intros fs. unfold insert_upload.
  destruct (negb _); [done|]. destruct (bool_decide _); [done|]. destruct (negb _); [done|].
  apply wp_ret. split; [|done]. split; simpl; [done|by left|by left|].
  intros id [row [[<- <-]|[_ Hr]]%lookup_insert_Some]; [by right|left]. by exists row.
Qed.

(** ** The cache *)

Abbreviation triple := (Integrity.triple clash inv evolves).
Abbreviation handler_safe := (Integrity.handler_safe clash inv evolves).

(** A critical section that keeps what is known of the entries, and tells [fact]. *)
Definition cache_step {A} (f : Cache -> A * Cache) (Pre : asrt) (fact : A -> asrt) : Prop :=
  forall g w, Pre g w -> cache_holds (entry_known g) (w_cache w) ->
  exists a c, f (w_cache w) = (a, c) /\ cache_holds (entry_known g) c /\ fact a g w.

Lemma op_cache {A} (f : Cache -> A * Cache) O (Pre : asrt) (fact : A -> asrt) :
  (forall a, stable evolves (fact a)) -> cache_step f Pre fact ->
  op (on_cache f) O Pre (fun r O' P' => exists a, r = Ok a /\ O' = O /\ P' = fact a).
Proof.
  intros Hst Hf F g w Hd HP Hi. apply wp_on_cache.
  destruct (Hf g w HP (inv_cache _ _ _ _ Hi)) as (a & c & -> & Hc & Ha). cbn [fst snd].
  assert (He : evolves g w g (MkWorld (w_db w) (w_os w) c)) by done.
  exists g, O, (fact a). op_done; [done|done|by apply inv_with_cache|apply Hst|by apply (Hst a g w)|by exists a].
Qed.

Lemma triple_cache `{Inhabited A} (f : Cache -> A * Cache) O (Pre : asrt) (fact : A -> asrt) :
  (forall a, stable evolves (fact a)) -> cache_step f Pre fact -> triple O Pre (cache f) O fact.
Proof.
  intros Hst Hf.
  change (cache f) with (pbind (call (on_cache f)) (fun r => Ret (match r with Ok a => a | Err _ => inhabitant end))).
  eapply triple_call; [by apply op_cache|]. intros r O' P' (a & -> & -> & ->). apply triple_ret. by intros g w [_ ?].
Qed.

Lemma triple_evict {A} (m : M Db A) f P O (Pre : asrt) :
  wrapped m f P -> triple O Pre (evict f) O (fun _ => pure True).
Proof.
  intros Hw. apply triple_cache; [intros a; apply stable_pure|]. intros g w _ Hc. exists tt, (f (w_cache w)).
  split; [done|]. split; [|done]. by apply (evict_holds m f P (entry_known g) (entry_known g) _ Hw).
Qed.

(** A write and its eviction. *)
Lemma handler_then_evict {A B} (m : M Db A) f P (k : result A -> prog World B) O (Pre : asrt) Post :
  wrapped m f P -> op (db m) O Pre Post ->
  (forall r O' P', Post r O' P' -> handler_safe O' (also Pre P') (k r)) ->
  handler_safe O Pre (pbind (then_evict m f) k).
Proof.
  intros Hw Hm Hk. unfold then_evict. apply handler_assoc. eapply handler_call; [exact Hm|].
  intros r O' P' HP. apply handler_assoc. eapply handler_bind; [by eapply triple_evict|].
  intros ?. eapply handler_pre; [by apply Hk|]. by intros g w [? _].
Qed.

Lemma triple_then_evict {A B} (m : M Db A) f P (k : result A -> prog World B) O O2 (Pre : asrt) Post phi :
  wrapped m f P -> op (db m) O Pre Post ->
  (forall r O' P', Post r O' P' -> triple O' (also Pre P') (k r) O2 phi) ->
  triple O Pre (pbind (then_evict m f) k) O2 phi.
Proof.
  intros Hw Hm Hk. unfold then_evict. apply triple_assoc. eapply triple_call; [exact Hm|].
  intros r O' P' HP. apply triple_assoc. eapply triple_bind; [by eapply triple_evict|].
  intros ?. eapply triple_pre; [by apply Hk|]. by intros g w [? _].
Qed.

(** A read: what the cache holds was true when it was published, and stays so. *)
Section CachedReads.
Context {A : Type} (lookup : Cache -> option A * Cache) (load : M Db A) (publish : A -> Z -> Cache -> bool * Cache).
Context (fact : A -> asrt) (Hst : forall a, stable evolves (fact a)).
Context (Hlook : forall Pre, cache_step lookup Pre (fun hit => match hit with Some a => fact a | None => pure True end)).
Context (Hload : forall O (Pre : asrt), op (db load) O Pre (same_post O (on_ok fact))).
Context (Hpub : forall a revision (Pre : asrt), entails Pre (fact a) -> cache_step (publish a revision) Pre (fun _ => pure True)).

Lemma triple_cached_read again O (Pre : asrt) : triple O Pre (cached_read again lookup load publish) O (on_ok fact).
Proof using Hst Hlook Hload Hpub.
  revert Pre. induction again as [|again IH]; intros Pre; cbn [cached_read];
    (eapply triple_bind; [apply (triple_cache _ _ _ (fun _ => pure True)); [intros ?; apply stable_pure|]|];
      [by intros g w _ Hc; eexists _, _|intros revision]);
    (eapply triple_bind; [apply triple_cache, Hlook; by intros [a|]; [apply Hst|apply stable_pure]|]);
    (intros [a|]; [apply triple_ret; by intros g w [_ ?]|]);
    (eapply triple_call; [apply Hload|intros [a|err] ? ? [-> ->]; [|by apply triple_ret]]);
    (eapply triple_bind; [apply triple_cache, Hpub; [intros ?; apply stable_pure|by intros g w [_ ?]]|]);
    (intros [|]; [apply triple_ret; by intros g w [[_ ?] _]|]);
    (eapply triple_call; [apply op_reads; intros t; by apply keeps_db_ctx|intros [[]|err] ? ? [-> ->]; [|by apply triple_ret]]);
    [by apply triple_ret|apply IH].
Qed.
End CachedReads.

Lemma triple_GetByKey `{Rounds} b k O (Pre : asrt) :
  triple O Pre (CachedObjectRepository.GetByKey b k) O (on_ok (found_object b k)).
Proof.
  apply triple_cached_read.
  - apply stable_found_object.
  - intros P g w _ Hc. destruct (lookup_holds _ (objectKey b k) _ Hc) as (v & c & E & Hc' & _ & Hv).
    unfold getObject. rewrite E. eexists _, _. split; [done|]. split; [done|].
    destruct v as [v|]; [|done]. simpl. destruct (cv_object v) as [o|] eqn:Eo; [|done].
    destruct (Hv v eq_refl o Eo) as (? & ? & n & ? & ? & ?). split; [|done]. by exists n.
  - intros O' P. apply op_GetByKey.
  - intros o revision P HP g w Hs Hc. destruct (HP g w Hs) as [(n & Hn & Hg) [Eb Ek]].
    destruct (publish_holds (entry_known g) (object_entry o) revision _ Hc) as (ok & c & E & Hc' & _).
    + intros o' [= <-]. simpl. rewrite Eb, Ek. split_and!; [done|done|]. exists n. by destruct Hn.
    + unfold publishObject. rewrite E. by eexists _, _.
Qed.

Lemma triple_GetByName `{Rounds} b O (Pre : asrt) :
  triple O Pre (CachedBucketRepository.GetByName b) O (on_ok (fun bucket => pure (bucket_dir b /\ b_name bucket = b))).
Proof.
  apply triple_cached_read.
  - intros a. apply stable_pure.
  - intros P g w _ Hc. destruct (lookup_holds _ (bucketKey b) _ Hc) as (v & c & E & Hc' & _ & Hv).
    unfold getBucket. rewrite E. eexists _, _. split; [done|]. split; [done|].
    destruct v as [v|]; [|done]. simpl. destruct (cv_bucket v) as [bucket|] eqn:Eb; [|done]. by apply (Hv v eq_refl bucket).
  - intros O' P. apply op_GetByName.
  - intros bucket revision P HP g w Hs Hc. destruct (HP g w Hs) as [Hd Eb].
    destruct (publish_holds (entry_known g) (bucket_entry bucket) revision _ Hc) as (ok & c & E & Hc' & _).
    + intros b' [= <-]. simpl. by rewrite Eb.
    + unfold publishBucket. rewrite E. by eexists _, _.
Qed.

Lemma triple_InvalidateObjectCache b k O (Pre : asrt) :
  triple O Pre (InvalidateObjectCache b k) O (fun _ => pure True).
Proof. apply (triple_evict (ObjectRepository.Delete b k) _ (fun key => key = objectKey b k)). constructor. Qed.
End Ops.

#[export] Hint Resolve update_upload_status_refs insert_activity_refs insert_user_refs delete_bucket_refs
  insert_bucket_refs : fbs.
#[export] Hint Resolve stable_stored_object stable_garbage stable_upload_known stable_upload_gone
  stable_replaced stable_known_uploads stable_pure stable_also : fbs.
