(* ===== verification/IntegrityDisk.v ===== *)
(** * Storage integrity: the storage engine

    What a request gains when it writes a file, and that removing a file that it owns,
    or that no row can name again, spares every file in use. *)

From S2P Require Import Prelude GoStrings Encoding GoPath Effects Os Sanitize DiskEngine Schema Db Iam Authz ObjectRepo BucketRepo MultipartRepo Repositories Prog Integrity IntegrityOps.

Section Disk.
Context `{Cwd} `{UL : UuidLaws} (e : engine) (We : wf_engine e).

Abbreviation inv := (Integrity.inv e).
Abbreviation op := (Integrity.op clash inv evolves).
Abbreviation asrt := (Ghost -> World -> Prop).

Ltac op_done := refine (conj _ (conj _ (conj _ (conj _ (conj _ _))))).

(** ** Writing *)

(** A success makes the request the owner of a file, of which [made] holds; the call
    fails only if [may_fail]. *)
Definition creates {A} (may_fail : Prop) (made : A -> Owned -> Prop) (r : result A) (O' : Owned -> Prop)
    (P' : asrt) : Prop :=
  P' = pure True /\
  match r with
  | Ok a => exists x, made a x /\ O' = only x
  | Err _ => O' = none /\ may_fail
  end.

(** The files that a writer touches are new or temporary. *)
Definition only_new (n : nat) (touched : path -> Prop) : Prop :=
  forall r m, r <> RUpload -> (forall b k, r = RObject b k -> bucket_dir b) -> m < n -> ~ touched (ref_file e r m).

Lemma op_creates {A} (m : M Os A) (Pre : asrt) (touched : nat -> path -> Prop) (may_fail : Prop) (made : A -> Owned -> Prop) :
  (forall n, only_new n (touched n)) -> (forall g w, Pre g w -> keeps wf_os m) ->
  (forall U g w, inv U g w -> Pre g w ->
    wp m (fun r o' =>
      files_frame (touched (os_uuids (w_os w))) (w_os w) o' /\
      match r with
      | Ok a => exists x, made a x /\ own_id x = os_uuids (w_os w) /\ os_uuids (w_os w) < os_uuids o' /\
                          owned_ok e g (MkWorld (w_db w) o' (w_cache w)) x
      | Err _ => may_fail
      end) (w_os w)) ->
  op (os m) none Pre (creates may_fail made).
Proof.
  intros Hnew Hk Hm F g w Hd HP Hi. apply wp_os.
  eapply wp_mono; [apply wp_and; [by eapply Hm|by eapply Hk, (inv_os _ _ _ _ Hi)]|]. cbv beta.
  intros r o' [[Hf Hr] Hwf].
  assert (Hi' : inv (union none F) g (MkWorld (w_db w) o' (w_cache w))).
  { eapply inv_disk; [done|exact Hf|done|]. intros r' n Hu. apply Hnew; [apply Hu| |by eapply in_use_bound].
    intros b k ->. by eapply in_use_bucket. }
  destruct r as [a|err].
  - destruct Hr as (x & Hx & Hid & Hlt & Hok).
    destruct (inv_own e (own_id x) x F g w (MkWorld (w_db w) o' (w_cache w)) Hi') as [Hd' Hi'']; [done|lia|simpl; lia|done|done|].
    exists g, (only x), (pure True).
    op_done; [apply evolves_disk|done|done|apply stable_pure|done|]. split; [done|]. by exists x.
  - exists g, none, (pure True). op_done; [apply evolves_disk|done|done|apply stable_pure|done|by split].
Qed.

Lemma written_files_new b n : bucket_dir b -> only_new n (written_files e b n).
Proof.
  intros Hb r m Hr Hrb Hlt [E|E]; [|by apply ref_file_not_temp in E].
  apply (ref_file_inj e r (RObject b "") m n) in E; [lia|done..].
Qed.

(** What a writer of objects makes. *)
Definition made_object (b k : string) (res : string * Z) (x : Owned) : Prop :=
  own_ref x = RObject b k /\ res.1 = object_path b (own_id x) /\ res.2 = string_len (own_content x).

Lemma stored_owned b k g w c G r o' :
  bucket_dir b -> (is_ok r = true -> is_ok (ValidateKey k) = true) -> stored e b (w_os w) c G r o' ->
  files_frame (written_files e b (os_uuids (w_os w))) (w_os w) o' /\
  match r with
  | Ok a => exists x, made_object b k a x /\ own_id x = os_uuids (w_os w) /\ os_uuids (w_os w) < os_uuids o' /\
                      owned_ok e g (MkWorld (w_db w) o' (w_cache w)) x
  | Err _ => True
  end.
Proof.
  intros Hb Hk [Hf Hr]. split; [done|]. destruct r as [[path size]|]; [|done].
  destruct Hr as (-> & Hlt & Hfiles & -> & _). exists (MkOwned (os_uuids (w_os w)) (RObject b k) c).
  split; [done|]. split; [done|]. split; [done|]. unfold owned_ok. simpl. split; [done|]. split; [by apply Hk|].
  by rewrite Hfiles, lookup_insert_eq.
Qed.

(** A writer that succeeds has accepted the key. *)
Lemma Write_key b key r s : wp (Write e b key r) (fun res _ => is_ok res = true -> is_ok (ValidateKey key) = true) s.
Proof.
  unfold Write. apply wp_bind, wp_check_ctx; [done|]. intros fs. apply wp_bind, wp_lift_result.
  unfold resolveKeyPath. destruct (String.eqb _ _); [done|]. destruct (ValidateKey key); [|done].
  cbn beta iota zeta. destruct (negb _); [done|]. apply wp_any. done.
Qed.

Lemma AssembleParts_key b key paths s :
  wp (AssembleParts e b key paths) (fun res _ => is_ok res = true -> is_ok (ValidateKey key) = true) s.
Proof.
  unfold AssembleParts. apply wp_bind, wp_check_ctx; [done|]. intros fs. apply wp_bind, wp_lift_result.
  destruct (ValidateKey key); [|done]. by apply wp_any.
Qed.

Lemma op_Write b key r (Pre : asrt) :
  bucket_dir b -> op (os (Write e b key r)) none Pre (creates True (made_object b key)).
Proof.
  intros Hb. apply op_creates with (touched := written_files e b); [intros n; by apply written_files_new|intros g w _; by apply wf_Write|].
  intros U g w _ _. eapply wp_mono; [apply wp_and; [by apply wp_Write|apply Write_key]|]. cbv beta.
  intros res o' [Hs Hk]. by eapply stored_owned.
Qed.

Lemma op_AssembleParts b key paths (Pre : asrt) :
  bucket_dir b -> (forall n, parts_avoid e (temp_file e n) paths) ->
  op (os (AssembleParts e b key paths)) none Pre (creates True (made_object b key)).
Proof.
  intros Hb Ha. apply op_creates with (touched := written_files e b);
    [intros n; by apply written_files_new|intros g w _; by apply wf_AssembleParts|].
  intros U g w _ _. eapply wp_mono; [apply wp_and; [by apply wp_AssembleParts|apply AssembleParts_key]|]. cbv beta.
  intros res o' [(c & Hs) Hk]. by eapply stored_owned.
Qed.

Lemma wp_file_reader file (Q : result reader -> Os -> Prop) s :
  (forall src fs, Q (Ok src) (set_faults fs s)) -> wp (file_reader file) Q s.
Proof.
  intros HQ. unfold file_reader. apply wp_bind, wp_pop_fault. intros f fs.
  destruct file as [c|]; [|apply HQ]. destruct f; apply HQ.
Qed.

Lemma wf_file_reader file : keeps wf_os (file_reader file).
Proof. unfold file_reader. keeps_steps. Qed.

Lemma op_copy b key file (Pre : asrt) :
  bucket_dir b -> op (os (src <- file_reader file ;; Write e b key src)) none Pre (creates True (made_object b key)).
Proof.
  intros Hb. apply op_creates with (touched := written_files e b); [intros n; by apply written_files_new| |].
  { intros g w _. apply keeps_bind; [apply wf_file_reader|]. intros src. by apply wf_Write. }
  intros U g w _ _. apply wp_bind, wp_file_reader. intros src fs.
  eapply wp_mono; [apply wp_and; [by apply wp_Write|apply Write_key]|]. cbv beta. intros res o' [Hs Hk].
  exact (stored_owned b key g (MkWorld (w_db w) (set_faults fs (w_os w)) (w_cache w)) _ _ res o' Hb Hk Hs).
Qed.

Lemma known_upload_normal up g w : upload_known up g w -> normal_seg up.
Proof. intros (n & -> & _). apply uuid_normal. Qed.

(** What a writer of parts makes. *)
Definition made_part (up : string) (k : Z) (res : string * Z) (x : Owned) : Prop :=
  own_ref x = RPart up k /\ res.1 = part_path up k (own_id x) /\ res.2 = string_len (own_content x).

Lemma part_file_new up k n : only_new n (fun p => p = part_file e up k n).
Proof.
  intros r m Hr Hrb Hlt E. apply (ref_file_inj e r (RPart up k) m n) in E; [lia|done..].
Qed.

(** [WritePart] of an upload that exists, or has existed. *)
Lemma wp_WritePart_owned up k r g w s :
  (exists m, up = uuid_of m /\ g m RUpload) -> os_files s = os_files (w_os w) -> os_uuids s = os_uuids (w_os w) ->
  wp (WritePart e up k r) (fun res o' =>
    files_frame (fun p => p = part_file e up k (os_uuids (w_os w))) (w_os w) o' /\
    match res with
    | Ok a => exists x, made_part up k a x /\ own_id x = os_uuids (w_os w) /\ os_uuids (w_os w) < os_uuids o' /\
                        owned_ok e g (MkWorld (w_db w) o' (w_cache w)) x
    | Err _ => True
    end) s.
Proof.
  intros Hup Ef Eu. assert (Hn : normal_seg up) by (destruct Hup as (m & -> & _); apply uuid_normal).
  eapply wp_mono; [by apply WritePart_spec|]. cbv beta. rewrite Eu. intros res o' [[Hf Hle] Hr].
  split; [split; [by rewrite <- Ef|by rewrite <- Eu]|]. destruct res as [[path size]|]; [|done].
  destruct Hr as (-> & Hlt & Hfile & -> & _).
  exists (MkOwned (os_uuids (w_os w)) (RPart up k) (reader_content r)). by split_and!.
Qed.

Lemma op_WritePart up k r (Pre : asrt) :
  entails Pre (upload_known up) -> op (os (WritePart e up k r)) none Pre (creates True (made_part up k)).
Proof.
  intros HP. apply op_creates with (touched := fun n p => p = part_file e up k n); [apply part_file_new| |].
  { intros g w Hup%HP. by eapply wf_WritePart, known_upload_normal. }
  intros U g w _ Hup%HP. by apply wp_WritePart_owned.
Qed.

Lemma op_copy_part up k file (Pre : asrt) :
  entails Pre (upload_known up) ->
  op (os (src <- file_reader file ;;
          let* (storagePath, size) := WritePart e up k src in
          ret (storagePath, size, reader_content src))) none Pre
     (creates True (fun res => made_part up k res.1)).
Proof.
  intros HP. apply op_creates with (touched := fun n p => p = part_file e up k n); [apply part_file_new| |].
  { intros g w Hup%HP. apply keeps_bind; [apply wf_file_reader|]. intros src.
    apply keeps_bind; [by eapply wf_WritePart, known_upload_normal|]. intros []. apply keeps_ret. }
  intros U g w _ Hup%HP. apply wp_bind, wp_file_reader. intros src fs. apply wp_bind.
  eapply wp_mono; [by apply (wp_WritePart_owned up k src g w)|]. cbv beta.
  intros [[path size]|err] o' Hr; exact Hr.
Qed.

(** ** New identifiers *)

Lemma op_new_id (Pre : asrt) :
  op (os new_uuid) none Pre (creates False (fun id x => own_ref x = RUpload /\ id = uuid_of (own_id x))).
Proof.
  apply op_creates with (touched := fun _ _ => False); [by intros n r m _ _ _ []|intros g w _; apply wf_new_uuid|].
  intros U g w _ _. apply wp_new_uuid. split; [by apply files_frame_eq; [|simpl; lia]|].
  exists (MkOwned (os_uuids (w_os w)) RUpload ""). by split_and!; [..|simpl; lia|].
Qed.

Lemma op_new_uuid O (Pre : asrt) : op (os new_uuid) O Pre (same_post O (fun _ => pure True)).
Proof.
  apply (op_os_same e new_uuid O Pre (fun _ => True)); [|apply wf_new_uuid]. intros o. apply wp_new_uuid.
  split; [|done]. apply files_frame_eq; [done|simpl; lia].
Qed.

(** ** Removing *)

(** The files that removing a part may touch: the part, and the directories above. *)
Definition removed_files (r : Ref) (n : nat) (p : path) : Prop :=
  p = ref_file e r n \/
  exists up k l, r = RPart up k /\ l `prefix_of` ["multipart"; up] /\ l <> [] /\ p = data_segs e ++ ".tmp" :: l.

Lemma keeps_prune_loop (J : Os -> Prop) fuel data root rest :
  (forall l, l `prefix_of` rest -> l <> [] -> keeps J (os_remove (root ++ l))) ->
  keeps J (prune_loop fuel data root (root ++ rest)).
Proof.
  revert rest; induction fuel as [|fuel IH]; intros rest HP; cbn [prune_loop]; [apply keeps_ret|].
  destruct rest as [|x rest _] using rev_ind.
  { rewrite app_nil_r, (bool_decide_true (root = root)), orb_true_r by done. apply keeps_ret. }
  destruct (_ || _); [apply keeps_ret|]. apply keeps_bind.
  - apply keeps_attempt, HP; [done|]. by destruct rest.
  - intros [[]|]; [|apply keeps_ret]. rewrite app_assoc, removelast_last. apply IH.
    intros l Hl Hne. apply HP; [|done]. by apply prefix_app_r.
Qed.

Lemma pruneEmptyParents_part (J : Os -> Prop) up k n :
  normal_seg up ->
  (forall l, l `prefix_of` ["multipart"; up] -> l <> [] -> keeps J (os_remove (data_segs e ++ ".tmp" :: l))) ->
  keeps J (pruneEmptyParents e (render_abs (part_file e up k n))).
Proof.
  intros Hu HP. pose proof (part_segs_normal up k n Hu) as Hsegs.
  unfold pruneEmptyParents. rewrite (data_dir_render e We). unfold part_file.
  rewrite path_rel_below by (done || apply data_segs_normal).
  assert (Ef : firstPathElement (render_rel [".tmp"; "multipart"; up; part_name k n]) = ".tmp").
  { unfold firstPathElement. rewrite clean_render_rel, split_render_rel by done.
    pose proof (render_rel_not_empty [".tmp"; "multipart"; up; part_name k n]) as He.
    apply String.eqb_neq in He as ->; [|done..].
    destruct (String.eqb_spec (render_rel [".tmp"; "multipart"; up; part_name k n]) "."); done. }
  rewrite Ef. cbv zeta. change (String.eqb ".tmp" "" || String.eqb ".tmp" ".") with false. cbv iota.
  change (data_segs e ++ [".tmp"; "multipart"; up; part_name k n])
    with (data_segs e ++ [".tmp"; "multipart"; up] ++ [part_name k n]).
  assert (Hdir : Forall normal_seg (data_segs e ++ [".tmp"; "multipart"; up])).
  { apply below_normal. by apply (Forall_app _ [_; _; _] [_]) in Hsegs as [? _]. }
  rewrite app_assoc, path_dir_below by (done || apply part_name_normal).
  change ".tmp" with (render_rel [".tmp"]) at 2.
  rewrite path_join_abs_rel by (done || apply data_segs_normal || apply Forall_single, tmp_normal).
  rewrite !abs_segs_render by (done || apply data_segs_normal || apply below_normal, Forall_single, tmp_normal).
  change (data_segs e ++ [".tmp"; "multipart"; up]) with (data_segs e ++ [".tmp"] ++ ["multipart"; up]).
  rewrite app_assoc. apply keeps_prune_loop. intros l Hl Hne. rewrite <- app_assoc. by apply HP.
Qed.

(** Deleting a file keeps what its system calls keep. *)
Lemma keeps_Delete (J : Os -> Prop) r n path :
  names r n path -> keeps J check_ctx -> keeps J (os_remove (ref_file e r n)) ->
  (forall up k l, r = RPart up k -> l `prefix_of` ["multipart"; up] -> l <> [] ->
     keeps J (os_remove (data_segs e ++ ".tmp" :: l))) ->
  keeps J (Delete e path).
Proof.
  intros Hn Hctx Hfile Hdirs.
  assert (Hpath : exists full, resolveStoragePath e path = Ok full /\ abs_segs full = ref_file e r n /\
                               keeps J (pruneEmptyParents e full)).
  { destruct r as [b k|up k|]; [| |done]; destruct Hn as [Hb ->].
    - exists (render_abs (object_file e b n)). destruct Hb as [Hb _].
      rewrite (resolve_object e We), abs_segs_object, (pruneEmptyParents_object e We) by done. by split_and!; [..|apply keeps_ret].
    - exists (render_abs (part_file e up k n)). rewrite (resolve_part e We), abs_segs_part by done.
      split_and!; [done..|]. apply pruneEmptyParents_part; [done|]. intros l. by apply (Hdirs up k). }
  destruct Hpath as (full & Er & Ea & Hp). unfold Delete. rewrite Er. apply keeps_bind; [done|intros _].
  change (keeps J (bind (attempt (os_remove (abs_segs full)))
    (fun r => match r with Err ErrNotExist => ret tt | Err err => fail err | Ok _ => pruneEmptyParents e full end))).
  rewrite Ea. apply keeps_bind; [by apply keeps_attempt|]. intros [[]|[]]; try apply keeps_ret; try apply keeps_fail. exact Hp.
Qed.

Lemma wp_Delete r n path s :
  names r n path -> wp (Delete e path) (fun _ s' => files_frame (removed_files r n) s s') s.
Proof.
  intros Hn. apply (keeps_Delete (files_frame (removed_files r n) s) r n path Hn); [auto with fbs| | |apply files_frame_refl].
  - apply keeps_os_remove. by left.
  - intros up k l -> Hl Hne. apply keeps_os_remove. right. by exists up, k, l.
Qed.

Lemma wf_Delete r n path : names r n path -> keeps wf_os (Delete e path).
Proof.
  intros Hn. apply (keeps_Delete wf_os r n path Hn); [apply wf_check_ctx| |].
  - apply wf_os_remove. destruct r; [| |done]; simpl; unfold object_file, part_file; by destruct (data_segs e).
  - intros up k l _ _ _. apply wf_os_remove. by destruct (data_segs e).
Qed.

Lemma wf_DeleteUploadParts id : normal_seg id -> keeps wf_os (DeleteUploadParts e id).
Proof.
  intros Hid. unfold DeleteUploadParts. cbv zeta. rewrite (part_dir e We) by done.
  rewrite abs_segs_render by (apply below_normal; repeat constructor; try by_decide; by apply Hid).
  assert (Hne : data_segs e ++ [".tmp"; "multipart"; id] <> []) by by destruct (data_segs e).
  keeps_steps.
Qed.

(** Those are not the file of another reference. *)
Lemma removed_not_in_use r n r' n' :
  r <> RUpload -> r' <> RUpload -> (forall b k, r' = RObject b k -> bucket_dir b) ->
  removed_files r n (ref_file e r' n') -> n = n'.
Proof.
  intros Hr Hr' Hb [E|(up & k & l & -> & Hl & Hne & E)].
  - symmetry. by apply (ref_file_inj e r' r n' n).
  - exfalso. destruct r' as [b k'|up' k'|]; [| |done]; apply app_inv_head in E; destruct Hl as [x Hl].
    + simplify_eq. by destruct (Hb _ _ eq_refl).
    + by simplify_eq.
Qed.

Lemma op_removes {A} (m : M Os A) O O' (Pre : asrt) :
  (forall F g w, disj clash O F -> Pre g w -> inv (union O F) g w ->
    disj clash O' F /\ inv (union O' F) g w /\
    exists touched, wp m (fun _ o' => files_frame touched (w_os w) o') (w_os w) /\
                    forall r n, in_use (union O' F) w r n -> ~ touched (ref_file e r n)) ->
  (forall g w, Pre g w -> keeps wf_os m) ->
  op (os m) O Pre (fun _ O1 P' => O1 = O' /\ P' = pure True).
Proof.
  intros Hm Hk F g w Hd HP Hi. destruct (Hm F g w Hd HP Hi) as (Hd' & Hi' & touched & Hw & Ht).
  apply wp_os. eapply wp_mono; [apply wp_and; [exact Hw|by eapply Hk, (inv_os _ _ _ _ Hi)]|]. cbv beta. intros r o' [Hf Hwf]. exists g, O', (pure True).
  op_done; [apply evolves_disk|done|by eapply inv_disk|apply stable_pure|done|done].
Qed.

Lemma in_use_object_bucket U g w r n b k :
  inv U g w -> in_use U w r n -> r = RObject b k -> bucket_dir b.
Proof. intros Hi Hu ->. by eapply in_use_bucket. Qed.

Lemma names_not_upload r n path : names r n path -> r <> RUpload.
Proof. by intros Hn ->. Qed.

(** A file that no row can name again is removed at no cost. *)
Lemma op_Delete_garbage path O (Pre : asrt) :
  entails Pre (garbage path) -> op (os (Delete e path)) O Pre (same_post O (fun _ => pure True)).
Proof.
  intros HP. apply (op_removes _ O O); [|intros g w (r & n & Hn & _)%HP; by eapply wf_Delete].
  intros F g w Hd (r & n & Hn & Hg & Hdead)%HP Hi.
  split; [done|]. split; [done|]. exists (removed_files r n). split; [by apply wp_Delete|].
  intros r' n' Hu Ht. pose proof (names_not_upload _ _ _ Hn) as Hr.
  apply removed_not_in_use in Ht as <-; [|done|apply Hu|intros b k; by eapply in_use_object_bucket].
  destruct Hu as (_ & [Hrefers|(x & Hx & Hid & _)]).
  - assert (r' = r) as -> by (eapply (inv_unique _ _ _ _ Hi); [by eapply refers_committed|done]). done.
  - destruct (inv_owned _ _ _ _ Hi x Hx) as (_ & Hfresh & _). rewrite Hid in Hfresh. by apply (Hfresh r).
Qed.

(** A request removes the file that it owns, and owns nothing any more. *)
Lemma op_Delete_owned x path (Pre : asrt) :
  names (own_ref x) (own_id x) path ->
  op (os (Delete e path)) (only x) Pre (fun _ O1 P' => O1 = none /\ P' = pure True).
Proof.
  intros Hn. apply (op_removes _ (only x) none); [|intros g w _; by eapply wf_Delete]. intros F g w Hd _ Hi.
  split; [apply disj_none|]. split; [by eapply inv_drop|].
  exists (removed_files (own_ref x) (own_id x)). split; [by apply wp_Delete|].
  intros r n Hu Ht. pose proof (names_not_upload _ _ _ Hn) as Hr. pose proof (inv_drop _ _ _ _ _ Hi) as Hi'.
  apply removed_not_in_use in Ht as <-; [|done|apply Hu|intros b k; by eapply in_use_object_bucket].
  destruct Hu as (_ & [Hrefers|(y & [[]|Hy] & Hid & _)]).
  - destruct (inv_owned _ _ _ _ Hi x (or_introl eq_refl)) as (_ & Hfresh & _).
    apply (Hfresh r). by eapply refers_committed.
  - rewrite disj_only in Hd. by apply (Hd y).
Qed.

(** ** The parts of an upload that is gone *)

Definition upload_dir (id : string) : path := data_segs e ++ [".tmp"; "multipart"; id].

Lemma wp_DeleteUploadParts id s :
  normal_seg id ->
  wp (DeleteUploadParts e id) (fun _ s' => files_frame (fun p => below (upload_dir id) p = true) s s') s.
Proof.
  intros Hid.
  assert (Hk : keeps (files_frame (fun p => below (upload_dir id) p = true) s) (DeleteUploadParts e id)).
  { unfold DeleteUploadParts. cbv zeta. rewrite (part_dir e We) by done.
    rewrite abs_segs_render by (apply below_normal; repeat constructor; try by_decide; by apply Hid).
    keeps_steps. }
  apply Hk, files_frame_refl.
Qed.

Lemma op_DeleteUploadParts id O (Pre : asrt) :
  entails Pre (upload_gone id) -> op (os (DeleteUploadParts e id)) O Pre (same_post O (fun _ => pure True)).
Proof.
  intros HP. apply (op_removes _ O O); [|intros g w (n & -> & _)%HP; apply wf_DeleteUploadParts, uuid_normal].
  intros F g w Hd (n & -> & Hg & Hdead)%HP Hi.
  split; [done|]. split; [done|]. exists (fun p => below (upload_dir (uuid_of n)) p = true).
  split; [apply wp_DeleteUploadParts, uuid_normal|].
  intros r m Hu [l Hl]%bool_decide_eq_true. unfold upload_dir in Hl. rewrite <- app_assoc in Hl.
  destruct r as [b k|up k|]; [| |by destruct Hu as [Hu _]].
  - apply app_inv_head in Hl. destruct (in_use_bucket e _ _ _ _ _ _ Hi Hu) as [_ Hb]. by simplify_eq.
  - apply app_inv_head in Hl. simplify_eq/=. apply Hdead. exact (in_use_upload e _ _ _ _ _ _ Hi Hu).
Qed.

(** ** Reading *)

Lemma op_Open path O (Pre : asrt) : op (os (Open e path)) O Pre (same_post O (fun _ => pure True)).
Proof.
  apply (op_os_same e (Open e path) O Pre (fun _ => True)); [|unfold Open; keeps_steps]. intros o.
  assert (Hk : keeps (files_frame (fun _ => False) o) (Open e path)) by (unfold Open; keeps_steps).
  eapply wp_mono; [apply Hk, files_frame_refl|]. done.
Qed.

Lemma op_syscall O (Pre : asrt) : op (os (syscall (ret tt))) O Pre (same_post O (fun _ => pure True)).
Proof.
  apply (op_os_same e (syscall (ret tt)) O Pre (fun _ => True)); [|apply wf_syscall, keeps_ret]. intros o.
  by apply wp_syscall; intros fs; (split; [by apply files_frame_eq|]).
Qed.
End Disk.
