(* ===== verification/IntegrityAdmin.v ===== *)
(** * Storage integrity: rules for calls and steps

    One rule for each call that the S3 handlers, the authentication, the management API
    and the setup make - the deletion of a bucket tells which files are garbage - and the
    tactics that step through a handler. *)

From S2P Require Import Prelude GoStrings Encoding Effects Iam Authz Os Sanitize DiskEngine Schema Db ObjectRepo BucketRepo MultipartRepo UserRepo GrantRepo ShareLinkRepo ActivityRepo Prog CachedBucketRepo CachedObjectRepo CachedRepo ObjectOps Repositories S3Http SigV4 S3Access Auth MgmtShareLinks Integrity IntegrityOps IntegrityDisk.

(** * Storage integrity: one rule for each call

    What each call of a handler gives it, as hints: reading and writing rows, writing
    and removing files, deciding on access, recording activity. *)

Section Calls.
Context `{Cwd} `{UL : UuidLaws} (e : engine) (We : wf_engine e).

Abbreviation op := (Integrity.op clash (Integrity.inv e) evolves).
Abbreviation asrt := (Ghost -> World -> Prop).

(** A call that changes neither the rows nor the disk. *)
Lemma op_inert {A} (m : M World A) O (Pre : asrt) :
  (forall t o c, keeps (fun w => tables w = t /\ w_os w = o /\ w_cache w = c) m) ->
  op m O Pre (same_post O (fun _ => pure True)).
Proof.
  intros Hm F g w Hd HP Hi. eapply wp_mono; [by apply (Hm (tables w) (w_os w) (w_cache w))|]. cbv beta.
  intros r [d' o' c'] (Et & Eo & Ec). simpl in Et, Eo, Ec. subst o' c'.
  assert (Hs : same_refs (tables w) (db_tables d')) by (rewrite Et; apply same_refs_refl).
  exists g, O, (pure True). refine (conj _ (conj Hd (conj _ (conj _ (conj _ _))))).
  - by apply evolves_tables.
  - apply inv_tables; [done| |done]. rewrite Et. apply Hi.
  - apply stable_pure.
  - done.
  - done.
Qed.

Lemma op_Allow evaluator req O (Pre : asrt) :
  evaluator = MkEvaluator None \/ (exists grants, evaluator = NewAuthzEvaluator grants) ->
  op (Allow evaluator req) O Pre (same_post O (fun _ => pure True)).
Proof.
  intros Hev. apply op_inert. intros t o c. unfold Allow.
  assert (Hstore : forall store, ev_grants evaluator = Some store ->
            forall u b, keeps (fun w => tables w = t /\ w_os w = o /\ w_cache w = c) (store u b)).
  { destruct Hev as [->|[[] ->]]; [done| |done]. intros store [= <-] u b. simpl.
    apply keeps_bind; [|intros rows; apply keeps_ret]. intros w (Et & Eo & Ec). apply wp_db.
    unfold GrantRepository.ListActiveForGranteeBucket. by apply wp_query. }
  destruct (ev_grants evaluator) as [store|]; keeps_steps; by apply Hstore.
Qed.

(** ** Queries *)

Ltac reads_steps := intros O Pre; apply op_reads; intros t; db_keeps_steps.

Lemma op_time_now O (Pre : asrt) : op (db time_now) O Pre (same_post O (fun _ => pure True)).
Proof. apply op_reads. intros t. apply keeps_time_now. Qed.

Lemma op_List_objects b p a n O (Pre : asrt) :
  op (db (ObjectRepository.List b p a n)) O Pre (same_post O (fun _ => pure True)).
Proof. apply op_reads. intros t. unfold ObjectRepository.List. db_keeps_steps. Qed.

Lemma op_ListDelimited b p a d n O (Pre : asrt) :
  op (db (ObjectRepository.ListDelimited b p a d n)) O Pre (same_post O (fun _ => pure True)).
Proof. apply op_reads. intros t. unfold ObjectRepository.ListDelimited. db_keeps_steps. Qed.

Lemma op_List_buckets O (Pre : asrt) :
  op (db BucketRepository.List) O Pre (same_post O (fun _ => pure True)).
Proof. apply op_reads. intros t. apply keeps_query. Qed.

Lemma op_ListByNames names O (Pre : asrt) :
  op (db (BucketRepository.ListByNames names)) O Pre (same_post O (fun _ => pure True)).
Proof. apply op_reads. intros t. unfold BucketRepository.ListByNames. db_keeps_steps. Qed.

Lemma op_ListByOwner o O (Pre : asrt) :
  op (db (BucketRepository.ListByOwner o)) O Pre (same_post O (fun _ => pure True)).
Proof. apply op_reads. intros t. unfold BucketRepository.ListByOwner. db_keeps_steps. Qed.

Lemma op_grants_of u b O (Pre : asrt) :
  op (db (GrantRepository.ListActiveForGranteeBucket u b)) O Pre (same_post O (fun _ => pure True)).
Proof. apply op_reads. intros t. unfold GrantRepository.ListActiveForGranteeBucket. db_keeps_steps. Qed.

Lemma op_granted_buckets u O (Pre : asrt) :
  op (db (GrantRepository.ListBucketNamesWithActiveGrants u)) O Pre (same_post O (fun _ => pure True)).
Proof. apply op_reads. intros t. unfold GrantRepository.ListBucketNamesWithActiveGrants. db_keeps_steps. Qed.

Lemma op_link code O (Pre : asrt) :
  op (db (ShareLinkRepository.GetByCode code)) O Pre (same_post O (fun _ => pure True)).
Proof. apply op_reads. intros t. unfold ShareLinkRepository.GetByCode. db_keeps_steps. Qed.

Lemma op_user id O (Pre : asrt) :
  op (db (UserRepository.GetByID id)) O Pre (same_post O (fun _ => pure True)).
Proof. apply op_reads. intros t. unfold UserRepository.GetByID. db_keeps_steps. Qed.

(** ** Writes that leave the rows of files alone *)

Lemma op_SetUploadStatus id st O (Pre : asrt) :
  op (db (MultipartRepository.SetUploadStatus id st)) O Pre (same_post O (fun _ => pure True)).
Proof.
  apply op_write_same; [apply write_op_inv; constructor|]. intros t.
  unfold MultipartRepository.SetUploadStatus. db_keeps_steps.
Qed.

Lemma op_ClaimUpload id st O (Pre : asrt) :
  op (db (MultipartRepository.ClaimUpload id st)) O Pre (same_post O (fun _ => pure True)).
Proof.
  apply op_write_same; [apply write_op_inv; constructor|]. intros t.
  unfold MultipartRepository.ClaimUpload. db_keeps_steps.
Qed.

Lemma op_CreateUser u O (Pre : asrt) :
  op (db (UserRepository.Create u)) O Pre (same_post O (fun _ => pure True)).
Proof.
  apply op_write_same; [apply write_op_inv; constructor|]. intros t.
  unfold UserRepository.Create, UserRepository.insertUser. db_keeps_steps.
Qed.

Lemma op_CreateBucket b O (Pre : asrt) :
  bucket_dir (b_name b) -> op (db (BucketRepository.Create b)) O Pre (same_post O (fun _ => pure True)).
Proof.
  intros Hb. apply op_write_same; [apply write_op_inv; constructor|]. intros t.
  unfold BucketRepository.Create. by apply keeps_exec, insert_bucket_refs.
Qed.

Lemma op_DeleteBucket b O (Pre : asrt) :
  op (db (BucketRepository.Delete b)) O Pre (same_post O (fun _ => pure True)).
Proof.
  apply op_write_same; [apply write_op_inv; constructor|]. intros t.
  unfold BucketRepository.Delete. db_keeps_steps.
Qed.

Lemma op_RecordActivity enabled principal event O (Pre : asrt) :
  op (db (RecordActivity enabled principal event)) O Pre (same_post O (fun _ => pure True)).
Proof.
  apply op_write_same; [|intros t]; unfold RecordActivity.
  - destruct (negb enabled); [apply keeps_ret|]. apply (write_op_inv (ActivityRepository.Create _)). constructor.
  - destruct (negb enabled); [apply keeps_ret|]. cbv zeta. unfold ActivityRepository.Create. db_keeps_steps.
Qed.
End Calls.

(** * Storage integrity: the calls of the management API *)

Section Admin.
Context `{Cwd} `{UL : UuidLaws} `{Random} (e : engine) (We : wf_engine e).

Abbreviation op := (Integrity.op clash (Integrity.inv e) evolves).
Abbreviation asrt := (Ghost -> World -> Prop).

(** ** Queries *)

(** A call that the repository's code shows to be a query. *)
Ltac reads := apply op_reads; intros t; db_keeps_steps.

Lemma op_users O (Pre : asrt) : op (db UserRepository.List) O Pre (same_post O (fun _ => pure True)).
Proof. unfold UserRepository.List. reads. Qed.

Lemma op_UserCount O (Pre : asrt) : op (db UserRepository.UserCount) O Pre (same_post O (fun _ => pure True)).
Proof. unfold UserRepository.UserCount. reads. Qed.

Lemma op_access_key k O (Pre : asrt) :
  op (db (UserRepository.GetByAccessKeyID k)) O Pre (same_post O (fun _ => pure True)).
Proof. unfold UserRepository.GetByAccessKeyID. reads. Qed.

Lemma op_bucket_grants b O (Pre : asrt) :
  op (db (GrantRepository.ListByBucket b)) O Pre (same_post O (fun _ => pure True)).
Proof. unfold GrantRepository.ListByBucket. reads. Qed.

Lemma op_user_grants u O (Pre : asrt) :
  op (db (GrantRepository.ListByGrantee u)) O Pre (same_post O (fun _ => pure True)).
Proof. unfold GrantRepository.ListByGrantee. reads. Qed.

Lemma op_grant id O (Pre : asrt) :
  op (db (GrantRepository.GetByID id)) O Pre (same_post O (fun _ => pure True)).
Proof. unfold GrantRepository.GetByID. reads. Qed.

Lemma op_links b O (Pre : asrt) :
  op (db (ShareLinkRepository.List b)) O Pre (same_post O (fun _ => pure True)).
Proof. unfold ShareLinkRepository.List. reads. Qed.

Lemma op_Metrics O (Pre : asrt) : op (db ManagementRepository.Metrics) O Pre (same_post O (fun _ => pure True)).
Proof. unfold ManagementRepository.Metrics. reads. Qed.

Lemma op_summaries O (Pre : asrt) :
  op (db ManagementRepository.ListBucketSummaries) O Pre (same_post O (fun _ => pure True)).
Proof. unfold ManagementRepository.ListBucketSummaries. reads. Qed.

Lemma op_summary b O (Pre : asrt) :
  op (db (ManagementRepository.GetBucketSummary b)) O Pre (same_post O (fun _ => pure True)).
Proof. unfold ManagementRepository.GetBucketSummary. reads. Qed.

Lemma op_activities f O (Pre : asrt) :
  op (db (ActivityRepository.List f)) O Pre (same_post O (fun _ => pure True)).
Proof. unfold ActivityRepository.List. reads. Qed.

(** ** Authentication only reads *)

Lemma op_bearer r O (Pre : asrt) : op (db (BearerAuthenticate r)) O Pre (same_post O (fun _ => pure True)).
Proof. unfold BearerAuthenticate, UserRepository.GetByAccessKeyID. reads. Qed.

Lemma sigv4_user_reads k : reads (sigv4_user k).
Proof. intros t. unfold sigv4_user, UserRepository.GetBySigV4AccessKeyID. db_keeps_steps. Qed.

Lemma op_sigv4 r O (Pre : asrt) : op (db (SigV4Authenticate r)) O Pre (same_post O (fun _ => pure True)).
Proof.
  apply op_reads. intros t. pose proof (fun k => sigv4_user_reads k t) as Hu.
  unfold SigV4Authenticate, authenticateHeader, authenticateQuery. db_keeps_steps.
Qed.

Definition chain_reads (chain : list (Request -> M Db AuthResult)) : Prop :=
  Forall (fun a => forall r O (Pre : asrt), op (db (a r)) O Pre (same_post O (fun _ => pure True))) chain.

Lemma newAuthChain_reads devMode : chain_reads (newAuthChain devMode).
Proof.
  assert (Hrest : chain_reads [BearerAuthenticate; SigV4Authenticate]).
  { repeat constructor; intros r O Pre; [apply op_bearer|apply op_sigv4]. }
  destruct devMode; [constructor; [|exact Hrest]|exact Hrest]. intros r O Pre. unfold DevAuthenticate. reads.
Qed.

(** ** Random numbers *)

Lemma op_random {A} (m : M Os A) O (Pre : asrt) :
  (forall o, keeps (files_frame (fun _ => False) o) m) -> keeps wf_os m -> op (os m) O Pre (same_post O (fun _ => pure True)).
Proof.
  intros Hm Hk. apply (op_os_same e m O Pre (fun _ => True)); [|done]. intros o.
  eapply wp_mono; [apply Hm, files_frame_refl|]. done.
Qed.

Lemma keeps_next_call {A} (a : Os -> result A) o :
  keeps (files_frame (fun _ => False) o) (syscall (fun s => (a s, next_call s))).
Proof.
  apply keeps_syscall. intros s Hs. unfold wp. simpl. by apply (frame_step _ _ s); [..|simpl; lia].
Qed.

Lemma wf_next_call {A} (a : Os -> result A) : keeps wf_os (syscall (fun s => (a s, next_call s))).
Proof. apply wf_syscall. intros s Hs. by apply (wf_os_eq s). Qed.

(** Code that only draws random numbers. *)
Ltac draws := apply op_random; [intros o|]; keeps_steps; first [apply keeps_next_call|apply wf_next_call].

Lemma op_IssueBearerToken O (Pre : asrt) : op (os IssueBearerToken) O Pre (same_post O (fun _ => pure True)).
Proof. unfold IssueBearerToken, generateAccessKeyID, generateID, generateSecret. draws. Qed.

Lemma op_IssueSigV4Credentials O (Pre : asrt) : op (os IssueSigV4Credentials) O Pre (same_post O (fun _ => pure True)).
Proof. unfold IssueSigV4Credentials, generateID, generateSecret. draws. Qed.

Lemma op_rand_read n O (Pre : asrt) : op (os (rand_read n)) O Pre (same_post O (fun _ => pure True)).
Proof. unfold rand_read. draws. Qed.

Lemma op_GenerateCode O (Pre : asrt) : op (os GenerateCode) O Pre (same_post O (fun _ => pure True)).
Proof.
  unfold GenerateCode. generalize GeneratedCodeLength. intros n.
  apply op_random; [intros o|]; (induction n as [|n IH]; cbn [generate_code]); keeps_steps;
    first [apply keeps_next_call|apply wf_next_call|apply IH].
Qed.

(** ** Writes that leave the rows of files alone *)

Ltac stmt_same :=
  intros ? []; repeat case_match; try done; simplify_eq; split; simpl; auto.

Lemma update_user_refs t id r : stmt_keeps (same_refs t) (update_user id r).
Proof. unfold update_user. stmt_same. Qed.

Lemma delete_user_refs t id : stmt_keeps (same_refs t) (delete_user id).
Proof. unfold delete_user. stmt_same. Qed.

Lemma insert_grant_unless_refs t id r : stmt_keeps (same_refs t) (insert_grant_unless_active_duplicate id r).
Proof. unfold insert_grant_unless_active_duplicate. stmt_same. Qed.

Lemma update_grant_refs t id p a n now : stmt_keeps (same_refs t) (update_grant id p a n now).
Proof. unfold update_grant. stmt_same. Qed.

Lemma delete_grant_refs t id : stmt_keeps (same_refs t) (delete_grant id).
Proof. unfold delete_grant. stmt_same. Qed.

Lemma insert_link_refs t c r : stmt_keeps (same_refs t) (insert_link c r).
Proof. unfold insert_link. stmt_same. Qed.

Lemma delete_link_refs t c : stmt_keeps (same_refs t) (delete_link c).
Proof. unfold delete_link. stmt_same. Qed.

Lemma update_bucket_owner_refs t n o o' : stmt_keeps (same_refs t) (update_bucket_owner n o o').
Proof.
  unfold update_bucket_owner. intros t0 Hs. destruct (t_buckets t0 !! n) as [b|] eqn:E; [|done].
  destruct (negb _); [done|]. destruct (negb _); [done|]. destruct Hs. split; simpl; auto.
  intros b1 Hb. apply sr_buckets. destruct (decide (n = b1)) as [->|Hne]; [by exists b|].
  by rewrite lookup_insert_ne in Hb.
Qed.
#[local] Hint Resolve update_user_refs delete_user_refs insert_grant_unless_refs update_grant_refs
  delete_grant_refs insert_link_refs delete_link_refs update_bucket_owner_refs : fbs.

Ltac writes := apply op_write_same; [apply write_op_inv; constructor|]; intros t; db_keeps_steps.

Lemma op_CreateFirstUser u O (Pre : asrt) :
  op (db (UserRepository.CreateFirstUser u)) O Pre (same_post O (fun _ => pure True)).
Proof. unfold UserRepository.CreateFirstUser, UserRepository.insertUser. writes. Qed.

Lemma op_UpdateUser u O (Pre : asrt) :
  op (db (UserRepository.Update u)) O Pre (same_post O (fun _ => pure True)).
Proof. unfold UserRepository.Update. writes. Qed.

Lemma op_DeleteUser id O (Pre : asrt) :
  op (db (UserRepository.Delete id)) O Pre (same_post O (fun _ => pure True)).
Proof. unfold UserRepository.Delete. writes. Qed.

Lemma create_batch_refs t grants results : db_keeps (same_refs t) (GrantRepository.create_batch grants results).
Proof.
  revert results; induction grants as [|g rest IH]; intros results; cbn [GrantRepository.create_batch];
    unfold GrantRepository.findActiveDuplicate; db_keeps_steps; apply IH.
Qed.
#[local] Hint Resolve create_batch_refs : fbs.

Lemma op_CreateGrants grants O (Pre : asrt) :
  op (db (GrantRepository.CreateIdempotentBatch grants)) O Pre (same_post O (fun _ => pure True)).
Proof. unfold GrantRepository.CreateIdempotentBatch. writes. Qed.

Lemma op_UpdateGrant g O (Pre : asrt) :
  op (db (GrantRepository.Update g)) O Pre (same_post O (fun _ => pure True)).
Proof. unfold GrantRepository.Update. writes. Qed.

Lemma op_DeleteGrant id O (Pre : asrt) :
  op (db (GrantRepository.Delete id)) O Pre (same_post O (fun _ => pure True)).
Proof. unfold GrantRepository.Delete. writes. Qed.

Lemma op_CreateLink l O (Pre : asrt) :
  op (db (ShareLinkRepository.Create l)) O Pre (same_post O (fun _ => pure True)).
Proof. unfold ShareLinkRepository.Create. writes. Qed.

Lemma op_DeleteLink c O (Pre : asrt) :
  op (db (ShareLinkRepository.Delete c)) O Pre (same_post O (fun _ => pure True)).
Proof. unfold ShareLinkRepository.Delete. writes. Qed.

Lemma op_UpdateOwner n o o' O (Pre : asrt) :
  op (db (BucketRepository.UpdateOwner n o o')) O Pre (same_post O (fun _ => pure True)).
Proof. unfold BucketRepository.UpdateOwner. writes. Qed.

(** ** Objects that go with their bucket *)

Definition stored_objects (b : string) (objects : list Object) : asrt := fun g w =>
  Forall (fun o => stored_object b (o_key o) (o_storage_path o) g w) objects.
Definition all_garbage (objects : list Object) : asrt := fun g w =>
  Forall (fun o => garbage (o_storage_path o) g w) objects.

Lemma stable_stored_objects b objects : stable evolves (stored_objects b objects).
Proof. intros g w g' w' He Ho. eapply Forall_impl; [exact Ho|]. intros o. by apply stable_stored_object. Qed.

Lemma stable_all_garbage objects : stable evolves (all_garbage objects).
Proof. intros g w g' w' He Ho. eapply Forall_impl; [exact Ho|]. intros o. by apply stable_garbage. Qed.

Lemma row_stored U g w b k row :
  Integrity.inv e U g w -> t_objects (tables w) !! (b, k) = Some row -> stored_object b k (or_storage_path row) g w.
Proof.
  intros Hi Hrow. destruct (inv_object _ _ _ _ Hi _ _ _ Hrow) as (n & -> & Hg & _).
  exists n. split; [|done]. split; [by eapply inv_object_bucket|done].
Qed.

(** The objects of a page lie in files of their own. *)
Lemma op_List_stored b prefix after n O (Pre : asrt) :
  op (db (ObjectRepository.List b prefix after n)) O Pre (same_post O (on_ok (fun page => stored_objects b page.1))).
Proof.
  apply op_reads_ok with (f := fun t page => forall o, o ∈ page.1 ->
    exists row, t_objects t !! (b, o_key o) = Some row /\ o_storage_path o = or_storage_path row).
  - intros s. unfold ObjectRepository.List. destruct (n <=? 0)%Z.
    { apply wp_ret. split; [done|]. intros a [= <-] o Ho. by apply not_elem_of_nil in Ho. }
    apply wp_bind, wp_query; [done|]. intros fs. set (l := take _ _).
    assert (Hl : forall o, o ∈ l -> exists row, t_objects (db_tables s) !! (b, o_key o) = Some row /\
                   o_storage_path o = or_storage_path row).
    { intros o (i & Hi & _)%elem_of_take. apply list_elem_of_lookup_2 in Hi.
      apply ObjectListing.elem_of_select_objects in Hi as (row & Hrow & _ & ->). by exists row. }
    destruct (n <? _)%Z; apply wp_ret; (split; [done|]); intros a [= <-] o Ho; [|by apply Hl].
    apply elem_of_take in Ho as (i & Hi & _). apply Hl. by eapply list_elem_of_lookup_2.
  - intros a. apply stable_stored_objects.
  - intros U g w page Hi Hp. apply Forall_forall. intros o Ho. destruct (Hp o Ho) as (row & Hrow & ->).
    by eapply row_stored.
Qed.

(** Without the objects of a bucket, their files are garbage. *)
Lemma objects_gone b objects g w d :
  stored_objects b objects g w -> (forall k, t_objects (db_tables d) !! (b, k) = None) ->
  all_garbage objects g (MkWorld d (w_os w) (w_cache w)).
Proof.
  intros Ho Hgone. eapply Forall_impl; [exact Ho|]. intros o (n & Hn & Hg). exists (RObject b (o_key o)), n.
  split; [done|]. split; [done|]. simpl. intros (row & Hrow & _). by rewrite Hgone in Hrow.
Qed.

Lemma without_objects_fewer b t : fewer t (with_objects (filter (fun kv => kv.1.1 <> b)) t).
Proof. split; simpl; auto. intros k row Hrow. by apply map_lookup_filter_Some in Hrow as [Hrow _]. Qed.

Lemma without_objects_gone b t k : t_objects (with_objects (filter (fun kv => kv.1.1 <> b)) t) !! (b, k) = None.
Proof. simpl. apply map_lookup_filter_None. right. intros row _ Hne. by apply Hne. Qed.

Lemma op_DeleteAllInBucket b objects O (Pre : asrt) :
  entails Pre (stored_objects b objects) ->
  op (db (ObjectRepository.DeleteAllInBucket b)) O Pre (same_post O (on_ok (fun _ => all_garbage objects))).
Proof.
  intros HP. apply op_db_fewer.
  { intros r. apply stable_on_ok. intros _. apply stable_all_garbage. }
  { apply write_op_inv. constructor. }
  intros U g w Hi Ho%HP. unfold ObjectRepository.DeleteAllInBucket.
  apply wp_bind, wp_exec; [by split; [apply fewer_refl|]|]. intros fs. apply wp_ret.
  split; [apply without_objects_fewer|]. apply (objects_gone b); [exact Ho|]. intros k. apply without_objects_gone.
Qed.

Lemma without_bucket_fewer b t : fewer t (BucketSpec.without_bucket b t).
Proof.
  split; simpl; auto.
  - intros b' [row Hrow]. apply lookup_delete_Some in Hrow as [_ Hrow]. by exists row.
  - intros k row Hrow. by apply map_lookup_filter_Some in Hrow as [Hrow _].
Qed.

Lemma op_DeleteWithObjects b O (Pre : asrt) :
  op (db (BucketRepository.DeleteWithObjects b)) O Pre (same_post O (on_ok all_garbage)).
Proof.
  apply op_db_fewer.
  { intros r. apply stable_on_ok, stable_all_garbage. }
  { apply write_op_inv. constructor. }
  intros U g w Hi _. eapply wp_mono; [apply BucketSpec.wp_DeleteWithObjects|].
  intros [objects|err] d'; simpl.
  - intros (_ & _ & Hin & _ & Et). rewrite Et. split; [apply without_bucket_fewer|].
    apply (objects_gone b).
    + apply Forall_forall. intros o Ho. apply Hin in Ho as (row & Hrow & ->). by eapply row_stored.
    + intros k. rewrite Et. apply without_objects_gone.
  - intros ->. split; [apply fewer_refl|done].
Qed.
End Admin.

(** * Storage integrity: the steps of a handler

    The tactics that follow the code of a handler: a call with its rule, a test, a
    program that has been proved before. *)

(** The programs whose triples are known. *)
Create HintDb programs.

Ltac find := solve [done | assumption | by left | by right | eauto].

(** What is known holds, whatever else is known. *)
Ltac known := let g := fresh in let w := fresh in let Hs := fresh in
  intros g w Hs; cbv beta iota delta [also on_right on_ok found_object] in Hs;
  cbv beta delta [pure] in Hs; destruct_and?; solve [assumption | done].

(** What the call tells. *)
Ltac told := intros ? ? ? [-> ->]; cbn [on_ok].

(** One step of a handler or of a program; [rule] finds the rule of a call. *)
Ltac step_with rule :=
  lazymatch goal with
  | |- Integrity.handler_safe _ _ _ _ _ (Ret _) => apply handler_ret
  | |- Integrity.triple _ _ _ _ _ (Ret _) _ _ => apply triple_ret; try done
  | |- context [respond _ _] => unfold respond
  | |- context [early _ _] => unfold early
  | |- Integrity.handler_safe ?c ?i ?v ?o ?p (call ?m) => change (Integrity.handler_safe c i v o p (pbind (call m) Ret))
  | |- Integrity.triple ?c ?i ?v ?o ?p (call ?m) ?o' ?q => change (Integrity.triple c i v o p (pbind (call m) Ret) o' q)
  | |- Integrity.handler_safe ?c ?i ?v ?o ?p (pbind (Ret ?a) ?k) =>
      change (Integrity.handler_safe c i v o p (k a)); cbn beta iota
  | |- Integrity.triple ?c ?i ?v ?o ?p (pbind (Ret ?a) ?k) ?o' ?q =>
      change (Integrity.triple c i v o p (k a) o' q); cbn beta iota
  | |- Integrity.handler_safe _ _ _ _ _ (pbind (call ?m) _) => eapply handler_call; [rule m|told]
  | |- Integrity.triple _ _ _ _ _ (pbind (call ?m) _) _ _ => eapply triple_call; [rule m|told]
  | |- Integrity.handler_safe _ _ _ _ _ (pbind (then_evict ?m _) _) =>
      eapply handler_then_evict; [constructor|rule (db m)|told]
  | |- Integrity.triple _ _ _ _ _ (pbind (then_evict ?m _) _) _ _ =>
      eapply triple_then_evict; [constructor|rule (db m)|told]
  | |- Integrity.handler_safe _ _ _ _ _ (pbind (pbind _ _) _) => apply handler_assoc
  | |- Integrity.triple _ _ _ _ _ (pbind (pbind _ _) _) _ _ => apply triple_assoc
  | |- Integrity.handler_safe _ _ _ _ _ (with_lock _ _) => apply handler_lock
  | |- Integrity.handler_safe _ _ _ _ _ (match ?x with _ => _ end) => destruct x eqn:?
  | |- Integrity.triple _ _ _ _ _ (match ?x with _ => _ end) _ _ => destruct x eqn:?
  | |- Integrity.handler_safe _ _ _ _ _ (pbind (match ?x with _ => _ end) _) => destruct x eqn:?
  | |- Integrity.triple _ _ _ _ _ (pbind (match ?x with _ => _ end) _) _ _ => destruct x eqn:?
  | |- Integrity.handler_safe _ _ _ _ _ (pbind _ _) => eapply handler_bind; [solve [eauto with programs]|intros ?]
  | |- Integrity.triple _ _ _ _ _ (pbind _ _) _ _ => eapply triple_bind; [solve [eauto with programs]|intros ?]
  end.

(** ** The clock and the ids *)

Section Common.
Context `{Cwd} `{UL : UuidLaws} (e : engine) (We : wf_engine e).

Abbreviation triple := (Integrity.triple clash (Integrity.inv e) evolves).

Ltac common_rule m :=
  lazymatch m with
  | db time_now => apply op_time_now
  | os new_uuid => apply op_new_uuid
  end.

Lemma triple_now O Pre : triple O Pre now O (fun _ => pure True).
Proof.
  change now with (pbind (call (db time_now)) (fun r => Ret (match r with Ok t => t | Err _ => 0%Z end))).
  repeat step_with common_rule.
Qed.

Lemma triple_newID O Pre : triple O Pre newID O (fun _ => pure True).
Proof.
  change newID with (pbind (call (os new_uuid)) (fun r => Ret (match r with Ok s => s | Err _ => "" end))).
  repeat step_with common_rule.
Qed.
End Common.

#[export] Hint Resolve triple_now triple_newID triple_GetByKey triple_GetByName triple_InvalidateObjectCache : programs.
