(* ===== verification/IntegrityHandlers.v ===== *)
(** * Storage integrity: the handlers

    Every handler of the S3 routes, the public routes and the stale-upload cleanup
    keeps the invariant, from its first call to its last. *)

From S2P Require Import Prelude GoStrings Encoding Hash GoUrl GoPath Effects Os Sanitize DiskEngine Schema Db Iam Authz ObjectRepo BucketRepo MultipartRepo UserRepo GrantRepo ShareLinkRepo ActivityRepo Repositories Prog CachedBucketRepo CachedObjectRepo ObjectOps GoTime Signer S3Http S3Xml Checksum S3Access S3Objects S3Copy S3Multipart S3Complete S3Buckets S3Lists S3Delete S3Public S3Dispatch Integrity IntegrityOps IntegrityDisk IntegrityAdmin.

Section Handlers.
Context `{Cwd} `{UL : UuidLaws} `{XmlDecoder} `{MediaTypes} `{Rounds} (h : ObjectHandlers).
Context (We : wf_engine (h_storage h)).
Context (Hauthz : h_authz h = None \/ exists grants, h_authz h = Some (NewAuthzEvaluator grants)).

Abbreviation e := (h_storage h).
Abbreviation handler_safe := (Integrity.handler_safe clash (Integrity.inv e) evolves).
Abbreviation triple := (Integrity.triple clash (Integrity.inv e) evolves).
Abbreviation asrt := (Ghost -> World -> Prop).

Lemma evaluator_known : evaluator h = MkEvaluator None \/ (exists grants, evaluator h = NewAuthzEvaluator grants).
Proof. unfold evaluator. destruct Hauthz as [->|[grants ->]]; [by left|right; by exists grants]. Qed.

(** ** The steps *)

(** The rule of a call. *)
Ltac call_rule m :=
  lazymatch m with
  | db time_now => apply op_time_now
  | db (MultipartRepository.GetByID _) => apply op_GetByID
  | db (MultipartRepository.ListParts _) => apply op_ListParts
  | db (MultipartRepository.ListByBucket _ _ _ _ _) => apply op_ListByBucket
  | db (MultipartRepository.ListStale _) => apply op_ListStale
  | db (ObjectRepository.List _ _ _ _) => apply op_List_objects
  | db (ObjectRepository.ListDelimited _ _ _ _ _) => apply op_ListDelimited
  | db BucketRepository.List => apply op_List_buckets
  | db (BucketRepository.ListByNames _) => apply op_ListByNames
  | db (BucketRepository.ListByOwner _) => apply op_ListByOwner
  | db (GrantRepository.ListActiveForGranteeBucket _ _) => apply op_grants_of
  | db (GrantRepository.ListBucketNamesWithActiveGrants _) => apply op_granted_buckets
  | db (ShareLinkRepository.GetByCode _) => apply op_link
  | db (UserRepository.GetByID _) => apply op_user
  | db (UserRepository.Create _) => apply op_CreateUser
  | db (BucketRepository.Create _) => apply op_CreateBucket; find
  | db (BucketRepository.Delete _) => apply op_DeleteBucket
  | db (MultipartRepository.SetUploadStatus _ _) => apply op_SetUploadStatus
  | db (MultipartRepository.ClaimUpload _ _) => apply op_ClaimUpload
  | db (RecordActivity _ _ _) => apply op_RecordActivity
  | db (ObjectRepository.Delete _ _) => eapply op_ObjectDelete; known
  | db (MultipartRepository.Delete _) => apply op_UploadDelete; known
  | os (Open _ _) => apply op_Open
  | os EnableWriteIdleTimeout => apply op_syscall
  | os (syscall (ret tt)) => apply op_syscall
  | os (DeleteUploadParts _ _) => apply op_DeleteUploadParts; [done|known]
  | os new_uuid => apply op_new_uuid
  | Allow _ _ => apply op_Allow, evaluator_known
  end.

Ltac step := step_with call_rule.

(** ** Access checks *)

Lemma triple_recordActivity O Pre r action b k size etag :
  triple O Pre (recordActivity h r action b k size etag) O (fun _ => pure True).
Proof. unfold recordActivity. repeat step. Qed.

Lemma triple_authorize hd r action b k p bucket O Pre :
  triple O Pre (authorize_with h hd r action b k p bucket) O (fun _ => pure True).
Proof. unfold authorize_with. repeat step. Qed.

Lemma triple_authorizeQuiet r action b k bucket O Pre :
  triple O Pre (authorizeQuiet h r action b k bucket) O (fun _ => pure True).
Proof. unfold authorizeQuiet. repeat step. Qed.
#[local] Hint Resolve triple_recordActivity triple_authorize triple_authorizeQuiet : programs.

Lemma triple_authorizeBucketRelationship r bucket O Pre :
  triple O Pre (authorizeBucketRelationship h r bucket) O (fun _ => pure True).
Proof. unfold authorizeBucketRelationship. repeat step. Qed.

(** A bucket that has been found has a directory of its own. *)
Lemma triple_loadBucket hd r b O Pre :
  triple O Pre (loadBucket_with hd r b) O (on_right (fun _ => pure (bucket_dir b))).
Proof. unfold loadBucket_with. repeat step. known. Qed.
#[local] Hint Resolve triple_authorizeBucketRelationship triple_loadBucket : programs.

Lemma triple_ensure hd r b action k p O Pre :
  triple O Pre (ensureBucketAction_with h hd r b action k p) O (on_right (fun _ => pure (bucket_dir b))).
Proof. unfold ensureBucketAction_with, loadBucketForAction_with. repeat step; known. Qed.

#[local] Hint Resolve triple_ensure : programs.

Lemma triple_signed r name O Pre : triple O Pre (requireSignedHeader r name) O (on_right (fun _ => pure True)).
Proof. unfold requireSignedHeader. repeat step. Qed.
#[local] Hint Resolve triple_signed : programs.

(** ** Reading *)

Lemma handler_serve r obj c d m O Pre : handler_safe O Pre (serveObject h r obj c d m).
Proof. unfold serveObject. repeat step. Qed.

Lemma triple_loadObjectForRead r b k O Pre :
  triple O Pre (loadObjectForRead h r b k) O (on_right (fun _ => pure True)).
Proof. unfold loadObjectForRead. repeat step. Qed.
#[local] Hint Resolve triple_loadObjectForRead : programs.

Lemma GetObject_safe r Pre : handler_safe none Pre (GetObject h r).
Proof. unfold GetObject. repeat (step || apply handler_serve). Qed.

Lemma GetObjectAttributes_safe r Pre : handler_safe none Pre (GetObjectAttributes h r).
Proof. unfold GetObjectAttributes. repeat step. Qed.

(** ** Writing objects *)

(** A writer returned: the request owns a file, or nothing. *)
Ltac made x Hx := intros [[? ?]|?] ? ? [-> Hx]; [destruct Hx as (x & Hx & ->)|destruct Hx as [-> _]].
(** A row was published, or not. *)
Ltac published := intros [?|?] ? ? [-> ->].

Lemma made_object_names b k res x : bucket_dir b -> made_object b k res x -> names (own_ref x) (own_id x) res.1.
Proof. by intros Hb (-> & -> & _). Qed.

Lemma made_part_names up k res x : normal_seg up -> made_part up k res x -> names (own_ref x) (own_id x) res.1.
Proof. by intros Hu (-> & -> & _). Qed.

Lemma triple_delete_owned x path Pre :
  names (own_ref x) (own_id x) path -> triple (only x) Pre (deleteStoredFile h path) none (fun _ => pure True).
Proof.
  intros Hn. unfold deleteStoredFile. eapply triple_call; [by eapply op_Delete_owned|].
  intros ? ? ? [-> ->]. step.
Qed.

(** The file that a new version has replaced is removed. *)
Lemma triple_cleanup old new O Pre :
  entails Pre (replaced old) ->
  triple O Pre (if negb (String.eqb old "") && negb (String.eqb old new) then deleteStoredFile h old else Ret tt) O
    (fun _ => pure True).
Proof.
  intros HP. destruct (String.eqb_spec old "") as [|Hne]; cbn [negb andb]; [by step|].
  destruct (negb _); [|by step]. unfold deleteStoredFile.
  eapply triple_call; [apply op_Delete_garbage; [done|]|told; by step].
  intros g w Hs. by destruct (HP g w Hs).
Qed.

(** What is known of a file that a request owns. *)
Ltac owned := match goal with
  | Hb : bucket_dir ?b, Hx : made_object ?b _ _ ?x |- names (own_ref ?x) _ _ => exact (made_object_names _ _ _ _ Hb Hx)
  | Hu : normal_seg ?u, Hx : made_part ?u _ _ ?x |- names (own_ref ?x) _ _ => exact (made_part_names _ _ _ _ Hu Hx)
  | Hx : made_object _ _ _ ?x |- object_of ?x _ => destruct Hx as (? & ? & ?); by split_and!
  | Hx : made_part _ _ _ ?x |- part_of ?x _ => destruct Hx as (? & ? & ?); by split_and!
  end.

(** One step of a handler that writes. *)
Ltac write_step :=
  let x := fresh "x" in let Hx := fresh "Hx" in let Hb := fresh "Hb" in
  lazymatch goal with
  | |- Integrity.handler_safe _ _ _ none _ (pbind (call (os (Write _ ?b ?key _))) _) =>
      apply handler_pure with (bucket_dir b); [intros Hb|known];
      eapply handler_call; [apply (op_Write e We b key); exact Hb|made x Hx]
  | |- Integrity.handler_safe _ _ _ none _
         (pbind (call (os (bind (file_reader _) (fun src => Write _ ?b ?key src)))) _) =>
      apply handler_pure with (bucket_dir b); [intros Hb|known];
      eapply handler_call; [apply (op_copy e We b key); exact Hb|made x Hx]
  | |- Integrity.handler_safe _ _ _ (only ?x) _ (pbind (call (os (Delete _ ?path))) _) =>
      eapply handler_call; [apply (op_Delete_owned e We x); owned|intros ? ? ? [-> ->]]
  | |- Integrity.handler_safe _ _ _ (only ?x) _ (pbind (deleteStoredFile _ ?path) _) =>
      eapply handler_bind; [apply (triple_delete_owned x); owned|intros ?]
  | |- Integrity.handler_safe _ _ _ (only ?x) _ (pbind (then_evict (ObjectRepository.Replace _ _ _) _) _) =>
      eapply handler_then_evict; [constructor|apply (op_Replace e x); owned|published]
  | |- Integrity.handler_safe _ _ _ _ _
         (pbind (if negb (String.eqb ?old "") && negb (String.eqb ?old ?new) then deleteStoredFile _ ?old else Ret tt) _) =>
      eapply handler_bind; [apply triple_cleanup; known|intros ?]
  | |- _ => step
  end.

Lemma PutObject_safe r Pre : handler_safe none Pre (PutObject h r).
Proof. unfold PutObject, CachedObjectRepository.Replace. repeat write_step. Qed.

Lemma CopyObject_safe r Pre : handler_safe none Pre (CopyObject h r).
Proof. unfold CopyObject, CachedObjectRepository.Replace. repeat write_step. Qed.

(** ** Deleting objects *)

Lemma triple_DeleteObject b k Pre :
  triple none Pre (ObjectOps.DeleteObject (Some e) b k) none (fun _ => pure True).
Proof.
  unfold ObjectOps.DeleteObject, CachedObjectRepository.Delete. repeat step.
  eapply triple_call; [apply op_Delete_garbage; [done|known]|told]. repeat step.
Qed.

Lemma DeleteObject_safe r Pre : handler_safe none Pre (DeleteObject h r).
Proof.
  unfold DeleteObject, deleteObject. repeat step. eapply handler_bind; [apply triple_DeleteObject|intros ?].
  repeat step.
Qed.

Lemma triple_delete_each r bucket b quiet keys res Pre :
  triple none Pre (delete_each h r bucket b quiet keys res) none (fun _ => pure True).
Proof.
  revert res Pre; induction keys as [|k keys IH]; intros res Pre; cbn [delete_each]; [by step|].
  unfold deleteObject. repeat (step || (eapply triple_bind; [apply triple_DeleteObject|intros ?]) || apply IH).
Qed.

Lemma DeleteObjects_safe r Pre : handler_safe none Pre (DeleteObjects h r).
Proof.
  unfold DeleteObjects, loadBucket.
  repeat (step || (eapply handler_bind; [apply triple_delete_each|intros ?])).
Qed.

(** ** Uploads *)

Lemma triple_target r action O Pre :
  triple O Pre (multipartTarget h r action) O (on_right (fun t => pure (bucket_dir t.1.1))).
Proof. unfold multipartTarget. repeat step. known. Qed.

Lemma triple_loadUpload r id b k O Pre :
  triple O Pre (loadUpload r id b k) O
    (on_right (fun u => also (upload_known id) (pure (u_bucket_name u = b /\ u_key u = k)))).
Proof.
  unfold loadUpload. repeat step. intros g w [_ Hs]. split; [exact Hs|].
  match goal with E : _ || _ = false |- _ => apply orb_false_iff in E as [E1 E2] end.
  apply negb_false_iff, String.eqb_eq in E1, E2. done.
Qed.

Lemma triple_claimUpload r id st O Pre : triple O Pre (claimUpload r id st) O (fun _ => pure True).
Proof. unfold claimUpload. repeat step. Qed.

Lemma triple_deleteUploadParts id O Pre :
  entails Pre (upload_gone id) -> triple O Pre (deleteUploadParts h id) O (fun _ => pure True).
Proof.
  intros HP. unfold deleteUploadParts. eapply triple_call; [by apply op_DeleteUploadParts|told]. step.
Qed.
#[local] Hint Resolve triple_target triple_loadUpload triple_claimUpload : programs.

(** The row of a part is stored, or its file is removed. *)
Lemma triple_storePart x r part Pre :
  part_of x part -> normal_seg (p_upload_id part) ->
  triple (only x) Pre (storePart h r part) none (fun _ => pure True).
Proof.
  intros Hx Hu. unfold storePart. eapply triple_call; [by apply (op_AddPart e x)|published].
  - eapply triple_bind; [apply triple_cleanup; known|intros ?]. by step.
  - eapply triple_bind; [apply (triple_delete_owned x)|intros ?; repeat step].
    by destruct Hx as (-> & -> & _).
Qed.

Lemma CreateMultipartUpload_safe r Pre : handler_safe none Pre (CreateMultipartUpload h r).
Proof.
  unfold CreateMultipartUpload. repeat lazymatch goal with
  | |- Integrity.handler_safe ?c ?i ?v ?o ?p (pbind newID ?k) =>
      change (Integrity.handler_safe c i v o p (pbind (call (os new_uuid))
        (fun r => k (match r with Ok s => s | Err _ => "" end))))
  | |- Integrity.handler_safe _ _ _ none _ (pbind (call (os new_uuid)) _) =>
      eapply handler_call; [apply (op_new_id e)|intros [?|?] ? ? [-> Hx];
        [destruct Hx as (x & [Hr ->] & ->); cbn beta iota|by destruct Hx]]
  | |- Integrity.handler_safe _ _ _ (only ?x) _ (pbind (call (db (MultipartRepository.Create _))) _) =>
      eapply handler_call; [by apply (op_UploadCreate e x)|published]
  | |- _ => step
  end.
Qed.

Lemma upload_known_normal Pre id : entails Pre (upload_known id) -> entails Pre (pure (normal_seg id)).
Proof. intros HP g w Hs. destruct (HP g w Hs) as (n & -> & _). apply uuid_normal. Qed.

(** One step of a handler that writes parts. *)
Ltac part_step :=
  let x := fresh "x" in let Hx := fresh "Hx" in let Hu := fresh "Hu" in
  lazymatch goal with
  | |- Integrity.handler_safe _ _ _ none _ (pbind (call (os (WritePart _ ?up ?k _))) _) =>
      apply handler_pure with (normal_seg up); [intros Hu|apply upload_known_normal; known];
      eapply handler_call; [apply (op_WritePart e We up k); known|made x Hx]
  | |- Integrity.handler_safe _ _ _ none _
         (pbind (call (os (bind (file_reader _) (fun src => bind (WritePart _ ?up ?k src) _)))) _) =>
      apply handler_pure with (normal_seg up); [intros Hu|apply upload_known_normal; known];
      eapply handler_call; [apply (op_copy_part e We up k); known|
        intros [[[? ?] ?]|?] ? ? [-> Hx]; [destruct Hx as (x & Hx & ->)|destruct Hx as [-> _]]]
  | |- Integrity.handler_safe _ _ _ (only ?x) _ (pbind (storePart _ _ _) _) =>
      eapply handler_bind; [apply (triple_storePart x); [owned|assumption]|intros ?]
  | |- _ => write_step
  end.

Lemma UploadPart_safe r Pre : handler_safe none Pre (UploadPart h r).
Proof. unfold UploadPart, with_upload, upload_part. repeat part_step. Qed.

Lemma triple_parsePartCopySource r O Pre : triple O Pre (parsePartCopySource r) O (fun _ => pure True).
Proof. unfold parsePartCopySource. repeat step. Qed.

Lemma triple_openCopySource r source O Pre : triple O Pre (openCopySource h r source) O (fun _ => pure True).
Proof. unfold openCopySource. repeat step. Qed.
#[local] Hint Resolve triple_parsePartCopySource triple_openCopySource : programs.

Lemma UploadPartCopy_safe r Pre : handler_safe none Pre (UploadPartCopy h r).
Proof. unfold UploadPartCopy, with_upload, upload_part_copy. repeat part_step. Qed.

(** ** Ending uploads *)

Lemma part_paths_avoid up parts n : part_paths up parts -> parts_avoid e (temp_file e n) (p_storage_path <$> parts).
Proof.
  intros Hp path full Hin Hfull. apply list_elem_of_fmap in Hin as (part & -> & Hin).
  unfold part_paths in Hp. rewrite Forall_forall in Hp. destruct (Hp part Hin) as (k & m & Hu & Ep).
  rewrite Ep, (resolve_part e We) in Hfull by done. injection Hfull as <-.
  rewrite abs_segs_part by done. apply part_not_temp.
Qed.

Lemma matched_paths up requested stored minSize parts :
  part_paths up stored -> matchStoredParts requested stored minSize = Ok parts -> part_paths up parts.
Proof.
  unfold part_paths. intros Hs Hm%match_parts_stored. rewrite Forall_forall in Hs. eapply Forall_impl; [exact Hm|].
  intros p Hp. by apply Hs.
Qed.

(** The bucket of an upload is that of the request. *)
Ltac known_bucket := let g := fresh in let w := fresh in let Hs := fresh in
  intros g w Hs; cbv beta iota delta [also on_right on_ok pure fst snd] in *; destruct_and?;
  match goal with E : u_bucket_name ?u = _ |- bucket_dir (u_bucket_name ?u) => by rewrite E end.

(** One step of the completion of an upload. *)
Ltac complete_step :=
  let x := fresh "x" in let Hx := fresh "Hx" in let Hb := fresh "Hb" in let Hp := fresh "Hp" in
  lazymatch goal with
  | Hm : matchStoredParts _ ?stored _ = Ok ?parts
    |- Integrity.handler_safe _ _ _ none _ (pbind (call (os (AssembleParts _ ?b ?key (p_storage_path <$> ?parts)))) _) =>
      apply handler_pure with (bucket_dir b); [intros Hb|known_bucket];
      match goal with |- context [on_ok (fun found => pure (part_paths ?up found)) _] =>
        apply handler_pure with (part_paths up stored); [intros Hp|known];
        pose proof (matched_paths up _ stored _ parts Hp Hm)
      end;
      eapply handler_call; [apply (op_AssembleParts e We b key); [exact Hb|intros ?; by eapply part_paths_avoid]|
        made x Hx]
  | |- Integrity.handler_safe _ _ _ (only ?x) _ (pbind (call (db (MultipartRepository.CompleteUpload _ _ _ _))) _) =>
      eapply handler_call; [apply (op_CompleteUpload e x); owned|published]
  | |- Integrity.handler_safe _ _ _ _ _ (pbind (deleteUploadParts _ _) _) =>
      eapply handler_bind; [apply triple_deleteUploadParts; known|intros ?]
  | |- _ => part_step
  end.

Lemma CompleteMultipartUpload_safe r Pre : handler_safe none Pre (CompleteMultipartUpload h r).
Proof.
  unfold CompleteMultipartUpload, with_upload, complete_locked, with_claim, complete_claimed, assembleUpload.
  repeat complete_step.
Qed.

Lemma AbortMultipartUpload_safe r Pre : handler_safe none Pre (AbortMultipartUpload h r).
Proof.
  unfold AbortMultipartUpload, with_upload, with_claim, abort_claimed. repeat complete_step.
Qed.

Lemma ListMultipartUploads_safe r Pre : handler_safe none Pre (ListMultipartUploads h r).
Proof. unfold ListMultipartUploads. repeat step. Qed.

Lemma ListParts_safe r Pre : handler_safe none Pre (ListParts h r).
Proof. unfold ListParts. repeat step. Qed.

(** A program that removes the parts of uploads that are gone. *)
Ltac remove_step :=
  lazymatch goal with
  | |- Integrity.triple _ _ _ _ _ (deleteUploadParts _ _) _ _ => apply triple_deleteUploadParts; known
  | |- Integrity.triple _ _ _ _ _ (pbind (deleteUploadParts _ _) _) _ _ =>
      eapply triple_bind; [apply triple_deleteUploadParts; known|intros ?]
  | |- _ => step
  end.

Lemma triple_removeStaleUpload upload Pre :
  entails Pre (upload_known (u_id upload)) ->
  triple none Pre (removeStaleUpload h upload) none (fun _ => pure True).
Proof.
  intros HP. apply triple_pre with (upload_known (u_id upload)); [|done].
  unfold removeStaleUpload. repeat remove_step.
Qed.

Lemma known_cons (P : asrt) upload rest :
  entails P (known_uploads (upload :: rest)) -> entails P (upload_known (u_id upload)) /\ entails P (known_uploads rest).
Proof. intros HP. by split; intros g w Hs; destruct (proj1 (Forall_cons _ _ _) (HP g w Hs)). Qed.

Lemma entails_also (P Q R : asrt) : entails P R -> entails (also P Q) R.
Proof. intros HP g w [Hs _]. by apply HP. Qed.

Lemma triple_remove_stale uploads ttl Pre :
  entails Pre (known_uploads uploads) -> triple none Pre (remove_stale h uploads ttl) none (fun _ => pure True).
Proof.
  revert Pre; induction uploads as [|upload rest IH]; intros P HP; cbn [remove_stale]; [by step|].
  apply known_cons in HP as [Hu Hrest]. step.
  eapply triple_bind with (psi := fun _ => pure True); [|intros ?; apply IH; do 2 apply entails_also; exact Hrest].
  destruct (negb _ && _)%bool; [by step|]. apply triple_removeStaleUpload, entails_also, Hu.
Qed.

Lemma removeStaleUploads_safe ttl Pre : handler_safe none Pre (removeStaleUploads h ttl).
Proof.
  unfold removeStaleUploads. repeat step. eapply handler_triple, triple_remove_stale. known.
Qed.

(** ** Buckets *)

Lemma CreateBucket_safe r Pre : handler_safe none Pre (CreateBucket h r).
Proof.
  unfold CreateBucket, bucketOwnerID, CachedBucketRepository.Create. destruct (validateBucketName _) as [[]|] eqn:Ev; [|step].
  apply valid_bucket_dir in Ev. repeat step.
Qed.

Lemma triple_delete_uploads r uploads Pre :
  entails Pre (known_uploads uploads) -> triple none Pre (delete_uploads h r uploads) none (fun _ => pure True).
Proof.
  revert Pre; induction uploads as [|upload rest IH]; intros P HP; cbn [delete_uploads]; [by step|].
  apply known_cons in HP as [Hu Hrest]. eapply triple_call; [by apply op_UploadDelete|told].
  match goal with r0 : result unit |- _ => destruct r0; [|by step] end.
  remove_step. apply IH. do 2 apply entails_also; exact Hrest.
Qed.

Lemma triple_abort_uploads rounds r b Pre :
  triple none Pre (abort_uploads h rounds r b) none (fun _ => pure True).
Proof.
  revert Pre; induction rounds as [|rounds IH]; intros P; cbn [abort_uploads]; [by step|].
  eapply triple_call; [apply op_ListByBucket|intros [[[[uploads t] m1] m2]|] ? ? [-> ->]; [|by step]].
  cbn [on_ok fst snd]. destruct uploads as [|u uploads]; [by step|].
  unfold early. eapply triple_bind; [apply triple_delete_uploads; known|intros [|[]]; [by step|apply IH]].
Qed.

Lemma DeleteBucket_safe r Pre : handler_safe none Pre (DeleteBucket h r).
Proof.
  unfold DeleteBucket, CachedBucketRepository.Delete. repeat (step || (eapply handler_bind; [apply triple_abort_uploads|intros ?])).
Qed.

Lemma HeadBucket_safe r Pre : handler_safe none Pre (HeadBucket h r).
Proof. unfold HeadBucket. repeat step. Qed.

Lemma GetBucketLocation_safe r Pre : handler_safe none Pre (GetBucketLocation h r).
Proof. unfold GetBucketLocation. repeat step. Qed.

Lemma ListBuckets_safe r Pre : handler_safe none Pre (ListBuckets h r).
Proof. unfold ListBuckets, listBucketsForPrincipal. repeat step. Qed.

(** ** Listings *)

Lemma triple_entries2 b params O Pre :
  triple O Pre (listObjectsV2Entries b params) O (fun _ => pure True).
Proof. unfold listObjectsV2Entries. repeat step. Qed.
#[local] Hint Resolve triple_entries2 : programs.

Lemma triple_entries1 b params O Pre :
  triple O Pre (listObjectsV1Entries b params) O (fun _ => pure True).
Proof. apply triple_entries2. Qed.
#[local] Hint Resolve triple_entries1 : programs.

Lemma ListObjectsV2_safe r Pre : handler_safe none Pre (ListObjectsV2 h r).
Proof. unfold ListObjectsV2. repeat step. Qed.

Lemma ListObjectsV1_safe r Pre : handler_safe none Pre (ListObjectsV1 h r).
Proof. unfold ListObjectsV1. repeat step. Qed.

Lemma ListObjectVersions_safe r Pre : handler_safe none Pre (ListObjectVersions h r).
Proof. unfold ListObjectVersions. repeat step. Qed.

(** ** Public reads *)

Lemma triple_publicCacheControl r O Pre : triple O Pre (publicCacheControl r) O (fun _ => pure True).
Proof. unfold publicCacheControl. repeat step. Qed.

Lemma triple_validatePublicReadSignature r O Pre :
  triple O Pre (validatePublicReadSignature h r) O (fun _ => pure True).
Proof. unfold validatePublicReadSignature. repeat step. Qed.

Lemma triple_creatorCanRead link O Pre : triple O Pre (creatorCanRead h link) O (fun _ => pure True).
Proof. unfold creatorCanRead. repeat step. Qed.
#[local] Hint Resolve triple_publicCacheControl triple_validatePublicReadSignature triple_creatorCanRead : programs.

Lemma triple_loadActiveShareLink code O Pre : triple O Pre (loadActiveShareLink h code) O (fun _ => pure True).
Proof. unfold loadActiveShareLink. repeat step. Qed.
#[local] Hint Resolve triple_loadActiveShareLink : programs.

Lemma PublicReadObject_safe r Pre : handler_safe none Pre (PublicReadObject h r).
Proof. unfold PublicReadObject. repeat (step || apply handler_serve). Qed.

Lemma ShareLinkReadObject_safe r Pre : handler_safe none Pre (ShareLinkReadObject h r).
Proof. unfold ShareLinkReadObject. repeat (step || apply handler_serve). Qed.

(** ** The routes *)

#[local] Hint Resolve GetObject_safe GetObjectAttributes_safe PutObject_safe CopyObject_safe DeleteObject_safe
  DeleteObjects_safe CreateMultipartUpload_safe UploadPart_safe UploadPartCopy_safe CompleteMultipartUpload_safe
  AbortMultipartUpload_safe ListMultipartUploads_safe ListParts_safe CreateBucket_safe DeleteBucket_safe
  HeadBucket_safe GetBucketLocation_safe ListBuckets_safe ListObjectsV2_safe ListObjectsV1_safe
  ListObjectVersions_safe PublicReadObject_safe ShareLinkReadObject_safe handler_ret : programs.

Lemma route_handler_safe route method handler r Pre :
  route_handler h route method = Some handler -> handler_safe none Pre (handler r).
Proof.
  intros Eh. unfold route_handler in Eh. destruct route; repeat case_match; simplify_eq;
    unfold DispatchBucketPost, DispatchBucketPut, DispatchBucketGet, DispatchBucketDelete, DispatchObjectGet,
      HeadObject, DispatchObjectPut, DispatchPut, DispatchPost, DispatchObjectDelete, DispatchDelete;
    repeat case_match; auto with programs.
Qed.

Lemma ServeRoute_safe route r Pre : handler_safe none Pre (ServeRoute h route r).
Proof.
  unfold ServeRoute. destruct (route_handler h route (rq_method r)) as [handler|] eqn:Eh; [|apply handler_ret].
  by eapply route_handler_safe.
Qed.
End Handlers.
