(* ===== verification/IntegrityMgmt.v ===== *)
(** * Storage integrity: the management API and the setup

    Every handler of the management API, of the setup, and the middleware in front of
    them keep the invariant. *)

From S2P Require Import Prelude GoStrings Encoding Json Effects Os Sanitize DiskEngine Schema Db Iam Authz ObjectRepo BucketRepo MultipartRepo UserRepo GrantRepo ShareLinkRepo ActivityRepo Repositories Prog CachedBucketRepo CachedObjectRepo ObjectOps Config S3Http S3Xml S3Access S3Objects SigV4 Auth MgmtHttp MgmtKeys MgmtBuckets MgmtGrants MgmtShareLinks Setup Integrity IntegrityOps IntegrityDisk IntegrityAdmin.

Section Management.
Context `{Cwd} `{UL : UuidLaws} `{Random} `{MediaTypes} `{Rounds} (e : engine) (We : wf_engine e).
Context (h : MgmtHandlers) (Hstorage : mh_storage h = None \/ mh_storage h = Some e).

Abbreviation handler_safe := (Integrity.handler_safe clash (Integrity.inv e) evolves).
Abbreviation triple := (Integrity.triple clash (Integrity.inv e) evolves).
Abbreviation asrt := (Ghost -> World -> Prop).

(** The rule of a call. *)
Ltac call_rule m :=
  lazymatch m with
  | db (ObjectRepository.List _ _ _ _) => apply op_List_stored
  | db (ObjectRepository.ListDelimited _ _ _ _ _) => apply op_ListDelimited
  | db (UserRepository.GetByID _) => apply op_user
  | db (UserRepository.GetByAccessKeyID _) => apply op_access_key
  | db UserRepository.List => apply op_users
  | db UserRepository.UserCount => apply op_UserCount
  | db (UserRepository.Create _) => apply op_CreateUser
  | db (UserRepository.CreateFirstUser _) => apply op_CreateFirstUser
  | db (UserRepository.Update _) => apply op_UpdateUser
  | db (UserRepository.Delete _) => apply op_DeleteUser
  | db (GrantRepository.ListByBucket _) => apply op_bucket_grants
  | db (GrantRepository.ListByGrantee _) => apply op_user_grants
  | db (GrantRepository.GetByID _) => apply op_grant
  | db (GrantRepository.CreateIdempotentBatch _) => apply op_CreateGrants
  | db (GrantRepository.Update _) => apply op_UpdateGrant
  | db (GrantRepository.Delete _) => apply op_DeleteGrant
  | db (ShareLinkRepository.List _) => apply op_links
  | db (ShareLinkRepository.Create _) => apply op_CreateLink
  | db (ShareLinkRepository.Delete _) => apply op_DeleteLink
  | db (ActivityRepository.List _) => apply op_activities
  | db ManagementRepository.Metrics => apply op_Metrics
  | db ManagementRepository.ListBucketSummaries => apply op_summaries
  | db (ManagementRepository.GetBucketSummary _) => apply op_summary
  | db (BucketRepository.UpdateOwner _ _ _) => apply op_UpdateOwner
  | db (BucketRepository.DeleteWithObjects _) => apply op_DeleteWithObjects
  | db (ObjectRepository.DeleteAllInBucket _) => apply op_DeleteAllInBucket; known
  | db (RecordActivity _ _ _) => apply op_RecordActivity
  | os IssueBearerToken => apply op_IssueBearerToken
  | os IssueSigV4Credentials => apply op_IssueSigV4Credentials
  | os (rand_read _) => apply op_rand_read
  | os GenerateCode => apply op_GenerateCode
  end.
Ltac step := step_with call_rule.

(** ** Common programs *)

Lemma triple_record r action b k size etag O Pre :
  triple O Pre (MgmtHttp.recordActivity h r action b k size etag) O (fun _ => pure True).
Proof. unfold MgmtHttp.recordActivity. repeat step. Qed.

Lemma triple_ensureBucket b O Pre : triple O Pre (ensureBucket b) O (on_right (fun _ => pure True)).
Proof. unfold ensureBucket. repeat step. Qed.
#[local] Hint Resolve triple_record triple_ensureBucket : programs.

Lemma triple_record_deletions r b objects O Pre :
  triple O Pre (record_deletions h r b objects) O (fun _ => pure True).
Proof. revert Pre; induction objects as [|obj rest IH]; intros Pre; cbn [record_deletions]; repeat step. apply IH. Qed.
#[local] Hint Resolve triple_record_deletions : programs.

(** ** Deleting files *)

Lemma garbage_cons (P : asrt) obj rest :
  entails P (all_garbage (obj :: rest)) -> entails P (garbage (o_storage_path obj)) /\ entails P (all_garbage rest).
Proof. intros HP. by split; intros g w Hs; destruct (proj1 (Forall_cons _ _ _) (HP g w Hs)). Qed.

Lemma also_entails (P Q R : asrt) : entails P R -> entails (also P Q) R.
Proof. intros HP g w [Hs _]. by apply HP. Qed.

Lemma triple_delete_bucket_files objects err Pre :
  entails Pre (all_garbage objects) -> triple none Pre (delete_bucket_files e objects err) none (fun _ => pure True).
Proof.
  revert err Pre; induction objects as [|obj rest IH]; intros err P HP; cbn [delete_bucket_files]; [by step|].
  apply garbage_cons in HP as [Hobj Hrest]. eapply triple_call; [by apply op_Delete_garbage|told].
  apply IH, also_entails, Hrest.
Qed.

Lemma triple_deleteBucketFiles objects Pre :
  entails Pre (all_garbage objects) -> triple none Pre (deleteBucketFiles h objects) none (fun _ => pure True).
Proof.
  intros HP. unfold deleteBucketFiles. destruct Hstorage as [-> | ->]; [by step|]. by apply triple_delete_bucket_files.
Qed.

Lemma triple_delete_files objects Pre :
  entails Pre (all_garbage objects) -> triple none Pre (delete_files e objects) none (fun _ => pure True).
Proof.
  revert Pre; induction objects as [|obj rest IH]; intros P HP; cbn [delete_files]; [by step|].
  apply garbage_cons in HP as [Hobj Hrest]. eapply triple_call; [by apply op_Delete_garbage|told].
  step; [|by step]. apply IH, also_entails, Hrest.
Qed.

(** The objects that are listed lie in files of their own. *)
Lemma triple_list_pages fuel b after acc O Pre :
  entails Pre (stored_objects b acc) ->
  triple O Pre (list_pages fuel b after acc) O (on_ok (stored_objects b)).
Proof.
  revert after acc Pre; induction fuel as [|fuel IH]; intros after acc P HP; cbn [list_pages]; [by step|].
  eapply triple_call; [apply op_List_stored|]. intros [[objects truncated]|err] ? ? [-> ->]; [|by step].
  assert (HP' : entails (also P (on_ok (fun page => stored_objects b page.1) (Ok (objects, truncated))))
                        (stored_objects b (acc ++ objects))).
  { intros g w [Hs Hp]. apply Forall_app. split; [by apply HP|exact Hp]. }
  destruct (last objects); [destruct (truncated : bool)|]; [by apply IH|by apply triple_ret..].
Qed.

Lemma triple_EmptyBucket fuel b Pre :
  triple none Pre (ObjectOps.EmptyBucket (mh_storage h) fuel b) none (fun _ => pure True).
Proof.
  unfold ObjectOps.EmptyBucket, ListAllObjects, CachedObjectRepository.DeleteAllInBucket.
  eapply triple_bind; [apply triple_list_pages; by intros g w _; constructor|].
  intros [objects|err]; [|by step]. repeat step.
  destruct Hstorage as [E|E]; rewrite E in *; simplify_eq.
  eapply triple_bind; [apply triple_delete_files; known|intros ?]. repeat step.
Qed.

(** ** Handlers *)

Lemma Metrics_safe r Pre : handler_safe none Pre (Metrics r).
Proof. unfold Metrics. repeat step. Qed.

Lemma ConfigInfo_safe r Pre : handler_safe none Pre (ConfigInfo h r).
Proof. unfold ConfigInfo. repeat step. Qed.

Lemma ListActivity_safe r Pre : handler_safe none Pre (ListActivity h r).
Proof. unfold ListActivity. repeat step. Qed.

Lemma MgmtListBuckets_safe r Pre : handler_safe none Pre (MgmtBuckets.ListBuckets r).
Proof. unfold MgmtBuckets.ListBuckets. repeat step. Qed.

Lemma MgmtGetBucket_safe r Pre : handler_safe none Pre (MgmtBuckets.GetBucket r).
Proof. unfold MgmtBuckets.GetBucket. repeat step. Qed.

Lemma MgmtDeleteBucket_safe r Pre : handler_safe none Pre (MgmtBuckets.DeleteBucket h r).
Proof.
  unfold MgmtBuckets.DeleteBucket, CachedBucketRepository.DeleteWithObjects.
  repeat (step || (eapply handler_bind; [apply triple_deleteBucketFiles; known|intros ?])).
Qed.

Lemma MgmtEmptyBucket_safe fuel r Pre : handler_safe none Pre (MgmtBuckets.EmptyBucket h fuel r).
Proof.
  unfold MgmtBuckets.EmptyBucket.
  repeat (step || (eapply handler_bind; [apply triple_EmptyBucket|intros ?])).
Qed.

Lemma triple_listObjects b params O Pre : triple O Pre (listObjects b params) O (fun _ => pure True).
Proof. unfold listObjects. repeat step. Qed.
#[local] Hint Resolve triple_listObjects : programs.

Lemma MgmtListObjects_safe r Pre : handler_safe none Pre (MgmtBuckets.ListObjects r).
Proof. unfold MgmtBuckets.ListObjects. repeat step. Qed.

Lemma MgmtGetObject_safe r Pre : handler_safe none Pre (MgmtBuckets.GetObject r).
Proof. unfold MgmtBuckets.GetObject. repeat step. Qed.

Lemma CreatePublicObjectURL_safe r Pre : handler_safe none Pre (CreatePublicObjectURL h r).
Proof. unfold CreatePublicObjectURL. repeat step. Qed.

(** Keys. *)
Lemma triple_createUserCredentials create name role O Pre :
  (forall u O (Pre : asrt), Integrity.op clash (Integrity.inv e) evolves (db (create u)) O Pre
                              (same_post O (fun _ => pure True))) ->
  triple O Pre (createUserCredentials create name role) O (fun _ => pure True).
Proof.
  intros Hc. unfold createUserCredentials.
  repeat (step || (eapply triple_call; [apply Hc|told])).
Qed.

Lemma triple_CreateBearerToken name role O Pre :
  triple O Pre (CreateBearerToken name role) O (fun _ => pure True).
Proof. apply triple_createUserCredentials. intros u O' P'. apply op_CreateUser. Qed.

Lemma triple_CreateFirstAdmin name O Pre : triple O Pre (CreateFirstAdmin name) O (fun _ => pure True).
Proof. apply triple_createUserCredentials. intros u O' P'. apply op_CreateFirstUser. Qed.
#[local] Hint Resolve triple_CreateBearerToken triple_CreateFirstAdmin : programs.

Lemma ListKeys_safe r Pre : handler_safe none Pre (ListKeys r).
Proof. unfold ListKeys. repeat step. Qed.

Lemma CreateKey_safe r Pre : handler_safe none Pre (CreateKey r).
Proof. unfold CreateKey. repeat step. Qed.

Lemma DeleteKey_safe r Pre : handler_safe none Pre (DeleteKey r).
Proof. unfold DeleteKey. repeat step. Qed.

Lemma PatchKey_safe r Pre : handler_safe none Pre (PatchKey r).
Proof. unfold PatchKey. repeat step. Qed.

(** Grants. *)
Lemma triple_loadBucketForGrantAdmin r O Pre :
  triple O Pre (loadBucketForGrantAdmin r) O (on_right (fun _ => pure True)).
Proof. unfold loadBucketForGrantAdmin. repeat step. Qed.

Lemma triple_loadGrantOnBucket id b O Pre :
  triple O Pre (loadGrantOnBucket id b) O (on_right (fun _ => pure True)).
Proof. unfold loadGrantOnBucket. repeat step. Qed.

Lemma triple_resolveGrantee id k O Pre : triple O Pre (resolveGrantee id k) O (on_right (fun _ => pure True)).
Proof. unfold resolveGrantee. repeat step. Qed.

Lemma triple_new_grants p b g input now_ actions O Pre :
  triple O Pre (new_grants p b g input now_ actions) O (fun _ => pure True).
Proof.
  revert Pre; induction actions as [|a rest IH]; intros Pre; cbn [new_grants]; [by step|]. step.
  eapply triple_bind; [apply IH|intros ?; by step].
Qed.

Lemma triple_record_grants r b results O Pre : triple O Pre (record_grants h r b results) O (fun _ => pure True).
Proof.
  revert Pre; induction results as [|x rest IH]; intros Pre; cbn [record_grants]; [by step|].
  repeat step; apply IH.
Qed.
#[local] Hint Resolve triple_loadBucketForGrantAdmin triple_loadGrantOnBucket triple_resolveGrantee
  triple_new_grants triple_record_grants : programs.

Lemma ListBucketGrants_safe r Pre : handler_safe none Pre (ListBucketGrants r).
Proof. unfold ListBucketGrants. repeat step. Qed.

Lemma CreateBucketGrants_safe r Pre : handler_safe none Pre (CreateBucketGrants h r).
Proof. unfold CreateBucketGrants. repeat step. Qed.

Lemma PatchBucketGrant_safe r Pre : handler_safe none Pre (PatchBucketGrant h r).
Proof. unfold PatchBucketGrant. repeat step. Qed.

Lemma DeleteBucketGrant_safe r Pre : handler_safe none Pre (DeleteBucketGrant h r).
Proof. unfold DeleteBucketGrant. repeat step. Qed.

Lemma ListMyGrants_safe r Pre : handler_safe none Pre (ListMyGrants r).
Proof. unfold ListMyGrants. repeat step. Qed.

Lemma ListUserGrants_safe r Pre : handler_safe none Pre (ListUserGrants r).
Proof. unfold ListUserGrants. repeat step. Qed.

Lemma TransferBucketOwnership_safe r Pre : handler_safe none Pre (TransferBucketOwnership h r).
Proof. unfold TransferBucketOwnership, CachedBucketRepository.UpdateOwner. repeat step. Qed.

(** Share links. *)
Lemma triple_insert_generated attempts link err O Pre :
  triple O Pre (insert_generated attempts link err) O (fun _ => pure True).
Proof.
  revert err Pre; induction attempts as [|n IH]; intros err Pre; cbn [insert_generated]; repeat step; apply IH.
Qed.

Lemma triple_insertShareLink link alias O Pre : triple O Pre (insertShareLink link alias) O (fun _ => pure True).
Proof. unfold insertShareLink. repeat step. apply triple_insert_generated. Qed.

Lemma triple_shareLinkCreatorID r O Pre : triple O Pre (shareLinkCreatorID r) O (on_right (fun _ => pure True)).
Proof. unfold shareLinkCreatorID. repeat step. Qed.
#[local] Hint Resolve triple_insertShareLink triple_shareLinkCreatorID : programs.

Lemma CreateShareLink_safe r Pre : handler_safe none Pre (CreateShareLink h r).
Proof. unfold CreateShareLink. repeat step. Qed.

Lemma ListShareLinks_safe r Pre : handler_safe none Pre (ListShareLinks h r).
Proof. unfold ListShareLinks. repeat step. Qed.

Lemma DeleteShareLink_safe r Pre : handler_safe none Pre (DeleteShareLink r).
Proof. unfold DeleteShareLink. repeat step. Qed.

(** The setup. *)
Lemma triple_bootstrapRequired O Pre : triple O Pre bootstrapRequired O (on_right (fun _ => pure True)).
Proof. unfold bootstrapRequired. repeat step. Qed.
#[local] Hint Resolve triple_bootstrapRequired : programs.

Lemma Status_safe cfg r Pre : handler_safe none Pre (Status cfg r).
Proof. unfold Status. repeat step. Qed.

Lemma BootstrapFirstAdmin_safe cfg r Pre : handler_safe none Pre (BootstrapFirstAdmin cfg r).
Proof. unfold BootstrapFirstAdmin. repeat step. Qed.

(** ** Middleware *)

Lemma triple_authenticate chain r O Pre :
  chain_reads e chain -> triple O Pre (ChainAuthenticate chain r) O (fun _ => pure True).
Proof.
  intros Hc. unfold ChainAuthenticate. generalize (@None AuthError). revert Pre.
  induction Hc as [|a rest Ha Hrest IH]; intros P err; cbn [chain_loop]; [by repeat step|].
  eapply triple_call; [apply Ha|told].
  match goal with r0 : result AuthResult |- _ => destruct r0 as [[[]|]|] end; try apply IH; by step.
Qed.

Lemma RequireAuthentication_safe chain onError next r Pre :
  chain_reads e chain -> (forall r Pre, handler_safe none Pre (next r)) ->
  handler_safe none Pre (RequireAuthentication chain onError next r).
Proof.
  intros Hc Hn. unfold RequireAuthentication. eapply handler_bind; [by apply triple_authenticate|].
  intros [err|p]; [by step|apply Hn].
Qed.

Lemma RequireRole_safe role onError next r Pre :
  (forall r Pre, handler_safe none Pre (next r)) -> handler_safe none Pre (RequireRole role onError next r).
Proof. intros Hn. unfold RequireRole. repeat step. apply Hn. Qed.
End Management.
