(* ===== verification/IntegrityApp.v ===== *)
(** * Storage integrity: the whole server

    Every route of the program behind its middleware - S3, public reads, management,
    setup - and the stale-upload cleanup, interleaved call by call. *)

From S2P Require Import Prelude GoStrings GoPath Effects Iam Authz Os Sanitize DiskEngine Schema Db Cache Prog CachedBucketRepo CachedObjectRepo CachedRepo Repositories Config S3Http SigV4 S3Xml S3Access Auth AuthSpec S3Objects S3Complete S3Dispatch MgmtHttp MgmtBuckets Setup App Integrity IntegrityOps IntegrityAdmin IntegrityHandlers IntegrityMgmt.

(** * Storage integrity: the server

    Any number of requests of all the S3 routes and runs of the stale-upload cleanup,
    interleaved call by call, with time passing and every system call, statement,
    commit and context free to fail. *)

(** What starts in the server. *)
Inductive Event : Type :=
  | HttpRequest (route : Route) (r : Request)
  | StaleCleanup (ttl : Z).

Definition Serve `{Cwd} `{Uuid} `{XmlDecoder} `{MediaTypes} `{Rounds} (h : ObjectHandlers) (event : Event)
    : prog World (option Response) :=
  match event with
  | HttpRequest route r => response <~ ServeRoute h route r ;; Ret (Some response)
  | StaleCleanup ttl => removeStaleUploads h ttl ~;; Ret None
  end.

(** Time passes, and the faults to come change. *)
Inductive environment (w : World) : World -> Prop :=
  | environment_step clock db_faults os_faults :
      environment w (MkWorld (MkDb (tables w) clock db_faults) (set_faults os_faults (w_os w)) (w_cache w)).

(** The metadata and the disk agree: each row of an object or a part names a file that
    exists with the size of the row, and no two rows name the same file. Buckets and
    keys have passed validation, and the files form a tree. *)
Record integral `{Cwd} `{Uuid} (e : engine) (w : World) : Prop := {
  it_schema : wf_tables (tables w) /\ grants_grantable (tables w);
  it_bucket b : is_Some (t_buckets (tables w) !! b) -> bucket_dir b;
  it_key b k row : t_objects (tables w) !! (b, k) = Some row -> is_ok (ValidateKey k) = true;
  it_object b k row : t_objects (tables w) !! (b, k) = Some row ->
    exists n, n < os_uuids (w_os w) /\ or_storage_path row = object_path b n /\
              has_file w (object_file e b n) (or_size row);
  it_part up k row : t_parts (tables w) !! (up, k) = Some row ->
    exists n, n < os_uuids (w_os w) /\ pr_storage_path row = part_path up k n /\
              has_file w (part_file e up k n) (pr_size row);
  it_upload id : is_Some (t_uploads (tables w) !! id) -> exists n, n < os_uuids (w_os w) /\ id = uuid_of n;
  it_distinct n r r' : refers (tables w) r n -> refers (tables w) r' n -> r = r';
  it_tree : wf_os (w_os w);
}.

Section Server.
Context `{Cwd} `{UL : UuidLaws} `{XmlDecoder} `{MediaTypes} `{Rounds} (h : ObjectHandlers).
Context (We : wf_engine (h_storage h)).

Lemma inv_integral U g w : inv (h_storage h) U g w -> integral (h_storage h) w.
Proof.
  intros Hi. split.
  - apply Hi.
  - apply (inv_bucket _ _ _ _ Hi).
  - apply (inv_key _ _ _ _ Hi).
  - intros b k row Hrow. destruct (inv_object _ _ _ _ Hi _ _ _ Hrow) as (n & Hp & Hg & Hf).
    exists n. split; [by eapply (inv_bound _ _ _ _ Hi)|done].
  - intros up k row Hrow. destruct (inv_part _ _ _ _ Hi _ _ _ Hrow) as (n & Hp & Hg & Hf).
    exists n. split; [by eapply (inv_bound _ _ _ _ Hi)|done].
  - intros id Hid. destruct (inv_upload _ _ _ _ Hi _ Hid) as (n & -> & Hg).
    exists n. split; [by eapply (inv_bound _ _ _ _ Hi)|done].
  - intros n r r' Hr Hr'. eapply (inv_unique _ _ _ _ Hi n); by eapply refers_committed.
  - apply (inv_os _ _ _ _ Hi).
Qed.

(** What a coherent cache holds is known from the rows. *)
Lemma coherent_known w :
  integral (h_storage h) w -> quiet_cache w ->
  cache_holds (entry_known (fun n r => refers (tables w) r n)) (w_cache w).
Proof.
  intros Hi. apply cache_holds_impl. intros [[] b k] v; unfold current, entry_known; simpl.
  - destruct (String.eqb k ""); [|done]. destruct (t_buckets (tables w) !! b) as [row|] eqn:E; [|done].
    intros [= <-] bucket [= <-]. split; [|done]. apply (it_bucket _ _ Hi). by exists row.
  - destruct (t_objects (tables w) !! (b, k)) as [row|] eqn:E; [|done]. intros [= <-] o [= <-].
    split_and!; [done|done|]. destruct (it_object _ _ Hi _ _ _ E) as (n & _ & Hp & _). exists n.
    split_and!; [|done|by exists row]. apply (it_bucket _ _ Hi).
    exact (wt_object_bucket _ (proj1 (it_schema _ _ Hi)) (b, k) row b E eq_refl).
Qed.

(** The ghost state of a quiet server is what its rows refer to. *)
Lemma integral_inv w :
  integral (h_storage h) w -> quiet_cache w -> inv (h_storage h) none (fun n r => refers (tables w) r n) w.
Proof.
  intros Hi Hc. split.
  - apply Hi.
  - apply (it_bucket _ _ Hi).
  - apply (it_key _ _ Hi).
  - intros b k row Hrow. destruct (it_object _ _ Hi _ _ _ Hrow) as (n & _ & Hp & Hf). exists n.
    split; [done|]. split; [by exists row|done].
  - intros up k row Hrow. destruct (it_part _ _ Hi _ _ _ Hrow) as (n & _ & Hp & Hf). exists n.
    split; [done|]. split; [by exists row|done].
  - intros id Hid. destruct (it_upload _ _ Hi _ Hid) as (n & _ & ->). by exists n.
  - intros n r r'. apply (it_distinct _ _ Hi).
  - intros n [b k|up k|]; simpl.
    + intros (row & Hrow & Hp). destruct (it_object _ _ Hi _ _ _ Hrow) as (m & Hm & Hp' & _).
      assert (Hb : bucket_dir b).
      { apply (it_bucket _ _ Hi). exact (wt_object_bucket _ (proj1 (it_schema _ _ Hi)) (b, k) row b Hrow eq_refl). }
      rewrite Hp in Hp'. by apply object_path_inj in Hp' as ->; [|apply Hb..].
    + intros (row & Hrow & Hp). destruct (it_part _ _ Hi _ _ _ Hrow) as (m & Hm & Hp' & _).
      assert (Hu : normal_seg up).
      { destruct (it_upload _ _ Hi up) as (j & _ & ->); [|apply uuid_normal].
        exact (wt_part_upload _ (proj1 (it_schema _ _ Hi)) (up, k) row up Hrow eq_refl). }
      rewrite Hp in Hp'. by apply part_path_inj in Hp' as ->.
    + intros Hs. destruct (it_upload _ _ Hi _ Hs) as (m & Hm & E). by apply uuid_inj in E as ->.
  - by intros x [].
  - apply (it_tree _ _ Hi).
  - by apply coherent_known.
Qed.

(** What is in the cache does not matter to the storage. *)
Lemma integral_with_cache store c w : integral store w <-> integral store (with_cache c w).
Proof. by split; intros []; split. Qed.

Lemma environment_inv U g w w' :
  inv (h_storage h) U g w -> environment w w' ->
  exists g', evolves g w g' w' /\ inv (h_storage h) U g' w'.
Proof.
  intros Hi [clock dbf osf]. exists g. split; [done|]. pose proof (inv_os _ _ _ _ Hi) as Hwf.
  destruct Hi. split; try done. by apply wf_os_faults.
Qed.

Context (Hauthz : h_authz h = None \/ exists grants, h_authz h = Some (NewAuthzEvaluator grants)).

Lemma Serve_safe event : handler_safe clash (inv (h_storage h)) evolves none (fun _ _ => True) (Serve h event).
Proof using We UL Hauthz.
  destruct event as [route r|ttl]; apply handler_map; [by apply ServeRoute_safe|by apply removeStaleUploads_safe].
Qed.

(** The metadata and the disk never disagree. From a state in which every row of
    an object or a part names a file of its own with the row's size, any number of
    requests of the S3 routes and runs of the stale-upload cleanup, interleaved call by
    call in any order, with any system call, SQL statement, commit and context failing
    at any point - a crash included - lead only to such states: no acknowledged object
    is ever without its bytes, and no file is ever shared by two rows or removed while
    a row names it. *)
Theorem server_integral w mutexes s :
  integral (h_storage h) w -> quiet_cache w ->
  rtc (server_step (Serve h) environment) (MkServer w mutexes ∅) s ->
  integral (h_storage h) (sv_state s).
Proof using We UL Hauthz.
  intros Hi Hc Hs. apply integral_inv in Hi; [|done].
  destruct (server_reachable_ok clash (inv (h_storage h)) evolves (Serve h) environment
    clash_sym (fun U U' g s => inv_mono _ U U' g s) evolves_refl (fun U g => environment_inv U g)
    (fun event => Serve_safe event (fun _ _ => True) (fun _ _ _ _ _ _ => I) (entails_refl _)) w
    (fun n r => refers (tables w) r n) mutexes s Hi Hs) as (g & U & Hinv).
  by eapply inv_integral.
Qed.
End Server.

(** ** A sample run *)

#[export] Instance sample_xml : XmlDecoder :=
  Build_XmlDecoder (fun _ => []) (fun _ _ => Err (ErrOther "xml")) (fun _ _ => Err (ErrOther "xml"))
    (fun _ _ => Err (ErrOther "xml")).
#[export] Instance sample_media_types : MediaTypes := fun _ => true.
#[export] Instance sample_rounds : Rounds := 1.

Definition sample_handlers : ObjectHandlers :=
  MkHandlers sample_engine true true true true (Some (NewAuthzEvaluator true)) "" 0 None.

(** A new server. *)
Definition sample_world : World := MkWorld (MkDb empty_tables 5 []) sample_os None.

Lemma sample_world_integral : integral sample_engine sample_world.
Proof.
  split.
  - split; [apply empty_tables_wf|]. apply map_Forall_empty.
  - by intros b [].
  - done.
  - done.
  - done.
  - by intros id [].
  - intros n r r'. destruct r; simpl; [by intros (? & ? & _)..|by intros []].
  - apply sample_os_wf.
Qed.

(** In development mode, a bucket is created and an object is put in it twice. *)
Definition sample_request (key : string) (body : reader) : Request :=
  MkRequest "PUT" ("/photos/" +:+ key) ("/photos/" +:+ key) "localhost" "127.0.0.1:4000" false (<["bucket" := "photos"]> {["*" := key]}) ∅ ∅
    (string_len (reader_content body)) body (Some (MkPrincipal "dev" "Dev" "ak" "admin" true "" "")) "req".
Definition sample_events : list Event :=
  [HttpRequest BucketRoute (sample_request "" []); HttpRequest ObjectRoute (sample_request "a" sample_reader);
   HttpRequest ObjectRoute (sample_request "a" sample_reader); StaleCleanup 10].

Definition sample_served : option (list (option Response) * World) :=
  serve_all (Serve sample_handlers) sample_events sample_world.

Lemma server_integral_witness :
  exists resps w, sample_served = Some (resps, w) /\
    (fun resp => option_map rs_status resp) <$> resps = [Some 200%Z; Some 200%Z; Some 200%Z; None] /\
    size (t_objects (tables w)) = 1 /\ size (os_files (w_os w)) = 1 /\
    integral sample_engine w.
Proof.
  assert (Hc : match sample_served with
               | Some (resps, w) =>
                   (fun resp => option_map rs_status resp) <$> resps = [Some 200%Z; Some 200%Z; Some 200%Z; None] /\
                   size (t_objects (tables w)) = 1 /\ size (os_files (w_os w)) = 1
               | None => False
               end) by (vm_compute; by split_and!).
  destruct sample_served as [[resps w]|] eqn:E; [|by destruct Hc].
  exists resps, w. destruct Hc as (H1 & H2 & H3). split; [reflexivity|].
  split; [exact H1|]. split; [exact H2|]. split; [exact H3|].
  apply (server_integral sample_handlers sample_engine_wf (or_intror (ex_intro _ true eq_refl)) sample_world ∅
    (MkServer w ∅ ∅) sample_world_integral I).
  by eapply serve_all_steps.
Defined.

(** * Storage integrity: the whole server *)

(** What starts in the program. *)
Inductive AppEvent : Type :=
  | AppRequest (route : AppRoute) (r : Request)
  | CleanupTick (ttl : Z).

Definition ServeApp `{Cwd} `{Uuid} `{Random} `{XmlDecoder} `{MediaTypes} `{Rounds} (a : app) (event : AppEvent)
    : prog World (option Response) :=
  match event with
  | AppRequest route r => response <~ newRouter a route r ;; Ret (Some response)
  | CleanupTick ttl => removeStaleUploads (ap_objects a) ttl ~;; Ret None
  end.

(** How [newApp] wires the handlers. *)
Record wired (a : app) (store : engine) : Prop := {
  wi_objects : h_storage (ap_objects a) = store;
  wi_management : mh_storage (ap_management a) = Some store;
  wi_authz : exists grants, h_authz (ap_objects a) = Some (NewAuthzEvaluator grants);
}.

Lemma newApp_wired cfg store fuel a : newApp cfg store fuel = Ok a -> wired a store.
Proof.
  unfold newApp. destruct (_ && _)%bool; [done|]. intros [= <-]. split; [done..|by exists true].
Qed.

(** The cache of a new server says nothing. *)
Lemma newApp_cache cfg store fuel a t : newApp cfg store fuel = Ok a -> coherent (ap_cache a) t.
Proof.
  unfold newApp. destruct (_ && _)%bool; [done|]. intros [= <-]. cbn [ap_cache].
  destruct (_ <? _)%Z; [apply new_cache_coherent|done].
Qed.

Section App.
Context `{Cwd} `{UL : UuidLaws} `{Random} `{XmlDecoder} `{MediaTypes} `{Rounds} (store : engine) (We : wf_engine store).
Context (a : app) (Ha : wired a store).

Abbreviation handler_safe := (Integrity.handler_safe clash (Integrity.inv store) evolves).

Lemma found_handler_safe routes method pattern handler :
  Forall (fun x => forall r Pre, handler_safe none Pre (x.2 r)) routes ->
  find_route routes method pattern = Some handler -> forall r Pre, handler_safe none Pre (handler r).
Proof.
  intros Hr Hf r Pre. unfold find_route in Hf. apply fmap_Some in Hf as ([x hd] & Hf & ->).
  apply find_some in Hf as [Hin _]. rewrite <- list_elem_of_In in Hin. rewrite Forall_forall in Hr. by apply (Hr _ Hin).
Qed.

Lemma adminRoutes_safe : Forall (fun x => forall r Pre, handler_safe none Pre (x.2 r)) (adminRoutes a).
Proof using We UL Ha.
  pose proof (wi_management _ _ Ha) as Hs. pose proof (or_intror Hs : mh_storage (ap_management a) = None \/ _) as Hs'.
  repeat apply Forall_cons_2; [..|apply Forall_nil_2]; intros r Pre; cbn [snd].
  - apply Metrics_safe.
  - apply ConfigInfo_safe.
  - apply ListActivity_safe.
  - apply MgmtListBuckets_safe.
  - apply MgmtGetBucket_safe.
  - by apply MgmtDeleteBucket_safe.
  - by apply MgmtEmptyBucket_safe.
  - apply MgmtListObjects_safe.
  - apply MgmtGetObject_safe.
  - apply CreatePublicObjectURL_safe.
  - apply ListKeys_safe.
  - apply CreateKey_safe.
  - apply PatchKey_safe.
  - apply DeleteKey_safe.
  - apply ListUserGrants_safe.
  - apply ListShareLinks_safe.
  - apply CreateShareLink_safe.
  - apply DeleteShareLink_safe.
Qed.

Lemma grantRoutes_safe : Forall (fun x => forall r Pre, handler_safe none Pre (x.2 r)) (grantRoutes a).
Proof using We UL.
  repeat apply Forall_cons_2; [..|apply Forall_nil_2]; intros r Pre; cbn [snd].
  - apply ListMyGrants_safe.
  - apply ListBucketGrants_safe.
  - apply CreateBucketGrants_safe.
  - apply PatchBucketGrant_safe.
  - apply DeleteBucketGrant_safe.
  - apply TransferBucketOwnership_safe.
Qed.

Lemma managementRoutes_safe pattern r Pre : handler_safe none Pre (managementRoutes a pattern r).
Proof using We UL Ha.
  unfold managementRoutes. apply RequireAuthentication_safe; [apply newAuthChain_reads|]. clear r Pre. intros r Pre.
  destruct (find_route (grantRoutes a) _ _) eqn:Eg; [by eapply found_handler_safe, Eg; apply grantRoutes_safe|].
  destruct (find_route (adminRoutes a) _ _) eqn:Ea; [|apply handler_ret].
  apply RequireRole_safe. eapply found_handler_safe; [apply adminRoutes_safe|exact Ea].
Qed.

Lemma S3Headers_safe next r Pre :
  (forall r Pre, handler_safe none Pre (next r)) -> handler_safe none Pre (S3Headers next r).
Proof using UL.
  intros Hn. unfold S3Headers, newRequestID. eapply handler_call; [apply op_rand_read|].
  intros res ? ? [-> ->]. apply handler_map, Hn.
Qed.

Lemma s3Routes_safe route r Pre : handler_safe none Pre (s3Routes a route r).
Proof using We UL Ha.
  assert (Hh : forall handler r' Pre', route_handler (ap_objects a) route (rq_method r) = Some handler ->
            handler_safe none Pre' (handler r')).
  { intros handler r' P E. pose proof We as We'. rewrite <- (wi_objects _ _ Ha) in We' |- *.
    eapply route_handler_safe; [done|right; apply (wi_authz _ _ Ha)|exact E]. }
  unfold s3Routes. destruct (route_handler _ route (rq_method r)) as [handler|] eqn:Eh; [|apply handler_ret].
  assert (Hs : handler_safe none Pre
            (S3Headers (RequireAuthentication (chain a) writeS3AuthError handler) r)).
  { apply S3Headers_safe. intros r1 P1. apply RequireAuthentication_safe; [apply newAuthChain_reads|].
    intros r2 P2. by apply Hh. }
  destruct route; first [exact Hs | by apply Hh].
Qed.

Lemma newRouter_safe route r Pre : handler_safe none Pre (newRouter a route r).
Proof using We UL Ha.
  destruct route as [status|path|pattern|route]; cbn [newRouter].
  - apply handler_ret.
  - unfold setupRoutes. destruct (_ && _)%bool; [apply Status_safe|].
    destruct (_ && _)%bool; [apply BootstrapFirstAdmin_safe|apply handler_ret].
  - apply managementRoutes_safe.
  - apply s3Routes_safe.
Qed.

Lemma ServeApp_safe event : handler_safe none (fun _ _ => True) (ServeApp a event).
Proof using We UL Ha.
  destruct event as [route r|ttl]; apply handler_map; [apply newRouter_safe|].
  pose proof We as We'. rewrite <- (wi_objects _ _ Ha) in We' |- *. by apply removeStaleUploads_safe.
Qed.

Lemma app_invariant w mutexes s :
  integral store w -> quiet_cache w ->
  rtc (server_step (ServeApp a) environment) (MkServer w mutexes ∅) s ->
  integral store (sv_state s).
Proof using We UL Ha.
  intros Hi Hc Hs. pose proof (wi_objects _ _ Ha) as Es. pose proof ServeApp_safe as Hsafe.
  rewrite <- Es in Hi, Hsafe |- *. apply integral_inv in Hi; [|done].
  destruct (server_reachable_ok clash (inv (h_storage (ap_objects a))) evolves (ServeApp a) environment
    clash_sym (fun U U' g s => inv_mono _ U U' g s) evolves_refl (fun U g => environment_inv (ap_objects a) U g)
    (fun event => Hsafe event (fun _ _ => True) (fun _ _ _ _ _ _ => I) (entails_refl _)) w
    (fun n r => refers (tables w) r n) mutexes s Hi Hs) as (g & U & Hinv).
  by eapply inv_integral.
Qed.
End App.

(** C1: the whole program keeps the metadata and the disk in agreement. In the server
    that newApp wires, any number of requests on every route - S3, public and shared
    reads, management, setup, each behind its authentication - and runs of the
    stale-upload cleanup, interleaved call by call in any order, with any system call,
    statement, commit and context failing at any point, lead from a state in which
    every row of an object or a part names a file of its own with the row's size only
    to such states: nothing that is stored loses its bytes, whatever an administrator
    deletes, empties or transfers meanwhile. *)
Theorem app_integral `{Cwd} `{UL : UuidLaws} `{Random} `{XmlDecoder} `{MediaTypes} `{Rounds} cfg store fuel a w mutexes s :
  newApp cfg store fuel = Ok a -> wf_engine store ->
  integral store w ->
  rtc (server_step (ServeApp a) environment) (MkServer (with_cache (ap_cache a) w) mutexes ∅) s ->
  integral store (sv_state s).
Proof.
  intros Ha We Hi Hs. eapply (app_invariant store We a); [by eapply newApp_wired|by apply integral_with_cache| |exact Hs].
  by eapply newApp_cache.
Qed.

(** ** A sample run *)

(** In development mode: a bucket, an object, the metrics, and the bucket is deleted
    with what is in it. *)
Definition sample_config : Config :=
  MkConfig "127.0.0.1:9000" "" "" true "" 1048576 "" "" 0 0 [] 0 0 0 0 0 0.
Definition app_request (method : string) (params : gmap string string) (body : reader) : Request :=
  MkRequest method "/photos" "/photos" "localhost" "127.0.0.1:4000" false params ∅ ∅
    (string_len (reader_content body)) body None "".
Definition app_events : list AppEvent :=
  [AppRequest (S3Route BucketRoute) (app_request "PUT" {["bucket" := "photos"]} []);
   AppRequest (S3Route ObjectRoute) (app_request "PUT" (<["bucket" := "photos"]> {["*" := "a"]}) sample_reader);
   AppRequest (ManagementRoute "/metrics") (app_request "GET" ∅ []);
   AppRequest (ManagementRoute "/buckets/{bucket}") (app_request "DELETE" {["bucket" := "photos"]} [])].

Definition app_served : option (app * list (option Response) * World) :=
  match newApp sample_config sample_engine 10 with
  | Err _ => None
  | Ok a => '(resps, w) ← serve_all (ServeApp a) app_events (with_cache (ap_cache a) sample_world); Some (a, resps, w)
  end.

Lemma app_integral_witness :
  exists a resps w, app_served = Some (a, resps, w) /\
    (fun resp => option_map rs_status resp) <$> resps = [Some 200%Z; Some 200%Z; Some 200%Z; Some 204%Z] /\
    size (t_objects (tables w)) = 0 /\ size (os_files (w_os w)) = 0 /\ size (t_activity (tables w)) = 4 /\
    integral sample_engine w.
Proof.
  assert (Hc : match app_served with
               | Some (a, resps, w) =>
                   (fun resp => option_map rs_status resp) <$> resps = [Some 200%Z; Some 200%Z; Some 200%Z; Some 204%Z] /\
                   size (t_objects (tables w)) = 0 /\ size (os_files (w_os w)) = 0 /\ size (t_activity (tables w)) = 4
               | None => False
               end) by (vm_compute; by split_and!).
  unfold app_served in *. destruct (newApp sample_config sample_engine 10) as [a|err] eqn:Ea; [|by destruct Hc].
  cbn [mbind option_bind] in *. destruct (serve_all (ServeApp a) app_events (with_cache (ap_cache a) sample_world)) as [[resps w]|] eqn:E; [|by destruct Hc].
  exists a, resps, w. destruct Hc as (H1 & H2 & H3 & H4). split; [reflexivity|].
  split; [exact H1|]. split; [exact H2|]. split; [exact H3|]. split; [exact H4|].
  apply (app_integral sample_config sample_engine 10 a sample_world ∅ (MkServer w ∅ ∅) Ea sample_engine_wf
    sample_world_integral).
  by eapply serve_all_steps.
Defined.
