(* ===== verification/CacheApp.v ===== *)
(** * The cache of the whole server: [internal/metadata/cache.go], [cache_publication.go]

    The server, with every handler and any interleaving, seen from its cache: each request
    is at every moment an idle thread, a reader or a writer of the concurrent system of
    [CachedRepo], or it has a call ahead that touches neither buckets nor objects. So what
    that system promises of the cache holds of the server. *)

From S2P Require Import Prelude GoStrings Encoding Json Effects Os Sanitize DiskEngine Schema Db Iam Authz ObjectRepo BucketRepo MultipartRepo UserRepo GrantRepo ShareLinkRepo ActivityRepo Repositories Cache Prog CachedBucketRepo CachedObjectRepo CachedRepo ObjectOps Config S3Http S3Xml S3Access S3Objects S3Copy S3Multipart S3Complete S3Buckets S3Lists S3Delete S3Public S3Dispatch SigV4 Auth AuthSpec MgmtHttp MgmtKeys MgmtBuckets MgmtGrants MgmtShareLinks Setup App Integrity IntegrityApp.

(** ** A request as a thread of the system *)

(** What a call of request [i], which leaves the world [w], is in the system. *)
Record goes_on (i : nat) (y : Sys) (w : World) (y' : Sys) : Prop := {
  go_steps : rtc sys_step y y';
  go_state : sy_state y' = w;
  go_others : forall j, j <> i -> sy_threads y' !! j = sy_threads y !! j;
  go_evictions : sy_evictions y' <= S (sy_evictions y);
}.

(** [tracked p th]: whatever the others do, the calls of [p] are steps of the system that
    go on from the thread [th]; a write that has committed is followed by its eviction. *)
Fixpoint tracked {A} (p : prog World A) (th : option thread) : Prop :=
  match p with
  | Ret _ => idle th
  | Lock _ k | Unlock _ k => idle th /\ tracked k th
  | Call m k =>
      (forall f P, th = Some (Committed f P) -> exists next, p = pbind (evict f) next) /\
      forall y i r w, sys_inv y -> sy_threads y !! i = th -> m (sy_state y) = (r, w) ->
        exists y', goes_on i y w y' /\ tracked (k r) (sy_threads y' !! i)
  end.

(** A request that may begin, and end, without a write to evict. *)
Definition calm {A} (p : prog World A) : Prop := forall th, idle th -> tracked p th.

Lemma idle_not_committed th f P : idle th -> th <> Some (Committed f P).
Proof. by intros Hi ->. Qed.

Lemma tracked_bind {A B} (p : prog World A) (k : A -> prog World B) th :
  tracked p th -> (forall a, calm (k a)) -> tracked (pbind p k) th.
Proof.
  intros Hp Hk. revert th Hp; induction p as [a|C m k' IH|mutex k' IH|mutex k' IH]; intros th; cbn [pbind tracked].
  - apply Hk.
  - intros [Hc Hm]. split.
    + intros f P Eth. destruct (Hc f P Eth) as [next E]. exists (fun u => pbind (next u) k).
      change (Call m (fun r => pbind (k' r) k)) with (pbind (Call m k') k). by rewrite E.
    + intros y i r w Hy Hi Em. destruct (Hm y i r w Hy Hi Em) as (y' & Hg & Ht). exists y'. split; [done|]. by apply IH.
  - intros [Hi Ht]. split; [done|]. by apply IH.
  - intros [Hi Ht]. split; [done|]. by apply IH.
Qed.

(** *** Idle requests *)

Lemma calm_ret {A} (a : A) : calm (Ret a).
Proof. by intros th. Qed.

Lemma calm_bind {A B} (p : prog World A) (k : A -> prog World B) :
  calm p -> (forall a, calm (k a)) -> calm (pbind p k).
Proof. intros Hp Hk th Hi. apply tracked_bind; [by apply Hp|done]. Qed.

Lemma calm_respond {R A} (p : prog World (R + A)) (k : A -> prog World R) :
  calm p -> (forall a, calm (k a)) -> calm (respond p k).
Proof. intros Hp Hk. apply calm_bind; [done|]. intros [resp|a]; [apply calm_ret|apply Hk]. Qed.

Lemma calm_early {R A B} (p : prog World (R + A)) (k : A -> prog World (R + B)) :
  calm p -> (forall a, calm (k a)) -> calm (early p k).
Proof. intros Hp Hk. apply calm_bind; [done|]. intros [resp|a]; [apply calm_ret|apply Hk]. Qed.

Lemma calm_with_lock {A} mutex (p : prog World A) : calm p -> calm (with_lock mutex p).
Proof.
  intros Hp th Hi. split; [done|]. apply tracked_bind; [by apply Hp|]. intros a th' Hi'. by split.
Qed.

(** A call that touches neither the buckets, nor the objects, nor the cache. *)
Definition quiet {A} (m : M World A) : Prop := forall w, wp m (fun _ w' =>
  t_buckets (tables w') = t_buckets (tables w) /\ t_objects (tables w') = t_objects (tables w) /\ w_cache w' = w_cache w) w.

(** A call whose steps can be taken. *)
Lemma tracked_call {A B} (m : M World B) (k : result B -> prog World A) th :
  idle th ->
  (forall y i r w, sys_inv y -> sy_threads y !! i = th -> m (sy_state y) = (r, w) ->
     exists y', goes_on i y w y' /\ tracked (k r) (sy_threads y' !! i)) ->
  tracked (Call m k) th.
Proof. intros Hi Hm. split; [|done]. intros f P E. by destruct (idle_not_committed th f P Hi). Qed.

Lemma env_goes_on i y w :
  t_buckets (tables w) = t_buckets (sy_tables y) -> t_objects (tables w) = t_objects (sy_tables y) ->
  w_cache w = w_cache (sy_state y) ->
  goes_on i y w (MkSys w (sy_threads y) (sy_evictions y)).
Proof. intros Hb Ho Hc. split; [by apply rtc_once, step_env|done..|simpl; lia]. Qed.

Lemma calm_Call {A B} (m : M World B) (k : result B -> prog World A) :
  quiet m -> (forall r, calm (k r)) -> calm (Call m k).
Proof.
  intros Hm Hk th Hi. apply tracked_call; [done|]. intros y i r w _ Ei Em.
  destruct (wp_run m _ _ _ _ Em (Hm (sy_state y))) as (Hb & Ho & Hc).
  eexists. split; [by apply env_goes_on|]. simpl. rewrite Ei. by apply Hk.
Qed.

Lemma calm_call {B} (m : M World B) : quiet m -> calm (call m).
Proof. intros Hm. apply calm_Call; [done|]. intros r. apply calm_ret. Qed.

(** *** Writers *)

(** One step of the system. *)
Lemma step_goes_on i y w th n :
  sys_step y (MkSys w (<[i := th]> (sy_threads y)) n) -> n <= S (sy_evictions y) ->
  goes_on i y w (MkSys w (<[i := th]> (sy_threads y)) n).
Proof. intros Hs Hn. split; [by apply rtc_once|done| |done]. intros j Hj. simpl. by rewrite lookup_insert_ne. Qed.

Lemma tracked_evict {A} f P (next : unit -> prog World A) :
  (forall u, calm (next u)) -> tracked (pbind (evict f) next) (Some (Committed f P)).
Proof.
  intros Hn. split; [intros f' P' [= <- _]; by eexists|].
  intros y i r w _ Ei Em. injection Em as <- <-.
  eexists. split; [by apply step_goes_on, le_n; eapply step_evict|]. simpl. rewrite lookup_insert_eq. by apply Hn.
Qed.

(** A write, with its eviction, as the repositories behind the cache do it. *)
Lemma tracked_write {A B} (m : M Db B) f P (k : result B -> prog World A) y i r w :
  wrapped m f P -> idle (sy_threads y !! i) -> db m (sy_state y) = (r, w) ->
  tracked (k r) (Some (Committed f P)) ->
  exists y', goes_on i y w y' /\ tracked (k r) (sy_threads y' !! i).
Proof.
  intros Hw Hi Em Hk. eexists. split; [apply step_goes_on; [by eapply step_write|apply le_S, le_n]|].
  simpl. by rewrite lookup_insert_eq.
Qed.

Lemma calm_then_evict {A} (m : M Db A) f P : wrapped m f P -> calm (then_evict m f).
Proof.
  intros Hw th Hi. apply tracked_call; [done|]. intros y i r w _ <- Em.
  eapply (tracked_write m f P (fun r => pbind (evict f) (fun _ => Ret r))); [done..|].
  apply tracked_evict. intros _. apply calm_ret.
Qed.

(** *** Readers *)

Lemma tracked_read {A B} (m : M World B) (k : result B -> prog World A) tg pc seen :
  pc <> RStart ->
  (forall y r w, sys_inv y -> m (sy_state y) = (r, w) ->
     exists pc', reader_step tg pc (sy_state y) = (Ok pc', w) /\ tracked (k r) (Some (Reader tg pc' seen))) ->
  tracked (Call m k) (Some (Reader tg pc seen)).
Proof.
  intros Hpc Hm. apply tracked_call; [done|]. intros y i r w Hy Ei Em.
  destruct (Hm y r w Hy Em) as (pc' & Es & Hk).
  eexists. split; [apply step_goes_on; [by eapply step_read|apply le_S, le_n]|].
  simpl. rewrite lookup_insert_eq. by destruct pc.
Qed.

(** The loop of [GetByName] and [GetByKey]. *)
Section Read.
Context {A : Type} (tg : target) (proj : cacheValue -> option A) (inj : A -> cacheValue).
Context (lookup : Cache -> option A * Cache) (load : M Db A) (publish : A -> Z -> Cache -> bool * Cache).
Context (Hkind : forall v, kinded (target_key tg) v -> is_Some (proj v)).
Context (Hlookup : forall c, lookup c = let '(v, c) := get_entry (target_key tg) c in (v ≫= proj, c)).
Context (Hload : delegate_read tg = (a <- load ;; ret (inj a))).
Context (Hpublish : forall a revision c, publish a revision c = publish_value (inj a) revision c).

(** One round, from its second step on; [next] is the following round. *)
Lemma tracked_round next seen revision :
  calm next ->
  tracked (hit <~ cache lookup ;;
     match hit with
     | Some row => Ret (Ok row)
     | None =>
         loaded <~ call (db load) ;;
         match loaded with
         | Err err => Ret (Err err)
         | Ok row =>
             published <~ cache (publish row revision) ;;
             if (published : bool) then Ret (Ok row)
             else alive <~ call (db db_ctx) ;; match alive with Err err => Ret (Err err) | Ok _ => next end
         end
     end) (Some (Reader tg (RLookup revision) seen)).
Proof using Hkind Hlookup Hload Hpublish.
  intros Hnext. apply tracked_read; [done|]. intros y r w Hy Em.
  destruct (si_cache y Hy) as (m & Ec & Hm & _ & Hfresh).
  destruct (get_entry_spec (target_key tg) m Hm) as (m' & Eg & _). unfold on_cache in Em. rewrite Hlookup, Ec, Eg in Em.
  injection Em as <- <-. cbn [reader_step].
  exists (match cached (target_key tg) m with Some v => RDone (Ok v) | None => RLoad revision end).
  split; [unfold bind, on_cache; by rewrite Ec, Eg|].
  destruct (cached (target_key tg) m) as [v|] eqn:Ev; cbn [mbind option_bind].
  { destruct (Hfresh _ _ Ev) as [Hv _]. by destruct (Hkind v Hv) as [a ->]. }
  apply tracked_read; [done|]. clear y m Hy Ec Hm Hfresh m' Eg Ev. intros y r w _ Em. cbn [reader_step].
  rewrite Hload. unfold db, on, bind, attempt in *. destruct (load _) as [[row|err] d] eqn:El; injection Em as <- <-; cbn;
    eexists; (split; [done|]); [|done].
  apply tracked_read; [done|]. clear y El d. intros y r w _ Em. cbn [reader_step]. unfold bind, on_cache in *.
  rewrite <- Hpublish. destruct (publish row revision _) as [b c]. injection Em as <- <-.
  eexists. split; [done|]. cbn. destruct b; [done|].
  apply tracked_read; [done|]. clear y c. intros y r w _ Em. cbn [reader_step]. unfold bind, attempt, db, on in *.
  destruct (db_ctx _) as [ctx d]. injection Em as <- <-. eexists. split; [done|]. destruct ctx; [by apply Hnext|done].
Qed.

(** A round begins with the current revision. *)
Lemma calm_round {B} (k : result Z -> prog World B) :
  (forall seen revision, tracked (k (Ok revision)) (Some (Reader tg (RLookup revision) seen))) ->
  calm (Call (on_cache (fun c => (currentRevision c, c))) k).
Proof.
  intros Hk th Hi. apply tracked_call; [done|]. intros y i r w _ <- [= <- <-].
  set (w := MkWorld _ _ _). set (started := <[i := Reader tg RStart (sy_evictions y)]> (sy_threads y)).
  exists (MkSys w (<[i := Reader tg (RLookup (currentRevision (w_cache (sy_state y)))) (sy_evictions y)]> started) (sy_evictions y)).
  split; [|simpl; rewrite lookup_insert_eq; apply Hk]. split; [|done| |simpl; lia].
  - eapply rtc_l; [by apply (step_start y i tg)|]. apply rtc_once.
    apply (step_read (MkSys (sy_state y) started (sy_evictions y)) i tg RStart (sy_evictions y)); [|done].
    apply lookup_insert_eq.
  - intros j Hj. unfold started. simpl. by rewrite !lookup_insert_ne.
Qed.

Lemma calm_cached_read again : calm (cached_read again lookup load publish).
Proof using Hkind Hlookup Hload Hpublish.
  induction again as [|again IH]; apply calm_round; intros seen revision.
  - apply (tracked_round (Ret (Err (ErrOther "out of fuel")))), calm_ret.
  - by apply (tracked_round (cached_read again lookup load publish)).
Qed.
End Read.

Lemma calm_GetByName `{Rounds} name : calm (CachedBucketRepository.GetByName name).
Proof. by apply (calm_cached_read (TBucket name) cv_bucket (fun b => MkCacheValue (Some b) None)). Qed.

Lemma calm_GetByKey `{Rounds} b k : calm (CachedObjectRepository.GetByKey b k).
Proof. by apply (calm_cached_read (TObject b k) cv_object (fun o => MkCacheValue None (Some o))). Qed.

(** ** Calls that touch no row of the cache *)

(** Statements on the other tables. *)
Section SameRows.
Context (t0 : Tables).

Definition same_rows (t : Tables) : Prop := t_buckets t = t_buckets t0 /\ t_objects t = t_objects t0.

Ltac other_table := intros t Ht; cbv delta [insert_user update_user delete_user insert_upload update_upload_status
  delete_upload upsert_part insert_grant insert_grant_unless_active_duplicate update_grant delete_grant insert_link
  delete_link insert_activity] beta; cbv zeta; repeat case_match; simplify_eq; exact Ht || done.

Lemma insert_user_rows id r : stmt_keeps same_rows (insert_user id r).
Proof. other_table. Qed.
Lemma update_user_rows id r : stmt_keeps same_rows (update_user id r).
Proof. other_table. Qed.
Lemma delete_user_rows id : stmt_keeps same_rows (delete_user id).
Proof. other_table. Qed.
Lemma insert_upload_rows id r : stmt_keeps same_rows (insert_upload id r).
Proof. other_table. Qed.
Lemma set_upload_status_rows id status now : stmt_keeps same_rows (update_upload_status id status now).
Proof. other_table. Qed.
Lemma delete_upload_rows id : stmt_keeps same_rows (delete_upload id).
Proof. other_table. Qed.
Lemma upsert_part_rows up n r : stmt_keeps same_rows (upsert_part up n r).
Proof. other_table. Qed.
Lemma insert_grant_rows id r : stmt_keeps same_rows (insert_grant_unless_active_duplicate id r).
Proof. other_table. Qed.
Lemma update_grant_rows id prefix active note now : stmt_keeps same_rows (update_grant id prefix active note now).
Proof. other_table. Qed.
Lemma delete_grant_rows id : stmt_keeps same_rows (delete_grant id).
Proof. other_table. Qed.
Lemma insert_link_rows code r : stmt_keeps same_rows (insert_link code r).
Proof. other_table. Qed.
Lemma delete_link_rows code : stmt_keeps same_rows (delete_link code).
Proof. other_table. Qed.
Lemma insert_activity_rows id r : stmt_keeps same_rows (insert_activity id r).
Proof. other_table. Qed.
End SameRows.

#[export] Hint Resolve insert_user_rows update_user_rows delete_user_rows insert_upload_rows set_upload_status_rows
  delete_upload_rows upsert_part_rows insert_grant_rows update_grant_rows delete_grant_rows insert_link_rows
  delete_link_rows insert_activity_rows : fbs.

(** Opens the definition of a program or of a method. *)
Ltac reveal p := lazymatch p with
  | ?f _ => reveal f
  | _ => unfold p
  end.

Create HintDb calm discriminated.
#[export] Hint Constants Opaque : calm.

(** A method that no statement on a bucket or an object is part of. *)
Definition db_quiet {A} (m : M Db A) : Prop := forall t, db_keeps (same_rows t) m.

Ltac db_quiet := intros ?;
  repeat (progress db_keeps_steps || lazymatch goal with |- db_keeps _ ?m => reveal m end).

Lemma create_batch_quiet grants results : db_quiet (GrantRepository.create_batch grants results).
Proof.
  revert results; induction grants as [|g rest IH]; intros results; cbn [GrantRepository.create_batch].
  - db_quiet.
  - db_quiet. all: first [apply IH | db_quiet].
Qed.

Lemma CreateIdempotentBatch_quiet grants : db_quiet (GrantRepository.CreateIdempotentBatch grants).
Proof. db_quiet. apply create_batch_quiet. Qed.

Lemma quiet_db {A} (m : M Db A) : db_quiet m -> quiet (db m).
Proof. intros Hm w. apply wp_db. eapply wp_mono; [by apply (Hm (tables w))|]. by intros r d [? ?]. Qed.

Lemma quiet_os {A} (m : M Os A) : quiet (os m).
Proof. intros w. by apply wp_os, wp_any. Qed.

Lemma quiet_ret {A} (a : A) : quiet (ret a).
Proof. by intros w. Qed.

Lemma quiet_Allow `{Rounds} h req : standard_authz h -> quiet (Allow (evaluator h) req).
Proof.
  intros Hh w. destruct (Allow_on_db h Hh req) as (m & Em & Hm). unfold wp. rewrite Em.
  apply (wp_db m (fun _ w' => t_buckets (tables w') = t_buckets (tables w) /\ t_objects (tables w') = t_objects (tables w) /\
    w_cache w' = w_cache w)). eapply wp_mono; [apply Hm|]. cbv beta. intros r d (Et & _). simpl. by rewrite Et.
Qed.

#[export] Hint Resolve CreateIdempotentBatch_quiet quiet_Allow quiet_ret : calm.

(** ** Every handler *)

Ltac quiet_call := lazymatch goal with
  | |- quiet (os _) => apply quiet_os
  | |- quiet (db _) => apply quiet_db; first [solve [eauto with calm] | db_quiet]
  | |- quiet _ => eauto with calm
  end.

Ltac calm_step := lazymatch goal with
  | |- calm (Ret _) => apply calm_ret
  | |- calm (respond _ _) => apply calm_respond; [|intros ?]
  | |- calm (early _ _) => apply calm_early; [|intros ?]
  | |- calm (pbind _ _) => apply calm_bind; [|intros ?]
  | |- calm (with_lock _ _) => apply calm_with_lock
  | |- calm (Call _ _) => apply calm_Call; [|intros ?]
  | |- calm (call _) => apply calm_call
  | |- calm (then_evict _ _) => eapply calm_then_evict; constructor
  | |- calm (match ?x with _ => _ end) => destruct x
  | |- calm ?p => first [solve [eauto with calm] | progress cbv beta zeta | reveal p]
  | |- quiet _ => solve [quiet_call]
  end.

Section Handlers.
Context `{Cwd} `{Rounds} `{Uuid} `{Random} `{XmlDecoder} `{MediaTypes} (h : ObjectHandlers) (Hauthz : standard_authz h).
#[local] Hint Resolve calm_GetByName calm_GetByKey : calm.

Lemma calm_recordActivity r action b k size etag : calm (S3Access.recordActivity h r action b k size etag).
Proof using. repeat calm_step. Qed.

Lemma calm_ensure hd r b action k prefix : calm (ensureBucketAction_with h hd r b action k prefix).
Proof using Hauthz. repeat calm_step. Qed.
#[local] Hint Resolve calm_recordActivity calm_ensure : calm.

(** Completing an upload writes an object past the cached repository: the cache is told
    of the key as soon as the transaction has committed. *)
Lemma calm_CompleteUpload {A} obj id im inm (failed : error -> prog World A) (next : string -> prog World A) :
  (forall err, calm (failed err)) -> (forall path, calm (next path)) ->
  calm (completed <~ call (db (MultipartRepository.CompleteUpload obj id im inm)) ;;
    match completed with
    | Err err => failed err
    | Ok path => InvalidateObjectCache (o_bucket_name obj) (o_key obj) ~;; next path
    end).
Proof using.
  intros Hf Hn th Hi. apply tracked_call; [done|]. intros y i [path|err] w _ <- Em.
  - eexists. split; [apply step_goes_on; [by eapply step_write, Em; [|constructor]|apply le_S, le_n]|].
    simpl. rewrite lookup_insert_eq. by apply (tracked_evict _ _ (fun _ => next path)).
  - unfold db, on in Em. destruct (MultipartRepository.CompleteUpload _ _ _ _ _) as [r d] eqn:Er. injection Em as -> <-.
    pose proof (wp_run _ _ _ _ _ Er (wp_CompleteUpload obj id im inm _)) as Et. simpl in Et.
    eexists. split; [apply env_goes_on; simpl; by rewrite ?Et|]. by apply Hf.
Qed.

Lemma calm_PutObject r : calm (PutObject h r).
Proof using Hauthz. repeat calm_step. Qed.
Lemma calm_GetObject r : calm (S3Objects.GetObject h r).
Proof using Hauthz. repeat calm_step. Qed.
Lemma calm_GetObjectAttributes r : calm (GetObjectAttributes h r).
Proof using Hauthz. repeat calm_step. Qed.
Lemma calm_DeleteObject r : calm (S3Objects.DeleteObject h r).
Proof using Hauthz. repeat calm_step. Qed.
Lemma calm_CopyObject r : calm (CopyObject h r).
Proof using Hauthz. repeat calm_step. Qed.

Lemma calm_delete_each r bucket b quiet keys res : calm (delete_each h r bucket b quiet keys res).
Proof using Hauthz. revert res; induction keys as [|key rest IH]; intros res; cbn [delete_each]; repeat calm_step. Qed.
#[local] Hint Resolve calm_delete_each : calm.

Lemma calm_DeleteObjects r : calm (DeleteObjects h r).
Proof using Hauthz. repeat calm_step. Qed.
Lemma calm_CreateMultipartUpload r : calm (CreateMultipartUpload h r).
Proof using Hauthz. repeat calm_step. Qed.
Lemma calm_UploadPart r : calm (UploadPart h r).
Proof using Hauthz. repeat calm_step. Qed.
Lemma calm_UploadPartCopy r : calm (UploadPartCopy h r).
Proof using Hauthz. repeat calm_step. Qed.

Lemma calm_complete_claimed r b key id upload parts : calm (complete_claimed h r b key id upload parts).
Proof using Hauthz. unfold complete_claimed. repeat ((apply calm_CompleteUpload; intros ?) || calm_step). Qed.
#[local] Hint Resolve calm_complete_claimed : calm.

Lemma calm_CompleteMultipartUpload r : calm (CompleteMultipartUpload h r).
Proof using Hauthz. repeat calm_step. Qed.
Lemma calm_AbortMultipartUpload r : calm (AbortMultipartUpload h r).
Proof using Hauthz. repeat calm_step. Qed.
Lemma calm_ListMultipartUploads r : calm (ListMultipartUploads h r).
Proof using Hauthz. repeat calm_step. Qed.
Lemma calm_ListParts r : calm (ListParts h r).
Proof using Hauthz. repeat calm_step. Qed.

Lemma calm_remove_stale uploads ttl : calm (remove_stale h uploads ttl).
Proof using Hauthz. induction uploads as [|upload rest IH]; cbn [remove_stale]; repeat calm_step. Qed.

Lemma calm_delete_uploads r uploads : calm (delete_uploads h r uploads).
Proof using Hauthz. induction uploads as [|upload rest IH]; cbn [delete_uploads]; repeat calm_step. Qed.
#[local] Hint Resolve calm_remove_stale calm_delete_uploads : calm.

Lemma calm_removeStaleUploads ttl : calm (removeStaleUploads h ttl).
Proof using Hauthz. repeat calm_step. Qed.

Lemma calm_abort_uploads n r b : calm (abort_uploads h n r b).
Proof using Hauthz. induction n as [|n IH]; cbn [abort_uploads]; repeat calm_step. Qed.
#[local] Hint Resolve calm_abort_uploads : calm.

Lemma calm_CreateBucket r : calm (S3Buckets.CreateBucket h r).
Proof using Hauthz. repeat calm_step. Qed.
Lemma calm_DeleteBucket r : calm (S3Buckets.DeleteBucket h r).
Proof using Hauthz. repeat calm_step. Qed.
Lemma calm_HeadBucket r : calm (S3Buckets.HeadBucket h r).
Proof using Hauthz. repeat calm_step. Qed.
Lemma calm_GetBucketLocation r : calm (GetBucketLocation h r).
Proof using Hauthz. repeat calm_step. Qed.
Lemma calm_ListBuckets r : calm (S3Buckets.ListBuckets h r).
Proof using Hauthz. repeat calm_step. Qed.
Lemma calm_ListObjectsV2 r : calm (ListObjectsV2 h r).
Proof using Hauthz. repeat calm_step. Qed.
Lemma calm_ListObjectsV1 r : calm (ListObjectsV1 h r).
Proof using Hauthz. repeat calm_step. Qed.
Lemma calm_ListObjectVersions r : calm (ListObjectVersions h r).
Proof using Hauthz. repeat calm_step. Qed.
Lemma calm_PublicReadObject r : calm (PublicReadObject h r).
Proof using Hauthz. repeat calm_step. Qed.
Lemma calm_ShareLinkReadObject r : calm (ShareLinkReadObject h r).
Proof using Hauthz. repeat calm_step. Qed.
#[local] Hint Resolve calm_PutObject calm_GetObject calm_GetObjectAttributes calm_DeleteObject calm_CopyObject
  calm_DeleteObjects calm_CreateMultipartUpload calm_UploadPart calm_UploadPartCopy calm_CompleteMultipartUpload
  calm_AbortMultipartUpload calm_ListMultipartUploads calm_ListParts calm_CreateBucket calm_DeleteBucket
  calm_HeadBucket calm_GetBucketLocation calm_ListBuckets calm_ListObjectsV2 calm_ListObjectsV1
  calm_ListObjectVersions calm_PublicReadObject calm_ShareLinkReadObject : calm.

Lemma calm_route_handler route method handler r : route_handler h route method = Some handler -> calm (handler r).
Proof using Hauthz. intros Eh. unfold route_handler in Eh. destruct route; repeat case_match; simplify_eq; repeat calm_step. Qed.
End Handlers.

Section Management.
Context `{Cwd} `{Rounds} `{Uuid} `{Random} `{XmlDecoder} `{MediaTypes} (h : MgmtHandlers).
#[local] Hint Resolve calm_GetByName calm_GetByKey : calm.

Lemma calm_record r action b k size etag : calm (MgmtHttp.recordActivity h r action b k size etag).
Proof using. repeat calm_step. Qed.
#[local] Hint Resolve calm_record : calm.

Lemma calm_record_deletions r b objects : calm (record_deletions h r b objects).
Proof using. induction objects as [|obj rest IH]; cbn [record_deletions]; repeat calm_step. Qed.

Lemma calm_delete_bucket_files e objects err : calm (delete_bucket_files e objects err).
Proof using. revert err; induction objects as [|obj rest IH]; intros err; cbn [delete_bucket_files]; repeat calm_step. Qed.

Lemma calm_delete_files e objects : calm (delete_files e objects).
Proof using. induction objects as [|obj rest IH]; cbn [delete_files]; repeat calm_step. Qed.

Lemma calm_list_pages fuel b after acc : calm (list_pages fuel b after acc).
Proof using. revert after acc; induction fuel as [|fuel IH]; intros after acc; cbn [list_pages]; repeat calm_step. Qed.

Lemma calm_new_grants p b g input now_ actions : calm (new_grants p b g input now_ actions).
Proof using. induction actions as [|a rest IH]; cbn [new_grants]; repeat calm_step. Qed.

Lemma calm_record_grants r b results : calm (record_grants h r b results).
Proof using. induction results as [|x rest IH]; cbn [record_grants]; repeat calm_step. Qed.

Lemma calm_insert_generated attempts link err : calm (insert_generated attempts link err).
Proof using. revert err; induction attempts as [|n IH]; intros err; cbn [insert_generated]; repeat calm_step. Qed.

#[local] Hint Resolve calm_record_deletions calm_delete_bucket_files calm_delete_files calm_list_pages calm_new_grants
  calm_record_grants calm_insert_generated : calm.

Lemma calm_Metrics r : calm (Metrics r).
Proof using. repeat calm_step. Qed.
Lemma calm_ConfigInfo r : calm (ConfigInfo h r).
Proof using. repeat calm_step. Qed.
Lemma calm_ListActivity r : calm (ListActivity h r).
Proof using. repeat calm_step. Qed.
Lemma calm_MgmtListBuckets r : calm (MgmtBuckets.ListBuckets r).
Proof using. repeat calm_step. Qed.
Lemma calm_MgmtGetBucket r : calm (MgmtBuckets.GetBucket r).
Proof using. repeat calm_step. Qed.
Lemma calm_MgmtDeleteBucket r : calm (MgmtBuckets.DeleteBucket h r).
Proof using. repeat calm_step. Qed.
Lemma calm_MgmtEmptyBucket fuel r : calm (MgmtBuckets.EmptyBucket h fuel r).
Proof using. repeat calm_step. Qed.
Lemma calm_MgmtListObjects r : calm (MgmtBuckets.ListObjects r).
Proof using. repeat calm_step. Qed.
Lemma calm_MgmtGetObject r : calm (MgmtBuckets.GetObject r).
Proof using. repeat calm_step. Qed.
Lemma calm_CreatePublicObjectURL r : calm (CreatePublicObjectURL h r).
Proof using. repeat calm_step. Qed.
Lemma calm_ListKeys r : calm (ListKeys r).
Proof using. repeat calm_step. Qed.
Lemma calm_CreateKey r : calm (CreateKey r).
Proof using. repeat calm_step. Qed.
Lemma calm_PatchKey r : calm (PatchKey r).
Proof using. repeat calm_step. Qed.
Lemma calm_DeleteKey r : calm (DeleteKey r).
Proof using. repeat calm_step. Qed.
Lemma calm_ListUserGrants r : calm (ListUserGrants r).
Proof using. repeat calm_step. Qed.
Lemma calm_ListShareLinks r : calm (ListShareLinks h r).
Proof using. repeat calm_step. Qed.
Lemma calm_CreateShareLink r : calm (CreateShareLink h r).
Proof using. repeat calm_step. Qed.
Lemma calm_DeleteShareLink r : calm (DeleteShareLink r).
Proof using. repeat calm_step. Qed.
Lemma calm_ListMyGrants r : calm (ListMyGrants r).
Proof using. repeat calm_step. Qed.
Lemma calm_ListBucketGrants r : calm (ListBucketGrants r).
Proof using. repeat calm_step. Qed.
Lemma calm_CreateBucketGrants r : calm (CreateBucketGrants h r).
Proof using. repeat calm_step. Qed.
Lemma calm_PatchBucketGrant r : calm (PatchBucketGrant h r).
Proof using. repeat calm_step. Qed.
Lemma calm_DeleteBucketGrant r : calm (DeleteBucketGrant h r).
Proof using. repeat calm_step. Qed.
Lemma calm_TransferBucketOwnership r : calm (TransferBucketOwnership h r).
Proof using. repeat calm_step. Qed.

Lemma calm_Status cfg r : calm (Status cfg r).
Proof using. repeat calm_step. Qed.
Lemma calm_BootstrapFirstAdmin cfg r : calm (BootstrapFirstAdmin cfg r).
Proof using. repeat calm_step. Qed.
End Management.

(** ** The router *)

Lemma BearerAuthenticate_quiet r : db_quiet (BearerAuthenticate r).
Proof. db_quiet. Qed.

Lemma SigV4Authenticate_quiet r : db_quiet (SigV4Authenticate r).
Proof. db_quiet. Qed.

Lemma newAuthChain_quiet devMode : Forall (fun a => forall r, db_quiet (a r)) (newAuthChain devMode).
Proof.
  assert (Hc : Forall (fun a => forall r, db_quiet (a r)) [BearerAuthenticate; SigV4Authenticate]).
  { apply Forall_cons_2; [apply BearerAuthenticate_quiet|]. apply Forall_cons_2; [apply SigV4Authenticate_quiet|done]. }
  destruct devMode; [apply Forall_cons_2; [intros r; db_quiet|]|]; exact Hc.
Qed.

Section Router.
Context `{Cwd} `{Rounds} `{Uuid} `{Random} `{XmlDecoder} `{MediaTypes}.

Lemma calm_chain_loop chain r err : Forall (fun a => forall r, db_quiet (a r)) chain -> calm (chain_loop chain r err).
Proof using.
  intros Hc. revert err; induction Hc as [|a rest Ha Hrest IH]; intros err; cbn [chain_loop]; [by repeat calm_step|].
  apply calm_bind; [by apply calm_call, quiet_db|]. intros ?. repeat calm_step.
Qed.

Lemma calm_RequireAuthentication devMode onError next r :
  (forall r, calm (next r)) -> calm (RequireAuthentication (newAuthChain devMode) onError next r).
Proof using.
  intros Hn. apply calm_bind; [apply calm_chain_loop, newAuthChain_quiet|].
  intros [err|p]; [apply calm_ret|apply Hn].
Qed.

Context (a : app) (store : engine) (Ha : wired a store).

Lemma calm_found_handler routes method pattern handler r :
  Forall (fun x => forall r, calm (x.2 r)) routes -> find_route routes method pattern = Some handler -> calm (handler r).
Proof using.
  intros Hr Hf. unfold find_route in Hf. apply fmap_Some in Hf as ([x hd] & Hf & ->).
  apply find_some in Hf as [Hin _]. rewrite <- list_elem_of_In in Hin. rewrite Forall_forall in Hr. by apply (Hr _ Hin).
Qed.

Lemma calm_adminRoutes : Forall (fun x => forall r, calm (x.2 r)) (adminRoutes a).
Proof using.
  repeat apply Forall_cons_2; [..|apply Forall_nil_2]; intros r; cbn [snd]; auto using calm_Metrics, calm_ConfigInfo,
    calm_ListActivity, calm_MgmtListBuckets, calm_MgmtGetBucket, calm_MgmtDeleteBucket, calm_MgmtEmptyBucket,
    calm_MgmtListObjects, calm_MgmtGetObject, calm_CreatePublicObjectURL, calm_ListKeys, calm_CreateKey, calm_PatchKey,
    calm_DeleteKey, calm_ListUserGrants, calm_ListShareLinks, calm_CreateShareLink, calm_DeleteShareLink.
Qed.

Lemma calm_grantRoutes : Forall (fun x => forall r, calm (x.2 r)) (grantRoutes a).
Proof using.
  repeat apply Forall_cons_2; [..|apply Forall_nil_2]; intros r; cbn [snd]; auto using calm_ListMyGrants, calm_ListBucketGrants,
    calm_CreateBucketGrants, calm_PatchBucketGrant, calm_DeleteBucketGrant, calm_TransferBucketOwnership.
Qed.

Lemma calm_managementRoutes pattern r : calm (managementRoutes a pattern r).
Proof using.
  apply calm_RequireAuthentication. clear r. intros r.
  destruct (find_route (grantRoutes a) _ _) eqn:Eg; [by eapply calm_found_handler, Eg; apply calm_grantRoutes|].
  destruct (find_route (adminRoutes a) _ _) eqn:Ea; [|apply calm_ret].
  unfold RequireRole. repeat case_match; try apply calm_ret. by eapply calm_found_handler, Ea; apply calm_adminRoutes.
Qed.

Lemma wired_authz : standard_authz (ap_objects a).
Proof using Ha. right. apply (wi_authz _ _ Ha). Qed.

Lemma calm_s3Routes route r : calm (s3Routes a route r).
Proof using Ha.
  unfold s3Routes. destruct (route_handler _ route (rq_method r)) as [handler|] eqn:Eh; [|apply calm_ret].
  assert (Hh : forall r, calm (handler r)) by (intros r'; by eapply calm_route_handler; [apply wired_authz|]).
  assert (Hs : calm (S3Headers (RequireAuthentication (chain a) writeS3AuthError handler) r)).
  { apply calm_bind; [repeat calm_step|intros id]. apply calm_bind; [|intros resp; apply calm_ret].
    by apply calm_RequireAuthentication. }
  destruct route; first [exact Hs|apply Hh].
Qed.

Lemma calm_newRouter route r : calm (newRouter a route r).
Proof using Ha.
  destruct route as [status|path|pattern|route]; cbn [newRouter].
  - apply calm_ret.
  - unfold setupRoutes. destruct (_ && _)%bool; [apply calm_Status|].
    destruct (_ && _)%bool; [apply calm_BootstrapFirstAdmin|apply calm_ret].
  - apply calm_managementRoutes.
  - apply calm_s3Routes.
Qed.

(** Whatever starts in the program begins and ends without a write to evict. *)
Lemma calm_ServeApp event : calm (ServeApp a event).
Proof using Ha.
  destruct event as [route r|ttl]; (apply calm_bind; [|intros ?; apply calm_ret]); [apply calm_newRouter|].
  apply calm_removeStaleUploads, wired_authz.
Qed.

(** ** The server in step with the system *)

(** The server [s], after [n] steps, is a state of the system in which every request goes on. *)
Definition in_step (size : Z) (w : World) (n : nat) (s : Server World (option Response)) : Prop :=
  exists y, rtc sys_step (sys_init size w) y /\ sy_state y = sv_state s /\ sy_evictions y <= n /\
    forall i, match sv_requests s !! i with
              | Some p => tracked p (sy_threads y !! i)
              | None => idle (sy_threads y !! i)
              end.

Lemma goes_on_refl i y : goes_on i y (sy_state y) y.
Proof using. split; [done..|lia]. Qed.

(** Request [i] goes on as [p], or ends; nothing else changes. *)
Lemma in_step_update size w (n : nat) s st mutexes i p y y' :
  rtc sys_step (sys_init size w) y -> goes_on i y st y' -> sy_evictions y' <= n ->
  (forall j, match sv_requests s !! j with
             | Some q => tracked q (sy_threads y !! j)
             | None => idle (sy_threads y !! j)
             end) ->
  match p with Some q => tracked q (sy_threads y' !! i) | None => idle (sy_threads y' !! i) end ->
  in_step size w n (MkServer st mutexes (partial_alter (fun _ => p) i (sv_requests s))).
Proof using.
  intros Hr Hg Hn Ho Hp. exists y'. split; [etrans; [exact Hr|apply Hg]|]. split; [apply Hg|]. split; [done|].
  intros j. cbn [sv_requests]. destruct (decide (j = i)) as [->|Hj]; [by rewrite lookup_partial_alter_eq|].
  rewrite lookup_partial_alter_ne, (go_others _ _ _ _ Hg j Hj) by done. apply Ho.
Qed.

Lemma server_step_in_step size w n s s' :
  (0 < size)%Z -> (Z.of_nat n < 2 ^ 64)%Z -> server_step (ServeApp a) environment s s' ->
  in_step size w n s -> in_step size w (S n) s'.
Proof using Ha.
  intros Hsize Hn Hstep (y & Hr & Es & Hev & Ho).
  assert (Hsame : forall i st mutexes p, st = sv_state s ->
            match p with Some q => tracked q (sy_threads y !! i) | None => idle (sy_threads y !! i) end ->
            in_step size w (S n) (MkServer st mutexes (partial_alter (fun _ => p) i (sv_requests s)))).
  { intros i st mutexes p -> Hp. eapply in_step_update; [exact Hr|rewrite <- Es; apply goes_on_refl|lia|exact Ho|exact Hp]. }
  destruct Hstep as [i req Hi|i B m k r st Hi Hm|i mutex k Hi _|i mutex k Hi|i resp Hi|st He];
    [specialize (Ho i) as Hp; rewrite Hi in Hp..|].
  - apply (Hsame i _ _ (Some _)); [done|]. by apply calm_ServeApp.
  - destruct Hp as [_ Hp]. rewrite <- Es in Hm.
    destruct (Hp y i r st ltac:(eapply reachable_inv; [done|exact Hr|lia]) eq_refl Hm) as (y' & Hg & Ht).
    eapply (in_step_update _ _ _ _ _ _ _ (Some _)); [exact Hr|exact Hg| |exact Ho|exact Ht].
    pose proof (go_evictions _ _ _ _ Hg). lia.
  - apply (Hsame i _ _ (Some _)); [done|]. apply Hp.
  - apply (Hsame i _ _ (Some _)); [done|]. apply Hp.
  - by apply (Hsame i _ _ None).
  - exists (MkSys st (sy_threads y) (sy_evictions y)). destruct He as [clock db_faults os_faults]. rewrite <- Es.
    split; [eapply rtc_r; [exact Hr|by apply step_env]|]. split; [done|]. split; [simpl; lia|exact Ho].
Qed.

Lemma in_step_init size w mutexes : in_step size w 0 (MkServer (with_cache (Some (NewMetadataCache size)) w) mutexes ∅).
Proof using. exists (sys_init size w). split; [done|]. split; [done|]. split; [done|]. intros i. simpl. by rewrite !lookup_empty. Qed.

Lemma server_steps_in_step size w k n s s' :
  (0 < size)%Z -> (Z.of_nat (k + n) < 2 ^ 64)%Z -> nsteps (server_step (ServeApp a) environment) n s s' ->
  in_step size w k s -> in_step size w (k + n) s'.
Proof using Ha.
  intros Hsize Hn Hs. revert k Hn; induction Hs as [s|n s1 s2 s3 Hstep _ IH]; intros k Hn Hk; [by rewrite Nat.add_0_r|].
  rewrite <- Nat.add_succ_comm. apply IH; [by rewrite Nat.add_succ_comm|].
  eapply server_step_in_step; [done| |exact Hstep|exact Hk]. lia.
Qed.
End Router.

(** With a size, newApp makes a cache. *)
Lemma newApp_new_cache cfg store fuel a :
  newApp cfg store fuel = Ok a -> (0 < cf_metadata_cache_size_bytes cfg)%Z ->
  ap_cache a = Some (NewMetadataCache (cf_metadata_cache_size_bytes cfg)).
Proof. unfold newApp. destruct (_ && _)%bool; [done|]. intros [= <-] Hsize%Z.ltb_lt. cbn [ap_cache]. by rewrite Hsize. Qed.

(** A request has written, and its next step is the eviction of the key. *)
Definition eviction_due (k : cacheKey) (requests : gmap nat (prog World (option Response))) : Prop :=
  exists i f P next (A : Type) (m : M Db A), requests !! i = Some (pbind (evict f) next) /\ wrapped m f P /\ P k.

Lemma tracked_committed {A} (p : prog World A) f P :
  tracked p (Some (Committed f P)) -> exists next, p = pbind (evict f) next.
Proof. destruct p; [done| |by intros []..]. intros [Hc _]. by eapply Hc. Qed.

Lemma in_step_coherent size w n s :
  (0 < size)%Z -> (Z.of_nat n < 2 ^ 64)%Z -> in_step size w n s ->
  exists m, w_cache (sv_state s) = Some m /\ sound m /\
    forall k v, cached k m = Some v -> current k (tables (sv_state s)) = Some v \/ eviction_due k (sv_requests s).
Proof.
  intros Hsize Hn (y & Hr & <- & Hev & Ho).
  assert (Hy : sys_inv y) by (eapply reachable_inv; [done|exact Hr|lia]).
  destruct (si_cache y Hy) as (m & Em & Hm & _ & Hc). exists m. split; [done|]. split; [done|]. intros k v Hk.
  destruct (Hc k v Hk) as [_ [?|(i & f & P & Hi & HP)]]; [by left|]. right. specialize (Ho i). rewrite Hi in Ho.
  destruct (sv_requests s !! i) as [p|] eqn:Ep; [|done]. apply tracked_committed in Ho as [next ->].
  destruct (si_threads y Hy i _ Hi) as (A & mw & Hw). by exists i, f, P, next, A, mw.
Qed.

(** C5: the cache never hides a write of the running server. In the server that newApp
    wires, with its cache, whatever requests run on whatever routes, interleaved call by
    call with the cleanup of uploads and with any statement, commit or system call
    failing, for the first 2^64 steps: a row that the cache holds is the row of the
    database, unless some request has written it and its very next step is the eviction
    of that key. So at rest the cache agrees with the database. *)
Theorem app_cache_coherent `{Cwd} `{Rounds} `{Uuid} `{Random} `{XmlDecoder} `{MediaTypes} cfg store fuel a w mutexes n s :
  newApp cfg store fuel = Ok a -> (0 < cf_metadata_cache_size_bytes cfg)%Z ->
  nsteps (server_step (ServeApp a) environment) n (MkServer (with_cache (ap_cache a) w) mutexes ∅) s ->
  (Z.of_nat n < 2 ^ 64)%Z ->
  exists m, w_cache (sv_state s) = Some m /\
    (forall k v, cached k m = Some v -> current k (tables (sv_state s)) = Some v \/ eviction_due k (sv_requests s)) /\
    (sv_requests s = ∅ -> coherent (w_cache (sv_state s)) (tables (sv_state s))).
Proof.
  intros Ha Hsize Hs Hn. rewrite (newApp_new_cache cfg store fuel a Ha Hsize) in Hs.
  destruct (in_step_coherent (cf_metadata_cache_size_bytes cfg) w n s Hsize Hn) as (m & Em & Hm & Hc).
  { apply (server_steps_in_step a store ltac:(by eapply newApp_wired) _ w 0 n _ s Hsize Hn Hs), in_step_init. }
  exists m. split; [done|]. split; [exact Hc|]. intros Hempty. rewrite Em. unfold coherent, cache_holds.
  rewrite enabled_sound by done. split; [done|]. intros k v Hk. destruct (Hc k v Hk) as [?|Hdue]; [done|].
  destruct Hdue as (i & f & P & next & A & mw & Hi & _). by rewrite Hempty, lookup_empty in Hi.
Qed.

(** ** A sample run *)

(** The events of [app_events], with a read of the object before the bucket is deleted. *)
Definition cached_events : list AppEvent :=
  take 2 app_events ++ [AppRequest (S3Route ObjectRoute) (app_request "GET" (<["bucket" := "photos"]> {["*" := "a"]}) [])].

Definition cached_served : option (app * nat * list (option Response) * World) :=
  match newApp sample_config sample_engine 10 with
  | Err _ => None
  | Ok a =>
      let start := with_cache (ap_cache a) sample_world in
      '(resps, w) ← serve_all (ServeApp a) cached_events start;
      Some (a, serve_steps (ServeApp a) cached_events start, resps, w)
  end.

Lemma app_cache_coherent_witness :
  exists a n resps w m, cached_served = Some (a, n, resps, w) /\
    (fun resp => option_map rs_status resp) <$> resps = [Some 200%Z; Some 200%Z; Some 200%Z] /\
    w_cache w = Some m /\ size (mc_entries m) = 2 /\
    coherent (w_cache w) (tables w).
Proof.
  assert (Hc : match cached_served with
               | Some (a, n, resps, w) =>
                   (fun resp => option_map rs_status resp) <$> resps = [Some 200%Z; Some 200%Z; Some 200%Z] /\
                   (fun m => size (mc_entries m)) <$> w_cache w = Some 2 /\ (Z.of_nat n <? 2 ^ 64)%Z = true
               | None => False
               end) by (vm_compute; by split_and!).
  unfold cached_served in *. destruct (newApp sample_config sample_engine 10) as [a|err] eqn:Ea; [|by destruct Hc].
  cbn [mbind option_bind] in *.
  destruct (serve_all (ServeApp a) cached_events (with_cache (ap_cache a) sample_world)) as [[resps w]|] eqn:E; [|by destruct Hc].
  destruct Hc as (H1 & H2 & H3%Z.ltb_lt).
  pose proof (serve_all_nsteps (ServeApp a) environment _ _ _ _ E) as Hs.
  destruct (app_cache_coherent sample_config sample_engine 10 a sample_world ∅ _ _ Ea eq_refl Hs H3) as (m & Em & _ & Hm).
  cbn [sv_state sv_requests] in Em, Hm. rewrite Em in H2. injection H2 as H2.
  exists a, (serve_steps (ServeApp a) cached_events (with_cache (ap_cache a) sample_world)), resps, w, m.
  split; [reflexivity|]. split; [exact H1|]. split; [exact Em|]. split; [exact H2|by apply Hm].
Defined.
