(* ===== verification/ObjectStore.v ===== *)
(** * The object store that clients see

    The handlers of single objects implement a map from buckets and keys to objects with
    their bytes, whatever system calls and statements fail: each request changes the map
    as its response says, or not at all. Completing a multipart upload is such an
    operation too, with the parts that the request names. *)

From S2P Require Import Prelude GoStrings GoUrl GoPath Effects Iam Authz Os Sanitize DiskEngine Schema Db ObjectRepo BucketRepo MultipartRepo GrantRepo ActivityRepo Prog CachedBucketRepo CachedObjectRepo CachedRepo ObjectOps Repositories GoTime S3Http S3Xml Checksum S3Access S3Objects S3Copy S3Multipart S3Complete S3Dispatch Integrity IntegrityOps IntegrityDisk IntegrityAdmin IntegrityHandlers IntegrityApp.

Import ObjectRepository ObjectSpec.

(** ** The map *)

(** The bytes of the file that a row names. *)
Definition object_content `{Cwd} (e : engine) (o : Os) (row : ObjectRow) : option string :=
  match resolveStoragePath e (or_storage_path row) with
  | Ok p => os_files o !! abs_segs p
  | Err _ => None
  end.

Abbreviation ObjectMap := (gmap (string * string) (ObjectRow * option string)).

Definition objects_of `{Cwd} (e : engine) (w : World) : ObjectMap :=
  (fun row => (row, object_content e (w_os w) row)) <$> t_objects (tables w).

(** The bytes of the object in the map, with the headers of its row. *)
Definition sent `{Cwd} (e : engine) (cacheControl disposition b k : string) (w : World) (resp : Response) : Prop :=
  exists row body, objects_of e w !! (b, k) = Some (row, Some body) /\
    resp = MkResponse 200 (setObjectHeaders (scanObject b k row) cacheControl disposition)
             (Content k (or_updated_at row) (Some body)).

Section Store.
Context `{Cwd} `{UL : UuidLaws} `{RD : Rounds} (h : ObjectHandlers).
Context (We : wf_engine (h_storage h)).
Context (Hauthz : standard_authz h).

Abbreviation e := (h_storage h).

Lemma object_content_path b n row o :
  normal_seg b -> or_storage_path row = object_path b n -> object_content e o row = os_files o !! object_file e b n.
Proof. intros Hb Hp. unfold object_content. rewrite Hp, (resolve_object e We) by done. by rewrite abs_segs_object. Qed.

(** ** Steps that the map does not notice *)

(** Not a file of an object that was there when [n] files had been named. *)
Definition new_file (n : nat) (p : path) : Prop := forall b m, bucket_dir b -> m < n -> p <> object_file e b m.

Definition frame (n : nat) (w w' : World) : Prop :=
  t_objects (tables w') = t_objects (tables w) /\ files_frame (new_file n) (w_os w) (w_os w').

Lemma frame_refl n w : frame n w w.
Proof. by split; [|apply files_frame_refl]. Qed.

Lemma frame_trans n w1 w2 w3 : frame n w1 w2 -> frame n w2 w3 -> frame n w1 w3.
Proof. intros [E1 F1] [E2 F2]. split; [by rewrite E2|by eapply files_frame_trans]. Qed.

(** Every object has a file of its own, one of the first [n]. *)
Record files_below (n : nat) (w : World) : Prop := {
  fb_file b k row : t_objects (tables w) !! (b, k) = Some row ->
    exists m, m < n /\ or_storage_path row = object_path b m /\ bucket_dir b;
  fb_distinct b k b' k' row row' m : t_objects (tables w) !! (b, k) = Some row -> t_objects (tables w) !! (b', k') = Some row' ->
    or_storage_path row = object_path b m -> or_storage_path row' = object_path b' m -> (b, k) = (b', k');
}.

Lemma integral_files_below w : integral e w -> files_below (os_uuids (w_os w)) w.
Proof.
  intros Hi.
  assert (Hb : forall b k row, t_objects (tables w) !! (b, k) = Some row -> bucket_dir b).
  { intros b k row Hrow. apply (it_bucket _ _ Hi). exact (wt_object_bucket _ (proj1 (it_schema _ _ Hi)) (b, k) row b Hrow eq_refl). }
  split.
  - intros b k row Hrow. destruct (it_object _ _ Hi _ _ _ Hrow) as (m & Hm & Hp & _). exists m. split_and!; [done|done|by eapply Hb].
  - intros b k b' k' row row' m Hr Hr' Hp Hp'.
    assert (E : RObject b k = RObject b' k') by (apply (it_distinct _ _ Hi m); [by exists row|by exists row']).
    by injection E as -> ->.
Qed.

Lemma frame_files_below n w w' : frame n w w' -> files_below n w -> files_below n w'.
Proof. intros [E _] [H1 H2]. split; rewrite E; done. Qed.

Lemma frame_objects n w w' : files_below n w -> frame n w w' -> objects_of e w' = objects_of e w.
Proof.
  intros Hb [E [Hf _]]. unfold objects_of. rewrite E. apply map_fmap_ext. intros [b k] row Hrow.
  destruct (fb_file _ _ Hb _ _ _ Hrow) as (m & Hm & Hp & Hd). f_equal.
  rewrite !(object_content_path b m) by (done || by destruct Hd). apply Hf. intros Hnew. by apply (Hnew b m).
Qed.

(** A computation that leaves the objects and the disk alone. *)
Lemma frame_inert n w w' : t_objects (tables w') = t_objects (tables w) -> w_os w' = w_os w -> frame n w w'.
Proof. intros E Eo. split; [done|]. rewrite Eo. apply files_frame_refl. Qed.

(** ** The checks *)

Definition same_world (w w' : World) : Prop := tables w' = tables w /\ w_os w' = w_os w.

Lemma read_same w w' : read_only w w' -> same_world w w'.
Proof. by intros []. Qed.

Lemma same_frame n w w' : same_world w w' -> frame n w w'.
Proof. intros [E Eo]. apply frame_inert; [by rewrite E|done]. Qed.

Lemma read_frame n w w' : read_only w w' -> frame n w w'.
Proof. intros Hr. by apply same_frame, read_same. Qed.

(** A check before the work. *)
Lemma pwp_respond {A} (p : prog World (Response + A)) (k : A -> prog World Response) (Q : Response -> World -> Prop) w :
  pwp p (fun res w' => match res with inl resp => Q resp w' | inr a => pwp (k a) Q w' end) w -> pwp (respond p k) Q w.
Proof. intros Hp. apply pwp_bind. eapply pwp_mono; [exact Hp|]. cbv beta. intros [resp|a] w' HQ; [by apply pwp_ret|done]. Qed.

(** ** Writing *)

Lemma written_new n b m p : bucket_dir b -> n <= m -> written_files e b m p -> new_file n p.
Proof.
  intros Hb Hn [->| ->] b' m' Hb' Hm'.
  - intros [_ E]%object_file_inj. lia.
  - intros E. symmetry in E. by apply (object_not_temp e) in E.
Qed.

(** What a writer has done, in the world. *)
Definition new_object_file (n : nat) (b content : string) (w : World) (r : result (string * Z)) (w' : World) : Prop :=
  w_db w' = w_db w /\ frame n w w' /\
  match r with
  | Ok (path, size) =>
      let m := os_uuids (w_os w) in
      path = object_path b m /\ os_files (w_os w') !! object_file e b m = Some content /\ size = string_len content
  | Err _ => True
  end.

Lemma stored_new n b content G w o r o' :
  bucket_dir b -> n <= os_uuids (w_os w) -> os_files o = os_files (w_os w) -> os_uuids o = os_uuids (w_os w) ->
  stored e b o content G r o' -> new_object_file n b content w r (MkWorld (w_db w) o' (w_cache w)) /\ (is_ok r = true -> G).
Proof.
  intros Hb Hn Ef Eu [Hf Hr]. split.
  - split; [done|]. split.
    + split; [done|]. apply (files_frame_trans _ _ o); [apply files_frame_eq; [done|lia]|].
      eapply files_frame_weaken; [exact Hf|]. intros p. rewrite Eu. by apply written_new.
    + destruct r as [[path size]|]; [|done]. destruct Hr as (-> & _ & Hfiles & -> & _). rewrite Eu in *. cbn.
      by rewrite Hfiles, lookup_insert_eq.
  - destruct r as [[path size]|]; [|done]. by destruct Hr as (_ & _ & _ & _ & HG).
Qed.

Lemma wp_write n b key rd w :
  bucket_dir b -> n <= os_uuids (w_os w) ->
  wp (os (Write e b key rd)) (new_object_file n b (reader_content rd) w) w.
Proof.
  intros Hb Hn. apply wp_os. eapply wp_mono; [by apply wp_Write|]. cbv beta. intros r o Hs. by eapply stored_new in Hs as [Hs _].
Qed.

(** Only this file may be gone. *)
Definition only_file_gone (b : string) (m : nat) (w w' : World) : Prop :=
  w_db w' = w_db w /\ files_frame (fun p => p = object_file e b m) (w_os w) (w_os w').

Lemma wp_delete b m w :
  normal_seg b -> wp (os (DiskEngine.Delete e (object_path b m))) (fun _ w' => only_file_gone b m w w') w.
Proof.
  intros Hb. apply wp_os. eapply wp_mono; [by apply (Delete_spec e We)|]. cbv beta. by intros r o (_ & Hf & _).
Qed.

Lemma pwp_deleteStoredFile b m w :
  normal_seg b -> pwp (deleteStoredFile h (object_path b m)) (fun _ w' => only_file_gone b m w w') w.
Proof.
  intros Hb. unfold deleteStoredFile. apply pwp_call_bind. eapply wp_mono; [by apply wp_delete|]. cbv beta.
  intros r w' Hg. by apply pwp_ret.
Qed.

Lemma gone_frame n b m w w' : bucket_dir b -> n <= m -> only_file_gone b m w w' -> frame n w w'.
Proof.
  intros Hb Hn [Ed Hf]. split; [by rewrite Ed|]. eapply files_frame_weaken; [exact Hf|].
  intros p ->. by apply (written_new n b m); [..|left].
Qed.

(** The activity log and fresh names touch neither objects nor files. *)
Definition only_log (w w' : World) : Prop :=
  t_objects (tables w') = t_objects (tables w) /\ files_frame (fun _ => False) (w_os w) (w_os w').

Lemma only_log_trans w1 w2 w3 : only_log w1 w2 -> only_log w2 w3 -> only_log w1 w3.
Proof. intros [E1 F1] [E2 F2]. split; [by rewrite E2|by eapply files_frame_trans]. Qed.

Lemma log_frame n w w' : only_log w w' -> frame n w w'.
Proof. intros [E Hf]. split; [done|]. by eapply files_frame_weaken. Qed.

Lemma log_objects w w' : only_log w w' -> objects_of e w' = objects_of e w.
Proof.
  intros [E [Hf _]]. unfold objects_of. rewrite E. apply map_fmap_ext. intros x row _. unfold object_content.
  destruct (resolveStoragePath e (or_storage_path row)); [|done]. f_equal. apply Hf. tauto.
Qed.

Lemma pwp_newID w : pwp newID (fun _ w' => only_log w w' /\ w_db w' = w_db w) w.
Proof.
  unfold newID. apply (pwp_call_bind (os new_uuid)), wp_os, wp_new_uuid, pwp_ret. split; [|done]. split; [done|].
  by apply files_frame_eq; [|cbn; lia].
Qed.

Lemma pwp_now w : pwp now (fun now_ w' => now_ = db_clock (w_db w) /\ w' = w) w.
Proof. by destruct w. Qed.

Definition has_objects (objects : gmap (string * string) ObjectRow) (t : Tables) : Prop := t_objects t = objects.

Lemma insert_activity_objects objects id row : stmt_keeps (has_objects objects) (insert_activity id row).
Proof. intros t Ht. unfold insert_activity. by case_bool_decide. Qed.
#[local] Hint Resolve insert_activity_objects : fbs.

Lemma RecordActivity_objects objects enabled principal event : db_keeps (has_objects objects) (RecordActivity enabled principal event).
Proof.
  unfold RecordActivity. destruct (negb enabled); [apply keeps_ret|]. cbv zeta. unfold ActivityRepository.Create. db_keeps_steps.
Qed.

Lemma pwp_recordActivity r action b k size etag w :
  pwp (recordActivity h r action b k size etag) (fun _ w' => only_log w w') w.
Proof.
  unfold recordActivity. apply pwp_bind. eapply pwp_mono; [apply pwp_newID|]. cbv beta. intros id w1 [H1 _].
  apply pwp_bind. eapply pwp_mono; [apply pwp_now|]. cbv beta. intros created w2 [_ ->].
  apply pwp_call_bind, wp_db. eapply wp_mono; [by apply (RecordActivity_objects (t_objects (tables w1)))|].
  cbv beta. intros res d E. apply pwp_ret. eapply only_log_trans; [exact H1|]. split; [done|]. apply files_frame_refl.
Qed.

(** ** Publishing a file as an object *)

(** What [PutObject] and [CopyObject] do with the file that they have written. *)
Definition publish (r : Request) (action : string) (obj : Object) (refuse : error -> Response) (resp : Response) : prog World Response :=
  replaced <~ CachedObjectRepository.Replace obj (header_get (rq_header r) "If-Match") (header_get (rq_header r) "If-None-Match") ;;
  match replaced with
  | Err err => deleteStoredFile h (o_storage_path obj) ~;; Ret (refuse err)
  | Ok replacedPath =>
      recordActivity h r action (o_bucket_name obj) (o_key obj) (o_size obj) (o_etag obj) ~;;
      (if negb (String.eqb replacedPath "") && negb (String.eqb replacedPath (o_storage_path obj))
       then deleteStoredFile h replacedPath else Ret tt) ~;;
      Ret resp
  end.

(** The object has been stored with these bytes, as the preconditions allow, and nothing
    else has changed. *)
Definition put (r : Request) (obj : Object) (body : string) (w w' : World) : Prop :=
  let at_ := (o_bucket_name obj, o_key obj) in
  preconditions_hold (t_objects (tables w) !! at_) (header_get (rq_header r) "If-Match") (header_get (rq_header r) "If-None-Match") /\
  objects_of e w' = <[at_ := (object_row (stored_object obj (db_clock (w_db w))), Some body)]> (objects_of e w).

(** Not the file of an object; the file of the object that is replaced. *)
Definition no_object_file (p : path) : Prop := forall b m, bucket_dir b -> p <> object_file e b m.
Definition replaced_file (b k : string) (w : World) (p : path) : Prop :=
  exists old j, t_objects (tables w) !! (b, k) = Some old /\ or_storage_path old = object_path b j /\ p = object_file e b j.

(** The old file, which no row names any more, may be removed. *)
Lemma put_objects n m obj body w w1 w' :
  files_below n w -> n <= m -> bucket_dir (o_bucket_name obj) -> o_storage_path obj = object_path (o_bucket_name obj) m ->
  os_files (w_os w) !! object_file e (o_bucket_name obj) m = Some body ->
  t_objects (tables w1) = <[(o_bucket_name obj, o_key obj) := object_row (stored_object obj (db_clock (w_db w)))]> (t_objects (tables w)) ->
  t_objects (tables w') = t_objects (tables w1) ->
  files_frame (fun p => replaced_file (o_bucket_name obj) (o_key obj) w p \/ no_object_file p) (w_os w) (w_os w') ->
  objects_of e w' = <[(o_bucket_name obj, o_key obj) := (object_row (stored_object obj (db_clock (w_db w))), Some body)]> (objects_of e w).
Proof.
  intros Hb Hn Hdir Hpath Hfile E1 E' [Hf _]. unfold objects_of. rewrite E', E1, fmap_insert.
  set (row := object_row _). set (b := o_bucket_name obj) in *. set (k := o_key obj) in *.
  assert (Hnew : object_content e (w_os w') row = Some body).
  { rewrite (object_content_path b m) by (done || by destruct Hdir). rewrite Hf; [done|].
    intros [(old & j & Hold & Hj & [_ Ej]%object_file_inj)|Hno]; [|by apply (Hno b m)]. destruct (fb_file _ _ Hb _ _ _ Hold) as (j' & Hlt & Hj' & _).
    rewrite Hj in Hj'. apply object_path_inj in Hj' as ->; [lia|by destruct Hdir..]. }
  rewrite Hnew. apply map_eq. intros [b' k']. destruct (decide ((b', k') = (b, k))) as [[= -> ->]|Hne]; [by rewrite !lookup_insert_eq|].
  rewrite !lookup_insert_ne, !lookup_fmap by congruence. destruct (t_objects (tables w) !! (b', k')) as [row'|] eqn:Hrow'; [|done].
  cbn. do 2 f_equal. destruct (fb_file _ _ Hb _ _ _ Hrow') as (m' & Hm' & Hp' & Hd').
  rewrite !(object_content_path b' m') by (done || by destruct Hd'). apply Hf.
  intros [(old & j & Hold & Hj & [-> ->]%object_file_inj)|Hno]; [|by apply (Hno b' m')]. apply Hne. by eapply (fb_distinct _ _ Hb).
Qed.

Lemma pwp_publish n m r action obj body refuse resp w :
  files_below n w -> n <= m -> bucket_dir (o_bucket_name obj) -> o_storage_path obj = object_path (o_bucket_name obj) m ->
  os_files (w_os w) !! object_file e (o_bucket_name obj) m = Some body ->
  pwp (publish r action obj refuse resp) (fun out w' =>
    (out = resp /\ put r obj body w w') \/ (exists err, out = refuse err /\ objects_of e w' = objects_of e w)) w.
Proof.
  intros Hb Hn Hdir Hpath Hfile. unfold publish. apply pwp_bind, pwp_then_evict. eapply wp_mono; [apply wp_Replace|]. cbv beta.
  unfold replace_result. intros [old|err] d Hr.
  - destruct Hr as (Hpre & Hold & Ht). apply pwp_bind. eapply pwp_mono; [apply pwp_recordActivity|]. cbv beta. intros _ w1 [E1 F1].
    assert (Etab : t_objects (tables w1) = <[(o_bucket_name obj, o_key obj) := object_row (stored_object obj (db_clock (w_db w)))]>
                     (t_objects (tables w))).
    { transitivity (t_objects (db_tables d)); [exact E1|]. by rewrite Ht. }
    cbn [w_os] in F1. apply pwp_bind.
    assert (Hend : forall w', t_objects (tables w') = t_objects (tables w1) ->
              files_frame (replaced_file (o_bucket_name obj) (o_key obj) w) (w_os w1) (w_os w') ->
              put r obj body w w').
    { intros w' E' F'. split; [exact Hpre|]. eapply put_objects; try done.
      eapply files_frame_trans; [|eapply files_frame_weaken; [exact F'|by left]]. by eapply files_frame_weaken. }
    destruct (negb (String.eqb old "") && negb (String.eqb old (o_storage_path obj))) eqn:Edel.
    + destruct (t_objects (tables w) !! (o_bucket_name obj, o_key obj)) as [row|] eqn:Erow.
      2: { by subst old. }
      subst old.
      destruct (fb_file _ _ Hb _ _ _ Erow) as (j & _ & Hj & _). rewrite Hj.
      eapply pwp_mono; [apply pwp_deleteStoredFile; by destruct Hdir|]. cbv beta. intros _ w' [Ed Hf]. apply pwp_ret. left. split; [done|].
      apply Hend; [by rewrite Ed|]. eapply files_frame_weaken; [exact Hf|]. intros p ->. by exists row, j.
    + apply pwp_ret, pwp_ret. left. split; [done|]. apply Hend; [done|]. apply files_frame_refl.
  - apply pwp_bind. rewrite Hpath. eapply pwp_mono; [apply pwp_deleteStoredFile; by destruct Hdir|]. cbv beta. intros _ w' Hg.
    apply pwp_ret. right. exists err. split; [done|]. apply (frame_objects n); [done|].
    eapply frame_trans; [|by eapply gone_frame]. apply frame_inert; [cbn; by rewrite Hr|done].
Qed.

(** ** [PutObject] *)

Lemma put_status_refused r err : rs_status (writeObjectReplaceError r err) <> 200%Z /\ rs_status (writeStorageMutationError r err) <> 200%Z.
Proof. by destruct err. Qed.

(** The row of a new object. *)
Definition new_row (row : ObjectRow) (body etag contentType : string) : Prop :=
  or_size row = string_len body /\ or_etag row = etag /\ or_content_type row = contentType.

(** The object is stored, or nothing has changed. *)
Definition puts (b k : string) (r : Request) (body etag contentType : string) (w : World) (resp : Response) (w' : World) : Prop :=
  if decide (rs_status resp = 200%Z)
  then exists row, new_row row body etag contentType /\ objects_of e w' = <[(b, k) := (row, Some body)]> (objects_of e w) /\
         preconditions_hold (t_objects (tables w) !! (b, k)) (header_get (rq_header r) "If-Match") (header_get (rq_header r) "If-None-Match")
  else objects_of e w' = objects_of e w.

Lemma puts_refused b k r body etag contentType w resp w' :
  rs_status resp <> 200%Z -> objects_of e w' = objects_of e w -> puts b k r body etag contentType w resp w'.
Proof. intros Hs He. unfold puts. by rewrite decide_False. Qed.

Lemma PutObject_puts r w :
  integral e w -> quiet_cache w ->
  let '(b, k) := objectRouteParams r in
  pwp (PutObject h r) (puts b k r (reader_content (rq_body r)) (ETag (reader_content (rq_body r))) (requestContentType r) w) w.
Proof.
  intros Hi Hq. assert (Hb := integral_files_below w Hi). unfold PutObject. destruct (objectRouteParams r) as [b k].
  destruct (String.eqb k ""); [by apply pwp_ret, puts_refused|]. unfold respond. apply pwp_bind.
  eapply pwp_mono; [by apply (pwp_ensure h Hauthz)|]. cbv beta. intros [resp|[]] w1 [[E1 O1]%read_same H1].
  { destruct H1. apply pwp_ret, puts_refused; [lia|]. apply (frame_objects (os_uuids (w_os w))); [done|]. apply frame_inert; [by rewrite E1|done]. }
  assert (F1 : frame (os_uuids (w_os w)) w w1) by (apply frame_inert; [by rewrite E1|done]).
  apply (it_bucket _ _ Hi) in H1. rewrite <- O1 in *. set (n := os_uuids (w_os w1)) in *.
  assert (Hsame : forall w', frame n w w' -> objects_of e w' = objects_of e w) by (intros w'; by apply frame_objects).
  destruct (newChecksumPipeline r) as [pipeline|err].
  2: { apply pwp_ret, puts_refused; [unfold writePipelineError; by case_bool_decide|by apply Hsame]. }
  apply pwp_call_bind. eapply wp_mono; [by apply (wp_write n)|]. cbv beta.
  intros [[path size]|err] w2 (D2 & F2 & Hw).
  2: { apply pwp_ret, puts_refused; [apply put_status_refused|]. apply Hsame. by eapply frame_trans. }
  destruct Hw as (-> & Hfile & ->). fold n in Hfile. destruct (Validate pipeline _) as [[]|err].
  2: { apply pwp_call_bind. eapply wp_mono; [apply (wp_delete b n); by destruct H1|]. cbv beta. intros _ w3 H3.
       apply pwp_ret, puts_refused; [done|]. apply Hsame. eapply frame_trans; [by eapply frame_trans|]. by eapply gone_frame. }
  apply pwp_bind. eapply pwp_mono; [apply pwp_now|]. cbv beta. intros now_ w3 [_ ->]. cbv zeta. apply pwp_bind.
  eapply pwp_mono; [apply pwp_newID|]. cbv beta. intros id w4 [L4 D4].
  assert (F4 : frame n w w4) by (eapply frame_trans; [by eapply frame_trans|]; by apply log_frame).
  match goal with |- context [CachedObjectRepository.Replace ?o _ _] => set (obj := o) end.
  set (resp := Reply 200 _).
  change (pwp (publish r ActivityPutObject obj (writeObjectReplaceError r) resp)
            (puts b k r (reader_content (rq_body r)) (ETag (reader_content (rq_body r))) (requestContentType r) w) w4).
  eapply pwp_mono; [apply (pwp_publish n n r ActivityPutObject obj (reader_content (rq_body r)))|].
  - by eapply frame_files_below.
  - lia.
  - exact H1.
  - done.
  - destruct L4 as [_ [L4 _]]. rewrite L4 by tauto. exact Hfile.
  - cbv beta. intros out w5 [[-> [Hpre Hobj]]|(err & -> & Hobj)].
    + unfold puts. rewrite decide_True by done. rewrite (Hsame w4 F4) in Hobj. destruct F4 as [E4 _]. rewrite E4 in Hpre.
      eexists. split; [|split; [exact Hobj|exact Hpre]]. done.
    + apply puts_refused; [apply put_status_refused|]. rewrite Hobj. by apply Hsame.
Qed.

(** ** [CopyObject] *)

Lemma pwp_get_object b k w :
  quiet_cache w ->
  pwp (CachedObjectRepository.GetByKey b k) (fun res w' => read_only w w' /\
    match res with
    | Ok obj => exists row, t_objects (tables w) !! (b, k) = Some row /\ obj = scanObject b k row
    | Err ErrObjectNotFound => t_objects (tables w) !! (b, k) = None
    | Err _ => True
    end) w.
Proof.
  intros Hq. eapply pwp_mono; [by apply (pwp_GetByKey rounds)|]. cbv beta. intros res w' [Hr Ha]. split; [done|].
  unfold answers, object_answer in Ha. destruct Ha as [->|[_ ->]]; [|done].
  destruct (t_objects (tables w) !! (b, k)) as [row|]; [by exists row|done].
Qed.

(** An open file: its bytes are those that the map shows. *)
Lemma wp_open n b k row w :
  files_below n w -> t_objects (tables w) !! (b, k) = Some row ->
  wp (os (Open e (or_storage_path row))) (fun res w' => w_db w' = w_db w /\ files_frame (fun _ => False) (w_os w) (w_os w') /\
    match res with Ok (Some c) => objects_of e w !! (b, k) = Some (row, Some c) | _ => True end) w.
Proof.
  intros Hb Hrow. destruct (fb_file _ _ Hb _ _ _ Hrow) as (m & _ & Hp & Hd). rewrite Hp. apply wp_os.
  eapply wp_mono; [apply (Open_spec e We); by destruct Hd|]. cbv beta. intros res o [[fs ->] Hres]. split; [done|].
  split; [by apply files_frame_eq|]. destruct res as [[c|]|]; try done. unfold objects_of. rewrite lookup_fmap, Hrow. cbn.
  rewrite (object_content_path b m) by (done || by destruct Hd). by rewrite Hres.
Qed.

Lemma wp_file_bytes file o :
  wp (file_reader file) (fun res o' => exists src fs, res = Ok src /\ o' = set_faults fs o /\
    match file with Some c => reader_error src = None -> reader_content src = c | None => reader_error src <> None end) o.
Proof.
  unfold file_reader. apply wp_bind, wp_pop_fault. intros f fs. destruct file as [c|].
  - destruct f as [i|]; apply wp_ret; eexists _, fs; (split; [done|]); (split; [done|]).
    + by rewrite (take_error_reader i _ _ (chunks_no_err _ _ _)).
    + intros _. by apply chunks_content.
  - apply wp_ret. eexists _, fs. split; [done|]. by split.
Qed.

Lemma wp_copy_file n b key file w :
  bucket_dir b -> n <= os_uuids (w_os w) ->
  wp (os (src <- file_reader file ;; Write e b key src)) (fun r w' => w_db w' = w_db w /\ frame n w w' /\
    (is_ok r = true -> exists c, file = Some c /\ new_object_file n b c w r w')) w.
Proof.
  intros Hb Hn. apply wp_os, wp_bind. eapply wp_mono; [apply wp_file_bytes|]. cbv beta. intros res o (src & fs & -> & -> & Hsrc).
  eapply wp_mono; [by apply wp_Write|]. cbv beta. intros r o' Hs. eapply (stored_new n b _ _ w) in Hs as [Hs He]; [|done..].
  split; [done|]. split; [by destruct Hs as (_ & ? & _)|]. intros Hr. specialize (He Hr). destruct file as [c|]; [|done].
  exists c. split; [done|]. by rewrite <- (Hsrc He).
Qed.

(** The destination becomes a copy of the source, or nothing has changed. *)
Definition copies (b k : string) (r : Request) (w : World) (resp : Response) (w' : World) : Prop :=
  if decide (rs_status resp = 200%Z)
  then exists source row body contentType,
         parseCopySource (header_get (rq_header r) "x-amz-copy-source") = Ok source /\
         objects_of e w !! (cs_bucket_name source, cs_key source) = Some (row, Some body) /\
         copyObjectContentType r (or_content_type row) = Some contentType /\
         puts b k r body (or_etag row) contentType w resp w'
  else objects_of e w' = objects_of e w.

Lemma copies_refused b k r w resp w' :
  rs_status resp <> 200%Z -> objects_of e w' = objects_of e w -> copies b k r w resp w'.
Proof. intros Hs He. unfold copies. by rewrite decide_False. Qed.

(** The end of [CopyObject], when the source is open. *)
Definition copy_tail (b k : string) (r : Request) (file : option string) (obj : string -> Z -> string -> time -> Object)
    (answer : Object -> time -> Response) : prog World Response :=
  written <~ call (os (src <- file_reader file ;; Write e b k src)) ;;
  match written with
  | Err err => Ret (writeStorageMutationError r err)
  | Ok (storagePath, size) =>
      now_ <~ now ;;
      id <~ newID ;;
      publish r ActivityCopyObject (obj storagePath size id now_) (writeObjectReplaceError r) (answer (obj storagePath size id now_) now_)
  end.

Lemma pwp_copy_tail n b k r file obj etag contentType answer w0 w :
  (forall path size id t, o_bucket_name (obj path size id t) = b /\ o_key (obj path size id t) = k /\
     o_storage_path (obj path size id t) = path /\ o_size (obj path size id t) = size /\ o_etag (obj path size id t) = etag /\
     o_content_type (obj path size id t) = contentType) ->
  (forall o t, rs_status (answer o t) = 200%Z) ->
  files_below n w0 -> bucket_dir b -> frame n w0 w -> n <= os_uuids (w_os w) ->
  pwp (copy_tail b k r file obj answer) (fun resp w' => (rs_status resp <> 200%Z /\ objects_of e w' = objects_of e w0) \/
              exists c, file = Some c /\ rs_status resp = 200%Z /\ puts b k r c etag contentType w0 resp w') w.
Proof.
  intros Hobj Hdone Hb Hd F0 Hn. assert (Hsame : forall w', frame n w0 w' -> objects_of e w' = objects_of e w0) by (intros w'; by apply frame_objects).
  unfold copy_tail. apply pwp_call_bind. eapply wp_mono; [by apply (wp_copy_file n)|]. cbv beta. intros [[path size]|err] w2 (D2 & F2 & Hw).
  2: { apply pwp_ret. left. split; [apply put_status_refused|]. apply Hsame. by eapply frame_trans. }
  destruct (Hw eq_refl) as (c & -> & _ & _ & -> & Hfile & ->). set (m := os_uuids (w_os w)) in *.
  apply pwp_bind. eapply pwp_mono; [apply pwp_now|]. cbv beta. intros now_ w3 [_ ->]. apply pwp_bind.
  eapply pwp_mono; [apply pwp_newID|]. cbv beta. intros id w4 [L4 D4].
  assert (F4 : frame n w0 w4) by (eapply frame_trans; [by eapply frame_trans|]; by apply log_frame).
  set (o := obj _ _ id now_). destruct (Hobj (object_path b m) (string_len c) id now_) as (Eb & Ek & Ep & Es & Ee & Ec). fold o in Eb, Ek, Ep, Es, Ee, Ec.
  eapply pwp_mono; [apply (pwp_publish n m r ActivityCopyObject o c)|].
  - by eapply frame_files_below.
  - exact Hn.
  - by rewrite Eb.
  - by rewrite Eb.
  - rewrite Eb. destruct L4 as [_ [L4 _]]. rewrite L4 by tauto. exact Hfile.
  - cbv beta. intros out w5 [[-> [Hpre Hput]]|(err & -> & Hput)].
    + right. exists c. split; [done|]. split; [apply Hdone|]. unfold puts. rewrite decide_True by apply Hdone.
      rewrite (Hsame w4 F4), Eb, Ek in Hput. destruct F4 as [E4 _]. rewrite E4, Eb, Ek in Hpre.
      eexists. split; [|split; [exact Hput|exact Hpre]]. by split_and!.
    + left. split; [apply put_status_refused|]. rewrite Hput. by apply Hsame.
Qed.

(** The work of [CopyObject], after its checks. *)
Definition copy_source (r : Request) (b k : string) (source : copySource) : prog World Response :=
  sourceObject <~ CachedObjectRepository.GetByKey (cs_bucket_name source) (cs_key source) ;;
  match sourceObject with
  | Err ErrObjectNotFound => Ret (NoSuchKey r)
  | Err _ => Ret (InternalError r)
  | Ok sourceObject =>
      sourceFile <~ call (os (Open e (o_storage_path sourceObject))) ;;
      match sourceFile with
      | Err err => Ret (mapAuthenticatedStorageReadError r err)
      | Ok sourceFile =>
          match copyObjectContentType r (o_content_type sourceObject) with
          | None => Ret (InvalidRequest r)
          | Some contentType =>
              copy_tail b k r sourceFile (fun path size id t =>
                MkObject id b k size (o_etag sourceObject) contentType path t t false 0 "" "" "" "" ""
                  (if String.eqb (metadataDirective r) "REPLACE" then parseMetadataHeaders r else o_user_metadata sourceObject))
                (fun obj t => ReplyXml_with (header_set "ETag" (quoteETag (o_etag obj)) ∅) (CopyObjectResult (format_millis t) (quoteETag (o_etag obj))))
          end
      end
  end.

Lemma pwp_copy_source n b k r source w0 w :
  files_below n w0 -> bucket_dir b -> frame n w0 w -> n <= os_uuids (w_os w) -> quiet_cache w ->
  parseCopySource (header_get (rq_header r) "x-amz-copy-source") = Ok source ->
  pwp (copy_source r b k source) (copies b k r w0) w.
Proof.
  intros Hb Hd F0 Hn Hq Eparse. unfold copy_source.
  assert (Hsame : forall w', frame n w0 w' -> objects_of e w' = objects_of e w0) by (intros w'; by apply frame_objects).
  apply pwp_bind. eapply pwp_mono; [by apply pwp_get_object|]. cbv beta. intros res w3 [S3%read_same H3].
  assert (F3 : frame n w0 w3) by (eapply frame_trans; [done|by apply same_frame]).
  destruct res as [source_obj|err]; [|destruct err; by apply pwp_ret, copies_refused; [|apply Hsame]].
  destruct H3 as (row & Hrow & ->). apply pwp_call_bind.
  change (o_storage_path (scanObject (cs_bucket_name source) (cs_key source) row)) with (or_storage_path row).
  eapply wp_mono; [apply (wp_open n (cs_bucket_name source) (cs_key source) row w3); [by eapply frame_files_below|by destruct S3 as [-> _]]|].
  cbv beta. intros res w4 (D4 & Q4 & H4).
  assert (F4 : frame n w0 w4).
  { eapply frame_trans; [exact F3|]. split; [by rewrite D4|]. by eapply files_frame_weaken. }
  destruct res as [file|err]; [|apply pwp_ret, copies_refused; [done|by apply Hsame]].
  change (o_content_type (scanObject (cs_bucket_name source) (cs_key source) row)) with (or_content_type row).
  destruct (copyObjectContentType r (or_content_type row)) as [contentType|] eqn:Ect; [|apply pwp_ret, copies_refused; [done|by apply Hsame]].
  eapply pwp_mono; [apply (pwp_copy_tail n b k r file _ (or_etag row) contentType _ w0 w4); try done|].
  { destruct S3 as [_ S3], Q4 as [_ Hu]. rewrite S3 in Hu. lia. }
  cbv beta. intros resp w5 [[Hs Hsm]|(c & -> & Hs & Hput)]; [by apply copies_refused|].
  unfold copies. rewrite decide_True by done. exists source, row, c, contentType. split; [done|]. split; [|done].
  by rewrite <- (Hsame w3 F3).
Qed.

Lemma CopyObject_copies r w :
  integral e w -> quiet_cache w -> let '(b, k) := objectRouteParams r in pwp (CopyObject h r) (copies b k r w) w.
Proof.
  intros Hi Hq. assert (Hb := integral_files_below w Hi). unfold CopyObject. destruct (objectRouteParams r) as [b k].
  destruct (String.eqb k ""); [by apply pwp_ret, copies_refused|].
  unfold requireSignedHeader. destruct (requestHasSignedHeader r "x-amz-copy-source"); [|by apply pwp_ret, copies_refused].
  cbn [respond pbind]. assert (Hmeta : forall (p : prog World (Response + unit)) (next : prog World Response),
    (p = Ret (inr tt) \/ p = Ret (inl (AccessDenied r))) -> pwp next (copies b k r w) w -> pwp (respond p (fun _ => next)) (copies b k r w) w).
  { intros p next [->| ->] Hnext; [exact Hnext|by apply pwp_ret, copies_refused]. }
  apply Hmeta; [destruct (String.eqb _ ""); [by left|]; destruct (requestHasSignedHeader _ _); [by left|by right]|]. clear Hmeta.
  destruct (parseCopySource _) as [source|] eqn:Eparse; [|by apply pwp_ret, copies_refused].
  destruct (negb (String.eqb (cs_version_id source) "")); [by apply pwp_ret, copies_refused|].
  set (n := os_uuids (w_os w)) in *.
  assert (Hsame : forall w', frame n w w' -> objects_of e w' = objects_of e w) by (intros w'; by apply frame_objects).
  apply pwp_respond. eapply pwp_mono; [by apply (pwp_ensure h Hauthz)|]. cbv beta. intros res w1 [S1 H1].
  destruct res as [resp|_]; [destruct H1; by apply copies_refused; [lia|apply Hsame, read_frame]|].
  apply pwp_respond. eapply pwp_mono; [apply (pwp_ensure h Hauthz), S1|]. cbv beta. intros res w2 [S2 H2].
  assert (F2 : frame n w w2) by (eapply frame_trans; by apply read_frame).
  destruct res as [resp|_]; [destruct H2; by apply copies_refused; [lia|apply Hsame]|].
  assert (Hd : bucket_dir b) by (apply (it_bucket _ _ Hi); by rewrite <- (ro_tables _ _ S1)).
  change (pwp (copy_source r b k source) (copies b k r w) w2). apply (pwp_copy_source n); try done.
  - by rewrite (ro_os _ _ S2), (ro_os _ _ S1).
  - apply S2.
Qed.

(** ** [DeleteObject] *)

(** The file of the object that was there has gone. *)
Definition file_gone (b k : string) (w w' : World) : Prop :=
  forall row, t_objects (tables w) !! (b, k) = Some row -> object_content e (w_os w') row = None.

(** Removing the file of the object reports an error. *)
Definition removal_fails (b k : string) (w : World) : Prop :=
  exists row err, t_objects (tables w) !! (b, k) = Some row /\ (DiskEngine.Delete e (or_storage_path row) (w_os w)).1 = Err err.

(** The answer is 204 and the object is gone with its file; or it is an error and nothing
    has changed; or it is 500 because the file could not be removed after its row. *)
Definition deletes (b k : string) (w : World) (resp : Response) (w' : World) : Prop :=
  (rs_status resp = 204%Z /\ objects_of e w' = delete (b, k) (objects_of e w) /\ file_gone b k w w') \/
  ((400 <= rs_status resp)%Z /\ objects_of e w' = objects_of e w) \/
  (rs_status resp = 500%Z /\ objects_of e w' = delete (b, k) (objects_of e w) /\ removal_fails b k w).

Lemma pwp_delete_row b k w :
  pwp (CachedObjectRepository.Delete b k) (fun res w' => w_os w' = w_os w /\
    match res with
    | Ok _ => t_objects (tables w') = delete (b, k) (t_objects (tables w))
    | Err _ => t_objects (tables w') = t_objects (tables w) /\
        (is_Some (t_objects (tables w) !! (b, k)) -> db_faults (w_db w) <> [])
    end) w.
Proof.
  apply pwp_then_evict. unfold ObjectRepository.Delete, delete_object. destruct (decide (db_faults (w_db w) = [])) as [Hf|Hf].
  - unfold wp, bind. rewrite exec_run by done. fold (tables w).
    destruct (t_objects (tables w) !! (b, k)) as [row|]; [done|]. cbn. split_and!; [done..|]. by intros [? ?].
  - apply wp_bind, wp_exec; [done|]. intros fs.
    destruct (t_objects (tables w) !! (b, k)) as [row|]; cbn [Nat.eqb]; [by apply wp_ret|by apply wp_fail].
Qed.

(** Without its row, the file of an object can go. *)
Lemma deleted_objects n b k row w w' :
  files_below n w -> t_objects (tables w) !! (b, k) = Some row ->
  t_objects (tables w') = delete (b, k) (t_objects (tables w)) ->
  files_frame (fun p => exists j, or_storage_path row = object_path b j /\ p = object_file e b j) (w_os w) (w_os w') ->
  objects_of e w' = delete (b, k) (objects_of e w).
Proof.
  intros Hb Hrow E [Hf _]. unfold objects_of. rewrite E, fmap_delete. apply map_eq. intros [b' k'].
  destruct (decide ((b', k') = (b, k))) as [[= -> ->]|Hne]; [by rewrite !lookup_delete_eq|].
  rewrite !lookup_delete_ne, !lookup_fmap by congruence. destruct (t_objects (tables w) !! (b', k')) as [row'|] eqn:Hrow'; [|done].
  cbn. do 2 f_equal. destruct (fb_file _ _ Hb _ _ _ Hrow') as (m' & _ & Hp' & Hd').
  rewrite !(object_content_path b' m') by (done || by destruct Hd'). apply Hf.
  intros (j & Hj & [-> ->]%object_file_inj). apply Hne. by eapply (fb_distinct _ _ Hb).
Qed.

(** The file of an object is removed, or the call says why not. *)
Lemma wp_delete_file b m w :
  normal_seg b -> wp (os (DiskEngine.Delete e (object_path b m))) (fun res w' => only_file_gone b m w w' /\
    res = (DiskEngine.Delete e (object_path b m) (w_os w)).1 /\
    (is_ok res = true -> os_files (w_os w') !! object_file e b m = None)) w.
Proof.
  intros Hb. apply wp_os. assert (Hd := Delete_spec e We b m (w_os w) Hb). unfold wp in *.
  destruct (DiskEngine.Delete e (object_path b m) (w_os w)) as [res o]. cbn [fst snd] in Hd |- *. destruct Hd as (_ & Hf & Hg).
  split; [done|]. split; [done|]. cbn [w_os]. by destruct res; [intros _|].
Qed.

Lemma Delete_run b m o :
  normal_seg b -> os_faults o = [] -> is_Some (os_files o !! object_file e b m) -> is_ok (DiskEngine.Delete e (object_path b m) o).1 = true.
Proof.
  intros Hb Hf Hs.
  assert (Hw : wp (DiskEngine.Delete e (object_path b m)) (fun res _ => is_ok res = true) o).
  { unfold DiskEngine.Delete. apply wp_bind, wp_check_ctx_run; [done|]. rewrite (resolve_object e We) by done.
    apply wp_bind, wp_lift_result, wp_bind, wp_attempt. rewrite (pruneEmptyParents_object e We), abs_segs_object by done.
    apply wp_syscall_run; [done|]. unfold wp. cbn. by rewrite bool_decide_true. }
  unfold wp in Hw. by destruct (DiskEngine.Delete e (object_path b m) o).
Qed.

Lemma pwp_deleteObject n b k w0 w :
  files_below n w0 -> quiet_cache w0 -> read_only w0 w ->
  pwp (deleteObject h b k) (fun res w' =>
    match res with
    | Ok _ => objects_of e w' = delete (b, k) (objects_of e w0) /\ file_gone b k w0 w'
    | Err _ => objects_of e w' = objects_of e w0 /\ db_faults (w_db w0) <> [] \/
               objects_of e w' = delete (b, k) (objects_of e w0) /\ removal_fails b k w0
    end) w.
Proof.
  intros Hb Hq0 R0. unfold deleteObject, ObjectOps.DeleteObject.
  assert (Hsame : forall w', frame n w0 w' -> objects_of e w' = objects_of e w0) by (intros w'; by apply frame_objects).
  apply pwp_bind. eapply pwp_mono; [apply (pwp_GetByKey rounds), R0|]. cbv beta. intros res w1 [R1 Ha].
  assert (R : read_only w0 w1) by by eapply read_only_trans.
  assert (F1 : frame n w0 w1) by by apply read_frame.
  unfold answers, object_answer in Ha. rewrite (ro_tables _ _ R0) in Ha.
  destruct (t_objects (tables w0) !! (b, k)) as [row|] eqn:Hrow.
  2: { destruct Ha as [->|[Hf ->]]; apply pwp_ret.
       - rewrite (Hsame w1 F1). split; [|intros row; by rewrite Hrow]. symmetry. apply delete_id. unfold objects_of. by rewrite lookup_fmap, Hrow.
       - left. split; [by apply Hsame|]. intros E. by rewrite (ro_db _ _ R0 E) in Hf. }
  destruct Ha as [->|[Hf ->]].
  2: { apply pwp_ret. left. split; [by apply Hsame|]. intros E. by rewrite (ro_db _ _ R0 E) in Hf. }
  change (o_storage_path (scanObject b k row)) with (or_storage_path row).
  apply pwp_bind. eapply pwp_mono; [apply pwp_delete_row|]. cbv beta. rewrite (ro_tables _ _ R), Hrow. intros [[]|err] w2 [O2 E2].
  2: { destruct E2 as [E2 Hf]. apply pwp_ret. left. split; [|intros E; apply Hf; [done|by rewrite (ro_db _ _ R E)]].
       apply Hsame. eapply frame_trans; [exact F1|]. apply frame_inert; [by rewrite (ro_tables _ _ R)|done]. }
  destruct (fb_file _ _ Hb _ _ _ Hrow) as (j & _ & Hj & Hd). assert (Hn : normal_seg b) by by destruct Hd.
  apply pwp_call_bind. rewrite Hj. eapply wp_mono; [by apply (wp_delete_file b j)|]. cbv beta.
  intros res w3 ([D3 Hf] & Hres & Hok). rewrite O2, (ro_os _ _ R) in Hf, Hres.
  assert (Hend : objects_of e w3 = delete (b, k) (objects_of e w0)).
  { apply (deleted_objects n b k row); [done|done|by rewrite D3|].
    eapply files_frame_weaken; [exact Hf|]. intros p ->. by exists j. }
  destruct res as [[]|err]; apply pwp_ret.
  - split; [exact Hend|]. intros row' Hrow'. rewrite Hrow in Hrow'. injection Hrow' as <-. rewrite (object_content_path b j) by done. by apply Hok.
  - right. split; [exact Hend|]. exists row, err. by rewrite Hj.
Qed.


Lemma DeleteObject_deletes r w :
  integral e w -> quiet_cache w -> let '(b, k) := objectRouteParams r in pwp (S3Objects.DeleteObject h r) (deletes b k w) w.
Proof.
  intros Hi Hq. assert (Hb := integral_files_below w Hi). unfold S3Objects.DeleteObject. destruct (objectRouteParams r) as [b k].
  destruct (String.eqb k ""); [by apply pwp_ret; right; left|]. set (n := os_uuids (w_os w)) in *.
  apply pwp_respond. eapply pwp_mono; [by apply (pwp_ensure h Hauthz)|]. cbv beta. intros res w1 [S1 H1].
  destruct res as [resp|_].
  { destruct H1. right. left. split; [lia|]. by apply (frame_objects n); [|apply read_frame]. }
  apply pwp_bind. eapply pwp_mono; [by apply (pwp_deleteObject n b k w)|]. cbv beta. intros res w2 H2.
  destruct res as [deleted|err].
  2: { apply pwp_ret. destruct H2 as [[H2 _]|H2]; right; [by left|by right]. }
  assert (Hend : forall w3, only_log w2 w3 -> deletes b k w (Reply 204 ∅) w3).
  { intros w3 H3. left. split; [done|]. rewrite (log_objects _ _ H3). destruct H2 as [H2 Hg]. split; [exact H2|].
    intros row Hrow. specialize (Hg row Hrow). unfold object_content in *. destruct (resolveStoragePath _ _); [|done].
    destruct H3 as [_ [H3 _]]. rewrite H3; [exact Hg|tauto]. }
  destruct deleted as [[obj|] []]; try (apply pwp_ret, Hend; split; [done|apply files_frame_refl]).
  apply pwp_bind. eapply pwp_mono; [apply pwp_recordActivity|]. cbv beta. intros _ w3 H3. by apply pwp_ret, Hend.
Qed.

Lemma DeleteObject_succeeds r w b k :
  integral e w -> quiet_cache w -> db_faults (w_db w) = [] -> os_faults (w_os w) = [] -> objectRouteParams r = (b, k) -> k <> "" ->
  (run (ensureBucketAction h r b ActionDeleteObject k "") w).1 = inr tt ->
  pwp (S3Objects.DeleteObject h r) (fun resp _ => resp = Reply 204 ∅) w.
Proof.
  intros Hi Hq Hdb Hos Ep Hk Hallow. unfold S3Objects.DeleteObject. rewrite Ep. apply String.eqb_neq in Hk. rewrite Hk.
  apply pwp_respond. eapply pwp_mono; [by apply (granted_read h Hauthz)|]. cbv beta. intros res w1 [-> R1]. cbv beta iota.
  assert (Hb := integral_files_below w Hi).
  apply pwp_bind. eapply pwp_mono; [by apply (pwp_deleteObject (os_uuids (w_os w)) b k w)|]. cbv beta. intros res w2 H2.
  destruct res as [[[obj|] []]|err]; try by apply pwp_ret.
  - apply pwp_bind. eapply pwp_mono; [apply pwp_recordActivity|]. cbv beta. intros _ w3 _. by apply pwp_ret.
  - exfalso. destruct H2 as [[_ ?]|[_ (row & err' & Hrow & Hfail)]]; [done|].
    destruct (it_object _ _ Hi _ _ _ Hrow) as (m & _ & Hp & Hfile). destruct (fb_file _ _ Hb _ _ _ Hrow) as (_ & _ & _ & [Hn _]).
    rewrite Hp in Hfail. assert (Hrun := Delete_run b m (w_os w) Hn Hos). rewrite Hfail in Hrun.
    destruct Hfile as (c & Hc & _). by assert (false = true) by (apply Hrun; by exists c).
Qed.

(** ** [serveObject] *)

Lemma wp_os_rest {A} (m : M Os A) w : wp (os m) (fun _ w' => w_db w' = w_db w /\ w_cache w' = w_cache w) w.
Proof. by apply wp_os, wp_any. Qed.

(** A response that is a file is the object in the map. *)
Lemma pwp_serveObject r n b k row cacheControl disposition failed w :
  files_below n w -> t_objects (tables w) !! (b, k) = Some row -> (forall err, no_file (failed err)) ->
  pwp (serveObject h r (scanObject b k row) cacheControl disposition failed) (fun resp w' =>
    w_db w' = w_db w /\ w_cache w' = w_cache w /\ files_frame (fun _ => False) (w_os w) (w_os w') /\
    (no_file resp \/ sent e cacheControl disposition b k w resp)) w.
Proof.
  intros Hb Hrow Hfail. unfold serveObject. change (o_storage_path (scanObject b k row)) with (or_storage_path row).
  apply pwp_call_bind. eapply wp_mono; [apply wp_and; [by apply (wp_open n b k row w)|apply wp_os_rest]|].
  cbv beta. intros res w1 ((_ & F1 & HO) & D1 & C1).
  destruct res as [file|err]; [|apply pwp_ret; split_and!; auto].
  apply pwp_call_bind, wp_os. unfold EnableWriteIdleTimeout. apply wp_syscall; intros fs.
  - apply pwp_ret. split_and!; [done|done| |by left]. eapply files_frame_trans; [exact F1|by apply files_frame_eq].
  - apply pwp_ret. split_and!; [done|done|eapply files_frame_trans; [exact F1|by apply files_frame_eq]|].
    destruct file as [body|]; [|by left]. right. by exists row, body.
Qed.

(** ** [GetObject] *)

(** Reading changes nothing; what is sent is the object's bytes with its headers. *)
Definition gets (b k : string) (w : World) (resp : Response) (w' : World) : Prop :=
  objects_of e w' = objects_of e w /\
  match rs_body resp with
  | Content name modtime (Some body) =>
      rs_status resp = 200%Z /\ exists row disposition, objects_of e w !! (b, k) = Some (row, Some body) /\ name = k /\ modtime = or_updated_at row /\
        rs_header resp = setObjectHeaders (scanObject b k row) (h_s3_cache_control h) disposition
  | _ => True
  end.

Lemma no_file_gets b k w resp w' : no_file resp -> objects_of e w' = objects_of e w -> gets b k w resp w'.
Proof. intros Hn Ho. split; [done|]. unfold no_file in Hn. by repeat case_match. Qed.

Lemma refused_gets b k r w hd status code message w' :
  (400 <= status)%Z -> objects_of e w' = objects_of e w -> gets b k w (WriteS3Error_with hd r status code message) w'.
Proof. intros Hs. apply no_file_gets, WriteS3Error_refusal, Hs. Qed.

Lemma GetObject_gets `{MT : MediaTypes} r w :
  integral e w -> quiet_cache w -> let '(b, k) := objectRouteParams r in pwp (GetObject h r) (gets b k w) w.
Proof.
  intros Hi Hq. assert (Hb := integral_files_below w Hi). unfold GetObject, loadObjectForRead. destruct (objectRouteParams r) as [b k].
  destruct (String.eqb k ""); [by apply pwp_ret, refused_gets|]. set (n := os_uuids (w_os w)) in *.
  assert (Hsame : forall w', frame n w w' -> objects_of e w' = objects_of e w) by (intros w'; by apply frame_objects).
  unfold respond, early. apply pwp_bind, pwp_bind. eapply pwp_mono; [by apply (pwp_ensure h Hauthz)|]. cbv beta. intros res w1 [S1 HE].
  destruct res as [resp|_]; [destruct HE; apply pwp_ret, pwp_ret, no_file_gets; [done|by apply Hsame, read_frame]|].
  apply pwp_bind. eapply pwp_mono; [apply pwp_get_object, S1|]. cbv beta. intros res w2 [S2 HG].
  assert (F2 : frame n w w2) by (eapply frame_trans; by apply read_frame).
  apply read_same in S2.
  destruct res as [obj|err]; [|destruct err; apply pwp_ret, pwp_ret, refused_gets; done || by apply Hsame].
  destruct HG as (row & Hrow & ->). apply pwp_ret.
  destruct (handlePartNumber r (scanObject b k row)) as [resp|] eqn:Epart.
  { apply pwp_ret, no_file_gets; [|by apply Hsame]. unfold handlePartNumber in Epart. repeat case_match; simplify_eq; by apply WriteS3Error_refusal. }
  apply pwp_bind, pwp_ret. destruct (requestedResponseContentDisposition r) as [resp|disposition] eqn:Ed.
  { apply pwp_ret, no_file_gets; [|by apply Hsame]. unfold requestedResponseContentDisposition in Ed. case_match; simplify_eq. by apply WriteS3Error_refusal. }
  eapply pwp_mono; [apply (pwp_serveObject r n b k row); [by eapply frame_files_below|by destruct S2 as [-> _]|]|].
  { intros err. by apply WriteS3Error_refusal. }
  cbv beta. intros resp w3 (D3 & _ & F3 & [Hn|(row' & body & Hobj & ->)]);
    assert (E3 : objects_of e w3 = objects_of e w)
      by (apply Hsame; eapply frame_trans; [exact F2|]; split; [by rewrite D3|by eapply files_frame_weaken]); [by apply no_file_gets|].
  split; [exact E3|]. split; [done|]. exists row', disposition. by rewrite <- (Hsame w2 F2).
Qed.

(** When nothing fails, an object that may be read is sent. *)
Definition plain_get (r : Request) : Prop := values_get (rq_query r) "partNumber" = "" /\ rq_query r !! responseContentDispositionQuery = None.

Lemma os_open_run b m c o :
  normal_seg b -> os_faults o = [] -> os_files o !! object_file e b m = Some c -> Open e (object_path b m) o = (Ok (Some c), o).
Proof.
  intros Hb Hf Hc.
  assert (Hw : wp (Open e (object_path b m)) (fun res o' => res = Ok (Some c) /\ o' = o) o).
  { unfold Open. apply wp_bind, wp_check_ctx_run; [done|]. rewrite (resolve_object e We) by done.
    apply wp_bind, wp_lift_result, wp_bind, wp_attempt. rewrite abs_segs_object by done.
    apply wp_syscall_run; [done|]. unfold wp. cbn. by rewrite Hc. }
  unfold wp in Hw. destruct (Open e (object_path b m) o) as [res o']. cbn in Hw. by destruct Hw as [-> ->].
Qed.

(** When nothing fails, the object in the map is sent. *)
Lemma serveObject_found r n b k row body cacheControl disposition failed w :
  files_below n w -> os_faults (w_os w) = [] -> objects_of e w !! (b, k) = Some (row, Some body) ->
  pwp (serveObject h r (scanObject b k row) cacheControl disposition failed) (fun resp w' => w' = w /\
    resp = MkResponse 200 (setObjectHeaders (scanObject b k row) cacheControl disposition)
             (Content k (or_updated_at row) (Some body))) w.
Proof.
  intros Hb Hos Hobj. unfold objects_of in Hobj. rewrite lookup_fmap in Hobj.
  apply fmap_Some in Hobj as (row' & Hrow & [= -> Hbody]).
  destruct (fb_file _ _ Hb _ _ _ Hrow) as (m & _ & Hm & Hd). rewrite (object_content_path b m) in Hbody by (done || by destruct Hd).
  unfold serveObject. change (o_storage_path (scanObject b k row')) with (or_storage_path row'). rewrite Hm.
  assert (Hopen : os (Open e (object_path b m)) w = (Ok (Some body), w)).
  { unfold os, on. simpl lens_get. rewrite (os_open_run b m body); [by destruct w|by destruct Hd|done|done]. }
  assert (Hidle : os EnableWriteIdleTimeout w = (Ok tt, w)).
  { destruct w as [d [fi di fa u] c]. cbn in Hos. by subst fa. }
  apply pwp_call_bind. unfold wp. rewrite Hopen. cbn [fst snd]. apply pwp_call_bind. unfold wp. rewrite Hidle. by apply pwp_ret.
Qed.

Lemma GetObject_found `{MT : MediaTypes} r w b k row body :
  integral e w -> quiet_cache w -> db_faults (w_db w) = [] -> os_faults (w_os w) = [] -> objectRouteParams r = (b, k) -> plain_get r ->
  (run (ensureBucketAction h r b ActionGetObject k "") w).1 = inr tt -> objects_of e w !! (b, k) = Some (row, Some body) ->
  pwp (GetObject h r) (fun resp w' => read_only w w' /\
    resp = MkResponse 200 (setObjectHeaders (scanObject b k row) (h_s3_cache_control h) "") (Content k (or_updated_at row) (Some body))) w.
Proof.
  intros Hi Hq Hdb Hos Ep [Hpart Hdisp] Hallow Hobj. unfold GetObject, loadObjectForRead. rewrite Ep.
  assert (Hrow : t_objects (tables w) !! (b, k) = Some row).
  { unfold objects_of in Hobj. rewrite lookup_fmap in Hobj. by apply fmap_Some in Hobj as (? & ? & [= -> _]). }
  destruct (String.eqb_spec k "") as [->|_]; [by apply (it_key _ _ Hi) in Hrow|].
  unfold respond, early. apply pwp_bind, pwp_bind.
  eapply pwp_mono; [by apply (granted_read h Hauthz)|]. cbv beta. intros res w1 [-> R1]. cbv beta iota.
  assert (Q1 : db_faults (w_db w1) = []) by (by rewrite (ro_db _ _ R1)).
  apply pwp_bind. eapply pwp_mono; [apply (pwp_GetByKey rounds), R1|]. cbv beta. intros res w2 [R2 [->|[Hf _]]]; [|done].
  unfold object_answer. rewrite (ro_tables _ _ R1), Hrow. apply pwp_ret.
  unfold handlePartNumber. rewrite Hpart. cbn [String.eqb]. apply pwp_bind.
  unfold requestedResponseContentDisposition. rewrite Hdisp. apply pwp_ret. cbn [parseResponseContentDisposition].
  assert (R : read_only w w2) by by eapply read_only_trans.
  assert (F : frame (os_uuids (w_os w)) w w2) by by apply read_frame.
  assert (Hb := integral_files_below w Hi).
  eapply pwp_mono; [apply (serveObject_found r (os_uuids (w_os w)) b k row body); [by eapply frame_files_below|by rewrite (ro_os _ _ R)|]|].
  - by rewrite (frame_objects (os_uuids (w_os w)) w w2).
  - by intros resp w' [-> ->].
Qed.
End Store.

(** C2: the handlers of objects implement a map from buckets and keys to bytes. In a server
    whose rows and files agree, whatever statements and system calls fail, [PutObject]
    answers 200 exactly when it has stored the body under its key, with the ETag and content
    type of the request and as its preconditions allow, and changes nothing otherwise;
    [CopyObject] stores in the same way the bytes that the source has; [DeleteObject]
    answers 204 only when it has removed just its object with its file, and another status
    only when nothing has changed, or else 500 because the file could not be removed after
    the row was; when nothing fails an allowed request is answered 204. What [GetObject]
    sends are the bytes and headers of the object in the map, which it does not change, and
    when nothing fails it sends them. *)
Theorem objects_are_a_map `{Cwd} `{UL : UuidLaws} `{MT : MediaTypes} `{Rounds} (h : ObjectHandlers) r w b k :
  wf_engine (h_storage h) -> standard_authz h ->
  integral (h_storage h) w -> quiet_cache w -> objectRouteParams r = (b, k) ->
  let body := reader_content (rq_body r) in
  pwp (PutObject h r) (puts h b k r body (ETag body) (requestContentType r) w) w /\
  pwp (CopyObject h r) (copies h b k r w) w /\
  pwp (S3Objects.DeleteObject h r) (deletes h b k w) w /\
  pwp (GetObject h r) (gets h b k w) w /\
  (forall row content,
     db_faults (w_db w) = [] -> os_faults (w_os w) = [] -> plain_get r ->
     (run (ensureBucketAction h r b ActionGetObject k "") w).1 = inr tt ->
     objects_of (h_storage h) w !! (b, k) = Some (row, Some content) ->
     (run (GetObject h r) w).1 =
       MkResponse 200 (setObjectHeaders (scanObject b k row) (h_s3_cache_control h) "") (Content k (or_updated_at row) (Some content))) /\
  (db_faults (w_db w) = [] -> os_faults (w_os w) = [] -> k <> "" ->
     (run (ensureBucketAction h r b ActionDeleteObject k "") w).1 = inr tt ->
     (run (S3Objects.DeleteObject h r) w).1 = Reply 204 ∅).
Proof.
  intros We Hauthz Hi Hq Ep body.
  assert (Hp := PutObject_puts h We Hauthz r w Hi Hq). assert (Hc := CopyObject_copies h We Hauthz r w Hi Hq).
  assert (Hd := DeleteObject_deletes h We Hauthz r w Hi Hq). assert (Hg := GetObject_gets h We Hauthz r w Hi Hq).
  rewrite Ep in Hp, Hc, Hd, Hg. do 4 (split; [done|]). split.
  - intros row content Hdb Hos Hplain Hallow Hobj.
    exact (proj2 (GetObject_found h We Hauthz r w b k row content Hi Hq Hdb Hos Ep Hplain Hallow Hobj)).
  - intros Hdb Hos Hk Hallow. exact (DeleteObject_succeeds h We Hauthz r w b k Hi Hq Hdb Hos Ep Hk Hallow).
Qed.

(** ** Witness: an object is put in the store that the sample run leaves, read, and deleted;
    when the removal of its file fails, the answer is 500 and the object is gone. *)

Definition sample_put : Request := sample_request "b" [MkRead "hello" None].
Definition sample_get : Request :=
  MkRequest "GET" "/photos/b" "/photos/b" "localhost" "127.0.0.1:4000" false (<["bucket" := "photos"]> {["*" := "b"]}) ∅ ∅ 0 []
    (Some (MkPrincipal "dev" "Dev" "ak" "admin" true "" "")) "req".

Definition sample_delete : Request :=
  MkRequest "DELETE" "/photos/b" "/photos/b" "localhost" "127.0.0.1:4000" false (<["bucket" := "photos"]> {["*" := "b"]}) ∅ ∅ 0 []
    (Some (MkPrincipal "dev" "Dev" "ak" "admin" true "" "")) "req".
Definition with_os_faults (faults : list (option nat)) (w : World) : World :=
  MkWorld (w_db w) (MkOs (os_files (w_os w)) (os_dirs (w_os w)) faults (os_uuids (w_os w))) (w_cache w).

(** The server has been started again: its cache is new. *)
Definition restarted (served : option (list (option Response) * World)) : option World :=
  (fun x => with_cache (Some (Cache.NewMetadataCache 100000)) x.2) <$> served.

Lemma objects_are_a_map_witness :
  exists w, restarted sample_served = Some w /\ rs_status (run (PutObject sample_handlers sample_put) w).1 = 200%Z /\
    pwp (PutObject sample_handlers sample_put) (puts sample_handlers "photos" "b" sample_put "hello" (ETag "hello") "application/octet-stream" w) w /\
    (run (GetObject sample_handlers sample_get) (run (PutObject sample_handlers sample_put) w).2).1.(rs_body) =
      Content "b" 5 (Some "hello") /\
    let stored := (run (PutObject sample_handlers sample_put) w).2 in
    (run (S3Objects.DeleteObject sample_handlers sample_delete) stored).1 = Reply 204 ∅ /\
    let '(resp, w') := run (S3Objects.DeleteObject sample_handlers sample_delete) (with_os_faults [None; Some 0] stored) in
    rs_status resp = 500%Z /\ t_objects (tables w') !! ("photos", "b") = None.
Proof.
  assert (Hc : match restarted sample_served with
               | Some w =>
                   rs_status (run (PutObject sample_handlers sample_put) w).1 = 200%Z /\
                   (run (GetObject sample_handlers sample_get) (run (PutObject sample_handlers sample_put) w).2).1.(rs_body) =
                     Content "b" 5 (Some "hello") /\
                   let stored := (run (PutObject sample_handlers sample_put) w).2 in
                   (run (S3Objects.DeleteObject sample_handlers sample_delete) stored).1 = Reply 204 ∅ /\
                   let '(resp, w') := run (S3Objects.DeleteObject sample_handlers sample_delete) (with_os_faults [None; Some 0] stored) in
                   rs_status resp = 500%Z /\ t_objects (tables w') !! ("photos", "b") = None
               | None => False
               end) by (vm_compute; by split_and!).
  destruct server_integral_witness as (resps & w & E & _ & _ & _ & Hi). rewrite E in Hc |- *. destruct Hc as [H1 H2].
  eexists. split; [reflexivity|]. split; [exact H1|]. split; [|exact H2].
  exact (proj1 (objects_are_a_map sample_handlers sample_put _ "photos" "b" sample_engine_wf (or_intror (ex_intro _ true eq_refl))
    (proj1 (integral_with_cache _ _ _) Hi) (new_cache_coherent _ _) eq_refl)).
Defined.

(** * Completing a multipart upload, on the map of objects *)

(** ** The parts of a completed object *)

(** A part that was sent, the last one of its number. *)
Definition sent_last (sent : list CompletePart) (p : CompletePart) : Prop :=
  last (filter (fun q => cp_part_number q = cp_part_number p) sent) = Some p.

(** [positions] is the index of [unique]. *)
Definition indexed (unique : list CompletePart) (positions : gmap Z nat) : Prop :=
  forall n i, positions !! n = Some i <-> exists p, unique !! i = Some p /\ cp_part_number p = n.

Lemma indexed_NoDup unique positions : indexed unique positions -> NoDup (cp_part_number <$> unique).
Proof.
  intros Hi. apply NoDup_alt. intros i j n Hn Hj. rewrite list_lookup_fmap in Hn, Hj.
  apply fmap_Some in Hn as (p & Hp & ->). apply fmap_Some in Hj as (q & Hq & E).
  assert (positions !! cp_part_number p = Some i) by (apply Hi; by exists p).
  assert (positions !! cp_part_number p = Some j) by (apply Hi; by exists q). congruence.
Qed.

Lemma add_completed_spec unique positions part u' ps' :
  indexed unique positions -> add_completed unique positions part = (u', ps') ->
  indexed u' ps' /\ forall p, p ∈ u' <-> p = part \/ (cp_part_number p <> cp_part_number part /\ p ∈ unique).
Proof.
  unfold indexed. intros Hi. unfold add_completed. destruct (positions !! cp_part_number part) as [i|] eqn:Ei; intros [= <- <-].
  - pose proof (proj1 (Hi _ _) Ei) as (old & Hold & Eold). pose proof (lookup_lt_Some _ _ _ Hold) as Hlt. split.
    + intros n j. rewrite Hi. destruct (decide (i = j)) as [<-|Hne].
      * rewrite list_lookup_insert_eq by done. rewrite Hold. split; intros (p & [= <-] & <-); eexists; (split; [done|congruence]).
      * by rewrite list_lookup_insert_ne.
    + intros p. rewrite !list_elem_of_lookup. split.
      * intros [j Hj]. destruct (decide (i = j)) as [<-|Hne].
        -- rewrite list_lookup_insert_eq in Hj by done. injection Hj as <-. by left.
        -- rewrite list_lookup_insert_ne in Hj by done. right. split; [|by exists j]. intros E. apply Hne.
           assert (positions !! cp_part_number p = Some j) by (apply Hi; by exists p). congruence.
      * intros [->|[Hne [j Hj]]]; [exists i; by apply list_lookup_insert_eq|]. exists j.
        rewrite list_lookup_insert_ne; [done|]. intros <-. congruence.
  - split.
    + intros n j. rewrite lookup_insert_Some, Hi. split.
      * intros [[<- <-]|[Hne (p & Hp & <-)]]; [exists part; by rewrite list_lookup_middle|].
        exists p. split; [|done]. by apply lookup_app_l_Some.
      * intros (p & [Hp|[Hl Hp]]%lookup_app_Some & <-).
        -- right. assert (Hj : positions !! cp_part_number p = Some j) by (apply Hi; by exists p).
           split; [|by exists p]. intros E. rewrite E in Ei. congruence.
        -- apply list_lookup_singleton_Some in Hp as [? <-]. left. split; [done|lia].
    + intros p. rewrite elem_of_app, list_elem_of_singleton. split; [|tauto]. intros [Hp|Hp]; [|by left].
      right. split; [|done]. intros E. apply list_elem_of_lookup in Hp as [j Hj].
      assert (positions !! cp_part_number p = Some j) by (apply Hi; by exists p). congruence.
Qed.

Lemma unique_parts_spec sent unique positions :
  indexed unique positions ->
  NoDup (cp_part_number <$> unique_parts sent unique positions) /\
  forall p, p ∈ unique_parts sent unique positions <->
    sent_last sent p \/ (filter (fun q => cp_part_number q = cp_part_number p) sent = [] /\ p ∈ unique).
Proof.
  revert unique positions. induction sent as [|part sent IH]; intros unique positions Hi; cbn [unique_parts].
  - split; [by eapply indexed_NoDup|]. intros p. split; [by right|]. by intros [|[_ ?]].
  - destruct (add_completed unique positions part) as [u ps] eqn:E. apply add_completed_spec in E as [Hi' Hu]; [|done].
    destruct (IH u ps Hi') as [Hd Hp]. split; [done|]. intros p. rewrite Hp, Hu. unfold sent_last. rewrite filter_cons.
    destruct (decide (cp_part_number part = cp_part_number p)) as [Ep|Ep].
    + rewrite last_cons. destruct (last (filter _ sent)) as [q|] eqn:El.
      * split; [|by intros [?|[? _]]; [left|]]. intros [?|[E _]]; [by left|]. by rewrite E in El.
      * apply last_None in El. rewrite El. split.
        -- intros [|[_ [->|[Hne _]]]]; [done|by left|congruence].
        -- intros [[= ->]|[? _]]; [|done]. right. split; [done|by left].
    + split; [|intros [?|[? ?]]; [by left|right; split; [done|right; split; congruence || done]]].
      intros [?|[? [->|[_ ?]]]]; [by left|done|by right].
Qed.

Lemma ascending_sorted parts :
  ascending parts = true -> NoDup (cp_part_number <$> parts) -> StronglySorted Z.lt (cp_part_number <$> parts).
Proof.
  intros Ha Hd. apply Sorted_StronglySorted; [intros x y z; lia|]. induction parts as [|a parts IH]; [constructor|].
  rewrite fmap_cons, NoDup_cons in Hd. destruct Hd as [Hn Hd]. destruct parts as [|b parts]; [by repeat constructor|].
  cbn [ascending] in Ha. destruct (Z.ltb_spec (cp_part_number b) (cp_part_number a)); [done|].
  constructor; [by apply IH|]. constructor. assert (cp_part_number a <> cp_part_number b); [|lia].
  intros E. apply Hn. rewrite E. left.
Qed.

(** The parts of a request: of each number that was sent the last part, in their order. *)
Lemma normalizeCompletedParts_spec sent requested :
  normalizeCompletedParts sent = Ok requested ->
  StronglySorted Z.lt (cp_part_number <$> requested) /\ forall p, p ∈ requested <-> sent_last sent p.
Proof.
  unfold normalizeCompletedParts. destruct sent as [|first sent]; [done|]. set (all := first :: sent).
  assert (Hi : indexed [] ∅) by (intros n i; rewrite lookup_empty; split; [done|by intros (p & Hp & _); rewrite lookup_nil in Hp]).
  destruct (unique_parts_spec all [] ∅ Hi) as [Hd Hu]. fold all. destruct (ascending _) eqn:Ea; [|done].
  intros E. assert (unique_parts all [] ∅ = requested) as <- by congruence. split; [by apply ascending_sorted|]. intros p. rewrite Hu. split; [by intros [|[_ ?%elem_of_nil]]|by left].
Qed.

(** The stored parts that are asked for: each with its number and ETag, and no part but the
    last below the smallest size. *)
Definition parts_match (requested : list CompletePart) (stored : list MultipartPart) (minSize : Z) (parts : list MultipartPart) : Prop :=
  Forall2 (fun want part => part ∈ stored /\ p_part_number part = cp_part_number want /\
             etagMatches (cp_etag want) (p_etag part) = true) requested parts /\
  forall i part, parts !! i = Some part -> S i < length parts -> (minSize <= p_size part)%Z.

Lemma matchStoredParts_spec requested stored minSize parts :
  matchStoredParts requested stored minSize = Ok parts -> parts_match requested stored minSize parts.
Proof.
  unfold matchStoredParts, parts_match. revert parts. induction requested as [|want rest IH]; intros parts; cbn [match_parts].
  { intros [= <-]. split; [constructor|done]. }
  destruct (byNumber stored !! _) as [part|] eqn:Ep; [|done]. apply byNumber_stored in Ep as [Ep En].
  destruct (etagMatches _ _) eqn:Ee; [|done]. cbn [negb]. destruct (_ && _) eqn:Es; [done|].
  destruct (match_parts rest _ _) as [matched|] eqn:Em; [|done]. cbn. intros [= <-]. destruct (IH _ eq_refl) as [Hf Hs].
  split; [by constructor|]. intros [|i] x; cbn.
  - intros [= <-] Hl. apply andb_false_iff in Es as [Es|Es]; [|lia]. apply negb_false_iff, bool_decide_eq_true in Es. subst rest.
    apply Forall2_nil_inv_l in Hf. subst matched. cbn in Hl. lia.
  - intros Hx Hl. apply (Hs i); [done|lia].
Qed.

(** ** Completing an upload *)

Section Completing.
Context `{Cwd} `{UL : UuidLaws} `{XmlDecoder} `{RD : Rounds} (h : ObjectHandlers).
Context (We : wf_engine (h_storage h)).
Context (Hauthz : standard_authz h).

Abbreviation e := (h_storage h).

(** The objects, the parts and the files are as they were. *)
Definition same_stored (w w' : World) : Prop :=
  t_objects (tables w') = t_objects (tables w) /\ t_parts (tables w') = t_parts (tables w) /\ w_os w' = w_os w.

Lemma same_stored_trans w1 w2 w3 : same_stored w1 w2 -> same_stored w2 w3 -> same_stored w1 w3.
Proof. unfold same_stored. intuition congruence. Qed.

Lemma same_world_stored w w' : same_world w w' -> same_stored w w'.
Proof. intros [E Eo]. by split_and!; [rewrite E..|]. Qed.

Lemma stored_frame n w w' : same_stored w w' -> frame h n w w'.
Proof. intros (E & _ & Eo). by apply frame_inert. Qed.

Lemma pwp_lock {A} mutex (p : prog World A) Q w : pwp p Q w -> pwp (with_lock mutex p) Q w.
Proof. unfold pwp. by rewrite run_with_lock. Qed.

Lemma pwp_multipartTarget r action w :
  quiet_cache w ->
  pwp (multipartTarget h r action) (fun res w' => same_world w w' /\
    match res with
    | inl resp => refusal resp
    | inr (b, k, up) => objectRouteParams r = (b, k) /\ up = values_get (rq_query r) "uploadId" /\ is_Some (t_buckets (tables w) !! b)
    end) w.
Proof.
  intros Hq. unfold multipartTarget. destruct (objectRouteParams r) as [b k].
  destruct (String.eqb k ""); [by apply pwp_ret; split; [|apply WriteS3Error_refusal]|].
  apply pwp_bind. eapply pwp_mono; [by apply (pwp_ensure h Hauthz)|]. cbv beta. intros [resp|[]] w' [S1%read_same HE]; [by apply pwp_ret|].
  destruct (String.eqb _ ""); apply pwp_ret; (split; [done|]); [by apply WriteS3Error_refusal|done].
Qed.

Lemma pwp_loadUpload r up b k w :
  pwp (loadUpload r up b k) (fun res w' => same_world w w' /\
    match res with
    | inl resp => refusal resp
    | inr u => u_bucket_name u = b /\ u_key u = k /\ is_Some (t_uploads (tables w) !! up)
    end) w.
Proof.
  unfold loadUpload. apply pwp_call_bind, wp_db. unfold MultipartRepository.GetByID. apply wp_bind, wp_query.
  { intros fs. apply pwp_ret. by split; [|apply WriteS3Error_refusal]. }
  intros fs. destruct (t_uploads (db_tables (w_db w)) !! up) as [row|] eqn:Eu.
  2: { apply pwp_ret. by split; [|apply WriteS3Error_refusal]. }
  apply wp_ret. destruct (String.eqb_spec (u_bucket_name (MultipartRepository.scanMultipartUpload up row)) b) as [Eb|_]; cbn [negb orb].
  2: { apply pwp_ret. by split; [|apply WriteS3Error_refusal]. }
  destruct (String.eqb_spec (u_key (MultipartRepository.scanMultipartUpload up row)) k) as [Ek|_]; cbn [negb].
  2: { apply pwp_ret. by split; [|apply WriteS3Error_refusal]. }
  apply pwp_ret. split; [done|]. by split_and!; [..|eexists].
Qed.

(** Claiming an upload, and giving it back. *)
Lemma pwp_claimUpload r up status w :
  pwp (claimUpload r up status) (fun res w' => same_stored w w' /\ match res with inl resp => refusal resp | inr _ => True end) w.
Proof.
  unfold claimUpload. apply pwp_call_bind, wp_db. eapply wp_mono; [apply ClaimUpload_spec|]. cbv beta. intros [[]|err] d Hr.
  - apply pwp_ret. split; [|done]. by destruct Hr as (_ & _ & _ & _ & Ho & Hp).
  - destruct Hr as [E _]. destruct err; apply pwp_ret; (split; [apply same_world_stored; by split|by apply WriteS3Error_refusal]).
Qed.

Definition has_rows (objects : gmap (string * string) ObjectRow) (parts : gmap (string * Z) PartRow) (t : Tables) : Prop :=
  t_objects t = objects /\ t_parts t = parts.

Lemma update_upload_status_rows objects parts id status time :
  stmt_keeps (has_rows objects parts) (update_upload_status id status time).
Proof. intros t Ht. unfold update_upload_status. destruct (t_uploads t !! id); [|done]. by destruct (negb _). Qed.
#[local] Hint Resolve update_upload_status_rows : fbs.

Lemma wp_SetUploadStatus id status w :
  wp (db (MultipartRepository.SetUploadStatus id status)) (fun _ w' => same_stored w w') w.
Proof.
  apply wp_db.
  assert (Hk : db_keeps (has_rows (t_objects (tables w)) (t_parts (tables w))) (MultipartRepository.SetUploadStatus id status)).
  { unfold MultipartRepository.SetUploadStatus. db_keeps_steps. }
  eapply wp_mono; [by apply Hk|]. cbv beta. by intros r d [Ho Hp].
Qed.

Lemma stored_objects w w' : same_stored w w' -> objects_of e w' = objects_of e w.
Proof. intros (E & _ & Eo). unfold objects_of. by rewrite E, Eo. Qed.

Lemma pwp_and {A} (p : prog World A) (Q Q' : A -> World -> Prop) w : pwp p Q w -> pwp p Q' w -> pwp p (fun a w' => Q a w' /\ Q' a w') w.
Proof. by unfold pwp. Qed.

Definition has_uploads (uploads : gmap string UploadRow) (parts : gmap (string * Z) PartRow) (t : Tables) : Prop :=
  t_uploads t = uploads /\ t_parts t = parts.

Lemma insert_activity_uploads uploads parts id row : stmt_keeps (has_uploads uploads parts) (insert_activity id row).
Proof. intros t Ht. unfold insert_activity. by case_bool_decide. Qed.
#[local] Hint Resolve insert_activity_uploads : fbs.

Lemma pwp_recordActivity_uploads r action b k size etag w :
  pwp (recordActivity h r action b k size etag) (fun _ w' => has_uploads (t_uploads (tables w)) (t_parts (tables w)) (tables w')) w.
Proof.
  unfold recordActivity. apply pwp_bind. eapply pwp_mono; [apply pwp_newID|]. cbv beta. intros id w1 [_ E1].
  apply pwp_bind. eapply pwp_mono; [apply pwp_now|]. cbv beta. intros created w2 [_ ->]. apply pwp_call_bind, wp_db. rewrite E1.
  assert (Hk : forall enabled principal event,
    db_keeps (has_uploads (t_uploads (tables w)) (t_parts (tables w))) (RecordActivity enabled principal event)).
  { intros enabled principal event. unfold RecordActivity. destruct (negb enabled); [apply keeps_ret|]. cbv zeta.
    unfold ActivityRepository.Create. db_keeps_steps. }
  eapply wp_mono; [by apply Hk|]. cbv beta. intros res d Hd. by apply pwp_ret.
Qed.

(** The files of an upload are no objects. *)
Lemma upload_dir_no_object up p : below (upload_dir e up) p = true -> no_object_file h p.
Proof.
  intros [l ->]%bool_decide_eq_true b m [_ Hb] E. unfold upload_dir, object_file in E. rewrite <- app_assoc in E.
  apply app_inv_head in E. by simplify_eq.
Qed.

(** [complete_claimed], once the object has been assembled. *)
Definition complete_tail (r : Request) (bucketName key uploadID : string) (obj : Object) : prog World (Response * bool) :=
  completed <~ call (db (MultipartRepository.CompleteUpload obj uploadID
                 (header_get (rq_header r) "If-Match") (header_get (rq_header r) "If-None-Match"))) ;;
  match completed with
  | Err err => deleteStoredFile h (o_storage_path obj) ~;; Ret (writeCompleteUploadError r err)
  | Ok replacedPath =>
      InvalidateObjectCache (o_bucket_name obj) (o_key obj) ~;;
      recordActivity h r ActivityCompleteMultipartUpload bucketName key (o_size obj) (o_etag obj) ~;;
      (if negb (String.eqb replacedPath "") && negb (String.eqb replacedPath (o_storage_path obj))
       then deleteStoredFile h replacedPath else Ret tt) ~;;
      deleteUploadParts h uploadID ~;;
      Ret (ReplyXml (CompleteMultipartUploadResult ("/" +:+ bucketName +:+ "/" +:+ key)
             bucketName key (quoteETag (o_etag obj))), true)
  end.

(** The upload and its parts are gone. *)
Definition upload_ended (up : string) (w : World) : Prop :=
  upload_status up (tables w) = None /\ forall n, t_parts (tables w) !! (up, n) = None.

(** The objects and the parts are as they were. *)
Definition nothing_stored (w w' : World) : Prop :=
  objects_of e w' = objects_of e w /\ t_parts (tables w') = t_parts (tables w).

Lemma complete_refused r err : rs_status (writeCompleteUploadError r err).1 <> 200%Z.
Proof. by destruct err. Qed.

Lemma pwp_complete_tail n m r b k up obj body w :
  files_below n w -> n <= m -> normal_seg up -> bucket_dir b -> o_bucket_name obj = b -> o_key obj = k ->
  o_storage_path obj = object_path b m -> os_files (w_os w) !! object_file e b m = Some body ->
  pwp (complete_tail r b k up obj) (fun answer w' =>
    if decide (rs_status answer.1 = 200%Z)
    then put h r obj body w w' /\ upload_ended up w' /\ answer.2 = true
    else nothing_stored w w') w.
Proof.
  intros Hb Hn Hup Hdir Eb Ek Hpath Hfile. unfold complete_tail. apply pwp_call_bind, wp_db.
  eapply wp_mono; [apply wp_CompleteUpload|]. unfold complete_result. intros [old|err] d Hr.
  - destruct Hr as (_ & Hpre & Hold & Hgone & Hparts & Hobjs & _). apply pwp_bind, pwp_cache, pwp_bind. cbn [w_db w_os w_cache].
    eapply pwp_mono; [apply pwp_and; [apply pwp_recordActivity|apply pwp_recordActivity_uploads]|]. cbv beta.
    intros _ w1 [[E1 F1] [U1 P1]]. cbn [w_db w_os] in *. apply pwp_bind.
    assert (Hend : forall w', tables w' = tables w1 ->
              files_frame (fun p => replaced_file h b k w p \/ no_object_file h p) (w_os w1) (w_os w') ->
              put h r obj body w w' /\ upload_ended up w').
    { intros w' E' F'. subst b k. split.
      - split; [exact Hpre|]. eapply (put_objects h We n m obj body w w1 w'); try done.
        + by rewrite E1.
        + by rewrite E'.
        + eapply files_frame_trans; [|exact F']. by eapply files_frame_weaken.
      - split; [unfold upload_status; by rewrite E', U1|]. intros j. by rewrite E', P1. }
    assert (Hrest : forall w2, tables w2 = tables w1 ->
              files_frame (fun p => replaced_file h b k w p \/ no_object_file h p) (w_os w1) (w_os w2) ->
              pwp (deleteUploadParts h up ~;; Ret (ReplyXml (CompleteMultipartUploadResult ("/" +:+ b +:+ "/" +:+ k) b k (quoteETag (o_etag obj))), true))
                (fun answer w' => if decide (rs_status answer.1 = 200%Z)
                   then put h r obj body w w' /\ upload_ended up w' /\ answer.2 = true else nothing_stored w w') w2).
    { intros w2 E2 F2. unfold deleteUploadParts. apply pwp_bind, pwp_call_bind, wp_os.
      eapply wp_mono; [by apply (wp_DeleteUploadParts e We)|]. cbv beta. intros res o Ho. apply pwp_ret, pwp_ret.
      rewrite decide_True by done. apply and_assoc. split; [|done]. apply Hend; [exact E2|]. eapply files_frame_trans; [exact F2|].
      eapply files_frame_weaken; [exact Ho|]. intros p Hp. right. exact (upload_dir_no_object up p Hp). }
    destruct (negb (String.eqb old "") && negb (String.eqb old (o_storage_path obj))) eqn:Edel.
    + rewrite Eb, Ek in Hold. destruct (t_objects (tables w) !! (b, k)) as [row|] eqn:Erow.
      * subst old. destruct (fb_file _ _ Hb _ _ _ Erow) as (j & _ & Hj & _). rewrite Hj.
        eapply pwp_mono; [apply (pwp_deleteStoredFile h We); by destruct Hdir|]. cbv beta. intros _ w2 [E2 F2]. apply Hrest.
        -- by rewrite E2.
        -- eapply files_frame_weaken; [exact F2|]. intros p ->. left. by exists row, j.
      * by subst old.
    + apply pwp_ret, Hrest; [done|apply files_frame_refl].
  - apply pwp_bind. rewrite Hpath. eapply pwp_mono; [apply (pwp_deleteStoredFile h We); by destruct Hdir|]. cbv beta. intros _ w' Hg.
    apply pwp_ret. rewrite decide_False by apply complete_refused.
    assert (E : tables w' = tables w) by (destruct Hg as [-> _]; exact Hr).
    split; [|by rewrite E]. apply (frame_objects h We n); [done|]. eapply frame_trans; [|by eapply (gone_frame h n b m)].
    apply frame_inert; [cbn; by rewrite Hr|done].
Qed.

(** What a completed upload has stored: the bytes of its parts in their order. *)
Definition assembled (r : Request) (b k up : string) (requested : list CompletePart) (w w' : World) : Prop :=
  exists parts row body,
    parts_match requested (MultipartRepository.select_parts up (tables w)) (minPartSize h) parts /\
    parts_content e (w_os w) (p_storage_path <$> parts) = Some body /\
    MultipartETag (p_etag <$> parts) = Ok (or_etag row) /\ or_size row = string_len body /\
    or_is_multipart row = true /\ or_parts_count row = Z.of_nat (length parts) /\
    objects_of e w' = <[(b, k) := (row, Some body)]> (objects_of e w) /\
    ObjectSpec.preconditions_hold (t_objects (tables w) !! (b, k)) (header_get (rq_header r) "If-Match") (header_get (rq_header r) "If-None-Match") /\
    upload_ended up w'.

(** Under the claim: the object and the end of the upload, or nothing. *)
Definition completes_claimed (r : Request) (b k up : string) (requested : list CompletePart) (w : World)
    (answer : Response * bool) (w' : World) : Prop :=
  if decide (rs_status answer.1 = 200%Z) then assembled r b k up requested w w' /\ answer.2 = true else nothing_stored w w'.

Lemma refused_completes r b k up requested w answer w' :
  rs_status answer.1 <> 200%Z -> nothing_stored w w' -> completes_claimed r b k up requested w answer w'.
Proof. intros Hs Hn. unfold completes_claimed. by rewrite decide_False. Qed.

Lemma select_parts_paths up w : integral e w -> part_paths up (MultipartRepository.select_parts up (tables w)).
Proof.
  intros Hi. apply Forall_forall. intros p Hp. unfold MultipartRepository.select_parts in Hp. rewrite merge_sort_Permutation in Hp.
  apply list_elem_of_fmap in Hp as ([[up' k] row] & -> & [Hup Hrow]%list_elem_of_filter). simpl in Hup. subst up'.
  apply elem_of_map_to_list in Hrow. destruct (it_part _ _ Hi _ _ _ Hrow) as (n & _ & Hn & _). exists k, n. split; [|done].
  destruct (it_upload _ _ Hi up) as (j & _ & ->); [|apply uuid_normal].
  exact (wt_part_upload _ (proj1 (it_schema _ _ Hi)) (up, k) row up Hrow eq_refl).
Qed.

Lemma completed_parts_refused r err : rs_status (writeCompletedPartsError r err) <> 200%Z.
Proof. by destruct err. Qed.

Lemma pwp_complete_claimed n r b k up upload requested w :
  n = os_uuids (w_os w) -> files_below n w -> normal_seg up -> bucket_dir b -> u_bucket_name upload = b -> u_key upload = k ->
  part_paths up (MultipartRepository.select_parts up (tables w)) ->
  pwp (complete_claimed h r b k up upload requested) (completes_claimed r b k up requested w) w.
Proof.
  intros En Hb Hup Hdir Eb Ek Hpaths. unfold complete_claimed.
  assert (Hsame : forall w', frame h n w w' -> tables w' = tables w -> nothing_stored w w').
  { intros w' HF HE. split; [by apply (frame_objects h We n)|by rewrite HE]. }
  apply pwp_call_bind, wp_db. unfold MultipartRepository.ListParts. apply wp_query.
  { intros fs. apply pwp_ret, refused_completes; [done|]. by apply Hsame; [apply frame_inert|]. }
  intros fs. set (w1 := MkWorld _ (w_os w) (w_cache w)). assert (F1 : frame h n w w1) by by apply frame_inert.
  destruct (matchStoredParts _ _ _) as [parts|err] eqn:Em.
  2: { apply pwp_ret, refused_completes; [apply completed_parts_refused|by apply Hsame]. }
  unfold assembleUpload. rewrite Eb, Ek. apply pwp_bind, pwp_call_bind, wp_os.
  eapply wp_mono; [apply (wp_AssembleParts e We); [done|]|].
  { apply (part_paths_avoid h We up). by eapply matched_paths. }
  cbv beta. intros res o (c & Hs). 
  assert (Hn1 : n <= os_uuids (w_os w1)) by (cbn; lia).
  destruct (stored_new h n b c _ w1 (w_os w) res o Hdir Hn1 eq_refl eq_refl Hs) as [Hw Hc].
  set (w2 := MkWorld (w_db w1) o (w_cache w1)) in *. assert (F2 : frame h n w w2) by (eapply frame_trans; [exact F1|apply Hw]).
  assert (E2 : tables w2 = tables w) by done.
  destruct res as [[path size]|err].
  2: { apply pwp_ret, pwp_ret, refused_completes; [apply put_status_refused|by apply Hsame]. }
  destruct Hw as (_ & _ & -> & Hfile & ->). specialize (Hc eq_refl).
  destruct (MultipartETag _) as [etag|err] eqn:Eetag.
  2: { apply pwp_bind. eapply pwp_mono; [apply (pwp_deleteStoredFile h We); by destruct Hdir|]. cbv beta. intros _ w3 [Ed Hg].
       apply pwp_ret, pwp_ret, refused_completes; [done|]. apply Hsame; [|by rewrite Ed].
       eapply frame_trans; [exact F2|]. apply (gone_frame h n b (os_uuids (w_os w1))); [done|done|by split]. }
  apply pwp_bind. eapply pwp_mono; [apply pwp_now|]. cbv beta. intros now_ w3 [_ ->]. apply pwp_bind.
  eapply pwp_mono; [apply pwp_newID|]. cbv beta. intros id w4 [L4 D4]. apply pwp_ret.
  assert (F4 : frame h n w w4) by (eapply frame_trans; [exact F2|]; by apply log_frame).
  assert (E4 : tables w4 = tables w) by (by rewrite D4).
  match goal with |- pwp ?p _ _ =>
    match p with context [MultipartRepository.CompleteUpload ?o _ _ _] => set (obj := o) end end.
  change (pwp (complete_tail r b k up obj) (completes_claimed r b k up requested w) w4).
  eapply pwp_mono; [apply (pwp_complete_tail n (os_uuids (w_os w1)) r b k up obj c); try done|].
  - by eapply frame_files_below.
  - destruct L4 as [_ [L4 _]]. rewrite L4 by tauto. exact Hfile.
  - cbv beta. intros answer w5 Hend. unfold completes_claimed. destruct (decide _) as [_|_].
    + destruct Hend as ([Hpre Hobjs] & Hgone & Hset). split; [|done].
      exists parts, (ObjectRepository.object_row (ObjectSpec.stored_object obj (db_clock (w_db w4)))), c. cbn [o_bucket_name o_key obj] in Hpre, Hobjs.
      apply matchStoredParts_spec in Em. rewrite E4 in Hpre. rewrite (proj1 (Hsame w4 F4 E4)) in Hobjs. by split_and!.
    + destruct Hend as [Ho Hp]. destruct (Hsame w4 F4 E4) as [Ho' Hp']. split; [by rewrite Ho|by rewrite Hp].
Qed.

(** The answer to a request to complete an upload. *)
Definition completes (b k : string) (r : Request) (w : World) (resp : Response) (w' : World) : Prop :=
  if decide (rs_status resp = 200%Z)
  then exists payload sent requested,
         ReadBody r (2 * 1024 * 1024) = Ok payload /\ decodeCompleteMultipartUpload payload = Ok sent /\
         StronglySorted Z.lt (cp_part_number <$> requested) /\ (forall p, p ∈ requested <-> sent_last sent p) /\
         assembled r b k (values_get (rq_query r) "uploadId") requested w w'
  else nothing_stored w w'.

Lemma completes_refused b k r w resp w' : rs_status resp <> 200%Z -> nothing_stored w w' -> completes b k r w resp w'.
Proof. intros Hs Hn. unfold completes. by rewrite decide_False. Qed.

Lemma stored_nothing w w' : same_stored w w' -> nothing_stored w w'.
Proof. intros Hs. split; [by apply stored_objects|apply Hs]. Qed.

Lemma refusal_status resp : refusal resp -> rs_status resp <> 200%Z.
Proof. intros [Hs _]. lia. Qed.

Lemma assembled_same r b k up requested w0 w w' :
  same_stored w0 w -> assembled r b k up requested w w' -> assembled r b k up requested w0 w'.
Proof.
  intros Hs (parts & row & body & Hm & Hc & He & Hz & Hmu & Hn & Ho & Hp & Hu). pose proof (stored_objects _ _ Hs) as Eo.
  destruct Hs as (E1 & E2 & E3). exists parts, row, body. rewrite Eo in Ho. rewrite E1 in Hp. rewrite E3 in Hc.
  unfold MultipartRepository.select_parts in *. rewrite E2 in Hm. by split_and!.
Qed.

Lemma pwp_complete_locked r b k up upload w0 w :
  integral e w0 -> same_stored w0 w -> tables w = tables w0 -> bucket_dir b -> is_Some (t_uploads (tables w0) !! up) ->
  u_bucket_name upload = b -> u_key upload = k -> up = values_get (rq_query r) "uploadId" ->
  pwp (complete_locked h r b k up upload) (completes b k r w0) w.
Proof.
  intros Hi Hs Et Hdir Hup Eb Ek Eup. unfold complete_locked.
  assert (Hn : normal_seg up) by (destruct (it_upload _ _ Hi up Hup) as (j & _ & ->); apply uuid_normal).
  destruct (ReadBody r _) as [payload|] eqn:Epay; [|by apply pwp_ret, completes_refused; [|apply stored_nothing]].
  destruct (decodeCompleteMultipartUpload payload) as [sent|] eqn:Esent; [|by apply pwp_ret, completes_refused; [|apply stored_nothing]].
  destruct (normalizeCompletedParts sent) as [requested|err] eqn:Ereq.
  2: { apply pwp_ret, completes_refused; [apply completed_parts_refused|by apply stored_nothing]. }
  unfold with_claim. apply pwp_respond. eapply pwp_mono; [apply pwp_claimUpload|]. cbv beta. intros res w1 [S1 HR].
  pose proof (same_stored_trans _ _ _ Hs S1) as S01.
  destruct res as [resp|[]]; [by apply completes_refused; [apply refusal_status|apply stored_nothing]|].
  apply pwp_bind. eapply pwp_mono.
  { apply (pwp_complete_claimed (os_uuids (w_os w1)) r b k up upload requested w1); try done.
    - apply (frame_files_below h _ w0); [by apply stored_frame|]. destruct S01 as (_ & _ & ->).
      by apply (integral_files_below h).
    - destruct S01 as (_ & E2 & _). pose proof (select_parts_paths up w0 Hi) as Hp. unfold MultipartRepository.select_parts in *. by rewrite E2. }
  cbv beta. intros answer w2 Hans. unfold completes_claimed in Hans. destruct (decide (rs_status answer.1 = 200%Z)) as [Hok|Hno].
  - destruct Hans as [Ha Hset]. rewrite Hset. apply pwp_bind, pwp_ret, pwp_ret. unfold completes. rewrite decide_True by done.
    exists payload, sent, requested. apply normalizeCompletedParts_spec in Ereq as [Hsort Hlast]. split_and!; [done..|]. rewrite <- Eup. by eapply assembled_same.
  - assert (Hend : forall w3, same_stored w2 w3 -> completes b k r w0 answer.1 w3).
    { intros w3 S3. apply completes_refused; [done|]. destruct Hans as [Ho Hp]. destruct (stored_nothing _ _ S01) as [Ho1 Hp1].
      destruct (stored_nothing _ _ S3) as [Ho3 Hp3]. split; [by rewrite Ho3, Ho|by rewrite Hp3, Hp]. }
    apply pwp_bind. destruct (answer.2); [by apply pwp_ret, pwp_ret, Hend|].
    apply pwp_call_bind. eapply wp_mono; [apply wp_SetUploadStatus|]. cbv beta. intros res w3 S3. by apply pwp_ret, pwp_ret, Hend.
Qed.

Lemma complete_upload r w :
  integral e w -> quiet_cache w -> let '(b, k) := objectRouteParams r in pwp (CompleteMultipartUpload h r) (completes b k r w) w.
Proof.
  intros Hi Hq. destruct (objectRouteParams r) as [b k] eqn:Er. unfold CompleteMultipartUpload.
  apply pwp_respond. eapply pwp_mono; [by apply pwp_multipartTarget|]. cbv beta. intros res w1 [S1 HT].
  destruct res as [resp|[[b' k'] up]]; [by apply completes_refused; [apply refusal_status|apply stored_nothing, same_world_stored]|].
  destruct HT as (Er' & Eup & Hbk). rewrite Er in Er'. injection Er' as <- <-.
  assert (Hdir : bucket_dir b) by by apply (it_bucket _ _ Hi).
  apply pwp_respond. eapply pwp_mono; [apply pwp_loadUpload|]. cbv beta. intros res w2 [S2 HU].
  assert (S02 : same_world w w2) by (destruct S1, S2; split; congruence).
  destruct res as [resp|u]; [by apply completes_refused; [apply refusal_status|apply stored_nothing, same_world_stored]|].
  unfold with_upload. apply pwp_lock, pwp_respond. eapply pwp_mono; [apply pwp_loadUpload|]. cbv beta. intros res w3 [S3 HU3].
  assert (S03 : same_world w w3) by (destruct S02, S3; split; congruence).
  destruct res as [resp|u3]; [by apply completes_refused; [apply refusal_status|apply stored_nothing, same_world_stored]|].
  destruct HU3 as (Eb & Ek & Hup). apply (pwp_complete_locked r b k up u3 w); try done.
  - by apply same_world_stored.
  - by destruct S03.
  - by destruct S02 as [<- _].
Qed.
End Completing.

(** C3: a multipart upload becomes an object whole or not at all. In a server whose rows and
    files agree, whatever statements and system calls fail, [CompleteMultipartUpload]
    answers 200 only when the object of its path is the concatenation of stored parts of the
    upload: of each number in the request the last one that was sent, in ascending order,
    each with the ETag asked for and none but the last below the smallest size. The object
    has the length of these bytes, the ETag of the parts' ETags and the preconditions of the
    request; no other object has changed, and the upload and its parts are gone. With any
    other status the objects and the parts of all uploads are as before. *)
Theorem CompleteMultipartUpload_completes `{Cwd} `{UL : UuidLaws} `{XmlDecoder} `{Rounds} (h : ObjectHandlers) r w b k :
  wf_engine (h_storage h) -> standard_authz h ->
  integral (h_storage h) w -> quiet_cache w -> objectRouteParams r = (b, k) ->
  pwp (CompleteMultipartUpload h r) (completes h b k r w) w.
Proof.
  intros We Hauthz Hi Hq Ep. pose proof (complete_upload h We Hauthz r w Hi Hq) as Hc. by rewrite Ep in Hc.
Qed.

(** ** Witness: two parts are stored, the second number first, and completed. *)

(** The decoder of a request that names the parts 1 and 2. *)
Definition two_parts_xml : XmlDecoder :=
  Build_XmlDecoder (fun _ => [Ok (StartElement "CompleteMultipartUpload"); Ok (EndElement "CompleteMultipartUpload")])
    (fun _ _ => Ok ([MkCompletePart 1 (ETag "hello "); MkCompletePart 2 (ETag "world")], []))
    (fun _ _ => Err (ErrOther "xml")) (fun _ _ => Err (ErrOther "xml")).

Definition multipart_handlers : ObjectHandlers :=
  MkHandlers sample_engine true true true true (Some (NewAuthzEvaluator true)) "" 1 None.

Definition upload_request (method : string) (query : list (string * string)) (body : string) : Request :=
  MkRequest method "/photos/a" "/photos/a" "localhost" "127.0.0.1:4000" false (<["bucket" := "photos"]> {["*" := "a"]})
    ∅ (list_to_map ((fun kv => (kv.1, [kv.2])) <$> query)) (string_len body) [MkRead body None]
    (Some (MkPrincipal "dev" "Dev" "ak" "admin" true "" "")) "req".

Definition upload_events : list Event :=
  [HttpRequest BucketRoute (sample_request "" []);
   HttpRequest ObjectRoute (upload_request "POST" [("uploads", "")] "");
   HttpRequest ObjectRoute (upload_request "PUT" [("uploadId", "ua"); ("partNumber", "2")] "world");
   HttpRequest ObjectRoute (upload_request "PUT" [("uploadId", "ua"); ("partNumber", "1")] "hello ")].

Definition complete_request : Request := upload_request "POST" [("uploadId", "ua")] "<CompleteMultipartUpload/>".

Definition uploaded : option (list (option Response) * World) :=
  serve_all (@Serve _ _ two_parts_xml _ _ multipart_handlers) upload_events sample_world.
Definition completed (w : World) : Response * World := run (@CompleteMultipartUpload _ _ _ two_parts_xml multipart_handlers complete_request) w.

Lemma CompleteMultipartUpload_completes_witness :
  exists w, restarted uploaded = Some w /\
    rs_status (completed w).1 = 200%Z /\
    option_map snd (objects_of sample_engine (completed w).2 !! ("photos", "a")) = Some (Some "hello world") /\
    @completes _ two_parts_xml multipart_handlers "photos" "a" complete_request w (completed w).1 (completed w).2.
Proof.
  assert (Hc : match restarted uploaded with
               | Some w => rs_status (completed w).1 = 200%Z /\
                   option_map snd (objects_of sample_engine (completed w).2 !! ("photos", "a")) = Some (Some "hello world")
               | None => False
               end) by (vm_compute; by split_and!).
  destruct uploaded as [[resps w]|] eqn:E; [|by destruct Hc]. destruct Hc as [H1 H2]. eexists.
  split; [reflexivity|]. split; [exact H1|]. split; [exact H2|].
  refine (@CompleteMultipartUpload_completes _ _ _ two_parts_xml _ multipart_handlers complete_request _ "photos" "a" sample_engine_wf
    (or_intror (ex_intro _ true eq_refl)) (proj1 (integral_with_cache _ _ _) _) (new_cache_coherent _ _) eq_refl).
  refine (@server_integral _ _ _ two_parts_xml _ _ multipart_handlers sample_engine_wf (or_intror (ex_intro _ true eq_refl)) sample_world ∅
    (MkServer w ∅ ∅) sample_world_integral I _).
  by eapply serve_all_steps.
Defined.
