(* ===== verification/MgmtSpec.v ===== *)
(** * Keys under concurrent changes

    What a change of a key does alone, and what two of them do when they overlap: the
    handler reads the whole row and writes it back, in two calls. *)

From S2P Require Import Prelude GoStrings Encoding Json Effects Os DiskEngine Schema Db Iam Authz UserRepo Repositories Prog S3Http S3Xml S3Access SigV4 Auth MgmtHttp MgmtKeys IntegrityApp.

(** The row that a change leaves: the fields read from [seen], but the signing key and
    the time of creation of the row [now] stored. *)
Definition patched_row (displayName : option string) (isActive : option bool) (seen stored : UserRow) (at_ : time)
    : UserRow :=
  MkUserRow (default (ur_display_name seen) displayName) (ur_access_key_id seen) (ur_secret_hash seen)
    (ur_sigv4_access_key_id stored) (ur_sigv4_secret_key stored) (ur_role seen)
    (default (ur_is_active seen) isActive) (ur_created_at stored) at_.

Section Runs.
Implicit Types s : Db.

Lemma GetByID_run s id row :
  db_faults s = [] -> t_users (db_tables s) !! id = Some row ->
  UserRepository.GetByID id s = (Ok (UserRepository.hide_secret (UserRepository.scanUser id row)), s).
Proof. intros Hf Hr. unfold UserRepository.GetByID, bind. rewrite query_run by done. by rewrite Hr. Qed.

Lemma Update_run s id displayName isActive seen stored :
  wf_tables (db_tables s) -> db_faults s = [] -> t_users (db_tables s) !! id = Some stored ->
  valid_role (ur_role seen) = true -> ur_access_key_id seen = ur_access_key_id stored ->
  UserRepository.Update (patched_user displayName isActive (UserRepository.hide_secret (UserRepository.scanUser id seen))) s =
    (Ok tt, set_tables (with_users (insert id (patched_row displayName isActive seen stored (db_clock s))) (db_tables s)) s).
Proof.
  intros Hwf Hf Hr Hrole Hkey. unfold UserRepository.Update, bind, time_now. rewrite exec_run by done.
  unfold update_user. cbn [us_id patched_user UserRepository.hide_secret UserRepository.scanUser]. rewrite Hr.
  cbn [ur_role us_role ur_access_key_id us_access_key_id patched_user UserRepository.hide_secret UserRepository.scanUser].
  rewrite Hrole. cbn [negb].
  rewrite (proj2 (has_row_false _ _)); [by destruct displayName, isActive|].
  intros k u Hk. destruct (String.eqb_spec k id) as [->|Hne]; [done|]. cbn [negb andb].
  apply String.eqb_neq. intros E. apply Hne.
  apply (wt_access_key _ Hwf k id u stored (ur_access_key_id u)); [done..|]. congruence.
Qed.
End Runs.

(** ** The handler in two parts *)

(** What [PatchKey] does with the row that it has read. *)
Definition save_patch (id : string) (user : User) : prog World Response :=
  updated <~ call (db (UserRepository.Update user)) ;;
  match updated with
  | Err ErrUserNotFound => Ret (notFound "key not found")
  | Err _ => Ret (internalError "failed to update key")
  | Ok _ =>
      updated <~ call (db (UserRepository.GetByID id)) ;;
      match updated with
      | Err _ => Ret (internalError "failed to load updated key")
      | Ok updated => Ret (writeJSON 200 (JObject [("key", keyDTO updated)]))
      end
  end.

(** The world with another row for the key. *)
Definition with_user_row (id : string) (row : UserRow) (w : World) : World :=
  MkWorld (set_tables (with_users (insert id row) (tables w)) (w_db w)) (w_os w) (w_cache w).

(** The request asks for these changes of this key. *)
Definition patches (r : Request) (id : string) (displayName : option string) (isActive : option bool) : Prop :=
  id <> "" /\ trim_space (url_param r "id") = id /\ decodePatchKeyRequest r = inr (displayName, isActive).

Lemma PatchKey_parts r id displayName isActive :
  patches r id displayName isActive ->
  PatchKey r =
    Call (db (UserRepository.GetByID id)) (fun user =>
      match user with
      | Err ErrUserNotFound => Ret (notFound "key not found")
      | Err _ => Ret (internalError "failed to load key")
      | Ok user => save_patch id (patched_user displayName isActive user)
      end).
Proof.
  intros (Hid & Er & Ed). unfold PatchKey. rewrite Er, Ed. by rewrite (proj2 (String.eqb_neq id "")).
Qed.

Lemma db_GetByID_run w id row :
  db_faults (w_db w) = [] -> t_users (tables w) !! id = Some row ->
  db (UserRepository.GetByID id) w = (Ok (UserRepository.hide_secret (UserRepository.scanUser id row)), w).
Proof. intros Hf Hr. unfold db, on. cbn. rewrite (GetByID_run _ id row) by done. by destruct w. Qed.

Lemma save_patch_run w mutexes id displayName isActive seen stored :
  wf_tables (tables w) -> db_faults (w_db w) = [] -> t_users (tables w) !! id = Some stored ->
  valid_role (ur_role seen) = true -> ur_access_key_id seen = ur_access_key_id stored ->
  exists resp, rs_status resp = 200%Z /\
    run_alone (save_patch id (patched_user displayName isActive
                 (UserRepository.hide_secret (UserRepository.scanUser id seen)))) mutexes w =
      Some (resp, mutexes,
        with_user_row id (patched_row displayName isActive seen stored (db_clock (w_db w))) w).
Proof.
  intros Hwf Hf Hr Hrole Hkey. unfold save_patch. cbn [pbind call run_alone]. unfold db at 1, on. cbn [lens_get lens_db].
  rewrite (Update_run _ id displayName isActive seen stored) by done. cbn [lens_put lens_db pbind call run_alone].
  set (w' := MkWorld _ _ _).
  assert (Hr' : t_users (tables w') !! id = Some (patched_row displayName isActive seen stored (db_clock (w_db w))))
    by apply lookup_insert_eq.
  rewrite (db_GetByID_run w' id _ Hf Hr'). eexists. by split; [|reflexivity].
Qed.

(** ** A change alone, and two that overlap *)

Section Overlap.
Context (w : World) (id : string) (row : UserRow).
Context (Hinv : db_inv (tables w)) (Hf : db_faults (w_db w) = []) (Hrow : t_users (tables w) !! id = Some row).

Abbreviation now_ := (db_clock (w_db w)).

Lemma row_role : valid_role (ur_role row) = true.
Proof using Hinv Hrow. exact (wt_role _ (proj1 Hinv) id row Hrow). Qed.

(** A change keeps the schema. *)
Lemma patched_wf displayName isActive :
  wf_tables (tables (with_user_row id (patched_row displayName isActive row row now_) w)).
Proof using Hinv Hf Hrow.
  assert (Hu := Update_run (w_db w) id displayName isActive row row (proj1 Hinv) Hf Hrow row_role eq_refl).
  exact (proj1 (wp_run _ (fun _ s' => db_inv (db_tables s')) _ _ _ Hu (write_op_inv _ (op_update_user _) _ Hinv))).
Qed.

(** Alone, the request changes what it asks for, and nothing else. *)
Lemma patch_alone r displayName isActive mutexes :
  patches r id displayName isActive ->
  exists resp, rs_status resp = 200%Z /\
    run_alone (PatchKey r) mutexes w =
      Some (resp, mutexes, with_user_row id (patched_row displayName isActive row row now_) w).
Proof using Hinv Hf Hrow.
  intros Hp. rewrite (PatchKey_parts r id displayName isActive Hp). cbn [run_alone].
  rewrite (db_GetByID_run w id row) by done. apply save_patch_run; done || apply row_role || apply Hinv.
Qed.

Lemma two_requests {Req} (p q : Req) : <[0 := p]> ({[1 := q]} : gmap nat Req) = <[1 := q]> {[0 := p]}.
Proof. apply map_eq. intros [|[|i]]; by simplify_map_eq. Qed.

(** The second change has read the row before the first is made, and writes it after:
    the fields it did not ask for go back to what they were. *)
Lemma patch_overlap r1 r2 name1 active1 name2 active2 :
  patches r1 id name1 active1 -> patches r2 id name2 active2 ->
  exists resp1 resp2, rs_status resp1 = 200%Z /\ rs_status resp2 = 200%Z /\
    rtc (server_step PatchKey environment) (MkServer w ∅ (<[0 := PatchKey r1]> {[1 := PatchKey r2]}))
      (MkServer (with_user_row id (patched_row name2 active2 row row now_) w) ∅ (<[0 := Ret resp1]> {[1 := Ret resp2]})).
Proof using Hinv Hf Hrow.
  intros Hp1 Hp2. destruct (patch_alone r1 name1 active1 ∅ Hp1) as (resp1 & Hs1 & Hrun1).
  set (first := patched_row name1 active1 row row now_) in *. set (w1 := with_user_row id first w) in *.
  destruct (save_patch_run w1 ∅ id name2 active2 row first) as (resp2 & Hs2 & Hrun2);
    [by apply patched_wf|done|by apply lookup_insert_eq|apply row_role|done|].
  exists resp1, resp2. split; [done|]. split; [done|].
  rewrite (PatchKey_parts r2 id name2 active2 Hp2).
  eapply rtc_l.
  { eapply (server_call _ _ (MkServer w ∅ _) 1); cbn [sv_requests sv_state].
    - rewrite lookup_insert_ne by done. apply lookup_singleton_eq.
    - by apply (db_GetByID_run w id row). }
  cbn [sv_requests sv_mutexes]. rewrite insert_insert_ne, insert_singleton_eq by done.
  etrans; [by apply run_alone_steps|]. rewrite !two_requests.
  replace (with_user_row id (patched_row name2 active2 row row now_) w)
    with (with_user_row id (patched_row name2 active2 row first now_) w1); [by apply run_alone_steps|].
  unfold w1, with_user_row, with_users, set_tables. cbn. by rewrite insert_insert_eq.
Qed.
End Overlap.

(** C29: what a change of an access key does. Alone, in a consistent database that does not
    fail, it answers 200 and stores in the key's row exactly the fields that it names, with
    the new time of change, and touches nothing else. But the handler reads the row and
    writes it back in two calls, so when a second change of the same key reads the row
    before the first writes it, both answer 200 and only the second is stored: the fields
    that it does not name, such as whether the key is active, go back to their old values. *)
Theorem PatchKey_spec (w : World) (id : string) (row : UserRow) :
  db_inv (tables w) -> db_faults (w_db w) = [] -> t_users (tables w) !! id = Some row ->
  (forall r displayName isActive mutexes, patches r id displayName isActive ->
    exists resp, rs_status resp = 200%Z /\
      run_alone (PatchKey r) mutexes w =
        Some (resp, mutexes,
          with_user_row id (patched_row displayName isActive row row (db_clock (w_db w))) w)) /\
  (forall r1 r2 name1 active1 name2 active2,
    patches r1 id name1 active1 -> patches r2 id name2 active2 ->
    exists resp1 resp2, rs_status resp1 = 200%Z /\ rs_status resp2 = 200%Z /\
      rtc (server_step PatchKey environment) (MkServer w ∅ (<[0 := PatchKey r1]> {[1 := PatchKey r2]}))
        (MkServer (with_user_row id (patched_row name2 active2 row row (db_clock (w_db w))) w) ∅
          (<[0 := Ret resp1]> {[1 := Ret resp2]}))).
Proof.
  intros Hinv Hf Hrow. split; intros *; [by apply patch_alone|by apply patch_overlap].
Qed.

(** An administrator revokes a key while another renames it: the key stays active. *)
Definition sample_patch (field value : string) : Request :=
  MkRequest "PATCH" "/api/management/keys/u1" "/api/management/keys/u1" "localhost" "10.0.0.1:4000" false
    {["id" := "u1"]} ∅ ∅ 0
    [MkRead ("{" +:+ String quote_byte (field +:+ String quote_byte (":" +:+ value +:+ "}"))) (Some EOF)] None "".
Definition sample_revoke : Request := sample_patch "is_active" "false".
Definition sample_rename : Request :=
  sample_patch "display_name" (String quote_byte ("Kim" +:+ String quote_byte "")).

Definition sample_key_world : World := MkWorld sample_bootstrap sample_os None.

Lemma PatchKey_spec_witness :
  exists row resp1 resp2 w,
    t_users (tables sample_key_world) !! "u1" = Some row /\ ur_is_active row = true /\
    rs_status resp1 = 200%Z /\ rs_status resp2 = 200%Z /\
    rtc (server_step PatchKey environment)
      (MkServer sample_key_world ∅ (<[0 := PatchKey sample_revoke]> {[1 := PatchKey sample_rename]}))
      (MkServer w ∅ (<[0 := Ret resp1]> {[1 := Ret resp2]})) /\
    ur_is_active <$> (t_users (tables w) !! "u1") = Some true.
Proof.
  destruct (t_users (tables sample_key_world) !! "u1") as [row|] eqn:E; [|by vm_compute in E].
  assert (Hinv : db_inv (tables sample_key_world)).
  { apply (wp_run _ (fun _ s' => db_inv (db_tables s')) _ _ _ (surjective_pairing _)
      (write_op_inv _ (op_create_first_user sample_user) (MkDb empty_tables 0 [])
        (conj empty_tables_wf (map_Forall_empty _)))). }
  assert (Hr : patches sample_revoke "u1" None (Some false)) by (split; [done|]; split; vm_compute; reflexivity).
  assert (Hn : patches sample_rename "u1" (Some "Kim") None) by (split; [done|]; split; vm_compute; reflexivity).
  assert (Hactive : ur_is_active row = true) by (vm_compute in E; by injection E as <-).
  destruct (proj2 (PatchKey_spec sample_key_world "u1" row Hinv eq_refl E) _ _ _ _ _ _ Hr Hn)
    as (resp1 & resp2 & H1 & H2 & Hrun).
  exists row, resp1, resp2. eexists. split; [done|]. split; [exact Hactive|]. split; [exact H1|]. split; [exact H2|].
  split; [exact Hrun|]. unfold with_user_row, tables, with_users, set_tables. cbn [w_db db_tables t_users].
  rewrite lookup_insert_eq. cbn. by rewrite Hactive.
Defined.
