(* ===== verification/AccessSpec.v ===== *)
(** * Who may act: the guarded routes and the open ones

    What the middleware of [cmd/server/router.go] promises: an effect of a request on
    a guarded route, or an answer that is not an error, shows that the request carried
    the credentials of an active user; on an admin route, of an administrator. And what
    the routes without middleware do: public reads and share links give out exactly what
    was signed or shared. *)

From S2P Require Import Prelude GoStrings GoUrl Encoding Hash GoTime Effects Os Sanitize DiskEngine Schema Db Iam Authz ObjectRepo UserRepo BucketRepo GrantRepo ShareLinkRepo Prog CachedBucketRepo CachedObjectRepo CachedRepo Config Signer S3Http S3Xml S3Access S3Objects S3Public S3Dispatch SigV4 SigV4Spec SigV4Exact SigV4Presign Auth AuthSpec GoNet Json MgmtHttp MgmtBuckets MgmtGrants App Integrity IntegrityApp ObjectStore.

#[local] Open Scope Z_scope.

(** The user of a row. *)
Definition bearer_principal (id : string) (row : UserRow) : Principal :=
  MkPrincipal id (ur_display_name row) (ur_access_key_id row) (ur_role row) false "" "".

(** The bearer token of an active user: its key, and a secret with the stored hash. *)
Definition holds_token (r : Request) (t : Tables) (p : Principal) : Prop :=
  exists id row scheme secret, p = bearer_principal id row /\
    fields (header_get (rq_header r) "Authorization") = [scheme; ur_access_key_id row +:+ "." +:+ secret] /\
    equal_fold scheme "Bearer" = true /\ secret <> "" /\
    t_users t !! id = Some row /\ ur_is_active row = true /\
    hex_decode (ur_secret_hash row) = Some (sha256_sum secret).

(** A request carries the credentials of [p]: the bearer token of an active user, or an
    authentic signature. *)
Definition credentials (r : Request) (now : time) (t : Tables) (p : Principal) : Prop :=
  holds_token r t p \/ authentic r now t p.

(** The tables, the clock and the files of a world; a cache that agrees with the tables
    still does. *)
Definition unchanged (w w' : World) : Prop :=
  tables w' = tables w /\ db_clock (w_db w') = db_clock (w_db w) /\ os_files (w_os w') = os_files (w_os w) /\
  (quiet_cache w -> quiet_cache w').

Lemma read_unchanged w w' : read_only w w' -> unchanged w w'.
Proof. intros [Et Ec Eo Hc _]. split_and!; [done|done|by rewrite Eo|done]. Qed.

(** A call of the database that changes neither its tables nor its clock. *)
Lemma db_unchanged w d : db_tables d = tables w -> db_clock d = db_clock (w_db w) -> unchanged w (MkWorld d (w_os w) (w_cache w)).
Proof. intros Et Ec. split_and!; [done|done|done|]. simpl. by rewrite Et. Qed.

Lemma unchanged_refl w : unchanged w w.
Proof. done. Qed.

Lemma unchanged_trans w1 w2 w3 : unchanged w1 w2 -> unchanged w2 w3 -> unchanged w1 w3.
Proof. unfold unchanged. intros (E1 & E2 & E3 & C1) (E4 & E5 & E6 & C2). split_and!; [congruence..|auto]. Qed.

(** ** The authenticators *)

Definition attests (r : Request) (s : Db) (res : result AuthResult) (s' : Db) : Prop :=
  db_tables s' = db_tables s /\ db_clock s' = db_clock s /\
  forall p, res = Ok (inr p) -> credentials r (db_clock s) (db_tables s) p.

Lemma wp_bearer r s : wp (BearerAuthenticate r) (attests r s) s.
Proof.
  unfold BearerAuthenticate. destruct (String.eqb _ ""); [done|].
  destruct (fields _) as [|scheme [|token [|]]] eqn:Ef; cbv beta iota zeta; [done|by destruct (negb _)| |by destruct (negb _)].
  destruct (equal_fold scheme "Bearer") eqn:Es; [|done]. cbn [negb].
  destruct (cut token ".") as [[key secret] found] eqn:Ec.
  destruct (negb found || String.eqb key "" || String.eqb secret "") eqn:Ee; [done|].
  rewrite !orb_false_iff, negb_false_iff, !String.eqb_neq in Ee. destruct Ee as [[-> Hk] Hs].
  apply wp_bind, wp_attempt. unfold UserRepository.GetByAccessKeyID. apply wp_bind, wp_query; [done|]. intros fs.
  destruct (UserRepository.find_user _ _) as [[id row]|] eqn:Eu; [|done]. apply wp_ret.
  destruct (verifySecret _ _) eqn:Ev; cbn [negb]; [|done]. destruct (us_is_active _) eqn:Ea; cbn [negb]; [|done].
  apply wp_ret. split; [done|]. split; [done|]. intros p [= <-].
  apply find_user_some in Eu as [Hrow Hkey%String.eqb_eq]. apply cut_spec in Ec as [_ ->].
  subst key. left. exists id, row, scheme, secret. split_and!; try done.
  unfold verifySecret in Ev. destruct (hex_decode _) as [h|] eqn:Eh; [|done]. by apply String.eqb_eq in Ev as ->.
Qed.

Lemma wp_sigv4 r s : wp (SigV4Authenticate r) (attests r s) s.
Proof.
  apply (wp_mono _ (fun res s' => verdict r s res s' /\ db_clock s' = db_clock s)).
  - apply wp_and; [apply wp_SigV4Authenticate|].
    assert (Hk : keeps (fun s' => db_clock s' = db_clock s) (SigV4Authenticate r)); [|by apply Hk].
    assert (Hq : forall A (q : Tables -> A), keeps (fun s' => db_clock s' = db_clock s) (query q))
      by (intros A q s' Hs'; by apply wp_query).
    unfold SigV4Authenticate, authenticateHeader, authenticateQuery, sigv4_user, UserRepository.GetBySigV4AccessKeyID.
    keeps_steps; first [apply Hq | by intros s'].
  - intros res s' [[Ht Hp] Hc]. split; [done|]. split; [done|]. intros p ->. by right.
Qed.

(** A chain of authenticators that attest: its principal has shown credentials. *)
Definition attesting (chain : list (Request -> M Db AuthResult)) : Prop :=
  Forall (fun a => forall r s, wp (a r) (attests r s) s) chain.

Lemma newAuthChain_attesting : attesting (newAuthChain false).
Proof.
  apply Forall_cons_2; [intros r s; apply wp_bearer|]. apply Forall_cons_2; [intros r s; apply wp_sigv4|apply Forall_nil_2].
Qed.

Lemma chain_attests chain r w :
  attesting chain ->
  pwp (ChainAuthenticate chain r) (fun res w' => unchanged w w' /\
    forall p, res = inr p -> credentials r (db_clock (w_db w)) (tables w) p) w.
Proof.
  intros Hc. unfold ChainAuthenticate. generalize (@None AuthError). revert w.
  induction Hc as [|a rest Ha Hrest IH]; intros w err; cbn [chain_loop].
  { destruct err; [|destruct (negb _)]; by apply pwp_ret. }
  apply pwp_call_bind, wp_db. eapply wp_mono; [apply Ha|]. intros res d (Ht & Hck & Hp).
  assert (Hloop : forall err', pwp (chain_loop rest r err') (fun res w' => unchanged w w' /\
            forall p, res = inr p -> credentials r (db_clock (w_db w)) (tables w) p) (MkWorld d (w_os w) (w_cache w))).
  { intros err'. eapply pwp_mono; [apply IH|]. cbv beta. simpl. rewrite Ht, Hck. intros res' w' [Hu Hres].
    split; [|done]. eapply unchanged_trans; [|exact Hu]. by apply db_unchanged. }
  destruct res as [[aerr|p]|err']; [destruct aerr; apply Hloop| |apply Hloop].
  apply pwp_ret. split; [by apply db_unchanged|]. intros p' [= <-]. by apply Hp.
Qed.

(** ** The guarded routes *)

(** Nothing has changed, and the answer is an error. *)
Definition refused (w : World) (resp : Response) (w' : World) : Prop :=
  unchanged w w' /\ 400 <= rs_status resp.

(** The request has been refused, or it carries credentials of [p] with [P]. *)
Definition guarded (P : Principal -> Prop) (r : Request) (w : World) (resp : Response) (w' : World) : Prop :=
  refused w resp w' \/ exists p, credentials r (db_clock (w_db w)) (tables w) p /\ P p.

Lemma guarded_authentication chain onError (next : Handler) P r w :
  attesting chain -> (forall r err, 400 <= rs_status (onError r err)) ->
  (forall p w', unchanged w w' -> P p \/ pwp (next (with_principal p r)) (refused w') w') ->
  pwp (RequireAuthentication chain onError next r) (guarded P r w) w.
Proof.
  intros Hc He Hn. unfold RequireAuthentication. apply pwp_bind. eapply pwp_mono; [by apply chain_attests|]. cbv beta.
  intros [err|p] w' [Hu Hp].
  - apply pwp_ret. left. split; [done|apply He].
  - destruct (Hn p w' Hu) as [HP|Href].
    + apply pwp_intro. intros resp w'' _. right. exists p. split; [by apply Hp|done].
    + eapply pwp_mono; [exact Href|]. intros resp w'' [Hu' Hs]. left. split; [by eapply unchanged_trans|done].
Qed.

Lemma WriteAuthError_status r err : 400 <= rs_status (WriteAuthError r err).
Proof. by destruct err. Qed.

Lemma writeS3AuthError_status r err : 400 <= rs_status (writeS3AuthError r err).
Proof. by destruct err. Qed.

(** ** Buckets: an admin, or the owner *)

(** [p] administers the bucket that the request names. *)
Definition administers (t : Tables) (r : Request) (p : Principal) : Prop :=
  p_role p = RoleAdmin \/
  exists row, t_buckets t !! trim_space (url_param r "bucket") = Some row /\ br_owner_id row = p_user_id p.

#[export] Instance administers_dec t r p : Decision (administers t r p).
Proof.
  unfold administers. apply or_dec; [apply _|].
  destruct (t_buckets t !! _) as [row|]; [|right; by intros (row & ? & _)].
  destruct (decide (br_owner_id row = p_user_id p)); [left; by exists row|right; by intros (? & [= <-] & ?)].
Defined.

Section Admin.
Context `{Rounds}.

Lemma load_refuses r p w :
  quiet_cache w -> rq_principal r = Some p -> ~ administers (tables w) r p ->
  pwp (loadBucketForGrantAdmin r) (fun res w' => exists resp, res = inl resp /\ refused w resp w') w.
Proof.
  intros Hq Hp Hn. unfold loadBucketForGrantAdmin. destruct (String.eqb _ ""); [apply pwp_ret; by eexists|].
  apply pwp_bind. eapply pwp_mono; [by apply (pwp_GetByName rounds)|]. cbv beta. intros res w' [Hr%read_unchanged Ha].
  assert (Href : forall resp, 400 <= rs_status resp -> exists resp', @inl _ Bucket resp = inl resp' /\ refused w resp' w')
    by (intros resp Hs; by eexists).
  destruct Ha as [->|[_ ->]]; [|by apply pwp_ret, Href]. unfold bucket_answer.
  destruct (t_buckets _ !! _) as [row|] eqn:Erow; [|by apply pwp_ret, Href]. rewrite Hp.
  destruct (String.eqb_spec (p_role p) RoleAdmin) as [E|_]; [destruct Hn; by left|].
  destruct (String.eqb_spec (b_owner_id (BucketRepository.scanBucket (trim_space (url_param r "bucket")) row)) (p_user_id p))
    as [E|_]; [destruct Hn; right; by exists row|]. by apply pwp_ret, Href.
Qed.

(** A handler that starts with the check refuses. *)
Lemma checked_refuses (k : Bucket -> prog World Response) r p w :
  quiet_cache w -> rq_principal r = Some p -> ~ administers (tables w) r p ->
  pwp (respond (loadBucketForGrantAdmin r) k) (refused w) w.
Proof.
  intros Hq Hp Hn. unfold respond. apply pwp_bind. eapply pwp_mono; [by eapply load_refuses|].
  intros res w' (resp & -> & Hr). by apply pwp_ret.
Qed.
End Admin.

Section Routes.
Context `{Cwd} `{Uuid} `{Random} `{XmlDecoder} `{MediaTypes} `{Rounds} (a : app).

Lemma grantRoutes_refuse : Forall (fun x => x.1.2 = "/grants/me" \/
  forall r p w, quiet_cache w -> rq_principal r = Some p -> ~ administers (tables w) r p -> pwp (x.2 r) (refused w) w) (grantRoutes a).
Proof.
  repeat apply Forall_cons_2; [..|apply Forall_nil_2]; first [by left | right; intros r p w; apply checked_refuses].
Qed.

(** Who may be served on a guarded route. *)
Definition may_be_served (route : AppRoute) (t : Tables) (r : Request) (p : Principal) : Prop :=
  match route with
  | ManagementRoute pattern =>
      p_role p = RoleAdmin \/ pattern = "/grants/me" \/
      (is_Some (find_route (grantRoutes a) (rq_method r) pattern) /\ administers t r p)
  | _ => True
  end.

(** The routes that ask for no credentials. *)
Definition open_route (route : AppRoute) : bool :=
  match route with
  | HealthRoute _ | SetupRoute _ | S3Route PublicRoute | S3Route ShareRoute => true
  | _ => false
  end.

Lemma managementRoutes_guarded pattern r w :
  cf_dev_mode (ap_config a) = false -> quiet_cache w ->
  pwp (managementRoutes a pattern r) (guarded (may_be_served (ManagementRoute pattern) (tables w) r) r w) w.
Proof.
  intros Hdev Hq. unfold managementRoutes, chain. rewrite Hdev.
  apply guarded_authentication; [apply newAuthChain_attesting|apply WriteAuthError_status|].
  intros p w' (Et & _ & _ & Hq'). change (rq_method (with_principal p r)) with (rq_method r). cbn [may_be_served].
  destruct (find_route (grantRoutes a) (rq_method r) pattern) as [handler|] eqn:Eg.
  - unfold find_route in Eg. apply fmap_Some in Eg as ([[m pat] hd] & Ef & ->).
    apply find_some in Ef as [Hin [_ Epat%String.eqb_eq]%andb_true_iff]. simpl in Epat. subst pat.
    apply list_elem_of_In in Hin. pose proof grantRoutes_refuse as Hr. rewrite Forall_forall in Hr.
    destruct (Hr _ Hin) as [Eme|Href]; [left; by right; left|].
    destruct (decide (administers (tables w) r p)) as [Ha|Hn]; [left; by right; right|].
    right. apply (Href _ p); [by apply Hq'|done|]. rewrite Et. exact Hn.
  - destruct (String.eqb_spec (p_role p) RoleAdmin) as [E|Hne]; [left; by left|right].
    destruct (find_route (adminRoutes a) _ _); [|by apply pwp_ret]. unfold RequireRole. cbn [rq_principal with_principal].
    apply String.eqb_neq in Hne. rewrite Hne. by apply pwp_ret.
Qed.

(** Credentials do not depend on the id of the request. *)
Lemma credentials_id id r now t p : credentials (with_request_id id r) now t p -> credentials r now t p.
Proof.
  intros [Ht|(c & user & Hc & Hs & Hp)]; [by left|right]. exists c, user. split; [|done].
  destruct Hc; [by eapply header_claims|by eapply query_claims].
Qed.

Lemma s3Routes_guarded route r w :
  cf_dev_mode (ap_config a) = false -> open_route (S3Route route) = false ->
  pwp (s3Routes a route r) (guarded (fun _ => True) r w) w.
Proof.
  intros Hdev Hopen. unfold s3Routes. destruct (route_handler _ _ _) as [handler|]; [|apply pwp_ret; by left].
  assert (Hg : pwp (S3Headers (RequireAuthentication (chain a) writeS3AuthError handler) r) (guarded (fun _ => True) r w) w).
  { unfold S3Headers, newRequestID. cbn [pbind]. apply (pwp_call_bind (os (rand_read 8))).
    apply wp_os. assert (Hk : keeps (fun o => os_files o = os_files (w_os w)) (rand_read 8)).
    { intros o Ho. by apply wp_syscall; intros fs. }
    eapply wp_mono; [by apply Hk|]. cbv beta. intros res o Ho. apply pwp_bind.
    eapply pwp_mono; [apply (guarded_authentication _ _ _ (fun _ => True))|].
    - unfold chain. rewrite Hdev. apply newAuthChain_attesting.
    - apply writeS3AuthError_status.
    - intros p w' _. by left.
    - intros resp w' [[Hu Hs]|(p & Hp & _)]; apply pwp_ret.
      + left. split; [|done]. eapply unchanged_trans; [|exact Hu]. by split_and!.
      + right. exists p. split; [|done]. by eapply credentials_id. }
  destruct route; done || exact Hg.
Qed.
End Routes.

(** C6: nothing happens without credentials. Outside development mode, a request on a
    guarded route - every S3 route but public and shared reads, and all of the
    management API - either changes nothing and is answered with an error, whatever
    calls fail, or it carries the bearer token of an active user or an authentic
    signature; and on the management API that user is an administrator, or owns the
    bucket whose grants or owner the request is about, or asks for their own grants. *)
Theorem guarded_routes_need_credentials `{Cwd} `{Uuid} `{Random} `{XmlDecoder} `{MediaTypes} `{Rounds} a route r w resp w' :
  cf_dev_mode (ap_config a) = false -> quiet_cache w -> open_route route = false ->
  run (newRouter a route r) w = (resp, w') ->
  refused w resp w' \/
  exists p, credentials r (db_clock (w_db w)) (tables w) p /\ may_be_served a route (tables w) r p.
Proof.
  intros Hdev Hq Hopen Hrun. apply (pwp_run _ (guarded (may_be_served a route (tables w) r) r w) _ _ _ Hrun).
  destruct route as [status|path|pattern|route]; [done..| |].
  - by apply managementRoutes_guarded.
  - by apply s3Routes_guarded.
Qed.

(** ** A sample *)

(** With a token that has been issued, the metrics are shown; without it, they are not. *)
Definition guarded_config : Config :=
  MkConfig "127.0.0.1:9000" "" "" false "" 4096 "" "" 0 0 [] 0 0 0 0 0 0.
Definition metrics_request (authorization : string) : Request :=
  MkRequest "GET" "/api/management/metrics" "/api/management/metrics" "localhost" "10.0.0.1:4000" false ∅
    {["Authorization" := [authorization]]} ∅ 0 [] None "".
Definition metrics_served (with_token : bool) : option (app * Request * World * Response * World) :=
  match newApp guarded_config sample_engine 10, run (CreateBearerToken "Alice" RoleAdmin) fresh_world with
  | Ok a, (Ok (issued, _, _), w) =>
      let w := with_cache (ap_cache a) w in
      let r := metrics_request (if with_token then "Bearer " +:+ it_raw_token issued else "Bearer fbsa_00.x") in
      let '(resp, w') := run (newRouter a (ManagementRoute "/metrics") r) w in Some (a, r, w, resp, w')
  | _, _ => None
  end.

Lemma guarded_routes_need_credentials_witness :
  (exists a r w resp w', metrics_served true = Some (a, r, w, resp, w') /\ rs_status resp = 200) /\
  exists a r w resp w', metrics_served false = Some (a, r, w, resp, w') /\ rs_status resp = 401 /\
    (refused w resp w' \/
     exists p, credentials r (db_clock (w_db w)) (tables w) p /\
       may_be_served a (ManagementRoute "/metrics") (tables w) r p).
Proof.
  split.
  - destruct (metrics_served true) as [[[[[a r] w] resp] w']|] eqn:E; [|by vm_compute in E].
    exists a, r, w, resp, w'. split; [reflexivity|].
    assert (Hc : match metrics_served true with Some (_, _, _, resp, _) => rs_status resp = 200 | None => False end)
      by (vm_compute; reflexivity).
    rewrite E in Hc. exact Hc.
  - destruct (metrics_served false) as [[[[[a r] w] resp] w']|] eqn:E; [|by vm_compute in E].
    exists a, r, w, resp, w'. split; [reflexivity|].
    assert (Hc : match metrics_served false with
                 | Some (a, _, _, resp, _) => rs_status resp = 401 /\ cf_dev_mode (ap_config a) = false
                 | None => False end) by (vm_compute; split; reflexivity).
    rewrite E in Hc. destruct Hc as [Hs Hdev]. split; [exact Hs|].
    unfold metrics_served in E. destruct (newApp _ _ _) eqn:Ea; [|discriminate E].
    destruct (run (CreateBearerToken _ _) _) as [[[[issued ?] ?]|] ?]; [|discriminate E]. cbv zeta in E.
    destruct (run (newRouter _ _ _) _) eqn:Er. simplify_eq.
    apply (guarded_routes_need_credentials _ (ManagementRoute "/metrics") _ _ _ _ Hdev) with (3 := Er); [|reflexivity].
    exact (newApp_cache _ _ _ _ _ Ea).
Defined.

(** ** The open routes: reads without credentials *)

(** The bytes of an object are sent exactly to those who are [entitled] to them: with
    nothing changed, whatever fails, a response that is a file is the object in the map
    under a bucket and a key that the request may read, and when nothing fails it is sent. *)
Definition reads_exactly `{Cwd} (store : engine) (entitled : string -> string -> string -> string -> Prop) (w : World)
    (resp : Response) (w' : World) : Prop :=
  unchanged w w' /\
  (no_file resp \/ exists cacheControl disposition b k,
     entitled cacheControl disposition b k /\ sent store cacheControl disposition b k w resp) /\
  (db_faults (w_db w) = [] -> os_faults (w_os w) = [] -> forall cacheControl disposition b k row body,
     entitled cacheControl disposition b k -> objects_of store w !! (b, k) = Some (row, Some body) -> ~ no_file resp).

(** The request carries the signature of its own path, expiry and disposition, and no
    other parameter; the expiry is still to come. *)
Record signed_url `{MediaTypes} (secret : string) (now : time) (r : Request) (disposition : string) : Prop := {
  su_parameters :
    size (rq_query r) = match rq_query r !! responseContentDispositionQuery with Some _ => 3%nat | None => 2%nat end /\
    (exists expires, rq_query r !! "expires" = Some [expires]) /\ (exists signature, rq_query r !! "signature" = Some [signature]);
  su_disposition : parseResponseContentDisposition (rq_query r !! responseContentDispositionQuery) = Some disposition;
  su_signature : exists x, parse_int (trim_space (values_get (rq_query r) "expires")) = Some x /\ now < time_of_unix x /\
    hex_decode (trim_space (values_get (rq_query r) "signature")) =
      Some (hmac_sha256 secret (canonicalString (rq_escaped_path r) x disposition));
}.

(** A user with this role may read the key: an administrator, the owner of the bucket, or
    one to whom an active grant gives it. *)
Definition may_read (t : Tables) (id : string) (role : Role) (b k : string) : Prop :=
  trim_space id <> "" /\
  (role = RoleAdmin \/ trim_space b <> "" /\
     ((exists row, t_buckets t !! b = Some row /\ br_owner_id row = id) \/
      exists gid g, t_grants t !! gid = Some g /\ gr_is_active g = true /\ gr_grantee_user_id g = id /\
        gr_bucket_name g = b /\ gr_action g = ActionGetObject /\ has_prefix k (gr_key_prefix g) = true)).

(** The user who is named may read the object now. *)
Definition creator_may_read (t : Tables) (id b k : string) : Prop :=
  is_Some (t_buckets t !! b) /\
  exists creator, t_users t !! id = Some creator /\ ur_is_active creator = true /\ may_read t id (ur_role creator) b k.

(** A share link that has not expired, whose creator is active and may still read. *)
Definition active_link (t : Tables) (now : time) (code : string) (link : ShareLinkRow) : Prop :=
  code <> "" /\ t_links t !! code = Some link /\ (forall expiry, lr_expires_at link = Some expiry -> now < expiry) /\
  creator_may_read t (lr_created_by link) (lr_bucket_name link) (lr_object_key link).

Section Open.
Context `{Cwd} `{UL : UuidLaws} `{MediaTypes} `{Rounds} (h : ObjectHandlers) (We : wf_engine (h_storage h)).

Lemma signature_checked r w :
  pwp (validatePublicReadSignature h r) (fun res w' => w' = w /\
    match res with
    | inr disposition => exists secret, h_signing_secret h = Some secret /\ signed_url secret (db_clock (w_db w)) r disposition
    | inl resp => no_file resp /\ forall secret disposition, h_signing_secret h = Some secret ->
        ~ signed_url secret (db_clock (w_db w)) r disposition
    end) w.
Proof.
  unfold validatePublicReadSignature. destruct (h_signing_secret h) as [secret|] eqn:Es; [|by apply pwp_ret].
  destruct (parseResponseContentDisposition _) as [disposition|] eqn:Ed.
  2: { apply pwp_ret. split_and!; [done..|]. intros s d _ [_ E _]. by rewrite Ed in E. }
  set (n := match rq_query r !! _ with Some _ => _ | None => _ end).
  destruct (negb (Nat.eqb (size (rq_query r)) n) || _ || _) eqn:Ec.
  { apply pwp_ret. split_and!; [done..|]. intros s d _ [(Hn & [e He] & [sg Hs]) _ _].
    rewrite He, Hs, Hn, Nat.eqb_refl in Ec. done. }
  apply pwp_bind. eapply pwp_mono; [apply pwp_now|]. cbv beta. intros now_ w' [-> ->].
  pose proof (Verify_accepts secret (db_clock (w_db w)) (rq_escaped_path r) (values_get (rq_query r) "expires") disposition
    (values_get (rq_query r) "signature")) as Hv.
  rewrite !orb_false_iff, !negb_false_iff, Nat.eqb_eq in Ec. destruct Ec as [[Hn He] Hs].
  destruct (Verify _ _ _ _ _ _) as [[]|err] eqn:Ev.
  - apply pwp_ret. split; [done|]. exists secret. split; [done|]. split; [|done|by apply Hv].
    split; [exact Hn|]. split; repeat case_match; try done; by eexists.
  - apply pwp_ret. split_and!; [done..|]. intros s d [= <-] [_ Ed' Hx]. rewrite Ed in Ed'. injection Ed' as <-.
    apply Hv in Hx. done.
Qed.

(** *** Public reads *)

Lemma publicCacheControl_same r w : pwp (publicCacheControl r) (fun _ w' => w' = w) w.
Proof.
  unfold publicCacheControl. destruct (parse_int _); [|by apply pwp_ret]. apply pwp_bind.
  eapply pwp_mono; [apply pwp_now|]. cbv beta. intros now_ w' [_ ->]. destruct (_ <=? _); by apply pwp_ret.
Qed.

(** Serving a row that has been read. *)
Lemma served_exactly entitled r b k row cacheControl disposition failed w w1 :
  integral (h_storage h) w -> read_only w w1 -> t_objects (tables w) !! (b, k) = Some row -> (forall err, no_file (failed err)) ->
  entitled cacheControl disposition b k ->
  (forall c d b' k', entitled c d b' k' -> b' = b /\ k' = k) ->
  pwp (serveObject h r (ObjectRepository.scanObject b k row) cacheControl disposition failed)
    (reads_exactly (h_storage h) entitled w) w1.
Proof.
  intros Hi Hr Hrow Hfail Hent Huniq. pose proof (integral_files_below h w Hi) as Hb.
  assert (Hf : frame h (os_uuids (w_os w)) w w1) by by apply read_frame.
  assert (Eo : objects_of (h_storage h) w1 = objects_of (h_storage h) w) by by eapply frame_objects.
  assert (Hb1 : files_below (os_uuids (w_os w)) w1) by by eapply frame_files_below.
  assert (Hsound := pwp_serveObject h We r _ b k row cacheControl disposition failed w1 Hb1 ltac:(by rewrite (ro_tables _ _ Hr)) Hfail).
  apply pwp_intro. intros resp w' E. apply (pwp_run _ _ _ _ _ E) in Hsound.
  destruct Hsound as (Ed & Ec & [Hfiles _] & Hsent). split; [|split].
  - eapply unchanged_trans; [by apply read_unchanged|]. split; [by rewrite Ed|]. split; [by rewrite Ed|].
    split; [apply map_eq; intros p; apply Hfiles; tauto|]. by rewrite Ed, Ec.
  - destruct Hsent as [?|(row' & body & Hobj & ->)]; [by left|]. right. exists cacheControl, disposition, b, k.
    split; [done|]. exists row', body. by rewrite <- Eo.
  - intros Hdb Hos c d b' k' row' body Hent' Hobj. destruct (Huniq _ _ _ _ Hent') as [-> ->].
    assert (row' = row) as ->.
    { unfold objects_of in Hobj. rewrite lookup_fmap, Hrow in Hobj. by injection Hobj. }
    assert (Hfound := serveObject_found h We r _ b k row body cacheControl disposition failed w1 Hb1
              ltac:(by rewrite (ro_os _ _ Hr)) ltac:(by rewrite Eo)).
    apply (pwp_run _ _ _ _ _ E) in Hfound as [_ ->]. by intros [].
Qed.

Lemma withheld (entitled : string -> string -> string -> string -> Prop) w resp w1 :
  read_only w w1 -> no_file resp ->
  (db_faults (w_db w) = [] -> forall c d b k row body,
     entitled c d b k -> objects_of (h_storage h) w !! (b, k) <> Some (row, Some body)) ->
  reads_exactly (h_storage h) entitled w resp w1.
Proof.
  intros Hr Hn Hno. split; [by apply read_unchanged|]. split; [by left|].
  intros Hdb _ c d b k row body He Ho. by destruct (Hno Hdb c d b k row body He).
Qed.

(** The object of a bucket and a key, when the request is entitled to nothing else. *)
Lemma object_read_exactly (entitled : string -> string -> string -> string -> Prop) b k (serve : Object -> prog World Response)
    (missing internal : Response) w w0 :
  read_only w w0 -> no_file missing -> no_file internal ->
  (forall c d b' k', entitled c d b' k' -> b' = b /\ k' = k) ->
  (forall row w1, read_only w w1 -> t_objects (tables w) !! (b, k) = Some row ->
     pwp (serve (ObjectRepository.scanObject b k row)) (reads_exactly (h_storage h) entitled w) w1) ->
  pwp (obj <~ CachedObjectRepository.GetByKey b k ;;
       match obj with
       | Err ErrObjectNotFound => Ret missing
       | Err _ => Ret internal
       | Ok obj => serve obj
       end) (reads_exactly (h_storage h) entitled w) w0.
Proof.
  intros Hr0 Hmiss Hint Huniq Hserve. apply pwp_bind.
  eapply pwp_mono; [apply (pwp_GetByKey rounds), Hr0|]. cbv beta. intros res w1 [Hr1 Ha].
  assert (Hr : read_only w w1) by by eapply read_only_trans.
  unfold answers, object_answer in Ha. rewrite (ro_tables _ _ Hr0) in Ha.
  destruct (t_objects (tables w) !! (b, k)) as [row|] eqn:Erow.
  - destruct Ha as [->|[Hf ->]]; [by apply Hserve|]. apply pwp_ret, withheld; [done..|].
    intros Hdb. by rewrite (ro_db _ _ Hr0) in Hf.
  - destruct Ha as [->|[Hf ->]]; apply pwp_ret, withheld; try done; intros Hdb; [|by rewrite (ro_db _ _ Hr0) in Hf].
    intros c d b' k' row body He. destruct (Huniq _ _ _ _ He) as [-> ->]. unfold objects_of. by rewrite lookup_fmap, Erow.
Qed.

(** What a signed URL entitles to. *)
Definition signed_read (secret : string) (r : Request) (now : time) (_ disposition b k : string) : Prop :=
  secret <> "" /\ signed_url secret now r disposition /\ objectRouteParams r = (b, k).

Context (secret : string) (Hsecret : h_signing_secret h = if String.eqb secret "" then None else Some secret).

Lemma PublicReadObject_exactly r w :
  integral (h_storage h) w -> quiet_cache w ->
  pwp (PublicReadObject h r) (reads_exactly (h_storage h) (signed_read secret r (db_clock (w_db w))) w) w.
Proof using Hsecret UL We.
  intros Hi Hq. unfold PublicReadObject. apply pwp_respond. eapply pwp_mono; [apply signature_checked|]. cbv beta.
  assert (Hr := read_only_refl w Hq). intros [resp|disposition] w' [-> Hsig].
  { destruct Hsig as [Hn Hno]. apply withheld; [done..|]. intros _ c d b k row body (Hs & Hurl & _).
    apply String.eqb_neq in Hs. rewrite Hs in Hsecret. by destruct (Hno secret d Hsecret). }
  assert (Hurl : secret <> "" /\ signed_url secret (db_clock (w_db w)) r disposition).
  { destruct Hsig as (s & Es & Hurl). rewrite Hsecret in Es. destruct (String.eqb_spec secret ""); [done|]. by injection Es as <-. }
  destruct (objectRouteParams r) as [b k] eqn:Ep.
  destruct (String.eqb b "" || String.eqb k "") eqn:Eempty.
  { apply pwp_ret, withheld; [done..|]. intros _ c d b' k' row body (_ & _ & Ep') Ho. rewrite Ep in Ep'. injection Ep' as <- <-.
    unfold objects_of in Ho. rewrite lookup_fmap in Ho. apply fmap_Some in Ho as (row' & Hrow & _).
    destruct (fb_file _ _ (integral_files_below h w Hi) _ _ _ Hrow) as (_ & _ & _ & (Hb & _) & _).
    apply orb_true_iff in Eempty as [E%String.eqb_eq|E%String.eqb_eq]; subst; [done|by apply (it_key _ _ Hi) in Hrow]. }
  apply (object_read_exactly (signed_read secret r (db_clock (w_db w))) b k); [done..| |].
  { intros c d b' k' (_ & _ & Ep'). rewrite Ep in Ep'. by injection Ep' as <- <-. }
  intros row w1 Hr1 Hrow. apply pwp_bind. eapply pwp_mono; [apply publicCacheControl_same|]. cbv beta. intros cacheControl w2 ->.
  apply served_exactly; try done; [by destruct Hurl|]. intros c d b' k' (_ & _ & Ep'). rewrite Ep in Ep'. by injection Ep' as <- <-.
Qed.

(** *** Share links *)

Context (Hauthz : h_authz h = Some (NewAuthzEvaluator true)) (Hlinks : h_share_links h = true).

Lemma grant_gives t id b k owner role :
  any_grant_allows (authz_grant <$> GrantRepository.select_grants (fun g =>
      String.eqb (gr_grantee_user_id g) id && String.eqb (gr_bucket_name g) b && gr_is_active g) t)
    (MkDecisionRequest (MkPrincipal id "" "" role false "" "") ActionGetObject b k "" owner) = true <->
  exists gid g, t_grants t !! gid = Some g /\ gr_is_active g = true /\ gr_grantee_user_id g = id /\
    gr_bucket_name g = b /\ gr_action g = ActionGetObject /\ has_prefix k (gr_key_prefix g) = true.
Proof.
  rewrite any_grant_allows_spec. unfold grant_permits. cbn [dr_action dr_object_key]. split.
  - intros (ag & (g & -> & (row & Hrow & Hp & ->)%GrantSpec.elem_of_select_grants)%list_elem_of_fmap & Ha & Hact & Hpre).
    rewrite decide_False in Hpre by done. rewrite !andb_true_iff, !String.eqb_eq in Hp. destruct Hp as [[Hid Hb] _]. by exists (g_id g), row.
  - intros (gid & g & Hg & Ha & Hid & Hb & Hact & Hpre). exists (authz_grant (GrantRepository.scanGrant gid g)).
    split; [|by rewrite decide_False].
    apply list_elem_of_fmap. eexists. split; [reflexivity|]. apply GrantSpec.elem_of_select_grants. exists g. split; [done|].
    by rewrite Hid, Hb, Ha, !String.eqb_refl.
Qed.

Lemma creator_allowed id role b k row w :
  quiet_cache w -> t_buckets (tables w) !! b = Some row ->
  pwp (call (Allow (evaluator h)
        (MkDecisionRequest (MkPrincipal id "" "" role false "" "") ActionGetObject b k "" (br_owner_id row))))
    (fun res w' => read_only w w' /\ match res with
       | Ok allowed => allowed = true <-> may_read (tables w) id role b k
       | Err _ => db_faults (w_db w) <> []
       end) w.
Proof.
  intros Hq Hrow.
  assert (Hro := pwp_Allow h (or_intror (ex_intro _ true Hauthz))
    (MkDecisionRequest (MkPrincipal id "" "" role false "" "") ActionGetObject b k "" (br_owner_id row)) w Hq).
  split; [exact Hro|]. clear Hro. unfold may_read, evaluator. rewrite Hauthz, run_call. unfold Allow.
  cbn [dr_principal dr_action dr_bucket dr_bucket_owner_id p_user_id p_role default from_option ev_grants NewAuthzEvaluator negb].
  change (String.eqb ActionGetObject "") with false. change (String.eqb ActionGetObject ActionCreateBucket) with false.
  change (String.eqb ActionGetObject ActionDeleteBucket) with false. cbv iota.
  destruct (String.eqb_spec (trim_space id) "") as [Eid|Hid]; [split; [done|]; by intros [? _]|].
  destruct (String.eqb_spec role RoleAdmin) as [->|Hrole]; [split; [|done]; split; [done|by left]|].
  destruct (String.eqb_spec (trim_space b) "") as [Eb|Hb]; [split; [done|]; by intros [_ [?|[? _]]]|].
  destruct (negb _ && _)%bool eqn:Eo.
  { apply andb_true_iff in Eo as [_ Eo%String.eqb_eq]. split; [|done]. intros _. split; [done|]. right. split; [done|]. left. by exists row. }
  assert (Hown : ~ exists row', t_buckets (tables w) !! b = Some row' /\ br_owner_id row' = id).
  { intros (row' & Hrow' & E). rewrite Hrow in Hrow'. injection Hrow' as <-. rewrite E, String.eqb_refl, andb_true_r in Eo.
    apply negb_false_iff, String.eqb_eq in Eo. by subst. }
  cbn [Datatypes.id ev_grants FuncStore]. unfold bind, db, on, GrantRepository.ListActiveForGranteeBucket. cbn [lens_get lens_db].
  set (rows := GrantRepository.select_grants _).
  assert (Hrows : wp (query rows) (fun res _ => match res with Ok l => l = rows (tables w) | Err _ => db_faults (w_db w) <> [] end) (w_db w)).
  { destruct (decide (db_faults (w_db w) = [])) as [Hf|Hf]; [unfold wp; by rewrite query_run|by apply wp_query]. }
  unfold wp in Hrows. destruct (query rows (w_db w)) as [[l|err] d]; [|done]. cbn in Hrows |- *. subst l. unfold rows.
  rewrite grant_gives. split; [intros Hg; by split; [|right; split; [|right]]|]. intros [_ [?|[_ [?|?]]]]; done.
Qed.

(** A row that is asked for, in the world. *)
Lemma get_row_read {R A} (q : Tables -> option R) (scan : R -> A) missing w :
  quiet_cache w ->
  wp (db (row <- query q ;; match row with Some row => ret (scan row) | None => fail missing end)) (fun res w' => read_only w w' /\
    (res = match q (tables w) with Some row => Ok (scan row) | None => Err missing end \/
     db_faults (w_db w) <> [] /\ res = Err ErrDatabase)) w.
Proof using.
  intros Hq. apply wp_db. eapply wp_mono; [apply wp_get_row|]. cbv beta zeta. intros res d (Et & Ec & Ed & Hres).
  split; [|done]. split; [done|done|done|simpl; by rewrite Et|done].
Qed.

Lemma still_faults w w' : read_only w w' -> db_faults (w_db w') <> [] -> db_faults (w_db w) <> [].
Proof using. intros Hr Hf Hno. by rewrite (ro_db _ _ Hr) in Hf. Qed.

Lemma creatorCanRead_exactly link w :
  quiet_cache w ->
  pwp (creatorCanRead h link) (fun res w' => read_only w w' /\ match res with
    | Ok allowed => allowed = true <-> creator_may_read (tables w) (l_created_by link) (l_bucket_name link) (l_object_key link)
    | Err _ => db_faults (w_db w) <> []
    end) w.
Proof using Hauthz.
  intros Hq. unfold creatorCanRead, creator_may_read. apply pwp_call_bind. eapply wp_mono; [by apply get_row_read|]. cbv beta.
  intros res w1 [Hr1 [->|[Hf ->]]]; [|by apply pwp_ret].
  destruct (t_users (tables w) !! l_created_by link) as [creator|].
  2: { apply pwp_ret. split; [done|]. split; [done|]. by intros (_ & ? & ? & _). }
  cbn [UserRepository.hide_secret UserRepository.scanUser us_is_active us_id us_role].
  destruct (ur_is_active creator) eqn:Ea; cbn [negb].
  2: { apply pwp_ret. split; [done|]. split; [done|]. intros (_ & ? & [= <-] & ? & _). congruence. }
  apply pwp_bind. eapply pwp_mono; [apply (pwp_GetByName rounds), Hr1|]. cbv beta. intros res w2 [Hr2 Hb].
  assert (Hr : read_only w w2) by by eapply read_only_trans.
  unfold bucket_answer, answers in Hb. rewrite (ro_tables _ _ Hr1) in Hb.
  destruct Hb as [->|[Hf ->]]; [|apply pwp_ret; split; [done|]; by apply (still_faults w w1)].
  destruct (t_buckets (tables w) !! l_bucket_name link) as [row|] eqn:Erow.
  2: { apply pwp_ret. split; [done|]. split; [done|]. by intros [[? ?] _]. }
  eapply pwp_mono; [apply (creator_allowed _ _ _ _ row); [apply Hr|by rewrite (ro_tables _ _ Hr)]|]. cbv beta.
  intros res w3 [Hr3 Hres]. split; [by eapply read_only_trans|]. rewrite (ro_tables _ _ Hr) in Hres.
  destruct res as [allowed|]; [|by apply (still_faults w w2)]. rewrite Hres. split.
  - intros Hm. split; [by eexists|]. by exists creator.
  - by intros (_ & ? & [= <-] & _ & ?).
Qed.

Lemma loadActiveShareLink_exactly code w :
  quiet_cache w ->
  pwp (loadActiveShareLink h code) (fun res w' => read_only w w' /\ match res with
    | inr link => exists row, active_link (tables w) (db_clock (w_db w)) code row /\ link = ShareLinkRepository.scanShareLink code row
    | inl resp => no_file resp /\ (db_faults (w_db w) = [] -> forall row, ~ active_link (tables w) (db_clock (w_db w)) code row)
    end) w.
Proof using Hauthz Hlinks.
  intros Hq. unfold loadActiveShareLink, active_link. rewrite Hlinks. cbn [negb orb].
  destruct (String.eqb_spec code "") as [->|Hcode]; [apply pwp_ret; split; [by apply read_only_refl|]; by split; [|intros _ row [? _]]|].
  apply pwp_call_bind. eapply wp_mono; [by apply get_row_read|]. cbv beta.
  intros res w1 [Hr1 [->|[Hf ->]]]; [|by apply pwp_ret].
  destruct (t_links (tables w) !! code) as [row|] eqn:Erow.
  2: { apply pwp_ret. split; [done|]. split; [done|]. by intros _ row (_ & ? & _). }
  apply pwp_bind. eapply pwp_mono; [apply pwp_now|]. cbv beta. intros now_ w2 [-> ->]. rewrite (ro_clock _ _ Hr1).
  destruct (ShareLinkRepository.IsExpired _ _) eqn:Eexp.
  { apply pwp_ret. split; [done|]. split; [done|]. intros _ row' (_ & [= <-] & Hexp & _).
    unfold ShareLinkRepository.IsExpired in Eexp. cbn [ShareLinkRepository.scanShareLink l_expires_at] in Eexp.
    destruct (lr_expires_at row) as [expiry|]; [|done]. apply negb_true_iff, Z.ltb_ge in Eexp. specialize (Hexp expiry eq_refl). lia. }
  apply pwp_bind. eapply pwp_mono; [apply creatorCanRead_exactly, Hr1|]. cbv beta. intros res w2 [Hr2 Hres].
  assert (Hr : read_only w w2) by by eapply read_only_trans. rewrite (ro_tables _ _ Hr1) in Hres.
  destruct res as [[]|err]; apply pwp_ret; (split; [done|]).
  - exists row. split; [|done]. split_and!; [done|done| |by apply Hres]. intros expiry E.
    unfold ShareLinkRepository.IsExpired in Eexp. cbn [ShareLinkRepository.scanShareLink l_expires_at] in Eexp.
    rewrite E in Eexp. by apply negb_false_iff, Z.ltb_lt in Eexp.
  - split; [done|]. intros _ row' (_ & [= <-] & _ & Hm). by apply Hres in Hm.
  - split; [done|]. intros Hf. by destruct (still_faults w w1 Hr1 Hres).
Qed.

(** What a share link entitles to. *)
Definition shared_read (r : Request) (t : Tables) (now : time) (cacheControl disposition b k : string) : Prop :=
  exists link, active_link t now (url_param r "code") link /\ cacheControl = shareLinkCacheControl /\
    disposition = lr_response_content_disposition link /\ b = lr_bucket_name link /\ k = lr_object_key link.

Lemma ShareLinkReadObject_exactly r w :
  integral (h_storage h) w -> quiet_cache w ->
  pwp (ShareLinkReadObject h r) (reads_exactly (h_storage h) (shared_read r (tables w) (db_clock (w_db w))) w) w.
Proof.
  intros Hi Hq. unfold ShareLinkReadObject. apply pwp_respond. eapply pwp_mono; [by apply loadActiveShareLink_exactly|]. cbv beta.
  intros [resp|link] w1 [Hr1 Hlink].
  { destruct Hlink as [Hn Hno]. apply withheld; [done..|]. intros Hf c d b k row body (link & Hl & _). by destruct (Hno Hf link). }
  destruct Hlink as (row & Hl & ->).
  assert (Huniq : forall c d b k, shared_read r (tables w) (db_clock (w_db w)) c d b k -> b = lr_bucket_name row /\ k = lr_object_key row).
  { intros c d b k (link & Hl' & _ & _ & -> & ->). assert (link = row) as ->; [|done].
    destruct Hl as (_ & E & _), Hl' as (_ & E' & _). congruence. }
  apply (object_read_exactly _ (lr_bucket_name row) (lr_object_key row)); [done..|].
  intros orow w2 Hr2 Horow. apply served_exactly; try done. by exists row.
Qed.
End Open.

(** The public route, as newApp wires it. *)
Lemma public_route_exactly `{Cwd} `{UL : UuidLaws} `{Random} `{XmlDecoder} `{MediaTypes} `{Rounds} cfg store fuel a r w :
  newApp cfg store fuel = Ok a -> wf_engine store -> integral store w -> quiet_cache w ->
  rq_method r = "GET" \/ rq_method r = "HEAD" ->
  pwp (newRouter a (S3Route PublicRoute) r)
    (reads_exactly store (signed_read (trim_space (cf_public_read_signing_secret cfg)) r (db_clock (w_db w))) w) w.
Proof.
  intros Ha We Hi Hq Hm. unfold newApp in Ha. destruct (_ && _)%bool; [done|]. injection Ha as <-.
  unfold newRouter, s3Routes, route_handler. cbn [ap_objects].
  assert (Hverb : (String.eqb (rq_method r) "GET" || String.eqb (rq_method r) "HEAD")%bool = true) by by destruct Hm as [-> | ->].
  rewrite Hverb. by apply (PublicReadObject_exactly (MkHandlers store true true true true _ _ _ _)).
Qed.

(** C7: reads without credentials give out what was signed or shared, and nothing else. In
    the server that newApp wires, whatever calls fail, a request on the public route or on
    the route of share links changes nothing, and a file that it answers with is an object
    of the map, with the bytes and headers of its row: on the public route that of the
    path, under an unexpired signature of this very path, expiry and disposition; on the
    other that of a share link which has not expired and whose creator is an active user
    who may read the object now - as an administrator, the bucket's owner or by an active
    grant. When nothing fails, those who are entitled are sent the file. *)
Theorem open_reads_are_entitled `{Cwd} `{UL : UuidLaws} `{Random} `{XmlDecoder} `{MediaTypes} `{Rounds} cfg store fuel a r w :
  newApp cfg store fuel = Ok a -> wf_engine store -> integral store w -> quiet_cache w ->
  rq_method r = "GET" \/ rq_method r = "HEAD" ->
  pwp (newRouter a (S3Route PublicRoute) r)
    (reads_exactly store (signed_read (trim_space (cf_public_read_signing_secret cfg)) r (db_clock (w_db w))) w) w /\
  pwp (newRouter a (S3Route ShareRoute) r)
    (reads_exactly store (shared_read r (tables w) (db_clock (w_db w))) w) w.
Proof.
  intros Ha We Hi Hq Hm. split; [by eapply public_route_exactly|]. unfold newApp in Ha. destruct (_ && _)%bool; [done|].
  injection Ha as <-. unfold newRouter, s3Routes, route_handler. cbn [ap_objects].
  assert (Hverb : (String.eqb (rq_method r) "GET" || String.eqb (rq_method r) "HEAD")%bool = true) by by destruct Hm as [-> | ->].
  rewrite Hverb. by apply (ShareLinkReadObject_exactly (MkHandlers store true true true true _ _ _ _)).
Qed.

(** *** A sample *)

(** In development mode an object is stored and shared under an alias; the server is
    started again, and the object is read through the link and through a signed URL. *)
Definition open_secret : string := "0123456789abcdef0123456789abcdef".
Definition open_config : Config :=
  MkConfig "127.0.0.1:9000" "" "" true "https://files.example.com/" 1048576 "" open_secret hour (24 * hour) [] 0 0 0 0 0 0.
Definition quoted (s : string) : string := quote_str +:+ s +:+ quote_str.
Definition share_body : string :=
  "{" +:+ quoted "bucket" +:+ ":" +:+ quoted "photos" +:+ "," +:+ quoted "key" +:+ ":" +:+ quoted "a" +:+ "," +:+
  quoted "alias" +:+ ":" +:+ quoted "holiday" +:+ "}".
Definition open_events : list AppEvent :=
  take 2 app_events ++ [AppRequest (ManagementRoute "/share-links") (app_request "POST" ∅ [MkRead share_body (Some EOF)])].
Definition open_started : option (app * World) :=
  match newApp open_config sample_engine 10 with
  | Err _ => None
  | Ok a =>
      '(_, w) ← serve_all (ServeApp a) open_events (with_cache (ap_cache a) sample_world);
      Some (a, MkWorld (MkDb (tables w) (time_of_unix 10) []) (w_os w) (ap_cache a))
  end.
Definition open_path : string := "/public/photos/a".
Definition open_request (params : gmap string string) (query : Values) : Request :=
  MkRequest "GET" open_path open_path "localhost" "10.0.0.1:4000" false params ∅ query 0 [] None "".
Definition shared_request : Request := open_request {["code" := "holiday"]} ∅.
Definition public_request : Request :=
  open_request (<["bucket" := "photos"]> {["*" := "a"]})
    (<["expires" := ["1000"]]> {["signature" := [SignPath open_secret open_path (time_of_unix 1000) ""]]}).

Lemma open_reads_are_entitled_witness :
  exists a w, open_started = Some (a, w) /\
    rs_body (run (newRouter a (S3Route PublicRoute) public_request) w).1 = Content "a" 5 (Some "abc") /\
    rs_body (run (newRouter a (S3Route ShareRoute) shared_request) w).1 = Content "a" 5 (Some "abc") /\
    pwp (newRouter a (S3Route PublicRoute) public_request)
      (reads_exactly sample_engine (signed_read open_secret public_request (db_clock (w_db w))) w) w /\
    pwp (newRouter a (S3Route ShareRoute) shared_request)
      (reads_exactly sample_engine (shared_read shared_request (tables w) (db_clock (w_db w))) w) w.
Proof.
  assert (Hc : match open_started with
               | Some (a, w) =>
                   rs_body (run (newRouter a (S3Route PublicRoute) public_request) w).1 = Content "a" 5 (Some "abc") /\
                   rs_body (run (newRouter a (S3Route ShareRoute) shared_request) w).1 = Content "a" 5 (Some "abc")
               | None => False
               end) by (vm_compute; by split_and!).
  unfold open_started in *. destruct (newApp open_config sample_engine 10) as [a|err] eqn:Ea; [|by destruct Hc].
  cbn [mbind option_bind] in *.
  destruct (serve_all (ServeApp a) open_events (with_cache (ap_cache a) sample_world)) as [[resps w]|] eqn:E; [|by destruct Hc].
  assert (Hi : integral sample_engine w).
  { apply (app_invariant sample_engine sample_engine_wf a (newApp_wired _ _ _ _ Ea) (with_cache (ap_cache a) sample_world) ∅
      (MkServer w ∅ ∅)); [by apply integral_with_cache, sample_world_integral|by eapply newApp_cache|by eapply serve_all_steps]. }
  eexists a, _. split; [reflexivity|]. destruct Hc as [H1 H2]. split; [exact H1|]. split; [exact H2|]. split.
  - refine (proj1 (open_reads_are_entitled open_config sample_engine 10 a public_request _ Ea sample_engine_wf _ _ (or_introl eq_refl)));
      [by destruct Hi|by eapply newApp_cache].
  - refine (proj2 (open_reads_are_entitled open_config sample_engine 10 a shared_request _ Ea sample_engine_wf _ _ (or_introl eq_refl)));
      [by destruct Hi|by eapply newApp_cache].
Defined.

(** ** Public URLs open what they were issued for *)























(** *** A sample *)




