(* ===== verification/Startup.v ===== *)
(** * Starting the server: [reconcileStorage] of [cmd/server/app.go]

    The reconciliation composed with the repositories: it removes what an interrupted
    server has left, nothing that a row names, and when it succeeds only files that
    rows name, and files of known uploads, are left. *)

From S2P Require Import Prelude GoStrings Encoding GoPath Effects Os Sanitize DiskEngine Reconcile Schema Db Iam Authz ObjectRepo MultipartRepo Repositories Cache Prog CachedRepo ObjectOps S3Access AuthSpec App Integrity IntegrityApp.

Section Startup.
Context `{Cwd} `{UL : UuidLaws} (store : engine) (We : wf_engine store).

(** The world with other tables. *)
Definition at_tables (t : Tables) (w : World) : World := MkWorld (set_tables t (w_db w)) (w_os w) (w_cache w).

Lemma at_tables_id w : at_tables (tables w) w = w.
Proof. by destruct w as [[] ?]. Qed.

(** What the callbacks return: the storage paths of a bucket, and the uploads. *)
Definition known_of (t : Tables) (b : string) : list string := o_storage_path <$> full_listing b "" "" t.
Definition uploads_of (t : Tables) : list string := (map_to_list (t_uploads t)).*1.

Lemma knownObjects_spec fuel b w :
  wp (knownObjects fuel b) (fun r w' => tables w' = tables w /\ w_os w' = w_os w /\
    forall l, r = Ok l -> l = known_of (tables w) b) w.
Proof.
  unfold knownObjects. apply wp_bind. change (wp (run (ListAllObjects fuel b)) ?Q w) with (pwp (ListAllObjects fuel b) Q w).
  eapply pwp_mono; [apply pwp_list_pages|]. cbv beta. intros [objects|err] w' (E1 & E2 & _ & Hr); [|done].
  apply wp_ret. split; [done|]. split; [done|]. intros l [= <-]. by rewrite (Hr objects eq_refl).
Qed.

Lemma uploads_spec w :
  wp (db MultipartRepository.ListAllUploadIDs) (fun r w' => tables w' = tables w /\ w_os w' = w_os w /\
    forall l, r = Ok l -> l = uploads_of (tables w)) w.
Proof. apply wp_db, wp_query; [done|]. intros fs. split; [done|]. split; [done|]. by intros l [= <-]. Qed.

(** ** The callbacks in a world with the tables [t] *)

Context (t : Tables).
Definition has_tables (w : World) : Prop := tables w = t.

Lemma on_has_tables A (m : M Os A) : keeps has_tables (on m).
Proof. intros w Hw. apply wp_on. by eapply wp_any. Qed.

(** A callback, and what it does with the tables [t], agree. *)
Lemma pinned_agree {A} (m : M World A) :
  (forall w, wp m (fun _ w' => tables w' = tables w) w) -> agree has_tables m (fun w => m (at_tables t w)).
Proof.
  intros Hm. split.
  - intros w Hw. eapply wp_mono; [apply Hm|]. intros r w' E. unfold has_tables. by rewrite E.
  - intros w <-. by rewrite at_tables_id.
Qed.

Lemma pinned_callback (m : M World (list string)) (f : Tables -> list string) :
  (forall w, wp m (fun r w' => tables w' = tables w /\ w_os w' = w_os w /\ forall l, r = Ok l -> l = f (tables w)) w) ->
  forall w, wp (fun w => m (at_tables t w)) (fun r w' => lens_get w' = lens_get w /\ (forall l, r = Ok l -> l = f t)) w.
Proof. intros Hm w. exact (wp_mono _ _ _ _ (Hm (at_tables t w)) (fun r w' Hr => proj2 Hr)). Qed.

(** The reconciliation, in a world with these tables. *)
Lemma reconcile_run fuel w :
  has_tables w -> wf_os (w_os w) ->
  wp (Reconcile store (knownObjects fuel)) (fun r w' => has_tables w' /\
    reconciled store (known_of t) (w_os w) r (w_os w')) w.
Proof using We.
  intros Hw Ho.
  assert (Hk : forall b, agree has_tables (knownObjects fuel b) (fun w => knownObjects fuel b (at_tables t w))).
  { intros b. apply pinned_agree. intros w'. eapply wp_mono; [apply knownObjects_spec|]. by intros r w'' [? _]. }
  destruct (Reconcile_agree store has_tables on_has_tables _ _ Hk) as [Hkeep Heq].
  apply wp_and; [by apply Hkeep|]. unfold wp. rewrite Heq by done.
  apply (wp_Reconcile store We (known_of t) _ (fun b => pinned_callback _ (fun t => known_of t b) (knownObjects_spec fuel b)) w Ho).
Qed.

Lemma reconcile_uploads_run w :
  has_tables w -> wf_os (w_os w) ->
  wp (ReconcileMultipartTmp store (db MultipartRepository.ListAllUploadIDs)) (fun r w' => has_tables w' /\
    removed (unknown_upload store (uploads_of t)) (w_os w) (w_os w') /\
    (is_ok r = true -> forall up rest, rest <> [] ->
      is_Some (os_files (w_os w') !! (multipart_dir store ++ up :: rest)) -> up ∈ uploads_of t)) w.
Proof using We.
  intros Hw Ho.
  assert (Hk : agree has_tables (db MultipartRepository.ListAllUploadIDs)
                 (fun w => db MultipartRepository.ListAllUploadIDs (at_tables t w))).
  { apply pinned_agree. intros w'. eapply wp_mono; [apply uploads_spec|]. by intros r w'' [? _]. }
  destruct (ReconcileMultipartTmp_agree store has_tables on_has_tables _ _ Hk) as [Hkeep Heq].
  apply wp_and; [by apply Hkeep|]. unfold wp. rewrite Heq by done.
  apply (ReconcileMultipartTmp_spec store We (uploads_of t) _ (pinned_callback _ uploads_of uploads_spec) w Ho).
Qed.
End Startup.

(** ** What is known is in use *)

Section Known.
Context `{Cwd} `{UL : UuidLaws} (store : engine) (We : wf_engine store).

Lemma normalize_object_path b n : normal_seg b -> normalizeKnownObjectPath b (object_path b n) = object_path b n.
Proof.
  intros Hb. unfold normalizeKnownObjectPath, firstPathElement, object_path.
  rewrite !clean_render_rel by (done || by apply object_segs_normal).
  pose proof (split_render_rel [b; uuid_of n] (ltac:(done)) (object_segs_normal b n Hb)) as Es. rewrite Es.
  destruct (String.eqb_spec (render_rel [b; uuid_of n]) ".") as [E|_]; [by rewrite E in Es|].
  destruct (String.eqb_spec (render_rel [b; uuid_of n]) "") as [E|_]; [by rewrite E in Es|].
  cbn [orb]. by rewrite String.eqb_refl.
Qed.

(** A row with a valid key is listed. *)
Lemma valid_key_listed t b k row :
  t_objects t !! (b, k) = Some row -> is_ok (ValidateKey k) = true -> or_storage_path row ∈ known_of t b.
Proof.
  intros Hrow Hk. apply list_elem_of_fmap. exists (ObjectRepository.scanObject b k row). split; [done|].
  apply ObjectListing.elem_of_select_objects. exists row. split; [done|]. split; [|done].
  unfold ObjectRepository.list_condition. cbn [String.eqb orb]. rewrite andb_true_r.
  by destruct k.
Qed.

Lemma known_of_row t b path :
  path ∈ known_of t b -> exists k row, t_objects t !! (b, k) = Some row /\ path = or_storage_path row.
Proof.
  intros Hp. apply list_elem_of_fmap in Hp as (o & -> & Ho).
  apply ObjectListing.elem_of_select_objects in Ho as (row & Hrow & _ & ->). by exists (o_key o), row.
Qed.

(** The files that reconciliation may remove are those that nothing uses. *)
Definition disposable (t : Tables) (p : path) : Prop :=
  stale_tmp store p \/ orphan store (known_of t) p \/ unknown_upload store (uploads_of t) p.

Lemma used_not_disposable U g w r n :
  inv store U g w -> refers (tables w) r n -> r <> RUpload -> ~ disposable (tables w) (ref_file store r n).
Proof.
  intros Hi Hr Hne. destruct r as [b k|up k|]; [| |done]; simpl in *; destruct Hr as (row & Hrow & Hp).
  - assert (Hb : bucket_dir b) by by eapply inv_object_bucket. unfold object_file. intros [[Ht _]|[Ho|(up & _ & Hu)]].
    + apply below_bucket in Ht as [rest E%app_inv_head]. by simplify_eq; destruct Hb.
    + destruct Ho as (b' & rest & _ & _ & [= <- <-]%app_inv_head & Hn). apply Hn. clear Hn.
      apply elem_of_list_to_set, list_elem_of_fmap. exists (object_path b n).
      split; [by rewrite normalize_object_path by apply Hb|]. rewrite <- Hp. apply (valid_key_listed _ b k); [done|].
      by apply (inv_key _ _ _ _ Hi _ _ _ Hrow).
    + unfold multipart_dir in Hu. rewrite <- app_assoc in Hu. apply bool_decide_eq_true in Hu as [rest E].
      rewrite <- app_assoc in E. apply app_inv_head in E. by simplify_eq; destruct Hb.
  - unfold part_file. intros [[_ Ht]|[Ho|(up' & Hup & Hu)]].
    + apply andb_false_iff in Ht as [Ht|Ht]; apply bool_decide_eq_false in Ht; apply Ht.
      * exists [up; part_name k n]. unfold multipart_dir. by rewrite <- app_assoc.
      * unfold multipart_dir. by intros E%app_inv_head.
    + by destruct Ho as (b & rest & Hb & _ & [= <- <-]%app_inv_head & _).
    + unfold multipart_dir in Hu. rewrite <- app_assoc in Hu. apply bool_decide_eq_true in Hu as [rest E].
      rewrite <- app_assoc in E. apply app_inv_head in E. simplify_eq/=. apply Hup.
      destruct (inv_part_upload _ _ _ _ _ _ Hi (ex_intro _ row Hrow)) as [u Hu].
      apply list_elem_of_fmap. eexists (_, u). split; [done|]. by apply elem_of_map_to_list.
Qed.

(** A file that is no orphan is that of a row. *)
Lemma named_file w b rest :
  integral store w -> b <> ".tmp" -> rest <> [] -> Forall normal_seg (b :: rest) ->
  ~ orphan store (known_of (tables w)) (data_segs store ++ b :: rest) ->
  exists k n row, t_objects (tables w) !! (b, k) = Some row /\ or_storage_path row = object_path b n /\
    data_segs store ++ b :: rest = object_file store b n.
Proof.
  intros Hi Hb Hrest Hn Ho.
  destruct (decide (render_rel (b :: rest) ∈ known_paths (known_of (tables w)) b)) as [Hin|Hin].
  2: { destruct Ho. by exists b, rest. }
  apply elem_of_list_to_set, list_elem_of_fmap in Hin as (path & E & (k & row & Hrow & ->)%known_of_row).
  destruct (it_object _ _ Hi _ _ _ Hrow) as (n & _ & Hp & _). exists k, n, row. split; [done|]. split; [done|].
  rewrite Hp, normalize_object_path in E by by apply Forall_cons in Hn as [? _].
  apply render_rel_inj in E; [by rewrite E|done|done|done|]. apply object_segs_normal. by apply Forall_cons in Hn as [? _].
Qed.
End Known.

(** ** The start *)

Section Start.
Context `{Cwd} `{UL : UuidLaws} (store : engine) (We : wf_engine store).

(** Handlers on the store; only the store matters here. *)
Definition store_handlers : ObjectHandlers := MkHandlers store true true true true None "" 0 None.

Lemma integral_removed w w' :
  integral store w -> tables w' = tables w -> removed (disposable store (tables w)) (w_os w) (w_os w') ->
  integral store w'.
Proof using We UL.
  intros Hi Et Hr. apply (integral_with_cache store None).
  apply (integral_with_cache store None), (integral_inv store_handlers) in Hi; [|done]. set (g := fun n r => refers (tables w) r n) in Hi.
  apply (inv_integral store_handlers none g).
  assert (Hi' : inv store none g (MkWorld (w_db w) (w_os w') None)).
  { eapply (inv_disk _ _ _ _ _ (disposable store (tables w)) Hi).
    - split; [apply (rm_frame _ _ _ Hr)|by rewrite (rm_uuids _ _ _ Hr)].
    - apply (rm_wf _ _ _ Hr).
    - intros r n (Hne & [Hu|(x & [] & _)]). exact (used_not_disposable store _ _ (with_cache None w) r n Hi Hu Hne). }
  destruct w' as [d' o' c']. simpl in *. apply (inv_tables store none g (MkWorld (w_db w) o' None) d' Hi').
  - rewrite Et. apply (inv_db _ _ _ _ Hi).
  - rewrite Et. apply same_refs_refl.
Qed.

(** A file below the data directory, at [rest] in its directory [b], that a row stands
    for: the file of an object, or a file in the directory of an upload. *)
Definition accounted (t : Tables) (b : string) (rest : list string) : Prop :=
  (exists k n row, t_objects t !! (b, k) = Some row /\ or_storage_path row = object_path b n /\
     data_segs store ++ b :: rest = object_file store b n) \/
  (b = ".tmp" /\ exists rest', rest = "multipart" :: rest' /\
     forall up part, rest' = up :: part -> part <> [] -> is_Some (t_uploads t !! up)).

(** What the reconciliation does to a world that is integral. *)
Definition reconciled_world (w : World) (r : result unit) (w' : World) : Prop :=
  tables w' = tables w /\ integral store w' /\ os_files (w_os w') ⊆ os_files (w_os w) /\
  (r = Ok tt -> forall b rest, rest <> [] ->
     is_Some (os_files (w_os w') !! (data_segs store ++ b :: rest)) -> accounted (tables w) b rest).

Lemma reconcileStorage_world fuel w : integral store w -> wp (reconcileStorage fuel store) (reconciled_world w) w.
Proof using We UL.
  intros Hi. pose proof (it_tree _ _ Hi) as Ho. unfold reconcileStorage. apply wp_bind.
  eapply wp_mono; [by apply (reconcile_run store We (tables w) fuel w)|]. intros r w1 [E1 [H1 Hok]].
  assert (H1' : removed (disposable store (tables w)) (w_os w) (w_os w1)).
  { eapply removed_weaken; [exact H1|]. intros p [?|?]; [by left|by right; left]. }
  destruct r as [[]|err].
  2: { split; [done|]. split; [by eapply integral_removed|]. split; [apply (rm_files _ _ _ H1)|done]. }
  assert (Ho1 : wf_os (w_os w1)) by by apply (rm_wf _ _ _ H1).
  eapply wp_mono; [by apply (reconcile_uploads_run store We (tables w) w1)|]. intros r w2 (E2 & H2 & Hups).
  assert (H2' : removed (disposable store (tables w)) (w_os w) (w_os w2)).
  { eapply removed_trans; [exact H1'|]. eapply removed_weaken; [exact H2|]. by right; right. }
  split; [exact E2|]. split; [by eapply integral_removed|]. split; [apply (rm_files _ _ _ H2')|]. intros -> b rest Hne Hp.
  assert (Hp1 : is_Some (os_files (w_os w1) !! (data_segs store ++ b :: rest))).
  { destruct Hp as [c Hc]. exists c. by eapply lookup_weaken; [|apply (rm_files _ _ _ H2)]. }
  destruct (Hok eq_refl _ Hp1) as [Horph Htmp]. destruct (decide (b = ".tmp")) as [->|Hb].
  - right. split; [done|]. destruct Htmp as [Hm|Hm].
    + apply below_bucket. by exists rest.
    + unfold multipart_dir in Hm. apply bool_decide_eq_true in Hm as [rest' E]. rewrite <- app_assoc in E.
      apply app_inv_head in E. simplify_eq/=. exists rest'. split; [done|]. intros up part -> Hpart.
      assert (Hup : up ∈ uploads_of (tables w)).
      { apply (Hups eq_refl up part Hpart). unfold multipart_dir. by rewrite <- app_assoc. }
      apply list_elem_of_fmap in Hup as ([? u] & -> & Hu%elem_of_map_to_list). by exists u.
    + apply app_inv_head in Hm. by simplify_eq.
  - left. assert (Hn : Forall normal_seg (b :: rest)).
    { pose proof (wfo_normal _ Ho1 _ (or_introl Hp1)) as Hn. by apply Forall_app in Hn as [_ ?]. }
    eapply named_file; [exact Hi|done..].
Qed.
(** C14: a start cleans up and spares what is stored. Whatever was left behind, and
    whatever fails during the reconciliation, the metadata stays as it is, no file is
    added, and every row keeps its file; when reconcileStorage succeeds, each file that
    is left below a directory of the data directory is that of an object's row, or lies
    in the directory of an upload that exists. *)
Theorem reconcileStorage_spec fuel w :
  integral store w ->
  wp (reconcileStorage fuel store) (fun r w' =>
    tables w' = tables w /\ integral store w' /\ os_files (w_os w') ⊆ os_files (w_os w) /\
    (r = Ok tt -> forall b rest, rest <> [] ->
       is_Some (os_files (w_os w') !! (data_segs store ++ b :: rest)) -> accounted (tables w) b rest)) w.
Proof using We UL. apply reconcileStorage_world. Qed.
End Start.

(** ** A sample start *)

Lemma integral_more_files `{Cwd} `{Uuid} store w o :
  integral store w -> os_files (w_os w) ⊆ os_files o -> os_uuids (w_os w) <= os_uuids o -> wf_os o ->
  integral store (MkWorld (w_db w) o (w_cache w)).
Proof.
  intros Hi Hf Hu Hwf. destruct Hi as [Hs Hb Hk Ho Hp Hup Hd _]. split; try done.
  - intros b k row Hrow. destruct (Ho _ _ _ Hrow) as (n & Hn & Hp' & c & Hc & Hz). exists n. split; [simpl; lia|].
    split; [done|]. exists c. split; [by eapply lookup_weaken|done].
  - intros up k row Hrow. destruct (Hp _ _ _ Hrow) as (n & Hn & Hp' & c & Hc & Hz). exists n. split; [simpl; lia|].
    split; [done|]. exists c. split; [by eapply lookup_weaken|done].
  - intros id Hid. destruct (Hup _ Hid) as (n & Hn & ->). exists n. split; [simpl; lia|done].
Qed.

(** A bucket with an object; then a file is written, and the server dies before its row
    is stored. *)
Definition stored_world : World :=
  match newApp sample_config sample_engine 10 with
  | Err _ => sample_world
  | Ok a => match serve_all (ServeApp a) (take 2 app_events) (with_cache (ap_cache a) sample_world) with Some (_, w) => w | None => sample_world end
  end.
Definition crashed_world : World :=
  MkWorld (w_db stored_world) (Write sample_engine "photos" "b" sample_reader (w_os stored_world)).2 (w_cache stored_world).

Lemma stored_world_integral : integral sample_engine stored_world.
Proof.
  unfold stored_world. destruct (newApp _ _ _) as [a|err] eqn:Ea; [|apply sample_world_integral].
  destruct (serve_all _ _ _) as [[resps w]|] eqn:E; [|apply sample_world_integral].
  apply (app_invariant sample_engine sample_engine_wf a (newApp_wired _ _ _ _ Ea) (with_cache (ap_cache a) sample_world) ∅
    (MkServer w ∅ ∅) (proj1 (integral_with_cache _ _ _) sample_world_integral) (newApp_cache _ _ _ _ _ Ea)).
  by eapply serve_all_steps.
Qed.

Lemma crashed_world_ok : integral sample_engine crashed_world.
Proof.
  apply integral_more_files; [apply stored_world_integral|..].
  - apply (bool_decide_unpack (_ ⊆ _)). vm_compute. exact I.
  - apply Nat.leb_le. vm_compute. reflexivity.
  - apply (wf_Write sample_engine sample_engine_wf "photos" "b" sample_reader photos_bucket_dir), (it_tree _ _ stored_world_integral).
Qed.

Lemma reconcileStorage_spec_witness :
  exists w, reconcileStorage 10 sample_engine crashed_world = (Ok tt, w) /\
    size (os_files (w_os crashed_world)) = 2 /\ size (os_files (w_os w)) = 1 /\
    tables w = tables crashed_world /\ integral sample_engine w.
Proof.
  assert (Hc : match reconcileStorage 10 sample_engine crashed_world with
               | (Ok tt, w) => size (os_files (w_os crashed_world)) = 2 /\ size (os_files (w_os w)) = 1
               | _ => False
               end) by (vm_compute; done).
  destruct (reconcileStorage 10 sample_engine crashed_world) as [[[]|err] w] eqn:E; [|by destruct Hc].
  exists w. destruct Hc as [H1 H2]. split; [reflexivity|]. split; [exact H1|]. split; [exact H2|].
  pose proof (wp_run _ _ _ _ _ E (reconcileStorage_spec sample_engine sample_engine_wf 10 crashed_world
    crashed_world_ok)) as (Ht & Hi & _).
  by split.
Defined.
