(* ===== verification/Boot.v ===== *)
(** * From the command line to the last request: [cmd/server/main.go], [serve.go]

    [run]: the configuration, the database ([internal/metadata/store.go]), the data
    directory ([New] of [internal/storage/engine.go]), the reconciliation, the handlers,
    and serving until the end; and what a machine goes through on which the server is
    started, stopped and killed again and again. *)

From S2P Require Import Prelude GoStrings GoUrl GoPath Effects Os Sanitize DiskEngine Migrations Schema Db UserRepo Prog CachedRepo Config S3Http S3Xml S3Objects Auth AuthSpec SigV4Presign ConfigLoad App Integrity IntegrityApp Startup.

#[local] Open Scope Z_scope.

(** ** The name of the database: [sqliteDSN] *)

Definition sqlitePragmas : list string :=
  ["journal_mode(WAL)"; "busy_timeout(5000)"; "synchronous(NORMAL)"; "foreign_keys(ON)"].

(** What [url.URL] does not escape in a path and in a fragment, and what it accepts of a
    text that is already escaped. *)
Definition path_keep (a : ascii) : bool := is_unreserved a || contains_byte "$&+,/:;=@" a.
Definition fragment_keep (a : ascii) : bool := is_unreserved a || contains_byte "$&+,/:;=?@!()*" a.
Definition valid_encoded (keep : ascii -> bool) (s : string) : bool :=
  forallb (fun a => contains_byte "!$&'()*+,;=:@[]%" a || keep a) (String.list_ascii_of_string s).

(** A part of a URL as [url.Parse] reads it and [URL.String] prints it again. *)
Definition reprinted (keep : ascii -> bool) (raw : string) : option string :=
  text ← PathUnescape raw;
  let escaped := escape keep false text in
  Some (if String.eqb raw escaped then escaped else if valid_encoded keep raw then raw else escaped).

(** [parseAuthority] of [net/url]: the user and host of a URL as they are printed again. *)
Class UrlAuthority : Type := authority_text : string -> option string.

(** Neither a question mark nor a number sign is printed in them. *)
Class UrlAuthorityLaws `{UrlAuthority} : Prop :=
  authority_plain a s : authority_text a = Some s -> contains_byte s "?" = false /\ contains_byte s "#" = false.

Definition is_ctl_byte (a : ascii) : bool := (byte_val a <? 32) || (byte_val a =? 127).

Definition ErrDSN : error := ErrOther "parse sqlite uri".
Definition ErrNoPath : error := ErrOther "database path is required".

Section DSN.
Context `{Cwd} `{UrlAuthority}.

(** What precedes the query of a URL whose scheme is [file], after the scheme; [rest] has
    no query and no fragment. *)
Definition file_uri (rest : string) : option string :=
  if negb (has_prefix rest "/") then Some rest
  else if has_prefix rest "//" then
    let authority_path := drop_bytes 2 rest in
    let '(authority, path, found) := cut authority_path "/" in
    let path := if found then String "/" path else "" in
    authority ← (if String.eqb authority "" then Some "" else authority_text authority);
    path ← reprinted path_keep path;
    Some (if String.eqb authority "" && String.eqb path "" then "" else "//" +:+ authority +:+ path)
  else reprinted path_keep rest.

(** The URL of the path: what is before the query, the query, and the fragment. *)
Definition database_url (trimmed : string) : result (string * string * string) :=
  if has_prefix trimmed "file:" then
    let '(u, frag, _) := cut trimmed "#" in
    if existsb is_ctl_byte (String.list_ascii_of_string u) then Err ErrDSN
    else
      let '(rest, rawQuery, _) := cut (drop_bytes 5 u) "?" in
      match file_uri rest, (if String.eqb frag "" then Some "" else reprinted fragment_keep frag) with
      | Some base, Some fragment => Ok (base, rawQuery, fragment)
      | _, _ => Err ErrDSN
      end
  else
    let? absPath := path_abs os_getwd trimmed in
    Ok ("//" +:+ escape path_keep false absPath, "", "").

(** [Values.Add] *)
Definition values_add (key : string) (v : Values) (value : string) : Values :=
  <[key := default [] (v !! key) ++ [value]]> v.

Definition dsn_query (rawQuery : string) : Values := fold_left (values_add "_pragma") sqlitePragmas (url_query rawQuery).

Definition sqliteDSN (dbPath : string) : result string :=
  let trimmed := trim_space dbPath in
  if String.eqb trimmed "" then Err ErrNoPath
  else
    let? (base, rawQuery, fragment) := database_url trimmed in
    Ok ("file:" +:+ base +:+ "?" +:+ values_encode (dsn_query rawQuery) +:+
        (if String.eqb fragment "" then "" else "#" +:+ fragment)).
End DSN.

(** ** The machine *)

(** What outlives a process, the handles that it has on the database - each with the name
    it was opened with - and the setup URLs that were logged. The rows of [mc_sql] are
    those of the migrations; the tables of the repositories are in [mc_world]. *)
Record Machine : Type := MkMachine {
  mc_sql : SqlDb;
  mc_handles : list string;
  mc_world : World;
  mc_log : list string;
}.

Definition on_sql {A} (m : M SqlDb A) : M Machine A := fun x =>
  let '(r, s) := m (mc_sql x) in (r, MkMachine s (mc_handles x) (mc_world x) (mc_log x)).
Definition on_world {A} (m : M World A) : M Machine A := fun x =>
  let '(r, w) := m (mc_world x) in (r, MkMachine (mc_sql x) (mc_handles x) w (mc_log x)).
Definition log_setup (url : string) : M Machine unit := modify (fun x =>
  MkMachine (mc_sql x) (mc_handles x) (mc_world x) (mc_log x ++ [url])).

(** [sql.Open], and [db.Close] of the handle that was opened last. *)
Definition sql_open (dsn : string) : M Machine unit :=
  on_sql (sql_call (fun c => Ok (tt, c))) ;;
  modify (fun x => MkMachine (mc_sql x) (dsn :: mc_handles x) (mc_world x) (mc_log x)).
Definition db_close : M Machine unit := modify (fun x =>
  MkMachine (mc_sql x) (tail (mc_handles x)) (mc_world x) (mc_log x)).

(** The code that closes the database when [m] fails, and the code that always does. *)
Definition close_on_error {A} (m : M Machine A) : M Machine A :=
  let! r := m in
  match r with Ok a => ret a | Err err => db_close ;; fail err end.
Definition defer_close {A} (m : M Machine A) : M Machine A :=
  let! r := m in
  db_close ;; lift_result r.

(** [metadata.Open] *)
Definition Open `{Cwd} `{UrlAuthority} (dbPath : string) : M Machine unit :=
  dsn <- lift_result (sqliteDSN dbPath) ;;
  sql_open dsn ;;
  close_on_error (on_sql (sql_call (fun c => Ok (tt, c)))) ;;
  close_on_error (on_sql Run).

(** [storage.New] *)
Definition defaultDataDir : string := "./data".
Definition New `{Cwd} (dir : string) : M Os engine :=
  let dir := trim_space dir in
  let dir := if String.eqb dir "" then defaultDataDir else dir in
  absDataDir <- lift_result (path_abs os_getwd dir) ;;
  os_mkdir_all (abs_segs absDataDir) ;;
  let tmp := path_join [absDataDir; ".tmp"] in
  os_mkdir_all (abs_segs tmp) ;;
  ret (MkEngine absDataDir tmp).

(** ** Serving *)

(** What happens to a server: the error of [net.Listen], the error with which [Serve] ends
    before the context is done ([None]: the context is done first), the error of
    [Shutdown], and the error that [Serve] returns after it. *)
Record Fate : Type := MkFate {
  ft_listen : option error;
  ft_serve : option error;
  ft_shutdown : option error;
  ft_served : error;
}.
Definition ErrServerClosed : error := ErrOther "http: Server closed".

(** [serve]; what the requests do to the world is [traffic]. *)
Definition serve (fate : Fate) (traffic : World -> World) : M World unit :=
  match ft_listen fate with
  | Some err => fail err
  | None =>
      modify traffic ;;
      match ft_serve fate with
      | Some err => fail err
      | None =>
          match ft_shutdown fate with
          | Some err => fail err
          | None => if bool_decide (ft_served fate = ErrServerClosed) then ret tt else fail (ft_served fate)
          end
      end
  end.

Section Run.
Context `{Cwd} `{UrlAuthority} `{RequestUri}.

(** [run] up to [serve], with the database open; the cache of the process is the one that
    [newApp] makes. [fuel] bounds the pages of a bucket. *)
Definition prepare (cfg : Config) (fuel : nat) : M Machine app :=
  store <- on_world (os (New (cf_data_dir cfg))) ;;
  on_world (reconcileStorage fuel store) ;;
  a <- lift_result (newApp cfg store fuel) ;;
  on_world (modify (with_cache (ap_cache a))) ;;
  setup <- on_world (db (logFirstStartSetup cfg)) ;;
  match setup with Some url => log_setup url | None => ret tt end ;;
  ret a.

(** [run] *)
Definition run (env : Env) (args : list string) (fuel : nat) (fate : Fate) (traffic : app -> World -> World) : M Machine unit :=
  cfg <- lift_result (Load env args) ;;
  Open (cf_db_path cfg) ;;
  defer_close (
    a <- prepare cfg fuel ;;
    on_world (serve fate (traffic a))).
End Run.

(** ** The name of the database *)

Lemma dsn_query_pragmas rawQuery : exists given, dsn_query rawQuery !! "_pragma" = Some (given ++ sqlitePragmas).
Proof.
  unfold dsn_query. generalize (url_query rawQuery). intros v. exists (default [] (v !! "_pragma")).
  unfold sqlitePragmas, fold_left, values_add. repeat (rewrite lookup_insert_eq; cbn [default from_option id]).
  by rewrite <- !app_assoc.
Qed.

Lemma url_query_ok rawQuery : values_ok (url_query rawQuery).
Proof.
  unfold url_query. assert (Hm : forall l st, values_ok st.1 -> values_ok (fold_left parse_setting l st).1).
  { induction l as [|x l IH]; intros [m failed] Hst; [done|]. cbn [fold_left]. apply IH. unfold parse_setting.
    destruct (contains_byte x ";"); [done|]. destruct (String.eqb x ""); [done|]. destruct (cut x "=") as [[k v] f].
    destruct (QueryUnescape k) as [k'|], (QueryUnescape v) as [v'|]; try done.
    intros j l'. cbn [fst]. rewrite lookup_insert_Some. intros [[_ <-]|[_ Hl]]; [by destruct (default [] _)|by apply (Hst j)]. }
  apply Hm, map_Forall_empty.
Qed.

Lemma dsn_query_ok rawQuery : values_ok (dsn_query rawQuery).
Proof.
  unfold dsn_query. generalize (url_query_ok rawQuery). generalize (url_query rawQuery). generalize sqlitePragmas.
  induction l as [|x l IH]; intros v Hv; [done|]. cbn [fold_left]. apply IH. intros j l'.
  unfold values_add. rewrite lookup_insert_Some. intros [[_ <-]|[_ Hl]]; [by destruct (default [] _)|by apply (Hv j)].
Qed.

Lemma contains_join l sep c :
  contains_byte sep c = false -> Forall (fun s => contains_byte s c = false) l -> contains_byte (join l sep) c = false.
Proof.
  intros Hsep. induction 1 as [|s l Hs Hl IH]; [done|]. destruct l as [|t l]; [done|].
  change (join (s :: t :: l) sep) with (s +:+ sep +:+ join (t :: l) sep). by rewrite !contains_byte_append, Hs, Hsep, IH.
Qed.

Lemma values_encode_no_byte v c :
  is_unreserved c = false -> c <> "+"%char -> c <> "%"%char -> c <> "&"%char -> c <> "="%char ->
  contains_byte (values_encode v) c = false.
Proof.
  intros Hu H1 H2 H3 H4.
  assert (Ha : is_alnum c = false) by (unfold is_unreserved in Hu; by apply orb_false_iff in Hu as [? _]).
  assert (He : forall s, contains_byte (QueryEscape s) c = false) by (intros s; by apply escape_no_byte).
  assert (Hone : forall a, c <> a -> contains_byte (String a "") c = false).
  { intros a Hne. cbn [contains_byte]. by destruct (Ascii.eqb_spec a c) as [->|_]. }
  rewrite values_encode_pairs. apply contains_join; [by apply Hone|]. apply Forall_fmap, Forall_forall. intros [k x] _.
  unfold compose, encode_pair. by rewrite !contains_byte_append, !He, Hone.
Qed.

(** ** The name of the database: what it says *)

Section DSNSpec.
Context `{Cwd} `{UrlAuthorityLaws}.

(** A text without a question mark and a number sign. *)
Definition plain (s : string) : Prop := contains_byte s "?" = false /\ contains_byte s "#" = false.

Lemma plain_append s t : plain s -> plain t -> plain (s +:+ t).
Proof. unfold plain. rewrite !contains_byte_append. intros [-> ->] [-> ->]. done. Qed.

Lemma plain_escape s : plain (escape path_keep false s).
Proof. split; by apply escape_no_byte. Qed.

Lemma plain_reprinted raw s : plain raw -> reprinted path_keep raw = Some s -> plain s.
Proof.
  unfold reprinted. intros Hraw. destruct (PathUnescape raw) as [t|]; [|done]. cbn [mbind option_bind].
  intros [= <-]. destruct (String.eqb _ _); [apply plain_escape|]. destruct (valid_encoded _ _); [done|apply plain_escape].
Qed.

Lemma contains_cut s c d b r f : contains_byte s d = false -> cut s c = (b, r, f) ->
  contains_byte b d = false /\ contains_byte r d = false.
Proof.
  intros Hs Hc. destruct (cut_spec _ _ _ _ _ Hc) as [_ Hf]. destruct f.
  - rewrite Hf, contains_byte_append in Hs. apply orb_false_iff in Hs as [Hb Hr]. split; [done|].
    cbn [contains_byte] in Hr. by destruct (Ascii.eqb c d).
  - destruct Hf as (<- & -> & _). done.
Qed.

Lemma contains_drop n s c : contains_byte s c = false -> contains_byte (drop_bytes n s) c = false.
Proof.
  intros Hs. rewrite <- (take_drop_bytes n s), contains_byte_append in Hs. by apply orb_false_iff in Hs as [_ ?].
Qed.

Lemma plain_file_uri rest base : plain rest -> file_uri rest = Some base -> plain base.
Proof.
  intros [Hq Hh]. unfold file_uri. destruct (negb _); [by intros [= <-]|]. destruct (has_prefix rest "//").
  - destruct (cut (drop_bytes 2 rest) "/") as [[authority path] found] eqn:Ec.
    pose proof (contains_cut _ _ _ _ _ _ (contains_drop 2 _ _ Hq) Ec) as [_ Hpq].
    pose proof (contains_cut _ _ _ _ _ _ (contains_drop 2 _ _ Hh) Ec) as [_ Hph].
    assert (Hpath : plain (if found then String "/" path else "")) by (destruct found; [exact (conj Hpq Hph)|by split]).
    revert Hpath. generalize (if found then String "/" path else ""). intros p Hp.
    destruct (if String.eqb authority "" then Some "" else authority_text authority) as [a|] eqn:Ea; [|done]. cbn [mbind option_bind].
    assert (Ha : plain a).
    { destruct (String.eqb authority ""); [injection Ea as <-; by split|by apply authority_plain in Ea]. }
    destruct (reprinted path_keep p) as [p'|] eqn:Ep; [|done]. cbn [mbind option_bind]. intros [= <-].
    destruct (_ && _); [by split|].
    change (plain ("//" +:+ (a +:+ p'))). apply plain_append; [by split|]. apply plain_append; [done|]. exact (plain_reprinted _ _ Hp Ep).
  - by apply plain_reprinted.
Qed.

(** Whatever the path of the database, its name is a URL whose query, which is closed by
    the end or by a fragment, sets the four pragmas after all that the path itself may
    set: foreign keys are enforced. *)
Theorem sqliteDSN_pragmas dbPath dsn : sqliteDSN dbPath = Ok dsn ->
  exists base query fragment given, dsn = base +:+ "?" +:+ query +:+ fragment /\ plain base /\
    contains_byte query "#" = false /\ (fragment = "" \/ exists text, fragment = "#" +:+ text) /\
    url_query query !! "_pragma" = Some (given ++ sqlitePragmas).
Proof.
  unfold sqliteDSN. destruct (String.eqb (trim_space dbPath) ""); [done|].
  destruct (database_url (trim_space dbPath)) as [[[base rawQuery] fragment]|err] eqn:Eu; [|done]. cbn [result_bind].
  intros [= <-]. destruct (dsn_query_pragmas rawQuery) as [given Hg].
  exists ("file:" +:+ base), (values_encode (dsn_query rawQuery)), (if String.eqb fragment "" then "" else "#" +:+ fragment), given.
  split; [reflexivity|]. rewrite query_round_trip by apply dsn_query_ok.
  split; [|split; [by apply values_encode_no_byte|split; [|done]]].
  - apply plain_append; [by split|]. revert Eu. unfold database_url. destruct (has_prefix _ "file:").
    + destruct (cut (trim_space dbPath) "#") as [[u frag] found] eqn:Ec. destruct (existsb _ _); [done|].
      destruct (cut (drop_bytes 5 u) "?") as [[rest raw] found'] eqn:Eq.
      destruct (file_uri rest) as [base'|] eqn:Ef; [|done].
      match goal with |- match ?o with _ => _ end = _ -> _ => destruct o as [fragment'|]; [|done] end. intros [= -> _ _].
      eapply plain_file_uri; [|exact Ef]. split.
      * by destruct (cut_spec _ _ _ _ _ Eq).
      * refine (proj1 (contains_cut _ _ _ _ _ _ _ Eq)). apply contains_drop. by destruct (cut_spec _ _ _ _ _ Ec).
    + destruct (path_abs os_getwd (trim_space dbPath)) as [p|]; [|done]. cbn [result_bind]. intros [= <- _ _].
      change (plain ("//" +:+ escape path_keep false p)). apply plain_append; [by split|apply plain_escape].
  - destruct (String.eqb fragment ""); [by left|right]. by eexists.
Qed.
End DSNSpec.

(** ** The data directory *)

Section NewSpec.
Context `{Cwd}.

(** The data directory that a configuration names, as an absolute path. *)
Definition data_directory (dir : string) : result string :=
  let dir := trim_space dir in
  path_abs os_getwd (if String.eqb dir "" then defaultDataDir else dir).

(** A step of the file system that only adds directories. *)
Definition more_dirs (s s' : Os) : Prop :=
  os_files s' = os_files s /\ os_uuids s' = os_uuids s /\ (wf_os s -> wf_os s').

Lemma mkdir_all_more path s : wp (os_mkdir_all (abs_segs path)) (fun _ s' => more_dirs s s') s.
Proof.
  assert (Hf : wp (os_mkdir_all (abs_segs path)) (fun _ s' => os_files s' = os_files s /\ os_uuids s' = os_uuids s) s).
  { apply wp_syscall; intros fs; [done|]. unfold wp. by destruct (existsb _ _). }
  apply wp_intro. intros r s' E. destruct (wp_run _ _ _ _ _ E Hf) as [H1 H2]. split; [done|]. split; [done|].
  intros Hs. exact (wp_run _ _ _ _ _ E (wf_os_mkdir_all _ (abs_segs_normal path) s Hs)).
Qed.

(** [New] adds no file and removes none, and its engine is the one of that directory. *)
Lemma New_spec dir s :
  wp (New dir) (fun r s' => more_dirs s s' /\
    forall e, r = Ok e -> data_directory dir = Ok (dataDir e) /\ tmpDir e = path_join [dataDir e; ".tmp"]) s.
Proof.
  unfold New, data_directory. cbv zeta. apply wp_bind, wp_lift_result. destruct (path_abs _ _) as [abs|err]; [|done].
  apply wp_bind. eapply wp_mono; [apply mkdir_all_more|]. intros [[]|err] s1 (F1 & U1 & W1); [|done].
  apply wp_bind. eapply wp_mono; [apply mkdir_all_more|]. intros [[]|err] s2 (F2 & U2 & W2).
  - apply wp_ret. split; [split; [congruence|split; [congruence|auto]]|]. by intros e [= <-].
  - split; [split; [congruence|split; [congruence|auto]]|done].
Qed.

(** The directory is absolute when that of the process is: the engine is well-formed. *)
Lemma data_directory_wf dir e :
  (forall wd, os_getwd = Ok wd -> is_abs wd = true) ->
  data_directory dir = Ok (dataDir e) -> tmpDir e = path_join [dataDir e; ".tmp"] -> wf_engine e.
Proof.
  intros Hwd Hd Ht. split; [|exact Ht]. unfold data_directory, path_abs in Hd. cbv zeta in Hd.
  set (d := if String.eqb (trim_space dir) "" then defaultDataDir else trim_space dir) in Hd.
  destruct (is_abs d) eqn:Ed.
  - injection Hd as <-. exists (abs_segs d). split; [apply abs_segs_normal|by apply clean_abs].
  - destruct os_getwd as [wd|]; [|done]. injection Hd as Hd.
    eexists. split; [|rewrite <- Hd; apply path_join_abs; by apply Hwd]. apply Forall_reverse, clean_segs_rooted; [apply split_seps|].
    apply Forall_reverse, abs_segs_normal.
Qed.
End NewSpec.

(** ** Starting again and again *)

Section Sessions.
Context `{Cwd} `{UL : UuidLaws} `{Random} `{XmlDecoder} `{MediaTypes} `{UrlAuthority} `{RequestUri}.
Context (store : engine) (We : wf_engine store).

(** Every configuration that is loaded names the directory of [store]. *)
Definition stores_in (env : Env) (args : list string) : Prop :=
  forall cfg, Load env args = Ok cfg -> data_directory (cf_data_dir cfg) = Ok (dataDir store).

(** What the requests of a run do: the server's steps, stopped at any moment. *)
Definition served_by (traffic : app -> World -> World) : Prop := forall a w, exists mutexes requests,
  rtc (server_step (ServeApp a) environment) (MkServer w ∅ ∅) (MkServer (traffic a w) mutexes requests).

(** What happens to the machine: the server runs from its start to its end, which may be
    a kill at any moment, its requests interleaved in any way; or time passes and what
    will fail changes, between two runs. *)
Inductive session (x : Machine) : Machine -> Prop :=
  | session_run env args fuel fate traffic r x' :
      stores_in env args ->
      served_by traffic ->
      run env args fuel fate traffic x = (r, x') -> session x x'
  | session_outside w' faults :
      environment (mc_world x) w' ->
      session x (MkMachine (MkSqlDb (sq_catalog (mc_sql x)) faults) (mc_handles x) w' (mc_log x)).

(** What is true between two runs: the storage is as the tables say, the schema can be
    brought to the final one [final], and the database is open as often as before. *)
Record ready (final : option Catalog) (handles : list string) (x : Machine) : Prop := {
  rd_integral : integral store (mc_world x);
  rd_schema : upgrade migrations (ensured (sq_catalog (mc_sql x))) = final;
  rd_handles : mc_handles x = handles;
}.

Lemma wp_on_sql {A} (m : M SqlDb A) (Q : result A -> Machine -> Prop) x :
  wp m (fun r s => Q r (MkMachine s (mc_handles x) (mc_world x) (mc_log x))) (mc_sql x) -> wp (on_sql m) Q x.
Proof. unfold wp, on_sql. by destruct (m (mc_sql x)). Qed.

Lemma wp_on_world {A} (m : M World A) (Q : result A -> Machine -> Prop) x :
  wp m (fun r w => Q r (MkMachine (mc_sql x) (mc_handles x) w (mc_log x))) (mc_world x) -> wp (on_world m) Q x.
Proof. unfold wp, on_world. by destruct (m (mc_world x)). Qed.

Lemma ready_sql final handles handles' x s :
  ready final handles x -> upgrade migrations (ensured (sq_catalog s)) = final ->
  ready final handles' (MkMachine s handles' (mc_world x) (mc_log x)).
Proof. by intros [Hi _ _]. Qed.

Lemma ready_world final handles x w log :
  ready final handles x -> integral store w -> ready final handles (MkMachine (mc_sql x) (mc_handles x) w log).
Proof. by intros [_ Hs Hh]. Qed.

Lemma wp_ping final handles x (Q : result unit -> Machine -> Prop) :
  ready final handles x -> (forall r x', ready final handles x' -> mc_world x' = mc_world x -> Q r x') ->
  wp (on_sql (sql_call (fun c => Ok (tt, c)))) Q x.
Proof.
  intros Hx HQ. apply wp_on_sql. pose proof (rd_handles _ _ _ Hx) as <-.
  unfold wp, sql_call. destruct (sq_faults (mc_sql x)) as [|[] fs]; cbn; apply HQ; try done; eapply ready_sql; try done; apply Hx.
Qed.

Lemma ready_closed final dsn handles x : ready final (dsn :: handles) x ->
  ready final handles (MkMachine (mc_sql x) (tail (mc_handles x)) (mc_world x) (mc_log x)).
Proof. intros [Hi Hs Hh]. split; [done|done|]. simpl. by rewrite Hh. Qed.

(** The final schema is there. *)
Definition migrated (final : option Catalog) (x : Machine) : Prop := final = Some (sq_catalog (mc_sql x)).

Lemma wp_close_on_error final dsn handles x (m : M Machine unit) (fact : Machine -> Prop) :
  wp m (fun r x' => ready final (dsn :: handles) x' /\ (r = Ok tt -> fact x')) x ->
  wp (close_on_error m) (fun r x' =>
    match r with Ok _ => ready final (dsn :: handles) x' /\ fact x' | Err _ => ready final handles x' end) x.
Proof.
  intros Hm. apply wp_bind, wp_attempt. eapply wp_mono; [exact Hm|]. intros [[]|err] x' [Hr Hf].
  - apply wp_ret. by split; [|apply Hf].
  - apply wp_bind, wp_modify, wp_fail. by eapply ready_closed.
Qed.

Lemma db_Open_spec final handles path x :
  ready final handles x ->
  wp (Open path) (fun r x' =>
    match r with
    | Ok _ => exists dsn, sqliteDSN path = Ok dsn /\ ready final (dsn :: handles) x' /\ migrated final x'
    | Err _ => ready final handles x'
    end) x.
Proof.
  intros Hx. unfold Open. apply wp_bind, wp_lift_result. destruct (sqliteDSN path) as [dsn|err]; [|done].
  apply wp_bind, wp_bind. eapply wp_ping; [exact Hx|]. intros [[]|err] x1 K1 _; [|done].
  apply wp_modify. set (x2 := MkMachine _ (dsn :: _) _ _).
  assert (K2 : ready final (dsn :: handles) x2).
  { destruct K1 as [Hi Hs Hh]. split; [done|done|]. simpl. by rewrite Hh. }
  apply wp_bind. eapply wp_mono; [apply (wp_close_on_error final dsn handles x2 _ (fun _ => True))|].
  { eapply wp_ping; [exact K2|]. by intros r x3 K3 _. }
  intros [[]|err] x3 K3; [|done]. destruct K3 as [K3 _].
  eapply wp_mono; [apply (wp_close_on_error final dsn handles x3 _ (migrated final))|].
  - apply wp_on_sql. eapply wp_mono; [apply Run_from|]. intros r s ((U1 & U2 & _) & _ & He).
    rewrite (rd_schema _ _ _ K3) in U1, U2. split.
    + pose proof (rd_handles _ _ _ K3) as <-. by eapply ready_sql.
    + intros ->. unfold migrated. simpl. rewrite U2 by done. f_equal. by apply He.
  - intros [[]|err] x4 K4; [|done]. by exists dsn.
Qed.

Lemma integral_db w d : integral store w -> db_tables d = tables w -> integral store (MkWorld d (w_os w) (w_cache w)).
Proof. intros [] E. split; simpl; by rewrite ?E. Qed.

Lemma engine_eq (e e' : engine) : dataDir e = dataDir e' -> tmpDir e = tmpDir e' -> e = e'.
Proof. destruct e, e'. simpl. congruence. Qed.

Lemma New_store dir w (Q : result engine -> World -> Prop) :
  data_directory dir = Ok (dataDir store) -> integral store w ->
  (forall w', integral store w' -> Q (Ok store) w') -> (forall e w', integral store w' -> Q (Err e) w') ->
  wp (os (New dir)) Q w.
Proof using We UL.
  intros Hd Hi HQ HE. apply wp_os. eapply wp_mono; [apply New_spec|]. intros r o ((Hf & Hu & Hwf) & Hr).
  assert (Hi' : integral store (MkWorld (w_db w) o (w_cache w))).
  { apply integral_more_files; [done|by rewrite Hf|lia|by apply Hwf, (it_tree _ _ Hi)]. }
  destruct r as [e|err]; [|by apply HE]. destruct (Hr e eq_refl) as [Hd' Ht].
  assert (Hdir : dataDir e = dataDir store) by congruence.
  assert (e = store) as ->; [|by apply HQ]. apply engine_eq; [done|]. by rewrite Ht, Hdir, (wfe_tmp _ We).
Qed.

Lemma prepare_spec final handles cfg fuel x :
  data_directory (cf_data_dir cfg) = Ok (dataDir store) -> ready final handles x ->
  wp (prepare cfg fuel) (fun r x' => ready final handles x' /\ mc_sql x' = mc_sql x /\
    forall a, r = Ok a -> newApp cfg store fuel = Ok a /\ w_cache (mc_world x') = ap_cache a) x.
Proof using We UL.
  intros Hd Hx. unfold prepare.
  assert (Hkeep : forall w log, integral store w -> ready final handles (MkMachine (mc_sql x) (mc_handles x) w log)).
  { intros w log. by apply ready_world. }
  apply wp_bind, wp_on_world, (New_store (cf_data_dir cfg)); [done|apply Hx|intros w1 W1|intros e w1 W1; split; [by apply Hkeep|done]].
  apply wp_bind, wp_on_world. simpl.
  eapply wp_mono; [by apply (reconcileStorage_world store We fuel w1)|]. intros r w2 (_ & W2 & _).
  destruct r as [[]|err]; [|split; [by apply Hkeep|done]].
  apply wp_bind, wp_lift_result. destruct (newApp cfg store fuel) as [a|err]; [|split; [by apply Hkeep|done]].
  apply wp_bind, wp_on_world, wp_modify. set (w3 := with_cache (ap_cache a) w2). cbn [mc_sql mc_handles mc_log].
  assert (W2' : integral store w3) by by apply integral_with_cache.
  apply wp_bind, wp_on_world, wp_db. unfold logFirstStartSetup, UserRepository.UserCount. simpl.
  apply wp_bind, wp_query; [split; [by apply Hkeep, (integral_db w3)|done]|]. intros fs. apply wp_ret.
  assert (W3 : forall log, ready final handles (MkMachine (mc_sql x) (mc_handles x) (MkWorld (MkDb (tables w3) (db_clock (w_db w3)) fs) (w_os w3) (w_cache w3)) log)).
  { intros log. by apply Hkeep, (integral_db w3). }
  apply wp_bind. destruct (_ =? 0); [apply wp_modify|]; (split; [apply W3|split; [done|by intros a' [= <-]]]).
Qed.

Lemma traffic_integral cfg fuel a traffic w :
  newApp cfg store fuel = Ok a -> served_by traffic -> integral store w -> w_cache w = ap_cache a -> integral store (traffic a w).
Proof using We UL.
  intros Ha Ht Hi Ec. destruct (Ht a w) as (mutexes & requests & Hs). apply (app_invariant store We a) in Hs; try done.
  - by eapply newApp_wired.
  - rewrite Ec. by eapply newApp_cache.
Qed.

Lemma serve_spec fate (traffic : World -> World) w :
  integral store (traffic w) -> integral store w ->
  wp (serve fate traffic) (fun r w' => integral store w' /\
    (r = Ok tt -> ft_listen fate = None /\ ft_serve fate = None /\ ft_shutdown fate = None /\ ft_served fate = ErrServerClosed)) w.
Proof.
  intros Ht Hi. unfold serve. destruct (ft_listen fate); [by apply wp_fail|]. apply wp_bind, wp_modify.
  destruct (ft_serve fate); [by apply wp_fail|]. destruct (ft_shutdown fate); [by apply wp_fail|].
  case_bool_decide; [by apply wp_ret|by apply wp_fail].
Qed.

Lemma run_from final handles env args fuel fate traffic x :
  stores_in env args -> served_by traffic -> ready final handles x ->
  wp (run env args fuel fate traffic) (fun r x' => ready final handles x' /\
    (r = Ok tt -> migrated final x' /\
       ft_listen fate = None /\ ft_serve fate = None /\ ft_shutdown fate = None /\ ft_served fate = ErrServerClosed)) x.
Proof using We UL.
  intros Hst Ht Hx. unfold run. apply wp_bind, wp_lift_result. destruct (Load env args) as [cfg|err] eqn:El; [|done].
  apply wp_bind. eapply wp_mono; [by apply db_Open_spec|]. intros [[]|err] x1 K1; [|done].
  destruct K1 as (dsn & _ & K1 & M1). apply wp_bind, wp_attempt, wp_bind.
  eapply wp_mono; [by apply (prepare_spec final (dsn :: handles) cfg fuel); [apply Hst|]|].
  intros r x2 (K2 & Es & Ha). assert (M2 : migrated final x2) by (unfold migrated; by rewrite Es). destruct r as [a|err].
  2: { apply wp_bind, wp_modify, wp_lift_result. split; [by eapply ready_closed|done]. }
  apply wp_on_world. eapply wp_mono; [apply serve_spec|].
  - destruct (Ha a eq_refl) as [Ha' Ec]. apply (traffic_integral cfg fuel); [done|done|apply K2|done].
  - apply K2.
  - intros r w [Hi Hf]. apply wp_bind, wp_modify, wp_lift_result. split; [|by intros ->; split; [|apply Hf]].
    eapply ready_closed. by apply (ready_world final (dsn :: handles) x2 w).
Qed.

Lemma session_ready final handles x x' : session x x' -> ready final handles x -> ready final handles x'.
Proof using We UL.
  intros [env args fuel fate traffic r y Hst Ht Hr|w' faults He] Hx.
  - exact (proj1 (wp_run _ _ _ _ _ Hr (run_from final handles env args fuel fate traffic x Hst Ht Hx))).
  - destruct Hx as [Hi Hs Hh]. split; [|done|done]. destruct He. by destruct Hi; split; [..|apply wf_os_faults].
Qed.

(** C4: the storage survives any number of starts. From a machine whose storage agrees with
    its metadata, whatever the environment and the command lines are, as long as they
    name the same data directory, and however the runs end - in the configuration, the
    opening of the database, its migrations, the reconciliation or the listener, by a
    graceful shutdown, or killed between any two calls of the requests being served, with
    any failures - the storage agrees with the metadata again after every run, no handle
    on the database is left open, and the schema can still be brought to the same final
    one. A run that ends without an error has brought it there, and ended by shutdown. *)
Theorem restarts_keep_integrity x y :
  integral store (mc_world x) -> rtc session x y ->
  integral store (mc_world y) /\ mc_handles y = mc_handles x /\
  upgrade migrations (ensured (sq_catalog (mc_sql y))) = upgrade migrations (ensured (sq_catalog (mc_sql x))) /\
  forall env args fuel fate traffic z, stores_in env args -> served_by traffic ->
    run env args fuel fate traffic y = (Ok tt, z) ->
    upgrade migrations (ensured (sq_catalog (mc_sql x))) = Some (sq_catalog (mc_sql z)) /\ ft_served fate = ErrServerClosed.
Proof using We UL.
  intros Hi Hs. set (final := upgrade migrations (ensured (sq_catalog (mc_sql x)))).
  assert (Hx : ready final (mc_handles x) x) by done.
  assert (Hy : ready final (mc_handles x) y).
  { clearbody final. revert Hx. generalize (mc_handles x). intros handles Hx. clear Hi.
    induction Hs as [x|x z y Hxz _ IH]; [done|]. by eapply IH, session_ready. }
  split; [apply Hy|]. split; [apply Hy|]. split; [apply Hy|].
  intros env args fuel fate traffic z Hst Ht Hr.
  pose proof (wp_run _ _ _ _ _ Hr (run_from final (mc_handles x) env args fuel fate traffic y Hst Ht Hy)) as [_ Hok].
  destruct (Hok eq_refl) as (Hm & _ & _ & _ & Hc). done.
Qed.
End Sessions.

(** ** A sample machine *)

#[local] Instance sample_authority : UrlAuthority := fun a => if contains_byte a "?" || contains_byte a "#" then None else Some a.
#[local] Instance sample_request_uri : RequestUri := fun s => has_prefix s "http".

(** The setting of a path is overridden, and a question mark in a path is escaped. *)
Example dsn_of_uri : sqliteDSN " file:fbs.db?_pragma=foreign_keys(OFF) " =
  Ok ("file:fbs.db?_pragma=foreign_keys%28OFF%29&_pragma=journal_mode%28WAL%29&_pragma=busy_timeout%285000%29" +:+
      "&_pragma=synchronous%28NORMAL%29&_pragma=foreign_keys%28ON%29").
Proof. vm_compute. reflexivity. Qed.
Example dsn_of_path : database_url "/var/lib/what?/fbs.db" = Ok ("///var/lib/what%3F/fbs.db", "", "").
Proof. vm_compute. reflexivity. Qed.

(** Nothing is installed yet. *)
Definition new_machine : Machine := MkMachine (MkSqlDb empty_catalog []) [] (MkWorld (MkDb empty_tables 5 []) empty_os None) [].

Definition boot_args : list string := ["-dev"; "-data-dir"; "/srv/data"; "-db-path"; "/srv/fbs.db"].

(** A bucket is created and an object is stored. *)
Definition boot_traffic (a : app) (w : World) : World :=
  match serve_all (ServeApp a) (take 2 app_events) w with Some (_, w') => w' | None => w end.

Definition stopped : Fate := MkFate None None None ErrServerClosed.
Definition no_listener : Fate := MkFate (Some ErrIO) None None ErrServerClosed.

(** One run to the end, and one whose address is in use. *)
Definition first_run : result unit * Machine := run ∅ boot_args 10 stopped boot_traffic new_machine.
Definition second_run : result unit * Machine := run ∅ boot_args 10 no_listener boot_traffic first_run.2.

Lemma new_machine_integral : integral sample_engine (mc_world new_machine).
Proof.
  split.
  - split; [apply empty_tables_wf|]. apply map_Forall_empty.
  - by intros b [].
  - done.
  - done.
  - done.
  - by intros id [].
  - intros n r r'. destruct r; simpl; [by intros (? & ? & _)..|by intros []].
  - apply empty_os_wf.
Qed.

Lemma boot_traffic_served : served_by boot_traffic.
Proof.
  intros a w. unfold boot_traffic. destruct (serve_all _ _ w) as [[resps w']|] eqn:E.
  - exists ∅, ∅. by eapply serve_all_steps.
  - exists ∅, ∅. apply rtc_refl.
Qed.

Lemma boot_stores : stores_in sample_engine ∅ boot_args.
Proof.
  intros cfg. assert (Hc : match Load ∅ boot_args with
                           | Ok cfg => data_directory (cf_data_dir cfg) = Ok "/srv/data"
                           | Err _ => True
                           end) by (vm_compute; reflexivity).
  intros E. by rewrite E in Hc.
Qed.

Lemma restarts_keep_integrity_witness :
  first_run.1 = Ok tt /\ second_run.1 = Err ErrIO /\
  size (t_objects (tables (mc_world second_run.2))) = 1%nat /\ length (mc_log second_run.2) = 1%nat /\
  integral sample_engine (mc_world second_run.2) /\ mc_handles second_run.2 = [].
Proof.
  assert (Hc : first_run.1 = Ok tt /\ second_run.1 = Err ErrIO /\
    size (t_objects (tables (mc_world second_run.2))) = 1%nat /\ length (mc_log second_run.2) = 1%nat) by (vm_compute; by split_and!).
  destruct Hc as (H1 & H2 & H3 & H4). split; [exact H1|]. split; [exact H2|]. split; [exact H3|]. split; [exact H4|].
  assert (Hs : rtc (session sample_engine) new_machine second_run.2).
  { eapply rtc_l; [|apply rtc_once].
    - apply (session_run sample_engine _ ∅ boot_args 10 stopped boot_traffic first_run.1); [apply boot_stores|apply boot_traffic_served|].
      exact (surjective_pairing first_run).
    - apply (session_run sample_engine _ ∅ boot_args 10 no_listener boot_traffic second_run.1); [apply boot_stores|apply boot_traffic_served|].
      exact (surjective_pairing second_run). }
  destruct (restarts_keep_integrity sample_engine sample_engine_wf new_machine second_run.2 new_machine_integral Hs) as (Hi & Hh & _).
  split; [exact Hi|exact Hh].
Defined.
